(* ===== verification/_CoqProject ===== *)
-Q . S2P
Prelude.v
Containers.v
Text.v
Status.v
Time.v
Hash.v
Identity.v
Double.v
Value.v
Drift.v
Intent.v
Observation.v
Freshness.v
Policy.v
Comparison.v
Finding.v
Ledger.v
LedgerApply.v
LedgerFacts.v
ApplyFacts.v
LedgerProps.v
Decimal.v
StdText.v
DecimalFacts.v
Json.v
JsonGrammar.v
JsonTokens.v
JsonDouble.v
JsonFacts.v
JsonProps.v
JsonCodec.v
JsonHelp.v
Wire.v
Interchange.v
Query.v
Engine.v
EngineFacts.v
Durable.v
PolicyCodec.v
Persistence.v
PersistFacts.v
Recovery.v
Concurrency.v
EngineProps.v
Server.v
Net.v
Service.v
PersistProps.v
Client.v
Report.v
Cli.v
Collector.v
