(* ===== verification/Prelude.v ===== *)
(** * Network Drift Observatory: verification library

    The Network Drift Observatory compares what a network is meant to be (intent)
    with what sources report of it (observations) and keeps a ledger of the
    differences it finds.  This library models the C++ library under
    include/summon/network_drift_observatory and src, with the two tools, and
    proves what makes it correct.  A definition carries the name of the function
    or type it models; a class prefix is added where two classes share a method
    name ([Publisher_Connect], [Observatory_Save]).

    ** The program and the files that model it

    A name in parentheses is the stem of a header and its source.

    Values and bytes.  Hash.v: SHA-256 and CRC-32 (hash).  Identity.v:
    identities, digests, field paths (identity).  Value.v: the value tree with
    its validation, digest and comparison (value); Double.v, Decimal.v and
    Text.v hold what they use of binary64 numbers, of std::to_chars and
    std::from_chars, and of strings.  Time.v: checked arithmetic and RFC 3339 time
    (checked.hpp, time).  Status.v: Status, Result, reason codes, limits
    (status, limits).  Containers.v: std::map as an association list in key
    order, std::sort, std::unique.

    Domain.  Drift.v (drift), Intent.v (intent), Observation.v
    (observation), Freshness.v (freshness), Policy.v and PolicyCodec.v
    (policy), Finding.v (finding).  Comparison.v (comparison): one target's
    baseline and candidate snapshots with their freshness verdicts become drafts
    of findings and a compliance decision.

    Ledger.  Ledger.v and LedgerApply.v (ledger): the state is the record
    [FindingLedger]; every public mutator is a function on it.  LedgerFacts.v and
    ApplyFacts.v keep the invariant [ledger_ok] and the relation [evolves];
    LedgerProps.v runs sequences of mutators: a [Mutation] is one of a ledger in
    service, a [Restoration] a recovery-only one, a [LedgerCall] either.
    Query.v (query): pages of findings and of the timeline.

    Runtime.  Engine.v (engine): the record [Observatory] owns the ledger, the
    sources, the policy and the live epoch; one function per public call, and an
    evaluation in the parts it has between its critical sections.  Concurrency.v:
    a step relation that interleaves those parts with any other calls, saving and
    loading among them.  EngineFacts.v and EngineProps.v: what holds in every
    interleaving.

    Documents.  Json.v (json): writers and parser; JsonGrammar.v is the grammar
    they are measured against, JsonTokens.v, JsonDouble.v, JsonFacts.v,
    JsonProps.v and JsonCodec.v the proofs.  JsonHelp.v (json_help.hpp): the error
    monad [Decoded] of the decoders.  Interchange.v (interchange), Durable.v and
    Persistence.v (persistence) with PersistFacts.v, Recovery.v, what a load may
    leave, which the runtime relies on, and PersistProps.v; Report.v (report).

    Transport.  Wire.v (wire): frames and their documents.  Server.v (server):
    fences, session table, sessions.  Client.v (client): the publisher.  Net.v
    (net): sockets and listeners.  Service.v (server): the listener, the accepting
    thread, the threads of the sessions on those sockets, and the stages of [Stop].

    Tools.  StdText.v, Cli.v (tools/ndo_cli.cpp), Collector.v
    (tools/ndo_collector.cpp).

    ** How the parts meet

    The tools call the runtime; the server calls it for every frame of a session,
    and the publisher is the server's peer over a [Transport], the interface a
    socket offers: Client.v and Server.v are proved against the class, Net.v makes
    a socket of the system an instance ([wired_transport], with its laws), and
    scripts of bytes are another for the examples.  The runtime gives the ledger
    an evaluation computed by [CompareTarget]; a save writes the ledger through
    the class [FileSystem] of Persistence.v, of which [Disk] is an instance.  Two
    more classes recur: [Enum], an enumeration with its numbers and names, and
    [Ordered], a key type.  Functions that fill an output parameter and return a
    Status are [Decoded] values or return the output next to the status, so that
    what a refusal leaves behind can be stated.

    ** What is proved

    - Decisions: compliance is declared exactly for a converged target of usable,
      agreeing sources; stale evidence supports nothing; the order of the
      candidates does not matter; every evaluation is well formed.
    - Ledger: the invariant of every reachable ledger, under which conditions the
      recovery-only operations keep it, how ledgers in service evolve, that a
      finding is resolved only on decidable evidence of the committed generation,
      that a fenced evaluation leaves a finding as it is, its expired suppression
      apart, and that operator actions leave the truth alone.
    - Runtime: an uninterrupted evaluation, on however many threads, is the pure
      reference function [EvaluateLedgerOnce]; the state stays well formed in
      every interleaving, loads included, and nothing goes back but the ledger
      that a load replaces; [Stop] returns, unless evaluations are admitted
      without a start and keep coming; after a rotation or an undisturbed load
      nothing is concluded before an observation; refused calls change nothing.
    - Text: the JSON parser terminates and accepts exactly its grammar; writers
      read back; documents of intent, observation, policy and the report round
      trip exactly when, as a whole, they are within the limits the parser applies
      ([read_within]), which validation does not ensure; decoders certify what
      they accept.
    - Durability: a save replaces the file as a whole or not at all; a restart
      keeps the ledger; whatever is loaded is conservative.
    - Transport: frames are exact; a session refines transitions of the fences
      and the runtime; the fences are consistent in every order of greetings and
      snapshots; the publisher's frames are understood; a send is whole or failed
      and connections leak no sockets; a server accounts for every socket in
      every interleaving of its threads, and has none left once a stop is over.
    - Tools: the exit code of an evaluation is its verdict, which it prints; the
      state file follows the run, unless a report is written over it; the collector publishes its plan and counts its acknowledgements.

    ** Integers, fuel and bounds

    A machine integer is a [Z]; where the source lets it wrap the reduction is
    written ([wrap64], [wrap32]), and where signed overflow is undefined the
    result is [None] or says so.  Loops over data are structural.  The others run
    on fuel that is enough: the JSON parser on twice the length of the text plus
    two ([Parse_terminates]); field paths, UTF-8 and SHA-256 blocks on the length
    of their input; reads and sends on the number of bytes that are missing, since
    each call that succeeds moves at least one ([send_is_whole_or_failed] and the
    facts of Server.v); a decimal text of 64 bits on 20 digits; the shortest text
    of a double on 17 digits, which always suffice ([shortest_digits_reads_back]),
    and 400 steps for its decimal exponent.  [session] and [collector] loops run
    over the list of the readings of the clock they take.

    ** Not modelled, and why

    The calls of the operating system (sockets, files, clocks) are parameters with
    their documented behaviour as laws; each class has a concrete instance under
    which the witnesses run.  Threads are interleavings of atomic steps: the
    memory model and the blocking of [accept] and [join] are not represented (a
    join is a step that is possible once the thread has ended), and the command
    [serve] of the tool behind its port check is a parameter.  [std::stod] reads by
    the locale and is a parameter.  Allocation never fails.  SHA-256 is computed,
    never assumed injective: statements about content identities are about their
    preimages.  The benchmark, the examples and the export macros have no
    behaviour of their own. *)

From Stdlib Require Import ZArith Lia List Bool Sorting.Sorted Permutation.
From Stdlib Require Import Ascii String.
From stdpp Require Import base tactics list strings.
#[local] Open Scope Z_scope.

(** ** Machine integers

    A [std::uint64_t], [std::size_t] or [std::int64_t] is a [Z]; arithmetic that
    the source lets wrap is written with the explicit reduction below. *)

Definition UINT64_MAX : Z := 18446744073709551615.
Definition INT64_MAX : Z := 9223372036854775807.
Definition INT64_MIN : Z := -9223372036854775808.
Definition UINT32_MAX : Z := 4294967295.

Definition wrap64 (z : Z) : Z := z mod 18446744073709551616.
Definition wrap32 (z : Z) : Z := z mod 4294967296.
Definition is_u64 (z : Z) : Prop := 0 <= z <= UINT64_MAX.
Definition is_i64 (z : Z) : Prop := INT64_MIN <= z <= INT64_MAX.

(** [static_cast<std::uint64_t>] of a signed 64-bit value. *)
Definition to_u64 (z : Z) : Z := wrap64 z.

(** [std::string::size] and [std::vector::size]. *)
Definition ssize (s : string) : Z := Z.of_nat (String.length s).
Definition vsize {A} (l : list A) : Z := Z.of_nat (length l).

(** ** Record update: [r <| field := value |>]

    [Eta R] says how a record is rebuilt from its own projections; the update
    of one projection is read off that term, so no setter is written by hand. *)

Class Eta (R : Type) := eta : R -> R.

Class Update {R T : Type} (proj : R -> T) := update : (T -> T) -> R -> R.
Arguments update {R T} proj {_} _ _.

Ltac build_update R T proj :=
  let inst := constr:(_ : Eta R) in
  let upd := constr:(fun (g : T -> T) (r : R) =>
    ltac:(let body := eval hnf in (inst r) in
          let body := eval pattern (proj r) in body in
          match body with
          | ?F _ => let res := eval cbv beta in (F (g (proj r))) in exact res
          end)) in
  exact upd.

#[export] Hint Extern 1 (@Update ?R ?T ?proj) =>
  (build_update R T proj) : typeclass_instances.

Create HintDb ndo.
Declare Scope ndo_scope.
Delimit Scope ndo_scope with ndo.
Notation "r <| proj := v |>" := (update proj (fun _ => v) r)
  (at level 1, left associativity, proj at level 0) : ndo_scope.
Notation "r <| proj ::= f |>" := (update proj f r)
  (at level 1, left associativity, proj at level 0) : ndo_scope.
#[export] Hint Unfold update : ndo.
Open Scope ndo_scope.

(** ** Tactics of the development *)

(** Case analysis on the scrutinee of a [match] or [if], goal first. *)
Ltac case_scrutinee :=
  match goal with
  | |- context [match ?x with _ => _ end] =>
      lazymatch x with context [match _ with _ => _ end] => fail | _ => destruct x eqn:? end
  | H : context [match ?x with _ => _ end] |- _ =>
      lazymatch x with context [match _ with _ => _ end] => fail | _ => destruct x eqn:? end
  end.

(** The same on hypotheses only, closing the impossible branches. *)
Ltac case_hyp H :=
  repeat (match type of H with
          | context [match ?x with _ => _ end] =>
              lazymatch x with context [match _ with _ => _ end] => fail | _ => destruct x eqn:? end
          end; try discriminate H).

(** Boolean tests read back as propositions. *)
Ltac breflect :=
  repeat match goal with
  | H : _ && _ = true |- _ => apply andb_true_iff in H; destruct H
  | H : _ || _ = false |- _ => apply orb_false_iff in H; destruct H
  | H : negb _ = true |- _ => apply negb_true_iff in H
  | H : negb _ = false |- _ => apply negb_false_iff in H
  | H : (_ <? _) = true |- _ => apply Z.ltb_lt in H
  | H : (_ <? _) = false |- _ => apply Z.ltb_ge in H
  | H : (_ <=? _) = true |- _ => apply Z.leb_le in H
  | H : (_ <=? _) = false |- _ => apply Z.leb_gt in H
  | H : (_ >? _) = _ |- _ => rewrite Z.gtb_ltb in H
  | H : (_ >=? _) = _ |- _ => rewrite Z.geb_leb in H
  | H : (_ =? _) = true |- _ => apply Z.eqb_eq in H
  | H : (_ =? _) = false |- _ => apply Z.eqb_neq in H
  | H : String.eqb _ _ = true |- _ => apply String.eqb_eq in H
  | H : String.eqb _ _ = false |- _ => apply String.eqb_neq in H
  end.

(** ** Ordered keys

    What [std::map] and [std::sort] ask of a key type: a three-way comparison
    that is a strict total order. *)

Class Ordered (K : Type) := {
  compare : K -> K -> comparison;
  compare_eq_iff : forall x y, compare x y = Eq <-> x = y;
  compare_antisym : forall x y, compare y x = CompOpp (compare x y);
  compare_trans : forall x y z, compare x y = Lt -> compare y z = Lt -> compare x z = Lt
}.

Definition key_lt {K} `{Ordered K} (x y : K) : Prop := compare x y = Lt.
(** [operator<] of a key. *)
Definition ltb {K} `{Ordered K} (x y : K) : bool :=
  match compare x y with Lt => true | _ => false end.
(** [operator==] of a key. *)
Definition eqb {K} `{Ordered K} (x y : K) : bool :=
  match compare x y with Eq => true | _ => false end.

(** Lexicographic combination of two comparisons. *)
Definition then_cmp (c d : comparison) : comparison :=
  match c with Eq => d | _ => c end.

Section OrderedFacts.
Context {K : Type} `{Ordered K}.

Lemma compare_refl (x : K) : compare x x = Eq.
Proof. by apply compare_eq_iff. Qed.

Lemma eqb_eq (x y : K) : eqb x y = true <-> x = y.
Proof.
  unfold eqb. rewrite <- compare_eq_iff. destruct (compare x y); naive_solver.
Qed.

Lemma eqb_neq (x y : K) : eqb x y = false <-> x <> y.
Proof. rewrite <- eqb_eq. destruct (eqb x y); naive_solver. Qed.

Lemma eqb_refl (x : K) : eqb x x = true.
Proof. by apply eqb_eq. Qed.

Lemma eqb_sym (x y : K) : eqb x y = eqb y x.
Proof.
  destruct (eqb x y) eqn:E; symmetry; [apply eqb_eq | apply eqb_neq];
    [apply eqb_eq in E | apply eqb_neq in E]; congruence.
Qed.

Lemma ltb_lt (x y : K) : ltb x y = true <-> key_lt x y.
Proof. unfold ltb, key_lt. destruct (compare x y); naive_solver. Qed.

Lemma key_lt_irrefl (x : K) : ~ key_lt x x.
Proof. unfold key_lt. rewrite compare_refl. discriminate. Qed.

Lemma key_lt_trans (x y z : K) : key_lt x y -> key_lt y z -> key_lt x z.
Proof. apply compare_trans. Qed.

Lemma key_lt_asym (x y : K) : key_lt x y -> ~ key_lt y x.
Proof. intros Hxy Hyx. eapply key_lt_irrefl, key_lt_trans; eauto. Qed.

Lemma key_trichotomy (x y : K) : key_lt x y \/ x = y \/ key_lt y x.
Proof.
  unfold key_lt. destruct (compare x y) eqn:E; auto.
  - right; left. by apply compare_eq_iff.
  - right; right. by rewrite compare_antisym, E.
Qed.

#[export] Instance ordered_eq_dec : EqDecision K | 100.
Proof.
  intros x y. destruct (compare x y) eqn:E.
  - left. by apply compare_eq_iff.
  - right. intros ->. rewrite compare_refl in E. discriminate.
  - right. intros ->. rewrite compare_refl in E. discriminate.
Defined.
End OrderedFacts.

Lemma then_cmp_Lt c d : then_cmp c d = Lt <-> c = Lt \/ (c = Eq /\ d = Lt).
Proof. destruct c, d; naive_solver. Qed.

Lemma then_cmp_Eq c d : then_cmp c d = Eq <-> c = Eq /\ d = Eq.
Proof. destruct c, d; naive_solver. Qed.

Lemma then_cmp_opp c d : CompOpp (then_cmp c d) = then_cmp (CompOpp c) (CompOpp d).
Proof. by destruct c, d. Qed.

#[export, refine] Instance ordered_Z : Ordered Z := {| compare := Z.compare |}.
Proof.
  - apply Z.compare_eq_iff.
  - intros. apply Z.compare_antisym.
  - intros x y z. rewrite !Z.compare_lt_iff. lia.
Defined.

#[export, refine] Instance ordered_string : Ordered string := {| compare := String.compare |}.
Proof.
  - intros x y. split; [apply String.compare_eq_iff | intros ->].
    induction y as [|a y IH]; [done|]. cbn.
    unfold Ascii.compare. by rewrite N.compare_refl.
  - intros x y. apply String.compare_antisym.
  - induction x as [|a x IH]; intros [|b y] [|c z]; cbn; try done.
    unfold Ascii.compare.
    destruct (N.compare_spec (N_of_ascii a) (N_of_ascii b)) as [E1|E1|E1];
      destruct (N.compare_spec (N_of_ascii b) (N_of_ascii c)) as [E2|E2|E2];
      destruct (N.compare_spec (N_of_ascii a) (N_of_ascii c)) as [E3|E3|E3];
      try done; try lia; eauto.
Defined.

#[export, refine] Instance ordered_pair {A B} `{Ordered A, Ordered B} : Ordered (A * B) :=
  {| compare x y := then_cmp (compare x.1 y.1) (compare x.2 y.2) |}.
Proof.
  - intros [a b] [c d]; cbn. rewrite then_cmp_Eq, !compare_eq_iff. naive_solver.
  - intros [a b] [c d]; cbn. rewrite then_cmp_opp, <- !compare_antisym. done.
  - intros [a b] [c d] [e f]; cbn. rewrite !then_cmp_Lt, !compare_eq_iff.
    intros [?|[-> ?]] [?|[-> ?]]; eauto using compare_trans.
Defined.

(** [std::vector] and [std::array] compare lexicographically. *)
Fixpoint list_compare {A} `{Ordered A} (l m : list A) : comparison :=
  match l, m with
  | [], [] => Eq
  | [], _ :: _ => Lt
  | _ :: _, [] => Gt
  | x :: l', y :: m' => then_cmp (compare x y) (list_compare l' m')
  end.

#[export, refine] Instance ordered_list {A} `{Ordered A} : Ordered (list A) :=
  {| compare := list_compare |}.
Proof.
  - induction x as [|a x IH]; intros [|b y]; cbn; try done.
    rewrite then_cmp_Eq, compare_eq_iff, IH. naive_solver.
  - induction x as [|a x IH]; intros [|b y]; cbn; try done.
    by rewrite then_cmp_opp, <- compare_antisym, <- IH.
  - induction x as [|a x IH]; intros [|b y] [|c z]; cbn; try done.
    rewrite !then_cmp_Lt, !compare_eq_iff.
    intros [?|[-> ?]] [?|[-> ?]]; eauto using compare_trans.
Defined.

(** A type ordered through an injective key. *)
Definition ordered_by {A K} `{Ordered K} (f : A -> K)
    (f_inj : forall x y, f x = f y -> x = y) : Ordered A.
Proof.
  refine {| compare x y := compare (f x) (f y) |}.
  - intros x y. rewrite compare_eq_iff. naive_solver.
  - intros. apply compare_antisym.
  - intros x y z. apply compare_trans.
Defined.
