(* ===== verification/Containers.v ===== *)
(** * The containers of the C++ standard library the runtime is built on

    [omap K V] is [std::map<K, V>]: an association list kept in strictly
    increasing key order, because the source iterates its maps and the order of
    that iteration is visible (in drafts, digests and timelines).  [sort_by] is
    [std::sort] under a comparison function, [dedup] is [std::unique] followed
    by [erase], [keep_last] is the erase-the-front idiom that bounds a vector,
    and [reachable] is the closure of a step relation. *)

From Stdlib Require Import ZArith Lia List Bool Sorting.Sorted Permutation String.
From stdpp Require Import base tactics list strings sets.
From stdpp Require sorting.
From S2P Require Import Prelude.
#[local] Open Scope Z_scope.

(** ** [std::map] *)

Definition omap (K V : Type) : Type := list (K * V).

Section OMapOps.
Context {K V : Type} `{Ordered K}.

(** [map.find(k)]; [None] is [map.end()]. *)
Fixpoint mfind (k : K) (m : omap K V) : option V :=
  match m with
  | [] => None
  | (k', v) :: m' => if eqb k k' then Some v else mfind k m'
  end.

(** [map[k] = v]. *)
Fixpoint minsert (k : K) (v : V) (m : omap K V) : omap K V :=
  match m with
  | [] => [(k, v)]
  | (k', v') :: m' =>
      match compare k k' with
      | Lt => (k, v) :: (k', v') :: m'
      | Eq => (k, v) :: m'
      | Gt => (k', v') :: minsert k v m'
      end
  end.

(** [map.emplace(k, v)]: an existing entry is kept. *)
Definition memplace (k : K) (v : V) (m : omap K V) : omap K V :=
  match mfind k m with Some _ => m | None => minsert k v m end.

(** [for (e : entries) map.emplace(e.first, e.second)]. *)
Definition emplace_all (m : omap K V) (entries : list (K * V)) : omap K V :=
  foldl (fun m e => memplace (fst e) (snd e) m) m entries.

(** [map.erase(k)]. *)
Fixpoint merase (k : K) (m : omap K V) : omap K V :=
  match m with
  | [] => []
  | (k', v) :: m' => if eqb k k' then m' else (k', v) :: merase k m'
  end.

(** [map[k]] read as an lvalue: a missing entry is default-constructed. *)
Definition mget (default : V) (k : K) (m : omap K V) : V :=
  match mfind k m with Some v => v | None => default end.

Definition mmem (k : K) (m : omap K V) : bool :=
  match mfind k m with Some _ => true | None => false end.

Definition mkeys (m : omap K V) : list K := map fst m.
Definition mvals (m : omap K V) : list V := map snd m.

(** A map whose keys strictly increase. *)
Definition msorted (m : omap K V) : Prop := StronglySorted key_lt (mkeys m).

(** [for (auto& entry : map) { ... }]: each value may be replaced in place
    while a state is threaded through the loop. *)
Fixpoint mfor {S : Type} (body : K -> V -> S -> V * S) (m : omap K V) (s : S)
    : omap K V * S :=
  match m with
  | [] => ([], s)
  | (k, v) :: m' =>
      let '(v', s') := body k v s in
      let '(m'', s'') := mfor body m' s' in
      ((k, v') :: m'', s'')
  end.
End OMapOps.

(** [std::set<K>] inserted in key order. *)
Definition oset (K : Type) : Type := omap K unit.
Definition sinsert {K} `{Ordered K} (k : K) (s : oset K) : oset K := minsert k tt s.
Definition smem {K} `{Ordered K} (k : K) (s : oset K) : bool := mmem k s.

(** ** [std::sort], [std::unique], [std::lower_bound] *)

Section Sorting.
Context {A : Type} (less : A -> A -> bool).

(** Insertion before the first element that is not smaller: stable. *)
Fixpoint insert_by (x : A) (l : list A) : list A :=
  match l with
  | [] => [x]
  | y :: l' => if less y x then y :: insert_by x l' else x :: y :: l'
  end.

Definition sort_by (l : list A) : list A := foldr insert_by [] l.

(** [std::lower_bound]: the first position whose element is not smaller.  On a
    list in order that is what the library finds; on another one, as a window
    restored from a file may be, its precondition fails and this is one choice. *)
Fixpoint lower_bound (x : A) (l : list A) : nat :=
  match l with
  | [] => 0%nat
  | y :: l' => if less y x then S (lower_bound x l') else 0%nat
  end.

(** [vector.insert(lower_bound(x), x)]. *)
Definition insert_at_lower_bound (x : A) (l : list A) : list A :=
  let p := lower_bound x l in firstn p l ++ x :: skipn p l.
End Sorting.

(** [std::unique] with the element's equality, then [erase] of the tail: one
    element is kept from every run of equal neighbours. *)
Fixpoint dedup {A} (same : A -> A -> bool) (l : list A) : list A :=
  match l with
  | [] => []
  | x :: l' =>
      match l' with
      | [] => [x]
      | y :: _ => if same x y then
                    match dedup same l' with [] => [x] | _ :: r => x :: r end
                  else x :: dedup same l'
      end
  end.

(** [v.erase(begin, begin + excess)] when the size exceeds [limit]. *)
Definition keep_last {A} (limit : Z) (l : list A) : list A :=
  if limit <? vsize l then skipn (Z.to_nat (vsize l - limit)) l else l.

(** ** Reachability *)

Section Reach.
Context {S : Type} (step : S -> S -> Prop).

Inductive reachable (s0 : S) : S -> Prop :=
| reach_init : reachable s0 s0
| reach_step s s' : reachable s0 s -> step s s' -> reachable s0 s'.
End Reach.

(** ** Facts about maps *)

Section OMapFacts.
Context {K V : Type} `{Ordered K}.
Implicit Types (m : omap K V) (k : K) (v : V).

Lemma msorted_nil : msorted (K:=K) (V:=V) [].
Proof. constructor. Qed.

Lemma msorted_cons_inv k v m :
  msorted ((k, v) :: m) -> msorted m /\ Forall (key_lt k) (mkeys m).
Proof. intros Hs. inversion Hs; subst. by split. Qed.

Lemma mfind_Forall_lt k m : Forall (key_lt k) (mkeys m) -> mfind k m = None.
Proof.
  induction m as [|[k' v'] m IH]; [done|]. cbn. intros Hf.
  apply Forall_cons in Hf as [Hlt Hf].
  destruct (eqb k k') eqn:E; [|auto]. apply eqb_eq in E as ->.
  by apply key_lt_irrefl in Hlt.
Qed.

Lemma mfind_insert_eq k v m : mfind k (minsert k v m) = Some v.
Proof.
  induction m as [|[k' v'] m IH]; cbn; [by rewrite eqb_refl|].
  destruct (compare k k') eqn:E; cbn; rewrite ?eqb_refl; [done..|].
  unfold eqb. by rewrite E.
Qed.

Lemma mfind_insert_ne k k' v m : k <> k' -> mfind k' (minsert k v m) = mfind k' m.
Proof.
  intros Hne. induction m as [|[k2 v2] m IH]; cbn.
  - by rewrite (proj2 (eqb_neq k' k)).
  - destruct (compare k k2) eqn:E; cbn.
    + apply compare_eq_iff in E as ->. by rewrite (proj2 (eqb_neq k' k2)).
    + by rewrite (proj2 (eqb_neq k' k)).
    + by rewrite IH.
Qed.

Lemma mfind_insert k k' v m :
  mfind k' (minsert k v m) = if eqb k' k then Some v else mfind k' m.
Proof.
  destruct (eqb k' k) eqn:E.
  - apply eqb_eq in E as ->. apply mfind_insert_eq.
  - apply eqb_neq in E. by apply mfind_insert_ne.
Qed.

Lemma elem_of_minsert k v m x : x ∈ mkeys (minsert k v m) <-> x = k \/ x ∈ mkeys m.
Proof.
  induction m as [|[k' v'] m IH]; cbn.
  - rewrite list_elem_of_singleton. set_solver.
  - destruct (compare k k') eqn:E; cbn; rewrite ?elem_of_cons.
    + apply compare_eq_iff in E as ->. set_solver.
    + set_solver.
    + rewrite IH. set_solver.
Qed.

Lemma mfind_is_Some k m : is_Some (mfind k m) <-> k ∈ mkeys m.
Proof.
  induction m as [|[k' v'] m IH]; cbn.
  - split; [by intros [? ?] | by intros ?%not_elem_of_nil].
  - rewrite elem_of_cons. destruct (eqb k k') eqn:E.
    + apply eqb_eq in E. naive_solver.
    + apply eqb_neq in E. rewrite IH. naive_solver.
Qed.

Lemma mfind_None k m : mfind k m = None <-> ~ k ∈ mkeys m.
Proof. rewrite <- mfind_is_Some, <- eq_None_not_Some. done. Qed.

Lemma mfind_In k v m : mfind k m = Some v -> In (k, v) m.
Proof.
  induction m as [|[k' v'] m IH]; cbn; [done|].
  destruct (eqb k k') eqn:E; intros Hf; [|auto].
  apply eqb_eq in E. left. congruence.
Qed.

Lemma minsert_sorted k v m : msorted m -> msorted (minsert k v m).
Proof.
  induction m as [|[k' v'] m IH]; intros Hs; [repeat constructor|].
  apply msorted_cons_inv in Hs as [Hs Hf]. cbn.
  destruct (compare k k') eqn:E.
  - apply compare_eq_iff in E as ->. by constructor.
  - constructor; [by constructor|]. cbn. constructor; [done|].
    eapply Forall_impl; [exact Hf|]. intros. by eapply key_lt_trans.
  - constructor; [by apply IH|]. apply Forall_forall. intros x.
    rewrite elem_of_minsert. intros [->|Hx].
    + unfold key_lt. by rewrite (compare_antisym k k'), E.
    + rewrite Forall_forall in Hf. by apply Hf.
Qed.

Lemma memplace_sorted k v m : msorted m -> msorted (memplace k v m).
Proof. unfold memplace. destruct (mfind k m); auto using minsert_sorted. Qed.

Lemma mkeys_merase k m : sublist (mkeys (merase k m)) (mkeys m).
Proof.
  induction m as [|[k' v'] m IH]; cbn; [constructor|].
  destruct (eqb k k'); cbn; by constructor.
Qed.

Lemma StronglySorted_sublist {A} (R : A -> A -> Prop) (l l' : list A) :
  sublist l l' -> StronglySorted R l' -> StronglySorted R l.
Proof.
  induction 1 as [|x l l' Hsub IH|x l l' Hsub IH]; intros Hs; [done| |];
    inversion Hs as [|? ? Hs' Hf]; subst; [constructor|]; auto.
  rewrite Forall_forall in *. intros y Hy. apply Hf.
  by eapply sublist_subseteq.
Qed.

Lemma merase_sorted k m : msorted m -> msorted (merase k m).
Proof. apply StronglySorted_sublist, mkeys_merase. Qed.

Lemma mfind_erase_eq k m : msorted m -> mfind k (merase k m) = None.
Proof.
  induction m as [|[k' v'] m IH]; cbn; [done|]. intros Hs.
  apply msorted_cons_inv in Hs as [Hs Hf].
  destruct (eqb k k') eqn:E; cbn.
  - apply eqb_eq in E as ->. by apply mfind_Forall_lt.
  - rewrite E. auto.
Qed.

Lemma mfind_erase_ne k k' m : k <> k' -> mfind k' (merase k m) = mfind k' m.
Proof.
  intros Hne. induction m as [|[k2 v2] m IH]; cbn; [done|].
  destruct (eqb k k2) eqn:E; cbn.
  - apply eqb_eq in E as ->. by rewrite (proj2 (eqb_neq k' k2)).
  - by rewrite IH.
Qed.

Lemma mfor_keys {S} (body : K -> V -> S -> V * S) m s :
  mkeys (mfor body m s).1 = mkeys m.
Proof.
  revert s. induction m as [|[k v] m IH]; intros s; cbn; [done|].
  destruct (body k v s) as [v' s']. specialize (IH s').
  destruct (mfor body m s') as [m' s'']. cbn in *. by f_equal.
Qed.

Lemma mfor_sorted {S} (body : K -> V -> S -> V * S) m s :
  msorted m -> msorted (mfor body m s).1.
Proof. unfold msorted. by rewrite mfor_keys. Qed.

(** An insertion at a present key keeps the size, at a new key adds one. *)
Lemma minsert_size k v m : msorted m ->
  length (minsert k v m) = (if mmem k m then length m else S (length m)).
Proof.
  unfold mmem. induction m as [|[k' v'] m IH]; cbn; [done|]. intros Hs.
  apply msorted_cons_inv in Hs as [Hs Hf]. unfold eqb.
  destruct (compare k k') eqn:E; cbn; [done| |].
  - rewrite mfind_Forall_lt; [done|]. eapply Forall_impl; [exact Hf|].
    intros. by eapply key_lt_trans.
  - rewrite IH by done. by destruct (mfind k m).
Qed.

Lemma merase_size k m : (length (merase k m) <= length m)%nat.
Proof.
  generalize (sublist_length _ _ (mkeys_merase k m)). unfold mkeys.
  by rewrite !length_map.
Qed.

(** A sorted map is determined by its lookups. *)
Lemma msorted_ext m1 m2 :
  msorted m1 -> msorted m2 -> (forall k, mfind k m1 = mfind k m2) -> m1 = m2.
Proof.
  revert m2. induction m1 as [|[k1 v1] m1 IH]; intros [|[k2 v2] m2] H1 H2 Heq.
  - done.
  - specialize (Heq k2). cbn in Heq. by rewrite eqb_refl in Heq.
  - specialize (Heq k1). cbn in Heq. by rewrite eqb_refl in Heq.
  - apply msorted_cons_inv in H1 as [H1 F1], H2 as [H2 F2].
    assert (k1 = k2) as ->.
    { destruct (key_trichotomy k1 k2) as [Hlt|[Heq'|Hlt]]; [|done|].
      - pose proof (Heq k1) as Hk. cbn in Hk. rewrite eqb_refl in Hk.
        rewrite (proj2 (eqb_neq k1 k2)) in Hk by (intros ->; by apply key_lt_irrefl in Hlt).
        rewrite mfind_Forall_lt in Hk; [done|]. eapply Forall_impl; [exact F2|].
        intros; by eapply key_lt_trans.
      - pose proof (Heq k2) as Hk. cbn in Hk. rewrite eqb_refl in Hk.
        rewrite (proj2 (eqb_neq k2 k1)) in Hk by (intros ->; by apply key_lt_irrefl in Hlt).
        rewrite mfind_Forall_lt in Hk; [done|]. eapply Forall_impl; [exact F1|].
        intros; by eapply key_lt_trans. }
    pose proof (Heq k2) as Hk. cbn in Hk. rewrite !eqb_refl in Hk.
    f_equal; [congruence|]. apply IH; [done..|]. intros k.
    pose proof (Heq k) as Hk'. cbn in Hk'. destruct (eqb k k2) eqn:E; [|done].
    apply eqb_eq in E as ->. by rewrite !mfind_Forall_lt.
Qed.
(** What holds of every entry of a map. *)
Definition mall (P : K -> V -> Prop) (m : omap K V) : Prop := forall k v, mfind k m = Some v -> P k v.

(** Every entry is kept, its value related to the earlier one. *)
Definition mkept (R : V -> V -> Prop) (m m' : omap K V) : Prop :=
  forall k v, mfind k m = Some v -> exists v', mfind k m' = Some v' /\ R v v'.

Lemma mall_nil P : mall P [].
Proof. by intros k v Hk. Qed.

Lemma mall_insert P k v m : P k v -> mall P m -> mall P (minsert k v m).
Proof.
  intros Hv Hm k' v'. rewrite mfind_insert. destruct (eqb k' k) eqn:E; [|apply Hm].
  apply eqb_eq in E as ->. by intros [= <-].
Qed.

Lemma mall_emplace P k v m : P k v -> mall P m -> mall P (memplace k v m).
Proof. intros. unfold memplace. destruct (mfind k m); [done|]. by apply mall_insert. Qed.

Lemma mall_erase P k m : msorted m -> mall P m -> mall P (merase k m).
Proof.
  intros Hs Hm k' v'. destruct (eqb k k') eqn:E.
  - apply eqb_eq in E as ->. by rewrite mfind_erase_eq.
  - rewrite mfind_erase_ne by (by apply eqb_neq). apply Hm.
Qed.

Lemma mfor_cons {S} (body : K -> V -> S -> V * S) k v m s :
  (mfor body ((k, v) :: m) s).1 = (k, (body k v s).1) :: (mfor body m (body k v s).2).1 /\
  (mfor body ((k, v) :: m) s).2 = (mfor body m (body k v s).2).2.
Proof. cbn. destruct (body k v s) as [v' s']. cbn. by destruct (mfor body m s'). Qed.

(** An entry after the loop is what the body made of it in some state. *)
Lemma mfor_find {S} (body : K -> V -> S -> V * S) m s k v :
  mfind k m = Some v -> exists s', mfind k (mfor body m s).1 = Some (body k v s').1.
Proof.
  revert s. induction m as [|[k' v'] m IH]; intros s Hk; [done|].
  destruct (mfor_cons body k' v' m s) as [-> _]. cbn [mfind] in *.
  destruct (eqb k k') eqn:E; [|by apply IH].
  apply eqb_eq in E as <-. injection Hk as ->. by exists s.
Qed.

(** The state its body runs in shares what every body run keeps. *)
Lemma mfor_find_frame {S X} (g : S -> X) (body : K -> V -> S -> V * S) m s k v :
  (forall k v s, g (body k v s).2 = g s) -> mfind k m = Some v ->
  exists s', g s' = g s /\ mfind k (mfor body m s).1 = Some (body k v s').1.
Proof.
  intros Hg. revert s. induction m as [|[k' v'] m IH]; intros s Hk; [done|].
  destruct (mfor_cons body k' v' m s) as [-> _]. cbn [mfind] in *.
  destruct (eqb k k') eqn:E; [|].
  - apply eqb_eq in E as <-. injection Hk as ->. by exists s.
  - destruct (IH (body k' v' s).2 Hk) as (s' & Hs & Hf). exists s'. by rewrite Hs, Hg.
Qed.

Lemma mfor_find_inv {S} (body : K -> V -> S -> V * S) m s k v' :
  mfind k (mfor body m s).1 = Some v' ->
  exists v s', mfind k m = Some v /\ v' = (body k v s').1.
Proof.
  revert s. induction m as [|[k' v] m IH]; intros s; [done|].
  destruct (mfor_cons body k' v m s) as [-> _]. cbn [mfind].
  destruct (eqb k k') eqn:E; [|by apply IH].
  apply eqb_eq in E as <-. intros [= <-]. by exists v, s.
Qed.

Lemma mall_mfor {S} (P : K -> V -> Prop) (body : K -> V -> S -> V * S) m s :
  (forall k v s, P k v -> P k (body k v s).1) -> mall P m -> mall P (mfor body m s).1.
Proof. intros Hb Hm k v' (v & s' & Hk & ->)%mfor_find_inv. auto. Qed.

Lemma mkept_mfor {S} (R : V -> V -> Prop) (body : K -> V -> S -> V * S) m s :
  (forall k v s, R v (body k v s).1) -> mkept R m (mfor body m s).1.
Proof. intros Hb k v Hk. destruct (mfor_find body m s k v Hk) as [s' Hs']. eauto. Qed.

(** A preorder every body run respects is respected by the loop. *)
Lemma mfor_state {S} (R : S -> S -> Prop) `{!PreOrder R} (body : K -> V -> S -> V * S) m s :
  (forall k v s, R s (body k v s).2) -> R s (mfor body m s).2.
Proof.
  intros Hb. revert s. induction m as [|[k v] m IH]; intros s; [reflexivity|].
  destruct (mfor_cons body k v m s) as [_ ->]. etransitivity; [apply Hb | apply IH].
Qed.

Lemma mfor_length {S} (body : K -> V -> S -> V * S) m s : length (mfor body m s).1 = length m.
Proof.
  pose proof (mfor_keys body m s) as E. apply (f_equal length) in E. unfold mkeys in E.
  by rewrite !length_map in E.
Qed.

Lemma mkept_refl (R : V -> V -> Prop) `{!Reflexive R} m : mkept R m m.
Proof. intros k v Hk. by exists v. Qed.

Lemma mkept_trans (R : V -> V -> Prop) `{!Transitive R} m1 m2 m3 :
  mkept R m1 m2 -> mkept R m2 m3 -> mkept R m1 m3.
Proof.
  intros H1 H2 k v Hk. destruct (H1 k v Hk) as (v' & Hk' & Hv).
  destruct (H2 k v' Hk') as (v'' & Hk'' & Hv'). exists v''. split; [done|]. by transitivity v'.
Qed.

Lemma mkept_insert (R : V -> V -> Prop) `{!Reflexive R} k v m :
  (forall old, mfind k m = Some old -> R old v) -> mkept R m (minsert k v m).
Proof.
  intros Hk k' v' Hk'. rewrite mfind_insert. destruct (eqb k' k) eqn:E; [|by exists v'].
  apply eqb_eq in E as ->. eauto.
Qed.

Lemma mkept_emplace (R : V -> V -> Prop) `{!Reflexive R} k v m : mkept R m (memplace k v m).
Proof.
  unfold memplace. destruct (mfind k m) eqn:E; [by apply mkept_refl|].
  apply mkept_insert; [done|]. congruence.
Qed.

Lemma mkept_mem (R : V -> V -> Prop) m m' k : mkept R m m' -> mmem k m = true -> mmem k m' = true.
Proof.
  unfold mmem. intros Hr. destruct (mfind k m) as [v|] eqn:E; [|done].
  by destruct (Hr k v E) as (? & -> & _).
Qed.

Lemma mfind_In_sorted k v m : msorted m -> In (k, v) m -> mfind k m = Some v.
Proof.
  induction m as [|[k' v'] m IH]; intros Hs Hin; [done|].
  apply msorted_cons_inv in Hs as [Hs Hf]. cbn. destruct Hin as [[= -> ->]|Hin].
  - by rewrite eqb_refl.
  - rewrite (proj2 (eqb_neq k k')); [by apply IH|]. intros ->.
    rewrite Forall_forall in Hf. apply (key_lt_irrefl k'), Hf.
    apply list_elem_of_In, in_map_iff. by exists (k', v).
Qed.

Lemma memplace_absent k v m : mfind k m = None -> memplace k v m = minsert k v m.
Proof. unfold memplace. by intros ->. Qed.

(** What is emplaced first under a key stays. *)
Lemma mfind_emplace_all k (l : list (K * V)) m :
  mfind k (emplace_all m l) = match mfind k m with Some v => Some v | None => mfind k l end.
Proof.
  unfold emplace_all. revert m.
  induction l as [|[k' v] l IH]; intros m; cbn [foldl fst snd mfind]; [by destruct (mfind k m)|].
  rewrite IH. unfold memplace. destruct (mfind k' m) as [w|] eqn:E.
  - destruct (mfind k m) eqn:Ek; [done|]. destruct (eqb k k') eqn:Ekk; [|done].
    apply eqb_eq in Ekk as <-. congruence.
  - rewrite mfind_insert. destruct (eqb k k') eqn:Ekk; [|done]. apply eqb_eq in Ekk as <-. by rewrite E.
Qed.

Lemma emplace_all_msorted l : forall m, msorted m -> msorted (emplace_all m l).
Proof.
  unfold emplace_all. induction l as [|[k v] l IH]; intros m Hm; [done|]. by apply IH, memplace_sorted.
Qed.

(** Entries in key order are appended as they are. *)
Lemma emplace_all_sorted l : forall m, msorted (m ++ l)%list -> emplace_all m l = (m ++ l)%list.
Proof.
  unfold emplace_all. induction l as [|[k v] l IH]; intros m Hs; cbn; [by rewrite app_nil_r|].
  assert (Hk : Forall (fun e => key_lt e.1 k) m).
  { unfold msorted, mkeys in Hs. rewrite map_app in Hs. cbn in Hs. apply Forall_forall. intros e He.
    apply (sorting.StronglySorted_app_1_elem_of _ (map fst m) (k :: map fst l)); [exact Hs| |by left].
    apply list_elem_of_fmap. eauto. }
  assert (Hlast : mfind k m = None /\ minsert k v m = (m ++ [(k, v)])%list).
  { clear -Hk. induction Hk as [|[k' v'] m Hlt _ [IH1 IH2]]; [done|]. cbn [fst] in Hlt.
    cbn [mfind minsert app]. unfold eqb, key_lt in *.
    rewrite (compare_antisym k' k), Hlt. cbn [CompOpp]. by rewrite IH1, IH2. }
  rewrite memplace_absent by apply Hlast. rewrite (proj2 Hlast), IH by (by rewrite <- app_assoc).
  by rewrite <- app_assoc.
Qed.

Lemma filter_msorted test m : msorted m -> msorted (List.filter test m).
Proof.
  unfold msorted, mkeys. intros Hs. eapply StronglySorted_sublist; [|exact Hs].
  clear Hs. induction m as [|x m IH]; cbn; [constructor|]. destruct (test x); cbn; by constructor.
Qed.

Lemma mall_filter P test m : msorted m -> mall P m -> mall P (List.filter test m).
Proof.
  intros Hs Hm k v Hk%mfind_In. apply filter_In in Hk as [Hk _]. by apply Hm, mfind_In_sorted.
Qed.

(** A function of the values alone. *)
Lemma mfind_map_values (f : V -> V) k m :
  mfind k (map (fun e => (fst e, f (snd e))) m) = option_map f (mfind k m).
Proof. induction m as [|[k' v'] m IH]; cbn; [done|]. by destruct (eqb k k'). Qed.

Lemma map_values_msorted (f : V -> V) m :
  msorted m -> msorted (map (fun e => (fst e, f (snd e))) m).
Proof. unfold msorted, mkeys. by rewrite map_map. Qed.
End OMapFacts.

#[export] Hint Resolve msorted_nil minsert_sorted memplace_sorted merase_sorted mfor_sorted : ndo.
#[export] Hint Resolve mall_nil mall_insert mall_emplace mall_erase filter_msorted mall_filter : ndo.
#[export] Hint Rewrite @mfind_insert_eq : ndo.

(** ** Facts about sorting and bounding *)

Section SortingFacts.
Context {A : Type} (less : A -> A -> bool).

Lemma insert_by_perm x l : Permutation (x :: l) (insert_by less x l).
Proof.
  induction l as [|y l IH]; cbn; [done|]. destruct (less y x); [|done].
  rewrite perm_swap. by rewrite IH.
Qed.

Lemma sort_by_perm l : Permutation l (sort_by less l).
Proof.
  induction l as [|x l IH]; cbn; [done|]. rewrite IH at 1. apply insert_by_perm.
Qed.

Lemma sort_by_length l : length (sort_by less l) = length l.
Proof. symmetry. apply Permutation_length, sort_by_perm. Qed.

Lemma insert_at_lower_bound_eq x l :
  insert_at_lower_bound less x l = insert_by less x l.
Proof.
  unfold insert_at_lower_bound. induction l as [|y l IH]; cbn; [done|].
  destruct (less y x); cbn; [|done]. by rewrite IH.
Qed.

(** A strict weak order on the elements of a list. *)
Definition less_trans_neg := forall x y z, less y x = false -> less z y = false -> less z x = false.
Definition less_asym := forall x y, less x y = true -> less y x = false.

Context (Hneg : less_trans_neg) (Hasym : less_asym).

Lemma insert_by_sorted x l :
  StronglySorted (fun a b => less b a = false) l ->
  StronglySorted (fun a b => less b a = false) (insert_by less x l).
Proof.
  induction l as [|y l IH]; intros Hs; cbn; [repeat constructor|].
  inversion Hs as [|? ? Hs' Hf]; subst. destruct (less y x) eqn:E.
  - constructor; [auto|]. eapply Permutation_Forall; [apply insert_by_perm|].
    constructor; [by apply Hasym | done].
  - constructor; [done|]. constructor; [done|].
    eapply Forall_impl; [exact Hf|]. intros z Hz. by eapply Hneg.
Qed.

Lemma sort_by_sorted l : StronglySorted (fun a b => less b a = false) (sort_by less l).
Proof. induction l; cbn; [constructor | by apply insert_by_sorted]. Qed.

(** Two sorted permutations of one list agree when ties are equalities. *)
Lemma sorted_perm_unique l1 l2 :
  (forall x y, x ∈ l1 -> y ∈ l1 -> less x y = false -> less y x = false -> x = y) ->
  StronglySorted (fun a b => less b a = false) l1 ->
  StronglySorted (fun a b => less b a = false) l2 ->
  Permutation l1 l2 -> l1 = l2.
Proof.
  revert l2. induction l1 as [|x l1 IH]; intros l2 Htie S1 S2 Hp.
  - by apply Permutation_nil_l in Hp.
  - destruct l2 as [|y l2]; [by apply Permutation_nil_r in Hp|].
    inversion S1 as [|? ? S1' F1]; inversion S2 as [|? ? S2' F2]; subst.
    assert (x = y) as ->.
    { rewrite Forall_forall in F1, F2.
      assert (x ∈ y :: l2) as Hx by (rewrite <- Hp; set_solver).
      assert (y ∈ x :: l1) as Hy by (rewrite Hp; set_solver).
      apply elem_of_cons in Hx as [->|Hx]; [done|].
      pose proof Hy as Hy0. apply elem_of_cons in Hy as [->|Hy]; [done|].
      apply Htie; [set_solver..| |]; auto. }
    f_equal. apply IH; [|done|done|by eapply Permutation_cons_inv].
    intros. apply Htie; set_solver.
Qed.

(** The result of a sort is the same for every input order. *)
Lemma sort_by_canonical l1 l2 :
  (forall x y, x ∈ l1 -> y ∈ l1 -> less x y = false -> less y x = false -> x = y) ->
  Permutation l1 l2 -> sort_by less l1 = sort_by less l2.
Proof.
  intros Htie Hp. apply sorted_perm_unique.
  - intros x y Hx Hy. apply Htie; by rewrite sort_by_perm.
  - apply sort_by_sorted.
  - apply sort_by_sorted.
  - by rewrite <- !sort_by_perm.
Qed.
End SortingFacts.

(** Sorting by a key's own order. *)
Lemma ltb_less {K} `{Ordered K} : less_trans_neg (ltb (K:=K)) /\ less_asym (ltb (K:=K)).
Proof.
  assert (Hn : forall x y : K, ltb x y = false <-> ~ key_lt x y)
    by (intros; rewrite <- not_true_iff_false, ltb_lt; done).
  split.
  - intros x y z. rewrite !Hn. intros Hyx Hzy Hzx.
    destruct (key_trichotomy y x) as [?|[->|Hxy]]; [done..|].
    destruct (key_trichotomy z y) as [?|[->|Hyz]]; [done..|].
    eapply key_lt_asym; [exact Hzx|]. by eapply key_lt_trans.
  - intros x y. rewrite ltb_lt, Hn. apply key_lt_asym.
Qed.

Lemma sort_by_ltb_canonical {K} `{Ordered K} (l1 l2 : list K) :
  Permutation l1 l2 -> sort_by ltb l1 = sort_by ltb l2.
Proof.
  destruct (ltb_less (K:=K)) as [Hn Ha].
  apply sort_by_canonical; [done..|]. intros x y _ _ H1 H2.
  destruct (key_trichotomy x y) as [H3|[->|H3]]; [|done|];
    apply ltb_lt in H3; congruence.
Qed.

Lemma keep_last_length {A} limit (l : list A) :
  0 <= limit -> vsize (keep_last limit l) <= limit.
Proof.
  unfold keep_last, vsize. intros. destruct (limit <? _) eqn:E; breflect; [|lia].
  rewrite length_skipn. lia.
Qed.

Lemma keep_last_length_le {A} limit (l : list A) :
  (length (keep_last limit l) <= length l)%nat.
Proof.
  unfold keep_last. destruct (limit <? _); [|done]. rewrite length_skipn. lia.
Qed.

Lemma keep_last_suffix {A} limit (l : list A) : exists pre, l = pre ++ keep_last limit l.
Proof.
  unfold keep_last. destruct (limit <? _); [|by exists []].
  exists (firstn (Z.to_nat (vsize l - limit)) l). symmetry. apply firstn_skipn.
Qed.

Lemma keep_last_sorted {A} (R : A -> A -> Prop) limit (l : list A) :
  StronglySorted R l -> StronglySorted R (keep_last limit l).
Proof.
  destruct (keep_last_suffix limit l) as [pre Hpre]. intros Hs.
  eapply StronglySorted_sublist; [|exact Hs].
  rewrite Hpre at 2. by apply sublist_inserts_l.
Qed.

(** A list whose images are distinct has one element per image. *)
Lemma NoDup_map_inj {A B} (f : A -> B) l x y :
  NoDup (map f l) -> x ∈ l -> y ∈ l -> f x = f y -> x = y.
Proof.
  induction l as [|z l IH]; cbn; [by intros _ ?%elem_of_nil|].
  intros [Hz Hn]%NoDup_cons. rewrite !elem_of_cons. intros [->|Hx] [->|Hy] E; auto.
  - destruct Hz. rewrite E. by apply list_elem_of_fmap_2.
  - destruct Hz. rewrite <- E. by apply list_elem_of_fmap_2.
Qed.

(** ** Facts about reachability *)

(** An invariant of the initial state and of every step holds everywhere. *)
Lemma reachable_invariant {S} (step : S -> S -> Prop) (P : S -> Prop) s0 s :
  P s0 -> (forall a b, P a -> step a b -> P b) -> reachable step s0 s -> P s.
Proof. intros H0 Hstep. induction 1; eauto. Qed.
