(* ===== verification/Text.v ===== *)
(** * Strings, bytes and decimal text

    The pieces of [std::string] and [std::to_string] the runtime uses.  A
    [std::string] is a [string] (a sequence of bytes); a byte vector is a list
    of [Z] in [0..255]. *)

From Stdlib Require Import ZArith Lia List Bool Ascii String.
From stdpp Require Import base tactics list strings.
From S2P Require Import Prelude Containers.
#[local] Open Scope string_scope.
#[local] Open Scope Z_scope.
#[local] Arguments String.append : simpl nomatch.

(** ** Characters and bytes *)

(** [static_cast<unsigned char>(c)]. *)
Definition byte_of (c : ascii) : Z := Z.of_N (N_of_ascii c).
Definition char_of (b : Z) : ascii := ascii_of_N (Z.to_N b).

Definition string_bytes (s : string) : list Z := map byte_of (list_ascii_of_string s).
Definition string_of_bytes (l : list Z) : string := string_of_list_ascii (map char_of l).

Definition is_byte (b : Z) : Prop := 0 <= b < 256.

Definition is_digit (c : ascii) : bool := (48 <=? byte_of c) && (byte_of c <=? 57).
Definition digit_char (d : Z) : ascii := char_of (48 + d).
Definition digit_value (c : ascii) : Z := byte_of c - 48.

(** ** [std::string] operations *)

Definition char_string (c : ascii) : string := String c "".

(** [text.substr(pos, n)] for [pos <= size]. *)
Definition substr (pos n : Z) (s : string) : string :=
  String.substring (Z.to_nat pos) (Z.to_nat n) s.

(** [text.resize(limit)] when longer, then a suffix is appended. *)
Definition truncate_with (limit : Z) (suffix : string) (s : string) : string :=
  if ssize s <=? limit then s else String.append (substr 0 limit s) suffix.

(** [std::to_string] of a 64-bit unsigned value. *)
Fixpoint dec_digits (fuel : nat) (n : Z) (acc : string) : string :=
  match fuel with
  | O => acc
  | S fuel' =>
      let acc' := String (digit_char (n mod 10)) acc in
      if n <? 10 then acc' else dec_digits fuel' (n / 10) acc'
  end.

(** Twenty digits hold every 64-bit value. *)
Definition to_string_unsigned (n : Z) : string := dec_digits 20 n "".

Definition to_string_signed (n : Z) : string :=
  if n <? 0 then String "-" (to_string_unsigned (- n)) else to_string_unsigned n.

(** A run of decimal digits read left to right. *)
Fixpoint read_digits (s : string) (acc : Z) : option Z :=
  match s with
  | "" => Some acc
  | String c s' => if is_digit c then read_digits s' (acc * 10 + digit_value c) else None
  end.

(** ** Hexadecimal *)

Definition hex_digit (n : Z) : ascii :=
  if n <? 10 then char_of (48 + n) else char_of (97 + (n - 10)).

(** [HexValue(c)]; -1 when [c] is no hexadecimal digit. *)
Definition HexValue (c : ascii) : Z :=
  let b := byte_of c in
  if (48 <=? b) && (b <=? 57) then b - 48
  else if (97 <=? b) && (b <=? 102) then b - 97 + 10
  else if (65 <=? b) && (b <=? 70) then b - 65 + 10
  else -1.

(** [ToHex(data, bytes)]. *)
Fixpoint ToHex (data : list Z) : string :=
  match data with
  | [] => ""
  | b :: rest =>
      String (hex_digit (Z.shiftr b 4)) (String (hex_digit (Z.land b 15)) (ToHex rest))
  end.

(** [FromHex(hex, out)]. *)
Fixpoint FromHex (hex : string) : option (list Z) :=
  match hex with
  | "" => Some []
  | String _ "" => None
  | String h (String l rest) =>
      let high := HexValue h in
      let low := HexValue l in
      if (high <? 0) || (low <? 0) then None
      else match FromHex rest with
           | Some out => Some (Z.lor (Z.shiftl high 4) low :: out)
           | None => None
           end
  end.

(** ** Facts about characters *)

Lemma byte_of_range c : 0 <= byte_of c < 256.
Proof. unfold byte_of. pose proof (N_ascii_bounded c). lia. Qed.

Lemma byte_of_char_of b : 0 <= b < 256 -> byte_of (char_of b) = b.
Proof. intros. unfold byte_of, char_of. rewrite N_ascii_embedding; lia. Qed.

Lemma char_of_byte_of c : char_of (byte_of c) = c.
Proof. unfold char_of, byte_of. rewrite N2Z.id. apply ascii_N_embedding. Qed.

Lemma byte_of_inj c d : byte_of c = byte_of d -> c = d.
Proof. intros E. by rewrite <- (char_of_byte_of c), E, char_of_byte_of. Qed.

Lemma string_bytes_app s t : string_bytes (String.append s t) = (string_bytes s ++ string_bytes t)%list.
Proof. induction s; cbn; [done|]. by f_equal. Qed.

Lemma string_bytes_inj s t : string_bytes s = string_bytes t -> s = t.
Proof.
  revert t. induction s as [|c s IH]; intros [|d t]; cbn; try done.
  intros E. injection E as E1 E2. f_equal; [by apply byte_of_inj | by apply IH].
Qed.

Lemma string_bytes_length s : length (string_bytes s) = String.length s.
Proof. induction s; cbn; [done|]. by f_equal. Qed.

Lemma string_bytes_range s : Forall is_byte (string_bytes s).
Proof. induction s; constructor; [apply byte_of_range | done]. Qed.

Lemma string_bytes_of_bytes l : Forall is_byte l -> string_bytes (string_of_bytes l) = l.
Proof.
  induction 1 as [|b l Hb _ IH]; cbn; [done|]. rewrite byte_of_char_of by done. by f_equal.
Qed.

Lemma length_append s t : String.length (String.append s t) = (String.length s + String.length t)%nat.
Proof. induction s; cbn; [done|]. by f_equal. Qed.

Lemma append_assoc (s t u : string) :
  String.append (String.append s t) u = String.append s (String.append t u).
Proof. induction s; cbn; [done|]. by f_equal. Qed.

Lemma append_nil_r (s : string) : String.append s "" = s.
Proof. induction s; cbn; [done|]. by f_equal. Qed.

(** ** Facts about decimal text *)

Lemma length_substring m n s : (String.length (String.substring m n s) <= n)%nat.
Proof.
  revert m n. induction s as [|c s IH]; intros [|m] [|n]; cbn; try lia; first [apply IH | specialize (IH 0 n)%nat; lia].
Qed.

Lemma truncate_with_bound limit suffix s : 0 <= limit ->
  ssize (truncate_with limit suffix s) <= limit + ssize suffix.
Proof.
  unfold truncate_with, substr, ssize. intros H. destruct (_ <=? _) eqn:E; breflect; [lia|].
  rewrite length_append. pose proof (length_substring (Z.to_nat 0) (Z.to_nat limit) s). lia.
Qed.

Lemma digit_char_byte d : 0 <= d < 10 -> byte_of (digit_char d) = 48 + d.
Proof. intros. apply byte_of_char_of. lia. Qed.

Lemma is_digit_digit_char d : 0 <= d < 10 -> is_digit (digit_char d) = true.
Proof. intros. unfold is_digit. rewrite digit_char_byte by done. apply andb_true_iff. lia. Qed.

Lemma digit_value_char d : 0 <= d < 10 -> digit_value (digit_char d) = d.
Proof. intros. unfold digit_value. rewrite digit_char_byte by done. lia. Qed.

Lemma digit_char_value c : is_digit c = true -> digit_char (digit_value c) = c.
Proof.
  unfold is_digit. intros. breflect. apply byte_of_inj. unfold digit_value, digit_char.
  rewrite byte_of_char_of; lia.
Qed.

Lemma digit_value_range c : is_digit c = true -> 0 <= digit_value c < 10.
Proof. unfold is_digit, digit_value. intros. breflect. lia. Qed.

Lemma read_digits_dec fuel n acc : 0 <= n -> n < 10 ^ Z.of_nat fuel -> (0 < fuel)%nat ->
  exists k, 0 < k /\ (forall a, read_digits (dec_digits fuel n acc) a = read_digits acc (a * k + n)).
Proof.
  revert n acc. induction fuel as [|fuel IH]; intros n acc H0 Hlt Hf; [lia|]. cbn [dec_digits].
  assert (Hd : 0 <= n mod 10 < 10) by (apply Z.mod_pos_bound; lia).
  assert (Hstep : forall a, read_digits (String (digit_char (n mod 10)) acc) a
                            = read_digits acc (a * 10 + n mod 10)).
  { intros a. cbn [read_digits]. by rewrite is_digit_digit_char, digit_value_char. }
  destruct (n <? 10) eqn:E; breflect.
  - exists 10. split; [lia|]. intros a. rewrite Hstep, Z.mod_small by lia. done.
  - destruct fuel as [|fuel']; [cbn in Hlt; lia|].
    destruct (IH (n / 10) (String (digit_char (n mod 10)) acc)) as (k & Hk & IHk);
      [apply Z.div_pos; lia | | lia |].
    { apply Z.div_lt_upper_bound; [lia|]. rewrite <- Z.pow_succ_r by lia.
      by rewrite <- Nat2Z.inj_succ. }
    exists (k * 10). split; [lia|]. intros a. rewrite IHk, Hstep. f_equal.
    pose proof (Z.div_mod n 10). lia.
Qed.

(** [std::to_string] is read back by the digit reader. *)
Lemma read_to_string n : is_u64 n -> read_digits (to_string_unsigned n) 0 = Some n.
Proof.
  intros [H0 H1]. unfold to_string_unsigned.
  destruct (read_digits_dec 20 n "") as (k & Hk & E); [done| |lia|].
  - cbv [UINT64_MAX] in H1. change (10 ^ Z.of_nat 20) with 100000000000000000000. lia.
  - rewrite E. cbn. f_equal; lia.
Qed.

Lemma to_string_unsigned_inj m n : is_u64 m -> is_u64 n ->
  to_string_unsigned m = to_string_unsigned n -> m = n.
Proof.
  intros Hm Hn E. apply read_to_string in Hm, Hn. congruence.
Qed.

(** ** Facts about hexadecimal text *)

Lemma HexValue_hex_digit n : 0 <= n < 16 -> HexValue (hex_digit n) = n.
Proof.
  intros H.
  assert (Hn : n ∈ [0; 1; 2; 3; 4; 5; 6; 7; 8; 9; 10; 11; 12; 13; 14; 15])
    by (rewrite !elem_of_cons; lia).
  clear H. revert n Hn. apply Forall_forall. by repeat constructor.
Qed.

Lemma nibbles b : is_byte b ->
  0 <= Z.shiftr b 4 < 16 /\ 0 <= Z.land b 15 < 16 /\
  Z.lor (Z.shiftl (Z.shiftr b 4) 4) (Z.land b 15) = b.
Proof.
  intros [H0 H1]. change 15 with (Z.ones 4). rewrite Z.land_ones by lia.
  assert (0 <= Z.shiftr b 4 < 16).
  { rewrite Z.shiftr_div_pow2 by lia. change (2 ^ 4) with 16.
    split; [apply Z.div_pos | apply Z.div_lt_upper_bound]; lia. }
  split; [done|]. split; [apply Z.mod_pos_bound; lia|].
  apply Z.bits_inj'. intros i Hi. rewrite Z.lor_spec, Z.shiftl_spec by lia.
  destruct (Z.ltb_spec i 4).
  - rewrite Z.testbit_neg_r, Z.mod_pow2_bits_low by lia. done.
  - rewrite Z.mod_pow2_bits_high, Z.shiftr_spec, orb_false_r by lia. f_equal; lia.
Qed.

(** Hexadecimal text is read back to the bytes it spells. *)
Lemma FromHex_ToHex l : Forall is_byte l -> FromHex (ToHex l) = Some l.
Proof.
  induction 1 as [|b l Hb _ IH]; [done|]. cbn [ToHex FromHex].
  destruct (nibbles b Hb) as (Hh & Hl & E). rewrite !HexValue_hex_digit, IH, E by done.
  destruct (Z.ltb_spec (Z.shiftr b 4) 0), (Z.ltb_spec (Z.land b 15) 0); by (lia || done).
Qed.

Lemma ToHex_length l : String.length (ToHex l) = (2 * length l)%nat.
Proof. induction l; cbn; [done|]. rewrite IHl. lia. Qed.

Lemma ToHex_inj l m : Forall is_byte l -> Forall is_byte m -> ToHex l = ToHex m -> l = m.
Proof. intros Hl Hm E. apply FromHex_ToHex in Hl, Hm. congruence. Qed.
