(* ===== verification/Status.v ===== *)
(** * Outcome vocabulary and resource envelope

    [StatusCode], [ReasonCode], [Status] and [Result] of status.hpp/status.cpp,
    the name tables every enumeration of the runtime uses, and the
    [RuntimeLimits] and [EvidenceClass] of limits.hpp/limits.cpp.

    [Enum] is the interface of a C++ [enum class]: its underlying value and the
    partial inverse of [static_cast].  Every enumeration of the development is
    an instance, which gives it equality and the order of its underlying value. *)

From Stdlib Require Import ZArith Lia List Bool String.
From stdpp Require Import base tactics list strings.
From S2P Require Import Prelude Containers.
#[local] Open Scope string_scope.
#[local] Open Scope Z_scope.

(** ** Enumerations *)

Class Enum (T : Type) := {
  code : T -> Z;
  values : list T;
  values_complete : forall x, List.find (fun y => code y =? code x) values = Some x
}.

(** [static_cast<T>(raw)] for a raw value some enumerator has. *)
Definition of_code {T} `{Enum T} (raw : Z) : option T :=
  List.find (fun y => code y =? raw) values.

(** [Lookup(table, count, value)]: the name of a value. *)
Fixpoint Lookup (table : list (Z * string)) (otherwise : string) (value : Z) : string :=
  match table with
  | [] => otherwise
  | (v, name) :: rest => if v =? value then name else Lookup rest otherwise value
  end.

(** [ParseName(table, count, text, out)]: the value of a name. *)
Fixpoint ParseName (table : list (Z * string)) (text : string) : option Z :=
  match table with
  | [] => None
  | (v, name) :: rest => if String.eqb text name then Some v else ParseName rest text
  end.

(** [TryParse...]: a name, then the cast of its value. *)
Definition TryParseEnum {T} `{Enum T} (table : list (Z * string)) (text : string) : option T :=
  match ParseName table text with Some raw => of_code raw | None => None end.

Lemma code_inj {T} `{Enum T} (x y : T) : code x = code y -> x = y.
Proof.
  intros E. pose proof (values_complete x) as Hx. rewrite E, values_complete in Hx. congruence.
Qed.

Lemma of_code_code {T} `{Enum T} (x : T) : of_code (code x) = Some x.
Proof. apply values_complete. Qed.

#[export] Instance ordered_enum {T} `{Enum T} : Ordered T | 50 := ordered_by code code_inj.

(** Closes the completeness law of an enumeration by cases. *)
Ltac enum_complete := let x := fresh in intros x; destruct x; reflexivity.

(** ** [StatusCode] and [ReasonCode] *)

Inductive StatusCode : Set :=
| SC_Ok | SC_Rejected | SC_ConflictState | SC_NotFound | SC_StaleAuthority | SC_LimitExceeded
| SC_IntegrityFailure | SC_Unsupported | SC_Indeterminate | SC_PreconditionFailed
| SC_InternalError | SC_Cancelled.

Definition StatusCode_code (v : StatusCode) : Z :=
  match v with
  | SC_Ok => 0 | SC_Rejected => 1 | SC_ConflictState => 2 | SC_NotFound => 3 
  | SC_StaleAuthority => 4 | SC_LimitExceeded => 5 | SC_IntegrityFailure => 6 
  | SC_Unsupported => 7 | SC_Indeterminate => 8 | SC_PreconditionFailed => 9 
  | SC_InternalError => 10 | SC_Cancelled => 11
  end.

Definition all_StatusCode : list StatusCode :=
  [SC_Ok; SC_Rejected; SC_ConflictState; SC_NotFound; SC_StaleAuthority; SC_LimitExceeded; 
   SC_IntegrityFailure; SC_Unsupported; SC_Indeterminate; SC_PreconditionFailed; 
   SC_InternalError; SC_Cancelled].

Inductive ReasonCode : Set :=
| RC_None | RC_ClassifiedConverged | RC_ClassifiedObjectMissing | RC_ClassifiedObjectUnexpected
| RC_ClassifiedValueMismatch | RC_ClassifiedFieldMissing | RC_ClassifiedFieldUnexpected
| RC_ClassifiedFieldNotComparable | RC_ClassifiedNotObservable | RC_ClassifiedUnsupportedField
| RC_ClassifiedGenerationMismatch | RC_ClassifiedPartialApplication | RC_ClassifiedSourceConflict
| RC_ClassifiedStaleObservation | RC_ClassifiedNoIntent | RC_ObservationExpired
| RC_ObservationForeignEpoch | RC_ObservationForeignIncarnation | RC_ObservationClockRegression
| RC_ObservationSequenceRegressed | RC_ObservationGenerationRegressed
| RC_ObservationDuplicateIdentical | RC_ObservationDuplicateConflicting
| RC_ObservationCoveragePartial | RC_ObservationCoverageUnknown
| RC_ObservationSourceCannotAssertAbsence | RC_ObservationSourcesDisagree
| RC_ObservationOutOfOrder | RC_ObservationSuperseded | RC_IntentGenerationRegressed
| RC_IntentGenerationConflicting | RC_IntentGenerationDuplicateIdentical
| RC_IntentTargetUndeclared | RC_IntentCoverageIncomplete | RC_NoFreshEvidence
| RC_EvidenceRecoveredNotFresh | RC_FencedStaleEpoch | RC_FencedStaleIncarnation
| RC_FencedStaleSequence | RC_FencedStaleGeneration | RC_FencedRetiredSource
| RC_AuthorityMismatch | RC_ComparisonBaselineUnavailable | RC_SuppressedByPolicy
| RC_SuppressedByOperator | RC_SuppressionExpired | RC_SuppressionNotFound
| RC_AcknowledgementRecorded | RC_FindingResolved | RC_FindingReopened | RC_FindingUnchanged
| RC_FindingCreated | RC_FindingUpdated | RC_ResolutionRefusedNoFreshEvidence
| RC_ResolutionRefusedCoverageIncomplete | RC_ResolutionRefusedConflict
| RC_FindingRebasedToNewGeneration | RC_FindingReclassified | RC_FindingNotFound
| RC_FindingRetired | RC_LedgerIntegrityDigestMismatch | RC_LedgerSchemaUnsupported
| RC_LedgerTruncated | RC_LedgerHeaderInvalid | RC_LedgerPayloadTooLarge
| RC_LedgerRecoveredConservatively | RC_LedgerVersionRegression | RC_LedgerDecodeFailed
| RC_WireFrameTruncated | RC_WireFrameOversize | RC_WireFrameChecksumMismatch
| RC_WireProtocolVersionUnsupported | RC_WireFrameMagicMismatch | RC_WireHandshakeRequired
| RC_WireHandshakeRejected | RC_WireSessionLimitExceeded | RC_WireSessionClosed
| RC_WireFrameTypeUnsupported | RC_WireSessionIdleExpired | RC_LimitObjectsExceeded
| RC_LimitFieldsExceeded | RC_LimitDepthExceeded | RC_LimitBytesExceeded
| RC_LimitFindingsExceeded | RC_LimitHistoryExceeded | RC_LimitTimelineExceeded
| RC_EncodingMalformed | RC_EncodingUnexpectedToken | RC_EncodingInvalidUtf8
| RC_EncodingNumberOutOfRange | RC_EncodingDuplicateKey | RC_EncodingTrailingBytes
| RC_ArithmeticOverflow.

Definition ReasonCode_code (v : ReasonCode) : Z :=
  match v with
  | RC_None => 0 | RC_ClassifiedConverged => 100 | RC_ClassifiedObjectMissing => 101 
  | RC_ClassifiedObjectUnexpected => 102 | RC_ClassifiedValueMismatch => 103 
  | RC_ClassifiedFieldMissing => 104 | RC_ClassifiedFieldUnexpected => 105 
  | RC_ClassifiedFieldNotComparable => 106 | RC_ClassifiedNotObservable => 107 
  | RC_ClassifiedUnsupportedField => 108 | RC_ClassifiedGenerationMismatch => 109 
  | RC_ClassifiedPartialApplication => 110 | RC_ClassifiedSourceConflict => 111 
  | RC_ClassifiedStaleObservation => 112 | RC_ClassifiedNoIntent => 113 
  | RC_ObservationExpired => 200 | RC_ObservationForeignEpoch => 201 
  | RC_ObservationForeignIncarnation => 202 | RC_ObservationClockRegression => 203 
  | RC_ObservationSequenceRegressed => 204 | RC_ObservationGenerationRegressed => 205 
  | RC_ObservationDuplicateIdentical => 206 | RC_ObservationDuplicateConflicting => 207 
  | RC_ObservationCoveragePartial => 208 | RC_ObservationCoverageUnknown => 209 
  | RC_ObservationSourceCannotAssertAbsence => 210 | RC_ObservationSourcesDisagree => 211 
  | RC_ObservationOutOfOrder => 212 | RC_ObservationSuperseded => 213 
  | RC_IntentGenerationRegressed => 220 | RC_IntentGenerationConflicting => 224 
  | RC_IntentGenerationDuplicateIdentical => 221 | RC_IntentTargetUndeclared => 222 
  | RC_IntentCoverageIncomplete => 223 | RC_NoFreshEvidence => 230 
  | RC_EvidenceRecoveredNotFresh => 231 | RC_FencedStaleEpoch => 300 
  | RC_FencedStaleIncarnation => 301 | RC_FencedStaleSequence => 302 
  | RC_FencedStaleGeneration => 303 | RC_FencedRetiredSource => 304 
  | RC_AuthorityMismatch => 310 | RC_ComparisonBaselineUnavailable => 311 
  | RC_SuppressedByPolicy => 400 | RC_SuppressedByOperator => 401 | RC_SuppressionExpired => 402 
  | RC_SuppressionNotFound => 403 | RC_AcknowledgementRecorded => 404 
  | RC_FindingResolved => 410 | RC_FindingReopened => 411 | RC_FindingUnchanged => 412 
  | RC_FindingCreated => 413 | RC_FindingUpdated => 414 
  | RC_ResolutionRefusedNoFreshEvidence => 415 | RC_ResolutionRefusedCoverageIncomplete => 416 
  | RC_ResolutionRefusedConflict => 417 | RC_FindingRebasedToNewGeneration => 418 
  | RC_FindingReclassified => 419 | RC_FindingNotFound => 420 | RC_FindingRetired => 421 
  | RC_LedgerIntegrityDigestMismatch => 500 | RC_LedgerSchemaUnsupported => 501 
  | RC_LedgerTruncated => 502 | RC_LedgerHeaderInvalid => 503 | RC_LedgerPayloadTooLarge => 504 
  | RC_LedgerRecoveredConservatively => 505 | RC_LedgerVersionRegression => 506 
  | RC_LedgerDecodeFailed => 507 | RC_WireFrameTruncated => 600 | RC_WireFrameOversize => 601 
  | RC_WireFrameChecksumMismatch => 602 | RC_WireProtocolVersionUnsupported => 603 
  | RC_WireFrameMagicMismatch => 604 | RC_WireHandshakeRequired => 605 
  | RC_WireHandshakeRejected => 606 | RC_WireSessionLimitExceeded => 607 
  | RC_WireSessionClosed => 608 | RC_WireFrameTypeUnsupported => 609 
  | RC_WireSessionIdleExpired => 610 | RC_LimitObjectsExceeded => 700 
  | RC_LimitFieldsExceeded => 701 | RC_LimitDepthExceeded => 702 | RC_LimitBytesExceeded => 703 
  | RC_LimitFindingsExceeded => 704 | RC_LimitHistoryExceeded => 705 
  | RC_LimitTimelineExceeded => 706 | RC_EncodingMalformed => 710 
  | RC_EncodingUnexpectedToken => 711 | RC_EncodingInvalidUtf8 => 712 
  | RC_EncodingNumberOutOfRange => 713 | RC_EncodingDuplicateKey => 714 
  | RC_EncodingTrailingBytes => 715 | RC_ArithmeticOverflow => 720
  end.

Definition all_ReasonCode : list ReasonCode :=
  [RC_None; RC_ClassifiedConverged; RC_ClassifiedObjectMissing; RC_ClassifiedObjectUnexpected; 
   RC_ClassifiedValueMismatch; RC_ClassifiedFieldMissing; RC_ClassifiedFieldUnexpected; 
   RC_ClassifiedFieldNotComparable; RC_ClassifiedNotObservable; RC_ClassifiedUnsupportedField; 
   RC_ClassifiedGenerationMismatch; RC_ClassifiedPartialApplication; 
   RC_ClassifiedSourceConflict; RC_ClassifiedStaleObservation; RC_ClassifiedNoIntent; 
   RC_ObservationExpired; RC_ObservationForeignEpoch; RC_ObservationForeignIncarnation; 
   RC_ObservationClockRegression; RC_ObservationSequenceRegressed; 
   RC_ObservationGenerationRegressed; RC_ObservationDuplicateIdentical; 
   RC_ObservationDuplicateConflicting; RC_ObservationCoveragePartial; 
   RC_ObservationCoverageUnknown; RC_ObservationSourceCannotAssertAbsence; 
   RC_ObservationSourcesDisagree; RC_ObservationOutOfOrder; RC_ObservationSuperseded; 
   RC_IntentGenerationRegressed; RC_IntentGenerationConflicting; 
   RC_IntentGenerationDuplicateIdentical; RC_IntentTargetUndeclared; 
   RC_IntentCoverageIncomplete; RC_NoFreshEvidence; RC_EvidenceRecoveredNotFresh; 
   RC_FencedStaleEpoch; RC_FencedStaleIncarnation; RC_FencedStaleSequence; 
   RC_FencedStaleGeneration; RC_FencedRetiredSource; RC_AuthorityMismatch; 
   RC_ComparisonBaselineUnavailable; RC_SuppressedByPolicy; RC_SuppressedByOperator; 
   RC_SuppressionExpired; RC_SuppressionNotFound; RC_AcknowledgementRecorded; 
   RC_FindingResolved; RC_FindingReopened; RC_FindingUnchanged; RC_FindingCreated; 
   RC_FindingUpdated; RC_ResolutionRefusedNoFreshEvidence; 
   RC_ResolutionRefusedCoverageIncomplete; RC_ResolutionRefusedConflict; 
   RC_FindingRebasedToNewGeneration; RC_FindingReclassified; RC_FindingNotFound; 
   RC_FindingRetired; RC_LedgerIntegrityDigestMismatch; RC_LedgerSchemaUnsupported; 
   RC_LedgerTruncated; RC_LedgerHeaderInvalid; RC_LedgerPayloadTooLarge; 
   RC_LedgerRecoveredConservatively; RC_LedgerVersionRegression; RC_LedgerDecodeFailed; 
   RC_WireFrameTruncated; RC_WireFrameOversize; RC_WireFrameChecksumMismatch; 
   RC_WireProtocolVersionUnsupported; RC_WireFrameMagicMismatch; RC_WireHandshakeRequired; 
   RC_WireHandshakeRejected; RC_WireSessionLimitExceeded; RC_WireSessionClosed; 
   RC_WireFrameTypeUnsupported; RC_WireSessionIdleExpired; RC_LimitObjectsExceeded; 
   RC_LimitFieldsExceeded; RC_LimitDepthExceeded; RC_LimitBytesExceeded; 
   RC_LimitFindingsExceeded; RC_LimitHistoryExceeded; RC_LimitTimelineExceeded; 
   RC_EncodingMalformed; RC_EncodingUnexpectedToken; RC_EncodingInvalidUtf8; 
   RC_EncodingNumberOutOfRange; RC_EncodingDuplicateKey; RC_EncodingTrailingBytes; 
   RC_ArithmeticOverflow].

Definition kStatusNames : list (Z * string) :=
  [(0, "Ok"); (1, "Rejected"); (2, "ConflictState"); (3, "NotFound"); (4, "StaleAuthority"); 
   (5, "LimitExceeded"); (6, "IntegrityFailure"); (7, "Unsupported"); (8, "Indeterminate"); 
   (9, "PreconditionFailed"); (10, "InternalError"); (11, "Cancelled")]%string.

Definition kReasonNames : list (Z * string) :=
  [(0, "None"); (100, "ClassifiedConverged"); (101, "ClassifiedObjectMissing"); 
   (102, "ClassifiedObjectUnexpected"); (103, "ClassifiedValueMismatch"); 
   (104, "ClassifiedFieldMissing"); (105, "ClassifiedFieldUnexpected"); 
   (106, "ClassifiedFieldNotComparable"); (107, "ClassifiedNotObservable"); 
   (108, "ClassifiedUnsupportedField"); (109, "ClassifiedGenerationMismatch"); 
   (110, "ClassifiedPartialApplication"); (111, "ClassifiedSourceConflict"); 
   (112, "ClassifiedStaleObservation"); (113, "ClassifiedNoIntent"); 
   (200, "ObservationExpired"); (201, "ObservationForeignEpoch"); 
   (202, "ObservationForeignIncarnation"); (203, "ObservationClockRegression"); 
   (204, "ObservationSequenceRegressed"); (205, "ObservationGenerationRegressed"); 
   (206, "ObservationDuplicateIdentical"); (207, "ObservationDuplicateConflicting"); 
   (208, "ObservationCoveragePartial"); (209, "ObservationCoverageUnknown"); 
   (210, "ObservationSourceCannotAssertAbsence"); (211, "ObservationSourcesDisagree"); 
   (212, "ObservationOutOfOrder"); (213, "ObservationSuperseded"); 
   (220, "IntentGenerationRegressed"); (224, "IntentGenerationConflicting"); 
   (221, "IntentGenerationDuplicateIdentical"); (222, "IntentTargetUndeclared"); 
   (223, "IntentCoverageIncomplete"); (230, "NoFreshEvidence"); 
   (231, "EvidenceRecoveredNotFresh"); (300, "FencedStaleEpoch"); 
   (301, "FencedStaleIncarnation"); (302, "FencedStaleSequence"); 
   (303, "FencedStaleGeneration"); (304, "FencedRetiredSource"); (310, "AuthorityMismatch"); 
   (311, "ComparisonBaselineUnavailable"); (400, "SuppressedByPolicy"); 
   (401, "SuppressedByOperator"); (402, "SuppressionExpired"); (403, "SuppressionNotFound"); 
   (404, "AcknowledgementRecorded"); (410, "FindingResolved"); (411, "FindingReopened"); 
   (412, "FindingUnchanged"); (413, "FindingCreated"); (414, "FindingUpdated"); 
   (415, "ResolutionRefusedNoFreshEvidence"); (416, "ResolutionRefusedCoverageIncomplete"); 
   (417, "ResolutionRefusedConflict"); (418, "FindingRebasedToNewGeneration"); 
   (419, "FindingReclassified"); (420, "FindingNotFound"); (421, "FindingRetired"); 
   (500, "LedgerIntegrityDigestMismatch"); (501, "LedgerSchemaUnsupported"); 
   (502, "LedgerTruncated"); (503, "LedgerHeaderInvalid"); (504, "LedgerPayloadTooLarge"); 
   (505, "LedgerRecoveredConservatively"); (506, "LedgerVersionRegression"); 
   (507, "LedgerDecodeFailed"); (600, "WireFrameTruncated"); (601, "WireFrameOversize"); 
   (602, "WireFrameChecksumMismatch"); (603, "WireProtocolVersionUnsupported"); 
   (604, "WireFrameMagicMismatch"); (605, "WireHandshakeRequired"); 
   (606, "WireHandshakeRejected"); (607, "WireSessionLimitExceeded"); 
   (608, "WireSessionClosed"); (609, "WireFrameTypeUnsupported"); 
   (610, "WireSessionIdleExpired"); (700, "LimitObjectsExceeded"); 
   (701, "LimitFieldsExceeded"); (702, "LimitDepthExceeded"); (703, "LimitBytesExceeded"); 
   (704, "LimitFindingsExceeded"); (705, "LimitHistoryExceeded"); 
   (706, "LimitTimelineExceeded"); (710, "EncodingMalformed"); 
   (711, "EncodingUnexpectedToken"); (712, "EncodingInvalidUtf8"); 
   (713, "EncodingNumberOutOfRange"); (714, "EncodingDuplicateKey"); 
   (715, "EncodingTrailingBytes"); (720, "ArithmeticOverflow")]%string.

#[export, refine] Instance enum_StatusCode : Enum StatusCode :=
  {| code := StatusCode_code; values := all_StatusCode |}.
Proof. enum_complete. Defined.

#[export, refine] Instance enum_ReasonCode : Enum ReasonCode :=
  {| code := ReasonCode_code; values := all_ReasonCode |}.
Proof. enum_complete. Defined.

Definition ToText_StatusCode (v : StatusCode) : string := Lookup kStatusNames "Unknown" (code v).
Definition ToText_ReasonCode (v : ReasonCode) : string := Lookup kReasonNames "Unknown" (code v).

Definition TryParseReasonCode (text : string) : option ReasonCode :=
  TryParseEnum kReasonNames text.

(** Which concern a reason code belongs to. *)
Definition ReasonCodeDomain (value : ReasonCode) : string :=
  let c := code value in
  if c =? 0 then "none"
  else if c <? 100 then "invalid"
  else if c <? 200 then "classification"
  else if c <? 300 then "freshness"
  else if c <? 400 then "authority"
  else if c <? 500 then "lifecycle"
  else if c <? 600 then "persistence"
  else if c <? 700 then "transport"
  else if c <? 800 then "bounds"
  else "unknown".

(** ** [Status] and [Result] *)

Record Status := mkStatus { st_code : StatusCode; st_reason : ReasonCode; st_detail : string }.

Definition status_ok (s : Status) : bool := eqb (st_code s) SC_Ok.

Definition Status_Ok : Status := mkStatus SC_Ok RC_None "".
Definition Status_Rejected (r : ReasonCode) (d : string) : Status := mkStatus SC_Rejected r d.
Definition Status_Conflict (r : ReasonCode) (d : string) : Status := mkStatus SC_ConflictState r d.
Definition Status_NotFound (r : ReasonCode) (d : string) : Status := mkStatus SC_NotFound r d.
Definition Status_Stale (r : ReasonCode) (d : string) : Status := mkStatus SC_StaleAuthority r d.
Definition Status_Limit (r : ReasonCode) (d : string) : Status := mkStatus SC_LimitExceeded r d.
Definition Status_Integrity (r : ReasonCode) (d : string) : Status := mkStatus SC_IntegrityFailure r d.
Definition Status_Internal (r : ReasonCode) (d : string) : Status := mkStatus SC_InternalError r d.
Definition Status_Precondition (r : ReasonCode) (d : string) : Status :=
  mkStatus SC_PreconditionFailed r d.
Definition Status_Cancelled (r : ReasonCode) (d : string) : Status := mkStatus SC_Cancelled r d.

(** [status = f(); if (!status.ok()) return status; ...] *)
Definition and_then (s : Status) (rest : Status) : Status := if status_ok s then rest else s.
Notation "s ;;? rest" := (and_then s rest) (at level 60, right associativity) : ndo_scope.

(** [for (x : l) { s = f(x); if (!s.ok()) return s; }] then Ok. *)
Fixpoint for_status {A} (f : A -> Status) (l : list A) : Status :=
  match l with
  | [] => Status_Ok
  | x :: l' => f x ;;? for_status f l'
  end.

Inductive Result (T : Type) :=
| Result_value (v : T)
| Result_status (s : Status).
Arguments Result_value {T} v.
Arguments Result_status {T} s.

(** A result built from an Ok status is itself a failure. *)
Definition Result_of_status {T} (s : Status) : Result T :=
  if status_ok s
  then Result_status (mkStatus SC_InternalError RC_None "ok status without value")
  else Result_status s.

Definition result_ok {T} (r : Result T) : bool :=
  match r with Result_value _ => true | Result_status s => status_ok s end.

(** ** [EvidenceClass] and [RuntimeLimits] *)

Inductive EvidenceClass : Set := EC_Unknown | EC_Real | EC_Synthetic | EC_Unsupported.

#[export, refine] Instance enum_EvidenceClass : Enum EvidenceClass :=
  {| code v := match v with EC_Unknown => 0 | EC_Real => 1 | EC_Synthetic => 2 | EC_Unsupported => 3 end;
     values := [EC_Unknown; EC_Real; EC_Synthetic; EC_Unsupported] |}.
Proof. enum_complete. Defined.

Definition ToText_EvidenceClass (value : EvidenceClass) : string :=
  match value with
  | EC_Unknown => "unknown"
  | EC_Real => "real"
  | EC_Synthetic => "synthetic"
  | EC_Unsupported => "unsupported"
  end.

Definition TryParseEvidenceClass (text : string) : option EvidenceClass :=
  if String.eqb text "unknown" then Some EC_Unknown
  else if String.eqb text "real" then Some EC_Real
  else if String.eqb text "synthetic" then Some EC_Synthetic
  else if String.eqb text "unsupported" then Some EC_Unsupported
  else None.

Record RuntimeLimits := mkRuntimeLimits {
  max_targets : Z;
  max_objects_per_target : Z;
  max_fields_per_object : Z;
  max_value_depth : Z;
  max_value_nodes : Z;
  max_leaf_bytes : Z;
  max_document_bytes : Z;
  max_path_segments : Z;
  max_path_key_bytes : Z;
  max_sources : Z;
  max_retained_snapshots_per_source : Z;
  max_findings : Z;
  max_timeline_entries_per_finding : Z;
  max_global_timeline_entries : Z;
  max_suppressions : Z;
  max_groups : Z;
  max_evidence_refs_per_finding : Z;
  max_report_findings : Z;
  max_ledger_bytes : Z;
  max_record_payload_bytes : Z;
  max_sessions : Z;
  max_in_flight_frames_per_session : Z;
  max_wire_payload_bytes : Z;
  session_idle_timeout_nanos : Z;
  max_evaluation_workers : Z
}.

#[export] Instance eta_RuntimeLimits : Eta RuntimeLimits := fun l =>
  mkRuntimeLimits (max_targets l) (max_objects_per_target l) (max_fields_per_object l)
    (max_value_depth l) (max_value_nodes l) (max_leaf_bytes l) (max_document_bytes l)
    (max_path_segments l) (max_path_key_bytes l) (max_sources l)
    (max_retained_snapshots_per_source l) (max_findings l)
    (max_timeline_entries_per_finding l) (max_global_timeline_entries l) (max_suppressions l)
    (max_groups l) (max_evidence_refs_per_finding l) (max_report_findings l)
    (max_ledger_bytes l) (max_record_payload_bytes l) (max_sessions l)
    (max_in_flight_frames_per_session l) (max_wire_payload_bytes l)
    (session_idle_timeout_nanos l) (max_evaluation_workers l).

(** The default envelope. *)
Definition default_limits : RuntimeLimits :=
  mkRuntimeLimits 4096 200000 512 16 4096 4096 (32 * 1024 * 1024) 32 256 256 8 500000 32 200000
    65536 100000 8 500000 (512 * 1024 * 1024) (64 * 1024 * 1024) 64 8 (16 * 1024 * 1024)
    (600 * 1000 * 1000 * 1000) 16.

(** ** Facts *)

Lemma status_ok_iff s : status_ok s = true <-> st_code s = SC_Ok.
Proof. apply eqb_eq. Qed.

Lemma and_then_ok s t : status_ok (s ;;? t) = status_ok s && status_ok t.
Proof. unfold and_then. by destruct (status_ok s) eqn:E. Qed.

Lemma for_status_ok {A} (f : A -> Status) l :
  status_ok (for_status f l) = true <-> Forall (fun x => status_ok (f x) = true) l.
Proof.
  induction l as [|x l IH]; cbn [for_status]; [split; constructor|].
  rewrite and_then_ok, andb_true_iff, IH, Forall_cons. done.
Qed.

(** The name tables are inverse to the parser on every enumerator. *)
Class NamedEnum (T : Type) `{Enum T} (table : list (Z * string)) := {
  named_round_trip : forall x : T, TryParseEnum table (Lookup table "Unknown" (code x)) = Some x
}.

#[export] Instance named_ReasonCode : NamedEnum ReasonCode kReasonNames.
Proof. constructor. intros x. destruct x; vm_compute; reflexivity. Qed.

#[export] Hint Rewrite @status_ok_iff @and_then_ok @for_status_ok : ndo.
