(* ===== verification/Time.v ===== *)
(** * Checked arithmetic and time

    [checked.hpp] (overflow-refusing arithmetic) and [time.hpp]/[time.cpp]
    (proleptic Gregorian dates, RFC 3339 text, defensive subtraction). *)

From Stdlib Require Import ZArith Lia List Bool Ascii String.
From stdpp Require Import base tactics list strings.
From S2P Require Import Prelude Containers Text.
#[local] Open Scope string_scope.
#[local] Open Scope Z_scope.

(** ** Checked arithmetic *)

(** An integral type: its signedness and width in bits. *)
Record IntType := mkIntType { it_signed : bool; it_width : Z }.

Definition type_min (t : IntType) : Z := if it_signed t then - 2 ^ (it_width t - 1) else 0.
Definition type_max (t : IntType) : Z :=
  if it_signed t then 2 ^ (it_width t - 1) - 1 else 2 ^ it_width t - 1.
Definition in_type (t : IntType) (z : Z) : Prop := type_min t <= z <= type_max t.

(** [static_cast<T>(z)]: reduction modulo the width, two's complement. *)
Definition static_cast (t : IntType) (z : Z) : Z :=
  let m := z mod 2 ^ it_width t in
  if it_signed t then (if m <? 2 ^ (it_width t - 1) then m else m - 2 ^ it_width t) else m.

Definition t_int32 := mkIntType true 32.
Definition t_int64 := mkIntType true 64.
Definition t_uint8 := mkIntType false 8.
Definition t_uint64 := mkIntType false 64.

Definition CheckedAdd (t : IntType) (a b : Z) : option Z :=
  if type_max t - b <? a then None else Some (static_cast t (a + b)).

Definition CheckedSub (t : IntType) (a b : Z) : option Z :=
  if a <? b then None else Some (static_cast t (a - b)).

Definition CheckedMul (t : IntType) (a b : Z) : option Z :=
  if negb (a =? 0) && (type_max t / a <? b) then None else Some (static_cast t (a * b)).

Definition CheckedCast (to from : IntType) (value : Z) : option Z :=
  if Bool.eqb (it_signed from) (it_signed to) then
    if (value <? static_cast from (type_min to)) || (static_cast from (type_max to) <? value)
    then None else Some (static_cast to value)
  else if it_signed from then
    if value <? 0 then None
    else if type_max to <? static_cast (mkIntType false (it_width from)) value
    then None else Some (static_cast to value)
  else
    if static_cast from (type_max to) <? value then None else Some (static_cast to value).

Definition CheckedAddSigned (a b : Z) : option Z :=
  if (0 <? b) && (INT64_MAX - b <? a) then None
  else if (b <? 0) && (a <? INT64_MIN - b) then None
  else Some (a + b).

Definition CheckedSubSigned (a b : Z) : option Z :=
  if b =? INT64_MIN then None else CheckedAddSigned a (- b).

(** ** Time *)

(** [NdoTime]: nanoseconds since the epoch; zero means unset. *)
Definition NdoTime : Type := Z.
Definition time_is_set (t : NdoTime) : bool := negb (t =? 0).

Definition kNanosPerSecond : Z := 1000000000.
Definition kSecondsPerDay : Z := 86400.

(** Days from 1970-01-01 for a proleptic Gregorian date.  Divisions of signed
    values truncate; unsigned arithmetic is reduced to 32 bits. *)
Definition DaysFromCivil (year month day : Z) : Z :=
  let year := year - (if month <=? 2 then 1 else 0) in
  let era := Z.quot (if 0 <=? year then year else year - 399) 400 in
  let year_of_era := wrap32 (year - era * 400) in
  let adjusted_month := if 2 <? month then wrap32 (month - 3) else wrap32 (month + 9) in
  let day_of_year := wrap32 (wrap32 (153 * adjusted_month + 2) / 5 + day - 1) in
  let day_of_era :=
    wrap32 (year_of_era * 365 + year_of_era / 4 - year_of_era / 100 + day_of_year) in
  era * 146097 + day_of_era - 719468.

Definition CivilFromDays (days : Z) : Z * Z * Z :=
  let days := days + 719468 in
  let era := Z.quot (if 0 <=? days then days else days - 146096) 146097 in
  let day_of_era := wrap32 (days - era * 146097) in
  let year_of_era :=
    wrap32 (day_of_era - day_of_era / 1460 + day_of_era / 36524 - day_of_era / 146096) / 365 in
  let year := year_of_era + era * 400 in
  let day_of_year :=
    wrap32 (day_of_era - wrap32 (365 * year_of_era + year_of_era / 4 - year_of_era / 100)) in
  let mp := wrap32 (5 * day_of_year + 2) / 153 in
  let day := wrap32 (day_of_year - wrap32 (153 * mp + 2) / 5 + 1) in
  let month := if mp <? 10 then wrap32 (mp + 3) else wrap32 (mp - 9) in
  (year + (if month <=? 2 then 1 else 0), month, day).

(** [text[pos]], as a character, for a position inside the text. *)
Definition char_at (text : string) (pos : Z) : option ascii := String.get (Z.to_nat pos) text.

Definition char_is (text : string) (pos : Z) (c : ascii) : bool :=
  match char_at text pos with Some d => Ascii.eqb d c | None => false end.

(** [ParseDigits(text, offset, count, out)]. *)
Definition ParseDigits (text : string) (offset count : Z) : option Z :=
  if ssize text <? offset + count then None
  else read_digits (substr offset count text) 0.

(** [%0<width>lld]: a sign, then zeros up to the width. *)
Fixpoint zeros (n : nat) : string := match n with O => "" | S n' => String "0" (zeros n') end.

Definition printf_padded (width : nat) (z : Z) : string :=
  let body := to_string_unsigned (Z.abs z) in
  if z <? 0
  then String "-" (String.append (zeros (width - 1 - String.length body)) body)
  else String.append (zeros (width - String.length body)) body.

Definition FormatTime (nanos : NdoTime) : string :=
  let seconds := Z.quot nanos kNanosPerSecond in
  let fraction := Z.rem nanos kNanosPerSecond in
  let '(seconds, fraction) :=
    if fraction <? 0 then (seconds - 1, fraction + kNanosPerSecond) else (seconds, fraction) in
  let days := Z.quot seconds kSecondsPerDay in
  let remainder := Z.rem seconds kSecondsPerDay in
  let remainder := if remainder <? 0 then remainder + kSecondsPerDay else remainder in
  let '(year, month, day) := CivilFromDays days in
  let hour := Z.quot remainder 3600 in
  let minute := Z.quot (Z.rem remainder 3600) 60 in
  let second := Z.rem remainder 60 in
  String.append (printf_padded 4 year) (String.append "-" (String.append (printf_padded 2 month)
  (String.append "-" (String.append (printf_padded 2 day) (String.append "T"
  (String.append (printf_padded 2 hour) (String.append ":" (String.append (printf_padded 2 minute)
  (String.append ":" (String.append (printf_padded 2 second) (String.append "."
  (String.append (printf_padded 9 fraction) "Z")))))))))))).

(** The number of digits from a position on. *)
Fixpoint digit_run (s : string) : Z :=
  match s with
  | "" => 0
  | String c s' => if is_digit c then 1 + digit_run s' else 0
  end.

Definition drop (pos : Z) (s : string) : string := substr pos (ssize s - pos) s.

(** The optional fraction from position 19: nanoseconds and the position after. *)
Definition parse_fraction (text : string) : option (Z * Z) :=
  if char_is text 19 "."%char then
    let digits := digit_run (drop 20 text) in
    if (digits =? 0) || (9 <? digits) then None
    else match ParseDigits text 20 digits with
         | Some raw => Some (raw * 10 ^ (9 - digits), 20 + digits)
         | None => None
         end
  else Some (0, 19).

Definition TryParseTime (text : string) : option NdoTime :=
  if ssize text <? 20 then None
  else if negb (char_is text 4 "-"%char) || negb (char_is text 7 "-"%char)
          || negb (char_is text 10 "T"%char) || negb (char_is text 13 ":"%char)
          || negb (char_is text 16 ":"%char) then None
  else if negb (char_is text (ssize text - 1) "Z"%char) then None
  else
    match ParseDigits text 0 4, ParseDigits text 5 2, ParseDigits text 8 2,
          ParseDigits text 11 2, ParseDigits text 14 2, ParseDigits text 17 2 with
    | Some year, Some month, Some day, Some hour, Some minute, Some second =>
        if (month <? 1) || (12 <? month) || (day <? 1) || (31 <? day) || (23 <? hour)
           || (59 <? minute) || (60 <? second) then None
        else
          match parse_fraction text with
          | None => None
          | Some (fraction, position) =>
              if negb (position =? ssize text - 1) then None
              else
                let days := DaysFromCivil year month day in
                let seconds := days * kSecondsPerDay + hour * 3600 + minute * 60 + second in
                if (Z.quot (INT64_MAX - fraction) kNanosPerSecond <? seconds)
                   || (seconds <? Z.quot (INT64_MIN + fraction) kNanosPerSecond) then None
                else Some (seconds * kNanosPerSecond + fraction)
          end
    | _, _, _, _, _, _ => None
    end.

Definition TryDifference (later earlier : NdoTime) : option Z := CheckedSubSigned later earlier.

(** ** Facts: checked arithmetic *)

Lemma static_cast_id t z : 0 < it_width t -> in_type t z -> static_cast t z = z.
Proof.
  unfold in_type, type_min, type_max, static_cast. intros Hw.
  assert (2 ^ it_width t = 2 * 2 ^ (it_width t - 1)) as E
    by (rewrite <- Z.pow_succ_r by lia; f_equal; lia).
  assert (0 < 2 ^ (it_width t - 1)) by (apply Z.pow_pos_nonneg; lia).
  destruct (it_signed t); intros Hz.
  - destruct (Z.leb_spec 0 z).
    + rewrite Z.mod_small by lia. destruct (z <? _) eqn:?; breflect; lia.
    + replace (z mod 2 ^ it_width t) with (z + 2 ^ it_width t)
        by (apply Z.mod_unique with (-1); lia).
      destruct (_ <? _) eqn:?; breflect; lia.
  - rewrite Z.mod_small; lia.
Qed.

Lemma CheckedAdd_spec t a b : it_signed t = false -> 0 < it_width t ->
  in_type t a -> in_type t b ->
  CheckedAdd t a b = if a + b <=? type_max t then Some (a + b) else None.
Proof.
  intros Hs Hw Ha Hb. unfold CheckedAdd.
  assert (type_min t = 0) as Hmin by (unfold type_min; by rewrite Hs).
  unfold in_type in *.
  destruct (_ <? a) eqn:E1, (_ <=? _) eqn:E2; breflect; try lia; [done|].
  rewrite static_cast_id; [done..|]. unfold in_type. lia.
Qed.

Lemma CheckedSub_spec t a b : it_signed t = false -> 0 < it_width t ->
  in_type t a -> in_type t b ->
  CheckedSub t a b = if b <=? a then Some (a - b) else None.
Proof.
  intros Hs Hw Ha Hb. unfold CheckedSub.
  assert (type_min t = 0) as Hmin by (unfold type_min; by rewrite Hs).
  unfold in_type in *.
  destruct (a <? b) eqn:E1, (b <=? a) eqn:E2; breflect; try lia; [done|].
  rewrite static_cast_id; [done..|]. unfold in_type. lia.
Qed.

Lemma CheckedMul_spec t a b : it_signed t = false -> 0 < it_width t ->
  in_type t a -> in_type t b ->
  CheckedMul t a b = if a * b <=? type_max t then Some (a * b) else None.
Proof.
  intros Hs Hw Ha Hb. unfold CheckedMul.
  assert (type_min t = 0) as Hmin by (unfold type_min; by rewrite Hs).
  unfold in_type in *. rewrite Hmin in *.
  destruct (a =? 0) eqn:E0; breflect; cbn [negb andb].
  - subst a. destruct (_ <=? _) eqn:E2; breflect; [|lia].
    rewrite static_cast_id; [done..|]. unfold in_type. lia.
  - assert (type_max t / a < b <-> type_max t < a * b) as Hdiv.
    { pose proof (Z.div_mod (type_max t) a). pose proof (Z.mod_pos_bound (type_max t) a). nia. }
    destruct (_ <? b) eqn:E1, (_ <=? _) eqn:E2; breflect; try lia; [done|].
    rewrite static_cast_id; [done..|]. unfold in_type. nia.
Qed.

(** Reduction of [2^t - 1] and [2^t] to a narrower width. *)
Lemma pow2_mod f t : 0 <= f <= t -> 2 ^ t mod 2 ^ f = 0.
Proof.
  intros. replace t with (f + (t - f)) by lia. rewrite Z.pow_add_r by lia.
  rewrite Z.mul_comm. apply Z.mod_mul. pose proof (Z.pow_pos_nonneg 2 f). lia.
Qed.

Lemma pow2_pred_mod f t : 0 <= f <= t -> (2 ^ t - 1) mod 2 ^ f = 2 ^ f - 1.
Proof.
  intros. pose proof (Z.pow_pos_nonneg 2 f ltac:(lia) ltac:(lia)).
  rewrite <- Zminus_mod_idemp_l, pow2_mod by lia.
  symmetry. apply Z.mod_unique with (-1); lia.
Qed.

Lemma pow2_opp_mod f t : 0 <= f <= t -> (- 2 ^ t) mod 2 ^ f = 0.
Proof. intros. apply Z_mod_zero_opp_full, pow2_mod. lia. Qed.

Lemma half_pow2 w : 0 < w -> 2 ^ w = 2 * 2 ^ (w - 1).
Proof. intros. rewrite <- Z.pow_succ_r by lia. f_equal; lia. Qed.

(** The bounds a cast test computes, when the target is not wider. *)
Lemma static_cast_narrow from to z : it_signed from = it_signed to ->
  0 < it_width to <= it_width from -> in_type to z -> static_cast from z = z.
Proof.
  intros Hs Hw Hz. apply static_cast_id; [lia|]. revert Hz.
  unfold in_type, type_min, type_max. rewrite Hs.
  pose proof (Z.pow_le_mono_r 2 (it_width to) (it_width from)).
  pose proof (Z.pow_le_mono_r 2 (it_width to - 1) (it_width from - 1)).
  destruct (it_signed to); lia.
Qed.

Lemma type_bounds_in t : 0 < it_width t -> in_type t (type_min t) /\ in_type t (type_max t).
Proof.
  intros. unfold in_type, type_min, type_max.
  pose proof (Z.pow_pos_nonneg 2 (it_width t - 1)).
  pose proof (Z.pow_pos_nonneg 2 (it_width t)).
  destruct (it_signed t); lia.
Qed.

Lemma range_test to v : 0 < it_width to ->
  (if (v <? type_min to) || (type_max to <? v) then None else Some (static_cast to v))
  = if (type_min to <=? v) && (v <=? type_max to) then Some v else None.
Proof.
  intros Hw. destruct (_ || _) eqn:E1, (_ && _) eqn:E2; try done.
  - breflect. apply orb_true_iff in E1 as [?|?]; breflect; lia.
  - breflect. rewrite static_cast_id; [done..|]. done.
  - breflect. apply andb_false_iff in E2 as [?|?]; breflect; lia.
Qed.

(** A signed widening test compares against wrapped bounds. *)
Lemma widening_bounds from to : it_signed from = true -> it_signed to = true ->
  0 < it_width from < it_width to ->
  static_cast from (type_min to) = 0 /\ static_cast from (type_max to) = -1.
Proof.
  intros Hf Ht Hw. unfold static_cast, type_min, type_max. rewrite Hf, Ht.
  rewrite pow2_opp_mod, pow2_pred_mod by lia. rewrite (half_pow2 (it_width from)) by lia.
  pose proof (Z.pow_pos_nonneg 2 (it_width from - 1)).
  repeat (case_scrutinee; breflect); lia.
Qed.

Lemma unsigned_bounds from to : it_signed from = false -> 0 < it_width from -> 0 < it_width to ->
  static_cast from (type_max to) = Z.min (type_max from) (type_max to).
Proof.
  intros Hf Hwf Hwt. unfold static_cast. rewrite Hf. unfold type_max. rewrite Hf.
  pose proof (Z.pow_pos_nonneg 2 (it_width from)). pose proof (Z.pow_pos_nonneg 2 (it_width to)).
  set (t := if it_signed to then it_width to - 1 else it_width to).
  assert ((if it_signed to then 2 ^ (it_width to - 1) - 1 else 2 ^ it_width to - 1) = 2 ^ t - 1)
    as -> by (subst t; by destruct (it_signed to)).
  assert (0 <= t) by (subst t; destruct (it_signed to); lia).
  pose proof (Z.pow_pos_nonneg 2 t ltac:(lia) ltac:(lia)).
  destruct (Z.le_gt_cases (it_width from) t).
  - rewrite pow2_pred_mod by lia. pose proof (Z.pow_le_mono_r 2 (it_width from) t). lia.
  - pose proof (Z.pow_lt_mono_r 2 t (it_width from)). rewrite Z.mod_small; lia.
Qed.

(** C40. [CheckedCast] never truncates: it returns the value unchanged, and only
    when the target type holds it.  It returns every representable value except
    across a widening signed conversion, where the bounds it compares against
    have wrapped to 0 and -1 and every value is refused. *)
Theorem CheckedCast_spec to from v : 0 < it_width from -> 0 < it_width to -> in_type from v ->
  CheckedCast to from v =
    if it_signed from && it_signed to && (it_width from <? it_width to) then None
    else if (type_min to <=? v) && (v <=? type_max to) then Some v else None.
Proof.
  intros Hf Ht Hv. unfold CheckedCast. destruct (type_bounds_in to Ht) as [Hmin Hmax].
  destruct (it_signed from) eqn:Ef, (it_signed to) eqn:Et; cbn [Bool.eqb andb].
  - destruct (Z.ltb_spec (it_width from) (it_width to)) as [Hw|Hw].
    + destruct (widening_bounds from to) as [-> ->]; [done|done|lia|].
      replace ((v <? 0) || (-1 <? v)) with true; [done|].
      symmetry. apply orb_true_iff. destruct (Z.lt_ge_cases v 0); [left|right]; lia.
    + rewrite !(static_cast_narrow from to) by (congruence || lia || done). by apply range_test.
  - assert (type_min to = 0) as Hz by (unfold type_min; by rewrite Et).
    rewrite <- range_test by done. rewrite Hz. destruct (v <? 0) eqn:E0; [done|]. breflect.
    rewrite static_cast_id; [done|done|]. revert Hv. unfold in_type, type_min, type_max.
    cbn [it_signed it_width]. rewrite Ef, (half_pow2 (it_width from)) by done. lia.
  - rewrite unsigned_bounds by done. revert Hv. unfold in_type. intros Hv.
    assert (type_min from = 0) as Hz by (unfold type_min; by rewrite Ef).
    assert (type_min to <= 0) by (unfold type_min; rewrite Et; pose proof (Z.pow_nonneg 2 (it_width to - 1)); lia).
    rewrite <- range_test by done.
    replace (v <? type_min to) with false by (symmetry; apply Z.ltb_ge; lia). cbn [orb].
    replace (Z.min (type_max from) (type_max to) <? v) with (type_max to <? v); [done|].
    destruct (Z.ltb_spec (type_max to) v), (Z.ltb_spec (Z.min (type_max from) (type_max to)) v); lia.
  - rewrite unsigned_bounds by done. revert Hv. unfold in_type. intros Hv.
    assert (type_min from = 0) as Hz by (unfold type_min; by rewrite Ef).
    assert (type_min to = 0) as Hz' by (unfold type_min; by rewrite Et).
    rewrite <- range_test by done. rewrite Hz'.
    assert (static_cast from 0 = 0) as ->.
    { unfold static_cast. rewrite Ef. apply Z.mod_0_l. pose proof (Z.pow_pos_nonneg 2 (it_width from)). lia. }
    replace (Z.min (type_max from) (type_max to) <? v) with (type_max to <? v); [done|].
    destruct (Z.ltb_spec (type_max to) v), (Z.ltb_spec (Z.min (type_max from) (type_max to)) v); lia.
Qed.

Lemma CheckedCast_spec_witness :
  CheckedCast t_uint8 t_int32 255 = Some 255 /\ CheckedCast t_int64 t_int32 5 = None.
Proof.
  split.
  - rewrite (CheckedCast_spec t_uint8 t_int32 255); [reflexivity|done|done|].
    unfold in_type. vm_compute. split; discriminate.
  - rewrite (CheckedCast_spec t_int64 t_int32 5); [reflexivity|done|done|].
    unfold in_type. vm_compute. split; discriminate.
Defined.

Lemma CheckedAddSigned_spec a b : is_i64 a -> is_i64 b ->
  CheckedAddSigned a b =
    if (INT64_MIN <=? a + b) && (a + b <=? INT64_MAX) then Some (a + b) else None.
Proof.
  unfold is_i64, CheckedAddSigned. intros. repeat case_scrutinee; breflect; try done;
    repeat match goal with H : _ && _ = false |- _ => apply andb_false_iff in H as [?|?] end;
    breflect; try lia.
Qed.

Lemma TryDifference_spec later earlier : is_i64 later -> is_i64 earlier ->
  TryDifference later earlier =
    if (INT64_MIN <=? later - earlier) && (later - earlier <=? INT64_MAX)
       && negb (earlier =? INT64_MIN)
    then Some (later - earlier) else None.
Proof.
  unfold TryDifference, CheckedSubSigned. intros Hl He.
  destruct (earlier =? INT64_MIN) eqn:E; breflect; [by rewrite andb_false_r|].
  rewrite andb_true_r, CheckedAddSigned_spec; [done..|].
  unfold is_i64 in *. cbv [INT64_MIN INT64_MAX] in *. lia.
Qed.

Lemma TryDifference_Some later earlier d : is_i64 later -> is_i64 earlier ->
  TryDifference later earlier = Some d -> d = later - earlier /\ is_i64 d.
Proof.
  intros Hl He. rewrite TryDifference_spec by done. intros Hd. case_hyp Hd. breflect.
  injection Hd as <-. unfold is_i64. lia.
Qed.

(** ** Facts: the calendar *)

Lemma wrap32_id z : 0 <= z < 4294967296 -> wrap32 z = z.
Proof. intros. by apply Z.mod_small. Qed.

(** Truncating division with the floor correction of the source is floor
    division. *)
Lemma quot_floor a n : 0 < n -> Z.quot (if 0 <=? a then a else a - (n - 1)) n = a / n.
Proof.
  intros. destruct (0 <=? a) eqn:E; breflect.
  - by rewrite Z.quot_div_nonneg by lia.
  - apply Z.div_unique with (a - n * Z.quot (a - (n - 1)) n); [left|lia].
    pose proof (Z.quot_rem' (a - (n - 1)) n).
    assert (- n < Z.rem (a - (n - 1)) n <= 0) by (apply Z.rem_bound_pos_neg; lia). lia.
Qed.

(** The year of a 400-year era and the day of that year. *)
Lemma year_of_era_bounds doe : 0 <= doe < 146097 ->
  let yoe := (doe - doe / 1460 + doe / 36524 - doe / 146096) / 365 in
  0 <= yoe < 400 /\ 0 <= doe - (365 * yoe + yoe / 4 - yoe / 100) < 366.
Proof. intros H yoe. subst yoe. Z.div_mod_to_equations. lia. Qed.

Lemma month_day_bounds doy : 0 <= doy < 366 ->
  let mp := (5 * doy + 2) / 153 in
  0 <= mp < 12 /\ 1 <= doy - (153 * mp + 2) / 5 + 1 <= 31.
Proof. intros H mp. subst mp. Z.div_mod_to_equations. lia. Qed.

Ltac drop_wrap := repeat (rewrite wrap32_id; [|lia]).

Lemma CivilFromDays_inverse d :
  let '(y, m, dd) := CivilFromDays d in
  DaysFromCivil y m dd = d /\ 1 <= m <= 12 /\ 1 <= dd <= 31 /\
  400 * ((d + 719468) / 146097) <= y <= 400 * ((d + 719468) / 146097) + 400.
Proof.
  unfold CivilFromDays. cbv zeta.
  pose proof (quot_floor (d + 719468) 146097 eq_refl) as Hq.
  change (146097 - 1) with 146096 in Hq. rewrite Hq. clear Hq.
  set (era := (d + 719468) / 146097) in *.
  assert (Hd : d + 719468 - era * 146097 = (d + 719468) mod 146097)
    by (pose proof (Z.div_mod (d + 719468) 146097 ltac:(lia)); subst era; lia).
  assert (Hdoe : 0 <= (d + 719468) mod 146097 < 146097) by (apply Z.mod_pos_bound; lia).
  rewrite Hd. set (doe := (d + 719468) mod 146097) in *. clearbody doe era.
  rewrite (wrap32_id doe) by lia.
  pose proof (year_of_era_bounds doe Hdoe) as Hy.
  rewrite (wrap32_id (doe - _ + _ - _)) by (Z.div_mod_to_equations; lia).
  cbv zeta in Hy. set (yoe := (doe - doe / 1460 + doe / 36524 - doe / 146096) / 365) in *.
  destruct Hy as [Hyoe Hdoy].
  rewrite (wrap32_id (365 * yoe + _ - _)) by (Z.div_mod_to_equations; lia).
  rewrite (wrap32_id (doe - _)) by lia.
  remember (doe - (365 * yoe + yoe / 4 - yoe / 100)) as doy eqn:Edoy.
  pose proof (month_day_bounds doy Hdoy) as Hm. cbv zeta in Hm.
  rewrite (wrap32_id (5 * doy + 2)) by lia. set (mp := (5 * doy + 2) / 153) in *.
  destruct Hm as [Hmp Hday].
  rewrite (wrap32_id (153 * mp + 2)) by lia.
  rewrite (wrap32_id (doy - _ + 1)) by lia.
  set (dd := doy - (153 * mp + 2) / 5 + 1) in *.
  assert (Hback : forall y m, y - (if m <=? 2 then 1 else 0) = yoe + era * 400 ->
            (if 2 <? m then wrap32 (m - 3) else wrap32 (m + 9)) = mp ->
            DaysFromCivil y m dd = d).
  { intros y m E1 E2. unfold DaysFromCivil. cbv zeta. rewrite E1, E2.
    pose proof (quot_floor (yoe + era * 400) 400 eq_refl) as Hq.
    change (400 - 1) with 399 in Hq. rewrite Hq. clear Hq.
    replace ((yoe + era * 400) / 400) with era by (Z.div_mod_to_equations; lia).
    replace (yoe + era * 400 - era * 400) with yoe by lia.
    rewrite (wrap32_id yoe), (wrap32_id (153 * mp + 2)) by lia.
    replace ((153 * mp + 2) / 5 + dd - 1) with doy by (subst dd; lia).
    rewrite (wrap32_id doy) by lia.
    rewrite wrap32_id by (Z.div_mod_to_equations; lia). lia. }
  destruct (mp <? 10) eqn:Emp; breflect.
  - rewrite (wrap32_id (mp + 3)) by lia.
    split; [apply Hback|repeat case_scrutinee; lia].
    + destruct (_ <=? 2) eqn:?; breflect; lia.
    + destruct (2 <? _) eqn:?; breflect; [rewrite wrap32_id|]; lia.
  - rewrite (wrap32_id (mp - 9)) by lia.
    split; [apply Hback|repeat case_scrutinee; lia].
    + destruct (_ <=? 2) eqn:?; breflect; lia.
    + destruct (2 <? _) eqn:?; breflect; [|rewrite wrap32_id]; lia.
Qed.

(** ** Facts: time text *)

Lemma dec_digits_length fuel n acc k : 0 <= n < 10 ^ Z.of_nat (S k) ->
  (String.length (dec_digits fuel n acc) <= S k + String.length acc)%nat.
Proof.
  revert n acc k. induction fuel as [|fuel IH]; intros n acc k Hn; cbn [dec_digits]; [lia|].
  destruct (n <? 10) eqn:E; breflect; [cbn [String.length]; lia|].
  destruct k as [|k]; [cbn in Hn; lia|].
  assert (0 <= n / 10 < 10 ^ Z.of_nat (S k)) as Hdiv.
  { split; [apply Z.div_pos; lia|]. apply Z.div_lt_upper_bound; [lia|].
    rewrite <- Z.pow_succ_r, <- Nat2Z.inj_succ by lia. lia. }
  specialize (IH (n / 10) (String (digit_char (n mod 10)) acc) k Hdiv). cbn [String.length] in IH.
  lia.
Qed.

Lemma zeros_length n : String.length (zeros n) = n.
Proof. induction n; cbn [zeros String.length]; congruence. Qed.

Lemma read_digits_zeros n s a : read_digits (String.append (zeros n) s) a = read_digits s (a * 10 ^ Z.of_nat n).
Proof.
  revert a. induction n as [|n IH]; intros a; [cbn; f_equal; lia|].
  change (String.append (zeros (S n)) s) with (String "0" (String.append (zeros n) s)).
  change (read_digits (String "0" (String.append (zeros n) s)) a)
    with (read_digits (String.append (zeros n) s) (a * 10 + 0)).
  rewrite IH. f_equal. rewrite Nat2Z.inj_succ, Z.pow_succ_r by lia. lia.
Qed.

(** A zero-padded field of [w] digits has [w] characters and reads back. *)
Lemma printf_padded_spec w z : (w < 20)%nat -> 0 <= z < 10 ^ Z.of_nat (S w) ->
  String.length (printf_padded (S w) z) = S w /\
  read_digits (printf_padded (S w) z) 0 = Some z.
Proof.
  intros Hw Hz. unfold printf_padded. destruct (z <? 0) eqn:E; breflect; [lia|].
  rewrite Z.abs_eq by lia.
  assert (10 ^ Z.of_nat (S w) <= 10 ^ 20) by (apply Z.pow_le_mono_r; lia).
  pose proof (dec_digits_length 20 z "" w Hz) as Hl. cbn [String.length] in Hl.
  fold (to_string_unsigned z) in Hl. split.
  - rewrite length_append, zeros_length. lia.
  - rewrite read_digits_zeros. unfold to_string_unsigned.
    destruct (read_digits_dec 20 z "") as (k & Hk & Ek); [lia..|].
    rewrite Ek. cbn [read_digits]. f_equal; lia.
Qed.

(** A string of known length, spelled out. *)
Ltac spell s H :=
  repeat (let c := fresh "c" in
          destruct s as [|c s]; [discriminate H|]; apply (f_equal pred) in H; cbn [pred String.length] in H);
  try (destruct s as [|? ?]; [clear H|discriminate H]).

Lemma read_digits_all s a z : read_digits s a = Some z -> forall t,
  digit_run (String.append s t) = ssize s + digit_run t.
Proof.
  revert a. induction s as [|c s IH]; intros a E t.
  - done.
  - cbn [read_digits] in E. destruct (is_digit c) eqn:Ec; [|done].
    change (String.append (String c s) t) with (String c (String.append s t)).
    cbn [digit_run]. rewrite Ec, (IH _ E). unfold ssize. cbn [String.length]. lia.
Qed.

Lemma year_range_of_i64 nanos : is_i64 nanos ->
  let '(y, _, _) := CivilFromDays (Z.quot (nanos / kNanosPerSecond) kSecondsPerDay) in
  0 <= y < 10000.
Proof.
  unfold is_i64. cbv [INT64_MIN INT64_MAX kNanosPerSecond kSecondsPerDay]. intros H.
  assert (-106752 <= Z.quot (nanos / 1000000000) 86400 <= 106752)
    by (Z.to_euclidean_division_equations; lia).
  set (d := Z.quot _ _) in *. clearbody d.
  pose proof (CivilFromDays_inverse d) as Hc. destruct (CivilFromDays d) as [[y m] dd].
  destruct Hc as (_ & _ & _ & Hy). Z.div_mod_to_equations. lia.
Qed.

(** The normalisation of a negative fraction is floor division. *)
Lemma split_nanos nanos :
  (if Z.rem nanos kNanosPerSecond <? 0
   then (Z.quot nanos kNanosPerSecond - 1, Z.rem nanos kNanosPerSecond + kNanosPerSecond)
   else (Z.quot nanos kNanosPerSecond, Z.rem nanos kNanosPerSecond))
  = (nanos / kNanosPerSecond, nanos mod kNanosPerSecond).
Proof.
  unfold kNanosPerSecond. destruct (_ <? 0) eqn:E; breflect; f_equal;
    Z.to_euclidean_division_equations; lia.
Qed.

(** What the decoder makes of the text of a time: the time itself from the
    epoch on; one day later for a time before the epoch that is not midnight. *)
Definition reread_time (nanos : NdoTime) : NdoTime :=
  if (nanos <? 0) && negb (nanos / kNanosPerSecond mod kSecondsPerDay =? 0)
  then nanos + kSecondsPerDay * kNanosPerSecond else nanos.

(** The fields of a formatted time, as the decoder needs them. *)
Definition field (w : nat) (s : string) (z : Z) : Prop :=
  String.length s = w /\ read_digits s 0 = Some z.

Lemma field_printf w z : (w < 20)%nat -> 0 <= z < 10 ^ Z.of_nat (S w) ->
  field (S w) (printf_padded (S w) z) z.
Proof. apply printf_padded_spec. Qed.

(** The decoder on a text laid out in fields. *)
Lemma TryParseTime_fields Y Mo D H Mi S F y mo d h mi s f :
  field 4 Y y -> field 2 Mo mo -> field 2 D d -> field 2 H h -> field 2 Mi mi -> field 2 S s ->
  field 9 F f -> 1 <= mo <= 12 -> 1 <= d <= 31 -> 0 <= h <= 23 -> 0 <= mi <= 59 -> 0 <= s <= 60 ->
  let seconds := DaysFromCivil y mo d * kSecondsPerDay + h * 3600 + mi * 60 + s in
  seconds <= Z.quot (INT64_MAX - f) kNanosPerSecond ->
  Z.quot (INT64_MIN + f) kNanosPerSecond <= seconds ->
  TryParseTime
    (String.append Y (String.append "-" (String.append Mo
      (String.append "-" (String.append D (String.append "T"
      (String.append H (String.append ":" (String.append Mi
      (String.append ":" (String.append S (String.append "."
      (String.append F "Z")))))))))))))
  = Some (seconds * kNanosPerSecond + f).
Proof.
  intros [LY RY] [LMo RMo] [LD RD] [LH RH] [LMi RMi] [LS RS] [LF RF] Bmo Bd Bh Bmi Bs seconds Hhi Hlo.
  pose proof (read_digits_all F 0 f RF "Z") as Hrun.
  change (digit_run "Z") with 0 in Hrun. unfold ssize in Hrun. rewrite LF in Hrun.
  spell Y LY. spell Mo LMo. spell D LD. spell H LH. spell Mi LMi. spell S LS. spell F LF.
  match goal with |- TryParseTime ?t = _ => set (T := t) end.
  assert (digit_run (drop 20 T) = 9) as Hdig by exact Hrun.
  assert (ParseDigits T 20 9 = Some f) as HF by exact RF.
  assert (parse_fraction T = Some (f, 29)) as Hfrac.
  { unfold parse_fraction. change (char_is T 19 ".") with true. cbv iota.
    rewrite Hdig. change ((9 =? 0) || (9 <? 9)) with false. cbv iota. rewrite HF.
    change (10 ^ (9 - 9)) with 1. rewrite Z.mul_1_r. done. }
  assert (ParseDigits T 0 4 = Some y) as P0 by exact RY.
  assert (ParseDigits T 5 2 = Some mo) as P1 by exact RMo.
  assert (ParseDigits T 8 2 = Some d) as P2 by exact RD.
  assert (ParseDigits T 11 2 = Some h) as P3 by exact RH.
  assert (ParseDigits T 14 2 = Some mi) as P4 by exact RMi.
  assert (ParseDigits T 17 2 = Some s) as P5 by exact RS.
  unfold TryParseTime. rewrite Hfrac, P0, P1, P2, P3, P4, P5.
  change (ssize T) with 30.
  change (char_is T 4 "-") with true. change (char_is T 7 "-") with true.
  change (char_is T 10 "T") with true. change (char_is T 13 ":") with true.
  change (char_is T 16 ":") with true. change (char_is T (30 - 1) "Z") with true.
  cbn [negb orb]. change (30 <? 20) with false. cbv iota.
  change (29 =? 30 - 1) with true. cbn [negb]. fold seconds. clearbody seconds T.
  repeat match goal with |- context [?a <? ?b] =>
    replace (a <? b) with false by (symmetry; apply Z.ltb_ge; lia) end.
  done.
Qed.

(** The decoder reads the fields that the formatter wrote. *)
Lemma FormatTime_reads_back nanos : is_i64 nanos ->
  TryParseTime (FormatTime nanos) = Some (reread_time nanos).
Proof.
  intros Hn. pose proof (year_range_of_i64 nanos Hn) as Hyear.
  unfold FormatTime. rewrite split_nanos. cbv beta iota zeta.
  pose proof (CivilFromDays_inverse (Z.quot (nanos / kNanosPerSecond) kSecondsPerDay)) as Hc.
  destruct (CivilFromDays _) as [[y m] d]. destruct Hc as (Hback & Hm & Hd & _).
  pose proof (Z.div_mod nanos kNanosPerSecond ltac:(done)) as Hdm.
  set (r := Z.rem (nanos / kNanosPerSecond) kSecondsPerDay).
  set (q := Z.quot (nanos / kNanosPerSecond) kSecondsPerDay) in *.
  set (rem' := if r <? 0 then r + kSecondsPerDay else r).
  assert (Hqr : nanos / kNanosPerSecond = kSecondsPerDay * q + r) by apply Z.quot_rem'.
  assert (Hrem : 0 <= rem' < 86400).
  { subst rem' r. unfold kSecondsPerDay.
    destruct (_ <? 0) eqn:E; breflect; Z.to_euclidean_division_equations; lia. }
  assert (Hf : 0 <= nanos mod kNanosPerSecond < 1000000000) by (apply Z.mod_pos_bound; done).
  assert (Hhms : Z.quot rem' 3600 * 3600 + Z.quot (Z.rem rem' 3600) 60 * 60 + Z.rem rem' 60 = rem' /\
    0 <= Z.quot rem' 3600 <= 23 /\ 0 <= Z.quot (Z.rem rem' 3600) 60 <= 59 /\
    0 <= Z.rem rem' 60 <= 59).
  { clearbody rem'. clear -Hrem. Z.to_euclidean_division_equations; lia. }
  destruct Hhms as (Hsum & Hh & Hmi & Hs).
  assert (Htotal : (kSecondsPerDay * q + rem') * kNanosPerSecond + nanos mod kNanosPerSecond
                   = reread_time nanos).
  { unfold reread_time. subst rem' q r. clear -Hn Hdm Hf.
    unfold is_i64, kSecondsPerDay, kNanosPerSecond in *.
    set (sec := nanos / 1000000000) in *. set (f := nanos mod 1000000000) in *. clearbody sec f.
    repeat (case_scrutinee; breflect); repeat match goal with
    | H : _ && _ = true |- _ => apply andb_true_iff in H as [? ?]
    | H : _ && _ = false |- _ => apply andb_false_iff in H as [?|?] end; breflect;
    Z.to_euclidean_division_equations; lia. }
  assert (Hrange : Z.quot (INT64_MIN + nanos mod kNanosPerSecond) kNanosPerSecond
                   <= kSecondsPerDay * q + rem'
                   <= Z.quot (INT64_MAX - nanos mod kNanosPerSecond) kNanosPerSecond).
  { subst rem' q r. clear -Hn Hdm Hf.
    unfold is_i64, kSecondsPerDay, kNanosPerSecond in *. cbv [INT64_MIN INT64_MAX] in *.
    set (sec := nanos / 1000000000) in *. set (f := nanos mod 1000000000) in *. clearbody sec f.
    repeat (case_scrutinee; breflect); split; Z.to_euclidean_division_equations; lia. }
  rewrite <- Htotal.
  erewrite TryParseTime_fields with (f := nanos mod kNanosPerSecond);
    [| apply field_printf; [lia|cbn; lia] .. | exact Hm | exact Hd | exact Hh | exact Hmi | lia | | ];
    rewrite ?Hback, ?Z.add_assoc; [f_equal; lia| lia | lia].
Qed.

(** Round trip of time text, for every representable time: a formatted time
    parses back to itself from the epoch on, and to one day later when it lies
    before the epoch and is not a midnight (the formatter truncates the day
    number of a negative time but wraps its time of day). *)
Theorem TryParseTime_FormatTime nanos (Hn : is_i64 nanos) :
  TryParseTime (FormatTime nanos) = Some (reread_time nanos) /\
  (0 <= nanos -> TryParseTime (FormatTime nanos) = Some nanos) /\
  (nanos < 0 -> nanos / kNanosPerSecond mod kSecondsPerDay <> 0 ->
   TryParseTime (FormatTime nanos) = Some (nanos + kSecondsPerDay * kNanosPerSecond)).
Proof.
  rewrite FormatTime_reads_back by done. unfold reread_time. split; [done|]. split.
  - intros H0. by rewrite (proj2 (Z.ltb_ge _ _)).
  - intros H0 Hd. by rewrite (proj2 (Z.ltb_lt _ _)), (proj2 (Z.eqb_neq _ _)).
Qed.

Lemma TryParseTime_FormatTime_witness :
  TryParseTime (FormatTime 1700000000123456789) = Some 1700000000123456789 /\
  TryParseTime (FormatTime (-1)) = Some 86399999999999.
Proof.
  assert (H1 : is_i64 1700000000123456789) by (unfold is_i64; vm_compute; split; discriminate).
  assert (H2 : is_i64 (-1)) by (unfold is_i64; vm_compute; split; discriminate).
  split.
  - exact (proj1 (proj2 (TryParseTime_FormatTime 1700000000123456789 H1)) ltac:(discriminate)).
  - exact (proj2 (proj2 (TryParseTime_FormatTime (-1) H2)) eq_refl ltac:(vm_compute; discriminate)).
Defined.
