(* ===== verification/Hash.v ===== *)
(** * SHA-256 and CRC-32

    The hashing of hash.hpp/hash.cpp.  [Sha256] is the incremental hasher with
    its 64-byte block buffer; a [std::uint32_t] is a [Z] below [2^32], and every
    addition that wraps is written with [wrap32].  A digest is the list of its
    32 bytes.  The facts show that the incremental interface computes the
    one-shot function of FIPS 180-4 for every way of splitting the input, and
    that the table-driven CRC-32 is the bitwise one and notices every change of
    a single byte. *)

From Stdlib Require Import ZArith Lia List Bool Ascii String.
From stdpp Require Import base tactics list strings.
From S2P Require Import Prelude Containers Text.
#[local] Open Scope string_scope.
#[local] Open Scope Z_scope.

Definition Digest : Type := list Z.

(** ** SHA-256 *)

Definition kSha256K : list Z :=
  List.concat [
   [0x428a2f98; 0x71374491; 0xb5c0fbcf; 0xe9b5dba5; 0x3956c25b; 0x59f111f1];
   [0x923f82a4; 0xab1c5ed5; 0xd807aa98; 0x12835b01; 0x243185be; 0x550c7dc3];
   [0x72be5d74; 0x80deb1fe; 0x9bdc06a7; 0xc19bf174; 0xe49b69c1; 0xefbe4786];
   [0x0fc19dc6; 0x240ca1cc; 0x2de92c6f; 0x4a7484aa; 0x5cb0a9dc; 0x76f988da];
   [0x983e5152; 0xa831c66d; 0xb00327c8; 0xbf597fc7; 0xc6e00bf3; 0xd5a79147];
   [0x06ca6351; 0x14292967; 0x27b70a85; 0x2e1b2138; 0x4d2c6dfc; 0x53380d13];
   [0x650a7354; 0x766a0abb; 0x81c2c92e; 0x92722c85; 0xa2bfe8a1; 0xa81a664b];
   [0xc24b8b70; 0xc76c51a3; 0xd192e819; 0xd6990624; 0xf40e3585; 0x106aa070];
   [0x19a4c116; 0x1e376c08; 0x2748774c; 0x34b0bcb5; 0x391c0cb3; 0x4ed8aa4a];
   [0x5b9cca4f; 0x682e6ff3; 0x748f82ee; 0x78a5636f; 0x84c87814; 0x8cc70208];
   [0x90befffa; 0xa4506ceb; 0xbef9a3f7; 0xc67178f2]
  ].

(** [RotateRight(value, bits)] on a 32-bit word. *)
Definition RotateRight (value bits : Z) : Z :=
  Z.lor (Z.shiftr value bits) (wrap32 (Z.shiftl value (32 - bits))).

(** [~value] on a 32-bit word. *)
Definition not32 (value : Z) : Z := Z.lxor value UINT32_MAX.

(** The first sixteen words of the schedule, big-endian, newest first. *)
Fixpoint block_words (block : list Z) (w : list Z) : list Z :=
  match block with
  | b0 :: b1 :: b2 :: b3 :: rest =>
      block_words rest
        (Z.lor (Z.lor (Z.lor (Z.shiftl b0 24) (Z.shiftl b1 16)) (Z.shiftl b2 8)) b3 :: w)
  | _ => w
  end.

(** [w[index]] from the previous words; [w] holds them newest first. *)
Definition schedule_word (w : list Z) : Z :=
  let at_ k := nth (k - 1) w 0 in
  let w15 := at_ 15%nat in
  let w2 := at_ 2%nat in
  let s0 := Z.lxor (Z.lxor (RotateRight w15 7) (RotateRight w15 18)) (Z.shiftr w15 3) in
  let s1 := Z.lxor (Z.lxor (RotateRight w2 17) (RotateRight w2 19)) (Z.shiftr w2 10) in
  wrap32 (at_ 16%nat + s0 + at_ 7%nat + s1).

Definition schedule (block : list Z) : list Z :=
  rev (Nat.iter 48 (fun w => schedule_word w :: w) (block_words block [])).

Record Working := mkWorking {
  wa : Z; wb : Z; wc : Z; wd : Z; we : Z; wf : Z; wg : Z; wh : Z }.

(** One round on the working variables. *)
Definition sha_round (v : Working) (kw : Z * Z) : Working :=
  let '(mkWorking a b c d e f g h) := v in
  let s1 := Z.lxor (Z.lxor (RotateRight e 6) (RotateRight e 11)) (RotateRight e 25) in
  let ch := Z.lxor (Z.land e f) (Z.land (not32 e) g) in
  let temp1 := wrap32 (h + s1 + ch + kw.1 + kw.2) in
  let s0 := Z.lxor (Z.lxor (RotateRight a 2) (RotateRight a 13)) (RotateRight a 22) in
  let maj := Z.lxor (Z.lxor (Z.land a b) (Z.land a c)) (Z.land b c) in
  let temp2 := wrap32 (s0 + maj) in
  mkWorking (wrap32 (temp1 + temp2)) a b c (wrap32 (d + temp1)) e f g.

(** [Compress(block)]. *)
Definition Compress (state : Working) (block : list Z) : Working :=
  let '(mkWorking a b c d e f g h) := state in
  let '(mkWorking a' b' c' d' e' f' g' h') :=
    foldl sha_round state (combine kSha256K (schedule block)) in
  mkWorking (wrap32 (a + a')) (wrap32 (b + b')) (wrap32 (c + c')) (wrap32 (d + d'))
            (wrap32 (e + e')) (wrap32 (f + f')) (wrap32 (g + g')) (wrap32 (h + h')).

(** The hasher: [buffer_] holds the first [buffered_] bytes of the block buffer. *)
Record Sha256 := mkSha256 {
  state_ : Working;
  buffer_ : list Z;
  total_bytes_ : Z;
  finalized_ : bool
}.

#[export] Instance eta_Sha256 : Eta Sha256 := fun s =>
  mkSha256 (state_ s) (buffer_ s) (total_bytes_ s) (finalized_ s).

Definition initial_state : Working :=
  mkWorking 0x6a09e667 0xbb67ae85 0x3c6ef372 0xa54ff53a 0x510e527f 0x9b05688c 0x1f83d9ab 0x5be0cd19.

Definition Sha256_init : Sha256 := mkSha256 initial_state [] 0 false.

Definition buffered_ (s : Sha256) : Z := vsize (buffer_ s).

(** [while (remaining >= 64) Compress(cursor)]: the state and what is left. *)
Fixpoint compress_blocks (fuel : nat) (st : Working) (data : list Z) : Working * list Z :=
  match fuel with
  | O => (st, data)
  | S fuel' =>
      if 64 <=? vsize data
      then compress_blocks fuel' (Compress st (firstn 64 data)) (skipn 64 data)
      else (st, data)
  end.

(** [Update(data, bytes)]. *)
Definition Update (s : Sha256) (data : list Z) : Sha256 :=
  if finalized_ s || (vsize data =? 0) then s
  else
    let total := wrap64 (total_bytes_ s + vsize data) in
    let take := if 0 <? buffered_ s then Z.min (vsize data) (64 - buffered_ s) else 0 in
    let buffer := (buffer_ s ++ firstn (Z.to_nat take) data)%list in
    let remaining := skipn (Z.to_nat take) data in
    let '(st, buffer) :=
      if (0 <? buffered_ s) && (vsize buffer =? 64) then (Compress (state_ s) buffer, [])
      else (state_ s, buffer) in
    let '(st, remaining) := compress_blocks (length remaining) st remaining in
    mkSha256 st (if 0 <? vsize remaining then remaining else buffer) total false.

Definition UpdateText (s : Sha256) (text : string) : Sha256 := Update s (string_bytes text).
Definition UpdateByte (s : Sha256) (value : Z) : Sha256 := Update s [value].

(** Eight bytes, most significant first. *)
Definition be64 (value : Z) : list Z :=
  map (fun index => Z.land (Z.shiftr value ((7 - index) * 8)) 0xFF) [0; 1; 2; 3; 4; 5; 6; 7].

Definition UpdateU64 (s : Sha256) (value : Z) : Sha256 := Update s (be64 value).

Definition UpdateLengthPrefixed (s : Sha256) (text : string) : Sha256 :=
  UpdateText (UpdateU64 s (ssize text)) text.

Definition UpdateTag (s : Sha256) (tag : string) : Sha256 := UpdateLengthPrefixed s tag.

(** [while (buffered_ != 56) Update(&zero, 1)]. *)
Fixpoint pad_zeros (fuel : nat) (s : Sha256) : Sha256 :=
  match fuel with
  | O => s
  | S fuel' => if buffered_ s =? 56 then s else pad_zeros fuel' (Update s [0])
  end.

Definition word_bytes (x : Z) : list Z :=
  [Z.land (Z.shiftr x 24) 0xFF; Z.land (Z.shiftr x 16) 0xFF; Z.land (Z.shiftr x 8) 0xFF;
   Z.land x 0xFF].

Definition state_bytes (v : Working) : Digest :=
  let '(mkWorking a b c d e f g h) := v in
  (word_bytes a ++ word_bytes b ++ word_bytes c ++ word_bytes d ++
   word_bytes e ++ word_bytes f ++ word_bytes g ++ word_bytes h)%list.

Definition zero_digest : Digest := repeat 0 32.

(** [Final()]; 64 zero bytes are enough to reach offset 56. *)
Definition Final (s : Sha256) : Digest :=
  if finalized_ s then zero_digest
  else
    let total_bits := wrap64 (total_bytes_ s * 8) in
    let s := Update s [0x80] in
    let s := pad_zeros 64 s in
    let s := Update s (be64 total_bits) in
    state_bytes (state_ s).

Definition HashBytes (data : list Z) : Digest := Final (Update Sha256_init data).
Definition HashText (text : string) : Digest := HashBytes (string_bytes text).

(** ** CRC-32 *)

(** One bit of the table's construction. *)
Definition crc_bit (value : Z) : Z :=
  if Z.odd value then Z.lxor 0xEDB88320 (Z.shiftr value 1) else Z.shiftr value 1.

Definition crc_entry (index : Z) : Z := Nat.iter 8 crc_bit index.

Definition kCrc32Table : list Z := map (fun i => crc_entry (Z.of_nat i)) (seq 0 256).

Definition crc_update (table : list Z) (crc b : Z) : Z :=
  Z.lxor (nth (Z.to_nat (Z.land (Z.lxor crc b) 0xFF)) table 0) (Z.shiftr crc 8).

Definition Crc32 (data : list Z) : Z :=
  Z.lxor (foldl (crc_update kCrc32Table) UINT32_MAX data) UINT32_MAX.

(** ** Reference definitions *)

(** FIPS 180-4: the padded message. *)
Definition sha_padded (msg : list Z) : list Z :=
  let zeros := Z.to_nat ((55 - vsize msg) mod 64) in
  (msg ++ 0x80 :: repeat 0 zeros ++ be64 (wrap64 (wrap64 (vsize msg) * 8)))%list.

(** FIPS 180-4: compress the padded message block by block. *)
Definition sha256_spec (msg : list Z) : Digest :=
  let m := sha_padded msg in
  state_bytes (compress_blocks (length m) initial_state m).1.

(** CRC-32 one bit at a time. *)
Definition crc32_bitwise (data : list Z) : Z :=
  Z.lxor (foldl (fun crc b => Nat.iter 8 crc_bit (Z.lxor crc b)) UINT32_MAX data) UINT32_MAX.

(** ** Facts: incremental hashing *)

(** Enough fuel: the number of bytes is always enough. *)
Lemma compress_blocks_fuel f1 f2 st m :
  (length m <= f1)%nat -> (length m <= f2)%nat ->
  compress_blocks f1 st m = compress_blocks f2 st m.
Proof.
  revert f2 st m. induction f1 as [|f1 IH]; intros [|f2] st m H1 H2; cbn [compress_blocks]; [done|..].
  - destruct m; [done | cbn in H1; lia].
  - destruct m; [done | cbn in H2; lia].
  - destruct (64 <=? vsize m) eqn:E; [|done]. breflect. unfold vsize in E.
    apply IH; rewrite length_skipn; lia.
Qed.

(** What is left after the complete blocks is less than a block. *)
Lemma compress_blocks_rest f st m :
  (length m <= f)%nat -> (length (compress_blocks f st m).2 < 64)%nat /\
  (length (compress_blocks f st m).2 <= length m)%nat.
Proof.
  revert st m. induction f as [|f IH]; intros st m H1; cbn [compress_blocks].
  - destruct m; cbn in *; lia.
  - destruct (64 <=? vsize m) eqn:E; breflect; unfold vsize in E; [|cbn; lia].
    destruct (IH (Compress st (firstn 64 m)) (skipn 64 m)) as [I1 I2]; rewrite ?length_skipn in *; lia.
Qed.

(** Compressing what is complete, then more input, is compressing everything. *)
Lemma compress_blocks_app st m d :
  compress_blocks (length (m ++ d)) st (m ++ d) =
  let r := compress_blocks (length m) st m in
  compress_blocks (length (r.2 ++ d)) r.1 (r.2 ++ d).
Proof.
  cbv zeta. remember (length m) as n eqn:Hn. revert st m Hn.
  induction n as [n IH] using (well_founded_induction lt_wf); intros st m ->.
  destruct (Nat.ltb_spec (length m) 64) as [Hlt|Hge].
  - destruct m as [|b m]; [done|]. cbn [length compress_blocks].
    assert (64 <=? vsize (b :: m) = false) as ->
      by (apply Z.leb_gt; unfold vsize; cbn in *; lia). done.
  - rewrite (compress_blocks_fuel _ (S (length (m ++ d)))) by lia.
    rewrite (compress_blocks_fuel (length m) (S (length m))) by lia. cbn [compress_blocks].
    assert (64 <=? vsize m = true) as -> by (apply Z.leb_le; unfold vsize; lia).
    assert (64 <=? vsize (m ++ d) = true) as ->
      by (apply Z.leb_le; unfold vsize; rewrite length_app; lia).
    rewrite (firstn_app 64 m d), (skipn_app 64 m d).
    replace (64 - length m)%nat with 0%nat by lia. cbn [firstn skipn]. rewrite app_nil_r.
    rewrite (compress_blocks_fuel _ (length (skipn 64 m ++ d)))
      by (rewrite !length_app, ?length_skipn; lia).
    rewrite (IH (length (skipn 64 m))) by (rewrite ?length_skipn; lia).
    rewrite (compress_blocks_fuel (length m) (length (skipn 64 m))) by (rewrite ?length_skipn; lia).
    done.
Qed.

(** The hasher after the bytes [msg], however they were supplied. *)
Definition absorbed (msg : list Z) : Sha256 :=
  let r := compress_blocks (length msg) initial_state msg in
  mkSha256 r.1 r.2 (wrap64 (vsize msg)) false.

Lemma vsize_app {A} (l m : list A) : vsize (l ++ m) = vsize l + vsize m.
Proof. unfold vsize. rewrite length_app. lia. Qed.

Lemma vsize_nil_inv {A} (l : list A) : vsize l = 0 -> l = [].
Proof. unfold vsize. destruct l; cbn; [done | lia]. Qed.

Lemma wrap64_add_l a b : wrap64 (wrap64 a + b) = wrap64 (a + b).
Proof. unfold wrap64. by rewrite Z.add_mod_idemp_l. Qed.

(** One update from a partial buffer compresses the buffer and the data as one run. *)
Lemma compress_blocks_small st b :
  (length b < 64)%nat -> compress_blocks (length b) st b = (st, b).
Proof.
  destruct b as [|x b]; [done|]. cbn [length compress_blocks]. intros.
  assert (64 <=? vsize (x :: b) = false) as ->
    by (apply Z.leb_gt; unfold vsize; cbn in *; lia). done.
Qed.

Lemma compress_blocks_block st b m : length b = 64%nat ->
  compress_blocks (length (b ++ m)) st (b ++ m) = compress_blocks (length m) (Compress st b) m.
Proof.
  intros Hb. destruct b as [|x b]; [done|]. rewrite <- app_comm_cons. cbn [length compress_blocks].
  rewrite app_comm_cons.
  assert (64 <=? vsize ((x :: b) ++ m) = true) as ->
    by (apply Z.leb_le; rewrite vsize_app; unfold vsize; lia).
  rewrite firstn_app, skipn_app, Hb, firstn_all2, skipn_all2 by lia. cbn [firstn skipn Nat.sub].
  rewrite app_nil_r. apply compress_blocks_fuel; rewrite ?length_app; cbn in *; lia.
Qed.

(** An update appends its bytes to the message. *)
Lemma Update_absorbed msg data : Update (absorbed msg) data = absorbed (msg ++ data).
Proof.
  unfold Update. cbn [finalized_ absorbed].
  destruct (vsize data =? 0) eqn:E0; breflect; [apply vsize_nil_inv in E0 as ->; by rewrite app_nil_r|].
  cbn [orb]. unfold absorbed, buffered_. cbn [state_ buffer_ total_bytes_].
  rewrite compress_blocks_app. cbv zeta.
  destruct (compress_blocks_rest (length msg) initial_state msg) as [Hr _]; [done|].
  destruct (compress_blocks (length msg) initial_state msg) as [st b]. cbn [fst snd] in *.
  rewrite wrap64_add_l, <- vsize_app. generalize (wrap64 (vsize (msg ++ data))) as total. intros total.
  clear msg.
  destruct b as [|x b]; [|remember (x :: b) as y eqn:Hy].
  - change (0 <? vsize (@nil Z)) with false. cbn [andb app].
    change (Z.to_nat 0) with 0%nat. rewrite drop_0. cbn [firstn].
    destruct (compress_blocks (length data) st data) as [st' [|r rs]]; done.
  - assert (Hpos : 0 <? vsize y = true) by (apply Z.ltb_lt; subst; unfold vsize; cbn [length]; lia).
    rewrite Hpos. cbn [andb]. clear Hpos Hy x b.
    destruct (Z.ltb_spec (vsize data) (64 - vsize y)).
    + rewrite Z.min_l by lia.
      replace (Z.to_nat (vsize data)) with (length data) by (unfold vsize; lia).
      rewrite firstn_all, skipn_all.
      assert (vsize (y ++ data) =? 64 = false) as -> by (apply Z.eqb_neq; rewrite vsize_app; lia).
      cbn [length compress_blocks]. rewrite compress_blocks_small; [done|].
      rewrite length_app. unfold vsize in *. lia.
    + rewrite Z.min_r by lia. set (k := Z.to_nat (64 - vsize y)).
      assert (Hk : length (y ++ firstn k data) = 64%nat).
      { rewrite length_app, length_firstn. unfold k, vsize in *. lia. }
      assert (vsize (y ++ firstn k data) =? 64 = true) as ->
        by (apply Z.eqb_eq; unfold vsize; lia).
      rewrite <- (compress_blocks_block st _ _ Hk), <- app_assoc, firstn_skipn.
      destruct (compress_blocks (length (y ++ data)) st (y ++ data)) as [st' [|r rs]]; done.
Qed.

Lemma Sha256_init_absorbed : Sha256_init = absorbed [].
Proof. done. Qed.

Lemma buffered_absorbed msg : buffered_ (absorbed msg) = vsize msg mod 64.
Proof.
  unfold buffered_, absorbed. cbn [buffer_].
  remember (length msg) as n eqn:Hn. generalize initial_state. revert msg Hn.
  induction n as [n IH] using (well_founded_induction lt_wf); intros msg -> st.
  destruct (Nat.ltb_spec (length msg) 64) as [Hlt|Hge].
  - rewrite compress_blocks_small by done. cbn [snd]. unfold vsize. rewrite Z.mod_small; lia.
  - rewrite <- (firstn_skipn 64 msg) at 1 2.
    rewrite compress_blocks_block by (rewrite length_firstn; lia).
    rewrite (IH (length (skipn 64 msg))) by (rewrite ?length_skipn; lia).
    unfold vsize. rewrite length_skipn.
    replace (Z.of_nat (length msg)) with (Z.of_nat (length msg - 64) + 1 * 64) by lia.
    by rewrite Z.mod_add by lia.
Qed.

(** The zero padding stops at offset 56, after as many bytes as the standard says. *)
Lemma pad_zeros_absorbed fuel msg :
  (Z.to_nat ((56 - vsize msg) mod 64) <= fuel)%nat ->
  pad_zeros fuel (absorbed msg) =
  absorbed (msg ++ repeat 0 (Z.to_nat ((56 - vsize msg) mod 64))).
Proof.
  revert msg. induction fuel as [|fuel IH]; intros msg Hf; cbn [pad_zeros].
  - replace (Z.to_nat ((56 - vsize msg) mod 64)) with 0%nat by lia. by rewrite app_nil_r.
  - rewrite buffered_absorbed.
    pose proof (Z.mod_pos_bound (56 - vsize msg) 64 ltac:(lia)) as Hb.
    destruct (Z.eqb_spec (vsize msg mod 64) 56) as [E|E].
    + replace ((56 - vsize msg) mod 64) with 0 by (Z.to_euclidean_division_equations; lia).
      by rewrite app_nil_r.
    + assert (Hn : (56 - vsize msg) mod 64 = (56 - vsize (msg ++ [0%Z])) mod 64 + 1).
      { rewrite vsize_app. change (vsize [0]) with 1. Z.to_euclidean_division_equations; lia. }
      rewrite Update_absorbed, IH by lia. rewrite Hn, Z2Nat.inj_add by
        (try apply Z.mod_pos_bound; lia). rewrite Nat.add_comm, <- app_assoc. done.
Qed.

(** Finalizing is the one-shot function of the bytes absorbed. *)
Lemma Final_absorbed msg : Final (absorbed msg) = sha256_spec msg.
Proof.
  unfold Final. cbn [finalized_ total_bytes_]. 
  change (finalized_ (absorbed msg)) with false. cbn [total_bytes_ absorbed].
  rewrite Update_absorbed, pad_zeros_absorbed, Update_absorbed.
  2: { pose proof (Z.mod_pos_bound (56 - vsize (msg ++ [0x80])) 64). lia. }
  unfold sha256_spec, sha_padded, absorbed. cbn [state_].
  rewrite vsize_app. change (vsize [0x80]) with 1.
  replace (56 - (vsize msg + 1)) with (55 - vsize msg) by lia. rewrite <- !app_assoc. done.
Qed.

Definition is_digest (d : Digest) : Prop := length d = 32%nat /\ Forall is_byte d.

Lemma land_255_byte x : is_byte (Z.land x 255).
Proof. change 255 with (Z.ones 8). rewrite Z.land_ones by lia. apply Z.mod_pos_bound. lia. Qed.

Lemma state_bytes_digest v : is_digest (state_bytes v).
Proof.
  destruct v. split; [done|]. unfold state_bytes, word_bytes. cbn [app].
  repeat (constructor; [apply land_255_byte|]). constructor.
Qed.

Lemma sha256_spec_digest msg : is_digest (sha256_spec msg).
Proof. apply state_bytes_digest. Qed.

Lemma HashBytes_digest msg : is_digest (HashBytes msg).
Proof.
  unfold HashBytes. rewrite Sha256_init_absorbed, Update_absorbed, Final_absorbed.
  apply sha256_spec_digest.
Qed.

(** The incremental interface on the bytes absorbed so far. *)
Lemma UpdateText_absorbed msg t : UpdateText (absorbed msg) t = absorbed (msg ++ string_bytes t).
Proof. apply Update_absorbed. Qed.
Lemma UpdateByte_absorbed msg b : UpdateByte (absorbed msg) b = absorbed (msg ++ [b]).
Proof. apply Update_absorbed. Qed.
Lemma UpdateU64_absorbed msg v : UpdateU64 (absorbed msg) v = absorbed (msg ++ be64 v).
Proof. apply Update_absorbed. Qed.

Definition length_prefixed (t : string) : list Z := be64 (ssize t) ++ string_bytes t.

Lemma UpdateLengthPrefixed_absorbed msg t :
  UpdateLengthPrefixed (absorbed msg) t = absorbed (msg ++ length_prefixed t).
Proof.
  unfold UpdateLengthPrefixed. rewrite UpdateU64_absorbed, UpdateText_absorbed.
  by rewrite <- app_assoc.
Qed.
Lemma UpdateTag_absorbed msg t : UpdateTag (absorbed msg) t = absorbed (msg ++ length_prefixed t).
Proof. apply UpdateLengthPrefixed_absorbed. Qed.

#[global] Arguments be64 : simpl never.
#[global] Arguments length_prefixed : simpl never.
#[global] Arguments string_bytes : simpl never.

(** Rewrites a pipeline of updates into the bytes it absorbs. *)
Create HintDb sha.
#[export] Hint Rewrite Sha256_init_absorbed Update_absorbed UpdateText_absorbed UpdateByte_absorbed
  UpdateU64_absorbed UpdateLengthPrefixed_absorbed UpdateTag_absorbed Final_absorbed : sha.

(** ** Facts: the encodings of the pre-images are injective *)

Lemma byte_of_shift v i : is_u64 v -> 0 <= i ->
  Z.land (Z.shiftr v (i * 8)) 0xFF = (v / 2 ^ (i * 8)) mod 256.
Proof.
  intros. change 0xFF with (Z.ones 8). by rewrite Z.land_ones, Z.shiftr_div_pow2 by lia.
Qed.

Lemma be64_inj v w : is_u64 v -> is_u64 w -> be64 v = be64 w -> v = w.
Proof.
  intros Hv Hw E. apply Z.bits_inj'. intros n Hn.
  destruct (Z.ltb_spec n 64) as [Hlt|Hge].
  - assert (Hk : forall k, 0 <= k < 8 ->
      Z.land (Z.shiftr v (k * 8)) 255 = Z.land (Z.shiftr w (k * 8)) 255).
    { unfold be64 in E. cbn [map] in E. injection E as E0 E1 E2 E3 E4 E5 E6 E7.
      intros k Hk8. assert (Hk : k ∈ [0; 1; 2; 3; 4; 5; 6; 7]) by (rewrite !elem_of_cons; lia).
      clear Hk8. revert k Hk. apply Forall_forall. by repeat constructor. }
    specialize (Hk (n / 8) ltac:(Z.to_euclidean_division_equations; lia)).
    apply (f_equal (fun z => Z.testbit z (n mod 8))) in Hk.
    pose proof (Z.mod_pos_bound n 8). change 255 with (Z.ones 8) in Hk.
    rewrite !Z.land_spec, !Z.shiftr_spec, Z.ones_spec_low, !andb_true_r in Hk by lia.
    replace (n mod 8 + n / 8 * 8) with n in Hk by (pose proof (Z.div_mod n 8); lia). done.
  - assert (forall x, is_u64 x -> Z.testbit x n = false) as Hb.
    { intros x [H0 H1]. destruct (Z.eq_dec x 0) as [->|]; [apply Z.bits_0|].
      apply Z.bits_above_log2; [lia|].
      assert (Z.log2 x < 64); [|lia]. apply Z.log2_lt_pow2; [lia|].
      change (2 ^ 64) with 18446744073709551616. unfold UINT64_MAX in H1. lia. }
    by rewrite !Hb.
Qed.

Lemma be64_length v : length (be64 v) = 8%nat.
Proof. done. Qed.

Lemma be64_app_inj v w r s : is_u64 v -> is_u64 w ->
  (be64 v ++ r = be64 w ++ s)%list -> v = w /\ r = s.
Proof.
  intros Hv Hw E. apply app_inj_1 in E as [E ->]; [|done]. by apply be64_inj in E.
Qed.

(** A length-prefixed text is self-delimiting. *)
Lemma length_prefixed_app_inj t u r s :
  is_u64 (ssize t) -> is_u64 (ssize u) ->
  (length_prefixed t ++ r = length_prefixed u ++ s)%list -> t = u /\ r = s.
Proof.
  intros Ht Hu. unfold length_prefixed. rewrite <- !app_assoc. intros E.
  apply be64_app_inj in E as [E1 E2]; [|done..].
  apply app_inj_1 in E2 as [E2 ->].
  - by apply string_bytes_inj in E2.
  - rewrite !string_bytes_length. unfold ssize in E1. lia.
Qed.

(** ** Facts: CRC-32 *)

Definition is_u32 (z : Z) : Prop := 0 <= z < 2 ^ 32.

Lemma u32_bits z : is_u32 z <-> 0 <= z /\ forall n, 32 <= n -> Z.testbit z n = false.
Proof.
  split.
  - intros [H0 H1]. split; [done|]. intros n Hn. destruct (Z.eq_dec z 0) as [->|]; [apply Z.bits_0|].
    apply Z.bits_above_log2; [lia|]. assert (Z.log2 z < 32); [|lia]. by apply Z.log2_lt_pow2; [lia|].
  - intros [H0 Hb]. split; [done|]. destruct (Z.eq_dec z 0) as [->|]; [lia|].
    apply Z.log2_lt_pow2; [lia|]. destruct (Z.ltb_spec (Z.log2 z) 32); [done|].
    specialize (Hb _ H). rewrite Z.bit_log2 in Hb by lia. done.
Qed.

Lemma lxor_u32 a b : is_u32 a -> is_u32 b -> is_u32 (Z.lxor a b).
Proof.
  rewrite !u32_bits. intros [Ha Hba] [Hb Hbb]. split; [by apply Z.lxor_nonneg|].
  intros n Hn. rewrite Z.lxor_spec, Hba, Hbb by done. done.
Qed.

Lemma shiftr_u32 a n : 0 <= n -> is_u32 a -> is_u32 (Z.shiftr a n).
Proof.
  intros Hn. rewrite !u32_bits. intros [Ha Hb]. split; [by apply Z.shiftr_nonneg|].
  intros m Hm. rewrite Z.shiftr_spec by lia. apply Hb. lia.
Qed.

Lemma poly_u32 : is_u32 0xEDB88320.
Proof. split; [done | reflexivity]. Qed.

Lemma crc_bit_u32 a : is_u32 a -> is_u32 (crc_bit a).
Proof.
  intros Ha. unfold crc_bit. pose proof (shiftr_u32 a 1 ltac:(lia) Ha).
  destruct (Z.odd a); [apply lxor_u32|]; auto using poly_u32.
Qed.

Lemma crc_bits_u32 k a : is_u32 a -> is_u32 (Nat.iter k crc_bit a).
Proof. intros Ha. induction k; cbn; auto using crc_bit_u32. Qed.

(** The construction of the table is linear. *)
Lemma crc_bit_lxor a b : crc_bit (Z.lxor a b) = Z.lxor (crc_bit a) (crc_bit b).
Proof.
  unfold crc_bit. rewrite <- !Z.bit0_odd, Z.lxor_spec, Z.shiftr_lxor.
  destruct (Z.testbit a 0), (Z.testbit b 0); cbn [xorb];
    apply Z.bits_inj'; intros n Hn; rewrite !Z.lxor_spec;
    destruct (Z.testbit 3988292384 n), (Z.testbit (Z.shiftr a 1) n), (Z.testbit (Z.shiftr b 1) n);
    reflexivity.
Qed.

Lemma crc_bits_lxor k a b :
  Nat.iter k crc_bit (Z.lxor a b) = Z.lxor (Nat.iter k crc_bit a) (Nat.iter k crc_bit b).
Proof. induction k; [done|]. by rewrite !Nat.iter_succ, IHk, crc_bit_lxor. Qed.

Lemma crc_bits_shift k a : Nat.iter k crc_bit (Z.shiftl a (Z.of_nat k)) = a.
Proof.
  induction k as [|k IH]; [cbn; apply Z.shiftl_0_r|].
  rewrite Nat.iter_succ_r. unfold crc_bit at 2.
  assert (Z.odd (Z.shiftl a (Z.of_nat (S k))) = false) as ->
    by (rewrite <- Z.bit0_odd; apply Z.shiftl_spec_low; lia).
  rewrite Z.shiftr_shiftl_l by lia. replace (Z.of_nat (S k) - 1) with (Z.of_nat k) by lia. done.
Qed.

Lemma low_high_byte x : 0 <= x -> x = Z.lxor (Z.land x 255) (Z.shiftl (Z.shiftr x 8) 8).
Proof.
  intros _. change 255 with (Z.ones 8). apply Z.bits_inj'. intros n Hn. rewrite Z.lxor_spec, Z.land_spec.
  destruct (Z.ltb_spec n 8).
  - rewrite Z.ones_spec_low, Z.shiftl_spec_low by lia. by rewrite andb_true_r, xorb_false_r.
  - rewrite Z.ones_spec_high, Z.shiftl_spec_high, Z.shiftr_spec by lia.
    rewrite andb_false_r, xorb_false_l. f_equal; lia.
Qed.

Lemma kCrc32Table_nth i : 0 <= i < 256 -> nth (Z.to_nat i) kCrc32Table 0 = crc_entry i.
Proof.
  intros Hi. unfold kCrc32Table. rewrite (nth_indep _ 0 (crc_entry (Z.of_nat 0))).
  2: { rewrite length_map, length_seq. lia. }
  rewrite (map_nth (fun i => crc_entry (Z.of_nat i))), seq_nth by lia.
  f_equal. lia.
Qed.

(** One table lookup is eight bit steps. *)
Lemma crc_update_bits crc b : is_u32 crc -> is_byte b ->
  crc_update kCrc32Table crc b = Nat.iter 8 crc_bit (Z.lxor crc b).
Proof.
  intros Hc Hb. unfold crc_update. pose proof (land_255_byte (Z.lxor crc b)) as Hl.
  rewrite kCrc32Table_nth by done. unfold crc_entry.
  assert (Hx : 0 <= Z.lxor crc b) by (apply Z.lxor_nonneg; destruct Hc, Hb; lia).
  pose proof (low_high_byte (Z.lxor crc b) Hx) as E.
  transitivity (Nat.iter 8 crc_bit (Z.lxor (Z.land (Z.lxor crc b) 255) (Z.shiftl (Z.shiftr (Z.lxor crc b) 8) 8)));
    [|by rewrite <- E].
  rewrite crc_bits_lxor. f_equal. rewrite (crc_bits_shift 8). rewrite Z.shiftr_lxor.
  assert (Z.shiftr b 8 = 0) as ->; [|by rewrite Z.lxor_0_r].
  rewrite Z.shiftr_div_pow2 by lia. apply Z.div_small. exact Hb.
Qed.

Lemma byte_u32 b : is_byte b -> is_u32 b.
Proof. unfold is_byte, is_u32. lia. Qed.

Lemma crc_update_u32 crc b : is_u32 crc -> is_byte b -> is_u32 (crc_update kCrc32Table crc b).
Proof.
  intros. rewrite crc_update_bits by done. apply crc_bits_u32, lxor_u32; auto using byte_u32.
Qed.

Lemma crc_fold_u32 data crc : is_u32 crc -> Forall is_byte data ->
  is_u32 (foldl (crc_update kCrc32Table) crc data).
Proof.
  intros Hc Hd. revert crc Hc. induction Hd as [|b data Hb _ IH]; intros crc Hc; cbn; [done|].
  apply IH, crc_update_u32; done.
Qed.

(** The polynomial's top bit makes one bit step reversible. *)
Lemma crc_bit_inj a b : is_u32 a -> is_u32 b -> crc_bit a = crc_bit b -> a = b.
Proof.
  intros Ha Hb E.
  assert (Htop : forall x, is_u32 x -> Z.testbit (crc_bit x) 31 = Z.odd x).
  { intros x Hx. apply u32_bits in Hx as [_ Hx]. unfold crc_bit.
    destruct (Z.odd x); [rewrite Z.lxor_spec|]; rewrite Z.shiftr_spec, Hx by lia; done. }
  assert (Ho : Z.odd a = Z.odd b) by (rewrite <- !Htop by done; by rewrite E).
  assert (Hs : Z.shiftr a 1 = Z.shiftr b 1).
  { unfold crc_bit in E. rewrite Ho in E. destruct (Z.odd b); [|done].
    apply (f_equal (Z.lxor 0xEDB88320)) in E. by rewrite <- !Z.lxor_assoc, !Z.lxor_nilpotent in E. }
  rewrite <- !Z.div2_spec in Hs. rewrite (Z.div2_odd a), (Z.div2_odd b). by rewrite Hs, Ho.
Qed.

Lemma crc_bits_inj k a b : is_u32 a -> is_u32 b ->
  Nat.iter k crc_bit a = Nat.iter k crc_bit b -> a = b.
Proof.
  intros Ha Hb. induction k as [|k IH]; [done|]. rewrite !Nat.iter_succ. intros E.
  apply crc_bit_inj in E; auto using crc_bits_u32.
Qed.

Lemma lxor_inj_l c a b : Z.lxor c a = Z.lxor c b -> a = b.
Proof.
  intros E. apply (f_equal (Z.lxor c)) in E.
  by rewrite <- !Z.lxor_assoc, !Z.lxor_nilpotent, !Z.lxor_0_l in E.
Qed.

Lemma crc_update_inj_byte c a b : is_u32 c -> is_byte a -> is_byte b ->
  crc_update kCrc32Table c a = crc_update kCrc32Table c b -> a = b.
Proof.
  intros Hc Ha Hb. rewrite !crc_update_bits by done. intros E.
  apply crc_bits_inj in E; auto using lxor_u32, byte_u32. by apply lxor_inj_l in E.
Qed.

Lemma crc_update_inj_crc c d b : is_u32 c -> is_u32 d -> is_byte b ->
  crc_update kCrc32Table c b = crc_update kCrc32Table d b -> c = d.
Proof.
  intros Hc Hd Hb. rewrite !crc_update_bits by done. intros E.
  apply crc_bits_inj in E; auto using lxor_u32, byte_u32.
  rewrite (Z.lxor_comm c), (Z.lxor_comm d) in E. by apply lxor_inj_l in E.
Qed.

Lemma crc_fold_inj data c d : is_u32 c -> is_u32 d -> Forall is_byte data ->
  foldl (crc_update kCrc32Table) c data = foldl (crc_update kCrc32Table) d data -> c = d.
Proof.
  intros Hc Hd Hf. revert c d Hc Hd. induction Hf as [|b data Hb _ IH]; intros c d Hc Hd; cbn; [done|].
  intros E. apply IH in E; auto using crc_update_u32. by apply crc_update_inj_crc in E.
Qed.

Lemma UINT32_MAX_u32 : is_u32 UINT32_MAX.
Proof. split; [done | reflexivity]. Qed.

Lemma Crc32_u32 data : Forall is_byte data -> is_u32 (Crc32 data).
Proof. intros. apply lxor_u32; [apply crc_fold_u32|]; auto using UINT32_MAX_u32. Qed.

(** One changed byte changes the checksum. *)
Lemma Crc32_byte_change pre post a b : Forall is_byte pre -> Forall is_byte post ->
  is_byte a -> is_byte b -> a <> b -> Crc32 (pre ++ a :: post) <> Crc32 (pre ++ b :: post).
Proof.
  intros Hpre Hpost Ha Hb Hne E. apply Hne. unfold Crc32 in E.
  rewrite !(Z.lxor_comm _ UINT32_MAX) in E. apply lxor_inj_l in E.
  rewrite !foldl_app in E. cbn [foldl] in E.
  pose proof (crc_fold_u32 pre UINT32_MAX UINT32_MAX_u32 Hpre).
  apply crc_fold_inj in E; auto using crc_update_u32. by apply crc_update_inj_byte in E.
Qed.

(** ** Properties *)

(** Splitting the input does not matter: feeding the hasher any sequence of
    chunks and finalizing gives FIPS 180-4's SHA-256 of their concatenation, so
    a digest computed field by field is the digest of the fields' pre-image. *)
Theorem Sha256_streaming (chunks : list (list Z)) :
  Final (foldl Update Sha256_init chunks) = sha256_spec (concat chunks) /\
  HashBytes (concat chunks) = sha256_spec (concat chunks) /\
  is_digest (sha256_spec (concat chunks)).
Proof.
  split; [|split; [|apply sha256_spec_digest]].
  - assert (H : forall msg, foldl Update (absorbed msg) chunks = absorbed (msg ++ concat chunks)).
    { induction chunks as [|c cs IH]; intros msg; cbn; [by rewrite app_nil_r|].
      by rewrite Update_absorbed, IH, app_assoc. }
    by rewrite Sha256_init_absorbed, H, Final_absorbed.
  - unfold HashBytes. by rewrite Sha256_init_absorbed, Update_absorbed, Final_absorbed.
Qed.

(** The table-driven checksum of the wire frames is the bit-serial CRC-32
    with the reflected IEEE polynomial, and it distinguishes any two payloads
    that differ in exactly one byte. *)
Theorem Crc32_detects_byte_change (pre post : list Z) (a b : Z)
  (Hpre : Forall is_byte pre) (Hpost : Forall is_byte post) (Ha : is_byte a) (Hb : is_byte b) :
  Crc32 (pre ++ a :: post) = crc32_bitwise (pre ++ a :: post) /\
  (a <> b -> Crc32 (pre ++ a :: post) <> Crc32 (pre ++ b :: post)).
Proof.
  split.
  - unfold Crc32, crc32_bitwise. f_equal.
    assert (Hall : Forall is_byte (pre ++ a :: post))
      by (apply Forall_app; split; [done | by constructor]).
    pose proof UINT32_MAX_u32 as Hc. revert Hc. generalize UINT32_MAX as c.
    induction Hall as [|x l Hx _ IH]; intros c Hc; cbn [foldl]; [done|].
    rewrite crc_update_bits by done. apply IH. rewrite <- crc_update_bits by done.
    by apply crc_update_u32.
  - by apply Crc32_byte_change.
Qed.

Lemma Crc32_detects_byte_change_witness :
  Crc32 (string_bytes "12345" ++ 54 :: string_bytes "789") = 0xCBF43926 /\
  Crc32 (string_bytes "12345" ++ 54 :: string_bytes "789") <>
  Crc32 (string_bytes "12345" ++ 55 :: string_bytes "789").
Proof.
  split; [vm_compute; reflexivity|].
  refine (proj2 (Crc32_detects_byte_change (string_bytes "12345") (string_bytes "789") 54 55
    (string_bytes_range _) (string_bytes_range _) _ _) _); unfold is_byte; lia.
Defined.

(** The FIPS 180-4 example vectors. *)
Example sha256_vectors :
  ToHex (HashText "") = "e3b0c44298fc1c149afbf4c8996fb92427ae41e4649b934ca495991b7852b855" /\
  ToHex (HashText "abc") = "ba7816bf8f01cfea414140de5dae2223b00361a396177a9cb410ff61f20015ad" /\
  ToHex (HashText "abcdbcdecdefdefgefghfghighijhijkijkljklmklmnlmnomnopnopq") =
    "248d6a61d20638b8e5c026930c3e6039a33ce45964ff2167f6ecedd419db06c1".
Proof. vm_compute. done. Qed.

(** The hasher is reasoned about through the equations above, and only computed
    on concrete inputs. *)
#[global] Opaque Update absorbed sha256_spec be64 length_prefixed string_bytes.
