(* ===== verification/Identity.v ===== *)
(** * Identities, digests and field paths

    identity.hpp/identity.cpp: the accepted spelling of a textual identity, the
    hexadecimal form of a digest, and [FieldPath] with its parser and printer.
    The tagged identities ([TargetId], [ObjectId], ...) are strings and the
    tagged counters ([IntentGeneration], [FabricEpoch], ...) are [Z] with 0 for
    "unset".  A [PathSegment] is the tagged union its two factories build. *)

From Stdlib Require Import ZArith Lia List Bool Ascii String.
From stdpp Require Import base tactics list strings.
From S2P Require Import Prelude Containers Text Hash.
#[local] Open Scope string_scope.
#[local] Open Scope Z_scope.
#[local] Arguments String.append : simpl nomatch.

Definition kMaxIdentityLength : Z := 200.
Definition kDigestBytes : Z := 32.
Definition kDigestHexLength : Z := 2 * kDigestBytes.

(** ** Textual identities *)

Definition IsAlnum (c : ascii) : bool :=
  let b := byte_of c in
  ((97 <=? b) && (b <=? 122)) || ((65 <=? b) && (b <=? 90)) || ((48 <=? b) && (b <=? 57)).

Definition one_of (cs : string) (c : ascii) : bool :=
  existsb (Ascii.eqb c) (list_ascii_of_string cs).

Definition IsIdentitySeparator (c : ascii) : bool := one_of "._-/:@#" c.

Definition last_char (s : string) : option ascii := last (list_ascii_of_string s).

(** A character the identity loop lets through. *)
Definition identity_char (c : ascii) : bool :=
  let raw := byte_of c in
  if (raw <? 0x20) || (raw =? 0x7F) then false
  else if Ascii.eqb c "\" then false
  else IsAlnum c || IsIdentitySeparator c.

(** The components of the traversal check: the text split at every slash. *)
Fixpoint slash_components (text : string) (component : string) : list string :=
  match text with
  | "" => [component]
  | String c rest =>
      if Ascii.eqb c "/" then component :: slash_components rest ""
      else slash_components rest (String.append component (char_string c))
  end.

Definition IsValidIdentityText (text : string) : bool :=
  match text with
  | "" => false
  | String first _ =>
      if kMaxIdentityLength <? ssize text then false
      else if one_of "/.-" first then false
      else match last_char text with
           | None => false
           | Some last =>
               if IsIdentitySeparator last || Ascii.eqb last "\" then false
               else if negb (forallb identity_char (list_ascii_of_string text)) then false
               else negb (existsb (fun component =>
                            String.eqb component "." || String.eqb component "..")
                          (slash_components text ""))
           end
  end.

(** ** Digests *)

Definition Digest_is_set (d : Digest) : bool := existsb (fun b => negb (b =? 0)) d.
Definition Digest_ToHex (d : Digest) : string := ToHex d.
Definition Digest_TryFromHex (hex : string) : option Digest :=
  if negb (ssize hex =? kDigestHexLength) then None else FromHex hex.
Definition Digest_ToShortHex (d : Digest) : string := substr 0 12 (Digest_ToHex d).

(** ** Path segments *)

Inductive PathSegment : Type :=
| PS_Key (key : string)
| PS_Index (index : Z).

Definition PathSegment_kind (s : PathSegment) : Z :=
  match s with PS_Key _ => 0 | PS_Index _ => 1 end.

(** [operator<=>(PathSegment, PathSegment)]. *)
Definition PathSegment_compare (lhs rhs : PathSegment) : comparison :=
  match lhs, rhs with
  | PS_Key a, PS_Key b => compare a b
  | PS_Index a, PS_Index b => compare a b
  | _, _ => compare (PathSegment_kind lhs) (PathSegment_kind rhs)
  end.

#[export, refine] Instance ordered_PathSegment : Ordered PathSegment :=
  {| compare := PathSegment_compare |}.
Proof.
  - intros [a|a] [b|b]; cbn [PathSegment_compare PathSegment_kind];
      rewrite ?compare_eq_iff; naive_solver.
  - intros [a|a] [b|b]; cbn [PathSegment_compare PathSegment_kind]; apply compare_antisym.
  - intros [a|a] [b|b] [c|c]; cbn [PathSegment_compare PathSegment_kind];
      first [apply compare_trans | done].
Defined.

Definition FieldPath : Type := list PathSegment.

(** [operator<=>(FieldPath, FieldPath)]: the common segments, then the size. *)
Definition FieldPath_compare (lhs rhs : FieldPath) : comparison := list_compare lhs rhs.

Definition FieldPath_Child (p : FieldPath) (segment : PathSegment) : FieldPath :=
  (p ++ [segment])%list.

Fixpoint IsPrefixOf (p other : FieldPath) : bool :=
  match p, other with
  | [], _ => true
  | _ :: _, [] => false
  | a :: p', b :: other' => eqb a b && IsPrefixOf p' other'
  end.

(** ** Printing a path *)

Definition IsEscapable (c : ascii) : bool := one_of "\.[]" c.

Fixpoint AppendEscapedKey (key : string) : string :=
  match key with
  | "" => ""
  | String c rest =>
      if IsEscapable c then String "\" (String c (AppendEscapedKey rest))
      else String c (AppendEscapedKey rest)
  end.

Fixpoint path_text (first : bool) (segments : FieldPath) : string :=
  match segments with
  | [] => ""
  | PS_Index index :: rest =>
      String "[" (String.append (to_string_unsigned index) (String "]" (path_text false rest)))
  | PS_Key key :: rest =>
      String.append (if first then "" else ".")
        (String.append (AppendEscapedKey key) (path_text false rest))
  end.

Definition FieldPath_ToText (p : FieldPath) : string := path_text true p.
Definition FieldPath_Describe (p : FieldPath) : string :=
  match p with [] => "<root>" | _ => FieldPath_ToText p end.

(** ** Parsing a path *)

(** The digits of an index, with the overflow test of the loop. *)
Fixpoint parse_index_digits (digits : string) (value : Z) : option Z :=
  match digits with
  | "" => Some value
  | String c rest =>
      if negb (is_digit c) then None
      else if (UINT64_MAX - digit_value c) / 10 <? value then None
      else parse_index_digits rest (value * 10 + digit_value c)
  end.

Definition parse_index (digits : string) : option Z :=
  if 20 <? ssize digits then None
  else if (1 <? ssize digits) &&
          match digits with String c _ => Ascii.eqb c "0" | "" => false end then None
  else parse_index_digits digits 0.

(** [text.find(']')]: what precedes the bracket and what follows it. *)
Fixpoint split_close (text : string) : option (string * string) :=
  match text with
  | "" => None
  | String c rest =>
      if Ascii.eqb c "]" then Some ("", rest)
      else match split_close rest with
           | Some (digits, after) => Some (String c digits, after)
           | None => None
           end
  end.

(** A key segment: the unescaped key and the text from its terminator on. *)
Fixpoint read_key (text : string) : option (string * string) :=
  let more c r :=
    match r with Some (key, after) => Some (String c key, after) | None => None end in
  match text with
  | "" => Some ("", "")
  | String c rest =>
      if Ascii.eqb c "\" then
        match rest with
        | "" => None
        | String e rest' => if IsEscapable e then more e (read_key rest') else None
        end
      else if one_of ".[" c then Some ("", text)
      else if Ascii.eqb c "]" then None
      else if (byte_of c <? 0x20) || (byte_of c =? 0x7F) then None
      else more c (read_key rest)
  end.

(** After a consumed '.', a key segment must follow. *)
Definition key_follows (text : string) : bool :=
  match text with "" => false | String c _ => negb (one_of ".][" c) end.

Section Parse.
Variables max_segments max_key_bytes : Z.

(** After a segment: the end of the text, a '.' that is consumed and must be
    followed by a key, or a '[' that is not consumed. *)
Definition after_segment (continue : string -> option FieldPath) (segment : PathSegment)
    (after : string) : option FieldPath :=
  let push rest :=
    match continue rest with Some path => Some (segment :: path) | None => None end in
  match after with
  | "" => Some [segment]
  | String d after' =>
      if Ascii.eqb d "." then if key_follows after' then push after' else None
      else if Ascii.eqb d "[" then push after
      else None
  end.

(** The loop of [TryParse] from the segment that starts [text]; [count] is the
    number of segments already pushed. *)
Fixpoint parse_segments (fuel : nat) (text : string) (count : Z) : option FieldPath :=
  match fuel with
  | O => None
  | S fuel' =>
      let continue rest := parse_segments fuel' rest (count + 1) in
      match text with
      | "" => Some []
      | String c rest =>
          if max_segments <=? count then None
          else if Ascii.eqb c "[" then
            match split_close rest with
            | None => None
            | Some (digits, after) =>
                if String.eqb digits "" then None
                else match parse_index digits with
                     | None => None
                     | Some value => after_segment continue (PS_Index value) after
                     end
            end
          else
            match read_key text with
            | None => None
            | Some (key, after) =>
                if String.eqb key "" || (max_key_bytes <? ssize key) then None
                else after_segment continue (PS_Key key) after
            end
      end
  end.

(** Every segment consumes a character: one more than the length is enough. *)
Definition FieldPath_TryParse (text : string) : option FieldPath :=
  match text with
  | "" => Some []
  | _ =>
      if wrap64 (max_segments * wrap64 (max_key_bytes + 4)) <? ssize text then None
      else parse_segments (S (String.length text)) text 0
  end.
End Parse.

(** ** Facts about decimal indices *)

(** Reading digits on top of a non-zero prefix, then printing, gives the digits back. *)
Lemma dec_digits_read s a v fuel acc :
  1 <= a -> read_digits s a = Some v ->
  dec_digits (String.length s + fuel) v acc = dec_digits fuel a (String.append s acc) /\ a <= v.
Proof.
  revert a fuel. induction s as [|c s IH]; intros a fuel Ha; cbn [read_digits String.length].
  - intros [= ->]. done.
  - destruct (is_digit c) eqn:Hc; [|done]. intros Hr. pose proof (digit_value_range c Hc) as Hd.
    destruct (IH (a * 10 + digit_value c) (S fuel) ltac:(lia) Hr) as [IH1 IH2]. split; [|lia].
    replace (S (String.length s) + fuel)%nat with (String.length s + S fuel)%nat by lia.
    rewrite IH1. cbn [dec_digits].
    assert (a * 10 + digit_value c <? 10 = false) as -> by (apply Z.ltb_ge; lia).
    rewrite (Z.add_comm (a * 10)), Z.mod_add, Z.div_add, Z.mod_small, Z.div_small, Z.add_0_l by lia.
    by rewrite digit_char_value.
Qed.

Lemma to_string_read s v :
  ssize s <= 20 -> s <> "" ->
  (1 <? ssize s) && match s with String c _ => Ascii.eqb c "0" | "" => false end = false ->
  read_digits s 0 = Some v -> to_string_unsigned v = s.
Proof.
  destruct s as [|c s]; [done|]. intros Hl _ Hz. cbn [read_digits].
  destruct (is_digit c) eqn:Hc; [|done]. rewrite Z.mul_0_l, Z.add_0_l. intros Hr.
  unfold ssize in *. cbn [String.length] in *.
  pose proof (digit_value_range c Hc) as Hd. unfold to_string_unsigned.
  destruct (Z.eq_dec (digit_value c) 0) as [E0|E0].
  - assert (c = "0"%char) as ->.
    { rewrite <- (digit_char_value c Hc), E0. done. }
    rewrite andb_true_r in Hz. breflect. destruct s; [|cbn in Hz; lia].
    cbn in Hr. injection Hr as <-. done.
  - destruct (dec_digits_read s (digit_value c) v (20 - String.length s) "") as [E _]; [lia|done|].
    replace (String.length s + (20 - String.length s))%nat with 20%nat in E by lia.
    rewrite E. replace (20 - String.length s)%nat with (S (19 - String.length s)) by lia.
    cbn [dec_digits]. assert (digit_value c <? 10 = true) as -> by (apply Z.ltb_lt; lia).
    rewrite Z.mod_small by lia. by rewrite digit_char_value, append_nil_r.
Qed.

Lemma parse_index_digits_read s a v : is_u64 a -> parse_index_digits s a = Some v ->
  read_digits s a = Some v /\ is_u64 v.
Proof.
  revert a. induction s as [|c s IH]; cbn; intros a Ha; [naive_solver|].
  destruct (is_digit c) eqn:Hc; cbn; [|done].
  destruct (_ <? a) eqn:Hov; [done|]. breflect. pose proof (digit_value_range c Hc) as Hd.
  apply IH. unfold is_u64, UINT64_MAX in *. Z.to_euclidean_division_equations; lia.
Qed.

Lemma read_digits_mono s a v : 0 <= a -> read_digits s a = Some v -> a <= v.
Proof.
  revert a. induction s as [|c s IH]; cbn; intros a Ha; [intros [= ->]; lia|].
  destruct (is_digit c) eqn:Hc; [|done]. pose proof (digit_value_range c Hc).
  intros Hr%IH; lia.
Qed.

Lemma read_parse_index_digits s a v : 0 <= a -> is_u64 v -> read_digits s a = Some v ->
  parse_index_digits s a = Some v.
Proof.
  revert a. induction s as [|c s IH]; cbn; intros a Ha Hv; [done|].
  destruct (is_digit c) eqn:Hc; cbn; [|done]. intros Hr. pose proof (digit_value_range c Hc) as Hd.
  assert (Hm : a * 10 + digit_value c <= v) by (apply (read_digits_mono s); [lia|done]).
  destruct (_ <? a) eqn:Hov; breflect; [|by apply IH; [lia|..]].
  unfold is_u64, UINT64_MAX in *. Z.to_euclidean_division_equations; lia.
Qed.

(** The printed form: digits only, at most [fuel], and no leading zero. *)
Lemma dec_digits_shape fuel n acc : 0 <= n ->
  exists s, dec_digits fuel n acc = String.append s acc /\
            (String.length s <= fuel)%nat /\ forallb is_digit (list_ascii_of_string s) = true.
Proof.
  revert n acc. induction fuel as [|fuel IH]; intros n acc Hn; cbn [dec_digits]; [by exists ""|].
  pose proof (is_digit_digit_char (n mod 10) (Z.mod_pos_bound n 10 ltac:(lia))) as Hd.
  destruct (n <? 10).
  - exists (char_string (digit_char (n mod 10))). cbn. rewrite Hd. repeat split. lia.
  - destruct (IH (n / 10) (String (digit_char (n mod 10)) acc)) as (s & Hs & Hl & Hall);
      [apply Z.div_pos; lia|].
    exists (String.append s (char_string (digit_char (n mod 10)))).
    rewrite Hs, append_assoc, length_append. cbn [char_string String.length].
    split; [done|]. split; [lia|]. clear -Hall Hd.
    induction s as [|c s IHs]; cbn in *; [by rewrite Hd|]. breflect. rewrite H. by apply IHs.
Qed.

Lemma dec_digits_first fuel n acc : 1 <= n < 10 ^ Z.of_nat fuel ->
  exists c r, dec_digits fuel n acc = String c r /\ Ascii.eqb c "0" = false.
Proof.
  revert n acc. induction fuel as [|fuel IH]; intros n acc Hn; [cbn in Hn; lia|]. cbn [dec_digits].
  destruct (n <? 10) eqn:E; breflect.
  - eexists _, _. split; [done|]. destruct (Ascii.eqb_spec (digit_char (n mod 10)) "0"); [|done].
    apply (f_equal digit_value) in e. rewrite digit_value_char in e by (apply Z.mod_pos_bound; lia).
    rewrite Z.mod_small in e by lia. change (digit_value "0") with 0 in e. lia.
  - apply IH. split; [apply Z.div_le_lower_bound; lia|].
    apply Z.div_lt_upper_bound; [lia|]. rewrite <- Z.pow_succ_r by lia. rewrite <- Nat2Z.inj_succ. lia.
Qed.

Lemma to_string_shape n : is_u64 n ->
  ssize (to_string_unsigned n) <= 20 /\ to_string_unsigned n <> "" /\
  forallb is_digit (list_ascii_of_string (to_string_unsigned n)) = true /\
  (1 <? ssize (to_string_unsigned n)) &&
    match to_string_unsigned n with String c _ => Ascii.eqb c "0" | "" => false end = false.
Proof.
  intros [H0 H1]. destruct (Z.eq_dec n 0) as [->|Hne]; [by vm_compute|].
  destruct (dec_digits_first 20 n "") as (c & r & E & Hc).
  { unfold UINT64_MAX in H1. change (10 ^ Z.of_nat 20) with 100000000000000000000. lia. }
  destruct (dec_digits_shape 20 n "" H0) as (s & Es & Hl & Hd).
  unfold to_string_unsigned. rewrite append_nil_r in Es. rewrite Es in *. subst s.
  split; [unfold ssize; lia|]. split; [done|]. split; [done|]. by rewrite Hc, andb_false_r.
Qed.

(** An index is read from its canonical digits only, and printed back. *)
Lemma parse_index_to_string d v : d <> "" -> parse_index d = Some v ->
  is_u64 v /\ to_string_unsigned v = d.
Proof.
  intros Hd. unfold parse_index. destruct (20 <? ssize d) eqn:El; [done|].
  destruct (_ && _) eqn:Ez; [done|]. breflect. intros Hp.
  apply parse_index_digits_read in Hp as [Hr Hv]; [|by unfold is_u64, UINT64_MAX].
  split; [done|]. by apply to_string_read.
Qed.

Lemma to_string_parse_index v : is_u64 v -> parse_index (to_string_unsigned v) = Some v.
Proof.
  intros Hv. destruct (to_string_shape v Hv) as (Hl & _ & _ & Hz). unfold parse_index.
  rewrite Hz. assert (20 <? ssize (to_string_unsigned v) = false) as -> by (apply Z.ltb_ge; lia).
  apply read_parse_index_digits; [lia|done|]. by apply read_to_string.
Qed.

(** ** Facts about path text *)

Lemma split_close_Some t d after : split_close t = Some (d, after) ->
  t = String.append d (String "]" after).
Proof.
  revert d. induction t as [|c t IH]; cbn; intros d; [done|].
  destruct (Ascii.eqb_spec c "]") as [->|]; [by intros [= <- <-]|].
  destruct (split_close t) as [[d' a]|]; [|done]. intros [= <- <-]. cbn. by rewrite <- (IH d').
Qed.

Lemma split_close_digits d after : forallb is_digit (list_ascii_of_string d) = true ->
  split_close (String.append d (String "]" after)) = Some (d, after).
Proof.
  induction d as [|c d IH]; cbn; [done|]. intros H. breflect. rewrite IH by done.
  destruct (Ascii.eqb_spec c "]") as [->|]; [done|]. done.
Qed.

(** Where a key segment ends. *)
Definition terminator (after : string) : Prop :=
  after = "" \/ exists r, after = String "." r \/ after = String "[" r.

(** A key the parser can read: no control characters but the escapable ones. *)
Definition key_char (c : ascii) : bool :=
  negb ((byte_of c <? 0x20) || (byte_of c =? 0x7F)).
Definition key_ok (key : string) : bool := forallb key_char (list_ascii_of_string key).

Lemma one_of_dot_bracket c : one_of ".[" c = true -> c = "."%char \/ c = "["%char.
Proof.
  unfold one_of. cbn. destruct (Ascii.eqb_spec c "."); [auto|].
  destruct (Ascii.eqb_spec c "["); [auto|]. done.
Qed.

Lemma escapable_cases c : IsEscapable c = true <->
  c = "\"%char \/ c = "."%char \/ c = "["%char \/ c = "]"%char.
Proof.
  unfold IsEscapable, one_of. cbn.
  destruct (Ascii.eqb_spec c "\"), (Ascii.eqb_spec c "."), (Ascii.eqb_spec c "["),
    (Ascii.eqb_spec c "]"); naive_solver.
Qed.

Lemma read_key_Some t k after : read_key t = Some (k, after) ->
  t = String.append (AppendEscapedKey k) after /\ terminator after /\ key_ok k = true.
Proof.
  revert k. induction t as [t IH] using (induction_ltof1 _ String.length); unfold ltof in IH.
  intros k. destruct t as [|c t]; cbn [read_key].
  { intros [= <- <-]. split; [done|]. split; [by left | done]. }
  destruct (Ascii.eqb_spec c "\") as [->|Hbs].
  - destruct t as [|e t]; [done|]. destruct (IsEscapable e) eqn:He; [|done].
    destruct (read_key t) as [[k' a]|] eqn:Hr; [|done]. intros [= <- <-].
    apply IH in Hr as (-> & Ht & Hk); [|cbn; lia]. cbn [AppendEscapedKey]. rewrite He.
    split; [done|]. split; [done|]. unfold key_ok in *. cbn. rewrite Hk, andb_true_r.
    by apply escapable_cases in He as [-> | [-> | [-> | ->]]].
  - destruct (one_of ".[" c) eqn:Ho.
    { intros [= <- <-]. split; [done|]. split; [|done].
      apply one_of_dot_bracket in Ho as [-> | ->]; right; eauto. }
    destruct (Ascii.eqb_spec c "]") as [|Hcb]; [done|].
    destruct (_ || _) eqn:Hctl; [done|]. destruct (read_key t) as [[k' a]|] eqn:Hr; [|done].
    intros [= <- <-]. apply IH in Hr as (-> & Ht & Hk); [|cbn; lia]. cbn [AppendEscapedKey].
    assert (IsEscapable c = false) as ->.
    { apply not_true_iff_false. rewrite escapable_cases. unfold one_of in Ho. cbn in Ho.
      intros [-> | [-> | [-> | ->]]]; done. }
    split; [done|]. split; [done|]. unfold key_ok in *. cbn. rewrite Hk, andb_true_r.
    unfold key_char. by rewrite Hctl.
Qed.

Lemma read_key_escaped k after : key_ok k = true -> terminator after ->
  read_key (String.append (AppendEscapedKey k) after) = Some (k, after).
Proof.
  intros Hk Ht. induction k as [|c k IH]; cbn [AppendEscapedKey String.append].
  - destruct Ht as [->|[r [-> | ->]]]; done.
  - unfold key_ok in Hk. cbn in Hk. breflect. specialize (IH H0).
    destruct (IsEscapable c) eqn:He; cbn [String.append read_key].
    + by rewrite Ascii.eqb_refl, He, IH.
    + assert (Hn : ~ (c = "\"%char \/ c = "."%char \/ c = "["%char \/ c = "]"%char))
        by (rewrite <- escapable_cases; congruence).
      destruct (Ascii.eqb_spec c "\") as [->|]; [naive_solver|].
      assert (one_of ".[" c = false) as ->.
      { apply not_true_iff_false. intros [-> | ->]%one_of_dot_bracket; naive_solver. }
      destruct (Ascii.eqb_spec c "]") as [->|]; [naive_solver|].
      unfold key_char in H. apply negb_true_iff in H. by rewrite H, IH.
Qed.

(** ** Facts about the whole path *)

Section ParseFacts.
Variables max_segments max_key_bytes : Z.

Notation parse := (parse_segments max_segments max_key_bytes).

(** A segment that has a spelling. *)
Definition segment_ok (s : PathSegment) : Prop :=
  match s with
  | PS_Key key => key <> "" /\ ssize key <= max_key_bytes /\ key_ok key = true
  | PS_Index index => is_u64 index
  end.

Definition starts_bracket (text : string) : bool :=
  match text with String c _ => Ascii.eqb c "[" | "" => false end.
Definition starts_index (p : FieldPath) : bool :=
  match p with PS_Index _ :: _ => true | _ => false end.

(** What the printer emits for the segments after the first. *)
Lemma path_text_false p : p <> [] ->
  path_text false p = if starts_index p then path_text true p else String "." (path_text true p).
Proof. by destruct p as [|[key|index] p]. Qed.

Lemma path_text_terminator p : terminator (path_text false p).
Proof. destruct p as [|[key|index] p]; [by left|right; eauto..]. Qed.

(** What the parser returned, against the text it read. *)
Definition parsed (text : string) (count : Z) (p : FieldPath) : Prop :=
  text = path_text true p /\ Forall segment_ok p /\ starts_bracket text = starts_index p /\
  (text = "" -> p = []) /\ (p <> [] -> count + vsize p <= max_segments).

Lemma after_segment_Some (continue : string -> option FieldPath) segment after count p :
  (forall rest r, continue rest = Some r -> parsed rest count r) -> count <= max_segments ->
  after_segment continue segment after = Some p ->
  exists r, p = segment :: r /\ after = path_text false r /\ Forall segment_ok r /\
            count + vsize r <= max_segments.
Proof.
  intros IH Hc. unfold after_segment. destruct after as [|d after].
  { intros [= <-]. exists []. change (vsize []) with 0. repeat split; [constructor | lia]. }
  assert (Hpush : forall rest, rest <> "" ->
    match continue rest with Some path => Some (segment :: path) | None => None end = Some p ->
    exists r, p = segment :: r /\ parsed rest count r /\ r <> []).
  { intros rest Hrest. destruct (continue rest) as [r|] eqn:E; [|done]. intros [= <-].
    pose proof (IH _ _ E) as Hp. exists r. split; [done|]. split; [done|].
    destruct Hp as (Ht & _). intros ->. done. }
  destruct (Ascii.eqb_spec d ".") as [->|].
  - destruct (key_follows after) eqn:Hk; [|done]. intros Hp.
    destruct (Hpush after) as (r & -> & (Ht & Hok & Hb & _ & Hn) & Hne); [by intros -> | done|].
    exists r. split; [done|]. split; [|auto]. rewrite path_text_false by done.
    rewrite <- Hb, <- Ht. destruct after as [|c after]; [done|]. cbn in Hk |- *.
    destruct (Ascii.eqb_spec c "["); [|done]. by subst.
  - destruct (Ascii.eqb_spec d "[") as [->|]; [|done]. intros Hp.
    destruct (Hpush (String "[" after)) as (r & -> & (Ht & Hok & Hb & _ & Hn) & Hne); [done..|].
    exists r. split; [done|]. split; [|auto]. rewrite path_text_false by done.
    by rewrite <- Hb, <- Ht.
Qed.

Lemma vsize_cons {A} (x : A) l : vsize (x :: l) = 1 + vsize l.
Proof. unfold vsize. cbn [length]. lia. Qed.

Lemma parse_segments_sound fuel text count p :
  parse fuel text count = Some p -> parsed text count p.
Proof.
  revert text count p. induction fuel as [|fuel IH]; intros text count p; cbn [parse_segments]; [done|].
  destruct text as [|c rest]; [intros [= <-]; repeat split; [constructor | done]|].
  destruct (max_segments <=? count) eqn:Hc; [done|]. breflect.
  assert (IH' : forall r q, parse fuel r (count + 1) = Some q -> parsed r (count + 1) q) by eauto.
  destruct (Ascii.eqb_spec c "[") as [->|Hbr].
  - destruct (split_close rest) as [[d after]|] eqn:Hs; [|done].
    destruct (String.eqb_spec d ""); [done|]. destruct (parse_index d) as [v|] eqn:Hi; [|done].
    intros (r & -> & -> & Hok & Hn)%(after_segment_Some _ _ _ _ _ IH'); [|lia].
    apply split_close_Some in Hs as ->. apply parse_index_to_string in Hi as [Hv Hd]; [|done].
    unfold parsed. cbn [path_text]. rewrite Hd, vsize_cons.
    split; [done|]. split; [by constructor|]. repeat split; [done|lia].
  - destruct (read_key (String c rest)) as [[k after]|] eqn:Hk; [|done].
    destruct (_ || _) eqn:Hlen; [done|]. breflect.
    intros (r & -> & -> & Hok & Hn)%(after_segment_Some _ _ _ _ _ IH'); [|lia].
    apply read_key_Some in Hk as (Ht & _ & Hkey). unfold parsed. cbn [path_text]. rewrite vsize_cons.
    split; [done|]. split; [by constructor|]. split; [|split; [done|lia]].
    cbn. by destruct (Ascii.eqb_spec c "[").
Qed.

Lemma escaped_first k r : k <> "" -> key_follows (String.append (AppendEscapedKey k) r) = true.
Proof.
  destruct k as [|c k]; [done|]. intros _. cbn [AppendEscapedKey].
  destruct (IsEscapable c) eqn:E; [done|]. cbn. apply negb_true_iff.
  apply not_true_iff_false. intros H. apply not_true_iff_false in E. apply E, escapable_cases.
  unfold one_of in H. cbn in H. destruct (Ascii.eqb_spec c "."), (Ascii.eqb_spec c "]"),
    (Ascii.eqb_spec c "["); naive_solver.
Qed.

Lemma parse_segments_complete fuel p count :
  Forall segment_ok p -> count + vsize p <= max_segments -> (length p < fuel)%nat ->
  parse fuel (path_text true p) count = Some p.
Proof.
  revert fuel count. induction p as [|s p IH]; intros [|fuel] count Hok Hn Hf; try (cbn in Hf; lia); [done|].
  inversion Hok as [|? ? Hs Hok']; subst. rewrite vsize_cons in Hn.
  assert (Hpos : 0 <= vsize p) by (unfold vsize; lia).
  assert (Hafter : after_segment (fun rest => parse fuel rest (count + 1)) s (path_text false p)
                   = Some (s :: p)).
  { unfold after_segment. cbn [length] in Hf. specialize (IH fuel (count + 1) Hok' ltac:(lia) ltac:(lia)).
    destruct p as [|[k|i] p]; [done| |].
    - apply Forall_cons in Hok' as [(Hk & _) _].
      cbn [path_text String.append Ascii.eqb Bool.eqb] in IH |- *. by rewrite escaped_first, IH.
    - cbn [path_text String.append Ascii.eqb Bool.eqb] in IH |- *. by rewrite IH. }
  destruct s as [k|i].
  - destruct Hs as (Hk & Hl & Hko).
    pose proof (read_key_escaped k (path_text false p) Hko (path_text_terminator p)) as Hread.
    cbn [path_text String.append].
    pose proof (escaped_first k (path_text false p) Hk) as Hfirst.
    destruct (String.append (AppendEscapedKey k) (path_text false p)) as [|c t] eqn:E; [done|].
    cbn [parse_segments]. rewrite Hread.
    assert (max_segments <=? count = false) as -> by (apply Z.leb_gt; lia).
    assert (Ascii.eqb c "[" = false) as ->.
    { destruct (Ascii.eqb_spec c "["); [subst; done | done]. }
    rewrite (proj2 (String.eqb_neq k "")) by done.
    by assert (max_key_bytes <? ssize k = false) as -> by (apply Z.ltb_ge; lia).
  - cbn [path_text parse_segments].
    assert (max_segments <=? count = false) as -> by (apply Z.leb_gt; lia).
    rewrite Ascii.eqb_refl. destruct (to_string_shape i Hs) as (_ & Hne & Hd & _).
    rewrite split_close_digits, to_string_parse_index by done.
    by rewrite (proj2 (String.eqb_neq _ "")).
Qed.

Lemma path_text_length first p : Forall segment_ok p ->
  (length p <= String.length (path_text first p))%nat.
Proof.
  revert first. induction p as [|[k|i] p IH]; intros first Hok; inversion Hok as [|? ? Hs Hok']; subst;
    [cbn; lia| |]; specialize (IH false Hok'); cbn [path_text length String.length].
  - destruct Hs as (Hk & _). rewrite !length_append.
    destruct k as [|c k]; [done|]. cbn [AppendEscapedKey]. destruct (IsEscapable c); cbn; lia.
  - rewrite length_append. cbn [String.length]. lia.
Qed.

Lemma FieldPath_TryParse_sound text p : is_u64 max_segments ->
  FieldPath_TryParse max_segments max_key_bytes text = Some p ->
  FieldPath_ToText p = text /\ Forall segment_ok p /\ vsize p <= max_segments.
Proof.
  intros Hms. unfold FieldPath_TryParse. destruct text as [|c text].
  - intros [= <-]. split; [done|]. split; [constructor|]. destruct Hms. done.
  - destruct (_ <? _); [done|]. intros (Ht & Hok & _ & Hne & Hn)%parse_segments_sound.
    split; [done|]. split; [done|]. destruct p; [done|]. apply Hn. done.
Qed.

Lemma FieldPath_TryParse_ToText p : Forall segment_ok p -> vsize p <= max_segments ->
  ssize (FieldPath_ToText p) <= wrap64 (max_segments * wrap64 (max_key_bytes + 4)) ->
  FieldPath_TryParse max_segments max_key_bytes (FieldPath_ToText p) = Some p.
Proof.
  intros Hok Hn Hfit. pose proof (path_text_length true p Hok) as Hl.
  pose proof (parse_segments_complete (S (String.length (path_text true p))) p 0 Hok
                ltac:(lia) ltac:(lia)) as Hparse.
  unfold FieldPath_TryParse, FieldPath_ToText in *.
  destruct (path_text true p) as [|c t] eqn:E; [|].
  - destruct p as [|x p]; [done|]. cbn in Hl. lia.
  - rewrite (proj2 (Z.ltb_ge _ _) Hfit). exact Hparse.
Qed.

(** A field path has exactly one textual form.  Whatever [TryParse] accepts
    prints back to the same text, with segments inside the configured bounds;
    and every path whose segments have a spelling and whose text fits the
    length test is parsed back from its text. *)
Theorem FieldPath_round_trip (Hms : is_u64 max_segments) :
  (forall text p, FieldPath_TryParse max_segments max_key_bytes text = Some p ->
     FieldPath_ToText p = text /\ Forall segment_ok p /\ vsize p <= max_segments) /\
  (forall p, Forall segment_ok p -> vsize p <= max_segments ->
     ssize (FieldPath_ToText p) <= wrap64 (max_segments * wrap64 (max_key_bytes + 4)) ->
     FieldPath_TryParse max_segments max_key_bytes (FieldPath_ToText p) = Some p).
Proof.
  split; [intros text p; by apply FieldPath_TryParse_sound|apply FieldPath_TryParse_ToText].
Qed.
End ParseFacts.

Lemma FieldPath_round_trip_witness :
  let text := "ports.eth\.0[3].mtu" in
  let p := [PS_Key "ports"; PS_Key "eth.0"; PS_Index 3; PS_Key "mtu"] in
  FieldPath_TryParse 32 256 text = Some p /\ FieldPath_ToText p = text /\
  FieldPath_TryParse 32 256 "ports.[3]" = None /\ FieldPath_TryParse 32 256 "a[03]" = None.
Proof.
  cbv zeta. split; [vm_compute; reflexivity|]. split; [|by vm_compute].
  refine (proj1 (proj1 (FieldPath_round_trip 32 256 _) _ _ _)); [|vm_compute; reflexivity].
  unfold is_u64, UINT64_MAX. lia.
Defined.

(** Digests of the hasher survive their hexadecimal form. *)
Lemma Digest_hex_round_trip d : is_digest d -> Digest_TryFromHex (Digest_ToHex d) = Some d.
Proof.
  intros [Hl Hb]. unfold Digest_TryFromHex, Digest_ToHex, ssize. rewrite ToHex_length, Hl.
  by apply FromHex_ToHex.
Qed.

Lemma Digest_ToHex_inj d e : is_digest d -> is_digest e -> Digest_ToHex d = Digest_ToHex e -> d = e.
Proof. intros [_ Hd] [_ He]. by apply ToHex_inj. Qed.

(** A path every segment of which has a spelling of at most a [std::size_t]. *)
Definition path_ok (p : FieldPath) : Prop :=
  Forall (segment_ok UINT64_MAX) p /\ is_u64 (ssize (FieldPath_ToText p)).

Lemma FieldPath_ToText_inj p q : path_ok p -> path_ok q ->
  FieldPath_ToText p = FieldPath_ToText q -> p = q.
Proof.
  intros [Hp _] [Hq _] E. set (n := vsize p + vsize q). set (f := S (length p + length q)).
  assert (Hn : 0 <= vsize p /\ 0 <= vsize q) by (unfold vsize; lia).
  pose proof (parse_segments_complete n UINT64_MAX f p 0 Hp ltac:(unfold n; lia) ltac:(unfold f; lia)) as E1.
  pose proof (parse_segments_complete n UINT64_MAX f q 0 Hq ltac:(unfold n; lia) ltac:(unfold f; lia)) as E2.
  unfold FieldPath_ToText in E. congruence.
Qed.
