(* ===== verification/Double.v ===== *)
(** * Binary64 numbers

    A [double] is a [spec_float] of the standard library: a signed zero, a
    signed mantissa and exponent, an infinity or a NaN.  [SFeqb] and [SFltb] are
    the comparison operators.  The file adds what value.cpp uses of the C++
    standard library on doubles: [std::isfinite], [std::floor(x) == x] with the
    conversion to an integer, [std::bit_cast<std::uint64_t>], and
    [std::to_chars(..., std::chars_format::general)], the shortest decimal text
    that reads back to the same number. *)

From Stdlib Require Import ZArith Lia List Bool Ascii String.
From Stdlib Require Import Floats.SpecFloat.
From stdpp Require Import base tactics list strings.
From S2P Require Import Prelude Containers Text.
#[local] Open Scope string_scope.
#[local] Open Scope Z_scope.

Definition Double : Type := spec_float.

(** The numbers of the binary64 format. *)
Definition valid_double (f : Double) : Prop := valid_binary 53 1024 f = true.

Definition is_finite (f : Double) : bool :=
  match f with S754_zero _ | S754_finite _ _ _ => true | _ => false end.

(** [std::floor(f) == f] for a finite [f]. *)
Definition is_integral (f : Double) : bool :=
  match f with
  | S754_zero _ => true
  | S754_finite _ m e => (0 <=? e) || (Zpos m mod 2 ^ (- e) =? 0)
  | _ => false
  end.

(** [static_cast] of a finite [f] to an integer: truncation towards zero. *)
Definition truncate (f : Double) : Z :=
  match f with
  | S754_finite s m e =>
      let magnitude := if 0 <=? e then Zpos m * 2 ^ e else Zpos m / 2 ^ (- e) in
      if s then - magnitude else magnitude
  | _ => 0
  end.

(** [std::bit_cast<std::uint64_t>(f)] of a finite number. *)
Definition double_bits (f : Double) : Z :=
  let sign (s : bool) := if s then Z.shiftl 1 63 else 0 in
  match f with
  | S754_zero s => sign s
  | S754_finite s m e =>
      if 2 ^ 52 <=? Zpos m
      then sign s + Z.shiftl (e + 1075) 52 + (Zpos m - 2 ^ 52)
      else sign s + Zpos m
  | S754_infinity s => sign s + Z.shiftl 0x7FF 52
  | S754_nan => Z.shiftl 0x7FF 52 + Z.shiftl 1 51
  end.

(** ** Shortest decimal text *)

(** The exact value of a finite [m * 2^e] is [num m e / den e]. *)
Definition scale_up (b k : Z) : Z := if 0 <=? k then b ^ k else 1.
Definition scale_down (b k : Z) : Z := if 0 <=? k then 1 else b ^ (- k).

(** [floor(log10(n / d))] by search: [j] powers of ten up or down. *)
Fixpoint log10_up (fuel : nat) (n d x : Z) : Z :=
  match fuel with
  | O => x
  | S fuel' => if n <? d * 10 then x else log10_up fuel' n (d * 10) (x + 1)
  end.
Fixpoint log10_down (fuel : nat) (n d x : Z) : Z :=
  match fuel with
  | O => x
  | S fuel' => if d <=? n then x else log10_down fuel' (n * 10) d (x - 1)
  end.
(** 400 decades cover the binary64 range. *)
Definition floor_log10 (n d : Z) : Z :=
  if d <=? n then log10_up 400 n d 0 else log10_down 400 n d 0.

(** Whether the decimal [digits * 10^k] reads back as [m * 2^e]: it lies between
    the midpoints to the neighbours, ends included when [m] is even. *)
Definition reads_back (m e digits k : Z) : bool :=
  let low := if (m =? 2 ^ 52) && (-1074 <? e) then 4 * m - 1 else 4 * m - 2 in
  let high := 4 * m + 2 in
  let d := digits * scale_up 10 k * scale_down 2 (e - 2) in
  let unit := scale_down 10 k * scale_up 2 (e - 2) in
  if Z.even m then (low * unit <=? d) && (d <=? high * unit)
  else (low * unit <? d) && (d <? high * unit).

(** The shortest run of at most 17 digits that reads back, nearest first. *)
Fixpoint shortest_digits (fuel : nat) (m e x n : Z) : Z * Z :=
  let k := x - n + 1 in
  let num := m * scale_up 2 e * scale_down 10 k in
  let den := scale_down 2 e * scale_up 10 k in
  let below := num / den in
  let above := below + 1 in
  let nearest_below := 2 * (num - below * den) <=? den in
  let below_ok := reads_back m e below k in
  let above_ok := reads_back m e above k in
  match fuel with
  | O => (below, k)
  | S fuel' =>
      if below_ok && (nearest_below || negb above_ok) then (below, k)
      else if above_ok then (above, k)
      else shortest_digits fuel' m e x (n + 1)
  end.

Fixpoint strip_zeros (fuel : nat) (digits k : Z) : Z * Z :=
  match fuel with
  | O => (digits, k)
  | S fuel' => if (digits mod 10 =? 0) && (1 <=? digits) then strip_zeros fuel' (digits / 10) (k + 1)
               else (digits, k)
  end.

Fixpoint zeros_string (n : nat) : string :=
  match n with O => "" | S n' => String "0" (zeros_string n') end.

(** The two layouts of the [g] conversion: fixed for [-4 <= exponent < 6]. *)
Definition general_layout (digits k : Z) : string :=
  let text := to_string_unsigned digits in
  let count := ssize text in
  let exponent := k + count - 1 in
  if (-4 <=? exponent) && (exponent <? 6) then
    if 0 <=? k then String.append text (zeros_string (Z.to_nat k))
    else if 0 <=? exponent then
      String.append (substr 0 (exponent + 1) text)
        (String "." (substr (exponent + 1) count text))
    else String.append "0." (String.append (zeros_string (Z.to_nat (- exponent - 1))) text)
  else
    let magnitude := to_string_unsigned (Z.abs exponent) in
    let padded := if ssize magnitude <? 2 then String "0" magnitude else magnitude in
    String.append (substr 0 1 text)
      (String.append (if 1 <? count then String "." (substr 1 count text) else "")
        (String.append (if exponent <? 0 then "e-" else "e+") padded)).

Definition to_chars_general (f : Double) : string :=
  match f with
  | S754_zero s => if s then "-0" else "0"
  | S754_finite s m e =>
      let n := Zpos m * scale_up 2 e in
      let d := scale_down 2 e in
      let '(digits, k) := shortest_digits 17 (Zpos m) e (floor_log10 n d) 1 in
      let '(digits, k) := strip_zeros 20 digits k in
      String.append (if s then "-" else "") (general_layout digits k)
  | S754_infinity s => if s then "-inf" else "inf"
  | S754_nan => "nan"
  end.

(** ** Facts *)

(** The operators on non-NaN numbers compare this key lexicographically: the two
    zeros share a key, so they are equal although their bits differ. *)
Definition double_key (f : Double) : Z * (Z * Z) :=
  match f with
  | S754_zero _ => (0, (0, 0))
  | S754_finite s m e => if s then (-1, (- e, - Zpos m)) else (1, (e, Zpos m))
  | S754_infinity s => (if s then -2 else 2, (0, 0))
  | S754_nan => (3, (0, 0))
  end.

#[export] Instance Double_eq_dec : EqDecision Double.
Proof.
  intros f g. change ({f = g} + {f <> g}). unfold Double in *.
  decide equality; first [apply Bool.bool_dec | apply Pos.eq_dec | apply Z.eq_dec].
Defined.

Definition not_nan (f : Double) : Prop := f <> S754_nan.

Lemma SFcompare_key f g : not_nan f -> not_nan g ->
  SFcompare f g = Some (compare (double_key f) (double_key g)).
Proof.
  unfold not_nan. intros Hf Hg.
  destruct f as [[]|[]| |[] m e], g as [[]|[]| |[] m' e']; try done; cbn;
    fold (Pos.compare m m'); rewrite ?Z.compare_opp, ?(Z.compare_antisym e e'); cbn;
    try rewrite (Pos.compare_antisym m m'); by destruct (e ?= e').
Qed.

Lemma SFeqb_key f g : not_nan f -> not_nan g ->
  SFeqb f g = true <-> double_key f = double_key g.
Proof.
  intros Hf Hg. unfold SFeqb. rewrite SFcompare_key, <- compare_eq_iff by done.
  destruct (compare _ _); naive_solver.
Qed.

Lemma is_finite_not_nan f : is_finite f = true -> not_nan f.
Proof. by destruct f. Qed.

Lemma SFeqb_refl f : is_finite f = true -> SFeqb f f = true.
Proof. intros Hf%is_finite_not_nan. by apply SFeqb_key. Qed.

Lemma SFeqb_sym f g : SFeqb f g = SFeqb g f.
Proof.
  destruct (decide (f = S754_nan)) as [->|Hf]; [by destruct g|].
  destruct (decide (g = S754_nan)) as [->|Hg]; [by destruct f as [[]|[]| |[]]|].
  apply eq_true_iff_eq. rewrite !SFeqb_key by done. naive_solver.
Qed.

(** Equal finite numbers have the same exact value. *)
Lemma SFeqb_truncate f g : is_finite f = true -> is_finite g = true -> SFeqb f g = true ->
  is_integral f = is_integral g /\ truncate f = truncate g.
Proof.
  intros Hf Hg. rewrite SFeqb_key by (by apply is_finite_not_nan).
  destruct f as [[]|[]| |[] m e], g as [[]|[]| |[] m' e']; try done; cbn [double_key];
    intros [= He Hm]; try done; [assert (e = e') as -> by lia; assert (m = m') as -> by lia; done|].
  subst. by split.
Qed.

(** A valid binary64 mantissa and exponent. *)
Lemma valid_double_bounds s m e : valid_double (S754_finite s m e) ->
  Zpos m < 2 ^ 53 /\ -1074 <= e <= 971 /\ (Zpos m < 2 ^ 52 -> e = -1074).
Proof.
  unfold valid_double, valid_binary, bounded, canonical_mantissa. rewrite andb_true_iff.
  intros [H1 H2]. apply Zeq_bool_eq in H1. apply Zle_bool_imp_le in H2.
  unfold fexp, emin in H1.
  assert (Hd : Zpos (digits2_pos m) = Z.log2 (Zpos m) + 1).
  { clear. induction m as [m IH|m IH|]; cbn [digits2_pos]; [| |done].
    - rewrite Pos2Z.inj_succ, IH. change (Zpos m~1) with (2 * Zpos m + 1).
      rewrite Z.log2_succ_double by lia. lia.
    - rewrite Pos2Z.inj_succ, IH. change (Zpos m~0) with (2 * Zpos m).
      rewrite Z.log2_double by lia. lia. }
  rewrite Hd in H1.
  assert (Hlog : Z.log2 (Zpos m) <= 52) by lia.
  split; [apply Z.log2_lt_pow2; lia|]. split; [lia|].
  intros Hs. apply Z.log2_lt_pow2 in Hs; lia.
Qed.

(** The bit pattern determines a finite number. *)
Lemma double_bits_range f : is_finite f = true -> valid_double f -> is_u64 (double_bits f).
Proof.
  unfold is_u64, UINT64_MAX. destruct f as [[]|[]| |s m e]; try done; intros _ Hv.
  apply valid_double_bounds in Hv as (Hm & He & Hs). unfold double_bits.
  rewrite !Z.shiftl_mul_pow2 by lia. change (2 ^ 52) with 4503599627370496 in *.
  change (2 ^ 53) with 9007199254740992 in *. change (2 ^ 63) with 9223372036854775808.
  destruct s, (Z.leb_spec 4503599627370496 (Zpos m)); lia.
Qed.

Lemma double_bits_inj f g : is_finite f = true -> is_finite g = true ->
  valid_double f -> valid_double g -> double_bits f = double_bits g -> f = g.
Proof.
  destruct f as [s|[]| |s m e], g as [s'|[]| |s' m' e']; try done; intros _ _ Hv Hv'.
  - unfold double_bits. by destruct s, s'.
  - apply valid_double_bounds in Hv' as (Hm & He & Hs). unfold double_bits.
    rewrite !Z.shiftl_mul_pow2 by lia. change (2 ^ 52) with 4503599627370496 in *.
    change (2 ^ 53) with 9007199254740992 in *. change (2 ^ 63) with 9223372036854775808.
    destruct s, s', (Z.leb_spec 4503599627370496 (Zpos m')); lia.
  - apply valid_double_bounds in Hv as (Hm & He & Hs). unfold double_bits.
    rewrite !Z.shiftl_mul_pow2 by lia. change (2 ^ 52) with 4503599627370496 in *.
    change (2 ^ 53) with 9007199254740992 in *. change (2 ^ 63) with 9223372036854775808.
    destruct s, s', (Z.leb_spec 4503599627370496 (Zpos m)); lia.
  - apply valid_double_bounds in Hv as (Hm & He & Hs), Hv' as (Hm' & He' & Hs'). unfold double_bits.
    rewrite !Z.shiftl_mul_pow2 by lia. change (2 ^ 52) with 4503599627370496 in *.
    change (2 ^ 53) with 9007199254740992 in *. change (2 ^ 63) with 9223372036854775808.
    assert (Hgoal : s = s' -> Zpos m = Zpos m' -> e = e' -> S754_finite s m e = S754_finite s' m' e')
      by (intros -> [= ->] ->; done).
    destruct (Z.leb_spec 4503599627370496 (Zpos m)), (Z.leb_spec 4503599627370496 (Zpos m'));
      intros E; apply Hgoal; destruct s, s'; try lia; done || (exfalso; lia).
Qed.

(** The shortest text on numbers of every layout. *)
Example to_chars_general_examples :
  map to_chars_general
    [S754_finite false 1 0; S754_finite true 3 (-1); S754_finite false 7205759403792794 (-56);
     S754_finite false 5 (-1074); S754_finite false 4503599627370496 (-52);
     S754_finite false 6004799503160661 (-54); S754_finite false 15625 6;
     S754_finite false 9007199254740991 971; S754_finite false 8264141345021879 (-66)] =
  ["1"; "-1.5"; "0.1"; "2.5e-323"; "1"; "0.3333333333333333"; "1e+06";
   "1.7976931348623157e+308"; "0.000112"].
Proof. vm_compute. reflexivity. Qed.
