(* ===== verification/Value.v ===== *)
(** * Values

    value.hpp/value.cpp: the variant every intent field and observed field
    holds, its canonical text, its digest, its equality and order, its bounds,
    and [RelateValues], the comparison the drift classification rests on.  Also
    the UTF-8 check of string leaves.  Depth arguments count as the source's
    [std::size_t depth] does; node and byte counts of a value in memory stay
    below 2^64, so the sums are plain [Z] sums. *)

From Stdlib Require Import ZArith Lia List Bool Ascii String.
From Stdlib Require Import Floats.SpecFloat.
From stdpp Require Import base tactics list strings.
From S2P Require Import Prelude Containers Text Hash Status Double.
#[local] Open Scope string_scope.
#[local] Open Scope Z_scope.
#[local] Arguments String.append : simpl nomatch.

Notation "s +:+ t" := (String.append s t) (at level 60, right associativity) : ndo_scope.

Definition kHardRecursionLimit : Z := 64.
Definition kNodeOverheadBytes : Z := 32.
Definition kContainerOverheadBytes : Z := 48.

(** ** The variant *)

Inductive ValueKind : Set :=
| VK_Null | VK_Bool | VK_Int | VK_Uint | VK_Double | VK_String | VK_Bytes | VK_List | VK_Map.

#[export, refine] Instance enum_ValueKind : Enum ValueKind :=
  {| code v := match v with
               | VK_Null => 0 | VK_Bool => 1 | VK_Int => 2 | VK_Uint => 3 | VK_Double => 4
               | VK_String => 5 | VK_Bytes => 6 | VK_List => 7 | VK_Map => 8 end;
     values := [VK_Null; VK_Bool; VK_Int; VK_Uint; VK_Double; VK_String; VK_Bytes; VK_List; VK_Map] |}.
Proof. enum_complete. Defined.

Definition ToText_ValueKind (value : ValueKind) : string :=
  match value with
  | VK_Null => "null"
  | VK_Bool => "bool"
  | VK_Int => "int"
  | VK_Uint => "uint"
  | VK_Double => "double"
  | VK_String => "string"
  | VK_Bytes => "bytes"
  | VK_List => "list"
  | VK_Map => "map"
  end.

Inductive NumericEquivalence : Set := NE_Exact | NE_Numeric.

#[export, refine] Instance enum_NumericEquivalence : Enum NumericEquivalence :=
  {| code v := match v with NE_Exact => 0 | NE_Numeric => 1 end; values := [NE_Exact; NE_Numeric] |}.
Proof. enum_complete. Defined.

Inductive ValueRelation : Set := VR_Equal | VR_Different | VR_Incomparable.

(** [std::variant] of the nine kinds; a map is kept in key order. *)
Inductive Value : Type :=
| V_Null
| V_Bool (v : bool)
| V_Int (v : Z)
| V_Uint (v : Z)
| V_Double (v : Double)
| V_String (v : string)
| V_Bytes (v : list Z)
| V_List (v : list Value)
| V_Map (v : list (string * Value)).

Definition kind (value : Value) : ValueKind :=
  match value with
  | V_Null => VK_Null
  | V_Bool _ => VK_Bool
  | V_Int _ => VK_Int
  | V_Uint _ => VK_Uint
  | V_Double _ => VK_Double
  | V_String _ => VK_String
  | V_Bytes _ => VK_Bytes
  | V_List _ => VK_List
  | V_Map _ => VK_Map
  end.

(** [MakeUint]: a value of the signed range is stored as a signed value. *)
Definition MakeUint (v : Z) : Value := if v <=? INT64_MAX then V_Int v else V_Uint v.

Definition TryMakeDouble (v : Double) : option Value :=
  if negb (is_finite v) then None else Some (V_Double v).

Definition is_null (value : Value) : bool := match value with V_Null => true | _ => false end.
Definition is_container (value : Value) : bool :=
  match value with V_List _ | V_Map _ => true | _ => false end.
Definition is_scalar (value : Value) : bool := negb (is_container value).

(** ** Canonical text *)

Definition FormatDouble (value : Double) : string :=
  let text := to_chars_general value in
  if existsb (fun c => Ascii.eqb c "." || Ascii.eqb c "e" || Ascii.eqb c "E")
       (list_ascii_of_string text)
  then text else text +:+ ".0".

Fixpoint concat_strings (l : list string) : string :=
  match l with [] => "" | s :: l' => s +:+ concat_strings l' end.

Fixpoint AppendCanonical (value : Value) (depth : Z) : string :=
  if kHardRecursionLimit <? depth then "!depth"
  else
    match value with
    | V_Null => "n"
    | V_Bool b => if b then "t" else "f"
    | V_Int v => "i" +:+ to_string_signed v
    | V_Uint v => "u" +:+ to_string_unsigned v
    | V_Double v => "d" +:+ FormatDouble v
    | V_String text => "s" +:+ to_string_unsigned (ssize text) +:+ ":" +:+ text
    | V_Bytes bytes => "b" +:+ to_string_unsigned (vsize bytes) +:+ ":" +:+ ToHex bytes
    | V_List l =>
        "l" +:+ to_string_unsigned (vsize l) +:+ "[" +:+
        concat_strings (map (fun element => AppendCanonical element (depth + 1) +:+ ";") l) +:+ "]"
    | V_Map m =>
        "m" +:+ to_string_unsigned (vsize m) +:+ "{" +:+
        (fix entries (first : bool) (m : list (string * Value)) : string :=
           match m with
           | [] => ""
           | (key, v) :: m' =>
               (if first then "" else ",") +:+ to_string_unsigned (ssize key) +:+ ":" +:+ key +:+
               "=" +:+ AppendCanonical v (depth + 1) +:+ entries false m'
           end) true m +:+ "}"
    end.

Definition ToCanonicalText (value : Value) : string := AppendCanonical value 0.
Definition ToDisplayText (value : Value) (max_bytes : Z) : string :=
  truncate_with max_bytes "..." (ToCanonicalText value).

(** ** Digest *)

Fixpoint HashValue (hasher : Sha256) (value : Value) (depth : Z) : Sha256 :=
  if kHardRecursionLimit <? depth then UpdateTag hasher "!depth"
  else
    let hasher := UpdateByte hasher (code (kind value)) in
    match value with
    | V_Null => hasher
    | V_Bool b => UpdateByte hasher (if b then 1 else 0)
    | V_Int v => UpdateU64 hasher (to_u64 v)
    | V_Uint v => UpdateU64 hasher v
    | V_Double v => UpdateU64 hasher (double_bits v)
    | V_String text => UpdateLengthPrefixed hasher text
    | V_Bytes bytes => Update (UpdateU64 hasher (vsize bytes)) bytes
    | V_List l =>
        foldl (fun h element => HashValue h element (depth + 1)) (UpdateU64 hasher (vsize l)) l
    | V_Map m =>
        foldl (fun h entry => HashValue (UpdateLengthPrefixed h (fst entry)) (snd entry) (depth + 1))
          (UpdateU64 hasher (vsize m)) m
    end.

Definition HashInto (hasher : Sha256) (value : Value) : Sha256 := HashValue hasher value 0.
Definition DigestOf (value : Value) : Digest := Final (HashInto Sha256_init value).

(** ** Counts *)

Definition sum_by {A} (f : A -> Z) (l : list A) : Z := foldl (fun total x => total + f x) 0 l.

Fixpoint CountNodes (value : Value) (depth : Z) : Z :=
  if kHardRecursionLimit <? depth then 1
  else
    match value with
    | V_List l => 1 + sum_by (fun element => CountNodes element (depth + 1)) l
    | V_Map m => 1 + sum_by (fun entry => CountNodes (snd entry) (depth + 1)) m
    | _ => 1
    end.

Fixpoint CountDepth (value : Value) (depth : Z) : Z :=
  if kHardRecursionLimit <? depth then depth
  else
    match value with
    | V_List l =>
        foldl (fun deepest element => Z.max deepest (CountDepth element (depth + 1))) depth l
    | V_Map m =>
        foldl (fun deepest entry => Z.max deepest (CountDepth (snd entry) (depth + 1))) depth m
    | _ => depth
    end.

Fixpoint MeasureBytes (value : Value) (depth total : Z) : Z :=
  if kHardRecursionLimit <? depth then total
  else
    let total := total + kNodeOverheadBytes in
    match value with
    | V_String text => total + ssize text
    | V_Bytes bytes => total + vsize bytes
    | V_List l =>
        foldl (fun total element => MeasureBytes element (depth + 1) total)
          (total + kContainerOverheadBytes) l
    | V_Map m =>
        foldl (fun total entry =>
                 MeasureBytes (snd entry) (depth + 1)
                   (total + (ssize (fst entry) + kNodeOverheadBytes)))
          (total + kContainerOverheadBytes) m
    | _ => total
    end.

Definition NodeCount (value : Value) : Z := CountNodes value 0.
Definition MaxDepth (value : Value) : Z := CountDepth value 0.
Definition ApproximateBytes (value : Value) : Z := MeasureBytes value 0 0.

(** ** UTF-8 *)

(** The lead byte of a multi-byte sequence: continuation count, payload bits. *)
Definition utf8_lead (lead : Z) : option (nat * Z) :=
  if Z.land lead 0xE0 =? 0xC0 then
    if Z.land lead 0x1F =? 0 then None else Some (1%nat, Z.land lead 0x1F)
  else if Z.land lead 0xF0 =? 0xE0 then Some (2%nat, Z.land lead 0x0F)
  else if Z.land lead 0xF8 =? 0xF0 then Some (3%nat, Z.land lead 0x07)
  else None.

Fixpoint utf8_continue (extra : nat) (codepoint : Z) (bytes : list Z) : option (Z * list Z) :=
  match extra with
  | O => Some (codepoint, bytes)
  | S extra' =>
      match bytes with
      | [] => None
      | continuation :: rest =>
          if negb (Z.land continuation 0xC0 =? 0x80) then None
          else utf8_continue extra'
                 (Z.lor (Z.shiftl codepoint 6) (Z.land continuation 0x3F)) rest
      end
  end.

(** The overlong, range and surrogate tests. *)
Definition utf8_codepoint_ok (extra : nat) (codepoint : Z) : bool :=
  if (extra =? 1)%nat && (codepoint <? 0x80) then false
  else if (extra =? 2)%nat && (codepoint <? 0x800) then false
  else if (extra =? 3)%nat && (codepoint <? 0x10000) then false
  else if 0x10FFFF <? codepoint then false
  else negb ((0xD800 <=? codepoint) && (codepoint <=? 0xDFFF)).

Fixpoint utf8_loop (fuel : nat) (bytes : list Z) : bool :=
  match fuel with
  | O => match bytes with [] => true | _ => false end
  | S fuel' =>
      match bytes with
      | [] => true
      | lead :: rest =>
          if lead <? 0x80 then utf8_loop fuel' rest
          else match utf8_lead lead with
               | None => false
               | Some (extra, codepoint) =>
                   match utf8_continue extra codepoint rest with
                   | None => false
                   | Some (codepoint, rest) =>
                       if utf8_codepoint_ok extra codepoint then utf8_loop fuel' rest else false
                   end
               end
      end
  end.

(** Every step consumes a byte: the size is enough fuel. *)
Definition IsValidUtf8 (text : string) : bool := utf8_loop (String.length text) (string_bytes text).

(** ** Validation *)

Section Validate.
Variable limits : RuntimeLimits.

Fixpoint ValidateValue (value : Value) (depth : Z) : Status :=
  if (max_value_depth limits <? depth) || (kHardRecursionLimit <? depth)
  then Status_Limit RC_LimitDepthExceeded "value nesting exceeds the envelope"
  else
    match value with
    | V_String text =>
        if max_leaf_bytes limits <? ssize text
        then Status_Limit RC_LimitBytesExceeded "string leaf exceeds the envelope"
        else if negb (IsValidUtf8 text)
        then Status_Rejected RC_EncodingInvalidUtf8 "string leaf is not UTF-8"
        else Status_Ok
    | V_Bytes bytes =>
        if max_leaf_bytes limits <? vsize bytes
        then Status_Limit RC_LimitBytesExceeded "byte leaf exceeds the envelope"
        else Status_Ok
    | V_List l =>
        if max_value_nodes limits <? vsize l
        then Status_Limit RC_LimitObjectsExceeded "sequence exceeds the envelope"
        else for_status (fun element => ValidateValue element (depth + 1)) l
    | V_Map m =>
        if max_value_nodes limits <? vsize m
        then Status_Limit RC_LimitFieldsExceeded "member set exceeds the envelope"
        else for_status (fun entry =>
               if max_leaf_bytes limits <? ssize (fst entry)
               then Status_Limit RC_LimitBytesExceeded "member name exceeds the envelope"
               else if negb (IsValidUtf8 (fst entry))
               then Status_Rejected RC_EncodingInvalidUtf8 "member name is not UTF-8"
               else ValidateValue (snd entry) (depth + 1)) m
    | _ => Status_Ok
    end.

(** [Value::Validate]. *)
Definition Value_Validate (value : Value) : Status :=
  if max_value_nodes limits <? NodeCount value
  then Status_Limit RC_LimitObjectsExceeded "value node count exceeds the envelope"
  else ValidateValue value 0.
End Validate.

(** ** Equality and order *)

Definition bool_code (b : bool) : Z := if b then 1 else 0.

(** [operator==]: the variants hold the same kind and equal alternatives. *)
Fixpoint Value_eq (lhs rhs : Value) : bool :=
  match lhs, rhs with
  | V_Null, V_Null => true
  | V_Bool a, V_Bool b => Bool.eqb a b
  | V_Int a, V_Int b => a =? b
  | V_Uint a, V_Uint b => a =? b
  | V_Double a, V_Double b => SFeqb a b
  | V_String a, V_String b => eqb a b
  | V_Bytes a, V_Bytes b => eqb a b
  | V_List a, V_List b =>
      (fix go (a b : list Value) : bool :=
         match a, b with
         | [], [] => true
         | x :: a', y :: b' => Value_eq x y && go a' b'
         | _, _ => false
         end) a b
  | V_Map a, V_Map b =>
      (fix go (a b : list (string * Value)) : bool :=
         match a, b with
         | [], [] => true
         | (k, x) :: a', (k', y) :: b' => (eqb k k' && Value_eq x y) && go a' b'
         | _, _ => false
         end) a b
  | _, _ => false
  end.

(** [operator<=>]. *)
Fixpoint Value_compare (lhs rhs : Value) : comparison :=
  match lhs, rhs with
  | V_Null, V_Null => Eq
  | V_Bool a, V_Bool b => compare (bool_code a) (bool_code b)
  | V_Int a, V_Int b => compare a b
  | V_Uint a, V_Uint b => compare a b
  | V_Double a, V_Double b => if SFltb a b then Lt else if SFltb b a then Gt else Eq
  | V_String a, V_String b => compare a b
  | V_Bytes a, V_Bytes b => compare a b
  | V_List a, V_List b =>
      (fix go (a b : list Value) : comparison :=
         match a, b with
         | [], [] => Eq
         | [], _ :: _ => Lt
         | _ :: _, [] => Gt
         | x :: a', y :: b' => then_cmp (Value_compare x y) (go a' b')
         end) a b
  | V_Map a, V_Map b =>
      (fix go (a b : list (string * Value)) : comparison :=
         match a, b with
         | [], [] => Eq
         | [], _ :: _ => Lt
         | _ :: _, [] => Gt
         | (k, x) :: a', (k', y) :: b' =>
             then_cmp (then_cmp (compare k k') (Value_compare x y)) (go a' b')
         end) a b
  | _, _ => compare (kind lhs) (kind rhs)
  end.

(** ** Comparison under a numeric equivalence *)

Definition is_numeric (value : Value) : bool :=
  match value with V_Int _ | V_Uint _ | V_Double _ => true | _ => false end.

(** An integral double in the signed, respectively unsigned, 64-bit range. *)
Definition double_equals_int (other : Double) (v : Z) : bool :=
  is_finite other && is_integral other && (INT64_MIN <=? truncate other) &&
  (truncate other <? 9223372036854775808) && (truncate other =? v).
Definition double_equals_uint (other : Double) (v : Z) : bool :=
  is_finite other && is_integral other && (0 <=? truncate other) &&
  (truncate other <? 18446744073709551616) && (truncate other =? v).

(** [RelateNumerics(lhs, rhs, equal)]; [None] when it returns false. *)
Definition RelateNumerics (lhs rhs : Value) : option bool :=
  match lhs, rhs with
  | V_Int a, V_Int b => Some (a =? b)
  | V_Uint a, V_Uint b => Some (a =? b)
  | V_Int a, V_Uint b => Some ((0 <=? a) && (to_u64 a =? b))
  | V_Uint a, V_Int b => Some ((0 <=? b) && (to_u64 b =? a))
  | V_Double a, V_Double b => Some (SFeqb a b)
  | V_Int a, V_Double b => Some (double_equals_int b a)
  | V_Double a, V_Int b => Some (double_equals_int a b)
  | V_Uint a, V_Double b => Some (double_equals_uint b a)
  | V_Double a, V_Uint b => Some (double_equals_uint a b)
  | _, _ => None
  end.

Definition relation_of (equal : bool) : ValueRelation := if equal then VR_Equal else VR_Different.

Section Relate.
Variable equivalence : NumericEquivalence.

(** The loop over two sequences of related pairs of values. *)
Fixpoint relate_all (relations : list ValueRelation) (incomparable : bool) : ValueRelation :=
  match relations with
  | [] => if incomparable then VR_Incomparable else VR_Equal
  | VR_Different :: _ => VR_Different
  | VR_Incomparable :: rest => relate_all rest true
  | VR_Equal :: rest => relate_all rest incomparable
  end.

(** The numeric branch: a relation when both sides are numbers. *)
Definition relate_numbers (lhs rhs : Value) : option ValueRelation :=
  if is_numeric lhs && is_numeric rhs then
    if eqb equivalence NE_Exact && negb (eqb (kind lhs) (kind rhs)) then Some VR_Different
    else match RelateNumerics lhs rhs with
         | Some equal => Some (relation_of equal)
         | None => None
         end
  else None.

Fixpoint RelateValuesAt (lhs rhs : Value) (depth : Z) : ValueRelation :=
  if kHardRecursionLimit <? depth then VR_Incomparable
  else
    match relate_numbers lhs rhs with
    | Some relation => relation
    | None =>
        match lhs, rhs with
        | V_Null, V_Null => VR_Equal
        | V_Bool a, V_Bool b => relation_of (Bool.eqb a b)
        | V_String a, V_String b => relation_of (eqb a b)
        | V_Bytes a, V_Bytes b => relation_of (eqb a b)
        | V_List ls, V_List rs =>
            if negb (vsize ls =? vsize rs) then VR_Different
            else
              relate_all
                ((fix go (l r : list Value) : list ValueRelation :=
                    match l, r with
                    | x :: l', y :: r' => RelateValuesAt x y (depth + 1) :: go l' r'
                    | _, _ => []
                    end) ls rs) false
        | V_Map ls, V_Map rs =>
            if negb (vsize ls =? vsize rs) then VR_Different
            else
              relate_all
                ((fix go (l r : list (string * Value)) : list ValueRelation :=
                    match l, r with
                    | (k, x) :: l', (k', y) :: r' =>
                        if negb (eqb k k') then [VR_Different]
                        else RelateValuesAt x y (depth + 1) :: go l' r'
                    | _, _ => []
                    end) ls rs) false
        | _, _ => VR_Incomparable
        end
    end.

Definition RelateValues (lhs rhs : Value) : ValueRelation := RelateValuesAt lhs rhs 0.
End Relate.

Lemma sum_by_cons {A} (f : A -> Z) x l : sum_by f (x :: l) = f x + sum_by f l.
Proof.
  unfold sum_by. assert (Hg : forall k total, foldl (fun total x => total + f x) total k =
    total + foldl (fun total x => total + f x) 0 k).
  { induction k as [|y k IH]; intros total; cbn [foldl]; [lia|]. rewrite (IH (total + f y)), (IH (0 + f y)). lia. }
  cbn [foldl]. rewrite Hg. lia.
Qed.

(** ** Facts: induction and unfolding *)

Section ValueInd.
Variable P : Value -> Prop.
Hypothesis Hnull : P V_Null.
Hypothesis Hbool : forall b, P (V_Bool b).
Hypothesis Hint : forall z, P (V_Int z).
Hypothesis Huint : forall z, P (V_Uint z).
Hypothesis Hdouble : forall f, P (V_Double f).
Hypothesis Hstring : forall s, P (V_String s).
Hypothesis Hbytes : forall l, P (V_Bytes l).
Hypothesis Hlist : forall l, Forall P l -> P (V_List l).
Hypothesis Hmap : forall m, Forall (fun e => P (snd e)) m -> P (V_Map m).

(** Induction through the elements of lists and maps. *)
Fixpoint Value_nested_ind (v : Value) : P v :=
  match v with
  | V_Null => Hnull
  | V_Bool b => Hbool b
  | V_Int z => Hint z
  | V_Uint z => Huint z
  | V_Double f => Hdouble f
  | V_String s => Hstring s
  | V_Bytes l => Hbytes l
  | V_List l =>
      Hlist l ((fix all (l : list Value) : Forall P l :=
        match l with
        | [] => Forall_nil_2 P
        | x :: l' => Forall_cons_2 P x l' (Value_nested_ind x) (all l')
        end) l)
  | V_Map m =>
      Hmap m ((fix all (m : list (string * Value)) : Forall (fun e => P (snd e)) m :=
        match m with
        | [] => Forall_nil_2 _
        | (k, x) :: m' => Forall_cons_2 _ (k, x) m' (Value_nested_ind x) (all m')
        end) m)
  end.
End ValueInd.

(** A value the factories build: integers in range with one kind per number,
    finite doubles, maps in key order, sizes that fit a [std::size_t]. *)
Fixpoint value_ok (value : Value) : Prop :=
  match value with
  | V_Null | V_Bool _ => True
  | V_Int z => is_i64 z
  | V_Uint z => INT64_MAX < z <= UINT64_MAX
  | V_Double f => is_finite f = true /\ valid_double f
  | V_String s => is_u64 (ssize s)
  | V_Bytes l => is_u64 (vsize l) /\ Forall is_byte l
  | V_List l => is_u64 (vsize l) /\ foldr (fun x Q => value_ok x /\ Q) True l
  | V_Map m =>
      is_u64 (vsize m) /\ msorted m /\
      foldr (fun e Q => (is_u64 (ssize (fst e)) /\ value_ok (snd e)) /\ Q) True m
  end.

Lemma foldr_and_Forall {A} (Q : A -> Prop) l : foldr (fun x P => Q x /\ P) True l <-> Forall Q l.
Proof. induction l; cbn; [done|]. by rewrite Forall_cons, IHl. Qed.

Definition list_eq_by {A} (f : A -> A -> bool) : list A -> list A -> bool :=
  fix go a b := match a, b with
                | [], [] => true
                | x :: a', y :: b' => f x y && go a' b'
                | _, _ => false
                end.

Lemma list_eq_by_spec {A} (f : A -> A -> bool) a b :
  list_eq_by f a b = true <-> Forall2 (fun x y => f x y = true) a b.
Proof.
  revert b. induction a as [|x a IH]; intros [|y b]; cbn.
  - split; [constructor | done].
  - split; [done | inversion 1].
  - split; [done | inversion 1].
  - rewrite andb_true_iff, IH. split; [intros []; by constructor | by inversion 1].
Qed.

Definition entry_eq (a b : string * Value) : bool := eqb a.1 b.1 && Value_eq a.2 b.2.

Lemma Value_eq_list a b : Value_eq (V_List a) (V_List b) = list_eq_by Value_eq a b.
Proof. reflexivity. Qed.

Lemma Value_eq_map a b : Value_eq (V_Map a) (V_Map b) = list_eq_by entry_eq a b.
Proof.
  revert b. induction a as [|[k x] a IH]; intros [|[k' y] b]; [done..|].
  specialize (IH b). cbn in IH |- *. by rewrite IH.
Qed.

Definition relate_list (e : NumericEquivalence) (d : Z) : list Value -> list Value -> list ValueRelation :=
  fix go l r := match l, r with
                | x :: l', y :: r' => RelateValuesAt e x y d :: go l' r'
                | _, _ => []
                end.

Definition relate_map (e : NumericEquivalence) (d : Z)
    : list (string * Value) -> list (string * Value) -> list ValueRelation :=
  fix go l r := match l, r with
                | (k, x) :: l', (k', y) :: r' =>
                    if negb (eqb k k') then [VR_Different]
                    else RelateValuesAt e x y d :: go l' r'
                | _, _ => []
                end.

Lemma RelateValuesAt_list e l r d : (kHardRecursionLimit <? d) = false ->
  RelateValuesAt e (V_List l) (V_List r) d =
  if negb (vsize l =? vsize r) then VR_Different else relate_all (relate_list e (d + 1) l r) false.
Proof. intros Hd. cbn [RelateValuesAt]. rewrite Hd. reflexivity. Qed.

Lemma RelateValuesAt_map e l r d : (kHardRecursionLimit <? d) = false ->
  RelateValuesAt e (V_Map l) (V_Map r) d =
  if negb (vsize l =? vsize r) then VR_Different else relate_all (relate_map e (d + 1) l r) false.
Proof. intros Hd. cbn [RelateValuesAt]. rewrite Hd. reflexivity. Qed.

Lemma relate_all_equal l b : relate_all l b = VR_Equal <-> b = false /\ Forall (eq VR_Equal) l.
Proof.
  revert b. induction l as [|[] l IH]; intros b; cbn.
  - destruct b; naive_solver.
  - rewrite IH, Forall_cons. naive_solver.
  - rewrite Forall_cons. naive_solver.
  - rewrite IH, Forall_cons. naive_solver.
Qed.

Lemma vsize_eqb {A B} (l : list A) (m : list B) : (vsize l =? vsize m) = true <-> length l = length m.
Proof. unfold vsize. rewrite Z.eqb_eq. lia. Qed.

Lemma foldl_max_le {A} (f : A -> Z) l d b :
  foldl (fun deepest x => Z.max deepest (f x)) d l <= b <-> d <= b /\ Forall (fun x => f x <= b) l.
Proof.
  revert d. induction l as [|x l IH]; intros d; cbn; [rewrite Forall_nil; tauto|].
  rewrite IH, Forall_cons. split; [intros [? ?] | intros (? & ? & ?)]; repeat split; auto; lia.
Qed.

(** ** Facts: relating values *)

Lemma double_equals_int_sym f z :
  double_equals_int f z = true -> truncate f = z /\ is_integral f = true.
Proof. unfold double_equals_int. intros. breflect. by split. Qed.

Lemma RelateNumerics_sym l r : RelateNumerics l r = RelateNumerics r l.
Proof.
  destruct l, r; cbn; try done; f_equal; try apply Z.eqb_sym. apply SFeqb_sym.
Qed.

Lemma relate_list_sym e d l r :
  Forall (fun x => forall y, RelateValuesAt e x y d = RelateValuesAt e y x d) l ->
  relate_list e d l r = relate_list e d r l.
Proof.
  intros Hl. revert r. induction Hl as [|x l Hx _ IH]; intros [|y r]; cbn; try done.
  by rewrite Hx, IH.
Qed.

Lemma relate_map_sym e d l r :
  Forall (fun x => forall y, RelateValuesAt e (snd x) y d = RelateValuesAt e y (snd x) d) l ->
  relate_map e d l r = relate_map e d r l.
Proof.
  intros Hl. revert r. induction Hl as [|[k x] l Hx _ IH]; intros [|[k' y] r]; cbn; try done.
  rewrite (eqb_sym k' k). cbn in Hx. by rewrite Hx, IH.
Qed.

Lemma relate_numbers_sym e l r : relate_numbers e l r = relate_numbers e r l.
Proof.
  unfold relate_numbers. by rewrite andb_comm, (eqb_sym (kind l)), RelateNumerics_sym.
Qed.

Lemma RelateValuesAt_sym e l r d : RelateValuesAt e l r d = RelateValuesAt e r l d.
Proof.
  revert r d. induction l as [| b | z | z | f | s | bs | l IH | m IH] using Value_nested_ind;
    intros r d; destruct (kHardRecursionLimit <? d) eqn:Hd;
    try (destruct r; cbn [RelateValuesAt]; by rewrite Hd).
  all: lazymatch goal with
       | |- RelateValuesAt _ (V_List _) _ _ = _ =>
           destruct r as [| | | | | | |r|]; try (cbn [RelateValuesAt]; by rewrite Hd);
           rewrite !RelateValuesAt_list, (Z.eqb_sym (vsize r)), relate_list_sym; try done;
           (eapply Forall_impl; [exact IH|]; auto)
       | |- RelateValuesAt _ (V_Map _) _ _ = _ =>
           destruct r as [| | | | | | | |r]; try (cbn [RelateValuesAt]; by rewrite Hd);
           rewrite !RelateValuesAt_map, (Z.eqb_sym (vsize r)), relate_map_sym; try done;
           (eapply Forall_impl; [exact IH|]; auto)
       | |- _ => idtac
       end.
  all: destruct r; cbn [RelateValuesAt]; rewrite Hd, relate_numbers_sym;
    destruct (relate_numbers _ _ _); try done.
  - by destruct b, v.
  - by rewrite eqb_sym.
  - by rewrite eqb_sym.
Qed.

Lemma relation_of_equal b : relation_of b = VR_Equal <-> b = true.
Proof. by destruct b. Qed.

Lemma CountDepth_list l d : (kHardRecursionLimit <? d) = false ->
  CountDepth (V_List l) d = foldl (fun deepest x => Z.max deepest (CountDepth x (d + 1))) d l.
Proof. intros Hd. cbn [CountDepth]. by rewrite Hd. Qed.

Lemma CountDepth_map m d : (kHardRecursionLimit <? d) = false ->
  CountDepth (V_Map m) d = foldl (fun deepest e => Z.max deepest (CountDepth (snd e) (d + 1))) d m.
Proof. intros Hd. cbn [CountDepth]. by rewrite Hd. Qed.

Lemma CountDepth_ge v d : d <= CountDepth v d.
Proof.
  assert (Hfold : forall A (f : A -> Z) l, d <= foldl (fun deepest x => Z.max deepest (f x)) d l).
  { intros A f l. by apply (proj1 (foldl_max_le f l d (foldl (fun deepest x => Z.max deepest (f x)) d l))). }
  destruct v; cbn [CountDepth]; destruct (_ <? d); try lia; apply Hfold.
Qed.

(** Structural equality within the depth guard is equality under either equivalence. *)
Lemma Value_eq_relates e l r d : Value_eq l r = true -> CountDepth l d <= kHardRecursionLimit ->
  RelateValuesAt e l r d = VR_Equal.
Proof.
  revert r d. induction l as [| b | z | z | f | s | bs | l IH | m IH] using Value_nested_ind;
    intros r d Heq Hdepth;
    assert (Hd : (kHardRecursionLimit <? d) = false)
      by (apply Z.ltb_ge; etransitivity; [apply CountDepth_ge | exact Hdepth]).
  8: { destruct r as [| | | | | | |r|]; try done. rewrite Value_eq_list, list_eq_by_spec in Heq.
       rewrite CountDepth_list, foldl_max_le in Hdepth by done.
       rewrite RelateValuesAt_list by done.
       rewrite (proj2 (vsize_eqb l r)) by (by eapply Forall2_length). cbn [negb].
       apply relate_all_equal. split; [done|]. destruct Hdepth as [_ Hdepth]. clear Hd.
       induction Heq as [|x y l r Hxy _ IHl]; cbn; [constructor|].
       apply Forall_cons in IH as [IHx IH], Hdepth as [Hx Hdepth].
       constructor; [symmetry; by apply IHx | by apply IHl]. }
  8: { destruct r as [| | | | | | | |r]; try done. rewrite Value_eq_map, list_eq_by_spec in Heq.
       rewrite CountDepth_map, foldl_max_le in Hdepth by done.
       rewrite RelateValuesAt_map by done.
       rewrite (proj2 (vsize_eqb m r)) by (by eapply Forall2_length). cbn [negb].
       apply relate_all_equal. split; [done|]. destruct Hdepth as [_ Hdepth]. clear Hd.
       induction Heq as [|[k x] [k' y] l r Hxy _ IHl]; cbn; [constructor|].
       apply Forall_cons in IH as [IHx IH], Hdepth as [Hx Hdepth].
       unfold entry_eq in Hxy. cbn in Hxy, IHx, Hx. breflect. rewrite H. cbn [negb].
       constructor; [symmetry; by apply IHx | by apply IHl]. }
  all: destruct r; try done; cbn [Value_eq] in Heq; cbn [RelateValuesAt]; rewrite Hd;
    unfold relate_numbers; cbn [is_numeric andb RelateNumerics kind];
    rewrite ?eqb_refl, ?andb_false_r, ?Heq; done.
Qed.

Lemma and_middle (A B C : Prop) : B -> A /\ C -> A /\ (B /\ C).
Proof. tauto. Qed.

(** Equality under [Exact] is structural equality within the depth guard. *)
Lemma relates_exact_eq l r d : RelateValuesAt NE_Exact l r d = VR_Equal ->
  Value_eq l r = true /\ CountDepth l d <= kHardRecursionLimit.
Proof.
  revert r d. induction l as [| b | z | z | f | s | bs | l IH | m IH] using Value_nested_ind;
    intros r d; destruct (kHardRecursionLimit <? d) eqn:Hd;
    try (destruct r; cbn [RelateValuesAt]; by rewrite Hd).
  8: { destruct r as [| | | | | | |r|]; try (cbn [RelateValuesAt]; by rewrite Hd).
       rewrite RelateValuesAt_list by done. destruct (vsize l =? vsize r) eqn:Hs; [|done]. cbn [negb].
       rewrite relate_all_equal. intros [_ Hall]. apply vsize_eqb in Hs.
       rewrite Value_eq_list, list_eq_by_spec, CountDepth_list, foldl_max_le by done.
       breflect. apply and_middle; [done|].
       clear Hd. revert r Hs Hall. induction IH as [|x l Hx _ IHl]; intros [|y r] Hs Hall; try done.
       cbn in Hall. apply Forall_cons in Hall as [Hxy Hall].
       symmetry in Hxy. apply Hx in Hxy as [H1 H2].
       destruct (IHl r) as [H3 H4]; [by injection Hs|done|]. by split; constructor. }
  8: { destruct r as [| | | | | | | |r]; try (cbn [RelateValuesAt]; by rewrite Hd).
       rewrite RelateValuesAt_map by done. destruct (vsize m =? vsize r) eqn:Hs; [|done]. cbn [negb].
       rewrite relate_all_equal. intros [_ Hall]. apply vsize_eqb in Hs.
       rewrite Value_eq_map, list_eq_by_spec, CountDepth_map, foldl_max_le by done.
       breflect. apply and_middle; [done|].
       clear Hd. revert r Hs Hall.
       induction IH as [|[k x] l Hx _ IHl]; intros [|[k' y] r] Hs Hall; try done.
       cbn in Hall. destruct (eqb k k') eqn:Ek; [|by apply Forall_cons in Hall as [? _]].
       cbn in Hall. apply Forall_cons in Hall as [Hxy Hall].
       symmetry in Hxy. apply Hx in Hxy as [H1 H2].
       destruct (IHl r) as [H3 H4]; [by injection Hs|done|].
       split; constructor; try done. unfold entry_eq. cbn. by rewrite Ek. }
  all: destruct r; cbn [RelateValuesAt]; rewrite ?Hd; try done;
    unfold relate_numbers; cbn [is_numeric andb RelateNumerics kind]; rewrite ?eqb_refl;
    cbn [andb negb]; rewrite ?relation_of_equal; try done; cbn [Value_eq CountDepth]; rewrite ?Hd;
    breflect; intros; repeat split; try done; apply Z.ltb_ge in Hd; done.
Qed.

(** ** Facts: the digest's pre-image *)

(** The bytes [HashValue] feeds to the hasher. *)
Fixpoint value_preimage (value : Value) (depth : Z) : list Z :=
  if kHardRecursionLimit <? depth then length_prefixed "!depth"
  else
    (code (kind value) ::
     match value with
     | V_Null => []
     | V_Bool b => [if b then 1 else 0]
     | V_Int v => be64 (to_u64 v)
     | V_Uint v => be64 v
     | V_Double v => be64 (double_bits v)
     | V_String text => length_prefixed text
     | V_Bytes bytes => be64 (vsize bytes) ++ bytes
     | V_List l => be64 (vsize l) ++ flat_map (fun x => value_preimage x (depth + 1)) l
     | V_Map m =>
         be64 (vsize m) ++
         flat_map (fun e => length_prefixed (fst e) ++ value_preimage (snd e) (depth + 1)) m
     end)%list.

Lemma foldl_absorbed {A} (f : Sha256 -> A -> Sha256) (g : A -> list Z) l m :
  Forall (fun x => forall m, f (absorbed m) x = absorbed (m ++ g x)) l ->
  foldl f (absorbed m) l = absorbed (m ++ flat_map g l).
Proof.
  intros Hl. revert m. induction Hl as [|x l Hx _ IH]; intros m; cbn; [by rewrite app_nil_r|].
  by rewrite Hx, IH, app_assoc.
Qed.

Lemma HashValue_absorbed v m d : HashValue (absorbed m) v d = absorbed (m ++ value_preimage v d).
Proof.
  revert m d. induction v as [| b | z | z | f | s | bs | l IH | l IH] using Value_nested_ind;
    intros m d; cbn [HashValue value_preimage]; destruct (_ <? d);
    autorewrite with sha; try done; try (by rewrite <- ?app_assoc).
  - rewrite (foldl_absorbed _ (fun x => value_preimage x (d + 1))); [by rewrite <- ?app_assoc|].
    eapply Forall_impl; [exact IH|]. auto.
  - rewrite (foldl_absorbed _ (fun e => length_prefixed (fst e) ++ value_preimage (snd e) (d + 1))%list);
      [by rewrite <- ?app_assoc|].
    eapply Forall_impl; [exact IH|]. intros [k x] Hx m'. autorewrite with sha. rewrite Hx. cbn.
    by rewrite <- app_assoc.
Qed.

#[export] Hint Rewrite HashValue_absorbed : sha.

Lemma DigestOf_preimage v : DigestOf v = sha256_spec (value_preimage v 0).
Proof. unfold DigestOf, HashInto. by autorewrite with sha. Qed.

Lemma to_u64_inj a b : is_i64 a -> is_i64 b -> to_u64 a = to_u64 b -> a = b.
Proof.
  unfold is_i64, INT64_MIN, INT64_MAX, to_u64, wrap64. intros.
  Z.to_euclidean_division_equations; lia.
Qed.

Lemma to_u64_range a : is_u64 (to_u64 a).
Proof.
  unfold to_u64, wrap64, is_u64, UINT64_MAX.
  pose proof (Z.mod_pos_bound a 18446744073709551616). lia.
Qed.

(** Concatenated self-delimiting encodings of equally many elements. *)
Lemma flat_map_inj {A} (g : A -> list Z) (Q : A -> Prop) l l' r s :
  Forall (fun x => forall y r s, Q y -> (g x ++ r = g y ++ s)%list -> x = y /\ r = s) l ->
  Forall Q l' -> length l = length l' ->
  (flat_map g l ++ r = flat_map g l' ++ s)%list -> l = l' /\ r = s.
Proof.
  intros Hl. revert l'. induction Hl as [|x l Hx _ IH]; intros [|y l'] HQ Hn; try done.
  cbn. rewrite <- !app_assoc. intros E. apply Forall_cons in HQ as [Hy HQ].
  apply Hx in E as [-> E]; [|done]. apply IH in E as [-> ->]; [done|done|by injection Hn].
Qed.

Definition hashable (v : Value) (d : Z) : Prop :=
  value_ok v /\ CountDepth v d <= kHardRecursionLimit.

Lemma hashable_list l d : hashable (V_List l) d ->
  is_u64 (vsize l) /\ d <= kHardRecursionLimit /\ Forall (fun x => hashable x (d + 1)) l.
Proof.
  intros [Hok Hd]. pose proof (CountDepth_ge (V_List l) d). cbn [value_ok] in Hok.
  rewrite foldr_and_Forall in Hok. rewrite CountDepth_list, foldl_max_le in Hd by (apply Z.ltb_ge; lia).
  destruct Hok as [Hs Hok], Hd as [Hd Hall]. split; [done|]. split; [done|].
  apply Forall_and. by split.
Qed.

Lemma hashable_map m d : hashable (V_Map m) d ->
  is_u64 (vsize m) /\ d <= kHardRecursionLimit /\
  Forall (fun e => is_u64 (ssize (fst e)) /\ hashable (snd e) (d + 1)) m.
Proof.
  intros [Hok Hd]. pose proof (CountDepth_ge (V_Map m) d). cbn [value_ok] in Hok.
  rewrite (foldr_and_Forall (fun e => is_u64 (ssize e.1) /\ value_ok e.2)) in Hok.
  rewrite CountDepth_map, foldl_max_le in Hd by (apply Z.ltb_ge; lia).
  destruct Hok as (Hs & _ & Hok), Hd as [Hd Hall]. split; [done|]. split; [done|].
  rewrite Forall_forall in *. intros e He. destruct (Hok e He) as [Hu Hv].
  split; [exact Hu|]. split; [exact Hv|]. by apply (Hall e).
Qed.

Lemma cons_inv {A} (x y : A) l m : x :: l = y :: m -> x = y /\ l = m.
Proof. naive_solver. Qed.

(** Peels one self-delimiting field off both sides of an equation of pre-images. *)
Ltac peel E :=
  let F := fresh "F" in
  lazymatch type of E with
  | (length_prefixed _ ++ _)%list = _ =>
      apply length_prefixed_app_inj in E as [F E]; [|assumption..]
  | (be64 _ ++ _)%list = _ =>
      apply be64_app_inj in E as [F E]; [|first [assumption | apply to_u64_range]..]
  | _ :: _ = _ => apply cons_inv in E as [F E]
  end.

(** The encoding is self-delimiting and injective on values within the guard. *)
Lemma value_preimage_inj v w d r s : hashable v d -> hashable w d ->
  (value_preimage v d ++ r = value_preimage w d ++ s)%list -> v = w /\ r = s.
Proof.
  intros Hv Hw. assert (Hd : (kHardRecursionLimit <? d) = false)
    by (apply Z.ltb_ge; destruct Hv; pose proof (CountDepth_ge v d); lia).
  revert w d r s Hv Hw Hd.
  induction v as [| b | z | z | f | t | bs | l IH | m IH] using Value_nested_ind;
    intros w d r s Hv Hw Hd;
    destruct w as [| b' | z' | z' | f' | t' | bs' | l' | m'];
    cbn [value_preimage kind code enum_ValueKind]; rewrite Hd; cbn [app];
    intros E; apply cons_inv in E as [E0 E]; try discriminate E0; clear E0;
    lazymatch type of Hv with
    | hashable (V_List _) _ => idtac
    | hashable (V_Map _) _ => idtac
    | _ => destruct Hv as [Hv _], Hw as [Hw _]; cbn [value_ok] in Hv, Hw
    end.
  - done.
  - apply cons_inv in E as [E ->]. by destruct b, b'.
  - apply be64_app_inj in E as [E ->]; auto using to_u64_range. by apply to_u64_inj in E as ->.
  - apply be64_app_inj in E as [-> ->]; [done|unfold is_u64, INT64_MAX in *; lia..].
  - destruct Hv, Hw. apply be64_app_inj in E as [E ->]; auto using double_bits_range.
    by apply double_bits_inj in E as ->.
  - by apply length_prefixed_app_inj in E as [-> ->].
  - destruct Hv as [Hv _], Hw as [Hw _]. rewrite <- !app_assoc in E.
    apply be64_app_inj in E as [En E]; [|done..].
    apply app_inj_1 in E as [-> ->]; [done|]. unfold vsize in En. lia.
  - apply hashable_list in Hv as (Hs & Hle & Hv), Hw as (Hs' & _ & Hw). rewrite <- !app_assoc in E.
    apply be64_app_inj in E as [En E]; [|done..].
    apply (flat_map_inj _ (fun x => hashable x (d + 1))) in E as [-> ->]; [done| |done|].
    + rewrite Forall_forall in *. intros x Hx y r' s' Hy. apply IH; auto.
      apply Z.ltb_ge. destruct Hy. pose proof (CountDepth_ge y (d + 1)). lia.
    + unfold vsize in En. lia.
  - apply hashable_map in Hv as (Hs & Hle & Hv), Hw as (Hs' & _ & Hw). rewrite <- !app_assoc in E.
    apply be64_app_inj in E as [En E]; [|done..].
    apply (flat_map_inj _ (fun e => is_u64 (ssize (fst e)) /\ hashable (snd e) (d + 1)))
      in E as [-> ->]; [done| |done|].
    + rewrite Forall_forall in *. intros [k x] Hx [k' y] r' s' [Hk Hy]. cbn.
      rewrite <- !app_assoc. intros Ee. destruct (Hv _ Hx) as [Hkx Hvx]. cbn in Hk, Hkx.
      apply length_prefixed_app_inj in Ee as [-> Ee]; [|done..].
      pose proof (IH _ Hx) as IHx. cbn in IHx. apply IHx in Ee as [-> ->]; auto.
      apply Z.ltb_ge. destruct Hy. pose proof (CountDepth_ge y (d + 1)). cbn in *. lia.
    + unfold vsize in En. lia.
Qed.

(** ** Facts: UTF-8 *)

Definition is_scalar_value (c : Z) : Prop := 0 <= c <= 0x10FFFF /\ ~ (0xD800 <= c <= 0xDFFF).

(** The encoding of RFC 3629, by arithmetic. *)
Definition utf8_encode (c : Z) : list Z :=
  if c <? 0x80 then [c]
  else if c <? 0x800 then [0xC0 + c / 64; 0x80 + c mod 64]
  else if c <? 0x10000 then [0xE0 + c / 4096; 0x80 + c / 64 mod 64; 0x80 + c mod 64]
  else [0xF0 + c / 262144; 0x80 + c / 4096 mod 64; 0x80 + c / 64 mod 64; 0x80 + c mod 64].

Lemma byte_enum (P : Z -> bool) b :
  forallb (fun i => P (Z.of_nat i)) (seq 0 256) = true -> is_byte b -> P b = true.
Proof.
  intros H [H0 H1]. rewrite forallb_forall in H. rewrite <- (Z2Nat.id b) by lia. apply H.
  apply in_seq. lia.
Qed.

Definition utf8_lead_arith (b : Z) : option (nat * Z) :=
  if b <=? 192 then None
  else if b <? 224 then Some (1%nat, b - 192)
  else if b <? 240 then Some (2%nat, b - 224)
  else if b <? 248 then Some (3%nat, b - 240)
  else None.

Lemma utf8_lead_eq b : is_byte b -> 128 <= b -> utf8_lead b = utf8_lead_arith b.
Proof.
  intros Hb Hge. pose proof (byte_enum
    (fun b => (b <? 128) || bool_decide (utf8_lead b = utf8_lead_arith b)) b) as H.
  specialize (H ltac:(vm_compute; reflexivity) Hb). cbv beta in H.
  apply orb_true_iff in H as [H|H]; [breflect; lia|]. by apply bool_decide_eq_true in H.
Qed.

Lemma continuation_eq c : is_byte c ->
  (Z.land c 0xC0 =? 0x80) = ((128 <=? c) && (c <? 192)) /\
  (128 <= c < 192 -> Z.land c 0x3F = c - 128).
Proof.
  intros Hc. pose proof (byte_enum (fun c =>
    Bool.eqb (Z.land c 0xC0 =? 0x80) ((128 <=? c) && (c <? 192)) &&
    (negb ((128 <=? c) && (c <? 192)) || (Z.land c 0x3F =? c - 128))) c) as H.
  specialize (H ltac:(vm_compute; reflexivity) Hc). cbv beta in H.
  apply andb_true_iff in H as [H1 H2]. apply eqb_prop in H1. split; [done|].
  intros Hr. apply orb_true_iff in H2 as [H2|H2]; [|by apply Z.eqb_eq].
  rewrite (proj2 (Z.leb_le _ _)), (proj2 (Z.ltb_lt _ _)) in H2 by lia. done.
Qed.

Lemma lor_shift6 c x : 0 <= x < 64 -> Z.lor (Z.shiftl c 6) x = c * 64 + x.
Proof.
  intros Hx. apply Z.bits_inj'. intros n Hn. rewrite Z.lor_spec.
  destruct (Z.ltb_spec n 6).
  - rewrite Z.shiftl_spec_low by lia. cbn [orb].
    rewrite <- (Z.mod_pow2_bits_low (c * 64 + x) 6 n) by lia. f_equal.
    rewrite Z.add_comm. change (2 ^ 6) with 64. by rewrite Z.mod_add, Z.mod_small by lia.
  - rewrite Z.shiftl_spec_high by lia.
    assert (Z.testbit x n = false) as ->.
    { rewrite <- (Z.mod_small x (2 ^ 6)) by (change (2 ^ 6) with 64; lia).
      by apply Z.mod_pow2_bits_high; lia. }
    rewrite orb_false_r. replace n with (n - 6 + 6) at 2 by lia.
    rewrite <- Z.div_pow2_bits by lia. f_equal. change (2 ^ 6) with 64.
    rewrite Z.div_add_l, (Z.div_small x) by lia. lia.
Qed.

(** One continuation step, by arithmetic. *)
Lemma utf8_continue_step extra cp c rest : is_byte c ->
  utf8_continue (S extra) cp (c :: rest) =
  if (128 <=? c) && (c <? 192) then utf8_continue extra (cp * 64 + (c - 128)) rest else None.
Proof.
  intros Hc. cbn [utf8_continue]. destruct (continuation_eq c Hc) as [-> Hl].
  destruct ((128 <=? c) && (c <? 192)) eqn:E; [|done]. cbn [negb]. breflect.
  by rewrite Hl, lor_shift6 by lia.
Qed.

Definition encodes (bytes : list Z) : Prop :=
  exists cps, Forall is_scalar_value cps /\ bytes = flat_map utf8_encode cps.

Lemma encodes_cons c rest : is_scalar_value c -> encodes rest -> encodes (utf8_encode c ++ rest).
Proof. intros Hc (cps & Hs & ->). exists (c :: cps). split; [by constructor | done]. Qed.

Lemma codepoint_ok_scalar extra cp : 0 <= cp -> utf8_codepoint_ok extra cp = true ->
  is_scalar_value cp /\ (extra = 1%nat -> 0x80 <= cp) /\ (extra = 2%nat -> 0x800 <= cp) /\
  (extra = 3%nat -> 0x10000 <= cp).
Proof.
  unfold utf8_codepoint_ok, is_scalar_value. intros H0.
  destruct extra as [|[|[|[|]]]]; cbn [Nat.eqb andb];
    repeat match goal with |- context [if ?b then _ else _] => destruct b eqn:? end; try done;
    breflect; intros; breflect; (split; [|repeat split; intros; try done; lia]);
    (split; [lia|]); intros [A B]; apply andb_false_iff in H as [H|H]; breflect; lia.
Qed.

Lemma divmod64 a x : 0 <= x < 64 -> (a * 64 + x) / 64 = a /\ (a * 64 + x) mod 64 = x.
Proof.
  intros. split.
  - rewrite Z.div_add_l, Z.div_small by lia. lia.
  - by rewrite Z.add_comm, Z.mod_add, Z.mod_small by lia.
Qed.

(** Computes [utf8_encode] at a code point given by its groups of six bits. *)
Ltac encode_groups :=
  unfold utf8_encode;
  repeat match goal with
  | |- context [if ?a <? ?b then _ else _] => destruct (Z.ltb_spec a b); try lia
  end;
  change 262144 with (64 * 64 * 64); change 4096 with (64 * 64);
  rewrite <- ?Z.div_div by lia;
  repeat match goal with
  | |- context [(?a * 64 + ?x) / 64] => rewrite (proj1 (divmod64 a x ltac:(lia)))
  | |- context [(?a * 64 + ?x) mod 64] => rewrite (proj2 (divmod64 a x ltac:(lia)))
  end;
  cbn [app]; repeat first [reflexivity | apply (f_equal2 cons); [lia|]].

(** What a successful multi-byte step read. *)
Lemma utf8_multi lead rest extra cp cp' rest' :
  is_byte lead -> 128 <= lead -> Forall is_byte rest ->
  utf8_lead lead = Some (extra, cp) -> utf8_continue extra cp rest = Some (cp', rest') ->
  utf8_codepoint_ok extra cp' = true ->
  is_scalar_value cp' /\ lead :: rest = (utf8_encode cp' ++ rest')%list.
Proof.
  intros Hb Hge Hr. rewrite utf8_lead_eq by done. unfold utf8_lead_arith. intros Hl Hc Hok.
  assert (Hcp : 0 <= cp < 32 /\ lead = cp + (if (extra =? 1)%nat then 192 else if (extra =? 2)%nat then 224 else 240)
                /\ (extra = 1%nat \/ (extra = 2%nat /\ cp < 16) \/ (extra = 3%nat /\ cp < 8))).
  { repeat match type of Hl with (if ?b then _ else _) = _ => destruct b eqn:? end; try done;
      injection Hl as <- <-; breflect; cbn; lia. }
  clear Hl. destruct Hcp as (Hcp & Hlead & Hex).
  assert (Hstep : forall n c l c' l', Forall is_byte l -> utf8_continue (S n) c l = Some (c', l') ->
    exists x l2, l = (128 + x) :: l2 /\ 0 <= x < 64 /\ Forall is_byte l2 /\
                 utf8_continue n (c * 64 + x) l2 = Some (c', l')).
  { intros n c [|y l] c' l' Hl; [done|]. apply Forall_cons in Hl as [Hy Hl].
    rewrite utf8_continue_step by done. destruct (_ && _) eqn:E; [|done]. breflect.
    intros. exists (y - 128), l. split; [f_equal; lia|]. split; [lia|]. done. }
  destruct Hex as [->|[[-> H16]|[-> H8]]]; cbn [Nat.eqb] in Hlead; subst lead.
  - apply Hstep in Hc as (x & l & -> & Hx & Hl & Hc); [|done]. injection Hc as <- <-.
    apply codepoint_ok_scalar in Hok as (Hs & Ho & _); [|lia]. specialize (Ho eq_refl).
    split; [done|]. encode_groups.
  - apply Hstep in Hc as (x & l & -> & Hx & Hl & Hc); [|done].
    apply Hstep in Hc as (y & l' & -> & Hy & Hl' & Hc); [|done]. injection Hc as <- <-.
    apply codepoint_ok_scalar in Hok as (Hs & _ & Ho & _); [|lia]. specialize (Ho eq_refl).
    split; [done|]. encode_groups.
  - apply Hstep in Hc as (x & l & -> & Hx & Hl & Hc); [|done].
    apply Hstep in Hc as (y & l' & -> & Hy & Hl' & Hc); [|done].
    apply Hstep in Hc as (z & l2 & -> & Hz & Hl2 & Hc); [|done]. injection Hc as <- <-.
    apply codepoint_ok_scalar in Hok as (Hs & _ & _ & Ho); [|lia]. specialize (Ho eq_refl).
    split; [done|]. encode_groups.
Qed.

Lemma utf8_continue_group extra cp x rest : 0 <= x < 64 ->
  utf8_continue (S extra) cp (128 + x :: rest) = utf8_continue extra (cp * 64 + x) rest.
Proof.
  intros Hx. rewrite utf8_continue_step by (unfold is_byte; lia).
  rewrite (proj2 (Z.leb_le _ _)), (proj2 (Z.ltb_lt _ _)) by lia. cbn [andb]. by replace (128 + x - 128) with x by lia.
Qed.

Lemma scalar_codepoint_ok extra c : is_scalar_value c ->
  (extra = 1%nat -> 0x80 <= c) -> (extra = 2%nat -> 0x800 <= c) -> (extra = 3%nat -> 0x10000 <= c) ->
  utf8_codepoint_ok extra c = true.
Proof.
  intros [Hr Hs] H1 H2 H3. unfold utf8_codepoint_ok.
  repeat match goal with |- context [if ?b then _ else _] => destruct b eqn:? end; breflect;
    try (match goal with H : (_ =? _)%nat = true |- _ => apply Nat.eqb_eq in H end; lia); try lia.
Qed.

(** What a multi-byte encoding reads as. *)
Lemma utf8_encode_reads c : is_scalar_value c -> 128 <= c ->
  exists lead rest extra cp, utf8_encode c = lead :: rest /\ 128 <= lead /\
    utf8_lead lead = Some (extra, cp) /\ utf8_codepoint_ok extra c = true /\
    forall r, utf8_continue extra cp (rest ++ r) = Some (c, r).
Proof.
  intros Hc Hge. destruct Hc as [Hr Hs].
  assert (Hm : forall z, 0 <= z mod 64 < 64) by (intros; apply Z.mod_pos_bound; lia).
  unfold utf8_encode. rewrite (proj2 (Z.ltb_ge _ _)) by lia.
  destruct (c <? 0x800) eqn:E1; [|destruct (c <? 0x10000) eqn:E2]; breflect.
  - eexists _, _, 1%nat, (c / 64). split; [reflexivity|].
    split; [Z.to_euclidean_division_equations; lia|]. split; [|split].
    + rewrite utf8_lead_eq by (unfold is_byte; Z.to_euclidean_division_equations; lia).
      unfold utf8_lead_arith. rewrite (proj2 (Z.leb_gt _ _)), (proj2 (Z.ltb_lt _ _))
        by (Z.to_euclidean_division_equations; lia). do 2 f_equal. lia.
    + apply scalar_codepoint_ok; [by split|lia..].
    + intros r. cbn [app]. rewrite utf8_continue_group by done. cbn. do 2 f_equal.
      rewrite (Z.div_mod c 64) at 3 by lia. lia.
  - eexists _, _, 2%nat, (c / 4096). split; [reflexivity|].
    split; [Z.to_euclidean_division_equations; lia|]. split; [|split].
    + rewrite utf8_lead_eq by (unfold is_byte; Z.to_euclidean_division_equations; lia).
      unfold utf8_lead_arith. rewrite (proj2 (Z.leb_gt _ _)), (proj2 (Z.ltb_ge _ _)), (proj2 (Z.ltb_lt _ _))
        by (Z.to_euclidean_division_equations; lia). do 2 f_equal. lia.
    + apply scalar_codepoint_ok; [by split|lia..].
    + intros r. cbn [app]. rewrite !utf8_continue_group by done. cbn. do 2 f_equal.
      change 4096 with (64 * 64). rewrite <- Z.div_div by lia. clear.
      Z.to_euclidean_division_equations; lia.
  - eexists _, _, 3%nat, (c / 262144). split; [reflexivity|].
    split; [Z.to_euclidean_division_equations; lia|]. split; [|split].
    + rewrite utf8_lead_eq by (unfold is_byte; Z.to_euclidean_division_equations; lia).
      unfold utf8_lead_arith.
      rewrite (proj2 (Z.leb_gt _ _)), !(proj2 (Z.ltb_ge _ _)), (proj2 (Z.ltb_lt _ _))
        by (Z.to_euclidean_division_equations; lia). do 2 f_equal. lia.
    + apply scalar_codepoint_ok; [by split|lia..].
    + intros r. cbn [app]. rewrite !utf8_continue_group by done. cbn. do 2 f_equal.
      change 262144 with (64 * 64 * 64). change 4096 with (64 * 64). rewrite <- !Z.div_div by lia. clear.
      Z.to_euclidean_division_equations; lia.
Qed.

Lemma utf8_continue_shorter extra cp l cp' l' :
  utf8_continue extra cp l = Some (cp', l') -> (length l' <= length l)%nat.
Proof.
  revert cp l. induction extra as [|extra IH]; intros cp l; cbn [utf8_continue]; [by intros [= _ <-]|].
  destruct l as [|y l]; [done|]. destruct (negb _); [done|]. intros H%IH. cbn. lia.
Qed.

Lemma utf8_loop_iff fuel bytes : Forall is_byte bytes -> (length bytes <= fuel)%nat ->
  utf8_loop fuel bytes = true <-> encodes bytes.
Proof.
  revert bytes. induction fuel as [|fuel IH]; intros bytes Hb Hf.
  { destruct bytes; [|cbn in Hf; lia]. split; [|done]. intros _. exists []. by split; [constructor|]. }
  destruct bytes as [|lead rest].
  { split; [|done]. intros _. exists []. by split; [constructor|]. }
  apply Forall_cons in Hb as [Hl Hr]. cbn [length] in Hf. cbn [utf8_loop]. split.
  - destruct (lead <? 128) eqn:E; breflect.
    + rewrite IH by (done || lia). intros Henc.
      replace (lead :: rest) with (utf8_encode lead ++ rest)%list
        by (unfold utf8_encode; by rewrite (proj2 (Z.ltb_lt _ _))).
      apply encodes_cons; [|done]. unfold is_scalar_value, is_byte in *. lia.
    + destruct (utf8_lead lead) as [[extra cp]|] eqn:El; [|done].
      destruct (utf8_continue extra cp rest) as [[cp' rest']|] eqn:Ec; [|done].
      destruct (utf8_codepoint_ok extra cp') eqn:Eo; [|done].
      pose proof (utf8_continue_shorter _ _ _ _ _ Ec).
      destruct (utf8_multi _ _ _ _ _ _ Hl E Hr El Ec Eo) as [Hs Heq]. rewrite Heq.
      rewrite IH; [by apply encodes_cons| |lia].
      apply (f_equal (Forall is_byte)) in Heq. assert (Hall : Forall is_byte (lead :: rest)) by (by constructor).
      rewrite Heq in Hall. by apply Forall_app in Hall as [_ ?].
  - intros (cps & Hs & Heq). destruct Hs as [|c cps Hc Hs]; [done|]. cbn [flat_map] in Heq.
    destruct (Z.ltb_spec c 128) as [Hlt|Hge].
    + unfold utf8_encode in Heq. rewrite (proj2 (Z.ltb_lt _ _) Hlt) in Heq. cbn in Heq.
      injection Heq as -> ->. rewrite (proj2 (Z.ltb_lt _ _) Hlt).
      apply IH; [done|lia|]. by exists cps.
    + destruct (utf8_encode_reads c Hc Hge) as (lead' & r' & extra & cp & E1 & E2 & E3 & E4 & E5).
      rewrite E1 in Heq. cbn in Heq. injection Heq as -> ->.
      rewrite (proj2 (Z.ltb_ge _ _) E2), E3, E5, E4. apply Forall_app in Hr as [_ Hr].
      rewrite length_app in Hf. apply IH; [done|lia|]. by exists cps.
Qed.

(** The UTF-8 check accepts exactly the concatenations of encoded Unicode
    scalar values: no overlong form, no surrogate, no value past U+10FFFF and no
    truncated sequence, and every scalar value is accepted. *)
Theorem IsValidUtf8_exact (text : string) :
  IsValidUtf8 text = true <-> encodes (string_bytes text).
Proof.
  unfold IsValidUtf8. apply utf8_loop_iff; [apply string_bytes_range|]. by rewrite string_bytes_length.
Qed.

(** ** Facts: validation *)

(** A value and everything nested in it. *)
Fixpoint subvalues (value : Value) : list Value :=
  value ::
  match value with
  | V_List l => flat_map subvalues l
  | V_Map m => flat_map (fun e => subvalues (snd e)) m
  | _ => []
  end.

(** The envelope on one node. *)
Definition node_ok (limits : RuntimeLimits) (value : Value) : Prop :=
  match value with
  | V_String text => ssize text <= max_leaf_bytes limits /\ encodes (string_bytes text)
  | V_Bytes bytes => vsize bytes <= max_leaf_bytes limits
  | V_List l => vsize l <= max_value_nodes limits
  | V_Map m =>
      vsize m <= max_value_nodes limits /\
      Forall (fun e => ssize (fst e) <= max_leaf_bytes limits /\ encodes (string_bytes (fst e))) m
  | _ => True
  end.

Lemma Forall_flat_map {A B} (P : B -> Prop) (f : A -> list B) l :
  Forall P (flat_map f l) <-> Forall (fun x => Forall P (f x)) l.
Proof. induction l; cbn; [by rewrite !Forall_nil|]. by rewrite Forall_app, Forall_cons, IHl. Qed.

Lemma ValidateValue_ok limits v d :
  status_ok (ValidateValue limits v d) = true <->
  CountDepth v d <= Z.min (max_value_depth limits) kHardRecursionLimit /\
  Forall (node_ok limits) (subvalues v).
Proof.
  revert d. induction v as [| b | z | z | f | s | bs | l IH | m IH] using Value_nested_ind; intros d;
    cbn [ValidateValue];
    (destruct (_ || _) eqn:Hd;
     [split; [done|]; intros [Hc _]; exfalso;
      match type of Hc with CountDepth ?v _ <= _ => pose proof (CountDepth_ge v d) end;
      apply orb_true_iff in Hd as [Hd|Hd]; breflect; lia|]);
    apply orb_false_iff in Hd as [Hd1 Hd2]; cbn [subvalues]; rewrite Forall_cons.
  8: { rewrite CountDepth_list, foldl_max_le, Forall_flat_map by done. cbn [node_ok].
       destruct (Z.ltb_spec (max_value_nodes limits) (vsize l)); [split; [done|lia]|].
       rewrite for_status_ok. breflect.
       assert (Hd : d <= Z.min (max_value_depth limits) kHardRecursionLimit) by lia.
       rewrite Forall_forall in IH. rewrite !Forall_forall.
       split; [intros Hv | intros [[_ Hc] [_ Hn]] x Hx; apply IH; auto].
       split; (split; [done|]); intros x Hx; by destruct (proj1 (IH x Hx (d + 1)) (Hv x Hx)). }
  8: { rewrite CountDepth_map, foldl_max_le, Forall_flat_map by done. cbn [node_ok].
       destruct (Z.ltb_spec (max_value_nodes limits) (vsize m)); [split; [done|lia]|].
       rewrite for_status_ok. breflect.
       assert (Hd : d <= Z.min (max_value_depth limits) kHardRecursionLimit) by lia.
       rewrite Forall_forall in IH. rewrite !Forall_forall.
       assert (Hentry : forall e, e ∈ m ->
         status_ok (if max_leaf_bytes limits <? ssize (fst e)
           then Status_Limit RC_LimitBytesExceeded "member name exceeds the envelope"
           else if negb (IsValidUtf8 (fst e))
           then Status_Rejected RC_EncodingInvalidUtf8 "member name is not UTF-8"
           else ValidateValue limits (snd e) (d + 1)) = true <->
         (ssize (fst e) <= max_leaf_bytes limits /\ encodes (string_bytes (fst e))) /\
         CountDepth (snd e) (d + 1) <= Z.min (max_value_depth limits) kHardRecursionLimit /\
         Forall (node_ok limits) (subvalues (snd e))).
       { intros e He. rewrite <- IsValidUtf8_exact, <- IH by done.
         destruct (Z.ltb_spec (max_leaf_bytes limits) (ssize (fst e))); [split; [done|lia]|].
         destruct (IsValidUtf8 (fst e)); cbn [negb]; [tauto|]. split; [done|]. tauto. }
       split; [intros Hv | intros [[_ Hc] [[_ Hn] Hs]] e He; apply Hentry; auto].
       split; [split; [done|] | split; [split; [done|]|]]; intros e He;
         by destruct (proj1 (Hentry e He) (Hv e He)) as (? & ? & ?). }
  all: cbn [CountDepth node_ok]; rewrite ?Hd2; breflect.
  6: { rewrite <- IsValidUtf8_exact. destruct (Z.ltb_spec (max_leaf_bytes limits) (ssize s)).
       - split; [done|lia].
       - destruct (IsValidUtf8 s); cbn; [|split; [done|tauto]].
         split; [|done]. intros _. split; [lia|]. by repeat split. }
  6: { destruct (Z.ltb_spec (max_leaf_bytes limits) (vsize bs)); [split; [done|lia]|].
       split; [|done]. intros _. split; [lia|]. by split. }
  all: split; [|done]; intros _; split; [lia|]; by split.
Qed.

(** ** Properties *)

(** Validation is exact: a value is accepted if and only if its node count
    and nesting are inside the envelope and every nested leaf, member name and
    container is bounded, with all text well-formed UTF-8.  An accepted value is
    never deeper than the recursion guard, so no later walk of it is cut off. *)
Theorem Value_Validate_exact (limits : RuntimeLimits) (value : Value) :
  status_ok (Value_Validate limits value) = true <->
  NodeCount value <= max_value_nodes limits /\
  MaxDepth value <= Z.min (max_value_depth limits) kHardRecursionLimit /\
  Forall (node_ok limits) (subvalues value).
Proof.
  unfold Value_Validate, MaxDepth.
  destruct (Z.ltb_spec (max_value_nodes limits) (NodeCount value)); [split; [done|lia]|].
  rewrite ValidateValue_ok. tauto.
Qed.

(** Value comparison is an equivalence test the classification can rest on:
    it does not depend on which side is intent and which is observation; under
    [Exact] two values are [Equal] exactly when they are structurally equal (and
    inside the recursion guard); and whatever is equal under [Exact] is equal
    under [Numeric]. *)
Theorem RelateValues_spec (lhs rhs : Value) (e : NumericEquivalence) :
  RelateValues e lhs rhs = RelateValues e rhs lhs /\
  (RelateValues NE_Exact lhs rhs = VR_Equal <->
   Value_eq lhs rhs = true /\ MaxDepth lhs <= kHardRecursionLimit) /\
  (RelateValues NE_Exact lhs rhs = VR_Equal -> RelateValues e lhs rhs = VR_Equal).
Proof.
  unfold RelateValues, MaxDepth. split; [apply RelateValuesAt_sym|]. split.
  - split; [apply relates_exact_eq|]. intros []. by apply Value_eq_relates.
  - intros [? ?]%relates_exact_eq. by apply Value_eq_relates.
Qed.

Lemma RelateValues_spec_witness :
  let v := V_Map [("mtu", V_Int 1500); ("rates", V_List [V_Double (S754_finite false 1 0)])] in
  let w := V_Map [("mtu", V_Int 1500); ("rates", V_List [V_Int 1])] in
  RelateValues NE_Exact v v = VR_Equal /\ RelateValues NE_Numeric v v = VR_Equal /\
  RelateValues NE_Exact v w = VR_Different /\ RelateValues NE_Numeric v w = VR_Equal.
Proof.
  cbv zeta. split; [vm_compute; reflexivity|]. split; [|by vm_compute].
  refine (proj2 (proj2 (RelateValues_spec _ _ NE_Numeric)) _). vm_compute; reflexivity.
Defined.

(** The digest of a value is the SHA-256 of an encoding that determines the
    value: two values the factories can build, both inside the recursion guard,
    have the same pre-image only if they are the same value, and the encoding is
    self-delimiting inside a longer pre-image. *)
Theorem DigestOf_preimage_injective (v w : Value) (rest rest' : list Z)
  (Hv : hashable v 0) (Hw : hashable w 0) :
  DigestOf v = sha256_spec (value_preimage v 0) /\
  ((value_preimage v 0 ++ rest = value_preimage w 0 ++ rest')%list -> v = w /\ rest = rest').
Proof. split; [apply DigestOf_preimage|]. by apply value_preimage_inj. Qed.

Lemma DigestOf_preimage_injective_witness :
  let v := V_Map [("vlan", V_List [V_Int 10; V_Int 20])] in
  hashable v 0 /\
  ToHex (DigestOf v) = ToHex (sha256_spec (value_preimage v 0)).
Proof.
  cbv zeta. assert (H : hashable (V_Map [("vlan", V_List [V_Int 10; V_Int 20])]) 0).
  { split; [|vm_compute; discriminate].
    cbn. unfold is_u64, is_i64, INT64_MIN, INT64_MAX, UINT64_MAX. cbn.
    repeat split; try lia; try discriminate. repeat constructor. }
  split; [exact H|].
  exact (f_equal ToHex (proj1 (DigestOf_preimage_injective _ _ [] [] H H))).
Defined.
