(* ===== verification/Drift.v ===== *)
(** * Drift vocabulary

    drift.hpp/drift.cpp: severities, drift classes, their names and the three
    predicates that split the classes. *)

From Stdlib Require Import ZArith Lia List Bool String.
From stdpp Require Import base tactics list strings.
From S2P Require Import Prelude Containers Status.
#[local] Open Scope string_scope.
#[local] Open Scope Z_scope.

Inductive Severity : Set := Sev_Info | Sev_Low | Sev_Medium | Sev_High | Sev_Critical.

#[export, refine] Instance enum_Severity : Enum Severity :=
  {| code v := match v with
               | Sev_Info => 0 | Sev_Low => 1 | Sev_Medium => 2 | Sev_High => 3 | Sev_Critical => 4 end;
     values := [Sev_Info; Sev_Low; Sev_Medium; Sev_High; Sev_Critical] |}.
Proof. enum_complete. Defined.

Inductive DriftClass : Set :=
| DC_None | DC_Missing | DC_Unexpected | DC_ValueMismatch | DC_FieldMissing | DC_FieldUnexpected
| DC_StaleObservation | DC_Unknown | DC_Unsupported | DC_GenerationMismatch
| DC_PartialApplication | DC_SourceConflict | DC_IntentMissing | DC_EvidenceInvalid.

#[export, refine] Instance enum_DriftClass : Enum DriftClass :=
  {| code v := match v with
               | DC_None => 0 | DC_Missing => 1 | DC_Unexpected => 2 | DC_ValueMismatch => 3
               | DC_FieldMissing => 4 | DC_FieldUnexpected => 5 | DC_StaleObservation => 6
               | DC_Unknown => 7 | DC_Unsupported => 8 | DC_GenerationMismatch => 9
               | DC_PartialApplication => 10 | DC_SourceConflict => 11 | DC_IntentMissing => 12
               | DC_EvidenceInvalid => 13 end;
     values := [DC_None; DC_Missing; DC_Unexpected; DC_ValueMismatch; DC_FieldMissing;
                DC_FieldUnexpected; DC_StaleObservation; DC_Unknown; DC_Unsupported;
                DC_GenerationMismatch; DC_PartialApplication; DC_SourceConflict;
                DC_IntentMissing; DC_EvidenceInvalid] |}.
Proof. enum_complete. Defined.

Definition kDriftClassCount : Z := 14.

Definition kSeverityNames : list (Z * string) :=
  [(0, "info"); (1, "low"); (2, "medium"); (3, "high"); (4, "critical")].

Definition kDriftClassNames : list (Z * string) :=
  [(0, "none"); (1, "missing"); (2, "unexpected"); (3, "value-mismatch"); (4, "field-missing");
   (5, "field-unexpected"); (6, "stale-observation"); (7, "unknown"); (8, "unsupported");
   (9, "generation-mismatch"); (10, "partial-application"); (11, "source-conflict");
   (12, "intent-missing"); (13, "evidence-invalid")].

Definition ToText_Severity (value : Severity) : string := Lookup kSeverityNames "invalid" (code value).
Definition TryParseSeverity (text : string) : option Severity := TryParseEnum kSeverityNames text.
Definition SeverityRank (value : Severity) : Z := code value.

Definition ToText_DriftClass (value : DriftClass) : string :=
  Lookup kDriftClassNames "invalid" (code value).
Definition TryParseDriftClass (text : string) : option DriftClass := TryParseEnum kDriftClassNames text.

Definition IsActionableDrift (value : DriftClass) : bool :=
  match value with
  | DC_Missing | DC_Unexpected | DC_ValueMismatch | DC_FieldMissing | DC_FieldUnexpected
  | DC_GenerationMismatch | DC_PartialApplication | DC_SourceConflict => true
  | _ => false
  end.

Definition IsIndeterminateDrift (value : DriftClass) : bool :=
  match value with
  | DC_StaleObservation | DC_Unknown | DC_EvidenceInvalid => true
  | _ => false
  end.

Definition IsStructuralDrift (value : DriftClass) : bool :=
  match value with
  | DC_Unsupported | DC_IntentMissing | DC_EvidenceInvalid => true
  | _ => false
  end.

(** Every class but [None] is accounted for, and nothing the runtime cannot
    decide is actionable. *)
Lemma drift_partition c :
  (c = DC_None \/ IsActionableDrift c = true \/ IsIndeterminateDrift c = true \/
   IsStructuralDrift c = true) /\
  (IsActionableDrift c = true -> IsIndeterminateDrift c = false /\ IsStructuralDrift c = false).
Proof. destruct c; cbn; naive_solver. Qed.

Lemma ToText_DriftClass_inj c d : ToText_DriftClass c = ToText_DriftClass d -> c = d.
Proof. destruct c, d; vm_compute; congruence. Qed.
