(* ===== verification/Intent.v ===== *)
(** * Intent

    intent.hpp/intent.cpp: an intent generation document, its content digest and
    its validation, and the committed baseline of one target. *)

From Stdlib Require Import ZArith Lia List Bool String.
From stdpp Require Import base tactics list strings.
From S2P Require Import Prelude Containers Text Hash Status Time Identity Double Value.
#[local] Open Scope string_scope.
#[local] Open Scope Z_scope.

Inductive IntentAuthority : Set :=
| IA_Unknown | IA_IntentFabric | IA_ConfigurationFabric | IA_LocalPolicy | IA_ImportedDocument.

#[export, refine] Instance enum_IntentAuthority : Enum IntentAuthority :=
  {| code v := match v with
               | IA_Unknown => 0 | IA_IntentFabric => 1 | IA_ConfigurationFabric => 2
               | IA_LocalPolicy => 3 | IA_ImportedDocument => 4 end;
     values := [IA_Unknown; IA_IntentFabric; IA_ConfigurationFabric; IA_LocalPolicy;
                IA_ImportedDocument] |}.
Proof. enum_complete. Defined.

Inductive FieldComparability : Set :=
| FC_Managed | FC_ObserveOnly | FC_Unmanaged | FC_Unobservable | FC_Unsupported.

#[export, refine] Instance enum_FieldComparability : Enum FieldComparability :=
  {| code v := match v with
               | FC_Managed => 0 | FC_ObserveOnly => 1 | FC_Unmanaged => 2 | FC_Unobservable => 3
               | FC_Unsupported => 4 end;
     values := [FC_Managed; FC_ObserveOnly; FC_Unmanaged; FC_Unobservable; FC_Unsupported] |}.
Proof. enum_complete. Defined.

Inductive ObjectExistence : Set := OE_Required | OE_Forbidden.

#[export, refine] Instance enum_ObjectExistence : Enum ObjectExistence :=
  {| code v := match v with OE_Required => 0 | OE_Forbidden => 1 end;
     values := [OE_Required; OE_Forbidden] |}.
Proof. enum_complete. Defined.

Definition kAuthorityNames : list (Z * string) :=
  [(0, "unknown"); (1, "intent-fabric"); (2, "configuration-fabric"); (3, "local-policy");
   (4, "imported-document")].
Definition kComparabilityNames : list (Z * string) :=
  [(0, "managed"); (1, "observe-only"); (2, "unmanaged"); (3, "unobservable"); (4, "unsupported")].
Definition kExistenceNames : list (Z * string) := [(0, "required"); (1, "forbidden")].

Definition ToText_IntentAuthority (value : IntentAuthority) : string :=
  Lookup kAuthorityNames "invalid" (code value).
Definition TryParseIntentAuthority (text : string) : option IntentAuthority :=
  TryParseEnum kAuthorityNames text.
Definition ToText_FieldComparability (value : FieldComparability) : string :=
  Lookup kComparabilityNames "invalid" (code value).
Definition TryParseFieldComparability (text : string) : option FieldComparability :=
  TryParseEnum kComparabilityNames text.
Definition ToText_ObjectExistence (value : ObjectExistence) : string :=
  Lookup kExistenceNames "invalid" (code value).

(** ** Documents *)

Record IntentField := mkIntentField {
  if_path : FieldPath;
  if_intended : Value;
  if_comparability : FieldComparability
}.

Record IntentObject := mkIntentObject {
  io_id : string;
  io_existence : ObjectExistence;
  io_fields : omap FieldPath IntentField
}.

Record IntentGenerationDocument := mkIntentDocument {
  doc_target : string;
  doc_generation : Z;
  doc_epoch : Z;
  doc_authority : IntentAuthority;
  doc_policy : string;
  doc_authored_at : NdoTime;
  doc_objects : omap string IntentObject;
  doc_evidence : EvidenceClass
}.

Record IntentBaseline := mkIntentBaseline {
  base_target : string;
  base_generation : Z;
  base_epoch : Z;
  base_authority : IntentAuthority;
  base_policy : string;
  base_committed_at : NdoTime;
  base_content_digest : Digest;
  base_evidence : EvidenceClass;
  base_objects : omap string IntentObject
}.

#[export] Instance eta_IntentBaseline : Eta IntentBaseline := fun b =>
  mkIntentBaseline (base_target b) (base_generation b) (base_epoch b) (base_authority b)
    (base_policy b) (base_committed_at b) (base_content_digest b) (base_evidence b) (base_objects b).

(** [StrongUint::is_set]. *)
Definition uint_is_set (v : Z) : bool := negb (v =? 0).

Definition baseline_is_set (b : IntentBaseline) : bool := uint_is_set (base_generation b).
Definition baseline_FindObject (b : IntentBaseline) (id : string) : option IntentObject :=
  mfind id (base_objects b).

Definition IntentFieldCount (doc : IntentGenerationDocument) : Z :=
  sum_by (fun entry => vsize (io_fields (snd entry))) (doc_objects doc).

Definition kIntentContentTag : string := "ndo/intent-generation/v1".

Definition hash_intent_field (hasher : Sha256) (field : FieldPath * IntentField) : Sha256 :=
  let hasher := UpdateLengthPrefixed hasher (FieldPath_ToText (fst field)) in
  let hasher := UpdateByte hasher (code (if_comparability (snd field))) in
  HashInto hasher (if_intended (snd field)).

Definition hash_intent_object (hasher : Sha256) (entry : string * IntentObject) : Sha256 :=
  let hasher := UpdateLengthPrefixed hasher (fst entry) in
  let hasher := UpdateByte hasher (code (io_existence (snd entry))) in
  let hasher := UpdateU64 hasher (vsize (io_fields (snd entry))) in
  foldl hash_intent_field hasher (io_fields (snd entry)).

Definition Intent_ComputeContentDigest (doc : IntentGenerationDocument) : Digest :=
  let hasher := UpdateTag Sha256_init kIntentContentTag in
  let hasher := UpdateLengthPrefixed hasher (doc_target doc) in
  let hasher := UpdateU64 hasher (doc_generation doc) in
  let hasher := UpdateU64 hasher (doc_epoch doc) in
  let hasher := UpdateLengthPrefixed hasher (ToText_IntentAuthority (doc_authority doc)) in
  let hasher := UpdateLengthPrefixed hasher (doc_policy doc) in
  let hasher := UpdateU64 hasher (to_u64 (doc_authored_at doc)) in
  let hasher := UpdateByte hasher (code (doc_evidence doc)) in
  let hasher := UpdateU64 hasher (vsize (doc_objects doc)) in
  Final (foldl hash_intent_object hasher (doc_objects doc)).

(** ** Validation *)

Definition key_too_long (limits : RuntimeLimits) (segment : PathSegment) : bool :=
  match segment with
  | PS_Key key => max_path_key_bytes limits <? ssize key
  | PS_Index _ => false
  end.

(** The bounds on one field: path depth, key bytes, then the value. *)
Definition validate_field (limits : RuntimeLimits) (deep long : string)
    (path : FieldPath) (value : Value) : Status :=
  if max_path_segments limits <? vsize path then Status_Limit RC_LimitDepthExceeded deep
  else if existsb (key_too_long limits) path then Status_Limit RC_LimitBytesExceeded long
  else Value_Validate limits value.

Definition validate_intent_object (limits : RuntimeLimits) (entry : string * IntentObject) : Status :=
  if negb (IsValidIdentityText (fst entry))
  then Status_Rejected RC_EncodingMalformed "intent object identity is invalid"
  else if max_fields_per_object limits <? vsize (io_fields (snd entry))
  then Status_Limit RC_LimitFieldsExceeded "intent field count exceeds the envelope"
  else for_status (fun field =>
         validate_field limits "intent field path is too deep" "intent field key is too long"
           (fst field) (if_intended (snd field))) (io_fields (snd entry)).

Definition Intent_Validate (limits : RuntimeLimits) (doc : IntentGenerationDocument) : Status :=
  if negb (IsValidIdentityText (doc_target doc))
  then Status_Rejected RC_EncodingMalformed "target identity is invalid"
  else if negb (uint_is_set (doc_generation doc))
  then Status_Rejected RC_IntentTargetUndeclared "intent generation must be a positive generation"
  else if negb (uint_is_set (doc_epoch doc))
  then Status_Rejected RC_FencedStaleEpoch
         "intent generation must declare the epoch it was authored under"
  else if String.eqb (doc_policy doc) "" || negb (IsValidIdentityText (doc_policy doc))
  then Status_Rejected RC_EncodingMalformed "intent policy identity is invalid"
  else if eqb (doc_authority doc) IA_Unknown
  then Status_Rejected RC_AuthorityMismatch
         "intent generation must declare the authority that produced it"
  else if max_objects_per_target limits <? vsize (doc_objects doc)
  then Status_Limit RC_LimitObjectsExceeded "intent object count exceeds the envelope"
  else for_status (validate_intent_object limits) (doc_objects doc).
