(* ===== verification/Observation.v ===== *)
(** * Observation

    observation.hpp/observation.cpp: one snapshot of one target by one source,
    its content-addressed identity and its validation. *)

From Stdlib Require Import ZArith Lia List Bool Sorting.Sorted Permutation String.
From stdpp Require Import base tactics list strings.
From S2P Require Import Prelude Containers Text Hash Status Time Identity Double Value Intent.
#[local] Open Scope string_scope.
#[local] Open Scope Z_scope.

Inductive ObjectPresence : Set := OP_Absent | OP_Present | OP_Unknown.

#[export, refine] Instance enum_ObjectPresence : Enum ObjectPresence :=
  {| code v := match v with OP_Absent => 0 | OP_Present => 1 | OP_Unknown => 2 end;
     values := [OP_Absent; OP_Present; OP_Unknown] |}.
Proof. enum_complete. Defined.

Inductive ObservationCoverage : Set := OC_Unknown | OC_Partial | OC_Complete.

#[export, refine] Instance enum_ObservationCoverage : Enum ObservationCoverage :=
  {| code v := match v with OC_Unknown => 0 | OC_Partial => 1 | OC_Complete => 2 end;
     values := [OC_Unknown; OC_Partial; OC_Complete] |}.
Proof. enum_complete. Defined.

Definition kPresenceNames : list (Z * string) := [(0, "absent"); (1, "present"); (2, "unknown")].
Definition kCoverageNames : list (Z * string) := [(0, "unknown"); (1, "partial"); (2, "complete")].

Definition ToText_ObjectPresence (value : ObjectPresence) : string :=
  Lookup kPresenceNames "invalid" (code value).
Definition TryParseObjectPresence (text : string) : option ObjectPresence :=
  TryParseEnum kPresenceNames text.
Definition ToText_ObservationCoverage (value : ObservationCoverage) : string :=
  Lookup kCoverageNames "invalid" (code value).
Definition TryParseObservationCoverage (text : string) : option ObservationCoverage :=
  TryParseEnum kCoverageNames text.

Record SourceCapabilities := mkCapabilities {
  asserts_absence : bool;
  complete_coverage : bool;
  reports_nested_paths : bool;
  cap_evidence : EvidenceClass
}.

Record ObservedObject := mkObservedObject {
  ob_id : string;
  ob_presence : ObjectPresence;
  ob_fields : omap FieldPath Value
}.

Record ObservationSnapshot := mkSnapshot {
  snap_id : string;
  snap_source : string;
  snap_epoch : Z;
  snap_incarnation : Z;
  snap_sequence : Z;
  snap_target : string;
  snap_collected_at : NdoTime;
  snap_received_at : NdoTime;
  snap_ttl_nanos : Z;
  snap_coverage : ObservationCoverage;
  snap_unobserved : list string;
  snap_objects : omap string ObservedObject;
  snap_capabilities : SourceCapabilities;
  snap_evidence : EvidenceClass
}.

#[export] Instance eta_ObservationSnapshot : Eta ObservationSnapshot := fun s =>
  mkSnapshot (snap_id s) (snap_source s) (snap_epoch s) (snap_incarnation s) (snap_sequence s)
    (snap_target s) (snap_collected_at s) (snap_received_at s) (snap_ttl_nanos s) (snap_coverage s)
    (snap_unobserved s) (snap_objects s) (snap_capabilities s) (snap_evidence s).

Record SourceDescriptor := mkSourceDescriptor {
  sd_id : string;
  sd_capabilities : SourceCapabilities;
  sd_registered_at : NdoTime;
  sd_epoch : Z;
  sd_incarnation : Z;
  sd_provenance : string;
  sd_evidence : EvidenceClass
}.

#[export] Instance eta_SourceDescriptor : Eta SourceDescriptor := fun s =>
  mkSourceDescriptor (sd_id s) (sd_capabilities s) (sd_registered_at s) (sd_epoch s)
    (sd_incarnation s) (sd_provenance s) (sd_evidence s).

(** ** Identity of a snapshot *)

Definition kSnapshotIdentityTag : string := "ndo/observation-snapshot/v1".

Definition hash_observed_field (hasher : Sha256) (field : FieldPath * Value) : Sha256 :=
  HashInto (UpdateLengthPrefixed hasher (FieldPath_ToText (fst field))) (snd field).

Definition hash_observed_object (hasher : Sha256) (entry : string * ObservedObject) : Sha256 :=
  let hasher := UpdateLengthPrefixed hasher (fst entry) in
  let hasher := UpdateByte hasher (code (ob_presence (snd entry))) in
  let hasher := UpdateU64 hasher (vsize (ob_fields (snd entry))) in
  foldl hash_observed_field hasher (ob_fields (snd entry)).

(** The unobserved objects as a set: sorted, without duplicates. *)
Definition unobserved_view (snapshot : ObservationSnapshot) : list string :=
  dedup eqb (sort_by ltb (snap_unobserved snapshot)).

Definition flag (b : bool) : Z := if b then 1 else 0.

Definition Snapshot_ComputeContentDigest (s : ObservationSnapshot) : Digest :=
  let hasher := UpdateTag Sha256_init kSnapshotIdentityTag in
  let hasher := UpdateLengthPrefixed hasher (snap_source s) in
  let hasher := UpdateU64 hasher (snap_epoch s) in
  let hasher := UpdateU64 hasher (snap_incarnation s) in
  let hasher := UpdateU64 hasher (snap_sequence s) in
  let hasher := UpdateLengthPrefixed hasher (snap_target s) in
  let hasher := UpdateU64 hasher (to_u64 (snap_collected_at s)) in
  let hasher := UpdateU64 hasher (to_u64 (snap_ttl_nanos s)) in
  let hasher := UpdateByte hasher (code (snap_coverage s)) in
  let hasher := UpdateByte hasher (code (snap_evidence s)) in
  let hasher := UpdateByte hasher (flag (asserts_absence (snap_capabilities s))) in
  let hasher := UpdateByte hasher (flag (complete_coverage (snap_capabilities s))) in
  let hasher := UpdateByte hasher (flag (reports_nested_paths (snap_capabilities s))) in
  let hasher := UpdateByte hasher (code (cap_evidence (snap_capabilities s))) in
  let unobserved := unobserved_view s in
  let hasher := UpdateU64 hasher (vsize unobserved) in
  let hasher := foldl UpdateLengthPrefixed hasher unobserved in
  let hasher := UpdateU64 hasher (vsize (snap_objects s)) in
  Final (foldl hash_observed_object hasher (snap_objects s)).

Definition ComputeSnapshotId (s : ObservationSnapshot) : string :=
  Digest_ToHex (Snapshot_ComputeContentDigest s).

(** ** Queries *)

Definition declares_complete_coverage (s : ObservationSnapshot) : bool :=
  eqb (snap_coverage s) OC_Complete && complete_coverage (snap_capabilities s).

Definition snap_may_assert_absence (s : ObservationSnapshot) : bool :=
  asserts_absence (snap_capabilities s).

Definition snapshot_FindObject (s : ObservationSnapshot) (id : string) : option ObservedObject :=
  mfind id (snap_objects s).

Definition declares_unobserved (s : ObservationSnapshot) (id : string) : bool :=
  existsb (fun candidate => eqb candidate id) (snap_unobserved s).

(** ** Validation *)

Definition validate_observed_object (limits : RuntimeLimits) (capabilities : SourceCapabilities)
    (entry : string * ObservedObject) : Status :=
  let object := snd entry in
  if negb (IsValidIdentityText (fst entry))
  then Status_Rejected RC_EncodingMalformed "observed object identity is invalid"
  else if eqb (ob_presence object) OP_Absent && negb (asserts_absence capabilities)
  then Status_Rejected RC_ObservationSourceCannotAssertAbsence
         "source reports absence without the capability to assert it"
  else if max_fields_per_object limits <? vsize (ob_fields object)
  then Status_Limit RC_LimitFieldsExceeded "observed field count exceeds the envelope"
  else if eqb (ob_presence object) OP_Absent && negb (vsize (ob_fields object) =? 0)
  then Status_Rejected RC_EncodingMalformed "an absent object cannot carry observed fields"
  else for_status (fun field =>
         validate_field limits "observed field path is too deep" "observed field key is too long"
           (fst field) (snd field)) (ob_fields object).

Definition Snapshot_Validate (limits : RuntimeLimits) (s : ObservationSnapshot) : Status :=
  if negb (IsValidIdentityText (snap_source s))
  then Status_Rejected RC_EncodingMalformed "observation source identity is invalid"
  else if negb (IsValidIdentityText (snap_target s))
  then Status_Rejected RC_EncodingMalformed "observation target identity is invalid"
  else if negb (uint_is_set (snap_epoch s))
  then Status_Rejected RC_FencedStaleEpoch
         "observation must declare the epoch it was collected under"
  else if negb (uint_is_set (snap_incarnation s))
  then Status_Rejected RC_FencedStaleIncarnation
         "observation must declare the source incarnation that produced it"
  else if negb (uint_is_set (snap_sequence s))
  then Status_Rejected RC_ObservationSequenceRegressed "observation sequence must be positive"
  else if negb (time_is_set (snap_collected_at s))
  then Status_Rejected RC_ObservationClockRegression
         "observation must declare its collection time"
  else if snap_ttl_nanos s <? 0
  then Status_Rejected RC_EncodingMalformed "observation ttl must not be negative"
  else if max_objects_per_target limits <? vsize (snap_unobserved s)
  then Status_Limit RC_LimitObjectsExceeded "unobserved declaration exceeds the envelope"
  else if negb (forallb IsValidIdentityText (snap_unobserved s))
  then Status_Rejected RC_EncodingMalformed "unobserved identity is invalid"
  else if max_objects_per_target limits <? vsize (snap_objects s)
  then Status_Limit RC_LimitObjectsExceeded "observation object count exceeds the envelope"
  else for_status (validate_observed_object limits (snap_capabilities s)) (snap_objects s) ;;?
       (if String.eqb (snap_id s) ""
        then Status_Rejected RC_LedgerIntegrityDigestMismatch
               "observation snapshot identity is missing"
        else if negb (String.eqb (snap_id s) (Digest_ToHex (Snapshot_ComputeContentDigest s)))
        then Status_Rejected RC_LedgerIntegrityDigestMismatch
               "declared snapshot identity does not match snapshot content"
        else Status_Ok).

(** ** Facts *)

(** A negated guard that was passed. *)
Lemma passed_guard (b : bool) (s t : Status) :
  status_ok s = false -> status_ok (if b then s else t) = true <-> b = false /\ status_ok t = true.
Proof. intros Hs. destruct b; rewrite ?Hs; naive_solver. Qed.

(** What an accepted snapshot is known to satisfy. *)
Lemma Snapshot_Validate_ok limits s : status_ok (Snapshot_Validate limits s) = true ->
  snap_epoch s <> 0 /\ snap_incarnation s <> 0 /\ snap_sequence s <> 0 /\
  0 <= snap_ttl_nanos s /\ time_is_set (snap_collected_at s) = true /\
  IsValidIdentityText (snap_source s) = true /\ IsValidIdentityText (snap_target s) = true /\
  vsize (snap_objects s) <= max_objects_per_target limits /\
  (forall id o, mfind id (snap_objects s) = Some o -> ob_presence o = OP_Absent ->
     asserts_absence (snap_capabilities s) = true /\ ob_fields o = []) /\
  snap_id s = ComputeSnapshotId s.
Proof.
  unfold Snapshot_Validate, uint_is_set. rewrite !passed_guard, and_then_ok, andb_true_iff,
    for_status_ok, !passed_guard by done.
  intros (H1 & H2 & H3 & H4 & H5 & H6 & H7 & H8 & H9 & H10 & H11 & H12 & H13 & _).
  assert (Habsent : forall id o, mfind id (snap_objects s) = Some o -> ob_presence o = OP_Absent ->
    asserts_absence (snap_capabilities s) = true /\ ob_fields o = []).
  { intros id o Hin%mfind_In%list_elem_of_In Hp. rewrite Forall_forall in H11. apply H11 in Hin.
    unfold validate_observed_object in Hin. rewrite !passed_guard in Hin by done. cbn [snd] in Hin.
    rewrite Hp, eqb_refl in Hin. cbn [andb] in Hin. destruct Hin as (_ & Ha & _ & Hf & _).
    breflect. split; [done | by apply vsize_nil_inv]. }
  breflect. repeat (split; [assumption|]). exact H13.
Qed.

(** ** The identity pre-image *)

Definition field_preimage (f : FieldPath * Value) : list Z :=
  length_prefixed (FieldPath_ToText (fst f)) ++ value_preimage (snd f) 0.

Definition object_preimage (e : string * ObservedObject) : list Z :=
  length_prefixed (fst e) ++ [code (ob_presence (snd e))] ++ be64 (vsize (ob_fields (snd e))) ++
  flat_map field_preimage (ob_fields (snd e)).

(** The bytes hashed for a snapshot whose unobserved list is already a sorted set. *)
Definition content_preimage (s : ObservationSnapshot) : list Z :=
  (length_prefixed kSnapshotIdentityTag ++ length_prefixed (snap_source s) ++
  be64 (snap_epoch s) ++ be64 (snap_incarnation s) ++ be64 (snap_sequence s) ++
  length_prefixed (snap_target s) ++ be64 (to_u64 (snap_collected_at s)) ++
  be64 (to_u64 (snap_ttl_nanos s)) ++
  [code (snap_coverage s); code (snap_evidence s); flag (asserts_absence (snap_capabilities s));
   flag (complete_coverage (snap_capabilities s)); flag (reports_nested_paths (snap_capabilities s));
   code (cap_evidence (snap_capabilities s))] ++
  be64 (vsize (snap_unobserved s)) ++ flat_map length_prefixed (snap_unobserved s) ++
  be64 (vsize (snap_objects s)) ++ flat_map object_preimage (snap_objects s))%list.

(** What the source asserted: the identity and the local receive time are left
    out, and the unobserved objects are a set. *)
Definition asserted (s : ObservationSnapshot) : ObservationSnapshot :=
  s <| snap_id := "" |> <| snap_received_at := 0 |> <| snap_unobserved := unobserved_view s |>.

Definition object_ok (e : string * ObservedObject) : Prop :=
  is_u64 (ssize (fst e)) /\ ob_id (snd e) = fst e /\ is_u64 (vsize (ob_fields (snd e))) /\
  Forall (fun f => path_ok (fst f) /\ hashable (snd f) 0) (ob_fields (snd e)).

(** Fields that fit their C++ types. *)
Definition snapshot_ok (s : ObservationSnapshot) : Prop :=
  is_u64 (ssize (snap_source s)) /\ is_u64 (ssize (snap_target s)) /\
  is_u64 (snap_epoch s) /\ is_u64 (snap_incarnation s) /\ is_u64 (snap_sequence s) /\
  is_i64 (snap_collected_at s) /\ is_i64 (snap_ttl_nanos s) /\
  is_u64 (vsize (snap_unobserved s)) /\ Forall (fun id => is_u64 (ssize id)) (snap_unobserved s) /\
  is_u64 (vsize (snap_objects s)) /\ Forall object_ok (snap_objects s).

Lemma hash_observed_object_absorbed m e :
  hash_observed_object (absorbed m) e = absorbed (m ++ object_preimage e).
Proof.
  unfold hash_observed_object. autorewrite with sha.
  rewrite (foldl_absorbed _ field_preimage).
  - unfold object_preimage. by rewrite <- !app_assoc.
  - apply Forall_forall. intros [p v] _ m'. unfold hash_observed_field, HashInto.
    autorewrite with sha. unfold field_preimage. by rewrite <- app_assoc.
Qed.

Lemma Snapshot_digest_preimage s :
  Snapshot_ComputeContentDigest s = sha256_spec (content_preimage (asserted s)).
Proof.
  unfold Snapshot_ComputeContentDigest. autorewrite with sha.
  rewrite (foldl_absorbed _ length_prefixed)
    by (apply Forall_forall; intros; by autorewrite with sha).
  autorewrite with sha. rewrite (foldl_absorbed _ object_preimage)
    by (apply Forall_forall; intros; apply hash_observed_object_absorbed).
  autorewrite with sha. f_equal. unfold content_preimage, asserted.
  cbn [update eta eta_ObservationSnapshot snap_source snap_epoch snap_incarnation snap_sequence
       snap_target snap_collected_at snap_ttl_nanos snap_coverage snap_unobserved snap_objects
       snap_capabilities snap_evidence app].
  by rewrite <- !app_assoc.
Qed.

Lemma flag_inj a b : flag a = flag b -> a = b.
Proof. by destruct a, b. Qed.

Lemma field_preimage_inj f g r s :
  path_ok (fst f) /\ hashable (snd f) 0 -> path_ok (fst g) /\ hashable (snd g) 0 ->
  (field_preimage f ++ r = field_preimage g ++ s)%list -> f = g /\ r = s.
Proof.
  destruct f as [p v], g as [q w]. unfold field_preimage. cbn [fst snd].
  intros [[Hp Hlp] Hv] [[Hq Hlq] Hw]. rewrite <- !app_assoc. intros E.
  apply length_prefixed_app_inj in E as [Et E]; [|done..].
  apply FieldPath_ToText_inj in Et as ->; [|by split..].
  by apply value_preimage_inj in E as [-> ->].
Qed.

Lemma object_preimage_inj e f r s : object_ok e -> object_ok f ->
  (object_preimage e ++ r = object_preimage f ++ s)%list -> e = f /\ r = s.
Proof.
  destruct e as [k [i p fs]], f as [k' [i' p' fs']]. unfold object_ok, object_preimage.
  cbn [fst snd ob_id ob_presence ob_fields]. intros (Hk & -> & Hn & Hf) (Hk' & -> & Hn' & Hf').
  rewrite <- !app_assoc. intros E.
  apply length_prefixed_app_inj in E as [-> E]; [|done..]. cbn [app] in E.
  apply cons_inv in E as [Ep E]. apply code_inj in Ep as ->.
  apply be64_app_inj in E as [En E]; [|done..].
  apply (flat_map_inj _ (fun f => path_ok (fst f) /\ hashable (snd f) 0)) in E as [-> ->]; [done| |done|].
  - eapply Forall_impl; [exact Hf|]. intros x Hx y r' s' Hy. by apply field_preimage_inj.
  - unfold vsize in En. lia.
Qed.

(** Sorting and removing duplicates keeps the bounds. *)
Lemma dedup_sublist {A} (same : A -> A -> bool) (l : list A) : sublist (dedup same l) l.
Proof.
  induction l as [|x l IH]; [constructor|]. cbn [dedup]. destruct l as [|y l]; [done|].
  destruct (same x y); [|by constructor].
  destruct (dedup same (y :: l)) as [|z r] eqn:E.
  - constructor. apply sublist_nil_l.
  - constructor. etransitivity; [|exact IH]. by constructor.
Qed.

Lemma asserted_ok s : snapshot_ok s -> snapshot_ok (asserted s).
Proof.
  unfold snapshot_ok. intros (? & ? & ? & ? & ? & ? & ? & Hn & Hu & ? & ?). cbn.
  assert (Hlen : (length (unobserved_view s) <= length (snap_unobserved s))%nat).
  { unfold unobserved_view. rewrite <- (sort_by_length ltb (snap_unobserved s)).
    apply sublist_length, dedup_sublist. }
  assert (Hall : Forall (fun id => is_u64 (ssize id)) (unobserved_view s)).
  { apply Forall_forall. intros x Hx. unfold unobserved_view in Hx.
    eapply sublist_subseteq in Hx; [|apply dedup_sublist]. rewrite <- sort_by_perm in Hx.
    rewrite Forall_forall in Hu. by apply Hu. }
  unfold is_u64, vsize in *. repeat (split; [first [done | lia]|]). done.
Qed.

Lemma content_preimage_inj s t : snapshot_ok s -> snapshot_ok t ->
  content_preimage s = content_preimage t -> snap_id s = snap_id t ->
  snap_received_at s = snap_received_at t -> s = t.
Proof.
  destruct s as [id src ep inc seq tg ca ra ttl cov un obs [a b c d] ev],
    t as [id' src' ep' inc' seq' tg' ca' ra' ttl' cov' un' obs' [a' b' c' d'] ev'].
  unfold snapshot_ok, content_preimage.
  cbn [snap_id snap_source snap_epoch snap_incarnation snap_sequence snap_target snap_collected_at
       snap_received_at snap_ttl_nanos snap_coverage snap_unobserved snap_objects snap_capabilities
       snap_evidence asserts_absence complete_coverage reports_nested_paths cap_evidence].
  intros (H1 & H2 & H3 & H4 & H5 & H6 & H7 & H8 & H9 & H10 & H11)
    (K1 & K2 & K3 & K4 & K5 & K6 & K7 & K8 & K9 & K10 & K11) E -> ->.
  apply app_inv_head in E.
  rewrite <- (app_nil_r (flat_map object_preimage obs)),
    <- (app_nil_r (flat_map object_preimage obs')) in E.
  do 7 peel E. cbn [app] in E. do 7 peel E. subst.
  apply (flat_map_inj _ (fun id => is_u64 (ssize id))) in E as [-> E];
    [| |done|unfold vsize in *; lia].
  2: { eapply Forall_impl; [exact H9|]. intros x Hx y r s Hy. by apply length_prefixed_app_inj. }
  peel E.
  apply (flat_map_inj _ object_ok) in E as [-> _]; [| |done|unfold vsize in *; lia].
  2: { eapply Forall_impl; [exact H11|]. intros x Hx y r s Hy. by apply object_preimage_inj. }
  repeat match goal with
  | H : code _ = code _ |- _ => apply code_inj in H as ->
  | H : flag _ = flag _ |- _ => apply flag_inj in H as ->
  | H : to_u64 _ = to_u64 _ |- _ => apply to_u64_inj in H as ->; [|done..]
  end. done.
Qed.

(** ** Properties *)

(** The identity of a snapshot is exactly what its source asserted: the
    content digest is the SHA-256 of an encoding that ignores the declared
    identity, the local receive time, and the order and repetition of the
    unobserved list, and that two snapshots share only when everything else
    they assert is the same. *)
Theorem Snapshot_identity (s t : ObservationSnapshot) (Hs : snapshot_ok s) (Ht : snapshot_ok t) :
  Snapshot_ComputeContentDigest s = sha256_spec (content_preimage (asserted s)) /\
  (content_preimage (asserted s) = content_preimage (asserted t) <-> asserted s = asserted t) /\
  (forall id received_at unobserved, Permutation unobserved (snap_unobserved s) ->
     Snapshot_ComputeContentDigest
       (s <| snap_id := id |> <| snap_received_at := received_at |>
          <| snap_unobserved := unobserved |>) = Snapshot_ComputeContentDigest s).
Proof.
  split; [apply Snapshot_digest_preimage|]. split.
  - split; [|by intros ->]. intros E. apply content_preimage_inj; auto using asserted_ok.
  - intros id ra un Hp. rewrite !Snapshot_digest_preimage. do 2 f_equal.
    assert (Hu : unobserved_view (s <| snap_id := id |> <| snap_received_at := ra |>
                                    <| snap_unobserved := un |>) = unobserved_view s).
    { unfold unobserved_view. cbn [snap_unobserved update eta]. by rewrite (sort_by_ltb_canonical _ _ Hp). }
    unfold asserted. rewrite Hu. reflexivity.
Qed.

Lemma Snapshot_identity_witness :
  let s unobserved := mkSnapshot "local" "src" 1 2 3 "t" 1000 1005 50 OC_Complete unobserved
    [("vlan", mkObservedObject "vlan" OP_Present [])] (mkCapabilities true true false EC_Real) EC_Real in
  snapshot_ok (s ["b"; "a"]) /\
  Snapshot_ComputeContentDigest
    ((s ["b"; "a"]) <| snap_id := "other" |> <| snap_received_at := 7 |> <| snap_unobserved := ["a"; "b"] |>) =
  Snapshot_ComputeContentDigest (s ["b"; "a"]).
Proof.
  cbv zeta. assert (Hok : snapshot_ok (mkSnapshot "local" "src" 1 2 3 "t" 1000 1005 50 OC_Complete
    ["b"; "a"] [("vlan", mkObservedObject "vlan" OP_Present [])]
    (mkCapabilities true true false EC_Real) EC_Real)).
  { repeat split; repeat constructor; try discriminate. }
  split; [exact Hok|].
  refine (proj2 (proj2 (Snapshot_identity _ _ Hok Hok)) "other" 7 ["a"; "b"] _). apply perm_swap.
Defined.
