(* ===== verification/Freshness.v ===== *)
(** * Freshness

    freshness.hpp/freshness.cpp: where one snapshot sits relative to the time to
    live.  A verdict is a pure function of the snapshot, the policy, the clock
    reading, the live epoch and whether the record was recovered from disk. *)

From Stdlib Require Import ZArith Lia List Bool String.
From stdpp Require Import base tactics list strings.
From S2P Require Import Prelude Containers Text Hash Status Time Identity Double Value Intent Observation.
#[local] Open Scope string_scope.
#[local] Open Scope Z_scope.

Inductive FreshnessState : Set :=
| FS_Unknown | FS_Fresh | FS_Aging | FS_Stale | FS_Expired | FS_Future | FS_RecoveredNotFresh.

#[export, refine] Instance enum_FreshnessState : Enum FreshnessState :=
  {| code v := match v with
               | FS_Unknown => 0 | FS_Fresh => 1 | FS_Aging => 2 | FS_Stale => 3 | FS_Expired => 4
               | FS_Future => 5 | FS_RecoveredNotFresh => 6 end;
     values := [FS_Unknown; FS_Fresh; FS_Aging; FS_Stale; FS_Expired; FS_Future;
                FS_RecoveredNotFresh] |}.
Proof. enum_complete. Defined.

Definition kStateNames : list (Z * string) :=
  [(0, "unknown"); (1, "fresh"); (2, "aging"); (3, "stale"); (4, "expired"); (5, "future");
   (6, "recovered-not-fresh")].

Definition ToText_FreshnessState (value : FreshnessState) : string :=
  Lookup kStateNames "unknown" (code value).
Definition TryParseFreshnessState (text : string) : option FreshnessState :=
  TryParseEnum kStateNames text.

Record FreshnessPolicy := mkFreshnessPolicy {
  fp_ttl_nanos : Z;
  fp_aging_threshold_percent : Z;
  fp_max_clock_skew_nanos : Z;
  fp_ttl_applies_to_receive_time : bool
}.

#[export] Instance eta_FreshnessPolicy : Eta FreshnessPolicy := fun p =>
  mkFreshnessPolicy (fp_ttl_nanos p) (fp_aging_threshold_percent p) (fp_max_clock_skew_nanos p)
    (fp_ttl_applies_to_receive_time p).

Definition default_freshness : FreshnessPolicy :=
  mkFreshnessPolicy (300 * 1000 * 1000 * 1000) 80 (5 * 1000 * 1000 * 1000) true.

Record FreshnessVerdict := mkFreshnessVerdict {
  fv_state : FreshnessState;
  fv_reason : ReasonCode;
  fv_age_nanos : Z;
  fv_effective_ttl_nanos : Z;
  fv_may_support_compliance : bool;
  fv_may_assert_absence : bool
}.

Definition is_fresh (v : FreshnessVerdict) : bool :=
  eqb (fv_state v) FS_Fresh || eqb (fv_state v) FS_Aging.

(** The policy value, or a stricter one the source asked for. *)
Definition effective_ttl (snapshot : ObservationSnapshot) (policy : FreshnessPolicy) : Z :=
  if (0 <? snap_ttl_nanos snapshot) && (snap_ttl_nanos snapshot <? fp_ttl_nanos policy)
  then snap_ttl_nanos snapshot else fp_ttl_nanos policy.

(** The aging threshold, dividing before multiplying. *)
Definition aging_threshold (ttl percent : Z) : Z :=
  let percent := if percent <? 0 then 0 else if 100 <? percent then 100 else percent in
  Z.quot ttl 100 * percent + Z.quot (Z.rem ttl 100 * percent) 100.

(** [EvaluateFreshness]: the first test that fails decides. *)
Definition EvaluateFreshness (snapshot : ObservationSnapshot) (policy : FreshnessPolicy)
    (now : NdoTime) (live_epoch : Z) (recovered_from_durable_state : bool) : FreshnessVerdict :=
  let ttl := effective_ttl snapshot policy in
  let refused state reason age := mkFreshnessVerdict state reason age ttl false false in
  match (if time_is_set (snap_collected_at snapshot)
         then TryDifference now (snap_collected_at snapshot) else None) with
  | None => refused FS_Unknown RC_NoFreshEvidence 0
  | Some age =>
      if recovered_from_durable_state then refused FS_RecoveredNotFresh RC_EvidenceRecoveredNotFresh age
      else if uint_is_set live_epoch && negb (snap_epoch snapshot =? live_epoch)
      then refused FS_Expired RC_ObservationForeignEpoch age
      else if age <? - fp_max_clock_skew_nanos policy
      then refused FS_Future RC_ObservationClockRegression age
      else if ttl <=? 0 then refused FS_Expired RC_ObservationExpired age
      else if ttl <? age then refused FS_Stale RC_ObservationExpired age
      else
        let held :=
          if fp_ttl_applies_to_receive_time policy && time_is_set (snap_received_at snapshot)
          then match TryDifference now (snap_received_at snapshot) with
               | None => Some (FS_Unknown, RC_ObservationClockRegression)
               | Some receive_age =>
                   if ttl <? receive_age then Some (FS_Stale, RC_ObservationExpired) else None
               end
          else None in
        match held with
        | Some (state, reason) => refused state reason age
        | None =>
            let threshold := aging_threshold ttl (fp_aging_threshold_percent policy) in
            mkFreshnessVerdict (if threshold <? age then FS_Aging else FS_Fresh) RC_None age ttl
              true (asserts_absence (snap_capabilities snapshot))
        end
  end.

(** ** Facts *)

(** Evidence that may support a conclusion, by its inputs. *)
Definition usable_evidence (s : ObservationSnapshot) (policy : FreshnessPolicy) (now : NdoTime)
    (live_epoch : Z) (recovered : bool) : Prop :=
  let age := now - snap_collected_at s in
  let held := now - snap_received_at s in
  recovered = false /\
  snap_collected_at s <> 0 /\ is_i64 age /\
  (live_epoch = 0 \/ snap_epoch s = live_epoch) /\
  0 < effective_ttl s policy /\
  - fp_max_clock_skew_nanos policy <= age <= effective_ttl s policy /\
  (fp_ttl_applies_to_receive_time policy = true -> snap_received_at s <> 0 ->
     is_i64 held /\ held <= effective_ttl s policy).

Lemma effective_ttl_le s policy : effective_ttl s policy <= fp_ttl_nanos policy /\
  (0 < snap_ttl_nanos s -> effective_ttl s policy <= snap_ttl_nanos s).
Proof. unfold effective_ttl. destruct (_ && _) eqn:E; breflect; [lia|]. apply andb_false_iff in E.
  destruct E; breflect; lia. Qed.

(** Dividing first gives the exact floor of the percentage, without overflow. *)
Lemma aging_threshold_exact ttl percent : 0 <= ttl <= INT64_MAX ->
  aging_threshold ttl percent = ttl * Z.max 0 (Z.min 100 percent) / 100 /\
  0 <= aging_threshold ttl percent <= ttl /\
  0 <= Z.quot ttl 100 * Z.max 0 (Z.min 100 percent) <= INT64_MAX /\
  0 <= Z.rem ttl 100 * Z.max 0 (Z.min 100 percent) <= INT64_MAX.
Proof.
  intros Ht. unfold aging_threshold, INT64_MAX in *.
  assert (Hp : (if percent <? 0 then 0 else if 100 <? percent then 100 else percent) =
               Z.max 0 (Z.min 100 percent)).
  { destruct (Z.ltb_spec percent 0), (Z.ltb_spec 100 percent); lia. }
  rewrite Hp. clear Hp. assert (0 <= Z.max 0 (Z.min 100 percent) <= 100) by lia.
  generalize dependent (Z.max 0 (Z.min 100 percent)). intros p Hp.
  rewrite Z.rem_mod_nonneg, (Z.quot_div_nonneg ttl) by lia.
  pose proof (Z.div_mod ttl 100 ltac:(lia)) as E. pose proof (Z.mod_pos_bound ttl 100 ltac:(lia)) as B.
  set (q := ttl / 100) in *. set (r := ttl mod 100) in *.
  assert (Hq : 0 <= q) by (apply Z.div_pos; lia).
  assert (Hsum : q * p + r * p / 100 = ttl * p / 100).
  { rewrite E. replace ((100 * q + r) * p) with (r * p + (q * p) * 100) by ring.
    rewrite Z.div_add by lia. ring. }
  rewrite (Z.quot_div_nonneg (r * p)) by nia. rewrite Hsum. split; [done|]. split; [|nia].
  split; [apply Z.div_pos; nia|]. apply Z.div_le_upper_bound; nia.
Qed.

(** The shape of the statement below, for a verdict that refuses and for one that
    accepts. *)
Lemma refused_verdict (P Q : Prop) state reason age ttl :
  is_fresh (mkFreshnessVerdict state reason age ttl false false) = false -> ~ P ->
  let v := mkFreshnessVerdict state reason age ttl false false in
  (fv_may_support_compliance v = true <-> P) /\ is_fresh v = fv_may_support_compliance v /\
  (fv_may_support_compliance v = true -> Q) /\
  (fv_may_support_compliance v = false -> fv_may_assert_absence v = false).
Proof. cbn. intros Hf Hn. rewrite Hf. naive_solver. Qed.

Lemma usable_verdict (P : Prop) age ttl percent policy_ttl absence :
  P -> 0 <= ttl <= policy_ttl /\ policy_ttl <= INT64_MAX ->
  let v := mkFreshnessVerdict (if aging_threshold ttl percent <? age then FS_Aging else FS_Fresh)
             RC_None age ttl true absence in
  (fv_may_support_compliance v = true <-> P) /\ is_fresh v = fv_may_support_compliance v /\
  (fv_may_support_compliance v = true ->
     fv_age_nanos v = age /\ fv_effective_ttl_nanos v <= policy_ttl /\
     (fv_state v = FS_Aging <->
      fv_effective_ttl_nanos v * Z.max 0 (Z.min 100 percent) / 100 < fv_age_nanos v) /\
     fv_may_assert_absence v = absence) /\
  (fv_may_support_compliance v = false -> fv_may_assert_absence v = false).
Proof.
  intros HP Ht. cbn [fv_may_support_compliance fv_age_nanos fv_effective_ttl_nanos fv_state
                     fv_may_assert_absence].
  destruct (aging_threshold_exact ttl percent) as [E _]; [lia|]. rewrite <- E.
  split; [naive_solver|]. split; [by destruct (_ <? age)|]. split; [|done]. intros _.
  repeat split; [lia| |]; destruct (Z.ltb_spec (aging_threshold ttl percent) age); naive_solver lia.
Qed.

(** Closes a case in which the source returns a refusal. *)
Ltac refuse := apply refused_verdict; [reflexivity|]; intros (? & ? & ? & ? & ? & ? & Hheld);
  breflect; try (destruct Hheld); try lia; try done.

(** ** Properties *)

(** C38. Fail-closed freshness: evidence may support a compliance conclusion
    exactly when it was not recovered from disk, its age is known and inside
    [-skew, ttl], it was collected under the live epoch, and it has not been held
    longer than its lifetime.  The lifetime is never longer than policy, the state
    is then [Fresh] or [Aging] on the exact side of the percentage threshold, and
    absence may only be asserted by usable evidence of a source that can. *)
Theorem EvaluateFreshness_fail_closed (s : ObservationSnapshot) (policy : FreshnessPolicy)
  (now : NdoTime) (live_epoch : Z) (recovered : bool)
  (Hnow : is_i64 now) (Hc : is_i64 (snap_collected_at s)) (Hr : is_i64 (snap_received_at s))
  (Hc' : snap_collected_at s <> INT64_MIN) (Hr' : snap_received_at s <> INT64_MIN)
  (Httl : is_i64 (fp_ttl_nanos policy)) :
  let v := EvaluateFreshness s policy now live_epoch recovered in
  (fv_may_support_compliance v = true <-> usable_evidence s policy now live_epoch recovered) /\
  (is_fresh v = fv_may_support_compliance v) /\
  (fv_may_support_compliance v = true ->
     fv_age_nanos v = now - snap_collected_at s /\
     fv_effective_ttl_nanos v <= fp_ttl_nanos policy /\
     (fv_state v = FS_Aging <->
      fv_effective_ttl_nanos v * Z.max 0 (Z.min 100 (fp_aging_threshold_percent policy)) / 100
        < fv_age_nanos v) /\
     fv_may_assert_absence v = asserts_absence (snap_capabilities s)) /\
  (fv_may_support_compliance v = false -> fv_may_assert_absence v = false).
Proof.
  cbv zeta. unfold EvaluateFreshness, usable_evidence, time_is_set, uint_is_set.
  pose proof (effective_ttl_le s policy) as [Hle _].
  rewrite !TryDifference_spec by done.
  rewrite (proj2 (Z.eqb_neq _ INT64_MIN) Hc'), (proj2 (Z.eqb_neq _ INT64_MIN) Hr').
  set (ttl := effective_ttl s policy) in *. cbn [negb]. rewrite !andb_true_r.
  set (age := now - snap_collected_at s). set (held := now - snap_received_at s).
  unfold is_i64 in *.
  destruct (Z.eqb_spec (snap_collected_at s) 0); cbn [negb]; [refuse|].
  destruct ((INT64_MIN <=? age) && (age <=? INT64_MAX)) eqn:Eage; [|apply andb_false_iff in Eage as [Eage|Eage]; refuse].
  destruct recovered; [refuse|].
  destruct (negb (live_epoch =? 0) && negb (snap_epoch s =? live_epoch)) eqn:Eepoch; [refuse|]. apply andb_false_iff in Eepoch.
  destruct (age <? _) eqn:Eskew; [refuse|].
  destruct (ttl <=? 0) eqn:Ettl; [refuse|].
  destruct (ttl <? age) eqn:Estale; [refuse|].
  assert (Hepoch : live_epoch = 0 \/ snap_epoch s = live_epoch)
    by (destruct Eepoch as [E|E]; breflect; lia).
  destruct (fp_ttl_applies_to_receive_time policy); cbn [andb].
  - destruct (Z.eqb_spec (snap_received_at s) 0); cbn [negb].
    + breflect. apply usable_verdict; [repeat split; lia|lia].
    + destruct ((INT64_MIN <=? held) && (held <=? INT64_MAX)) eqn:Eheld;
        [|apply andb_false_iff in Eheld as [Eheld|Eheld]; refuse].
      destruct (ttl <? held) eqn:Eh; [refuse|]. breflect.
      apply usable_verdict; [repeat split; try done; lia|lia].
  - breflect. apply usable_verdict; [repeat split; try done; lia|lia].
Qed.

Lemma EvaluateFreshness_fail_closed_witness :
  let s := mkSnapshot "s" "src" 3 1 1 "t" 1000 1005 50 OC_Complete [] []
             (mkCapabilities true true false EC_Real) EC_Real in
  let v := EvaluateFreshness s (mkFreshnessPolicy 100 80 10 true) 1045 3 false in
  fv_state v = FS_Aging /\ fv_may_assert_absence v = true /\
  fv_may_support_compliance (EvaluateFreshness s (mkFreshnessPolicy 100 80 10 true) 1051 3 false) = false.
Proof.
  cbv zeta. split; [vm_compute; reflexivity|]. split; [|vm_compute; reflexivity].
  refine (proj2 (proj2 (proj2 (proj1 (proj2 (proj2
    (EvaluateFreshness_fail_closed _ _ 1045 3 false _ _ _ _ _ _))) _))));
    try (vm_compute; reflexivity);
    first [ vm_compute; split; discriminate | vm_compute; discriminate ].
Defined.
