(* ===== verification/Policy.v ===== *)
(** * Observatory policy

    policy.hpp/policy.cpp without the documents of PolicyCodec.v: selectors, the four rule
    lists, the policy's digest and validation, and the four look-ups the
    comparison and the ledger make. *)

From Stdlib Require Import ZArith Lia List Bool String.
From stdpp Require Import base tactics list strings.
From S2P Require Import Prelude Containers Text Hash Status Time Identity Double Value Drift Intent.
From S2P Require Import Observation Freshness.
#[local] Open Scope string_scope.
#[local] Open Scope Z_scope.

Definition kMaxPolicyRules : Z := 4096.
Definition kPolicySchemaTag : Z := 1.
Definition kPolicyFormatVersion : Z := 1.
Definition kPolicyTag : string := "ndo/policy/v1".

Record PolicySelector := mkSelector {
  sel_target : option string;
  sel_object : option string;
  sel_path_prefix : option FieldPath
}.

Record SeverityRule := mkSeverityRule {
  sr_selector : PolicySelector;
  sr_klass : option DriftClass;
  sr_min_severity : option Severity;
  sr_severity : Severity
}.

Record FreshnessRule := mkFreshnessRule { fr_selector : PolicySelector; fr_ttl_nanos : Z }.

Record FieldClassRule := mkFieldClassRule {
  fc_selector : PolicySelector;
  fc_comparability : FieldComparability
}.

Record SuppressionRule := mkSuppressionRule {
  sup_id : string;
  sup_selector : PolicySelector;
  sup_klass : option DriftClass;
  sup_min_severity : option Severity;
  sup_author : string;
  sup_reason : string;
  sup_created_at : NdoTime;
  sup_expires_at : option NdoTime
}.

Record ObservatoryPolicy := mkPolicy {
  pol_id : string;
  pol_format_version : Z;
  pol_freshness : FreshnessPolicy;
  pol_resolution_confirmations : Z;
  pol_require_complete_coverage : bool;
  pol_require_absence_authority : bool;
  pol_numeric_equivalence : NumericEquivalence;
  pol_default_severity : Severity;
  pol_severity_rules : list SeverityRule;
  pol_freshness_rules : list FreshnessRule;
  pol_field_class_rules : list FieldClassRule;
  pol_suppressions : list SuppressionRule;
  pol_source_priority : list string;
  pol_required_targets : list string;
  pol_evidence : EvidenceClass
}.

#[export] Instance eta_ObservatoryPolicy : Eta ObservatoryPolicy := fun p =>
  mkPolicy (pol_id p) (pol_format_version p) (pol_freshness p) (pol_resolution_confirmations p)
    (pol_require_complete_coverage p) (pol_require_absence_authority p) (pol_numeric_equivalence p)
    (pol_default_severity p) (pol_severity_rules p) (pol_freshness_rules p)
    (pol_field_class_rules p) (pol_suppressions p) (pol_source_priority p) (pol_required_targets p)
    (pol_evidence p).

(** [ObservatoryPolicy::Default]. *)
Definition Policy_Default : ObservatoryPolicy :=
  mkPolicy "policy/default" kPolicyFormatVersion default_freshness 1 true true NE_Numeric Sev_Medium
    [] [] [] [] [] [] EC_Unknown.

(** ** Selectors *)

Definition has_value {A} (o : option A) : bool := match o with Some _ => true | None => false end.

Definition SelectorSpecificity (selector : PolicySelector) : Z :=
  (if has_value (sel_target selector) then 8 else 0) +
  (if has_value (sel_object selector) then 4 else 0) +
  (if has_value (sel_path_prefix selector) then 2 else 0).

(** [o.has_value() && !test( *o )] is the refusal; this is its negation. *)
Definition unset_or {A} (o : option A) (test : A -> bool) : bool :=
  match o with Some x => test x | None => true end.

Definition Matches (selector : PolicySelector) (target_id object_id : string) (path : FieldPath) : bool :=
  unset_or (sel_target selector) (fun t => eqb t target_id) &&
  unset_or (sel_object selector) (fun o => eqb o object_id) &&
  unset_or (sel_path_prefix selector) (fun p => IsPrefixOf p path).

Definition IsSubsetOf (selector other : PolicySelector) : bool :=
  unset_or (sel_target other) (fun t =>
    match sel_target selector with Some mine => eqb mine t | None => false end) &&
  unset_or (sel_object other) (fun o =>
    match sel_object selector with Some mine => eqb mine o | None => false end) &&
  unset_or (sel_path_prefix other) (fun p =>
    match sel_path_prefix selector with Some mine => IsPrefixOf p mine | None => false end).

Definition is_expired_at (rule : SuppressionRule) (now : NdoTime) : bool :=
  match sup_expires_at rule with Some at_ => at_ <=? now | None => false end.

(** ** Digest *)

Definition or_empty (o : option string) : string := match o with Some s => s | None => "" end.

Definition hash_selector (hasher : Sha256) (selector : PolicySelector) : Sha256 :=
  let hasher := UpdateLengthPrefixed hasher (or_empty (sel_target selector)) in
  let hasher := UpdateLengthPrefixed hasher (or_empty (sel_object selector)) in
  UpdateLengthPrefixed hasher
    (match sel_path_prefix selector with Some p => FieldPath_ToText p | None => "" end).

Definition hash_class (hasher : Sha256) (klass : option DriftClass) : Sha256 :=
  UpdateLengthPrefixed hasher (match klass with Some k => ToText_DriftClass k | None => "" end).

Definition hash_min_severity (hasher : Sha256) (minimum : option Severity) : Sha256 :=
  UpdateByte hasher (match minimum with Some s => code s + 1 | None => 0 end).

Definition hash_severity_rule (hasher : Sha256) (rule : SeverityRule) : Sha256 :=
  let hasher := hash_selector hasher (sr_selector rule) in
  let hasher := hash_class hasher (sr_klass rule) in
  let hasher := hash_min_severity hasher (sr_min_severity rule) in
  UpdateByte hasher (code (sr_severity rule)).

Definition hash_freshness_rule (hasher : Sha256) (rule : FreshnessRule) : Sha256 :=
  UpdateU64 (hash_selector hasher (fr_selector rule)) (to_u64 (fr_ttl_nanos rule)).

Definition hash_field_class_rule (hasher : Sha256) (rule : FieldClassRule) : Sha256 :=
  UpdateByte (hash_selector hasher (fc_selector rule)) (code (fc_comparability rule)).

Definition hash_suppression (hasher : Sha256) (rule : SuppressionRule) : Sha256 :=
  let hasher := UpdateLengthPrefixed hasher (sup_id rule) in
  let hasher := hash_selector hasher (sup_selector rule) in
  let hasher := hash_class hasher (sup_klass rule) in
  let hasher := hash_min_severity hasher (sup_min_severity rule) in
  let hasher := UpdateLengthPrefixed hasher (sup_author rule) in
  let hasher := UpdateLengthPrefixed hasher (sup_reason rule) in
  let hasher := UpdateU64 hasher (to_u64 (sup_created_at rule)) in
  UpdateU64 hasher (to_u64 (match sup_expires_at rule with Some t => t | None => 0 end)).

Definition hash_list {A} (each : Sha256 -> A -> Sha256) (hasher : Sha256) (l : list A) : Sha256 :=
  foldl each (UpdateU64 hasher (vsize l)) l.

Definition Policy_ComputeDigest (p : ObservatoryPolicy) : Digest :=
  let hasher := UpdateTag Sha256_init kPolicyTag in
  let hasher := UpdateU64 hasher kPolicySchemaTag in
  let hasher := UpdateLengthPrefixed hasher (pol_id p) in
  let hasher := UpdateU64 hasher (pol_format_version p) in
  let hasher := UpdateU64 hasher (to_u64 (fp_ttl_nanos (pol_freshness p))) in
  let hasher := UpdateU64 hasher (to_u64 (fp_aging_threshold_percent (pol_freshness p))) in
  let hasher := UpdateU64 hasher (to_u64 (fp_max_clock_skew_nanos (pol_freshness p))) in
  let hasher := UpdateByte hasher (flag (fp_ttl_applies_to_receive_time (pol_freshness p))) in
  let hasher := UpdateU64 hasher (pol_resolution_confirmations p) in
  let hasher := UpdateByte hasher (flag (pol_require_complete_coverage p)) in
  let hasher := UpdateByte hasher (flag (pol_require_absence_authority p)) in
  let hasher := UpdateByte hasher (code (pol_numeric_equivalence p)) in
  let hasher := UpdateByte hasher (code (pol_default_severity p)) in
  let hasher := UpdateByte hasher (code (pol_evidence p)) in
  let hasher := hash_list hash_severity_rule hasher (pol_severity_rules p) in
  let hasher := hash_list hash_freshness_rule hasher (pol_freshness_rules p) in
  let hasher := hash_list hash_field_class_rule hasher (pol_field_class_rules p) in
  let hasher := hash_list hash_suppression hasher (pol_suppressions p) in
  let hasher := hash_list UpdateLengthPrefixed hasher (pol_source_priority p) in
  let hasher := hash_list UpdateLengthPrefixed hasher (pol_required_targets p) in
  Final hasher.

(** ** Validation *)

Definition invalid_id (id : string) : bool := String.eqb id "" || negb (IsValidIdentityText id).

Definition Policy_Validate (limits : RuntimeLimits) (p : ObservatoryPolicy) : Status :=
  if invalid_id (pol_id p)
  then Status_Rejected RC_EncodingMalformed "policy identity is invalid"
  else if negb (pol_format_version p =? kPolicyFormatVersion)
  then Status_Rejected RC_LedgerSchemaUnsupported "policy format version is not supported"
  else if fp_ttl_nanos (pol_freshness p) <=? 0
  then Status_Rejected RC_EncodingMalformed "freshness ttl must be positive"
  else if (fp_aging_threshold_percent (pol_freshness p) <? 0) ||
          (100 <? fp_aging_threshold_percent (pol_freshness p))
  then Status_Rejected RC_EncodingMalformed "aging threshold percent must be within 0..100"
  else if fp_max_clock_skew_nanos (pol_freshness p) <? 0
  then Status_Rejected RC_EncodingMalformed "clock skew tolerance must not be negative"
  else if pol_resolution_confirmations p =? 0
  then Status_Rejected RC_EncodingMalformed "resolution confirmations must be at least one"
  else if (kMaxPolicyRules <? vsize (pol_severity_rules p)) ||
          (kMaxPolicyRules <? vsize (pol_freshness_rules p)) ||
          (kMaxPolicyRules <? vsize (pol_field_class_rules p))
  then Status_Limit RC_LimitFieldsExceeded "policy rule count exceeds the envelope"
  else if max_suppressions limits <? vsize (pol_suppressions p)
  then Status_Limit RC_LimitFieldsExceeded "policy suppression count exceeds the envelope"
  else if max_sources limits <? vsize (pol_source_priority p)
  then Status_Limit RC_LimitObjectsExceeded "policy source order exceeds the envelope"
  else if max_targets limits <? vsize (pol_required_targets p)
  then Status_Limit RC_LimitObjectsExceeded "policy target list exceeds the envelope"
  else
    for_status (fun rule =>
      match sel_path_prefix (sr_selector rule) with
      | Some prefix =>
          if max_path_segments limits <? vsize prefix
          then Status_Limit RC_LimitDepthExceeded "policy path prefix is too deep"
          else Status_Ok
      | None => Status_Ok
      end) (pol_severity_rules p) ;;?
    for_status (fun rule =>
      if fr_ttl_nanos rule <=? 0
      then Status_Rejected RC_EncodingMalformed "freshness rule ttl must be positive"
      else Status_Ok) (pol_freshness_rules p) ;;?
    for_status (fun rule =>
      if String.eqb (sup_id rule) ""
      then Status_Rejected RC_EncodingMalformed "suppression identity is invalid"
      else if String.eqb (sup_author rule) ""
      then Status_Rejected RC_EncodingMalformed "suppression author is invalid"
      else Status_Ok) (pol_suppressions p) ;;?
    for_status (fun source =>
      if invalid_id source
      then Status_Rejected RC_EncodingMalformed "source priority identity is invalid"
      else Status_Ok) (pol_source_priority p) ;;?
    for_status (fun target =>
      if invalid_id target
      then Status_Rejected RC_EncodingMalformed "required target identity is invalid"
      else Status_Ok) (pol_required_targets p).

(** ** Look-ups *)

Section Lookups.
Variable p : ObservatoryPolicy.
Variables target object : string.
Variable path : FieldPath.

(** The running best of [TtlFor]: its specificity and the chosen lifetime. *)
Definition ttl_step (acc : Z * Z) (rule : FreshnessRule) : Z * Z :=
  let '(best, ttl) := acc in
  if negb (Matches (fr_selector rule) target object path) then acc
  else
    let specificity := SelectorSpecificity (fr_selector rule) in
    if best <=? specificity then (specificity, fr_ttl_nanos rule) else acc.

Definition TtlFor : Z :=
  snd (foldl ttl_step (-1, fp_ttl_nanos (pol_freshness p)) (pol_freshness_rules p)).

Definition severity_specificity (rule : SeverityRule) : Z :=
  SelectorSpecificity (sr_selector rule) * 4 +
  (if has_value (sr_klass rule) then 1 else 0) +
  (if has_value (sr_min_severity rule) then 1 else 0).

(** [min_severity] is tested against the severity chosen so far. *)
Definition severity_step (klass : DriftClass) (acc : Z * Severity) (rule : SeverityRule)
    : Z * Severity :=
  let '(best, severity) := acc in
  if negb (Matches (sr_selector rule) target object path) then acc
  else if negb (unset_or (sr_klass rule) (fun k => eqb k klass)) then acc
  else if negb (unset_or (sr_min_severity rule) (fun m => SeverityRank m <=? SeverityRank severity))
  then acc
  else if best <=? severity_specificity rule then (severity_specificity rule, sr_severity rule)
  else acc.

Definition SeverityFor (klass : DriftClass) : Severity :=
  snd (foldl (severity_step klass) (-1, pol_default_severity p) (pol_severity_rules p)).

Definition ComparabilityRank (value : FieldComparability) : Z := code value.

Definition field_class_step (rank : Z) (rule : FieldClassRule) : Z :=
  if negb (Matches (fc_selector rule) target object path) then rank
  else Z.max rank (ComparabilityRank (fc_comparability rule)).

Definition ClassifyField (intent_view : FieldComparability) : FieldComparability :=
  let rank := foldl field_class_step (ComparabilityRank intent_view) (pol_field_class_rules p) in
  match of_code rank with Some c => c | None => intent_view end.

(** Whether one rule applies at [now]. *)
Definition suppression_applies (klass : DriftClass) (severity : Severity) (now : NdoTime)
    (rule : SuppressionRule) : bool :=
  negb (is_expired_at rule now) &&
  Matches (sup_selector rule) target object path &&
  unset_or (sup_klass rule) (fun k => eqb k klass) &&
  unset_or (sup_min_severity rule) (fun m => SeverityRank m <=? SeverityRank severity).

Definition FindSuppression (klass : DriftClass) (severity : Severity) (now : NdoTime)
    : option SuppressionRule :=
  List.find (suppression_applies klass severity now) (pol_suppressions p).
End Lookups.

(** ** Facts *)

Lemma IsPrefixOf_spec p q : IsPrefixOf p q = true <-> exists r, q = (p ++ r)%list.
Proof.
  revert q. induction p as [|a p IH]; intros [|b q]; cbn; try naive_solver.
  rewrite andb_true_iff, eqb_eq, IH. naive_solver.
Qed.

Lemma IsPrefixOf_trans p q r : IsPrefixOf p q = true -> IsPrefixOf q r = true -> IsPrefixOf p r = true.
Proof.
  rewrite !IsPrefixOf_spec. intros [x ->] [y ->]. exists (x ++ y)%list. by rewrite app_assoc.
Qed.

(** The last rule of highest score among those that apply, found by one pass. *)
Lemma foldl_best {A V} (applies : A -> bool) (score : A -> Z) (value : A -> V) rules best0 v0 :
  let step acc r :=
    if negb (applies r) then acc
    else if fst acc <=? score r then (score r, value r) else acc in
  let res := foldl step (best0, v0) rules in
  (res = (best0, v0) /\ Forall (fun r => applies r = true -> score r < best0) rules) \/
  (exists pre r post, rules = (pre ++ r :: post)%list /\ applies r = true /\ best0 <= score r /\
     res = (score r, value r) /\
     Forall (fun x => applies x = true -> score x <= score r) pre /\
     Forall (fun x => applies x = true -> score x < score r) post).
Proof.
  cbv zeta. induction rules as [|x rules IH] using rev_ind; [left; by split|].
  rewrite foldl_app. cbn [foldl]. set (acc := foldl _ (best0, v0) rules) in *.
  destruct (applies x) eqn:Hx; cbn [negb].
  - destruct (fst acc <=? score x) eqn:Hs; breflect.
    + right. exists rules, x, []. split; [done|]. split; [done|].
      destruct IH as [[E HF]|(pre & r & post & -> & Hr & Hb & E & Hpre & Hpost)]; rewrite E in Hs; cbn in Hs.
      * split; [done|]. split; [done|]. split; [|constructor].
        eapply Forall_impl; [exact HF|]. intros y Hy Hay. specialize (Hy Hay). lia.
      * split; [lia|]. split; [done|]. split; [|constructor].
        apply Forall_app. split; [|constructor; [intros; done|]];
          (eapply Forall_impl; [eassumption|]; intros y Hy Hay; specialize (Hy Hay); lia).
    + destruct IH as [[E HF]|(pre & r & post & -> & Hr & Hb & E & Hpre & Hpost)]; rewrite E in Hs; cbn in Hs.
      * left. split; [done|]. apply Forall_app. split; [done|]. by repeat constructor.
      * right. exists pre, r, (post ++ [x])%list. split; [by rewrite <- app_assoc|].
        repeat (split; [done|]). apply Forall_app. split; [done|]. by repeat constructor.
  - destruct IH as [[E HF]|(pre & r & post & -> & Hr & Hb & E & Hpre & Hpost)].
    + left. split; [done|]. apply Forall_app. split; [done|]. repeat constructor. congruence.
    + right. exists pre, r, (post ++ [x])%list. split; [by rewrite <- app_assoc|].
      repeat (split; [done|]). apply Forall_app. split; [done|]. repeat constructor. congruence.
Qed.

Lemma specificity_nonneg s : 0 <= SelectorSpecificity s.
Proof.
  unfold SelectorSpecificity.
  destruct (has_value _), (has_value (sel_object s)), (has_value (sel_path_prefix s)); lia.
Qed.

Section LookupFacts.
Variable p : ObservatoryPolicy.
Variables target object : string.
Variable path : FieldPath.

(** The ranks a rule can raise a field to. *)
Lemma classify_fold rules rank : 0 <= rank <= 4 ->
  let out := foldl (field_class_step target object path) rank rules in
  rank <= out <= 4 /\
  (forall rule, rule ∈ rules -> Matches (fc_selector rule) target object path = true ->
     code (fc_comparability rule) <= out) /\
  (out = rank \/ exists rule, rule ∈ rules /\ Matches (fc_selector rule) target object path = true /\
     out = code (fc_comparability rule)).
Proof.
  cbv zeta. assert (Hcode : forall c : FieldComparability, 0 <= code c <= 4) by (intros []; cbn; lia).
  revert rank. induction rules as [|x rules IH]; intros rank Hr; cbn [foldl].
  - split; [lia|]. split; [|by left]. intros rule Hin. by apply not_elem_of_nil in Hin.
  - replace (field_class_step target object path rank x) with
      (if negb (Matches (fc_selector x) target object path) then rank
       else Z.max rank (code (fc_comparability x))) by reflexivity.
    pose proof (Hcode (fc_comparability x)).
    destruct (Matches (fc_selector x) target object path) eqn:Hx; cbn [negb].
    + destruct (IH (Z.max rank (code (fc_comparability x)))) as (I1 & I2 & I3); [lia|].
      split; [lia|]. split.
      * intros rule [->|Hin]%elem_of_cons Hm; [lia|auto].
      * destruct I3 as [->|(rule & Hin & Hm & ->)].
        -- destruct (Z.max_spec rank (code (fc_comparability x))) as [[_ ->]|[_ ->]]; [|by left].
           right. exists x. by split; [left|].
        -- right. exists rule. by split; [right|].
    + destruct (IH rank Hr) as (I1 & I2 & I3). split; [done|]. split.
      * intros rule [->|Hin]%elem_of_cons Hm; [congruence|auto].
      * destruct I3 as [->|(rule & Hin & Hm & ->)]; [by left|right].
        exists rule. by split; [right|].
Qed.

Lemma ClassifyField_code intent_view :
  code (ClassifyField p target object path intent_view) =
  foldl (field_class_step target object path) (code intent_view) (pol_field_class_rules p).
Proof.
  unfold ClassifyField, ComparabilityRank.
  destruct (classify_fold (pol_field_class_rules p) (code intent_view)) as [Hr _];
    [destruct intent_view; cbn; lia|].
  assert (Hc : forall z, 0 <= z <= 4 -> exists c : FieldComparability, of_code z = Some c /\ code c = z).
  { intros z Hz. assert (Hin : z ∈ [0; 1; 2; 3; 4]) by (rewrite !elem_of_cons; lia).
    clear Hz. revert z Hin. apply Forall_forall. repeat constructor.
    - by exists FC_Managed. - by exists FC_ObserveOnly. - by exists FC_Unmanaged.
    - by exists FC_Unobservable. - by exists FC_Unsupported. }
  set (out := foldl _ _ _) in *. destruct (Hc out) as (c & -> & E); [|done].
  assert (0 <= code intent_view) by (destruct intent_view; cbn; lia). lia.
Qed.
End LookupFacts.

(** ** Properties *)

(** Policy only narrows: the comparability of a field is never below what the
    intent says, it is at least that of every matching rule, and it is either the
    intent's own view or that of a matching rule.  In particular no rule can turn
    an unmanaged, unobservable or unsupported field back into a managed one. *)
Theorem ClassifyField_narrows (p : ObservatoryPolicy) (target object : string) (path : FieldPath)
  (intent_view : FieldComparability) :
  let out := ClassifyField p target object path intent_view in
  code intent_view <= code out /\
  (forall rule, rule ∈ pol_field_class_rules p -> Matches (fc_selector rule) target object path = true ->
     code (fc_comparability rule) <= code out) /\
  (out = intent_view \/ exists rule, rule ∈ pol_field_class_rules p /\
     Matches (fc_selector rule) target object path = true /\ out = fc_comparability rule).
Proof.
  cbv zeta. pose proof (ClassifyField_code p target object path intent_view) as E.
  destruct (classify_fold target object path (pol_field_class_rules p) (code intent_view)) as (H1 & H2 & H3);
    [destruct intent_view; cbn; lia|].
  rewrite <- E in *. split; [lia|]. split; [done|].
  destruct H3 as [H3|(rule & Hin & Hm & H3)]; apply code_inj in H3; [by left|right; eauto].
Qed.

(** The lifetime of evidence is chosen by specificity: the rule used is the
    last declared one among the most specific rules that match, and the policy's
    own lifetime is used only when no rule matches. *)
Theorem TtlFor_most_specific (p : ObservatoryPolicy) (target object : string) (path : FieldPath) :
  let applies r := Matches (fr_selector r) target object path in
  let score r := SelectorSpecificity (fr_selector r) in
  (Forall (fun r => applies r = false) (pol_freshness_rules p) /\
   TtlFor p target object path = fp_ttl_nanos (pol_freshness p)) \/
  (exists pre r post, pol_freshness_rules p = (pre ++ r :: post)%list /\ applies r = true /\
     TtlFor p target object path = fr_ttl_nanos r /\
     Forall (fun x => applies x = true -> score x <= score r) pre /\
     Forall (fun x => applies x = true -> score x < score r) post).
Proof.
  cbv zeta. unfold TtlFor.
  assert (Hstep : forall l acc, foldl (ttl_step target object path) acc l =
    foldl (fun acc r => if negb (Matches (fr_selector r) target object path) then acc
       else if fst acc <=? SelectorSpecificity (fr_selector r)
            then (SelectorSpecificity (fr_selector r), fr_ttl_nanos r) else acc) acc l).
  { induction l as [|x l IH]; intros [b t]; [done|]. cbn [foldl]. by rewrite <- IH. }
  rewrite Hstep.
  pose proof (foldl_best (fun r => Matches (fr_selector r) target object path)
    (fun r => SelectorSpecificity (fr_selector r)) fr_ttl_nanos (pol_freshness_rules p) (-1)
    (fp_ttl_nanos (pol_freshness p))) as [[-> HF]|(pre & r & post & E & Hr & _ & -> & Hpre & Hpost)];
    [left|right; eauto 10].
  split; [|done]. eapply Forall_impl; [exact HF|]. intros r Hr. apply not_true_iff_false.
  intros Ha. specialize (Hr Ha). pose proof (specificity_nonneg (fr_selector r)). cbn in Hr. lia.
Qed.

(** Suppression is decided by declaration order and never by a lapsed rule:
    the rule returned is in the policy, is not expired, covers the location,
    class and severity, and every rule declared before it does not; when no rule
    is returned, none applies. *)
Theorem FindSuppression_first (p : ObservatoryPolicy) (target object : string) (path : FieldPath)
  (klass : DriftClass) (severity : Severity) (now : NdoTime) :
  match FindSuppression p target object path klass severity now with
  | Some rule =>
      (exists pre post, pol_suppressions p = (pre ++ rule :: post)%list /\
         Forall (fun r => suppression_applies target object path klass severity now r = false) pre) /\
      (forall t, sup_expires_at rule = Some t -> now < t) /\
      Matches (sup_selector rule) target object path = true /\
      (forall k, sup_klass rule = Some k -> k = klass) /\
      (forall m, sup_min_severity rule = Some m -> SeverityRank m <= SeverityRank severity)
  | None => Forall (fun r => suppression_applies target object path klass severity now r = false)
              (pol_suppressions p)
  end.
Proof.
  unfold FindSuppression. induction (pol_suppressions p) as [|r l IH]; cbn [List.find]; [constructor|].
  destruct (suppression_applies target object path klass severity now r) eqn:E.
  - split; [by exists [], l|]. unfold suppression_applies in E. breflect.
    split; [|split; [done|split]].
    + intros t Ht. unfold is_expired_at in *. rewrite Ht in *. breflect. lia.
    + intros k Hk. rewrite Hk in *. cbn in *. by apply eqb_eq.
    + intros m Hm. rewrite Hm in *. cbn in *. breflect. lia.
  - destruct (List.find _ l) as [rule|].
    + destruct IH as [(pre & post & -> & Hpre) Hrest]. split; [|done].
      exists (r :: pre), post. split; [done|]. by constructor.
    + by constructor.
Qed.

(** A narrower selector matches nothing the wider one does not. *)
Lemma IsSubsetOf_sound a b target object path :
  IsSubsetOf a b = true -> Matches a target object path = true -> Matches b target object path = true.
Proof.
  unfold IsSubsetOf, Matches. destruct a as [[t|] [o|] [q|]], b as [[t'|] [o'|] [q'|]]; cbn;
    rewrite ?andb_true_iff, ?eqb_eq; intros; destruct_and?; subst; repeat split; try done;
    eauto using IsPrefixOf_trans.
Qed.
