(* ===== verification/Comparison.v ===== *)
(** * Comparison

    comparison.hpp/comparison.cpp: [CompareTarget], which turns the committed
    baseline of one target and the candidate snapshots with their freshness
    verdicts into drafts of findings and a compliance decision.

    The source appends drafts and trace lines to one evaluation object while it
    runs; every section only appends, so each section is a function that returns
    the drafts it appends, and [CompareTarget] concatenates them in the order of
    the code.  A candidate pointer is an [option]; [None] is a null pointer. *)

From Stdlib Require Import ZArith Lia List Bool Sorting.Sorted Permutation Ascii String.
From stdpp Require Import base tactics list strings sets.
From S2P Require Import Prelude Containers Text Hash Status Time Identity Double Value Drift Intent.
From S2P Require Import Observation Freshness Policy.
#[local] Open Scope string_scope.
#[local] Open Scope Z_scope.
#[local] Arguments String.append : simpl nomatch.

Definition kTargetScopeObjectId : string := "@target".
Definition kAppliedGenerationPath : string := "@applied-generation".
Definition kMaxConflictSources : nat := 8.
Definition kMaxTraceEntries : Z := 64.

(** ** Data *)

Record EvidenceRef := mkEvidenceRef {
  ref_source : string;
  ref_snapshot : string;
  ref_epoch : Z;
  ref_incarnation : Z;
  ref_sequence : Z;
  ref_collected_at : NdoTime;
  ref_received_at : NdoTime;
  ref_freshness : FreshnessState;
  ref_content_digest : Digest;
  ref_coverage : ObservationCoverage;
  ref_evidence : EvidenceClass
}.

#[export] Instance eta_EvidenceRef : Eta EvidenceRef := fun r =>
  mkEvidenceRef (ref_source r) (ref_snapshot r) (ref_epoch r) (ref_incarnation r) (ref_sequence r)
    (ref_collected_at r) (ref_received_at r) (ref_freshness r) (ref_content_digest r)
    (ref_coverage r) (ref_evidence r).

Record FindingDraft := mkDraft {
  dr_target : string;
  dr_object : string;
  dr_path : FieldPath;
  dr_klass : DriftClass;
  dr_raw_class : DriftClass;
  dr_severity : Severity;
  dr_reason : ReasonCode;
  dr_baseline_generation : Z;
  dr_baseline_epoch : Z;
  dr_baseline_authority : IntentAuthority;
  dr_has_intended : bool;
  dr_intended : Value;
  dr_has_observed : bool;
  dr_observed : Value;
  dr_evidence : list EvidenceRef;
  dr_qualifier : Digest;
  dr_compliance_relevant : bool;
  dr_rationale : list string
}.

#[export] Instance eta_FindingDraft : Eta FindingDraft := fun d =>
  mkDraft (dr_target d) (dr_object d) (dr_path d) (dr_klass d) (dr_raw_class d) (dr_severity d)
    (dr_reason d) (dr_baseline_generation d) (dr_baseline_epoch d) (dr_baseline_authority d)
    (dr_has_intended d) (dr_intended d) (dr_has_observed d) (dr_observed d) (dr_evidence d)
    (dr_qualifier d) (dr_compliance_relevant d) (dr_rationale d).

Record TargetEvaluation := mkTargetEvaluation {
  te_target : string;
  te_has_baseline : bool;
  te_baseline_generation : Z;
  te_baseline_epoch : Z;
  te_baseline_authority : IntentAuthority;
  te_best_freshness : FreshnessState;
  te_sources_considered : Z;
  te_fresh_sources : Z;
  te_compliance_decidable : bool;
  te_compliant : bool;
  te_decision_reason : ReasonCode;
  te_drafts : list FindingDraft;
  te_trace : list string
}.

#[export] Instance eta_TargetEvaluation : Eta TargetEvaluation := fun t =>
  mkTargetEvaluation (te_target t) (te_has_baseline t) (te_baseline_generation t)
    (te_baseline_epoch t) (te_baseline_authority t) (te_best_freshness t)
    (te_sources_considered t) (te_fresh_sources t) (te_compliance_decidable t) (te_compliant t)
    (te_decision_reason t) (te_drafts t) (te_trace t).

Record EvaluationOutcome := mkOutcome {
  out_now : NdoTime;
  out_epoch : Z;
  out_incarnation : Z;
  out_policy : string;
  out_policy_digest : Digest;
  out_resolution_confirmations : Z;
  out_sequence : Z;
  out_targets : list TargetEvaluation
}.

#[export] Instance eta_EvaluationOutcome : Eta EvaluationOutcome := fun o =>
  mkOutcome (out_now o) (out_epoch o) (out_incarnation o) (out_policy o) (out_policy_digest o)
    (out_resolution_confirmations o) (out_sequence o) (out_targets o).

Record TargetComparisonInput := mkComparisonInput {
  in_target : string;
  in_baseline : option IntentBaseline;
  in_snapshots : list (option ObservationSnapshot);
  in_freshness : list FreshnessVerdict
}.

(** ** Evidence views *)

Record EvidenceView := mkView {
  view_snapshot : ObservationSnapshot;
  view_verdict : FreshnessVerdict;
  view_usable : bool;
  view_complete : bool;
  view_absence_authority : bool;
  view_priority : Z;
  view_digest : Digest
}.

(** The position of a source in the declared order, or the order's size. *)
Fixpoint priority_from (index : Z) (order : list string) (source : string) : Z :=
  match order with
  | [] => index
  | s :: rest => if eqb s source then index else priority_from (index + 1) rest source
  end.
Definition PriorityOf (policy : ObservatoryPolicy) (source : string) : Z :=
  priority_from 0 (pol_source_priority policy) source.

Definition MakeView (policy : ObservatoryPolicy) (snapshot : ObservationSnapshot)
    (verdict : FreshnessVerdict) : EvidenceView :=
  mkView snapshot verdict (fv_may_support_compliance verdict) (declares_complete_coverage snapshot)
    (asserts_absence (snap_capabilities snapshot)) (PriorityOf policy (snap_source snapshot))
    (Snapshot_ComputeContentDigest snapshot).

Definition view_source (v : EvidenceView) : string := snap_source (view_snapshot v).

(** Newest first inside one source. *)
Definition newest_less (lhs rhs : EvidenceView) : bool :=
  let l := view_snapshot lhs in
  let r := view_snapshot rhs in
  if negb (eqb (snap_source l) (snap_source r)) then ltb (snap_source l) (snap_source r)
  else if negb (snap_epoch l =? snap_epoch r) then snap_epoch r <? snap_epoch l
  else if negb (snap_incarnation l =? snap_incarnation r)
  then snap_incarnation r <? snap_incarnation l
  else snap_sequence r <? snap_sequence l.

(** [ViewLess]: the order that chooses the primary source. *)
Definition ViewLess (lhs rhs : EvidenceView) : bool :=
  let l := view_snapshot lhs in
  let r := view_snapshot rhs in
  if negb (Bool.eqb (view_usable lhs) (view_usable rhs)) then view_usable lhs
  else if negb (view_priority lhs =? view_priority rhs) then view_priority lhs <? view_priority rhs
  else if negb (Bool.eqb (view_complete lhs) (view_complete rhs)) then view_complete lhs
  else if negb (snap_epoch l =? snap_epoch r) then snap_epoch r <? snap_epoch l
  else if negb (snap_incarnation l =? snap_incarnation r)
  then snap_incarnation r <? snap_incarnation l
  else if negb (snap_sequence l =? snap_sequence r) then snap_sequence r <? snap_sequence l
  else ltb (snap_source l) (snap_source r).

(** One view per source: a view whose source is that of the last one kept is
    skipped. *)
Fixpoint keep_newest (last : option string) (views : list EvidenceView) : list EvidenceView :=
  match views with
  | [] => []
  | v :: rest =>
      match last with
      | Some s => if eqb s (view_source v) then keep_newest last rest
                  else v :: keep_newest (Some (view_source v)) rest
      | None => v :: keep_newest (Some (view_source v)) rest
      end
  end.

(** The candidates as views; null pointers are skipped. *)
Fixpoint candidate_views (policy : ObservatoryPolicy) (snapshots : list (option ObservationSnapshot))
    (freshness : list FreshnessVerdict) : list EvidenceView :=
  match snapshots, freshness with
  | Some s :: snapshots', f :: freshness' =>
      MakeView policy s f :: candidate_views policy snapshots' freshness'
  | None :: snapshots', _ :: freshness' => candidate_views policy snapshots' freshness'
  | _, _ => []
  end.

Definition MakeRef (view : EvidenceView) : EvidenceRef :=
  let s := view_snapshot view in
  mkEvidenceRef (snap_source s) (snap_id s) (snap_epoch s) (snap_incarnation s) (snap_sequence s)
    (snap_collected_at s) (snap_received_at s) (fv_state (view_verdict view)) (view_digest view)
    (snap_coverage s) (snap_evidence s).

Definition UintValue (value : Z) : Value := if value <=? INT64_MAX then V_Int value else V_Uint value.

(** The reserved applied-generation marker of an observed object. *)
Definition TryReadAppliedGeneration (object : ObservedObject) : option Z :=
  match FieldPath_TryParse 4 128 kAppliedGenerationPath with
  | None => None
  | Some parsed =>
      match mfind parsed (ob_fields object) with
      | Some (V_Int value) => if 0 <=? value then Some value else None
      | Some (V_Uint value) => Some value
      | _ => None
      end
  end.

Definition starts_with_at (text : string) : bool :=
  match text with String c _ => Ascii.eqb c "@"%char | "" => false end.

Definition IsReservedObjectId (id : string) : bool := starts_with_at id.

Definition IsReservedPath (path : FieldPath) : bool :=
  match path with PS_Key key :: _ => starts_with_at key | _ => false end.

Definition ObjectFullyVisible (view : EvidenceView) (id : string) : bool :=
  if declares_unobserved (view_snapshot view) id then false else view_complete view.

Definition FieldVisible (view : EvidenceView) (id : string) (path : FieldPath) : bool :=
  if negb (ObjectFullyVisible view id) then false
  else negb ((1 <? vsize path) && negb (reports_nested_paths (snap_capabilities (view_snapshot view)))).

Definition ConflictQualifier (first second : string) : Digest :=
  let low := if ltb first second then first else second in
  let high := if ltb first second then second else first in
  let hasher := UpdateTag Sha256_init "ndo/source-conflict/v1" in
  Final (UpdateLengthPrefixed (UpdateLengthPrefixed hasher low) high).

Definition GenerationQualifier (kind : string) (intended : Z) (applied : list Z) : Digest :=
  let hasher := UpdateTag Sha256_init "ndo/generation-divergence/v1" in
  let hasher := UpdateLengthPrefixed hasher kind in
  let hasher := UpdateU64 hasher intended in
  Final (foldl UpdateU64 (UpdateU64 hasher (vsize applied)) applied).

Definition AppendTrace (trace : list string) (text : string) : list string :=
  if kMaxTraceEntries <=? vsize trace then trace else (trace ++ [text])%list.

(** The default-constructed baseline. *)
Definition empty_baseline : IntentBaseline :=
  mkIntentBaseline "" 0 0 IA_Unknown "" 0 zero_digest EC_Unknown [].

(** ** Drafts *)

Section Compare.
Variable policy : ObservatoryPolicy.
Variable limits : RuntimeLimits.
Variable target : string.

(** [AttachEvidence] for each view in turn. *)
Definition AttachEvidence (draft : FindingDraft) (view : EvidenceView) : FindingDraft :=
  if max_evidence_refs_per_finding limits <=? vsize (dr_evidence draft) then draft
  else draft <| dr_evidence ::= fun l => (l ++ [MakeRef view])%list |>.

Definition MakeDraft (object : string) (path : FieldPath) (klass : DriftClass)
    (baseline : IntentBaseline) : FindingDraft :=
  mkDraft target object path klass klass (SeverityFor policy target object path klass) RC_None
    (base_generation baseline) (base_epoch baseline) (base_authority baseline)
    false V_Null false V_Null [] zero_digest true [].

(** The members every branch sets on its draft. *)
Definition explained (draft : FindingDraft) (reason : ReasonCode) (rationale : list string)
    : FindingDraft :=
  draft <| dr_reason := reason |> <| dr_rationale := rationale |>.
Definition with_intended (draft : FindingDraft) (value : Value) : FindingDraft :=
  draft <| dr_has_intended := true |> <| dr_intended := value |>.
Definition with_observed (draft : FindingDraft) (value : Value) : FindingDraft :=
  draft <| dr_has_observed := true |> <| dr_observed := value |>.

Definition scope_object : string := kTargetScopeObjectId.

(** A target without a committed generation. *)
Definition no_intent_draft (views : list EvidenceView) : FindingDraft :=
  let draft := explained (MakeDraft scope_object [] DC_IntentMissing empty_baseline)
    RC_ClassifiedNoIntent
    ["policy requires this target to be managed";
     "no intent generation is committed for this target"] in
  match views with
  | [] => draft
  | first :: _ => (AttachEvidence draft first) <| dr_compliance_relevant := view_usable first |>
  end.

Section Baseline.
Variable baseline : IntentBaseline.

(** A target none of whose candidates is usable. *)
Definition stale_draft (reason : ReasonCode) (best : FreshnessState) (views : list EvidenceView)
    : FindingDraft :=
  foldl AttachEvidence
    (explained (MakeDraft scope_object [] DC_StaleObservation baseline) reason
       ["no fresh evidence is available for this target";
        "best available evidence state: " +:+ ToText_FreshnessState best]) views.

(** *** Cross-source conflicts *)

Definition conflict_draft (lhs rhs : EvidenceView) (object : string) (path : FieldPath)
    (observed other : Value) (about : string) : FindingDraft :=
  let draft := explained (MakeDraft object path DC_SourceConflict baseline)
    RC_ObservationSourcesDisagree
    ["sources " +:+ view_source lhs +:+ " and " +:+ view_source rhs +:+ " disagree about " +:+ about] in
  let draft := draft <| dr_qualifier := ConflictQualifier (view_source lhs) (view_source rhs) |> in
  AttachEvidence (AttachEvidence (with_intended (with_observed draft observed) other) lhs) rhs.

Definition field_conflicts (lhs rhs : EvidenceView) (object : string) (other : ObservedObject)
    (field : FieldPath * Value) : list FindingDraft :=
  match mfind (fst field) (ob_fields other) with
  | None => []
  | Some other_value =>
      match RelateValues (pol_numeric_equivalence policy) (snd field) other_value with
      | VR_Different =>
          [conflict_draft lhs rhs object (fst field) (snd field) other_value "this field"]
      | _ => []
      end
  end.

Definition object_conflicts (lhs rhs : EvidenceView) (entry : string * ObservedObject)
    : list FindingDraft :=
  match snapshot_FindObject (view_snapshot rhs) (fst entry) with
  | None => []
  | Some other =>
      if negb (eqb (ob_presence (snd entry)) (ob_presence other)) then
        if eqb (ob_presence (snd entry)) OP_Unknown || eqb (ob_presence other) OP_Unknown then []
        else [conflict_draft lhs rhs (fst entry) []
                (V_String (ToText_ObjectPresence (ob_presence (snd entry))))
                (V_String (ToText_ObjectPresence (ob_presence other))) "object presence"]
      else flat_map (field_conflicts lhs rhs (fst entry) other) (ob_fields (snd entry))
  end.

Definition pair_conflicts (lhs rhs : EvidenceView) : list FindingDraft :=
  flat_map (object_conflicts lhs rhs) (snap_objects (view_snapshot lhs)).

(** The two nested loops over the first [kMaxConflictSources] views. *)
Fixpoint conflicts (views : list EvidenceView) : list FindingDraft :=
  match views with
  | [] => []
  | lhs :: rest =>
      ((if view_usable lhs then
          flat_map (fun rhs => if view_usable rhs then pair_conflicts lhs rhs else []) rest
        else []) ++ conflicts rest)%list
  end.

(** *** Comparison against the primary source *)

Variable primary : EvidenceView.

(** [MakeDraft], the members, and the reference to the primary evidence. *)
Definition primary_draft (object : string) (path : FieldPath) (klass : DriftClass)
    (reason : ReasonCode) (rationale : list string) : FindingDraft :=
  AttachEvidence (explained (MakeDraft object path klass baseline) reason rationale) primary.

Definition compare_field (object_id : string) (observed : ObservedObject)
    (entry : FieldPath * IntentField) : list FindingDraft :=
  let path := fst entry in
  let field := snd entry in
  if IsReservedPath path then []
  else
    match ClassifyField policy target object_id path (if_comparability field) with
    | FC_Unmanaged | FC_ObserveOnly => []
    | FC_Unobservable =>
        [primary_draft object_id path DC_Unknown RC_ClassifiedNotObservable
           ["intent declares this field unobservable"]]
    | FC_Unsupported =>
        [primary_draft object_id path DC_Unsupported RC_ClassifiedUnsupportedField
           ["intent declares this field outside the supported class"]]
    | FC_Managed =>
        match mfind path (ob_fields observed) with
        | None =>
            if FieldVisible primary object_id path
            then [with_intended
                    (primary_draft object_id path DC_FieldMissing RC_ClassifiedFieldMissing
                       ["a complete fresh observation does not report this managed field"])
                    (if_intended field)]
            else [primary_draft object_id path DC_Unknown RC_ObservationCoveragePartial
                    ["the primary source cannot prove the absence of this field"]]
        | Some value =>
            match RelateValues (pol_numeric_equivalence policy) (if_intended field) value with
            | VR_Equal => []
            | VR_Incomparable =>
                [with_observed (with_intended
                   (primary_draft object_id path DC_Unsupported RC_ClassifiedFieldNotComparable
                      ["intended and observed values are not in the same comparison class"])
                   (if_intended field)) value]
            | VR_Different =>
                [with_observed (with_intended
                   (primary_draft object_id path DC_ValueMismatch RC_ClassifiedValueMismatch
                      ["intended and observed values differ"])
                   (if_intended field)) value]
            end
        end
    end.

(** A field the intent does not declare. *)
Definition unexpected_field (object_id : string) (intended : IntentObject)
    (field : FieldPath * Value) : list FindingDraft :=
  if IsReservedPath (fst field) then []
  else if mmem (fst field) (io_fields intended) then []
  else [with_observed
          (primary_draft object_id (fst field) DC_FieldUnexpected RC_ClassifiedFieldUnexpected
             ["the observation reports a field the intent does not declare"]) (snd field)].

(** What the primary source says about the existence of an intended object. *)
Definition primary_presence (object_id : string) : ObjectPresence :=
  match snapshot_FindObject (view_snapshot primary) object_id with
  | Some observed => ob_presence observed
  | None =>
      if declares_unobserved (view_snapshot primary) object_id then OP_Unknown
      else if ObjectFullyVisible primary object_id then OP_Absent
      else OP_Unknown
  end.

(** The field loops, reached when the object is present. *)
Definition compare_fields (object_id : string) (intended : IntentObject) : list FindingDraft :=
  match primary_presence object_id, snapshot_FindObject (view_snapshot primary) object_id with
  | OP_Present, Some observed =>
      (flat_map (compare_field object_id observed) (io_fields intended) ++
       flat_map (unexpected_field object_id intended) (ob_fields observed))%list
  | _, _ => []
  end.

Definition compare_object (entry : string * IntentObject) : list FindingDraft :=
  let object_id := fst entry in
  match io_existence (snd entry), primary_presence object_id with
  | OE_Required, OP_Absent =>
      if pol_require_absence_authority policy && negb (view_absence_authority primary)
      then [primary_draft object_id [] DC_Unknown RC_ObservationSourceCannotAssertAbsence
              ["the primary source cannot assert absence"]]
      else [with_observed (with_intended
              (primary_draft object_id [] DC_Missing RC_ClassifiedObjectMissing
                 ["intent requires this object to exist"; "fresh evidence reports it absent"])
              (V_String "required")) (V_String "absent")]
  | OE_Required, OP_Unknown =>
      [primary_draft object_id [] DC_Unknown
         (if declares_unobserved (view_snapshot primary) object_id
          then RC_ObservationCoveragePartial else RC_ObservationCoverageUnknown)
         ["the primary source did not observe this object and cannot assert its absence"]]
  | OE_Forbidden, OP_Present =>
      [with_observed (with_intended
         (primary_draft object_id [] DC_Unexpected RC_ClassifiedObjectUnexpected
            ["intent forbids this object"; "fresh evidence reports it present"])
         (V_String "forbidden")) (V_String "present")]
  | _, _ => compare_fields object_id (snd entry)
  end.

(** An object the committed intent does not declare. *)
Definition unexpected_object (entry : string * ObservedObject) : list FindingDraft :=
  if IsReservedObjectId (fst entry) then []
  else if mmem (fst entry) (base_objects baseline) then []
  else match ob_presence (snd entry) with
       | OP_Present =>
           [with_observed
              (primary_draft (fst entry) [] DC_Unexpected RC_ClassifiedObjectUnexpected
                 ["fresh evidence reports an object the committed intent does not declare"])
              (V_String "present")]
       | _ => []
       end.

Definition primary_drafts : list FindingDraft :=
  (flat_map compare_object (base_objects baseline) ++
   flat_map unexpected_object (snap_objects (view_snapshot primary)))%list.

(** *** Generation divergence *)

(** The applied generations the present intended objects report. *)
Definition applied_generations : list Z :=
  flat_map (fun entry =>
    match snapshot_FindObject (view_snapshot primary) (fst entry) with
    | Some observed =>
        match ob_presence observed, TryReadAppliedGeneration observed with
        | OP_Present, Some applied => [applied]
        | _, _ => []
        end
    | None => []
    end) (base_objects baseline).

Record GenerationScan := mkScan {
  scan_any_applied : bool;
  scan_any_matches_baseline : bool;
  scan_applied : list Z
}.

Definition ScanAppliedGenerations : GenerationScan :=
  let applied := applied_generations in
  mkScan (negb (vsize applied =? 0))
    (existsb (fun g => uint_is_set (base_generation baseline) && (g =? base_generation baseline)) applied)
    (dedup Z.eqb (sort_by Z.ltb applied)).

(** The classes a generation divergence explains. *)
Definition is_deviation (draft : FindingDraft) : bool :=
  match dr_klass draft with DC_ValueMismatch | DC_FieldMissing | DC_Missing => true | _ => false end.

Definition regroup_draft (partial : bool) (qualifier : Digest) (draft : FindingDraft) : FindingDraft :=
  if negb (is_deviation draft) then draft
  else
    let klass := if partial then DC_PartialApplication else DC_GenerationMismatch in
    draft
      <| dr_klass := klass |>
      <| dr_reason := if partial then RC_ClassifiedPartialApplication
                      else RC_ClassifiedGenerationMismatch |>
      <| dr_qualifier := qualifier |>
      <| dr_severity := SeverityFor policy (dr_target draft) (dr_object draft) (dr_path draft) klass |>
      <| dr_rationale ::= fun l =>
           (l ++ [if partial then "some objects report the intended generation and others do not"
                  else "the target reports a generation older than the committed baseline"])%list |>.

(** The regrouped drafts and the trace line, when the regrouping happens. *)
Definition regroup (drafts : list FindingDraft) : list FindingDraft * option string :=
  let scan := ScanAppliedGenerations in
  if scan_any_applied scan && existsb is_deviation drafts then
    let partial := scan_any_matches_baseline scan in
    let regressed :=
      negb partial &&
      match last (scan_applied scan) with
      | Some newest => negb (newest =? base_generation baseline)
      | None => false
      end in
    if partial || regressed then
      let qualifier :=
        GenerationQualifier (if partial then "partial" else "not-applied")
          (base_generation baseline) (scan_applied scan) in
      (map (regroup_draft partial qualifier) drafts,
       Some (if partial then "divergence regrouped as a partial application"
             else "divergence regrouped as an unapplied generation"))
    else (drafts, None)
  else (drafts, None).

(** *** The decision *)

Definition is_indeterminate (draft : FindingDraft) : bool :=
  IsIndeterminateDrift (dr_klass draft) || eqb (dr_klass draft) DC_Unsupported.
Definition is_actionable (draft : FindingDraft) : bool :=
  negb (is_indeterminate draft) &&
  (IsActionableDrift (dr_klass draft) || eqb (dr_klass draft) DC_IntentMissing).

(** The first reason recorded by the loop. *)
Definition first_reason (drafts : list FindingDraft) : ReasonCode :=
  foldl (fun first draft =>
    if eqb first RC_None && (is_indeterminate draft || is_actionable draft)
    then dr_reason draft else first) RC_None drafts.

Definition coverage_ok : bool :=
  negb (pol_require_complete_coverage policy) || view_complete primary.

Definition decidable (drafts : list FindingDraft) : bool :=
  negb (existsb is_indeterminate drafts) && coverage_ok.
Definition compliant (drafts : list FindingDraft) : bool :=
  decidable drafts && negb (existsb is_actionable drafts).

Definition decision_reason (drafts : list FindingDraft) : ReasonCode :=
  if compliant drafts then RC_ClassifiedConverged
  else if negb (eqb (first_reason drafts) RC_None) then first_reason drafts
  else RC_ObservationCoveragePartial.
End Baseline.
End Compare.

(** ** [CompareTarget] *)

Definition sorted_views (policy : ObservatoryPolicy) (input : TargetComparisonInput)
    : list EvidenceView :=
  sort_by ViewLess
    (keep_newest None
       (sort_by newest_less (candidate_views policy (in_snapshots input) (in_freshness input)))).

Definition vcount {A} (test : A -> bool) (l : list A) : Z := vsize (List.filter test l).

Definition CompareTarget (input : TargetComparisonInput) (policy : ObservatoryPolicy)
    (limits : RuntimeLimits) : TargetEvaluation :=
  let target := in_target input in
  let evaluation :=
    match in_baseline input with
    | Some b => mkTargetEvaluation target true (base_generation b) (base_epoch b) (base_authority b)
                  FS_Unknown 0 0 false false RC_NoFreshEvidence [] []
    | None => mkTargetEvaluation target false 0 0 IA_Unknown FS_Unknown 0 0 false false
                RC_NoFreshEvidence [] []
    end in
  if negb (vsize (in_snapshots input) =? vsize (in_freshness input)) then
    evaluation
      <| te_decision_reason := RC_ComparisonBaselineUnavailable |>
      <| te_trace := ["evidence and verdict counts disagree; no comparison performed"] |>
  else
    let candidates := candidate_views policy (in_snapshots input) (in_freshness input) in
    let views := sorted_views policy input in
    let trace :=
      if negb (vsize views =? vsize candidates)
      then AppendTrace [] "older snapshots from the same source were superseded by newer ones"
      else [] in
    let best := match views with [] => FS_Unknown | v :: _ => fv_state (view_verdict v) end in
    let evaluation := evaluation
      <| te_sources_considered := vsize views |>
      <| te_fresh_sources := vcount view_usable views |>
      <| te_best_freshness := best |> in
    match in_baseline input with
    | None =>
        let required := existsb (fun t => eqb t target) (pol_required_targets policy) in
        evaluation
          <| te_drafts := if required then [no_intent_draft policy limits target views] else [] |>
          <| te_trace := AppendTrace trace
               (if required then "target is required by policy and has no committed intent"
                else "no intent is committed and policy does not require one") |>
          <| te_decision_reason := RC_ClassifiedNoIntent |>
    | Some baseline =>
        match List.find view_usable views, views with
        | Some _, primary :: _ =>
            let trace := AppendTrace trace ("primary source: " +:+ view_source primary) in
            let trace := AppendTrace trace
              ("baseline generation: " +:+ to_string_unsigned (base_generation baseline)) in
            let trace :=
              if Z.of_nat kMaxConflictSources <? vcount view_usable views
              then AppendTrace trace "cross-source scan bounded; further sources not compared"
              else trace in
            let drafts :=
              (conflicts policy limits target baseline (firstn kMaxConflictSources views) ++
               primary_drafts policy limits target baseline primary)%list in
            let '(drafts, regrouped) := regroup policy baseline primary drafts in
            let trace := match regrouped with Some text => AppendTrace trace text | None => trace end in
            let trace :=
              if negb (coverage_ok policy primary)
              then AppendTrace trace
                     "evidence does not cover the whole target; compliance is not decidable"
              else trace in
            let compliant := compliant policy primary drafts in
            evaluation
              <| te_drafts := drafts |>
              <| te_compliance_decidable := decidable policy primary drafts |>
              <| te_compliant := compliant |>
              <| te_decision_reason := decision_reason policy primary drafts |>
              <| te_trace := AppendTrace trace
                   (if compliant then "target complies with the committed intent"
                    else "target does not comply with the committed intent") |>
        | _, _ =>
            let reason :=
              match views with [] => RC_NoFreshEvidence | v :: _ => fv_reason (view_verdict v) end in
            evaluation
              <| te_drafts := [stale_draft policy limits target baseline reason best views] |>
              <| te_decision_reason := reason |>
              <| te_trace := AppendTrace trace "freshness policy refused every available observation" |>
        end
    end.

(** ** Outcomes and explanations *)

Definition DraftCount (outcome : EvaluationOutcome) : Z :=
  sum_by (fun t => vsize (te_drafts t)) (out_targets outcome).

Definition kOutcomeTag : string := "ndo/evaluation-outcome/v1".

Definition hash_optional_value (hasher : Sha256) (present : bool) (value : Value) : Sha256 :=
  let hasher := UpdateByte hasher (flag present) in
  if present then HashInto hasher value else hasher.

Definition hash_draft (hasher : Sha256) (draft : FindingDraft) : Sha256 :=
  let hasher := UpdateLengthPrefixed hasher (dr_object draft) in
  let hasher := UpdateLengthPrefixed hasher (FieldPath_ToText (dr_path draft)) in
  let hasher := UpdateLengthPrefixed hasher (ToText_DriftClass (dr_klass draft)) in
  let hasher := UpdateLengthPrefixed hasher (ToText_DriftClass (dr_raw_class draft)) in
  let hasher := UpdateU64 hasher (flag (Digest_is_set (dr_qualifier draft))) in
  let hasher := if Digest_is_set (dr_qualifier draft) then Update hasher (dr_qualifier draft)
                else hasher in
  let hasher := hash_optional_value hasher (dr_has_intended draft) (dr_intended draft) in
  hash_optional_value hasher (dr_has_observed draft) (dr_observed draft).

Definition hash_evaluation (hasher : Sha256) (t : TargetEvaluation) : Sha256 :=
  let hasher := UpdateLengthPrefixed hasher (te_target t) in
  let hasher := UpdateLengthPrefixed hasher
    (if te_baseline_generation t =? 0 then "" else "baseline") in
  let hasher := UpdateU64 hasher (te_baseline_generation t) in
  let hasher := UpdateU64 hasher (te_baseline_epoch t) in
  let hasher := UpdateByte hasher (flag (te_compliance_decidable t)) in
  let hasher := UpdateByte hasher (flag (te_compliant t)) in
  let hasher := UpdateLengthPrefixed hasher (ToText_ReasonCode (te_decision_reason t)) in
  foldl hash_draft (UpdateU64 hasher (vsize (te_drafts t))) (te_drafts t).

Definition Outcome_ComputeDigest (o : EvaluationOutcome) : Digest :=
  let hasher := UpdateTag Sha256_init kOutcomeTag in
  let hasher := UpdateU64 hasher (to_u64 (out_now o)) in
  let hasher := UpdateU64 hasher (out_epoch o) in
  let hasher := UpdateU64 hasher (out_incarnation o) in
  let hasher := UpdateLengthPrefixed hasher (out_policy o) in
  let hasher := Update hasher (out_policy_digest o) in
  Final (foldl hash_evaluation (UpdateU64 hasher (vsize (out_targets o))) (out_targets o)).

Definition ExplainDraft (draft : FindingDraft) (policy : ObservatoryPolicy) : string :=
  let text :=
    ToText_DriftClass (dr_klass draft) +:+ " at " +:+ dr_target draft +:+ " " +:+
    dr_object draft +:+ " " +:+ FieldPath_Describe (dr_path draft) +:+ "; severity " +:+
    ToText_Severity (dr_severity draft) +:+ " under policy " +:+ pol_id policy +:+ "; reason " +:+
    ToText_ReasonCode (dr_reason draft) +:+
    (if dr_has_intended draft then "; intended " +:+ ToDisplayText (dr_intended draft) 64 else "") +:+
    (if dr_has_observed draft then "; observed " +:+ ToDisplayText (dr_observed draft) 64 else "") +:+
    concat_strings (map (fun step => "; " +:+ step) (dr_rationale draft)) in
  truncate_with 512 "..." text.

(** ** Facts: the orders *)

Section KeyedSort.
Context {A K : Type} `{Ordered K} (less : A -> A -> bool) (key : A -> K).
Hypothesis less_key : forall x y, less x y = ltb (key x) (key y).

Lemma keyed_trans_neg : less_trans_neg less.
Proof. intros x y z. rewrite !less_key. apply (proj1 ltb_less). Qed.

Lemma keyed_asym : less_asym less.
Proof. intros x y. rewrite !less_key. apply (proj2 ltb_less). Qed.

Lemma keyed_tie x y : less x y = false -> less y x = false -> key x = key y.
Proof.
  rewrite !less_key. intros H1 H2. destruct (key_trichotomy (key x) (key y)) as [H3|[?|H3]]; [|done|];
    apply ltb_lt in H3; congruence.
Qed.
End KeyedSort.

Definition newest_key (v : EvidenceView) : string * (Z * (Z * Z)) :=
  let s := view_snapshot v in
  (snap_source s, (- snap_epoch s, (- snap_incarnation s, - snap_sequence s))).

Definition view_key (v : EvidenceView) : Z * (Z * (Z * (Z * (Z * (Z * string))))) :=
  let s := view_snapshot v in
  (flag (negb (view_usable v)), (view_priority v, (flag (negb (view_complete v)),
   (- snap_epoch s, (- snap_incarnation s, (- snap_sequence s, snap_source s)))))).

Lemma ltb_pair {A B} `{Ordered A, Ordered B} (x y : A * B) :
  ltb x y = if negb (eqb x.1 y.1) then ltb x.1 y.1 else ltb x.2 y.2.
Proof. unfold ltb, eqb. cbn. by destruct (compare x.1 y.1). Qed.

Lemma ltb_opp a b : ltb (- a) (- b) = (b <? a).
Proof.
  unfold ltb. cbn. rewrite Z.compare_opp, Z.compare_antisym. unfold Z.ltb.
  rewrite (Z.compare_antisym b a). by destruct (b ?= a).
Qed.

Lemma eqb_opp a b : eqb (- a) (- b) = (a =? b).
Proof.
  apply eq_true_iff_eq. rewrite eqb_eq, Z.eqb_eq. lia.
Qed.

Lemma Z_eqb_eqb (a b : Z) : (a =? b) = eqb a b.
Proof. apply eq_true_iff_eq. rewrite eqb_eq, Z.eqb_eq. done. Qed.

Lemma Z_ltb_ltb (a b : Z) : (a <? b) = ltb a b.
Proof. unfold ltb. cbn. unfold Z.ltb. by destruct (a ?= b). Qed.

Lemma newest_less_key x y : newest_less x y = ltb (newest_key x) (newest_key y).
Proof.
  unfold newest_less, newest_key. rewrite !ltb_pair. cbn [fst snd]. by rewrite !ltb_opp, !eqb_opp.
Qed.

Lemma ViewLess_key x y : ViewLess x y = ltb (view_key x) (view_key y).
Proof.
  unfold ViewLess, view_key. rewrite !ltb_pair. cbn [fst snd]. rewrite !ltb_opp, !eqb_opp.
  assert (Hf : forall a b, Bool.eqb a b = eqb (flag (negb a)) (flag (negb b)))
    by (intros [] []; done).
  assert (Hl : forall a b, eqb (flag (negb a)) (flag (negb b)) = false ->
    ltb (flag (negb a)) (flag (negb b)) = a) by (intros [] []; done).
  rewrite !Hf. destruct (eqb (flag (negb (view_usable x))) _) eqn:E1; cbn [negb]; [|by rewrite Hl].
  rewrite (Z_eqb_eqb (view_priority x)), (Z_ltb_ltb (view_priority x)).
  destruct (eqb (view_priority x) _); cbn [negb]; [|done].
  destruct (eqb (flag (negb (view_complete x))) _) eqn:E2; cbn [negb]; [done|by rewrite Hl].
Qed.

(** The first view is usable as soon as one view is. *)
Lemma sorted_views_head policy input primary rest :
  sorted_views policy input = primary :: rest ->
  view_usable primary = existsb view_usable (sorted_views policy input).
Proof.
  unfold sorted_views. set (l := keep_newest _ _). intros E. rewrite E.
  pose proof (sort_by_sorted ViewLess (keyed_trans_neg _ _ ViewLess_key)
                (keyed_asym _ _ ViewLess_key) l) as Hs.
  rewrite E in Hs. inversion Hs as [|? ? _ Hf]; subst. cbn [existsb].
  destruct (view_usable primary) eqn:Hu; [done|]. cbn [orb]. symmetry.
  apply not_true_iff_false. intros (v & Hin & Hv)%existsb_exists.
  rewrite Forall_forall in Hf. specialize (Hf v). rewrite list_elem_of_In in Hf. specialize (Hf Hin).
  unfold ViewLess in Hf. by rewrite Hv, Hu in Hf.
Qed.

Lemma find_usable views : (exists v, List.find view_usable views = Some v) <-> existsb view_usable views = true.
Proof.
  induction views as [|v l IH]; cbn; [split; [by intros []|done]|].
  destruct (view_usable v); cbn; [split; [done|by exists v]|done].
Qed.

(** ** Facts: what the drafts are *)

Section DraftFacts.
Variable policy : ObservatoryPolicy.
Variable limits : RuntimeLimits.
Variable target : string.

(** What holds of every draft of one evaluation. *)
Record draft_ok (generation : Z) (d : FindingDraft) : Prop := {
  ok_target : dr_target d = target;
  ok_severity : dr_severity d = SeverityFor policy target (dr_object d) (dr_path d) (dr_klass d);
  ok_evidence : vsize (dr_evidence d) <= Z.max 0 (max_evidence_refs_per_finding limits);
  ok_raw : dr_klass d = dr_raw_class d \/
    ((dr_raw_class d = DC_ValueMismatch \/ dr_raw_class d = DC_FieldMissing \/
      dr_raw_class d = DC_Missing) /\
     (dr_klass d = DC_PartialApplication \/ dr_klass d = DC_GenerationMismatch));
  ok_generation : dr_baseline_generation d = generation;
  ok_klass : dr_klass d <> DC_None
}.

Lemma MakeDraft_ok object path klass baseline : klass <> DC_None ->
  draft_ok (base_generation baseline) (MakeDraft policy target object path klass baseline).
Proof. intros Hk. constructor; cbn; auto. unfold vsize. cbn. lia. Qed.

Lemma explained_ok g d reason rationale : draft_ok g d -> draft_ok g (explained d reason rationale).
Proof. intros []. by constructor. Qed.
Lemma with_intended_ok g d v : draft_ok g d -> draft_ok g (with_intended d v).
Proof. intros []. by constructor. Qed.
Lemma with_observed_ok g d v : draft_ok g d -> draft_ok g (with_observed d v).
Proof. intros []. by constructor. Qed.
Lemma qualified_ok g d q : draft_ok g d -> draft_ok g (d <| dr_qualifier := q |>).
Proof. intros []. by constructor. Qed.
Lemma relevant_ok g d b : draft_ok g d -> draft_ok g (d <| dr_compliance_relevant := b |>).
Proof. intros []. by constructor. Qed.

Lemma AttachEvidence_ok g d v : draft_ok g d -> draft_ok g (AttachEvidence limits d v).
Proof.
  intros Hd. unfold AttachEvidence. destruct (_ <=? _) eqn:E; [done|]. breflect.
  destruct Hd. constructor; cbn; auto. rewrite vsize_app. change (vsize [MakeRef v]) with 1. lia.
Qed.

Lemma AttachEvidence_all_ok g d views : draft_ok g d -> draft_ok g (foldl (AttachEvidence limits) d views).
Proof. revert d. induction views; intros d Hd; cbn; auto using AttachEvidence_ok. Qed.
End DraftFacts.

#[export] Hint Resolve MakeDraft_ok explained_ok with_intended_ok with_observed_ok qualified_ok
  relevant_ok AttachEvidence_ok AttachEvidence_all_ok : ndo.

Section DraftSections.
Variable policy : ObservatoryPolicy.
Variable limits : RuntimeLimits.
Variable target : string.
Variable baseline : IntentBaseline.
Variable primary : EvidenceView.

Notation ok := (draft_ok policy limits target (base_generation baseline)).

Lemma Forall_flat_map_all {A B} (P : B -> Prop) (f : A -> list B) l :
  (forall x, Forall P (f x)) -> Forall P (flat_map f l).
Proof. intros Hf. apply Forall_flat_map, Forall_forall. auto. Qed.

#[local] Hint Extern 1 (_ <> _) => discriminate : ndo.

(** Splits a branching section into lists of no, one or several drafts. *)
Ltac draft_cases :=
  repeat case_scrutinee;
  lazymatch goal with
  | |- Forall _ [] => apply Forall_nil_2
  | |- Forall _ [_] => apply Forall_singleton; eauto 9 with ndo
  | |- _ => idtac
  end.

Lemma conflict_draft_ok lhs rhs object path v w about :
  ok (conflict_draft policy limits target baseline lhs rhs object path v w about).
Proof. unfold conflict_draft. auto 9 with ndo. Qed.
#[local] Hint Resolve conflict_draft_ok : ndo.

Lemma conflicts_ok views : Forall ok (conflicts policy limits target baseline views).
Proof.
  induction views as [|lhs rest IH]; cbn [conflicts]; [constructor|].
  apply Forall_app. split; [|done]. destruct (view_usable lhs); [|constructor].
  apply Forall_flat_map_all. intros rhs. destruct (view_usable rhs); [|constructor].
  apply Forall_flat_map_all. intros [id o]. unfold object_conflicts. draft_cases.
  apply Forall_flat_map_all. intros [p v]. unfold field_conflicts. draft_cases.
Qed.

Lemma primary_draft_ok object path klass reason rationale : klass <> DC_None ->
  ok (primary_draft policy limits target baseline primary object path klass reason rationale).
Proof. intros. unfold primary_draft. auto with ndo. Qed.
#[local] Hint Resolve primary_draft_ok : ndo.

Lemma compare_field_ok id o f :
  Forall ok (compare_field policy limits target baseline primary id o f).
Proof. unfold compare_field. draft_cases. Qed.

Lemma unexpected_field_ok id o f :
  Forall ok (unexpected_field policy limits target baseline primary id o f).
Proof. unfold unexpected_field. draft_cases. Qed.

Lemma compare_object_ok e : Forall ok (compare_object policy limits target baseline primary e).
Proof.
  assert (Hf : forall id o, Forall ok (compare_fields policy limits target baseline primary id o)).
  { intros id o. unfold compare_fields. repeat case_scrutinee; try apply Forall_nil_2.
    apply Forall_app. split; apply Forall_flat_map_all; intros;
      [apply compare_field_ok | apply unexpected_field_ok]. }
  unfold compare_object. destruct (io_existence (snd e)), (primary_presence primary (fst e)); try apply Hf;
    draft_cases.
Qed.

Lemma primary_drafts_ok : Forall ok (primary_drafts policy limits target baseline primary).
Proof.
  apply Forall_app. split; apply Forall_flat_map_all; [apply compare_object_ok|].
  intros e. unfold unexpected_object. draft_cases.
Qed.

Lemma no_intent_draft_ok views :
  draft_ok policy limits target 0 (no_intent_draft policy limits target views).
Proof.
  unfold no_intent_draft. assert (Hd : draft_ok policy limits target 0
    (MakeDraft policy target scope_object [] DC_IntentMissing empty_baseline))
    by (apply (MakeDraft_ok _ _ _ _ _ _ empty_baseline); discriminate).
  destruct views; auto with ndo.
Qed.

Lemma stale_draft_ok reason best views :
  ok (stale_draft policy limits target baseline reason best views).
Proof. unfold stale_draft. auto 9 with ndo. Qed.

Lemma regroup_draft_ok partial q d : ok d -> ok (regroup_draft policy partial q d).
Proof.
  intros Hd. unfold regroup_draft. destruct (negb (is_deviation d)) eqn:E; [done|].
  apply negb_false_iff in E. destruct Hd as [Ht _ He Hr Hg _]. constructor; cbn; auto.
  - by rewrite Ht.
  - right. unfold is_deviation in E. destruct Hr as [<-|[_ [Hr|Hr]]].
    + destruct (dr_klass d); try done; split; eauto; destruct partial; auto.
    + by rewrite Hr in E.
    + by rewrite Hr in E.
  - by destruct partial.
Qed.

Lemma regroup_ok drafts : Forall ok drafts -> Forall ok (regroup policy baseline primary drafts).1.
Proof.
  intros Hd. unfold regroup. repeat case_scrutinee; cbn [fst]; try done.
  all: apply Forall_map; eapply Forall_impl; [exact Hd|]; intros; by apply regroup_draft_ok.
Qed.

Lemma regroup_nil drafts : (regroup policy baseline primary drafts).1 = [] <-> drafts = [].
Proof.
  unfold regroup. repeat case_scrutinee; cbn [fst]; try done.
  all: split; [apply map_eq_nil | by intros ->].
Qed.
End DraftSections.

(** A draft is never neutral: it is something to act on or something undecided. *)
Lemma draft_decisive d : dr_klass d <> DC_None -> is_indeterminate d = true \/ is_actionable d = true.
Proof.
  unfold is_actionable, is_indeterminate. intros Hk. destruct (dr_klass d); try done; cbn; auto.
Qed.

(** The decision is compliance exactly when nothing was drafted. *)
Lemma compliant_iff policy limits target baseline primary drafts :
  Forall (draft_ok policy limits target (base_generation baseline)) drafts ->
  compliant policy primary drafts = true <-> drafts = [] /\ coverage_ok policy primary = true.
Proof.
  intros Hok. unfold compliant, decidable. rewrite !andb_true_iff, !negb_true_iff.
  destruct drafts as [|d l]; [cbn; tauto|]. split; [|by intros []].
  intros [[Hi _] Ha]. exfalso. apply Forall_cons in Hok as [[_ _ _ _ _ Hk] _].
  cbn [existsb] in Hi, Ha. apply orb_false_iff in Hi as [Hi _], Ha as [Ha _].
  destruct (draft_decisive d Hk); congruence.
Qed.

(** Both directions by splitting the hypotheses, refuting clashing constructors
    and offering the obvious witness. *)
Ltac iff_cases :=
  split; intros;
  repeat match goal with
    | H : _ /\ _ |- _ => destruct H
    | H : exists _, _ |- _ => destruct H
    | H : _ \/ _ |- _ => destruct H
    | H : forall v, Some _ = Some v -> _ |- _ => specialize (H _ eq_refl)
    end;
  simplify_eq; try done; try congruence; eauto 6;
  try (split; intros; eauto; congruence).

(** ** Specification of convergence *)

Section Spec.
Variable policy : ObservatoryPolicy.
Variable limits : RuntimeLimits.
Variable target : string.
Variable baseline : IntentBaseline.
Variable primary : EvidenceView.

(** A managed field is observed with an equal value. *)
Definition field_converged (object_id : string) (observed : ObservedObject)
    (entry : FieldPath * IntentField) : Prop :=
  IsReservedPath (fst entry) = true \/
  match ClassifyField policy target object_id (fst entry) (if_comparability (snd entry)) with
  | FC_Unmanaged | FC_ObserveOnly => True
  | FC_Managed =>
      exists value, mfind (fst entry) (ob_fields observed) = Some value /\
        RelateValues (pol_numeric_equivalence policy) (if_intended (snd entry)) value = VR_Equal
  | FC_Unobservable | FC_Unsupported => False
  end.

(** A required object is reported present, every managed field matches and every
    reported field is declared; a forbidden object is not reported present. *)
Definition object_converged (entry : string * IntentObject) : Prop :=
  match io_existence (snd entry) with
  | OE_Required =>
      exists observed, snapshot_FindObject (view_snapshot primary) (fst entry) = Some observed /\
        ob_presence observed = OP_Present /\
        Forall (field_converged (fst entry) observed) (io_fields (snd entry)) /\
        Forall (fun f => IsReservedPath (fst f) = true \/ mmem (fst f) (io_fields (snd entry)) = true)
          (ob_fields observed)
  | OE_Forbidden => primary_presence primary (fst entry) <> OP_Present
  end.

Definition object_admitted (entry : string * ObservedObject) : Prop :=
  IsReservedObjectId (fst entry) = true \/ mmem (fst entry) (base_objects baseline) = true \/
  ob_presence (snd entry) <> OP_Present.

Definition converged : Prop :=
  Forall object_converged (base_objects baseline) /\
  Forall object_admitted (snap_objects (view_snapshot primary)).

(** Two usable sources agree about what both report. *)
Definition sources_agree (lhs rhs : EvidenceView) : Prop :=
  Forall (fun entry =>
    forall other, snapshot_FindObject (view_snapshot rhs) (fst entry) = Some other ->
      (ob_presence (snd entry) <> ob_presence other ->
         ob_presence (snd entry) = OP_Unknown \/ ob_presence other = OP_Unknown) /\
      (ob_presence (snd entry) = ob_presence other ->
         Forall (fun field => forall value, mfind (fst field) (ob_fields other) = Some value ->
           RelateValues (pol_numeric_equivalence policy) (snd field) value <> VR_Different)
           (ob_fields (snd entry)))) (snap_objects (view_snapshot lhs)).

Definition no_conflicts (views : list EvidenceView) : Prop :=
  ForallOrdPairs (fun lhs rhs =>
    view_usable lhs = true -> view_usable rhs = true -> sources_agree lhs rhs) views.

Lemma app_nil_iff {A} (l k : list A) : (l ++ k)%list = [] <-> l = [] /\ k = [].
Proof. split; [apply app_eq_nil | by intros [-> ->]]. Qed.

Lemma flat_map_nil {A B} (f : A -> list B) l : flat_map f l = [] <-> Forall (fun x => f x = []) l.
Proof.
  induction l; cbn; [by rewrite Forall_nil|]. rewrite Forall_cons, <- IHl. split.
  - by intros ?%app_eq_nil.
  - by intros [-> ->].
Qed.

Lemma compare_field_nil id o f :
  compare_field policy limits target baseline primary id o f = [] <-> field_converged id o f.
Proof.
  unfold compare_field, field_converged. destruct (IsReservedPath (fst f)); [iff_cases|].
  destruct (ClassifyField _ _ _ _ _); try solve [iff_cases].
  destruct (mfind _ _) as [v|]; [|destruct (FieldVisible _ _ _); iff_cases].
  destruct (RelateValues _ _ v) eqn:E; iff_cases.
Qed.

Lemma unexpected_field_nil id o f :
  unexpected_field policy limits target baseline primary id o f = [] <->
  IsReservedPath (fst f) = true \/ mmem (fst f) (io_fields o) = true.
Proof.
  unfold unexpected_field. destruct (IsReservedPath (fst f)); [iff_cases|].
  destruct (mmem _ _); iff_cases.
Qed.

Lemma compare_object_nil e :
  compare_object policy limits target baseline primary e = [] <-> object_converged e.
Proof.
  unfold compare_object, object_converged, compare_fields, primary_presence.
  destruct (snapshot_FindObject (view_snapshot primary) (fst e)) as [o|] eqn:Eo.
  - destruct (io_existence (snd e)).
    + destruct (ob_presence o) eqn:Ep.
      * destruct (_ && _); iff_cases.
      * rewrite app_nil_iff, !flat_map_nil. setoid_rewrite compare_field_nil.
        setoid_rewrite unexpected_field_nil. iff_cases.
      * iff_cases.
    + destruct (ob_presence o); iff_cases.
  - destruct (io_existence (snd e)); destruct (declares_unobserved _ _); try solve [iff_cases];
      destruct (ObjectFullyVisible _ _); try destruct (_ && _); iff_cases.
Qed.

Lemma primary_drafts_nil :
  primary_drafts policy limits target baseline primary = [] <-> converged.
Proof.
  unfold primary_drafts, converged. rewrite app_nil_iff, !flat_map_nil.
  setoid_rewrite compare_object_nil. apply and_iff_compat_l.
  apply Forall_proper; [|done]. intros [id o]. unfold unexpected_object, object_admitted. cbn.
  destruct (IsReservedObjectId id); [iff_cases|]. destruct (mmem id _); [iff_cases|].
  destruct (ob_presence o); iff_cases.
Qed.

Lemma pair_conflicts_nil lhs rhs :
  pair_conflicts policy limits target baseline lhs rhs = [] <-> sources_agree lhs rhs.
Proof.
  unfold pair_conflicts, sources_agree. rewrite flat_map_nil. apply Forall_proper; [|done].
  intros [id o]. unfold object_conflicts. cbn [fst snd].
  destruct (snapshot_FindObject _ id) as [other|]; [|iff_cases].
  destruct (eqb (ob_presence o) (ob_presence other)) eqn:Ep; cbn [negb].
  - apply eqb_eq in Ep. rewrite flat_map_nil.
    assert (Hf : Forall (fun x => field_conflicts policy limits target baseline lhs rhs id other x = [])
        (ob_fields o) <->
      Forall (fun field => forall value, mfind (fst field) (ob_fields other) = Some value ->
           RelateValues (pol_numeric_equivalence policy) (snd field) value <> VR_Different) (ob_fields o)).
    { apply Forall_proper; [|done]. intros [p v]. unfold field_conflicts. cbn [fst snd].
      destruct (mfind p _) as [w|]; [|iff_cases]. destruct (RelateValues _ v w) eqn:E; iff_cases. }
    rewrite Hf. iff_cases.
  - apply eqb_neq in Ep. destruct (_ || _) eqn:Eu.
    + apply orb_true_iff in Eu. rewrite !eqb_eq in Eu. iff_cases.
    + apply orb_false_iff in Eu. rewrite !eqb_neq in Eu. iff_cases.
      by destruct (H Ep).
Qed.

Lemma conflicts_nil views :
  conflicts policy limits target baseline views = [] <-> no_conflicts views.
Proof.
  unfold no_conflicts. induction views as [|lhs rest IH]; cbn [conflicts]; [split; [constructor|done]|].
  rewrite app_nil_iff, IH. split.
  - intros [H1 H2]. constructor; [|done]. destruct (view_usable lhs); [|by apply Forall_forall].
    rewrite flat_map_nil in H1. eapply List.Forall_impl; [|exact H1].
    intros rhs Hr _ Hu. cbv beta in Hr. rewrite Hu in Hr. by apply pair_conflicts_nil.
  - intros H. inversion H as [|? ? H1 H2]; subst. split; [|done].
    destruct (view_usable lhs); [|done]. apply flat_map_nil. eapply List.Forall_impl; [|exact H1].
    intros rhs Hr. cbv beta in Hr. destruct (view_usable rhs); [|done]. by apply pair_conflicts_nil, Hr.
Qed.
End Spec.

(** ** Facts: one view per source *)

Section Views.

Lemma keep_newest_sublist last views : sublist (keep_newest last views) views.
Proof.
  revert last. induction views as [|v l IH]; intros last; cbn; [constructor|].
  destruct last as [s|]; [destruct (eqb s (view_source v))|]; constructor; auto.
Qed.

(** The order of [newest_less] groups the views by source, so the views kept
    have pairwise distinct sources, all different from the last one kept. *)
Lemma keep_newest_sources last views :
  StronglySorted (fun a b => newest_less b a = false) views ->
  (forall s v, last = Some s -> v ∈ views -> ltb (view_source v) s = false) ->
  NoDup (map view_source (keep_newest last views)) /\
  (forall s, last = Some s -> s ∉ map view_source (keep_newest last views)).
Proof.
  revert last. induction views as [|v l IH]; intros last Hs Hlast; cbn [keep_newest].
  { split; [constructor | set_solver]. }
  inversion Hs as [|? ? Hs' Hf]; subst. rewrite Forall_forall in Hf.
  assert (Hnext : forall s w, Some (view_source v) = Some s -> w ∈ l -> ltb (view_source w) s = false).
  { intros s w [= <-] Hw. specialize (Hf w Hw). unfold newest_less in Hf.
    destruct (eqb (snap_source (view_snapshot w)) (snap_source (view_snapshot v))) eqn:E; [|exact Hf].
    apply eqb_eq in E. unfold view_source. rewrite E.
    apply not_true_iff_false. rewrite ltb_lt. apply key_lt_irrefl. }
  assert (Hkeep : (forall s, last = Some s -> eqb s (view_source v) = false) ->
    NoDup (map view_source (v :: keep_newest (Some (view_source v)) l)) /\
    (forall s, last = Some s -> s ∉ map view_source (v :: keep_newest (Some (view_source v)) l))).
  { intros Hne. destruct (IH (Some (view_source v)) Hs' Hnext) as [Hn Hv].
    split; [cbn; constructor; auto|]. intros s Es Hin. cbn in Hin.
    specialize (Hne s Es). apply eqb_neq in Hne. apply elem_of_cons in Hin as [->|Hin]; [done|].
    apply list_elem_of_fmap in Hin as (w & -> & Hw).
    assert (Hwl : w ∈ l) by (eapply sublist_subseteq; [apply keep_newest_sublist | exact Hw]).
    pose proof (Hlast _ v Es (list_elem_of_here _ _)) as H1.
    pose proof (Hnext _ w eq_refl Hwl) as H2.
    apply Hne. destruct (key_trichotomy (view_source w) (view_source v)) as [H3|[?|H3]]; [|done|];
      apply ltb_lt in H3; congruence. }
  destruct last as [s|]; [|by apply Hkeep].
  destruct (eqb s (view_source v)) eqn:E.
  - apply IH; [done|]. intros s' w Es Hw. apply (Hlast s' w Es). set_solver.
  - apply Hkeep. by intros ? [= ->].
Qed.

(** Every view has a kept view of its source that is at least as new. *)
Lemma keep_newest_covers last views v :
  StronglySorted (fun a b => newest_less b a = false) views -> v ∈ views ->
  last = Some (view_source v) \/
  exists w, w ∈ keep_newest last views /\ view_source w = view_source v /\ newest_less v w = false.
Proof.
  revert last. induction views as [|u l IH]; intros last Hs Hin; [set_solver|].
  inversion Hs as [|? ? Hs' Hf]; subst. rewrite Forall_forall in Hf. cbn [keep_newest].
  assert (Hkeep : exists w, w ∈ u :: keep_newest (Some (view_source u)) l /\
    view_source w = view_source v /\ newest_less v w = false).
  { apply elem_of_cons in Hin as [->|Hin].
    - exists u. split; [set_solver|]. split; [done|].
      apply not_true_iff_false. rewrite newest_less_key, ltb_lt. apply key_lt_irrefl.
    - destruct (IH (Some (view_source u)) Hs' Hin) as [[= Hu]|(w & Hw & Hr)].
      + exists u. split; [set_solver|]. split; [done|]. by apply Hf.
      + exists w. split; [set_solver | done]. }
  destruct last as [s|]; [|by right]. destruct (eqb s (view_source u)) eqn:E; [|by right].
  apply eqb_eq in E. subst s. apply elem_of_cons in Hin as [->|Hin]; [by left|].
  by destruct (IH (Some (view_source u)) Hs' Hin) as [?|?]; [left|right].
Qed.
End Views.

Lemma newest_sorted l : StronglySorted (fun a b => newest_less b a = false) (sort_by newest_less l).
Proof. apply sort_by_sorted; [apply (keyed_trans_neg _ _ newest_less_key) | apply (keyed_asym _ _ newest_less_key)]. Qed.

Lemma elem_of_sorted_views policy input v :
  v ∈ sorted_views policy input -> v ∈ candidate_views policy (in_snapshots input) (in_freshness input).
Proof.
  unfold sorted_views. rewrite <- sort_by_perm. intros Hv.
  apply (sublist_subseteq _ _ (keep_newest_sublist _ _)) in Hv. by rewrite <- sort_by_perm in Hv.
Qed.

(** ** Theorems *)

Section Candidates.
Variable policy : ObservatoryPolicy.
Variable limits : RuntimeLimits.

(** The input of a comparison as a list of candidate and verdict pairs. *)
Definition input_of (target : string) (baseline : option IntentBaseline)
    (candidates : list (option ObservationSnapshot * FreshnessVerdict)) : TargetComparisonInput :=
  mkComparisonInput target baseline (map fst candidates) (map snd candidates).

Definition present (candidates : list (option ObservationSnapshot * FreshnessVerdict))
    : list ObservationSnapshot :=
  flat_map (fun c => match fst c with Some s => [s] | None => [] end) candidates.

(** What orders two snapshots of one source. *)
Definition position (s : ObservationSnapshot) : string * (Z * (Z * Z)) :=
  (snap_source s, (snap_epoch s, (snap_incarnation s, snap_sequence s))).

Definition view_of (c : option ObservationSnapshot * FreshnessVerdict) : list EvidenceView :=
  match fst c with Some s => [MakeView policy s (snd c)] | None => [] end.

Lemma candidate_views_of candidates :
  candidate_views policy (map fst candidates) (map snd candidates) = flat_map view_of candidates.
Proof. induction candidates as [|[[s|] f] l IH]; cbn; by rewrite ?IH. Qed.

Lemma candidate_positions candidates :
  map (fun v => position (view_snapshot v)) (flat_map view_of candidates) =
  map position (present candidates).
Proof. induction candidates as [|[[s|] f] l IH]; cbn; by rewrite ?IH. Qed.

Lemma newest_key_position v w :
  newest_key v = newest_key w -> position (view_snapshot v) = position (view_snapshot w).
Proof.
  unfold newest_key, position. intros H. apply pair_equal_spec in H as [-> H].
  apply pair_equal_spec in H as [->%Z.opp_inj H].
  by apply pair_equal_spec in H as [->%Z.opp_inj ->%Z.opp_inj].
Qed.

Lemma usable_candidate input v :
  v ∈ candidate_views policy (in_snapshots input) (in_freshness input) ->
  exists verdict, verdict ∈ in_freshness input /\
    view_usable v = fv_may_support_compliance verdict.
Proof.
  generalize (in_snapshots input), (in_freshness input). intros snapshots freshness.
  revert freshness. induction snapshots as [|[s|] l IH]; intros [|f k]; cbn;
    try (by intros ?%elem_of_nil).
  - intros [->|Hv]%elem_of_cons; [exists f; set_solver|].
    destruct (IH k Hv) as (w & ? & ?). exists w. set_solver.
  - intros Hv. destruct (IH k Hv) as (w & ? & ?). exists w. set_solver.
Qed.

(** Comparison reads the snapshots only through the sorted views. *)
Lemma sorted_views_permutation target baseline c1 c2 :
  Permutation c1 c2 -> NoDup (map position (present c1)) ->
  sorted_views policy (input_of target baseline c1) =
  sorted_views policy (input_of target baseline c2).
Proof.
  intros Hp Hn. unfold sorted_views, input_of. cbn [in_snapshots in_freshness].
  rewrite !candidate_views_of. f_equal. f_equal.
  apply sort_by_canonical; [apply (keyed_trans_neg _ _ newest_less_key)
    | apply (keyed_asym _ _ newest_less_key) | | by rewrite Hp].
  intros x y Hx Hy H1 H2. rewrite <- candidate_positions in Hn.
  apply (NoDup_map_inj _ _ _ _ Hn Hx Hy).
  by apply newest_key_position, (keyed_tie _ _ newest_less_key).
Qed.
End Candidates.

(** C35. The order in which the candidate snapshots of a target are given is
    irrelevant: as long as no two of them claim the same position in the same
    source's sequence, permuting the candidates with their verdicts changes
    nothing in the evaluation, not even its trace. *)
Theorem CompareTarget_order_irrelevant target baseline c1 c2 policy limits
    (Hp : Permutation c1 c2) (Hn : NoDup (map position (present c1))) :
  CompareTarget (input_of target baseline c1) policy limits =
  CompareTarget (input_of target baseline c2) policy limits.
Proof.
  unfold CompareTarget. rewrite (sorted_views_permutation policy target baseline c1 c2 Hp Hn).
  unfold input_of. cbn [in_target in_baseline in_snapshots in_freshness].
  assert (Hl : length (flat_map (view_of policy) c1) = length (flat_map (view_of policy) c2))
    by (by rewrite Hp).
  rewrite !candidate_views_of. unfold vsize.
  by rewrite !length_map, Hl, (Permutation_length Hp).
Qed.

(** At most one snapshot per source takes part in a comparison, and it is
    the newest one of its source: every candidate is represented by a view of
    its source that is not older; and no view precedes the primary one, the
    first of them. *)
Theorem sorted_views_newest policy input :
  NoDup (map view_source (sorted_views policy input)) /\
  (forall v, v ∈ candidate_views policy (in_snapshots input) (in_freshness input) ->
     exists w, w ∈ sorted_views policy input /\ view_source w = view_source v /\
       newest_less v w = false) /\
  StronglySorted (fun a b => ViewLess b a = false) (sorted_views policy input).
Proof.
  unfold sorted_views. set (c := candidate_views _ _ _).
  pose proof (newest_sorted c) as Hs. split; [|split].
  - rewrite <- (sort_by_perm ViewLess). by apply (keep_newest_sources None _ Hs).
  - intros v Hv. rewrite (sort_by_perm newest_less) in Hv.
    destruct (keep_newest_covers None _ v Hs Hv) as [?|(w & Hw & Hr)]; [done|].
    exists w. by rewrite <- sort_by_perm.
  - apply sort_by_sorted; [apply (keyed_trans_neg _ _ ViewLess_key) | apply (keyed_asym _ _ ViewLess_key)].
Qed.

(** The two ways a comparison with a baseline can go. *)
Lemma CompareTarget_refused input policy limits baseline :
  vsize (in_snapshots input) = vsize (in_freshness input) ->
  in_baseline input = Some baseline ->
  existsb view_usable (sorted_views policy input) = false ->
  exists reason best,
    te_compliance_decidable (CompareTarget input policy limits) = false /\
    te_compliant (CompareTarget input policy limits) = false /\
    te_fresh_sources (CompareTarget input policy limits) =
      vcount view_usable (sorted_views policy input) /\
    te_drafts (CompareTarget input policy limits) =
      [stale_draft policy limits (in_target input) baseline reason best (sorted_views policy input)].
Proof.
  intros Hn Hb Hu. unfold CompareTarget. rewrite Hn, Z.eqb_refl, Hb. cbn [negb].
  destruct (List.find view_usable (sorted_views policy input)) eqn:Ef.
  { pose proof (proj1 (find_usable _) (ex_intro _ _ Ef)). congruence. }
  by do 2 eexists.
Qed.

Lemma CompareTarget_decided input policy limits baseline primary rest :
  vsize (in_snapshots input) = vsize (in_freshness input) ->
  in_baseline input = Some baseline ->
  sorted_views policy input = primary :: rest ->
  view_usable primary = true ->
  let e := CompareTarget input policy limits in
  let drafts := (regroup policy baseline primary
     (conflicts policy limits (in_target input) baseline (firstn kMaxConflictSources (primary :: rest)) ++
      primary_drafts policy limits (in_target input) baseline primary)%list).1 in
  te_drafts e = drafts /\
  te_compliance_decidable e = decidable policy primary drafts /\
  te_compliant e = compliant policy primary drafts /\
  te_decision_reason e = decision_reason policy primary drafts.
Proof.
  intros Hn Hb Hs Hu. unfold CompareTarget. rewrite Hn, Z.eqb_refl, Hb, Hs. cbn [negb].
  destruct (List.find view_usable (primary :: rest)) eqn:Ef; [|cbn in Ef; by rewrite Hu in Ef].
  destruct (regroup _ _ _ _). done.
Qed.

(** C1. A target is declared compliant exactly when a baseline is committed, the
    primary source is usable, covers what the policy demands and reports a state
    that has converged to the baseline, and the usable sources among the first
    eight agree with each other. *)
Theorem CompareTarget_compliant_iff input policy limits :
  te_compliant (CompareTarget input policy limits) = true <->
  vsize (in_snapshots input) = vsize (in_freshness input) /\
  exists baseline primary rest,
    in_baseline input = Some baseline /\
    sorted_views policy input = primary :: rest /\
    view_usable primary = true /\
    (pol_require_complete_coverage policy = true -> view_complete primary = true) /\
    converged policy (in_target input) baseline primary /\
    no_conflicts policy (firstn kMaxConflictSources (primary :: rest)).
Proof.
  destruct (Z.eq_dec (vsize (in_snapshots input)) (vsize (in_freshness input))) as [Hn|Hn];
    [|unfold CompareTarget; rewrite (proj2 (Z.eqb_neq _ _) Hn); destruct (in_baseline input); cbn;
      (split; [done|by intros []])].
  destruct (in_baseline input) as [baseline|] eqn:Hb;
    [|unfold CompareTarget; rewrite Hn, Z.eqb_refl, Hb; cbn; split; [done|by intros (_ & ? & ? & ? & ? & _)]].
  destruct (existsb view_usable (sorted_views policy input)) eqn:Hu.
  2: { destruct (CompareTarget_refused input policy limits baseline Hn Hb Hu) as (? & ? & _ & -> & _).
       split; [done|]. intros (_ & ? & p & r & _ & Hs & Hp & _).
       rewrite (sorted_views_head _ _ _ _ Hs) in Hp. congruence. }
  destruct (sorted_views policy input) as [|primary rest] eqn:Hs; [done|].
  pose proof (sorted_views_head _ _ _ _ Hs) as Hp. rewrite Hs, Hu in Hp.
  destruct (CompareTarget_decided input policy limits baseline primary rest Hn Hb Hs Hp)
    as (_ & _ & -> & _).
  rewrite (compliant_iff policy limits (in_target input) baseline)
    by (apply regroup_ok, Forall_app; split; [apply conflicts_ok | apply primary_drafts_ok]).
  rewrite regroup_nil, app_nil_iff, conflicts_nil, primary_drafts_nil.
  assert (Hc : coverage_ok policy primary = true <->
    (pol_require_complete_coverage policy = true -> view_complete primary = true))
    by (unfold coverage_ok; destruct (pol_require_complete_coverage policy); cbn; intuition done).
  rewrite Hc. split.
  - intros [[? ?] ?]. split; [done|]. by exists baseline, primary, rest.
  - intros (_ & ? & ? & ? & [= <-] & [= <- <-] & _ & ? & ? & ?). done.
Qed.

(** C12. Evidence the freshness policy does not accept is never read as
    agreement: when no verdict may support compliance, the evaluation of a
    target with a committed baseline is neither decidable nor compliant, counts
    no fresh source and carries one stale-observation draft about the whole
    target. *)
Theorem CompareTarget_fail_closed input policy limits baseline
    (Hn : vsize (in_snapshots input) = vsize (in_freshness input))
    (Hb : in_baseline input = Some baseline)
    (Hf : Forall (fun v => fv_may_support_compliance v = false) (in_freshness input)) :
  let e := CompareTarget input policy limits in
  te_compliance_decidable e = false /\ te_compliant e = false /\ te_fresh_sources e = 0 /\
  exists d, te_drafts e = [d] /\ dr_raw_class d = DC_StaleObservation /\
    dr_klass d = DC_StaleObservation /\ dr_object d = "@target" /\
    dr_baseline_generation d = base_generation baseline.
Proof.
  assert (Hu : Forall (fun v => view_usable v = false) (sorted_views policy input)).
  { apply Forall_forall. intros v Hv%elem_of_sorted_views.
    apply usable_candidate in Hv as (w & Hw & ->). rewrite Forall_forall in Hf. by apply Hf. }
  assert (He : existsb view_usable (sorted_views policy input) = false).
  { apply not_true_iff_false. intros (v & Hin & Hv)%existsb_exists.
    rewrite Forall_forall in Hu. apply list_elem_of_In, Hu in Hin. congruence. }
  destruct (CompareTarget_refused input policy limits baseline Hn Hb He)
    as (reason & best & Hd & Hc & Hs & Ht).
  cbv zeta. rewrite Hd, Hc, Hs, Ht. split_and!; try done.
  - unfold vcount. clear -Hu. induction Hu as [|v l Hv _ IH]; cbn [List.filter]; [done|]. by rewrite Hv.
  - eexists. split; [done|]. unfold stale_draft.
    generalize (sorted_views policy input) as views, (ToText_FreshnessState best) as text. intros views text.
    set (d := explained _ _ _).
    assert (Hk : dr_raw_class d = DC_StaleObservation /\ dr_klass d = DC_StaleObservation /\
      dr_object d = "@target" /\ dr_baseline_generation d = base_generation baseline) by done.
    clearbody d. revert d Hk. induction views as [|v l IH]; intros d Hk; [done|]. cbn.
    apply IH. unfold AttachEvidence. by case_match.
Qed.

Lemma AppendTrace_bound trace text :
  vsize trace <= kMaxTraceEntries -> vsize (AppendTrace trace text) <= kMaxTraceEntries.
Proof.
  unfold AppendTrace. intros. destruct (_ <=? _) eqn:E; breflect; [done|].
  rewrite vsize_app. change (vsize [text]) with 1. lia.
Qed.

Lemma vcount_bound {A} (test : A -> bool) l : 0 <= vcount test l <= vsize l.
Proof. unfold vcount, vsize. pose proof (List.filter_length_le test l). lia. Qed.

Lemma vsize_sorted_views policy input :
  vsize (sorted_views policy input) <=
  vsize (candidate_views policy (in_snapshots input) (in_freshness input)).
Proof.
  unfold sorted_views, vsize. rewrite sort_by_length.
  rewrite <- (sort_by_length newest_less (candidate_views _ _ _)).
  pose proof (sublist_length _ _ (keep_newest_sublist None
    (sort_by newest_less (candidate_views policy (in_snapshots input) (in_freshness input))))). lia.
Qed.

Lemma vsize_candidate_views policy snapshots freshness :
  vsize (candidate_views policy snapshots freshness) <= vsize snapshots.
Proof.
  unfold vsize. revert freshness.
  induction snapshots as [|[s|] l IH]; intros [|f k]; cbn [candidate_views length]; try lia;
    specialize (IH k); lia.
Qed.

Lemma CompareTarget_trace_bound input policy limits :
  vsize (te_trace (CompareTarget input policy limits)) <= kMaxTraceEntries.
Proof.
  assert (H0 : vsize (A:=string) [] <= kMaxTraceEntries) by (vm_compute; discriminate).
  assert (H1 : forall t : string, vsize [t] <= kMaxTraceEntries) by (intros; vm_compute; discriminate).
  unfold CompareTarget. repeat case_scrutinee; cbn [te_trace]; auto;
    repeat first [done | apply AppendTrace_bound | apply H0 | apply H1 | case_scrutinee].
Qed.

Lemma CompareTarget_counts input policy limits :
  0 <= te_fresh_sources (CompareTarget input policy limits)
    <= te_sources_considered (CompareTarget input policy limits) /\
  te_sources_considered (CompareTarget input policy limits) <= vsize (in_snapshots input).
Proof.
  assert (Hv : vsize (sorted_views policy input) <= vsize (in_snapshots input))
    by (etransitivity; [apply vsize_sorted_views | apply vsize_candidate_views]).
  pose proof (vcount_bound view_usable (sorted_views policy input)) as Hc.
  unfold CompareTarget.
  destruct (negb (_ =? _)); [destruct (in_baseline input); cbn; unfold vsize; lia|].
  destruct (in_baseline input); [|done].
  destruct (List.find _ _), (sorted_views policy input); try done. by destruct (regroup _ _ _ _).
Qed.

Lemma CompareTarget_drafts_ok input policy limits :
  Forall (draft_ok policy limits (in_target input)
     match in_baseline input with Some b => base_generation b | None => 0 end)
    (te_drafts (CompareTarget input policy limits)).
Proof.
  unfold CompareTarget. destruct (negb (_ =? _)); [destruct (in_baseline input); constructor|].
  destruct (in_baseline input) as [b|].
  - destruct (List.find _ _), (sorted_views policy input) as [|primary rest];
      try apply Forall_singleton, stale_draft_ok.
    destruct (regroup _ _ _ _) as [drafts text] eqn:E. change drafts with (drafts, text).1.
    rewrite <- E. apply regroup_ok, Forall_app. split; [apply conflicts_ok | apply primary_drafts_ok].
  - match goal with |- Forall _ (te_drafts (update _ _ (update _ _ (update _ (fun _ => ?l) _)))) =>
      change (Forall (draft_ok policy limits (in_target input) 0) l) end.
    destruct (existsb _ _); [|constructor]. apply Forall_singleton, no_intent_draft_ok.
Qed.

Section IntentFacts.
Variable policy : ObservatoryPolicy.
Variable limits : RuntimeLimits.
Variable target : string.
Variable baseline : IntentBaseline.
Variable primary : EvidenceView.

(** Only a target without a committed generation is said to miss one. *)
Definition about_intent (d : FindingDraft) : Prop := dr_klass d <> DC_IntentMissing.

Lemma AttachEvidence_klass d v : dr_klass (AttachEvidence limits d v) = dr_klass d.
Proof. unfold AttachEvidence. by case_match. Qed.

Lemma AttachEvidence_all_klass views d : dr_klass (foldl (AttachEvidence limits) d views) = dr_klass d.
Proof. revert d. induction views; intros d; cbn; [done|]. by rewrite IHviews, AttachEvidence_klass. Qed.

#[local] Hint Extern 1 (about_intent _) =>
  unfold about_intent, conflict_draft, primary_draft; cbn; rewrite ?AttachEvidence_klass; cbn; discriminate : ndo.

Ltac intent_cases :=
  repeat case_scrutinee;
  lazymatch goal with
  | |- Forall _ [] => apply Forall_nil_2
  | |- Forall _ [_] => apply Forall_singleton; auto with ndo
  | |- _ => idtac
  end.

Lemma conflicts_intent views : Forall about_intent (conflicts policy limits target baseline views).
Proof.
  induction views as [|lhs rest IH]; cbn [conflicts]; [constructor|].
  apply Forall_app. split; [|done]. destruct (view_usable lhs); [|constructor].
  apply Forall_flat_map_all. intros rhs. destruct (view_usable rhs); [|constructor].
  apply Forall_flat_map_all. intros [id o]. unfold object_conflicts. intent_cases.
  apply Forall_flat_map_all. intros [p v]. unfold field_conflicts. intent_cases.
Qed.

Lemma compare_fields_intent id o : Forall about_intent (compare_fields policy limits target baseline primary id o).
Proof.
  unfold compare_fields. repeat case_scrutinee; try apply Forall_nil_2.
  apply Forall_app. split; apply Forall_flat_map_all; intros;
    [unfold compare_field | unfold unexpected_field]; intent_cases.
Qed.

Lemma primary_drafts_intent : Forall about_intent (primary_drafts policy limits target baseline primary).
Proof.
  apply Forall_app. split; apply Forall_flat_map_all; intros e.
  - unfold compare_object. destruct (io_existence (snd e)), (primary_presence primary (fst e));
      try apply compare_fields_intent; intent_cases.
  - unfold unexpected_object. intent_cases.
Qed.

Lemma regroup_intent drafts : Forall about_intent drafts -> Forall about_intent (regroup policy baseline primary drafts).1.
Proof.
  intros Hd. unfold regroup. repeat case_scrutinee; cbn [fst]; try done.
  all: apply Forall_map; eapply Forall_impl; [exact Hd|]; intros d Hk; unfold regroup_draft, about_intent;
    case_match; [done|cbn; repeat case_scrutinee; discriminate].
Qed.
End IntentFacts.

(** What can be decided and is not compliant has a draft to act on. *)
Lemma CompareTarget_decidable input policy limits :
  te_compliance_decidable (CompareTarget input policy limits) = true ->
  te_compliant (CompareTarget input policy limits) = true \/
  existsb (fun d => IsActionableDrift (dr_klass d)) (te_drafts (CompareTarget input policy limits)) = true.
Proof.
  destruct (Z.eq_dec (vsize (in_snapshots input)) (vsize (in_freshness input))) as [Hn|Hn].
  2: { unfold CompareTarget. rewrite (proj2 (Z.eqb_neq _ _) Hn). by destruct (in_baseline input). }
  destruct (in_baseline input) as [baseline|] eqn:Hb.
  2: { unfold CompareTarget. by rewrite Hn, Z.eqb_refl, Hb. }
  destruct (existsb view_usable (sorted_views policy input)) eqn:Hu.
  2: { by destruct (CompareTarget_refused input policy limits baseline Hn Hb Hu) as (? & ? & -> & _). }
  destruct (sorted_views policy input) as [|primary rest] eqn:Hs; [done|].
  pose proof (sorted_views_head _ _ _ _ Hs) as Hp. rewrite Hs, Hu in Hp.
  destruct (CompareTarget_decided input policy limits baseline primary rest Hn Hb Hs Hp) as (-> & -> & -> & _).
  set (drafts := (regroup _ _ _ _).1).
  assert (Hi : Forall about_intent drafts)
    by (apply regroup_intent, Forall_app; split; [apply conflicts_intent | apply primary_drafts_intent]).
  unfold compliant. intros Hd. rewrite Hd.
  destruct (existsb is_actionable drafts) eqn:Ha; [|by left]. right.
  apply existsb_exists in Ha as (d & Hin & Ha). apply existsb_exists. exists d. split; [done|].
  unfold is_actionable in Ha. apply andb_prop in Ha as [_ Ha].
  rewrite Forall_forall in Hi. specialize (Hi d). rewrite list_elem_of_In in Hi. specialize (Hi Hin).
  apply orb_prop in Ha as [Ha|Ha]; [done|]. apply eqb_eq in Ha. done.
Qed.

Lemma CompareTarget_compliant_sound input policy limits :
  let e := CompareTarget input policy limits in
  te_compliant e = true -> te_compliance_decidable e = true /\ te_drafts e = [].
Proof.
  cbv zeta. intros Hc. pose proof Hc as (Hn & b & p & r & Hb & Hs & Hu & _)%CompareTarget_compliant_iff.
  destruct (CompareTarget_decided input policy limits b p r Hn Hb Hs Hu) as (Hd & Hk & Hc' & _).
  rewrite Hd, Hk. rewrite Hc' in Hc. split; [by apply andb_true_iff in Hc as []|].
  eapply compliant_iff; [|exact Hc]. apply regroup_ok, Forall_app.
  split; [apply conflicts_ok | apply primary_drafts_ok].
Qed.

(** C37. Every evaluation is well formed whatever the input: each draft is about
    the input's target and the committed generation, carries the severity policy
    gives its class, keeps its raw class unless a divergence was regrouped, and
    refers to at most the configured number of snapshots; the trace is bounded;
    no more sources are counted than snapshots were given; and compliance
    implies decidability and no draft at all. *)
Theorem CompareTarget_well_formed input policy limits :
  let e := CompareTarget input policy limits in
  let generation := match in_baseline input with Some b => base_generation b | None => 0 end in
  Forall (draft_ok policy limits (in_target input) generation) (te_drafts e) /\
  vsize (te_trace e) <= kMaxTraceEntries /\
  (0 <= te_fresh_sources e <= te_sources_considered e /\
   te_sources_considered e <= vsize (in_snapshots input)) /\
  (te_compliant e = true -> te_compliance_decidable e = true /\ te_drafts e = []).
Proof.
  split; [apply CompareTarget_drafts_ok|]. split; [apply CompareTarget_trace_bound|].
  split; [apply CompareTarget_counts | apply CompareTarget_compliant_sound].
Qed.

(** ** Examples and witnesses *)

Definition example_snapshot (source : string) (sequence : Z) (presence : ObjectPresence)
    : ObservationSnapshot :=
  mkSnapshot "snap" source 1 1 sequence "t" 1000 1005 0 OC_Complete []
    [("vlan", mkObservedObject "vlan" presence [])] (mkCapabilities true true false EC_Real) EC_Real.

Definition example_baseline (existence : ObjectExistence) : IntentBaseline :=
  mkIntentBaseline "t" 5 1 IA_IntentFabric "policy/default" 0 zero_digest EC_Real
    [("vlan", mkIntentObject "vlan" existence [])].

Definition example_verdict (usable : bool) : FreshnessVerdict :=
  EvaluateFreshness (example_snapshot "a" 1 OP_Present) (mkFreshnessPolicy 100 80 10 true)
    (if usable then 1010 else 9000) 1 false.

Lemma CompareTarget_order_irrelevant_witness :
  let c s q p := (Some (example_snapshot s q p), example_verdict true) in
  let c1 := [c "b" 3 OP_Present; c "a" 1 OP_Absent; c "a" 2 OP_Present] in
  let c2 := [c "a" 2 OP_Present; c "b" 3 OP_Present; c "a" 1 OP_Absent] in
  CompareTarget (input_of "t" (Some (example_baseline OE_Required)) c1) Policy_Default default_limits =
  CompareTarget (input_of "t" (Some (example_baseline OE_Required)) c2) Policy_Default default_limits.
Proof.
  cbv zeta. apply CompareTarget_order_irrelevant.
  - apply Permutation_sym, (Permutation_middle [_; _] []).
  - vm_compute. repeat constructor; set_solver.
Defined.

Lemma CompareTarget_fail_closed_witness :
  let input := input_of "t" (Some (example_baseline OE_Required))
    [(Some (example_snapshot "a" 1 OP_Present), example_verdict false)] in
  let e := CompareTarget input Policy_Default default_limits in
  te_compliance_decidable e = false /\ te_fresh_sources e = 0 /\
  map dr_klass (te_drafts e) = [DC_StaleObservation].
Proof.
  cbv zeta.
  destruct (CompareTarget_fail_closed (input_of "t" (Some (example_baseline OE_Required))
    [(Some (example_snapshot "a" 1 OP_Present), example_verdict false)]) Policy_Default default_limits
    (example_baseline OE_Required) eq_refl eq_refl) as (H1 & _ & H2 & d & H3 & _ & H4 & _).
  - repeat constructor.
  - split; [exact H1|]. split; [exact H2|]. rewrite H3. cbn. by rewrite H4.
Defined.

(** A present required object complies; a missing one does not. *)
Example compliance_decided :
  let run p := CompareTarget (input_of "t" (Some (example_baseline OE_Required))
    [(Some (example_snapshot "a" 1 p), example_verdict true)]) Policy_Default default_limits in
  te_compliant (run OP_Present) = true /\
  te_compliance_decidable (run OP_Absent) = true /\ te_compliant (run OP_Absent) = false /\
  map dr_klass (te_drafts (run OP_Absent)) = [DC_Missing] /\
  te_compliance_decidable (run OP_Unknown) = false.
Proof. vm_compute. repeat split. Qed.

(** A forbidden object whose presence the source reports as unknown leaves no
    draft, so the target is declared compliant although nothing shows that the
    object is absent. *)
Example forbidden_unknown_complies :
  te_compliant (CompareTarget (input_of "t" (Some (example_baseline OE_Forbidden))
    [(Some (example_snapshot "a" 1 OP_Unknown), example_verdict true)])
    Policy_Default default_limits) = true.
Proof. vm_compute. reflexivity. Qed.
