(* ===== verification/Finding.v ===== *)
(** * Findings

    finding.hpp/finding.cpp: the lifecycle states, timeline events and root
    causes with their names, the records of findings, timeline entries and
    groups, the deterministic identity of a finding and its one-line
    explanation.

    A [FindingId] or [GroupId] is the digest it wraps; the default-constructed
    one is the zero digest, which is not set. *)

From Stdlib Require Import ZArith Lia List Bool String.
From stdpp Require Import base tactics list strings.
From S2P Require Import Prelude Containers Text Hash Status Time Identity Double Value Drift Intent.
From S2P Require Import Observation Freshness Comparison.
#[local] Open Scope string_scope.
#[local] Open Scope Z_scope.
#[local] Arguments String.append : simpl nomatch.

(** ** Vocabulary *)

Inductive FindingState : Set :=
| St_Open | St_Acknowledged | St_Suppressed | St_Resolved | St_Superseded | St_Retired.

#[export, refine] Instance enum_FindingState : Enum FindingState :=
  {| code v := match v with
               | St_Open => 0 | St_Acknowledged => 1 | St_Suppressed => 2 | St_Resolved => 3
               | St_Superseded => 4 | St_Retired => 5 end;
     values := [St_Open; St_Acknowledged; St_Suppressed; St_Resolved; St_Superseded; St_Retired] |}.
Proof. enum_complete. Defined.

Inductive SuppressionOrigin : Set := SO_None | SO_Policy | SO_Operator.

#[export, refine] Instance enum_SuppressionOrigin : Enum SuppressionOrigin :=
  {| code v := match v with SO_None => 0 | SO_Policy => 1 | SO_Operator => 2 end;
     values := [SO_None; SO_Policy; SO_Operator] |}.
Proof. enum_complete. Defined.

Inductive TimelineEventKind : Set :=
| TE_Created | TE_Updated | TE_Reopened | TE_Resolved | TE_Suppressed | TE_SuppressionExpired
| TE_SuppressionCleared | TE_Acknowledged | TE_AcknowledgementCleared | TE_Reclassified
| TE_Rebased | TE_EvidenceRecovered | TE_Grouped | TE_Retired.

#[export, refine] Instance enum_TimelineEventKind : Enum TimelineEventKind :=
  {| code v := match v with
               | TE_Created => 0 | TE_Updated => 1 | TE_Reopened => 2 | TE_Resolved => 3
               | TE_Suppressed => 4 | TE_SuppressionExpired => 5 | TE_SuppressionCleared => 6
               | TE_Acknowledged => 7 | TE_AcknowledgementCleared => 8 | TE_Reclassified => 9
               | TE_Rebased => 10 | TE_EvidenceRecovered => 11 | TE_Grouped => 12
               | TE_Retired => 13 end;
     values := [TE_Created; TE_Updated; TE_Reopened; TE_Resolved; TE_Suppressed;
                TE_SuppressionExpired; TE_SuppressionCleared; TE_Acknowledged;
                TE_AcknowledgementCleared; TE_Reclassified; TE_Rebased; TE_EvidenceRecovered;
                TE_Grouped; TE_Retired] |}.
Proof. enum_complete. Defined.

Definition kTimelineEventKindCount : Z := 14.

Inductive RootCauseKind : Set :=
| RK_None | RK_SingleField | RK_GenerationNotApplied | RK_PartialApplication | RK_SourceConflict
| RK_StaleEvidence | RK_InsufficientCoverage | RK_MissingIntent | RK_UnsupportedField.

#[export, refine] Instance enum_RootCauseKind : Enum RootCauseKind :=
  {| code v := match v with
               | RK_None => 0 | RK_SingleField => 1 | RK_GenerationNotApplied => 2
               | RK_PartialApplication => 3 | RK_SourceConflict => 4 | RK_StaleEvidence => 5
               | RK_InsufficientCoverage => 6 | RK_MissingIntent => 7
               | RK_UnsupportedField => 8 end;
     values := [RK_None; RK_SingleField; RK_GenerationNotApplied; RK_PartialApplication;
                RK_SourceConflict; RK_StaleEvidence; RK_InsufficientCoverage; RK_MissingIntent;
                RK_UnsupportedField] |}.
Proof. enum_complete. Defined.

Definition kRootCauseKindCount : Z := 9.

Definition kFindingStateNames : list (Z * string) :=
  [(0, "open"); (1, "acknowledged"); (2, "suppressed"); (3, "resolved"); (4, "superseded");
   (5, "retired")].

Definition kEventNames : list (Z * string) :=
  [(0, "created"); (1, "updated"); (2, "reopened"); (3, "resolved"); (4, "suppressed");
   (5, "suppression-expired"); (6, "suppression-cleared"); (7, "acknowledged");
   (8, "acknowledgement-cleared"); (9, "reclassified"); (10, "rebased"); (11, "evidence-recovered");
   (12, "grouped"); (13, "retired")].

Definition kSuppressionOriginNames : list (Z * string) := [(0, "none"); (1, "policy"); (2, "operator")].

Definition kCauseNames : list (Z * string) :=
  [(0, "none"); (1, "single-field"); (2, "generation-not-applied"); (3, "partial-application");
   (4, "source-conflict"); (5, "stale-evidence"); (6, "insufficient-coverage");
   (7, "missing-intent"); (8, "unsupported-field")].

Definition ToText_FindingState (value : FindingState) : string :=
  Lookup kFindingStateNames "invalid" (code value).
Definition TryParseFindingState (text : string) : option FindingState :=
  TryParseEnum kFindingStateNames text.
Definition ToText_TimelineEventKind (value : TimelineEventKind) : string :=
  Lookup kEventNames "invalid" (code value).
Definition TryParseTimelineEventKind (text : string) : option TimelineEventKind :=
  TryParseEnum kEventNames text.
Definition ToText_SuppressionOrigin (value : SuppressionOrigin) : string :=
  Lookup kSuppressionOriginNames "invalid" (code value).
Definition TryParseSuppressionOrigin (text : string) : option SuppressionOrigin :=
  TryParseEnum kSuppressionOriginNames text.
Definition ToText_RootCauseKind (value : RootCauseKind) : string :=
  Lookup kCauseNames "invalid" (code value).

(** Findings in these states take part in the compliance computation. *)
Definition IsLiveState (value : FindingState) : bool :=
  match value with St_Open | St_Acknowledged | St_Suppressed => true | _ => false end.

(** ** Records *)

Record TimelineEntry := mkTimelineEntry {
  tl_kind : TimelineEventKind;
  tl_target : string;
  tl_object : string;
  tl_finding : Digest;
  tl_sequence : Z;
  tl_at : NdoTime;
  tl_state_after : FindingState;
  tl_klass : DriftClass;
  tl_severity : Severity;
  tl_reason : ReasonCode;
  tl_baseline_generation : Z;
  tl_baseline_epoch : Z;
  tl_evidence_digest : Digest;
  tl_actor : string;
  tl_detail : string
}.

#[export] Instance eta_TimelineEntry : Eta TimelineEntry := fun e =>
  mkTimelineEntry (tl_kind e) (tl_target e) (tl_object e) (tl_finding e) (tl_sequence e) (tl_at e)
    (tl_state_after e) (tl_klass e) (tl_severity e) (tl_reason e) (tl_baseline_generation e)
    (tl_baseline_epoch e) (tl_evidence_digest e) (tl_actor e) (tl_detail e).

Record RootCauseGroup := mkGroup {
  gr_id : Digest;
  gr_target : string;
  gr_baseline_generation : Z;
  gr_baseline_epoch : Z;
  gr_cause : RootCauseKind;
  gr_discriminator : Digest;
  gr_members : list Digest;
  gr_objects : list string;
  gr_summary : string;
  gr_observation_count : Z;
  gr_first_seen : NdoTime;
  gr_last_seen : NdoTime
}.

#[export] Instance eta_RootCauseGroup : Eta RootCauseGroup := fun g =>
  mkGroup (gr_id g) (gr_target g) (gr_baseline_generation g) (gr_baseline_epoch g) (gr_cause g)
    (gr_discriminator g) (gr_members g) (gr_objects g) (gr_summary g) (gr_observation_count g)
    (gr_first_seen g) (gr_last_seen g).

Record FindingIdentity := mkIdentity {
  fi_target : string;
  fi_object : string;
  fi_path : FieldPath;
  fi_klass : DriftClass;
  fi_baseline_generation : Z;
  fi_qualifier : Digest
}.

Record Finding := mkFinding {
  fd_id : Digest;
  fd_identity : FindingIdentity;
  fd_klass : DriftClass;
  fd_raw_class : DriftClass;
  fd_severity : Severity;
  fd_state : FindingState;
  fd_reason : ReasonCode;
  fd_baseline_generation : Z;
  fd_baseline_epoch : Z;
  fd_baseline_authority : IntentAuthority;
  fd_policy : string;
  fd_policy_digest : Digest;
  fd_has_intended : bool;
  fd_intended : Value;
  fd_has_observed : bool;
  fd_observed : Value;
  fd_evidence : list EvidenceRef;
  fd_evidence_freshness : FreshnessState;
  fd_group : Digest;
  fd_group_cause : RootCauseKind;
  fd_observation_count : Z;
  fd_reopen_count : Z;
  fd_resolution_confirmations : Z;
  fd_first_seen : NdoTime;
  fd_last_seen : NdoTime;
  fd_last_evaluated : NdoTime;
  fd_resolved_at : NdoTime;
  fd_suppression : option string;
  fd_suppression_origin : SuppressionOrigin;
  fd_suppressed_by : string;
  fd_suppression_reason : string;
  fd_suppression_expires_at : option NdoTime;
  fd_acknowledged_by : string;
  fd_acknowledged_at : NdoTime;
  fd_acknowledgement_reason : string;
  fd_summary : string;
  fd_compliance_relevant : bool;
  fd_timeline : list TimelineEntry
}.

#[export] Instance eta_Finding : Eta Finding := fun f =>
  mkFinding (fd_id f) (fd_identity f) (fd_klass f) (fd_raw_class f) (fd_severity f) (fd_state f)
    (fd_reason f) (fd_baseline_generation f) (fd_baseline_epoch f) (fd_baseline_authority f)
    (fd_policy f) (fd_policy_digest f) (fd_has_intended f) (fd_intended f) (fd_has_observed f)
    (fd_observed f) (fd_evidence f) (fd_evidence_freshness f) (fd_group f) (fd_group_cause f)
    (fd_observation_count f) (fd_reopen_count f) (fd_resolution_confirmations f)
    (fd_first_seen f) (fd_last_seen f) (fd_last_evaluated f) (fd_resolved_at f)
    (fd_suppression f) (fd_suppression_origin f) (fd_suppressed_by f) (fd_suppression_reason f)
    (fd_suppression_expires_at f) (fd_acknowledged_by f) (fd_acknowledged_at f)
    (fd_acknowledgement_reason f) (fd_summary f) (fd_compliance_relevant f) (fd_timeline f).

Definition is_live (f : Finding) : bool := IsLiveState (fd_state f).
Definition is_suppressed (f : Finding) : bool := eqb (fd_state f) St_Suppressed.

(** ** Identity *)

Definition kFindingIdentityTag : string := "ndo/finding-identity/v1".

Definition ComputeId (i : FindingIdentity) : Digest :=
  let hasher := UpdateTag Sha256_init kFindingIdentityTag in
  let hasher := UpdateLengthPrefixed hasher (fi_target i) in
  let hasher := UpdateLengthPrefixed hasher (fi_object i) in
  let hasher := UpdateLengthPrefixed hasher (FieldPath_ToText (fi_path i)) in
  let hasher := UpdateLengthPrefixed hasher (ToText_DriftClass (fi_klass i)) in
  let hasher := UpdateU64 hasher (fi_baseline_generation i) in
  let hasher := UpdateU64 hasher (flag (Digest_is_set (fi_qualifier i))) in
  let hasher := if Digest_is_set (fi_qualifier i) then Update hasher (fi_qualifier i) else hasher in
  Final hasher.

(** ** Age and explanation *)

Definition AgeNanos (f : Finding) (now : NdoTime) : Z :=
  match TryDifference now (fd_first_seen f) with Some age => age | None => 0 end.

Definition ExplainFinding (f : Finding) : string :=
  let text :=
    ToText_DriftClass (fd_klass f) +:+ " at " +:+ fi_target (fd_identity f) +:+ " " +:+
    fi_object (fd_identity f) +:+ " " +:+ FieldPath_Describe (fi_path (fd_identity f)) +:+
    "; baseline generation " +:+ to_string_unsigned (fd_baseline_generation f) +:+ " (" +:+
    ToText_IntentAuthority (fd_baseline_authority f) +:+ ")" +:+
    (if fd_has_intended f then "; intended " +:+ ToDisplayText (fd_intended f) 96 else "") +:+
    (if fd_has_observed f then "; observed " +:+ ToDisplayText (fd_observed f) 96 else "") +:+
    "; evidence " +:+ ToText_FreshnessState (fd_evidence_freshness f) +:+
    match fd_evidence f with
    | [] => ""
    | e :: _ =>
        " from " +:+ ref_source e +:+ " snapshot " +:+ substr 0 12 (ref_snapshot e) +:+
        " collected " +:+ FormatTime (ref_collected_at e)
    end +:+
    "; state " +:+ ToText_FindingState (fd_state f) +:+
    "; severity " +:+ ToText_Severity (fd_severity f) +:+
    "; reason " +:+ ToText_ReasonCode (fd_reason f) +:+
    (if negb (eqb (fd_raw_class f) (fd_klass f))
     then "; raw class " +:+ ToText_DriftClass (fd_raw_class f) else "") +:+
    match fd_suppression f with
    | Some id =>
        "; suppressed by " +:+ fd_suppressed_by f +:+ " (" +:+ id +:+ ") reason " +:+
        fd_suppression_reason f
    | None => ""
    end +:+
    "; observed " +:+ to_string_unsigned (fd_observation_count f) +:+
    " time(s); reopened " +:+ to_string_unsigned (fd_reopen_count f) +:+ " time(s)" in
  truncate_with 1024 "..." text.

(** ** Facts *)

(** Names round trip. *)
Lemma FindingState_round_trip s : TryParseFindingState (ToText_FindingState s) = Some s.
Proof. by destruct s. Qed.
Lemma TimelineEventKind_round_trip k : TryParseTimelineEventKind (ToText_TimelineEventKind k) = Some k.
Proof. by destruct k. Qed.
Lemma SuppressionOrigin_round_trip o : TryParseSuppressionOrigin (ToText_SuppressionOrigin o) = Some o.
Proof. by destruct o. Qed.

Definition identity_preimage (i : FindingIdentity) : list Z :=
  (length_prefixed kFindingIdentityTag ++ length_prefixed (fi_target i) ++
   length_prefixed (fi_object i) ++ length_prefixed (FieldPath_ToText (fi_path i)) ++
   length_prefixed (ToText_DriftClass (fi_klass i)) ++ be64 (fi_baseline_generation i) ++
   be64 (flag (Digest_is_set (fi_qualifier i))) ++
   (if Digest_is_set (fi_qualifier i) then fi_qualifier i else []))%list.

(** Members that fit their C++ types. *)
Definition identity_ok (i : FindingIdentity) : Prop :=
  is_u64 (ssize (fi_target i)) /\ is_u64 (ssize (fi_object i)) /\ path_ok (fi_path i) /\
  is_u64 (fi_baseline_generation i) /\ is_digest (fi_qualifier i).

Lemma ComputeId_preimage i : ComputeId i = sha256_spec (identity_preimage i).
Proof.
  unfold ComputeId, identity_preimage. autorewrite with sha.
  destruct (Digest_is_set (fi_qualifier i)); autorewrite with sha;
    by rewrite ?app_nil_r, <- ?app_assoc.
Qed.

Lemma zero_digest_ok : is_digest zero_digest.
Proof. split; [done|]. apply Forall_forall. intros x Hx%list_elem_of_In.
  apply repeat_spec in Hx as ->. done. Qed.

Lemma unset_digest d : length d = 32%nat -> Digest_is_set d = false -> d = zero_digest.
Proof.
  unfold zero_digest. generalize 32%nat. intros n <-. unfold Digest_is_set.
  induction d as [|b d IH]; cbn; [done|]. intros [Hb Hd]%orb_false_iff.
  apply negb_false_iff, Z.eqb_eq in Hb as ->. by rewrite <- IH.
Qed.

Lemma identity_preimage_inj i j : identity_ok i -> identity_ok j ->
  identity_preimage i = identity_preimage j -> i = j.
Proof.
  destruct i as [t o p k g q], j as [t' o' p' k' g' q'].
  unfold identity_ok, identity_preimage. cbn [fi_target fi_object fi_path fi_klass
    fi_baseline_generation fi_qualifier].
  intros (Ht & Ho & Hp & Hg & Hq & _) (Ht' & Ho' & Hp' & Hg' & Hq' & _) E.
  apply app_inv_head in E. pose proof (proj2 Hp) as Hl. pose proof (proj2 Hp') as Hl'.
  assert (Hk : forall c, is_u64 (ssize (ToText_DriftClass c))) by (intros []; vm_compute; split; discriminate).
  pose proof (Hk k) as Hk1. pose proof (Hk k') as Hk2.
  assert (Hs : forall b, is_u64 (flag b)) by (intros []; vm_compute; split; discriminate).
  pose proof (Hs (Digest_is_set q)) as Hs1. pose proof (Hs (Digest_is_set q')) as Hs2.
  do 6 peel E. apply FieldPath_ToText_inj in F1; [|done..]. apply ToText_DriftClass_inj in F2.
  apply flag_inj in F4. subst. f_equal. rewrite F4 in E.
  destruct (Digest_is_set q') eqn:Eq; [done|].
  by rewrite (unset_digest q), (unset_digest q').
Qed.

(** C39. A finding is identified by the location, the class and the baseline it
    was compared against, and by nothing else: its identity is the SHA-256 of an
    encoding of those members that two identities share only when they are
    equal, the qualifier included. *)
Theorem ComputeId_identifies (i j : FindingIdentity) (Hi : identity_ok i) (Hj : identity_ok j) :
  ComputeId i = sha256_spec (identity_preimage i) /\ is_digest (ComputeId i) /\
  (identity_preimage i = identity_preimage j <-> i = j).
Proof.
  rewrite ComputeId_preimage. split; [done|]. split; [apply sha256_spec_digest|].
  split; [by apply identity_preimage_inj | by intros ->].
Qed.

Lemma ComputeId_identifies_witness :
  let i := mkIdentity "t" "vlan" [PS_Key "mtu"] DC_ValueMismatch 5 zero_digest in
  let j := mkIdentity "t" "vlan" [PS_Key "mtu"] DC_GenerationMismatch 5 zero_digest in
  identity_ok i /\ identity_ok j /\ identity_preimage i <> identity_preimage j.
Proof.
  cbv zeta.
  assert (Hok : forall k, identity_ok (mkIdentity "t" "vlan" [PS_Key "mtu"] k 5 zero_digest)).
  { intros k. split; [done|]. split; [done|]. split; [split; [apply Forall_singleton|done]|split; [done|]].
    - done.
    - apply zero_digest_ok. }
  split; [apply Hok|]. split; [apply Hok|].
  intros E. apply (ComputeId_identifies _ _ (Hok _) (Hok _)) in E. discriminate.
Defined.

(** The explanation is bounded whatever the values it shows. *)
Lemma ExplainFinding_bound f : ssize (ExplainFinding f) <= 1027.
Proof. unfold ExplainFinding. exact (truncate_with_bound 1024 "..." _ ltac:(done)). Qed.
