(* ===== verification/Ledger.v ===== *)
(** * The finding ledger

    ledger.hpp/ledger.cpp: committed baselines, the window of retained
    observations, findings with their timelines, groups, suppressions and
    acknowledgements.

    A member function that mutates the ledger is a function from a ledger to a
    ledger; one that reports through an output parameter takes the report it may
    leave unchanged and returns it.  A loop that changes the entries of a map in
    place is [mfor], whose threaded state is the rest of the ledger: no loop of
    the source reads, in its body, another entry of the map it iterates over,
    except the resolution loop of [ApplyEvaluation], which works on a list of
    identities collected before and is a fold.

    Unset identities are the empty string or the zero digest; counters are
    64-bit and wrap. *)

From Stdlib Require Import ZArith Lia List Bool String.
From stdpp Require Import base tactics list strings.
From S2P Require Import Prelude Containers Text Hash Status Time Identity Double Value Drift Intent.
From S2P Require Import Observation Freshness Policy Comparison Finding.
#[local] Open Scope string_scope.
#[local] Open Scope Z_scope.
#[local] Arguments String.append : simpl nomatch.

(** ** Data *)

Record IntentCommitReport := mkCommitReport {
  cr_target : string;
  cr_previous_generation : Z;
  cr_committed_generation : Z;
  cr_epoch : Z;
  cr_findings_rebased : Z;
  cr_findings_retired : Z;
  cr_duplicate_identical : bool
}.

#[export] Instance eta_IntentCommitReport : Eta IntentCommitReport := fun r =>
  mkCommitReport (cr_target r) (cr_previous_generation r) (cr_committed_generation r) (cr_epoch r)
    (cr_findings_rebased r) (cr_findings_retired r) (cr_duplicate_identical r).

Record ObservationAdmission := mkAdmission {
  ad_snapshot : string;
  ad_source : string;
  ad_target : string;
  ad_sequence : Z;
  ad_freshness : FreshnessState;
  ad_duplicate_identical : bool;
  ad_superseded_older : bool
}.

#[export] Instance eta_ObservationAdmission : Eta ObservationAdmission := fun r =>
  mkAdmission (ad_snapshot r) (ad_source r) (ad_target r) (ad_sequence r) (ad_freshness r)
    (ad_duplicate_identical r) (ad_superseded_older r).

Record LedgerApplyReport := mkApplyReport {
  rp_created : Z;
  rp_updated : Z;
  rp_reopened : Z;
  rp_resolved : Z;
  rp_suppressed : Z;
  rp_superseded : Z;
  rp_retired : Z;
  rp_unchanged : Z;
  rp_fenced_targets : Z;
  rp_groups_touched : Z;
  rp_created_ids : list Digest;
  rp_resolved_ids : list Digest
}.

#[export] Instance eta_LedgerApplyReport : Eta LedgerApplyReport := fun r =>
  mkApplyReport (rp_created r) (rp_updated r) (rp_reopened r) (rp_resolved r) (rp_suppressed r)
    (rp_superseded r) (rp_retired r) (rp_unchanged r) (rp_fenced_targets r) (rp_groups_touched r)
    (rp_created_ids r) (rp_resolved_ids r).

Definition empty_apply_report : LedgerApplyReport := mkApplyReport 0 0 0 0 0 0 0 0 0 0 [] [].

Record RetainedObservation := mkRetained {
  ro_snapshot : ObservationSnapshot;
  ro_freshness : FreshnessVerdict;
  ro_recovered : bool
}.

Record LedgerStats := mkStats {
  ls_targets : Z; ls_baselines : Z; ls_observations : Z; ls_sources : Z; ls_findings : Z;
  ls_live_findings : Z; ls_resolved_findings : Z; ls_superseded_findings : Z;
  ls_suppressed_findings : Z; ls_acknowledged_findings : Z; ls_groups : Z;
  ls_timeline_entries : Z; ls_suppressions_active : Z; ls_suppressions_expired : Z
}.

(** [SourceWindowKey]: the target, then the source. *)
Definition SourceWindowKey : Type := (string * string)%type.

Record FindingLedger := mkLedger {
  lg_limits : RuntimeLimits;
  lg_revision : Z;
  lg_timeline_sequence : Z;
  lg_baselines : omap string IntentBaseline;
  lg_windows : omap SourceWindowKey (list RetainedObservation);
  lg_findings : omap Digest Finding;
  lg_groups : omap Digest RootCauseGroup;
  lg_global_timeline : list TimelineEntry;
  lg_resolution_streak : omap Digest Z;
  lg_suppressions_active : Z;
  lg_suppressions_expired : Z
}.

#[export] Instance eta_FindingLedger : Eta FindingLedger := fun l =>
  mkLedger (lg_limits l) (lg_revision l) (lg_timeline_sequence l) (lg_baselines l) (lg_windows l)
    (lg_findings l) (lg_groups l) (lg_global_timeline l) (lg_resolution_streak l)
    (lg_suppressions_active l) (lg_suppressions_expired l).

Definition empty_ledger (limits : RuntimeLimits) : FindingLedger :=
  mkLedger limits 0 0 [] [] [] [] [] [] 0 0.

Definition SetLimits (limits : RuntimeLimits) (l : FindingLedger) : FindingLedger := l <| lg_limits := limits |>.

(** ** Helpers *)

Definition bump (z : Z) : Z := wrap64 (z + 1).

Definition BoundedDetail (text : string) : string := truncate_with 240 "..." text.

Definition CauseFor (klass : DriftClass) : RootCauseKind :=
  match klass with
  | DC_GenerationMismatch => RK_GenerationNotApplied
  | DC_PartialApplication => RK_PartialApplication
  | DC_SourceConflict => RK_SourceConflict
  | DC_StaleObservation => RK_StaleEvidence
  | DC_Unknown => RK_InsufficientCoverage
  | DC_Unsupported => RK_UnsupportedField
  | DC_IntentMissing => RK_MissingIntent
  | _ => RK_SingleField
  end.

Definition CauseFormsGroup (cause : RootCauseKind) (members : Z) : bool :=
  if 2 <=? members then negb (eqb cause RK_None)
  else eqb cause RK_GenerationNotApplied || eqb cause RK_PartialApplication.

Definition GroupDiscriminator (members : list Finding) : Digest :=
  let qualifiers := map (fun f =>
    if Digest_is_set (fi_qualifier (fd_identity f)) then Digest_ToHex (fi_qualifier (fd_identity f))
    else Digest_ToHex (fd_id f)) members in
  let qualifiers := dedup eqb (sort_by ltb qualifiers) in
  let hasher := UpdateTag Sha256_init "ndo/group-discriminator/v1" in
  let hasher := UpdateU64 hasher (vsize qualifiers) in
  Final (foldl UpdateLengthPrefixed hasher qualifiers).

Definition kGroupTag : string := "ndo/root-cause-group/v1".
Definition kContentTag : string := "ndo/ledger-content/v1".

Definition GroupIdentity (target : string) (generation : Z) (cause : RootCauseKind)
    (discriminator : Digest) : Digest :=
  let hasher := UpdateTag Sha256_init kGroupTag in
  let hasher := UpdateLengthPrefixed hasher target in
  let hasher := UpdateU64 hasher generation in
  let hasher := UpdateLengthPrefixed hasher (ToText_RootCauseKind cause) in
  Final (Update hasher discriminator).

(** ** Timelines *)

Definition AppendTimeline (entry : TimelineEntry) (l : FindingLedger) : FindingLedger :=
  let sequence := bump (lg_timeline_sequence l) in
  l <| lg_timeline_sequence := sequence |>
    <| lg_global_timeline ::= fun t => (t ++ [entry <| tl_sequence := sequence |>])%list |>.

Definition TrimTimelineIfNeeded (l : FindingLedger) : FindingLedger :=
  l <| lg_global_timeline ::= keep_last (max_global_timeline_entries (lg_limits l)) |>.

Definition RecordEvent (entry : TimelineEntry) (l : FindingLedger) : FindingLedger :=
  (TrimTimelineIfNeeded (AppendTimeline entry l)) <| lg_revision ::= bump |>.

Definition bump_revision (l : FindingLedger) : FindingLedger := l <| lg_revision ::= bump |>.

Definition RecomputeSummary (limits : RuntimeLimits) (f : Finding) : Finding :=
  let f := f <| fd_timeline ::= keep_last (max_timeline_entries_per_finding limits) |> in
  f <| fd_summary := ExplainFinding f |>.

(** The members every event about a finding copies from it. *)
Definition finding_event (kind : TimelineEventKind) (f : Finding) (now : NdoTime)
    (reason : ReasonCode) (detail : string) : TimelineEntry :=
  mkTimelineEntry kind (fi_target (fd_identity f)) (fi_object (fd_identity f)) (fd_id f) 0 now
    (fd_state f) (fd_klass f) (fd_severity f) reason (fd_baseline_generation f)
    (fd_baseline_epoch f) zero_digest "" detail.

(** [finding.timeline.push_back(event)]. *)
Definition push_event (event : TimelineEntry) (f : Finding) : Finding :=
  f <| fd_timeline ::= fun t => (t ++ [event])%list |>.

(** The digest of the first evidence reference, when there is one. *)
Definition front_digest (f : Finding) : Digest :=
  match fd_evidence f with [] => zero_digest | e :: _ => ref_content_digest e end.

(** A target-scope event about a generation. *)
Definition intent_event (kind : TimelineEventKind) (target : string) (now : NdoTime)
    (reason : ReasonCode) (generation epoch : Z) (detail : string) : TimelineEntry :=
  mkTimelineEntry kind target kTargetScopeObjectId zero_digest 0 now St_Open DC_None Sev_Info reason
    generation epoch zero_digest "" detail.

(** ** Intent *)

Definition FindBaseline (l : FindingLedger) (target : string) : option IntentBaseline :=
  mfind target (lg_baselines l).

(** Whether the new baseline still manages the location of a finding. *)
Definition still_managed (baseline : option IntentBaseline) (f : Finding) : bool :=
  match baseline with
  | None => false
  | Some b =>
      if eqb (fi_object (fd_identity f)) kTargetScopeObjectId then true
      else match baseline_FindObject b (fi_object (fd_identity f)) with
           | None => false
           | Some object =>
               match fi_path (fd_identity f) with
               | [] => true
               | path => mmem path (io_fields object)
               end
           end
  end.

(** [if (finding.group.is_set()) ...]: the finding leaves its group, which is
    remembered for removal. *)
Definition leave_group (f : Finding) (drop : oset Digest) : Finding * oset Digest :=
  if Digest_is_set (fd_group f)
  then (f <| fd_group := zero_digest |> <| fd_group_cause := RK_None |>, sinsert (fd_group f) drop)
  else (f, drop).

Definition rebase_finding (baseline : option IntentBaseline) (generation : Z) (now : NdoTime)
    (f : Finding) (s : FindingLedger * IntentCommitReport * oset Digest)
    : Finding * (FindingLedger * IntentCommitReport * oset Digest) :=
  let '(l, report, drop) := s in
  let managed := still_managed baseline f in
  let f :=
    (if managed
     then f <| fd_state := St_Superseded |> <| fd_reason := RC_FindingRebasedToNewGeneration |>
     else f <| fd_state := St_Retired |> <| fd_reason := RC_FindingRetired |>)
      <| fd_last_evaluated := now |> in
  let report :=
    if managed then report <| cr_findings_rebased ::= bump |>
    else report <| cr_findings_retired ::= bump |> in
  let '(f, drop) := leave_group f drop in
  let event :=
    (finding_event (if managed then TE_Rebased else TE_Retired) f now (fd_reason f)
      (BoundedDetail
        (if managed
         then "baseline advanced to generation " +:+ to_string_unsigned generation +:+
              "; finding is superseded until the next evaluation"
         else "the new baseline no longer manages this location; the finding is retired")))
      <| tl_baseline_generation := generation |>
      <| tl_evidence_digest := fd_policy_digest f |> in
  (RecomputeSummary (lg_limits l) (push_event event f), (AppendTimeline event l, report, drop)).

(** Findings of other targets, not live or of this generation are skipped. *)
Definition rebase_entry (baseline : option IntentBaseline) (target : string) (generation : Z)
    (now : NdoTime) (id : Digest) (f : Finding) (s : FindingLedger * IntentCommitReport * oset Digest)
    : Finding * (FindingLedger * IntentCommitReport * oset Digest) :=
  if negb (eqb (fi_target (fd_identity f)) target) then (f, s)
  else if negb (IsLiveState (fd_state f)) then (f, s)
  else if fd_baseline_generation f =? generation then (f, s)
  else rebase_finding baseline generation now f s.

Definition erase_groups (drop : oset Digest) (l : FindingLedger) : FindingLedger :=
  l <| lg_groups ::= fun groups => foldl (fun m id => merase id m) groups (mkeys drop) |>.

Definition RebaseFindingsForTarget (target : string) (generation : Z) (now : NdoTime)
    (report : IntentCommitReport) (l : FindingLedger) : IntentCommitReport * FindingLedger :=
  let '(findings, (l', report', drop)) :=
    mfor (rebase_entry (FindBaseline l target) target generation now) (lg_findings l)
      (l, report, []) in
  (report', erase_groups drop (l' <| lg_findings := findings |>)).

Definition baseline_of (doc : IntentGenerationDocument) (now : NdoTime) : IntentBaseline :=
  mkIntentBaseline (doc_target doc) (doc_generation doc) (doc_epoch doc) (doc_authority doc)
    (doc_policy doc) now (Intent_ComputeContentDigest doc) (doc_evidence doc) (doc_objects doc).

Definition CommitIntent (doc : IntentGenerationDocument) (now : NdoTime) (report : IntentCommitReport)
    (l : FindingLedger) : Status * IntentCommitReport * FindingLedger :=
  let status := Intent_Validate (lg_limits l) doc in
  if negb (status_ok status) then (status, report, l)
  else
    let report := mkCommitReport (doc_target doc) 0 0 (doc_epoch doc) 0 0 false in
    match FindBaseline l (doc_target doc) with
    | None =>
        if max_targets (lg_limits l) <=? vsize (lg_baselines l)
        then (Status_Limit RC_LimitObjectsExceeded "committed intent target count exceeds the envelope",
              report, l)
        else
          let l := l <| lg_baselines ::= memplace (doc_target doc) (baseline_of doc now) |> in
          let event := intent_event TE_Created (doc_target doc) now RC_None (doc_generation doc)
            (doc_epoch doc)
            (BoundedDetail ("intent generation " +:+ to_string_unsigned (doc_generation doc) +:+
               " committed from " +:+ ToText_IntentAuthority (doc_authority doc))) in
          (Status_Ok, report <| cr_committed_generation := doc_generation doc |>,
           bump_revision (AppendTimeline event l))
    | Some existing =>
        if doc_epoch doc <? base_epoch existing
        then (Status_Stale RC_FencedStaleEpoch
                "intent epoch is older than the committed baseline epoch", report, l)
        else if doc_generation doc <? base_generation existing
        then (Status_Conflict RC_IntentGenerationRegressed
                "intent generation is older than the committed baseline", report, l)
        else if doc_generation doc =? base_generation existing
        then
          if eqb (Intent_ComputeContentDigest doc) (base_content_digest existing)
          then (Status_Ok,
                report <| cr_duplicate_identical := true |>
                       <| cr_committed_generation := base_generation existing |>, l)
          else (Status_Conflict RC_IntentGenerationConflicting
                  "divergent re-publication of the committed intent generation", report, l)
        else
          let report := report <| cr_previous_generation := base_generation existing |>
                               <| cr_committed_generation := doc_generation doc |> in
          let l := l <| lg_baselines ::= minsert (doc_target doc) (baseline_of doc now) |> in
          let '(report, l) :=
            RebaseFindingsForTarget (doc_target doc) (doc_generation doc) now report l in
          let event := intent_event TE_Rebased (doc_target doc) now RC_FindingRebasedToNewGeneration
            (doc_generation doc) (doc_epoch doc)
            (BoundedDetail ("intent generation advanced to " +:+
               to_string_unsigned (doc_generation doc) +:+ " from " +:+
               ToText_IntentAuthority (doc_authority doc))) in
          (Status_Ok, report, bump_revision (AppendTimeline event l))
    end.

Definition Targets (l : FindingLedger) : list string :=
  let windows := map (fun entry => fst (fst entry)) (lg_windows l) in
  let extra := List.filter (fun target => negb (mmem target (lg_baselines l))) windows in
  dedup eqb (sort_by ltb (mkeys (lg_baselines l) ++ extra)%list).

(** ** Observations *)

(** The order of a window: epoch, incarnation, sequence. *)
Definition retained_less (lhs rhs : RetainedObservation) : bool :=
  let a := ro_snapshot lhs in
  let b := ro_snapshot rhs in
  if negb (snap_epoch a =? snap_epoch b) then snap_epoch a <? snap_epoch b
  else if negb (snap_incarnation a =? snap_incarnation b)
  then snap_incarnation a <? snap_incarnation b
  else snap_sequence a <? snap_sequence b.

(** The first recovered record that is not the last, or the first record. *)
Fixpoint first_recovered (index : nat) (window : list RetainedObservation) : option nat :=
  match window with
  | [] | [_] => None
  | r :: rest => if ro_recovered r then Some index else first_recovered (S index) rest
  end.

Definition eviction_victim (window : list RetainedObservation) : nat :=
  match first_recovered 0 window with Some index => index | None => 0%nat end.

Definition erase_at {A} (index : nat) (l : list A) : list A := (firstn index l ++ skipn (S index) l)%list.

Definition EvictIfNeeded (limits : RuntimeLimits) (window : list RetainedObservation)
    : list RetainedObservation :=
  if max_retained_snapshots_per_source limits <? vsize window
  then erase_at (eviction_victim window) window
  else window.

Definition RecordObservation (snapshot : ObservationSnapshot) (verdict : FreshnessVerdict)
    (recovered : bool) (report : ObservationAdmission) (l : FindingLedger)
    : Status * ObservationAdmission * FindingLedger :=
  let status := Snapshot_Validate (lg_limits l) snapshot in
  if negb (status_ok status) then (status, report, l)
  else
    let report := mkAdmission (snap_id snapshot) (snap_source snapshot) (snap_target snapshot)
      (snap_sequence snapshot) (fv_state verdict) false false in
    let key := (snap_target snapshot, snap_source snapshot) in
    let window := mget [] key (lg_windows l) in
    let l := l <| lg_windows ::= minsert key window |> in
    let refused :=
      match last window with
      | None => None
      | Some newest =>
          let newest := ro_snapshot newest in
          if snap_incarnation snapshot <? snap_incarnation newest
          then Some (Status_Stale RC_FencedStaleIncarnation
                 "observation incarnation predates the newest retained observation", report)
          else if snap_epoch snapshot <? snap_epoch newest
          then Some (Status_Stale RC_FencedStaleEpoch
                 "observation epoch predates the newest retained observation", report)
          else if (snap_incarnation snapshot =? snap_incarnation newest) &&
                  (snap_sequence snapshot =? snap_sequence newest)
          then
            if eqb (Snapshot_ComputeContentDigest snapshot) (Snapshot_ComputeContentDigest newest)
            then Some (Status_Ok, report <| ad_duplicate_identical := true |>)
            else Some (Status_Conflict RC_ObservationDuplicateConflicting
                   "two observations claim the same source sequence with different content", report)
          else None
      end in
    match refused with
    | Some (status, report) => (status, report, l)
    | None =>
        let superseded :=
          match last window with
          | Some newest => snap_sequence snapshot <? snap_sequence (ro_snapshot newest)
          | None => false
          end in
        let window := insert_at_lower_bound retained_less (mkRetained snapshot verdict recovered)
                        window in
        let window := EvictIfNeeded (lg_limits l) window in
        (Status_Ok, report <| ad_superseded_older := superseded |>,
         bump_revision (l <| lg_windows ::= minsert key window |>))
    end.

Definition ObservationsFor (l : FindingLedger) (target : string) : list RetainedObservation :=
  flat_map (fun entry => if eqb (fst (fst entry)) target then snd entry else []) (lg_windows l).

Definition invalidated (reason : ReasonCode) (now : NdoTime) (r : RetainedObservation)
    : RetainedObservation :=
  let age :=
    match TryDifference now (snap_collected_at (ro_snapshot r)) with Some age => age | None => 0 end in
  mkRetained (ro_snapshot r) (mkFreshnessVerdict FS_RecoveredNotFresh reason age 0 false false) true.

Definition InvalidateRetainedEvidence (reason : ReasonCode) (now : NdoTime) (l : FindingLedger)
    : Z * FindingLedger :=
  let count := sum_by (fun entry => vsize (snd entry)) (lg_windows l) in
  let l' := l <| lg_windows ::=
    map (fun entry => (fst entry, map (invalidated reason now) (snd entry))) |> in
  (count, if 0 <? count then bump_revision l' else l').

(** ** Operator actions *)

Definition decrement (z : Z) : Z := if 0 <? z then z - 1 else z.

(** What a finding goes back to when its suppression ends. *)
Definition resumed_state (f : Finding) : FindingState :=
  if eqb (fd_state f) St_Suppressed
  then if eqb (fd_acknowledged_by f) "" then St_Open else St_Acknowledged
  else fd_state f.

(** The five suppression members reset. *)
Definition clear_suppression (f : Finding) : Finding :=
  f <| fd_suppression := None |> <| fd_suppression_origin := SO_None |> <| fd_suppressed_by := "" |>
    <| fd_suppression_reason := "" |> <| fd_suppression_expires_at := None |>.

Definition has_suppression (f : Finding) : bool :=
  match fd_suppression f with Some _ => true | None => false end.

(** Every operator action ends the same way: the event is pushed and appended,
    the summary recomputed, the revision raised. *)
Definition conclude_action (id : Digest) (event : TimelineEntry) (f : Finding) (l : FindingLedger)
    : FindingLedger :=
  let f := RecomputeSummary (lg_limits l) (push_event event f) in
  bump_revision ((AppendTimeline event l) <| lg_findings ::= minsert id f |>).

Definition invalid_actor (actor : string) : bool := eqb actor "" || negb (IsValidIdentityText actor).

Definition suppression_text (f : Finding) : string :=
  "suppression/" +:+ substr 0 24 (Digest_ToHex (fd_id f)).

Definition Suppress (id : Digest) (actor reason : string) (expires_at : option NdoTime)
    (now : NdoTime) (l : FindingLedger) : Status * FindingLedger :=
  match mfind id (lg_findings l) with
  | None => (Status_NotFound RC_FindingNotFound "no finding exists with the supplied identity", l)
  | Some target =>
      if invalid_actor actor
      then (Status_Rejected RC_EncodingMalformed "suppression actor is invalid", l)
      else if (max_suppressions (lg_limits l) <=? lg_suppressions_active l) &&
              negb (has_suppression target)
      then (Status_Limit RC_LimitFieldsExceeded "suppression count exceeds the envelope", l)
      else if negb (IsValidIdentityText (suppression_text target))
      then (Status_Internal RC_EncodingMalformed "generated suppression identity is invalid", l)
      else
        let l := if negb (has_suppression target) then l <| lg_suppressions_active ::= bump |> else l in
        let target := target
          <| fd_suppression := Some (suppression_text target) |>
          <| fd_suppression_origin := SO_Operator |>
          <| fd_suppressed_by := actor |>
          <| fd_suppression_reason := BoundedDetail reason |>
          <| fd_suppression_expires_at := expires_at |> in
        let target :=
          if IsLiveState (fd_state target) then target <| fd_state := St_Suppressed |> else target in
        let event :=
          (finding_event TE_Suppressed target now RC_SuppressedByOperator
            (BoundedDetail ("suppressed by " +:+ actor +:+ ": " +:+ fd_suppression_reason target)))
            <| tl_actor := actor |> in
        (Status_Ok, conclude_action id event target l)
  end.

Definition ClearSuppression (id : Digest) (actor : string) (now : NdoTime) (l : FindingLedger)
    : Status * FindingLedger :=
  match mfind id (lg_findings l) with
  | None => (Status_NotFound RC_SuppressionNotFound "no finding exists with that identity", l)
  | Some target =>
      if negb (has_suppression target)
      then (Status_NotFound RC_SuppressionNotFound "the finding is not suppressed", l)
      else
        let target := clear_suppression target in
        let l := l <| lg_suppressions_active ::= decrement |> in
        let target := target <| fd_state := resumed_state target |> in
        let event :=
          (finding_event TE_SuppressionCleared target now RC_None
            "suppression cleared; the underlying evidence is unchanged") <| tl_actor := actor |> in
        (Status_Ok, conclude_action id event target l)
  end.

Definition Acknowledge (id : Digest) (actor reason : string) (now : NdoTime) (l : FindingLedger)
    : Status * FindingLedger :=
  match mfind id (lg_findings l) with
  | None => (Status_NotFound RC_FindingNotFound "no finding exists with that identity", l)
  | Some target =>
      if invalid_actor actor
      then (Status_Rejected RC_EncodingMalformed "acknowledgement actor is invalid", l)
      else
        let target := target
          <| fd_acknowledged_by := actor |> <| fd_acknowledged_at := now |>
          <| fd_acknowledgement_reason := BoundedDetail reason |> in
        let target :=
          if eqb (fd_state target) St_Open then target <| fd_state := St_Acknowledged |> else target in
        let event :=
          (finding_event TE_Acknowledged target now RC_AcknowledgementRecorded
            (BoundedDetail ("acknowledged by " +:+ actor +:+ ": " +:+ fd_acknowledgement_reason target)))
            <| tl_actor := actor |> in
        (Status_Ok, conclude_action id event target l)
  end.

Definition ClearAcknowledgement (id : Digest) (actor : string) (now : NdoTime) (l : FindingLedger)
    : Status * FindingLedger :=
  match mfind id (lg_findings l) with
  | None => (Status_NotFound RC_FindingNotFound "no finding exists with that identity", l)
  | Some target =>
      if eqb (fd_acknowledged_by target) ""
      then (Status_NotFound RC_AcknowledgementRecorded "the finding is not acknowledged", l)
      else
        let target := target
          <| fd_acknowledged_by := "" |> <| fd_acknowledged_at := 0 |>
          <| fd_acknowledgement_reason := "" |> in
        let target :=
          if eqb (fd_state target) St_Acknowledged then target <| fd_state := St_Open |> else target in
        let event :=
          (finding_event TE_AcknowledgementCleared target now RC_None "acknowledgement cleared")
            <| tl_actor := actor |> in
        (Status_Ok, conclude_action id event target l)
  end.

(** A suppression with an expiry that [now] has reached. *)
Definition expired_suppression (now : NdoTime) (f : Finding) : option NdoTime :=
  if negb (has_suppression f) then None
  else match fd_suppression_expires_at f with
       | None => None
       | Some at_ => if now <? at_ then None else Some at_
       end.

Definition expire_entry (now : NdoTime) (id : Digest) (f : Finding) (s : FindingLedger * Z)
    : Finding * (FindingLedger * Z) :=
  match expired_suppression now f with
  | None => (f, s)
  | Some expired_at =>
      let '(l, expired) := s in
      let f := clear_suppression f in
      let l := l <| lg_suppressions_active ::= decrement |> <| lg_suppressions_expired ::= bump |> in
      let f := f <| fd_state := resumed_state f |> in
      let event := finding_event TE_SuppressionExpired f now RC_SuppressionExpired
        (BoundedDetail ("suppression expired at " +:+ FormatTime expired_at)) in
      (RecomputeSummary (lg_limits l) (push_event event f), (AppendTimeline event l, bump expired))
  end.

Definition ExpireSuppressions (now : NdoTime) (l : FindingLedger) : Z * FindingLedger :=
  let '(findings, (l', expired)) := mfor (expire_entry now) (lg_findings l) (l, 0) in
  let l' := l' <| lg_findings := findings |> in
  (expired, if 0 <? expired then bump_revision l' else l').

(** ** Inspection *)

Definition FindFinding (l : FindingLedger) (id : Digest) : option Finding := mfind id (lg_findings l).
Definition Findings (l : FindingLedger) : list Finding := mvals (lg_findings l).
Definition Groups (l : FindingLedger) : list RootCauseGroup := mvals (lg_groups l).
Definition GlobalTimeline (l : FindingLedger) : list TimelineEntry := lg_global_timeline l.

Definition count_findings (test : Finding -> bool) (l : FindingLedger) : Z :=
  vcount test (Findings l).

Definition Stats (l : FindingLedger) : LedgerStats :=
  let state s f := eqb (fd_state f) s in
  mkStats (vsize (Targets l)) (vsize (lg_baselines l))
    (sum_by (fun entry => vsize (snd entry)) (lg_windows l))
    (vsize (foldl (fun s entry => sinsert (snd (fst entry)) s) [] (lg_windows l)))
    (vsize (lg_findings l)) (count_findings is_live l) (count_findings (state St_Resolved) l)
    (count_findings (state St_Superseded) l) (count_findings (state St_Suppressed) l)
    (count_findings (state St_Acknowledged) l) (vsize (lg_groups l))
    (vsize (lg_global_timeline l)) (lg_suppressions_active l) (lg_suppressions_expired l).

(** *** The content digest *)

Definition hash_baseline_object (hasher : Sha256) (object : string * IntentObject) : Sha256 :=
  let hasher := UpdateLengthPrefixed hasher (fst object) in
  let hasher := UpdateU64 hasher (vsize (io_fields (snd object))) in
  foldl (fun hasher field =>
    HashInto (UpdateLengthPrefixed hasher (FieldPath_ToText (fst field))) (if_intended (snd field)))
    hasher (io_fields (snd object)).

Definition hash_baseline (hasher : Sha256) (entry : string * IntentBaseline) : Sha256 :=
  let b := snd entry in
  let hasher := UpdateLengthPrefixed hasher (fst entry) in
  let hasher := UpdateU64 (UpdateU64 hasher (base_generation b)) (base_epoch b) in
  let hasher := Update hasher (base_content_digest b) in
  foldl hash_baseline_object (UpdateU64 hasher (vsize (base_objects b))) (base_objects b).

Definition hash_window (hasher : Sha256) (entry : SourceWindowKey * list RetainedObservation)
    : Sha256 :=
  let hasher := UpdateLengthPrefixed hasher (fst (fst entry)) in
  let hasher := UpdateLengthPrefixed hasher (snd (fst entry)) in
  foldl (fun hasher r =>
    let hasher := UpdateLengthPrefixed hasher (snap_id (ro_snapshot r)) in
    UpdateByte (UpdateByte hasher (flag (ro_recovered r))) (code (fv_state (ro_freshness r))))
    (UpdateU64 hasher (vsize (snd entry))) (snd entry).

Definition hash_finding (hasher : Sha256) (entry : Digest * Finding) : Sha256 :=
  let f := snd entry in
  let hasher := Update hasher (fst entry) in
  let hasher := UpdateByte (UpdateByte (UpdateByte hasher (code (fd_state f))) (code (fd_klass f)))
                  (code (fd_severity f)) in
  let hasher := UpdateU64 (UpdateU64 (UpdateU64 hasher (fd_baseline_generation f))
                  (fd_observation_count f)) (fd_reopen_count f) in
  let hasher := UpdateU64 (UpdateU64 hasher (to_u64 (fd_first_seen f))) (to_u64 (fd_last_seen f)) in
  let hasher := UpdateLengthPrefixed hasher (FieldPath_ToText (fi_path (fd_identity f))) in
  if Digest_is_set (fd_group f) then Update hasher (fd_group f) else hasher.

Definition hash_group (hasher : Sha256) (entry : Digest * RootCauseGroup) : Sha256 :=
  let hasher := Update hasher (fst entry) in
  let hasher := UpdateLengthPrefixed hasher (gr_target (snd entry)) in
  foldl Update (UpdateU64 hasher (vsize (gr_members (snd entry)))) (gr_members (snd entry)).

Definition ContentDigest (l : FindingLedger) : Digest :=
  let hasher := UpdateTag Sha256_init kContentTag in
  let hasher := UpdateU64 hasher (lg_revision l) in
  let hasher := foldl hash_baseline (UpdateU64 hasher (vsize (lg_baselines l))) (lg_baselines l) in
  let hasher := foldl hash_window (UpdateU64 hasher (vsize (lg_windows l))) (lg_windows l) in
  let hasher := foldl hash_finding (UpdateU64 hasher (vsize (lg_findings l))) (lg_findings l) in
  let hasher := foldl hash_group (UpdateU64 hasher (vsize (lg_groups l))) (lg_groups l) in
  Final (UpdateU64 hasher (vsize (lg_global_timeline l))).

(** ** Recovery-only mutation *)

Definition RestoreBaseline (b : IntentBaseline) (l : FindingLedger) : Status * FindingLedger :=
  if (max_targets (lg_limits l) <=? vsize (lg_baselines l)) && negb (mmem (base_target b) (lg_baselines l))
  then (Status_Limit RC_LimitObjectsExceeded "restored baseline count exceeds the envelope", l)
  else (Status_Ok, l <| lg_baselines ::= minsert (base_target b) b |>).

Definition RestoreObservation (r : RetainedObservation) (l : FindingLedger) : Status * FindingLedger :=
  let key := (snap_target (ro_snapshot r), snap_source (ro_snapshot r)) in
  let window := mget [] key (lg_windows l) in
  let window :=
    if max_retained_snapshots_per_source (lg_limits l) <=? vsize window then tl window else window in
  let r := mkRetained (ro_snapshot r)
    (mkFreshnessVerdict FS_RecoveredNotFresh RC_EvidenceRecoveredNotFresh 0 0 false false) true in
  (Status_Ok, l <| lg_windows ::= minsert key (window ++ [r])%list |>).

Definition RestoreFinding (f : Finding) (l : FindingLedger) : Status * FindingLedger :=
  if (max_findings (lg_limits l) <=? vsize (lg_findings l)) && negb (mmem (fd_id f) (lg_findings l))
  then (Status_Limit RC_LimitFindingsExceeded "restored finding count exceeds the envelope", l)
  else if negb (Digest_is_set (fd_id f))
  then (Status_Rejected RC_LedgerDecodeFailed "restored finding has no identity", l)
  else
    let already_recovered := eqb (fd_evidence_freshness f) FS_RecoveredNotFresh in
    let f := f <| fd_evidence_freshness := FS_RecoveredNotFresh |> in
    let '(f, l) :=
      if IsLiveState (fd_state f) && negb already_recovered then
        let l := l <| lg_timeline_sequence ::= bump |> in
        let event :=
          (finding_event TE_EvidenceRecovered f (fd_last_evaluated f) RC_EvidenceRecoveredNotFresh
            "evidence recovered from durable state is not current")
            <| tl_sequence := lg_timeline_sequence l |> in
        (push_event event f, l)
      else (f, l) in
    let f := f <| fd_timeline ::= keep_last (max_timeline_entries_per_finding (lg_limits l)) |> in
    let l := if has_suppression f then l <| lg_suppressions_active ::= bump |> else l in
    (Status_Ok, l <| lg_findings ::= minsert (fd_id f) f |>).

Definition RestoreGroup (g : RootCauseGroup) (l : FindingLedger) : Status * FindingLedger :=
  if (max_groups (lg_limits l) <=? vsize (lg_groups l)) && negb (mmem (gr_id g) (lg_groups l))
  then (Status_Limit RC_LimitObjectsExceeded "restored group count exceeds the envelope", l)
  else (Status_Ok, l <| lg_groups ::= minsert (gr_id g) g |>).

Definition RestoreTimeline (entry : TimelineEntry) (l : FindingLedger) : Status * FindingLedger :=
  (Status_Ok, TrimTimelineIfNeeded (l <| lg_global_timeline ::= fun t => (t ++ [entry])%list |>)).

Definition RestoreRevision (revision : Z) (l : FindingLedger) : Status * FindingLedger :=
  (Status_Ok, l <| lg_revision := revision |>).

Definition RestoreSuppressionSequence (sequence : Z) (l : FindingLedger) : Status * FindingLedger :=
  (Status_Ok, l <| lg_timeline_sequence := sequence |>).
