(* ===== verification/LedgerApply.v ===== *)
(** * Applying an evaluation to the ledger

    ledger.cpp: [ApplyEvaluation] and [RefreshGroups].

    Phase one (fencing and the bound on new findings) is [fence] and
    [count_new]; phase two is [apply_target] for every accepted target, in
    order: the drafts ([create_finding], [refresh_finding]), the findings that
    were not drafted ([settle_finding]), the groups ([RefreshGroups]). *)

From Stdlib Require Import ZArith Lia List Bool String.
From stdpp Require Import base tactics list strings.
From S2P Require Import Prelude Containers Text Hash Status Time Identity Double Value Drift Intent.
From S2P Require Import Observation Freshness Policy Comparison Finding Ledger.
#[local] Open Scope string_scope.
#[local] Open Scope Z_scope.
#[local] Arguments String.append : simpl nomatch.

(** ** Phase one *)

Definition draft_identity (d : FindingDraft) : FindingIdentity :=
  mkIdentity (dr_target d) (dr_object d) (dr_path d) (dr_klass d) (dr_baseline_generation d)
    (dr_qualifier d).

Definition draft_id (d : FindingDraft) : Digest := ComputeId (draft_identity d).

(** The committed baseline is the one the target was evaluated against. *)
Definition fence_accepts (l : FindingLedger) (e : TargetEvaluation) : bool :=
  match FindBaseline l (te_target e) with
  | None => negb (te_has_baseline e)
  | Some current => te_has_baseline e && (base_generation current =? te_baseline_generation e)
  end.

Definition count_new (l : FindingLedger) (e : TargetEvaluation) : Z :=
  vcount (fun d => negb (mmem (draft_id d) (lg_findings l))) (te_drafts e).

Definition new_findings (l : FindingLedger) (targets : list TargetEvaluation) : Z :=
  sum_by (count_new l) (List.filter (fence_accepts l) targets).

(** ** Phase two: drafts *)

Section Apply.
Variable outcome : EvaluationOutcome.
Variable policy : ObservatoryPolicy.
Variable now : NdoTime.

(** The drafts by identity; of two with one identity the first counts. *)
Definition draft_map (drafts : list FindingDraft) : omap Digest FindingDraft :=
  foldl (fun m d => memplace (draft_id d) d m) [] drafts.

(** The members copied from a draft, first time and every time. *)
Definition copy_draft (e : TargetEvaluation) (d : FindingDraft) (f : Finding) : Finding :=
  f <| fd_klass := dr_klass d |> <| fd_raw_class := dr_raw_class d |>
    <| fd_severity := dr_severity d |> <| fd_reason := dr_reason d |>
    <| fd_baseline_generation := dr_baseline_generation d |>
    <| fd_baseline_epoch := dr_baseline_epoch d |>
    <| fd_baseline_authority := dr_baseline_authority d |>
    <| fd_policy := out_policy outcome |> <| fd_policy_digest := out_policy_digest outcome |>
    <| fd_has_intended := dr_has_intended d |> <| fd_intended := dr_intended d |>
    <| fd_has_observed := dr_has_observed d |> <| fd_observed := dr_observed d |>
    <| fd_evidence := dr_evidence d |> <| fd_evidence_freshness := te_best_freshness e |>
    <| fd_compliance_relevant := dr_compliance_relevant d |>
    <| fd_last_seen := now |> <| fd_last_evaluated := now |>.

(** A default-constructed finding with its identity. *)
Definition blank_finding (id : Digest) (identity : FindingIdentity) : Finding :=
  mkFinding id identity DC_None DC_None Sev_Medium St_Open RC_None 0 0 IA_Unknown "" zero_digest
    false V_Null false V_Null [] FS_Unknown zero_digest RK_None 0 0 0 0 0 0 0 None SO_None "" "" None
    "" 0 "" "" true [].

Definition LedgerAndReport : Type := (FindingLedger * LedgerApplyReport)%type.

Definition initial_finding (e : TargetEvaluation) (id : Digest) (d : FindingDraft) : Finding :=
  (copy_draft e d (blank_finding id (draft_identity d)))
    <| fd_observation_count := 1 |> <| fd_first_seen := now |>.

(** A new finding is opened, or suppressed at once by a policy rule. *)
Definition open_or_suppress (d : FindingDraft) (f : Finding) (report : LedgerApplyReport)
    : Finding * TimelineEntry * LedgerApplyReport :=
  match FindSuppression policy (dr_target d) (dr_object d) (dr_path d) (dr_klass d)
          (dr_severity d) now with
  | Some rule =>
      let f := f <| fd_state := St_Suppressed |> <| fd_suppression_origin := SO_Policy |>
        <| fd_suppression := Some (sup_id rule) |> <| fd_suppressed_by := sup_author rule |>
        <| fd_suppression_reason := sup_reason rule |>
        <| fd_suppression_expires_at := sup_expires_at rule |> in
      (f, finding_event TE_Suppressed f now RC_SuppressedByPolicy
            (BoundedDetail ("suppressed by policy rule " +:+ sup_id rule +:+ ": " +:+ sup_reason rule)),
       report <| rp_suppressed ::= bump |>)
  | None =>
      (f, finding_event TE_Created f now RC_FindingCreated
            (BoundedDetail ("finding created: " +:+ ToText_ReasonCode (dr_reason d))), report)
  end.

Definition create_finding (e : TargetEvaluation) (id : Digest) (d : FindingDraft)
    (s : LedgerAndReport) : LedgerAndReport :=
  let '(l, report) := s in
  let '(f, event, report) := open_or_suppress d (initial_finding e id d) report in
  let event := event <| tl_evidence_digest := front_digest f |> in
  let f := RecomputeSummary (lg_limits l) (push_event event f) in
  let l := (AppendTimeline event l) <| lg_findings ::= memplace id f |> in
  (l, report <| rp_created ::= bump |> <| rp_created_ids ::= fun ids => (ids ++ [id])%list |>).

(** The policy that suppressed a finding is asked again. *)
Definition recheck_suppression (f : Finding) (l : FindingLedger) : Finding * FindingLedger :=
  if has_suppression f && eqb (fd_suppression_origin f) SO_Policy then
    match FindSuppression policy (fi_target (fd_identity f)) (fi_object (fd_identity f))
            (fi_path (fd_identity f)) (fd_klass f) (fd_severity f) now with
    | Some _ => (f, l)
    | None =>
        let f := clear_suppression f in
        let f := f <| fd_state := resumed_state f |> in
        let event := finding_event TE_SuppressionExpired f now RC_SuppressionExpired
          "the governing suppression no longer applies" in
        (push_event event f, AppendTimeline event l)
    end
  else (f, l).

Definition is_closed (s : FindingState) : bool :=
  match s with St_Resolved | St_Superseded | St_Retired => true | _ => false end.

Definition material_change (before after : Finding) : bool :=
  is_closed (fd_state before) ||
  negb (eqb (fd_severity after) (fd_severity before)) ||
  negb (eqb (fd_evidence_freshness after) (fd_evidence_freshness before)) ||
  negb (Bool.eqb (fd_has_observed after) (fd_has_observed before)) ||
  negb (Value_eq (fd_observed after) (fd_observed before)).

(** The reopening or update event of a finding drafted again. *)
Definition note_change (before after : Finding) (s : LedgerAndReport) : Finding * LedgerAndReport :=
  let '(l, report) := s in
  if is_closed (fd_state before) then
    let f := after <| fd_state := St_Open |> <| fd_resolved_at := 0 |>
      <| fd_resolution_confirmations := 0 |> <| fd_reopen_count ::= bump |> in
    let event := (finding_event TE_Reopened f now RC_FindingReopened
        (BoundedDetail "drift is present again under the current baseline"))
      <| tl_evidence_digest := front_digest f |> in
    (push_event event f, (AppendTimeline event l, report <| rp_reopened ::= bump |>))
  else if material_change before after then
    let event := (finding_event TE_Updated after now RC_FindingUpdated
        (BoundedDetail ("evidence changed: " +:+ ToText_ReasonCode (fd_reason after))))
      <| tl_evidence_digest := front_digest after |> in
    (push_event event after, (AppendTimeline event l, report))
  else (after, (l, report)).

Definition refresh_finding (e : TargetEvaluation) (id : Digest) (d : FindingDraft) (existing : Finding)
    (s : LedgerAndReport) : LedgerAndReport :=
  let after := (copy_draft e d existing) <| fd_observation_count ::= bump |> in
  let '(f, (l, report)) := note_change existing after s in
  let l := l <| lg_resolution_streak ::= minsert id 0 |> in
  let '(f, l) := recheck_suppression f l in
  let f := RecomputeSummary (lg_limits l) f in
  (l <| lg_findings ::= minsert id f |>, report <| rp_updated ::= bump |>).

Definition apply_draft (e : TargetEvaluation) (s : LedgerAndReport) (entry : Digest * FindingDraft)
    : LedgerAndReport :=
  match mfind (fst entry) (lg_findings (fst s)) with
  | None => create_finding e (fst entry) (snd entry) s
  | Some existing => refresh_finding e (fst entry) (snd entry) existing s
  end.

(** ** Phase two: findings that were not drafted *)

Definition live_undrafted (l : FindingLedger) (e : TargetEvaluation)
    (drafts : omap Digest FindingDraft) : list Digest :=
  map fst (List.filter (fun entry =>
    eqb (fi_target (fd_identity (snd entry))) (te_target e) &&
    IsLiveState (fd_state (snd entry)) && negb (mmem (fst entry) drafts)) (lg_findings l)).

(** A drafted finding is about the same location under the same baseline. *)
Definition explains_again (l : FindingLedger) (f : Finding) (entry : Digest * FindingDraft) : bool :=
  match mfind (fst entry) (lg_findings l) with
  | None => false
  | Some other =>
      eqb (fi_object (fd_identity other)) (fi_object (fd_identity f)) &&
      eqb (fi_path (fd_identity other)) (fi_path (fd_identity f)) &&
      (fd_baseline_generation other =? fd_baseline_generation f)
  end.

Definition required_confirmations : Z :=
  if out_resolution_confirmations outcome =? 0 then 1 else out_resolution_confirmations outcome.

Definition SettleState : Type := (FindingLedger * LedgerApplyReport * oset Digest)%type.

Definition reclassify_finding (id : Digest) (f : Finding) (s : SettleState) : SettleState :=
  let '(l, report, drop) := s in
  let f := f <| fd_state := St_Superseded |> <| fd_reason := RC_FindingReclassified |>
    <| fd_last_evaluated := now |> in
  let '(f, drop) := leave_group f drop in
  let event := finding_event TE_Reclassified f now RC_FindingReclassified
    "the same location is now explained by a differently classified finding" in
  ((AppendTimeline event l) <| lg_findings ::= minsert id (push_event event f) |>,
   report <| rp_superseded ::= bump |>, drop).

Definition resolve_finding (id : Digest) (f : Finding) (streak : Z) (s : SettleState) : SettleState :=
  let '(l, report, drop) := s in
  let f := f <| fd_state := St_Resolved |> <| fd_reason := RC_FindingResolved |>
    <| fd_resolved_at := now |> <| fd_last_evaluated := now |> in
  let '(f, drop) := leave_group f drop in
  let f := RecomputeSummary (lg_limits l) f in
  let event := finding_event TE_Resolved f now RC_FindingResolved
    (BoundedDetail ("fresh evidence agreed with intent for " +:+ to_string_unsigned streak +:+
       " evaluation(s)")) in
  ((AppendTimeline event l) <| lg_findings ::= minsert id (push_event event f) |>,
   report <| rp_resolved ::= bump |> <| rp_resolved_ids ::= fun ids => (ids ++ [id])%list |>, drop).

Definition settle_finding (e : TargetEvaluation) (drafts : omap Digest FindingDraft)
    (s : SettleState) (id : Digest) : SettleState :=
  let '(l, report, drop) := s in
  match mfind id (lg_findings l) with
  | None => s
  | Some f =>
      if negb (te_compliance_decidable e) then (l, report <| rp_unchanged ::= bump |>, drop)
      else if existsb (explains_again l f) drafts then reclassify_finding id f s
      else
        let streak := wrap32 (mget 0 id (lg_resolution_streak l) + 1) in
        let l := l <| lg_resolution_streak ::= minsert id streak |> in
        let f := f <| fd_resolution_confirmations := streak |> in
        if required_confirmations <=? streak then resolve_finding id f streak (l, report, drop)
        else (l <| lg_findings ::= minsert id f |>, report <| rp_unchanged ::= bump |>, drop)
  end.

(** ** Root-cause groups *)

Definition bucket_key : Type := (Z * RootCauseKind)%type.

(** The live findings of a target by baseline generation and cause, each bucket
    in the order of the identities. *)
Definition group_buckets (l : FindingLedger) (target : string) : omap bucket_key (list Finding) :=
  foldl (fun buckets entry =>
    let f := snd entry in
    if eqb (fi_target (fd_identity f)) target && IsLiveState (fd_state f) then
      let key := (fd_baseline_generation f, CauseFor (fd_klass f)) in
      minsert key (mget [] key buckets ++ [f])%list buckets
    else buckets) [] (lg_findings l).

Definition group_objects (members : list Finding) : list string :=
  dedup eqb (sort_by ltb (map (fun f => fi_object (fd_identity f)) members)).

Definition group_summary (cause : RootCauseKind) (members : list Finding) (target : string) : string :=
  BoundedDetail (ToText_RootCauseKind cause +:+ " explains " +:+
    to_string_unsigned (vsize members) +:+ " finding(s) on target " +:+ target).

Record GroupScan := mkGroupScan {
  gs_groups : omap Digest RootCauseGroup;
  gs_report : LedgerApplyReport;
  gs_produced : oset Digest;
  gs_assignment : omap Digest Digest
}.

#[export] Instance eta_GroupScan : Eta GroupScan := fun s =>
  mkGroupScan (gs_groups s) (gs_report s) (gs_produced s) (gs_assignment s).

(** The group of one bucket, created or brought up to date. *)
Definition produce_group (limits : RuntimeLimits) (target : string) (key : bucket_key)
    (bucket : list Finding) (s : GroupScan) : Status * GroupScan :=
  let cause := snd key in
  if eqb cause RK_None then (Status_Ok, s)
  else if negb (CauseFormsGroup cause (vsize bucket)) then (Status_Ok, s)
  else
    let members := sort_by (fun a b => ltb (fd_id a) (fd_id b)) bucket in
    match members with
    | [] => (Status_Ok, s)
    | front :: _ =>
        let discriminator := GroupDiscriminator members in
        let generation := fd_baseline_generation front in
        let id := GroupIdentity target generation cause discriminator in
        let s := s <| gs_produced ::= sinsert id |> in
        let fill g := g <| gr_members := map fd_id members |> <| gr_objects := group_objects members |>
          <| gr_summary := group_summary cause members target |> in
        let assign := foldl (fun m f => minsert (fd_id f) id m) (gs_assignment s) members in
        match mfind id (gs_groups s) with
        | None =>
            if max_groups limits <=? vsize (gs_groups s)
            then (Status_Limit RC_LimitObjectsExceeded "root-cause group count exceeds the envelope", s)
            else
              let g := fill (mkGroup id target generation (fd_baseline_epoch front) cause discriminator
                               [] [] "" 1 now now) in
              (Status_Ok, s <| gs_groups ::= memplace id g |> <| gs_assignment := assign |>
                            <| gs_report ::= fun r => r <| rp_groups_touched ::= bump |> |>)
        | Some g =>
            let g := fill (g <| gr_last_seen := now |> <| gr_observation_count ::= bump |>) in
            (Status_Ok, s <| gs_groups ::= minsert id g |> <| gs_assignment := assign |>
                          <| gs_report ::= fun r => r <| rp_groups_touched ::= bump |> |>)
        end
    end.

Fixpoint produce_groups (limits : RuntimeLimits) (target : string)
    (buckets : omap bucket_key (list Finding)) (s : GroupScan) : Status * GroupScan :=
  match buckets with
  | [] => (Status_Ok, s)
  | (key, bucket) :: rest =>
      let '(status, s) := produce_group limits target key bucket s in
      if negb (status_ok status) then (status, s) else produce_groups limits target rest s
  end.

Definition assign_entry (target : string) (assignment : omap Digest Digest) (id : Digest) (f : Finding)
    (l : FindingLedger) : Finding * FindingLedger :=
  if negb (eqb (fi_target (fd_identity f)) target) then (f, l)
  else if negb (IsLiveState (fd_state f)) then (f, l)
  else
    match mfind (fd_id f) assignment with
    | Some group =>
        if eqb (fd_group f) group then (f, l)
        else
          let f := f <| fd_group := group |> <| fd_group_cause := CauseFor (fd_klass f) |> in
          let event := finding_event TE_Grouped f now RC_None
            (BoundedDetail ("attributed to root-cause group " +:+ Digest_ToShortHex group)) in
          (push_event event f, AppendTimeline event l)
    | None =>
        let f := if Digest_is_set (fd_group f) then f <| fd_group := zero_digest |> else f in
        (f <| fd_group_cause := CauseFor (fd_klass f) |>, l)
    end.

Definition RefreshGroups (target : string) (report : LedgerApplyReport) (l : FindingLedger)
    : Status * LedgerApplyReport * FindingLedger :=
  let '(status, scan) :=
    produce_groups (lg_limits l) target (group_buckets l target) (mkGroupScan (lg_groups l) report [] []) in
  let l := l <| lg_groups := gs_groups scan |> in
  if negb (status_ok status) then (status, gs_report scan, l)
  else
    let '(findings, l') := mfor (assign_entry target (gs_assignment scan)) (lg_findings l) l in
    let l' := l' <| lg_findings := findings |> in
    (Status_Ok, gs_report scan,
     l' <| lg_groups ::= List.filter (fun entry =>
             negb (eqb (gr_target (snd entry)) target && negb (smem (fst entry) (gs_produced scan)))) |>).

(** ** One target, then all of them *)

Definition apply_target (e : TargetEvaluation) (s : LedgerAndReport) : Status * LedgerAndReport :=
  let drafts := draft_map (te_drafts e) in
  let '(l, report) := foldl (apply_draft e) s drafts in
  let '(l, report, drop) :=
    foldl (settle_finding e drafts) (l, report, []) (live_undrafted l e drafts) in
  let '(status, report, l) := RefreshGroups (te_target e) report l in
  if negb (status_ok status) then (status, (l, report))
  else (Status_Ok, (erase_groups drop l, report)).

Fixpoint apply_targets (targets : list TargetEvaluation) (s : LedgerAndReport)
    : Status * LedgerAndReport :=
  match targets with
  | [] => (Status_Ok, s)
  | e :: rest =>
      let '(status, s) := apply_target e s in
      if negb (status_ok status) then (status, s) else apply_targets rest s
  end.

Definition ApplyEvaluation (l : FindingLedger) : Status * LedgerApplyReport * FindingLedger :=
  let accepted := List.filter (fence_accepts l) (out_targets outcome) in
  let report := empty_apply_report
    <| rp_fenced_targets := vcount (fun e => negb (fence_accepts l e)) (out_targets outcome) |> in
  if max_findings (lg_limits l) <? vsize (lg_findings l) + new_findings l (out_targets outcome)
  then (Status_Limit RC_LimitFindingsExceeded
          "applying this evaluation would exceed the finding envelope", report, l)
  else
    let '(status, (l, report)) := apply_targets accepted (l, report) in
    if negb (status_ok status) then (status, report, l)
    else
      let l := snd (ExpireSuppressions now l) in
      (Status_Ok, report, TrimTimelineIfNeeded (bump_revision l)).
End Apply.
