(* ===== verification/LedgerFacts.v ===== *)
(** * The ledger's invariants

    What every mutator of the ledger preserves and how the ledger evolves:
    [ledger_ok] is the well-formedness of a ledger, [evolves] relates a ledger
    to a later one (findings are never lost, baselines only advance, the global
    timeline is only appended to and trimmed at its front), and [windows_ordered]
    is the order of the windows, which every mutator but the recovery-only
    [RestoreObservation] keeps.  LedgerProps.v puts the mutators in sequences. *)

From Stdlib Require Import ZArith Lia List Bool Sorting.Sorted String.
From stdpp Require Import base tactics list strings.
From S2P Require Import Prelude Containers Text Hash Status Time Identity Double Value Drift Intent.
From S2P Require Import Observation Freshness Policy Comparison Finding Ledger LedgerApply.
#[local] Open Scope string_scope.
#[local] Open Scope Z_scope.
#[local] Arguments String.append : simpl nomatch.

(** ** Evolution *)

(** What a finding never loses. *)
Definition same_record (f f' : Finding) : Prop :=
  fd_id f' = fd_id f /\ fd_identity f' = fd_identity f /\ fd_first_seen f' = fd_first_seen f.

#[export] Instance same_record_preorder : PreOrder same_record.
Proof. split; [by intros f | intros a b c (? & ? & ?) (? & ? & ?); repeat split; congruence]. Qed.

(** A baseline is replaced only by one of a later generation. *)
Definition baseline_advances (b b' : IntentBaseline) : Prop :=
  base_target b' = base_target b /\ base_epoch b <= base_epoch b' /\
  base_generation b <= base_generation b' /\ (base_generation b' = base_generation b -> b' = b).

#[export] Instance baseline_advances_preorder : PreOrder baseline_advances.
Proof.
  split.
  - intros b. repeat split; lia.
  - intros a b c (H1 & H2 & H3 & H4) (H5 & H6 & H7 & H8). repeat split; [congruence|lia|lia|].
    intros E. rewrite H8 by lia. apply H4. lia.
Qed.

(** The sequence numbers [n] events receive after [sequence]. *)
Fixpoint numbered (sequence : Z) (events : list TimelineEntry) : Prop :=
  match events with
  | [] => True
  | e :: rest => tl_sequence e = bump sequence /\ numbered (bump sequence) rest
  end.

Definition timeline_grows (l l' : FindingLedger) : Prop :=
  exists events dropped,
    numbered (lg_timeline_sequence l) events /\
    (lg_global_timeline l ++ events)%list = (dropped ++ lg_global_timeline l')%list /\
    lg_timeline_sequence l' = Nat.iter (length events) bump (lg_timeline_sequence l).

Lemma numbered_app sequence a b :
  numbered sequence (a ++ b) <->
  numbered sequence a /\ numbered (Nat.iter (length a) bump sequence) b.
Proof.
  revert sequence. induction a as [|e a IH]; intros sequence; cbn [app numbered length].
  - cbn. tauto.
  - rewrite IH, Nat.iter_succ_r. tauto.
Qed.

#[export] Instance timeline_grows_preorder : PreOrder timeline_grows.
Proof.
  split.
  - intros l. exists [], []. cbn. by rewrite app_nil_r.
  - intros a b c (e1 & d1 & N1 & T1 & S1) (e2 & d2 & N2 & T2 & S2).
    exists (e1 ++ e2)%list, (d1 ++ d2)%list. split; [|split].
    + apply numbered_app. by rewrite <- S1.
    + by rewrite app_assoc, T1, <- !app_assoc, T2.
    + rewrite length_app, Nat.add_comm, Nat.iter_add. by rewrite S2, S1.
Qed.

Record evolves (l l' : FindingLedger) : Prop := {
  ev_limits : lg_limits l' = lg_limits l;
  ev_timeline : timeline_grows l l';
  ev_findings : mkept same_record (lg_findings l) (lg_findings l');
  ev_baselines : mkept baseline_advances (lg_baselines l) (lg_baselines l')
}.

#[export] Instance evolves_preorder : PreOrder evolves.
Proof.
  split.
  - intros l. constructor; [done|reflexivity|by apply mkept_refl, _..].
  - intros a b c [] []. constructor; [congruence|by etransitivity|by eapply mkept_trans; eauto; apply _..].
Qed.

(** A change to the other members. *)
Lemma evolves_same l l' :
  lg_limits l' = lg_limits l -> lg_timeline_sequence l' = lg_timeline_sequence l ->
  lg_global_timeline l' = lg_global_timeline l -> lg_findings l' = lg_findings l ->
  lg_baselines l' = lg_baselines l -> evolves l l'.
Proof.
  intros E1 E2 E3 E4 E5. constructor; [done| |rewrite E4; by apply mkept_refl, _|
    rewrite E5; by apply mkept_refl, _].
  exists [], []. by rewrite E2, E3, app_nil_r.
Qed.

Lemma evolves_with_findings l l' findings :
  evolves l l' -> mkept same_record (lg_findings l) findings ->
  evolves l (l' <| lg_findings := findings |>).
Proof. intros [H1 H2 H3 H4] Hf. by constructor. Qed.

Lemma evolves_put id f l l' :
  evolves l l' -> (forall old, mfind id (lg_findings l') = Some old -> same_record old f) ->
  evolves l (l' <| lg_findings ::= minsert id f |>).
Proof.
  intros H Hf. etransitivity; [exact H|]. apply (evolves_with_findings l' l'); [reflexivity|].
  apply mkept_insert; [apply _|done].
Qed.

Lemma AppendTimeline_evolves e l : evolves l (AppendTimeline e l).
Proof.
  constructor; [done| |by apply mkept_refl, _..].
  exists [e <| tl_sequence := bump (lg_timeline_sequence l) |>], []. done.
Qed.

Lemma TrimTimelineIfNeeded_evolves l : evolves l (TrimTimelineIfNeeded l).
Proof.
  constructor; [done| |by apply mkept_refl, _..].
  destruct (keep_last_suffix (max_global_timeline_entries (lg_limits l)) (lg_global_timeline l))
    as [pre Hpre].
  exists [], pre. by rewrite app_nil_r.
Qed.

Lemma erase_groups_evolves drop l : evolves l (erase_groups drop l).
Proof. by apply evolves_same. Qed.

Lemma bump_revision_evolves l : evolves l (bump_revision l).
Proof. by apply evolves_same. Qed.

Create HintDb ledger.
#[export] Hint Resolve AppendTimeline_evolves TrimTimelineIfNeeded_evolves erase_groups_evolves
  bump_revision_evolves : ledger.

(** Composes [evolves] steps from the outside in. *)
Ltac evolve :=
  repeat first
    [ reflexivity
    | match goal with
      | |- evolves ?l ?l => reflexivity
      | |- evolves _ (AppendTimeline _ _) => etransitivity; [|apply AppendTimeline_evolves]
      | |- evolves _ (TrimTimelineIfNeeded _) => etransitivity; [|apply TrimTimelineIfNeeded_evolves]
      | |- evolves _ (erase_groups _ _) => etransitivity; [|apply erase_groups_evolves]
      | |- evolves _ (bump_revision _) => etransitivity; [|apply bump_revision_evolves]
      end ].

Lemma RecomputeSummary_same limits f : same_record f (RecomputeSummary limits f).
Proof. done. Qed.

Lemma leave_group_same f drop : same_record f (leave_group f drop).1.
Proof. unfold leave_group. by destruct (Digest_is_set _). Qed.

(** ** Well-formedness *)

Definition finding_keyed (id : Digest) (f : Finding) : Prop :=
  fd_id f = id /\ ComputeId (fd_identity f) = id.

Definition window_ok (key : SourceWindowKey) (window : list RetainedObservation) : Prop :=
  Forall (fun r => (snap_target (ro_snapshot r), snap_source (ro_snapshot r)) = key) window.

(** Oldest first.  Admitting observations keeps windows ordered; a recovery
    restores them in the order it is given, so this is not part of [ledger_ok]. *)
Definition window_ordered (window : list RetainedObservation) : Prop :=
  StronglySorted (fun a b => retained_less b a = false) window.
Definition windows_ordered (l : FindingLedger) : Prop := mall (fun _ w => window_ordered w) (lg_windows l).

Record ledger_ok (l : FindingLedger) : Prop := {
  ok_baselines_sorted : msorted (lg_baselines l);
  ok_baselines : mall (fun target b => base_target b = target) (lg_baselines l);
  ok_baselines_size : vsize (lg_baselines l) <= max_targets (lg_limits l);
  ok_windows_sorted : msorted (lg_windows l);
  ok_windows : mall window_ok (lg_windows l);
  ok_windows_size : mall (fun _ w => vsize w <= max_retained_snapshots_per_source (lg_limits l))
                      (lg_windows l);
  ok_findings_sorted : msorted (lg_findings l);
  ok_findings : mall finding_keyed (lg_findings l);
  ok_findings_size : vsize (lg_findings l) <= max_findings (lg_limits l);
  ok_groups_sorted : msorted (lg_groups l);
  ok_groups : mall (fun id g => gr_id g = id) (lg_groups l);
  ok_groups_size : vsize (lg_groups l) <= max_groups (lg_limits l);
  ok_streaks_sorted : msorted (lg_resolution_streak l)
}.

Lemma same_record_keyed id f f' : same_record f f' -> finding_keyed id f -> finding_keyed id f'.
Proof. intros (H1 & H2 & _) [<- H3]. split; congruence. Qed.

Lemma vsize_minsert {K V} `{Ordered K} (k : K) (v : V) m : msorted m ->
  vsize (minsert k v m) = if mmem k m then vsize m else vsize m + 1.
Proof. intros Hs. unfold vsize. rewrite minsert_size by done. destruct (mmem k m); lia. Qed.

Lemma mmem_true {K V} `{Ordered K} (k : K) (m : omap K V) : mmem k m = true <-> is_Some (mfind k m).
Proof. unfold mmem. destruct (mfind k m); [by eauto|]. split; [done|by intros []]. Qed.

(** Replacing a finding by a later version of itself. *)
Lemma ledger_ok_put id f old l : ledger_ok l ->
  mfind id (lg_findings l) = Some old -> same_record old f ->
  ledger_ok (l <| lg_findings ::= minsert id f |>).
Proof.
  intros [] Hold Hs. constructor; cbn; auto with ndo.
  - apply mall_insert; [|done]. eapply same_record_keyed; [exact Hs|]. by apply ok_findings0.
  - rewrite vsize_minsert by done. by rewrite (proj2 (mmem_true _ _)) by eauto.
Qed.

Lemma ledger_ok_findings l findings : ledger_ok l -> msorted findings -> mall finding_keyed findings ->
  vsize findings <= max_findings (lg_limits l) -> ledger_ok (l <| lg_findings := findings |>).
Proof. intros []. by constructor. Qed.

(** A change to the members [ledger_ok] does not mention. *)
Lemma ledger_ok_same l l' : ledger_ok l ->
  lg_limits l' = lg_limits l -> lg_baselines l' = lg_baselines l -> lg_windows l' = lg_windows l ->
  lg_findings l' = lg_findings l -> lg_groups l' = lg_groups l ->
  lg_resolution_streak l' = lg_resolution_streak l -> ledger_ok l'.
Proof. intros [] E1 E2 E3 E4 E5 E6. constructor; rewrite ?E1, ?E2, ?E3, ?E4, ?E5, ?E6; done. Qed.

Lemma AppendTimeline_ok e l : ledger_ok l -> ledger_ok (AppendTimeline e l).
Proof. intros H. by apply (ledger_ok_same _ _ H). Qed.
Lemma TrimTimelineIfNeeded_ok l : ledger_ok l -> ledger_ok (TrimTimelineIfNeeded l).
Proof. intros H. by apply (ledger_ok_same _ _ H). Qed.
Lemma bump_revision_ok l : ledger_ok l -> ledger_ok (bump_revision l).
Proof. intros H. by apply (ledger_ok_same _ _ H). Qed.

Lemma foldl_merase_ok {V} (P : Digest -> V -> Prop) ids (m : omap Digest V) :
  msorted m -> mall P m ->
  let m' := foldl (fun m id => merase id m) m ids in
  msorted m' /\ mall P m' /\ vsize m' <= vsize m.
Proof.
  revert m. induction ids as [|id ids IH]; intros m Hs Hm; cbn; [by split_and!; try lia|].
  destruct (IH (merase id m)) as (? & ? & ?); auto with ndo. split_and!; [done..|].
  pose proof (merase_size id m). unfold vsize in *. lia.
Qed.

Lemma erase_groups_ok drop l : ledger_ok l -> ledger_ok (erase_groups drop l).
Proof.
  intros []. destruct (foldl_merase_ok _ (mkeys drop) (lg_groups l) ok_groups_sorted0 ok_groups0)
    as (? & ? & ?). constructor; cbn; auto. lia.
Qed.

#[export] Hint Resolve AppendTimeline_ok TrimTimelineIfNeeded_ok bump_revision_ok erase_groups_ok : ledger.

(** ** Committing intent *)

(** The loop over the findings moves the ledger only through its timeline. *)
Definition rebase_moves (s s' : FindingLedger * IntentCommitReport * oset Digest) : Prop :=
  evolves s.1.1 s'.1.1 /\ (ledger_ok s.1.1 -> ledger_ok s'.1.1).

#[export] Instance rebase_moves_preorder : PreOrder rebase_moves.
Proof.
  split; [intros s; by split|]. intros a b c [] []. split; [by etransitivity|auto].
Qed.

Lemma rebase_entry_step baseline target generation now id f s :
  rebase_moves s (rebase_entry baseline target generation now id f s).2 /\
  same_record f (rebase_entry baseline target generation now id f s).1.
Proof.
  unfold rebase_entry. destruct (negb _); [done|]. destruct (negb _); [done|].
  destruct (_ =? _); [done|]. destruct s as [[l report] drop]. unfold rebase_finding.
  set (g := (if still_managed _ _ then _ else _) <| fd_last_evaluated := now |>).
  assert (Hg : same_record f g) by (unfold g; by destruct (still_managed _ _)).
  pose proof (leave_group_same g drop) as Hl. destruct (leave_group g drop) as [h drop'].
  cbn [fst snd] in *. split.
  - split; cbn [fst snd]; [apply AppendTimeline_evolves | apply AppendTimeline_ok].
  - etransitivity; [exact Hg|]. etransitivity; [exact Hl|]. done.
Qed.

Lemma RebaseFindingsForTarget_step target generation now report l :
  let l' := (RebaseFindingsForTarget target generation now report l).2 in
  evolves l l' /\ (ledger_ok l -> ledger_ok l').
Proof.
  unfold RebaseFindingsForTarget.
  set (body := rebase_entry (FindBaseline l target) target generation now).
  pose proof (mfor_state rebase_moves body (lg_findings l) (l, report, [])
    (fun k v s => proj1 (rebase_entry_step _ _ _ _ k v s))) as [He Ho].
  pose proof (mkept_mfor same_record body (lg_findings l) (l, report, [])
    (fun k v s => proj2 (rebase_entry_step _ _ _ _ k v s))) as Hf.
  pose proof (mfor_length body (lg_findings l) (l, report, [])) as Hn.
  assert (Hk : mall finding_keyed (lg_findings l) ->
    mall finding_keyed (mfor body (lg_findings l) (l, report, [])).1).
  { apply mall_mfor. intros k v s. eapply same_record_keyed. apply rebase_entry_step. }
  pose proof (mfor_sorted body (lg_findings l) (l, report, [])) as Hs.
  destruct (mfor body (lg_findings l) (l, report, [])) as [findings [[l' report'] drop]].
  cbn [fst snd] in *. split.
  - evolve. by apply evolves_with_findings.
  - intros H. apply erase_groups_ok, ledger_ok_findings; [auto|by apply Hs, H|by apply Hk, H|].
    pose proof (ok_findings_size _ H). destruct He as [-> _ _ _]. unfold vsize in *. lia.
Qed.

Lemma baseline_of_insert l doc now existing : ledger_ok l ->
  FindBaseline l (doc_target doc) = Some existing ->
  base_epoch existing <= doc_epoch doc -> base_generation existing < doc_generation doc ->
  let l' := l <| lg_baselines ::= minsert (doc_target doc) (baseline_of doc now) |> in
  evolves l l' /\ ledger_ok l'.
Proof.
  intros H Hf He Hg. pose proof (ok_baselines _ H _ _ Hf) as Ht. split.
  - constructor; [done|exists [], []; by rewrite app_nil_r|by apply mkept_refl, _|].
    apply mkept_insert; [apply _|]. intros old Hold. unfold FindBaseline in Hf.
    rewrite Hf in Hold. injection Hold as <-. repeat split; cbn; try congruence; try lia.
  - destruct H. constructor; cbn; auto with ndo.
    rewrite vsize_minsert by done. by rewrite (proj2 (mmem_true _ _)) by eauto.
Qed.

Lemma CommitIntent_step doc now report l : ledger_ok l ->
  let l' := (CommitIntent doc now report l).2 in evolves l l' /\ ledger_ok l'.
Proof.
  intros H. unfold CommitIntent. destruct (negb _); [done|].
  destruct (FindBaseline l (doc_target doc)) as [existing|] eqn:Hf.
  - destruct (_ <? _) eqn:E1; [done|]. destruct (_ <? base_generation existing) eqn:E2; [done|].
    destruct (_ =? base_generation existing) eqn:E3; [by destruct (eqb _ _)|]. breflect.
    destruct (baseline_of_insert l doc now existing H Hf) as [He Ho]; [lia..|].
    match goal with |- context [RebaseFindingsForTarget ?t ?g ?n ?r ?k] =>
      destruct (RebaseFindingsForTarget_step t g n r k) as [He' Ho'];
      destruct (RebaseFindingsForTarget t g n r k) as [report' l'] end.
    cbn [fst snd] in *. split; [|auto with ledger]. evolve. by etransitivity.
  - destruct (_ <=? _) eqn:E; [done|]. breflect. cbn [snd]. split.
    + evolve. constructor; [done|exists [], []; by rewrite app_nil_r|apply mkept_refl, _|].
      apply mkept_emplace. apply _.
    + apply bump_revision_ok, AppendTimeline_ok. destruct H. constructor; cbn; auto with ndo.
      unfold memplace. unfold FindBaseline in Hf. rewrite Hf, vsize_minsert by done.
      destruct (mmem _ _); lia.
Qed.

(** ** Observations *)

Definition retained_key (r : RetainedObservation) : Z * (Z * Z) :=
  (snap_epoch (ro_snapshot r), (snap_incarnation (ro_snapshot r), snap_sequence (ro_snapshot r))).

Lemma retained_less_key a b : retained_less a b = ltb (retained_key a) (retained_key b).
Proof.
  unfold retained_less, retained_key. rewrite !ltb_pair. cbn [fst snd].
  by rewrite !Z_eqb_eqb, !Z_ltb_ltb.
Qed.

Lemma erase_at_sublist {A} n (l : list A) : sublist (erase_at n l) l.
Proof.
  unfold erase_at. rewrite <- (firstn_skipn n l) at 3. apply sublist_app; [done|].
  revert l. induction n as [|n IH]; intros [|x l]; cbn; first [done | apply IH | by constructor].
Qed.

Lemma erase_at_length {A} n (l : list A) : (n < length l)%nat ->
  S (length (erase_at n l)) = length l.
Proof. intros. unfold erase_at. rewrite length_app, length_firstn, length_skipn. lia. Qed.

Lemma first_recovered_bound index w n : first_recovered index w = Some n ->
  (index <= n < index + length w)%nat /\ (n + 1 < index + length w)%nat.
Proof.
  revert index. induction w as [|r w IH]; intros index; cbn; [done|]. destruct w as [|r' w]; [done|].
  destruct (ro_recovered r); [intros [= <-]; cbn; lia|]. intros Hn%IH. cbn in *. lia.
Qed.

Lemma eviction_victim_bound w : (0 < length w)%nat ->
  (eviction_victim w < length w)%nat /\ ((1 < length w)%nat -> (eviction_victim w + 1 < length w)%nat).
Proof.
  intros H. unfold eviction_victim. destruct (first_recovered 0 w) as [n|] eqn:E; [|lia].
  apply first_recovered_bound in E. lia.
Qed.

Lemma Forall_sublist {A} (P : A -> Prop) (l l' : list A) : sublist l l' -> Forall P l' -> Forall P l.
Proof. rewrite !Forall_forall. intros Hl HP x Hx. apply HP. by eapply sublist_subseteq. Qed.

Lemma EvictIfNeeded_ok limits key w : window_ok key w ->
  vsize w <= max_retained_snapshots_per_source limits + 1 ->
  0 <= max_retained_snapshots_per_source limits ->
  window_ok key (EvictIfNeeded limits w) /\
  vsize (EvictIfNeeded limits w) <= max_retained_snapshots_per_source limits.
Proof.
  intros Hf Hn H0. unfold EvictIfNeeded. destruct (_ <? _) eqn:E; breflect; [|done].
  assert (Hl : (0 < length w)%nat) by (unfold vsize in *; lia).
  split.
  - eapply Forall_sublist; [apply erase_at_sublist|done].
  - pose proof (erase_at_length _ w (proj1 (eviction_victim_bound w Hl))). unfold vsize in *. lia.
Qed.

Lemma EvictIfNeeded_ordered limits w : window_ordered w -> window_ordered (EvictIfNeeded limits w).
Proof.
  intros Hs. unfold EvictIfNeeded. destruct (_ <? _); [|done].
  eapply StronglySorted_sublist; [apply erase_at_sublist|done].
Qed.

Lemma insert_observation_ordered r w : window_ordered w ->
  window_ordered (insert_at_lower_bound retained_less r w).
Proof.
  intros Hs. rewrite insert_at_lower_bound_eq.
  apply insert_by_sorted; [apply (keyed_trans_neg _ _ retained_less_key)
    |apply (keyed_asym _ _ retained_less_key)|done].
Qed.

Lemma insert_observation_ok key r w : window_ok key w ->
  (snap_target (ro_snapshot r), snap_source (ro_snapshot r)) = key ->
  window_ok key (insert_at_lower_bound retained_less r w) /\
  vsize (insert_at_lower_bound retained_less r w) = vsize w + 1.
Proof.
  intros Hf Hr. rewrite insert_at_lower_bound_eq.
  pose proof (insert_by_perm retained_less r w) as Hp. split.
  - unfold window_ok. rewrite <- Hp. by constructor.
  - unfold vsize. rewrite <- (Permutation_length Hp). cbn. lia.
Qed.

Lemma window_ok_nil key : window_ok key [].
Proof. constructor. Qed.

(** The window [windows_[key]] yields: the one stored, or a new empty one. *)
Lemma mget_window_ok l key : ledger_ok l -> 0 <= max_retained_snapshots_per_source (lg_limits l) ->
  window_ok key (mget [] key (lg_windows l)) /\
  vsize (mget [] key (lg_windows l)) <= max_retained_snapshots_per_source (lg_limits l).
Proof.
  intros H H0. unfold mget. destruct (mfind key (lg_windows l)) as [w|] eqn:E.
  - split; [by apply H|by apply (ok_windows_size l H key)].
  - split; [apply window_ok_nil|done].
Qed.

Lemma minsert_found {K V} `{Ordered K} (k : K) (v : V) m : msorted m ->
  mfind k m = Some v -> minsert k v m = m.
Proof.
  intros Hs Hk. apply msorted_ext; [by apply minsert_sorted|done|]. intros k'.
  rewrite mfind_insert. destruct (eqb k' k) eqn:E; [|done]. by apply eqb_eq in E as ->.
Qed.

(** Reaching a window creates it; nothing else changes. *)
Lemma touch_window l key : ledger_ok l ->
  last (mget [] key (lg_windows l)) <> None ->
  l <| lg_windows ::= minsert key (mget [] key (lg_windows l)) |> = l.
Proof.
  intros H Hl. unfold mget in *. destruct (mfind key (lg_windows l)) as [w|] eqn:E; [|done].
  unfold update. cbn. rewrite minsert_found by (done || apply H). by destruct l.
Qed.

Lemma put_window_ok l key w : ledger_ok l -> window_ok key w ->
  vsize w <= max_retained_snapshots_per_source (lg_limits l) ->
  ledger_ok (l <| lg_windows ::= minsert key w |>).
Proof. intros [] Hw Hn. constructor; cbn; auto with ndo. Qed.

(** An observation the ledger does not store leaves the ledger as it was. *)
Lemma RecordObservation_step snapshot verdict recovered report l : ledger_ok l ->
  0 <= max_retained_snapshots_per_source (lg_limits l) ->
  let l' := (RecordObservation snapshot verdict recovered report l).2 in
  evolves l l' /\ ledger_ok l'.
Proof.
  intros H H0. unfold RecordObservation. destruct (negb _); [done|].
  set (key := (snap_target snapshot, snap_source snapshot)).
  set (r := mkRetained snapshot verdict recovered).
  destruct (mget_window_ok l key H H0) as [Hw Hn].
  destruct (insert_observation_ok key r _ Hw eq_refl) as [Hw' Hn'].
  destruct (EvictIfNeeded_ok (lg_limits l) key _ Hw') as [Hw'' Hn'']; [lia|done|].
  assert (Ht : let l' := l <| lg_windows ::= minsert key (mget [] key (lg_windows l)) |> in
    evolves l l' /\ ledger_ok l')
    by (split; [by apply evolves_same | by apply put_window_ok]).
  destruct Ht as [Ht Ho].
  match goal with |- context [match ?x with Some _ => _ | None => _ end] => destruct x as [[st rp]|] end;
    cbn [snd]; [done|].
  split.
  - evolve. etransitivity; [exact Ht|]. by apply evolves_same.
  - apply bump_revision_ok, put_window_ok; [done|..]; done.
Qed.

Lemma InvalidateRetainedEvidence_step reason now l : ledger_ok l ->
  let l' := (InvalidateRetainedEvidence reason now l).2 in evolves l l' /\ ledger_ok l'.
Proof.
  intros H. unfold InvalidateRetainedEvidence. cbn [snd].
  set (l1 := l <| lg_windows ::= _ |>).
  assert (H1 : evolves l l1 /\ ledger_ok l1).
  { split; [by apply evolves_same|]. destruct H. constructor; cbn; auto.
    - by apply (map_values_msorted (map (invalidated reason now))).
    - intros key w. rewrite (mfind_map_values (map (invalidated reason now))).
      destruct (mfind key (lg_windows l)) as [w0|] eqn:E; cbn; [|done]. intros [= <-].
      pose proof (ok_windows0 key w0 E) as Hf. by apply Forall_map.
    - intros key w. rewrite (mfind_map_values (map (invalidated reason now))).
      destruct (mfind key (lg_windows l)) as [w0|] eqn:E; cbn; [|done]. intros [= <-].
      unfold vsize. rewrite length_map. exact (ok_windows_size0 key w0 E). }
  destruct H1. destruct (0 <? _); [|done]. split; [evolve; done|auto with ledger].
Qed.

(** *** The order of the windows *)

Lemma windows_ordered_same l l' : lg_windows l' = lg_windows l -> windows_ordered l -> windows_ordered l'.
Proof. unfold windows_ordered. by intros ->. Qed.

Lemma RecordObservation_ordered snapshot verdict recovered report l : windows_ordered l ->
  windows_ordered (RecordObservation snapshot verdict recovered report l).2.
Proof.
  intros H. unfold RecordObservation. destruct (negb _); [done|].
  set (key := (snap_target snapshot, snap_source snapshot)).
  assert (Hw : window_ordered (mget [] key (lg_windows l))).
  { unfold mget. destruct (mfind key (lg_windows l)) as [w|] eqn:E; [by apply (H key)|constructor]. }
  match goal with |- context [match ?x with Some _ => _ | None => _ end] => destruct x as [[st rp]|] end;
    cbn [snd]; [by apply mall_insert|].
  apply mall_insert; [|by apply mall_insert]. by apply EvictIfNeeded_ordered, insert_observation_ordered.
Qed.

Lemma InvalidateRetainedEvidence_ordered reason now l : windows_ordered l ->
  windows_ordered (InvalidateRetainedEvidence reason now l).2.
Proof.
  intros H. unfold InvalidateRetainedEvidence. cbn [snd]. set (l1 := l <| lg_windows ::= _ |>).
  assert (H1 : windows_ordered l1); [|by destruct (0 <? _)].
  intros key w. unfold l1. cbn. rewrite (mfind_map_values (map (invalidated reason now))).
  destruct (mfind key (lg_windows l)) as [w0|] eqn:E; cbn; [|done]. intros [= <-].
  pose proof (H key w0 E) as Hs. clear -Hs. unfold window_ordered in *.
  induction Hs as [|r w Hs IH Hr]; cbn; constructor; [done|]. by apply Forall_map.
Qed.

(** ** Operator actions *)

(** What suppressions and acknowledgements never touch: the divergence itself,
    its evidence, its history counters and its standing in the compliance
    computation. *)
Definition same_truth (f f' : Finding) : Prop :=
  same_record f f' /\ fd_klass f' = fd_klass f /\ fd_raw_class f' = fd_raw_class f /\
  fd_severity f' = fd_severity f /\ fd_reason f' = fd_reason f /\
  fd_baseline_generation f' = fd_baseline_generation f /\
  fd_intended f' = fd_intended f /\ fd_observed f' = fd_observed f /\
  fd_evidence f' = fd_evidence f /\ fd_evidence_freshness f' = fd_evidence_freshness f /\
  fd_group f' = fd_group f /\ fd_observation_count f' = fd_observation_count f /\
  fd_reopen_count f' = fd_reopen_count f /\
  fd_resolution_confirmations f' = fd_resolution_confirmations f /\
  fd_compliance_relevant f' = fd_compliance_relevant f /\
  is_live f' = is_live f /\ (is_live f = false -> fd_state f' = fd_state f).

#[export] Instance same_truth_preorder : PreOrder same_truth.
Proof.
  split.
  - intros f. by repeat split.
  - intros a b c (H1 & H2) (H1' & H2'). destruct_and!. unfold same_truth.
    split_and!; try congruence; [by etransitivity|].
    intros E. transitivity (fd_state b); [|auto].
    match goal with H : is_live b = false -> _ |- _ => apply H end. congruence.
Qed.

Lemma resumed_state_live f : IsLiveState (resumed_state f) = IsLiveState (fd_state f) /\
  (IsLiveState (fd_state f) = false -> resumed_state f = fd_state f).
Proof. unfold resumed_state. destruct (fd_state f), (eqb (fd_acknowledged_by f) ""); done. Qed.

(** One action: one finding changed, everything about it kept but its
    suppression or acknowledgement; nothing else but timelines, counters and
    the revision. *)
Definition acts_on (id : Digest) (l l' : FindingLedger) : Prop :=
  exists f f', mfind id (lg_findings l) = Some f /\ same_truth f f' /\
    lg_findings l' = minsert id f' (lg_findings l) /\
    lg_baselines l' = lg_baselines l /\ lg_windows l' = lg_windows l /\
    lg_groups l' = lg_groups l /\ lg_resolution_streak l' = lg_resolution_streak l /\
    lg_limits l' = lg_limits l /\ lg_revision l' = bump (lg_revision l) /\
    timeline_grows l l'.

Lemma conclude_action_acts id event f f' l l0 :
  mfind id (lg_findings l) = Some f -> same_truth f f' ->
  lg_findings l0 = lg_findings l -> lg_baselines l0 = lg_baselines l ->
  lg_windows l0 = lg_windows l -> lg_groups l0 = lg_groups l ->
  lg_resolution_streak l0 = lg_resolution_streak l -> lg_limits l0 = lg_limits l ->
  lg_revision l0 = lg_revision l -> lg_timeline_sequence l0 = lg_timeline_sequence l ->
  lg_global_timeline l0 = lg_global_timeline l ->
  acts_on id l (conclude_action id event f' l0).
Proof.
  intros Hf Ht E1 E2 E3 E4 E5 E6 E7 E8 E9.
  exists f, (RecomputeSummary (lg_limits l0) (push_event event f')). unfold conclude_action. cbn.
  rewrite E1, E7. split; [done|]. split; [etransitivity; [exact Ht|]; by repeat split|].
  repeat (split; [done|]). exists [event <| tl_sequence := bump (lg_timeline_sequence l) |>], [].
  cbn. by rewrite E8, E9.
Qed.

Lemma Suppress_acts id actor reason expires_at now l :
  let '(status, l') := Suppress id actor reason expires_at now l in
  if status_ok status then acts_on id l l' else l' = l.
Proof.
  unfold Suppress. destruct (mfind id (lg_findings l)) as [f|] eqn:Hf; [|done].
  destruct (invalid_actor actor); [done|]. destruct (_ && _); [done|].
  destruct (negb (IsValidIdentityText _)); [done|]. cbn [status_ok Status_Ok st_code].
  change (eqb SC_Ok SC_Ok) with true. cbv iota.
  eapply conclude_action_acts; [exact Hf|..]; try (by destruct (negb (has_suppression f))).
  cbn. destruct (IsLiveState (fd_state f)) eqn:E; unfold same_truth, same_record, is_live; cbn;
    split_and!; try done; rewrite ?E; done.
Qed.

Lemma ClearSuppression_acts id actor now l :
  let '(status, l') := ClearSuppression id actor now l in
  if status_ok status then acts_on id l l' else l' = l.
Proof.
  unfold ClearSuppression. destruct (mfind id (lg_findings l)) as [f|] eqn:Hf; [|done].
  destruct (negb _); [done|]. change (status_ok Status_Ok) with true. cbv iota.
  eapply conclude_action_acts; [exact Hf|..]; try done.
  destruct (resumed_state_live (clear_suppression f)).
  unfold same_truth, same_record, is_live. cbn -[resumed_state]. by split_and!.
Qed.

Lemma Acknowledge_acts id actor reason now l :
  let '(status, l') := Acknowledge id actor reason now l in
  if status_ok status then acts_on id l l' else l' = l.
Proof.
  unfold Acknowledge. destruct (mfind id (lg_findings l)) as [f|] eqn:Hf; [|done].
  destruct (invalid_actor actor); [done|]. change (status_ok Status_Ok) with true. cbv iota.
  eapply conclude_action_acts; [exact Hf|..]; try done.
  unfold same_truth, same_record, is_live. cbn. destruct (fd_state f) eqn:E; cbn; rewrite ?E;
    by split_and!.
Qed.

Lemma ClearAcknowledgement_acts id actor now l :
  let '(status, l') := ClearAcknowledgement id actor now l in
  if status_ok status then acts_on id l l' else l' = l.
Proof.
  unfold ClearAcknowledgement. destruct (mfind id (lg_findings l)) as [f|] eqn:Hf; [|done].
  destruct (eqb _ _); [done|]. change (status_ok Status_Ok) with true. cbv iota.
  eapply conclude_action_acts; [exact Hf|..]; try done.
  unfold same_truth, same_record, is_live. cbn. destruct (fd_state f) eqn:E; cbn; rewrite ?E;
    by split_and!.
Qed.

Lemma acts_on_step id l l' : ledger_ok l -> acts_on id l l' -> evolves l l' /\ ledger_ok l'.
Proof.
  intros H (f & f' & Hf & Ht & E1 & E2 & E3 & E4 & E5 & E6 & E7 & Hg).
  assert (Hr : same_record f f') by apply Ht. split.
  - constructor; [done|done| |rewrite E2; apply mkept_refl, _]. rewrite E1.
    apply mkept_insert; [apply _|]. intros old. rewrite Hf. by intros [= <-].
  - apply (ledger_ok_same (l <| lg_findings ::= minsert id f' |>)); try done.
    by eapply ledger_ok_put.
Qed.

(** ** Expiry *)

Definition expiry_moves (s s' : FindingLedger * Z) : Prop :=
  evolves s.1 s'.1 /\ (ledger_ok s.1 -> ledger_ok s'.1).

#[export] Instance expiry_moves_preorder : PreOrder expiry_moves.
Proof. split; [intros s; by split|]. intros a b c [] []. split; [by etransitivity|auto]. Qed.

Lemma expire_entry_step now id f s :
  expiry_moves s (expire_entry now id f s).2 /\ same_truth f (expire_entry now id f s).1.
Proof.
  unfold expire_entry. destruct (expired_suppression now f) as [at_|]; [|split; reflexivity].
  destruct s as [l n]. cbn [fst snd]. split.
  - split; cbn [fst snd].
    + evolve. by apply evolves_same.
    + intros H. apply AppendTimeline_ok. by apply (ledger_ok_same _ _ H).
  - destruct (resumed_state_live (clear_suppression f)).
    unfold same_truth, same_record, is_live. cbn -[resumed_state]. by split_and!.
Qed.

(** A finding whose suppression ended at [at_]: what is known of the suppression is
    gone, a finding that was suppressed is open or acknowledged again, and one
    timeline entry says so. *)
Definition suppression_lifted (limits : RuntimeLimits) (now at_ : NdoTime) (f : Finding) : Finding :=
  let g := f <| fd_suppression := None |> <| fd_suppression_origin := SO_None |> <| fd_suppressed_by := "" |>
             <| fd_suppression_reason := "" |> <| fd_suppression_expires_at := None |> in
  let g := g <| fd_state := resumed_state g |> in
  RecomputeSummary limits (push_event (finding_event TE_SuppressionExpired g now RC_SuppressionExpired
    (BoundedDetail ("suppression expired at " +:+ FormatTime at_))) g).

Lemma expire_entry_frame now id f s : lg_limits (expire_entry now id f s).2.1 = lg_limits s.1.
Proof. unfold expire_entry. destruct (expired_suppression now f); [|done]. by destruct s. Qed.

(** Which suppressions end. *)
Lemma ExpireSuppressions_exact now l id f : mfind id (lg_findings l) = Some f ->
  match expired_suppression now f with
  | None => mfind id (lg_findings (ExpireSuppressions now l).2) = Some f
  | Some at_ =>
      fd_suppression f <> None /\ fd_suppression_expires_at f = Some at_ /\ at_ <= now /\
      mfind id (lg_findings (ExpireSuppressions now l).2) = Some (suppression_lifted (lg_limits l) now at_ f)
  end.
Proof.
  intros Hf. unfold ExpireSuppressions.
  destruct (mfor_find_frame (fun s => lg_limits s.1) (expire_entry now) (lg_findings l) (l, 0) id f) as (s & Hs & Hm);
    [intros; apply expire_entry_frame|done|].
  destruct (mfor (expire_entry now) (lg_findings l) (l, 0)) as [findings [l' expired]]. cbn [fst snd] in *.
  assert (Hl : mfind id (lg_findings (if 0 <? expired then bump_revision (l' <| lg_findings := findings |>)
    else l' <| lg_findings := findings |>)) = Some (expire_entry now id f s).1) by (by destruct (0 <? expired)).
  unfold expire_entry in Hl. destruct (expired_suppression now f) as [at_|] eqn:E; [|exact Hl].
  destruct s as [k n]. cbn [fst] in Hs. rewrite <- Hs.
  unfold expired_suppression, has_suppression in E. destruct (fd_suppression f); [|done].
  destruct (fd_suppression_expires_at f) as [t|]; [|done]. cbn [negb] in E.
  destruct (Z.ltb_spec now t); [done|]. injection E as <-. by split_and!.
Qed.

Lemma ExpireSuppressions_step now l :
  let l' := (ExpireSuppressions now l).2 in
  evolves l l' /\ (ledger_ok l -> ledger_ok l') /\ mkept same_truth (lg_findings l) (lg_findings l') /\
  (forall id f', mfind id (lg_findings l') = Some f' ->
     exists f, mfind id (lg_findings l) = Some f /\ same_truth f f').
Proof.
  unfold ExpireSuppressions. set (body := expire_entry now).
  pose proof (mfor_state expiry_moves body (lg_findings l) (l, 0)
    (fun k v s => proj1 (expire_entry_step _ k v s))) as [He Ho].
  pose proof (mkept_mfor same_truth body (lg_findings l) (l, 0)
    (fun k v s => proj2 (expire_entry_step _ k v s))) as Ht.
  pose proof (mfor_length body (lg_findings l) (l, 0)) as Hn.
  assert (Hk : mall finding_keyed (lg_findings l) ->
    mall finding_keyed (mfor body (lg_findings l) (l, 0)).1).
  { apply mall_mfor. intros k v s. eapply same_record_keyed. apply expire_entry_step. }
  pose proof (mfor_sorted body (lg_findings l) (l, 0)) as Hs.
  assert (Hi : forall id f', mfind id (mfor body (lg_findings l) (l, 0)).1 = Some f' ->
    exists f, mfind id (lg_findings l) = Some f /\ same_truth f f').
  { intros id f' (f & s' & Hf & ->)%mfor_find_inv. exists f. split; [done|]. apply expire_entry_step. }
  destruct (mfor body (lg_findings l) (l, 0)) as [findings [l' expired]]. cbn [fst snd] in *.
  assert (Hf : mkept same_record (lg_findings l) findings).
  { intros k v Hv. destruct (Ht k v Hv) as (v' & Hv' & [Hr _]). eauto. }
  assert (H1 : evolves l (l' <| lg_findings := findings |>)) by by apply evolves_with_findings.
  assert (H2 : ledger_ok l -> ledger_ok (l' <| lg_findings := findings |>)).
  { intros H. apply ledger_ok_findings; [auto|by apply Hs, H|by apply Hk, H|].
    pose proof (ok_findings_size _ H). destruct He as [-> _ _ _]. unfold vsize in *. lia. }
  destruct (0 <? expired); [|done]. split; [evolve; done|]. split; [auto with ledger|done].
Qed.

Lemma RecordEvent_step e l : ledger_ok l -> evolves l (RecordEvent e l) /\ ledger_ok (RecordEvent e l).
Proof.
  intros H. change (RecordEvent e l) with (bump_revision (TrimTimelineIfNeeded (AppendTimeline e l))).
  split; [evolve|auto with ledger].
Qed.
