(* ===== verification/ApplyFacts.v ===== *)
(** * Facts about [ApplyEvaluation]

    The evaluation preserves the ledger's invariants, resolves a finding only on
    decidable evidence that does not report it, and leaves the findings of a
    fenced target alone. *)

From Stdlib Require Import ZArith Lia List Bool Sorting.Sorted String.
From stdpp Require Import base tactics list strings.
From S2P Require Import Prelude Containers Text Hash Status Time Identity Double Value Drift Intent.
From S2P Require Import Observation Freshness Policy Comparison Finding Ledger LedgerApply LedgerFacts.
#[local] Open Scope string_scope.
#[local] Open Scope Z_scope.
#[local] Arguments String.append : simpl nomatch.

(** ** Quiet steps *)

(** A step that cannot have resolved the finding. *)
Definition quiet (f f' : Finding) : Prop :=
  same_record f f' /\
  (fd_state f' = St_Resolved -> fd_state f = St_Resolved /\
     fd_resolution_confirmations f' = fd_resolution_confirmations f).

#[export] Instance quiet_preorder : PreOrder quiet.
Proof.
  split; [intros f; by split|]. intros a b c [H1 H2] [H3 H4]. split; [by etransitivity|].
  intros E. destruct (H4 E) as [E' ->]. destruct (H2 E') as [? ->]. done.
Qed.

Lemma quiet_unresolved f f' : same_record f f' -> fd_state f' <> St_Resolved -> quiet f f'.
Proof. by split. Qed.

Lemma quiet_same_truth f f' : same_truth f f' -> quiet f f'.
Proof.
  intros (Hr & _ & _ & _ & _ & _ & _ & _ & _ & _ & _ & _ & _ & Hc & _ & Hl & Hs).
  split; [done|]. intros E. rewrite <- Hs; [done|]. rewrite <- Hl. unfold is_live. by rewrite E.
Qed.

Section Moves.
(** What a step must show to resolve a finding. *)
Variable justified : Digest -> Finding -> Prop.
Hypothesis justified_quiet : forall id f f',
  justified id f -> quiet f f' -> fd_state f' = St_Resolved -> justified id f'.

Record moves (l l' : FindingLedger) : Prop := {
  mv_evolves : evolves l l';
  mv_resolved : forall id f', mfind id (lg_findings l') = Some f' -> fd_state f' = St_Resolved ->
    (exists f, mfind id (lg_findings l) = Some f /\ quiet f f') \/ justified id f'
}.

#[export] Instance moves_preorder : PreOrder moves.
Proof.
  split.
  - intros l. split; [reflexivity|]. intros id f' Hf _. left. by exists f'.
  - intros a b c [E1 R1] [E2 R2]. split; [by etransitivity|]. intros id f'' Hf'' Hs.
    destruct (R2 id f'' Hf'' Hs) as [(f' & Hf' & Hq)|]; [|by right].
    destruct (R1 id f' Hf' (proj1 (proj2 Hq Hs))) as [(f & Hf & Hq')|Hj].
    + left. exists f. split; [done|]. by etransitivity.
    + right. by eapply justified_quiet.
Qed.

Lemma moves_same l l' : evolves l l' -> lg_findings l' = lg_findings l -> moves l l'.
Proof. intros He Ef. split; [done|]. rewrite Ef. intros id f' Hf _. left. by exists f'. Qed.

(** A finding replaced, quietly or for a reason. *)
Lemma moves_put id f old l : mfind id (lg_findings l) = Some old -> same_record old f ->
  (quiet old f \/ justified id f) -> moves l (l <| lg_findings ::= minsert id f |>).
Proof.
  intros Hold Hs Hj. split.
  - apply evolves_put; [reflexivity|]. intros o. rewrite Hold. by intros [= <-].
  - cbn. intros id' f'. rewrite mfind_insert. destruct (eqb id' id) eqn:E; [|left; by exists f'].
    apply eqb_eq in E as ->. intros [= <-] _. destruct Hj; [left; by exists old|by right].
Qed.

Lemma moves_emplace id f l : fd_state f <> St_Resolved ->
  moves l (l <| lg_findings ::= memplace id f |>).
Proof.
  intros Hs. split.
  - apply (evolves_with_findings l l); [reflexivity|]. apply mkept_emplace. apply _.
  - cbn. intros id' f'. unfold memplace. destruct (mfind id (lg_findings l)) eqn:E;
      [left; by exists f'|]. rewrite mfind_insert. destruct (eqb id' id); [|left; by exists f'].
    by intros [= <-] ?.
Qed.

Lemma moves_foldl {A} (step : FindingLedger -> A -> FindingLedger) xs l :
  (forall l x, moves l (step l x)) -> moves l (foldl step l xs).
Proof.
  intros Hstep. revert l. induction xs as [|x xs IH]; intros l; [reflexivity|]. cbn.
  etransitivity; [apply Hstep | apply IH].
Qed.

(** ** Drafts *)

Variable outcome : EvaluationOutcome.
Variable policy : ObservatoryPolicy.
Variable now : NdoTime.

Lemma note_change_spec before after s : same_record before after ->
  fd_state after = fd_state before ->
  let r := note_change now before after s in
  same_record before r.1 /\ fd_state r.1 <> St_Resolved /\
  moves s.1 r.2.1 /\ (ledger_ok s.1 -> ledger_ok r.2.1) /\ lg_findings r.2.1 = lg_findings s.1.
Proof.
  intros Hr Hs. destruct s as [l report]. unfold note_change.
  destruct (is_closed (fd_state before)) eqn:E; cbn [fst snd].
  - split; [done|]. split; [done|]. split; [by apply moves_same; [apply AppendTimeline_evolves|]|].
    split; [apply AppendTimeline_ok|done].
  - assert (Hn : fd_state after <> St_Resolved) by (rewrite Hs; by destruct (fd_state before)).
    destruct (material_change before after); cbn [fst snd].
    + split; [done|]. split; [done|]. split; [by apply moves_same; [apply AppendTimeline_evolves|]|].
      split; [apply AppendTimeline_ok|done].
    + split; [done|]. split; [done|]. split; [reflexivity|done].
Qed.

Lemma recheck_suppression_spec f l : fd_state f <> St_Resolved ->
  let r := recheck_suppression policy now f l in
  same_record f r.1 /\ fd_state r.1 <> St_Resolved /\ moves l r.2 /\
  (ledger_ok l -> ledger_ok r.2) /\ lg_findings r.2 = lg_findings l.
Proof.
  intros Hs. unfold recheck_suppression. destruct (_ && _); [|by split_and!; try reflexivity].
  destruct (FindSuppression _ _ _ _ _ _ _); [by split_and!; try reflexivity|]. cbn [fst snd].
  split; [done|]. split.
  - cbn -[resumed_state]. unfold resumed_state. cbn. destruct (fd_state f); try done.
    by destruct (eqb (fd_acknowledged_by f) "").
  - split; [by apply moves_same; [apply AppendTimeline_evolves|]|]. split; [apply AppendTimeline_ok|done].
Qed.

(** Applying one draft: what it does to the number of findings and to the others. *)
Lemma apply_draft_spec e s entry :
  let l := s.1 in
  let l' := (apply_draft outcome policy now e s entry).1 in
  moves l l' /\
  (ledger_ok l -> ComputeId (draft_identity (snd entry)) = fst entry ->
     (mmem (fst entry) (lg_findings l) = false -> vsize (lg_findings l) < max_findings (lg_limits l)) ->
     ledger_ok l' /\
     vsize (lg_findings l') = vsize (lg_findings l) + (if mmem (fst entry) (lg_findings l) then 0 else 1)) /\
  (forall id, id <> fst entry -> mfind id (lg_findings l') = mfind id (lg_findings l)) /\
  mmem (fst entry) (lg_findings l') = true.
Proof.
  destruct s as [l report], entry as [id d]. cbv zeta. cbn [fst snd].
  unfold apply_draft. cbn [fst snd]. unfold mmem at 1 2 3.
  destruct (mfind id (lg_findings l)) as [existing|] eqn:Hf.
  - unfold refresh_finding. set (after := (copy_draft _ _ _ _ _) <| fd_observation_count ::= bump |>).
    destruct (note_change_spec existing after (l, report)) as (R1 & S1 & M1 & K1 & F1); [done..|].
    destruct (note_change now existing after (l, report)) as [f1 [l1 report1]]. cbn [fst snd] in *.
    set (l2 := l1 <| lg_resolution_streak ::= minsert id 0 |>).
    destruct (recheck_suppression_spec f1 l2 S1) as (R2 & S2 & M2 & K2 & F2).
    destruct (recheck_suppression policy now f1 l2) as [f2 l3]. cbn [fst snd] in *.
    assert (F3 : lg_findings l3 = lg_findings l) by (rewrite F2; exact F1).
    assert (R3 : same_record existing (RecomputeSummary (lg_limits l3) f2))
      by (etransitivity; [exact R1|]; etransitivity; [exact R2|done]).
    assert (Hold : mfind id (lg_findings l3) = Some existing) by (by rewrite F3).
    split; [|split; [|split]].
    + etransitivity; [exact M1|]. etransitivity; [by apply (moves_same l1 l2); [apply evolves_same|]|].
      etransitivity; [exact M2|]. eapply moves_put; [exact Hold|done|]. left. by apply quiet_unresolved.
    + intros Hok _ _. split.
      * eapply ledger_ok_put; [|exact Hold|done]. apply K2. specialize (K1 Hok). destruct K1.
        constructor; cbn; auto with ndo.
      * cbn. rewrite F3, vsize_minsert by apply Hok. rewrite (proj2 (mmem_true _ _)) by eauto. lia.
    + intros id' Hne. cbn. rewrite F3. by apply mfind_insert_ne.
    + cbn. apply mmem_true. rewrite mfind_insert_eq. eauto.
  - unfold create_finding.
    assert (Hx : let x := open_or_suppress policy now d (initial_finding outcome now e id d) report in
      fd_id x.1.1 = id /\ fd_identity x.1.1 = draft_identity d /\ fd_state x.1.1 <> St_Resolved)
      by (unfold open_or_suppress; destruct (FindSuppression _ _ _ _ _ _ _); done).
    destruct (open_or_suppress _ _ _ _ _) as [[f event] report'].
    cbn [fst snd] in *. set (ev := event <| tl_evidence_digest := _ |>).
    set (g := RecomputeSummary _ _).
    assert (Hg : fd_id g = id /\ fd_identity g = draft_identity d /\ fd_state g <> St_Resolved) by done.
    destruct Hg as (Hg1 & Hg2 & Hg3).
    assert (Hm : lg_findings (AppendTimeline ev l) = lg_findings l) by done.
    split; [|split; [|split]].
    + etransitivity; [by apply (moves_same l (AppendTimeline ev l)); [apply AppendTimeline_evolves|]|].
      by apply moves_emplace.
    + intros Hok Hid Hroom. specialize (Hroom eq_refl).
      assert (Hn : vsize (memplace id g (lg_findings l)) = vsize (lg_findings l) + 1).
      { unfold memplace. rewrite Hf, vsize_minsert by apply Hok. unfold mmem. by rewrite Hf. }
      split; [|exact Hn]. pose proof (AppendTimeline_ok ev l Hok) as []. constructor; cbn; auto with ndo.
      * apply mall_emplace; [by split; [|rewrite Hg2]|done].
      * rewrite Hn. lia.
    + intros id' Hne. cbn. unfold memplace. rewrite Hf. by apply mfind_insert_ne.
    + cbn. unfold memplace. rewrite Hf. apply mmem_true. rewrite mfind_insert_eq. eauto.
Qed.
(** ** Findings that were not drafted *)

Lemma leave_group_state f drop :
  let g := (leave_group f drop).1 in
  same_record f g /\ fd_state g = fd_state f /\
  fd_resolution_confirmations g = fd_resolution_confirmations f.
Proof. unfold leave_group. by destruct (Digest_is_set _). Qed.

(** A step that replaces one stored finding. *)
Definition replaces (id : Digest) (l l' : FindingLedger) : Prop :=
  moves l l' /\ (ledger_ok l -> ledger_ok l' /\ vsize (lg_findings l') = vsize (lg_findings l)) /\
  (forall id', id' <> id -> mfind id' (lg_findings l') = mfind id' (lg_findings l)).

Lemma replaces_put id f old l l0 : mfind id (lg_findings l) = Some old -> same_record old f ->
  (quiet old f \/ justified id f) ->
  evolves l l0 -> lg_findings l0 = lg_findings l -> (ledger_ok l -> ledger_ok l0) ->
  replaces id l (l0 <| lg_findings ::= minsert id f |>).
Proof.
  intros Hold Hs Hj He Ef Hok. assert (Hold0 : mfind id (lg_findings l0) = Some old) by (by rewrite Ef).
  split; [|split].
  - etransitivity; [by apply (moves_same l l0)|]. by eapply moves_put.
  - intros H. split; [by eapply ledger_ok_put; [apply Hok|exact Hold0|]|].
    cbn. rewrite Ef, vsize_minsert by apply H. by rewrite (proj2 (mmem_true _ _)) by eauto.
  - intros id' Hne. cbn. rewrite Ef. by apply mfind_insert_ne.
Qed.

Lemma settle_finding_spec e drafts s id f :
  mfind id (lg_findings s.1.1) = Some f -> fd_state f <> St_Resolved ->
  (forall f', same_record f f' -> te_compliance_decidable e = true ->
     required_confirmations outcome <= fd_resolution_confirmations f' -> justified id f') ->
  replaces id s.1.1 (settle_finding outcome now e drafts s id).1.1.
Proof.
  destruct s as [[l report] drop]. cbn [fst snd]. intros Hf Hl Hj. unfold settle_finding. rewrite Hf.
  destruct (te_compliance_decidable e) eqn:Ed; cbn [negb].
  2: { split; [reflexivity|]. by split. }
  destruct (existsb _ _).
  - unfold reclassify_finding.
    set (g := f <| fd_state := St_Superseded |> <| fd_reason := _ |> <| fd_last_evaluated := _ |>).
    pose proof (leave_group_state g drop) as (R & S & _). destruct (leave_group g drop) as [h drop'].
    cbn [fst snd] in *. assert (Hr : same_record f h) by (etransitivity; [|exact R]; done).
    eapply replaces_put; [exact Hf|done| |apply AppendTimeline_evolves|done|apply AppendTimeline_ok].
    left. apply quiet_unresolved; [done|]. cbn. by rewrite S.
  - set (streak := wrap32 _). set (l1 := l <| lg_resolution_streak ::= minsert id streak |>).
    assert (E1 : evolves l l1) by by apply evolves_same.
    assert (O1 : ledger_ok l -> ledger_ok l1)
      by (intros []; constructor; cbn; auto with ndo).
    destruct (required_confirmations outcome <=? streak) eqn:Er.
    + unfold resolve_finding.
      set (g := f <| fd_resolution_confirmations := streak |> <| fd_state := St_Resolved |>
        <| fd_reason := _ |> <| fd_resolved_at := _ |> <| fd_last_evaluated := _ |>).
      pose proof (leave_group_state g drop) as (R & _ & C). destruct (leave_group g drop) as [h drop'].
      cbn [fst snd] in *. assert (Hr : same_record f h) by (etransitivity; [|exact R]; done).
      eapply replaces_put; [exact Hf|by etransitivity; [exact Hr|]| | |done|].
      * right. apply Hj; [by etransitivity; [exact Hr|]|done|]. cbn. rewrite C. by apply Z.leb_le.
      * etransitivity; [exact E1|apply AppendTimeline_evolves].
      * intros H. by apply AppendTimeline_ok, O1.
    + eapply replaces_put; [exact Hf|done| |done|done|done].
      left. by apply quiet_unresolved.
Qed.

Lemma settle_all e drafts ids s : NoDup ids ->
  (forall id, id ∈ ids -> exists f, mfind id (lg_findings s.1.1) = Some f /\
     fd_state f <> St_Resolved /\
     (forall f', same_record f f' -> te_compliance_decidable e = true ->
        required_confirmations outcome <= fd_resolution_confirmations f' -> justified id f')) ->
  let l := s.1.1 in
  let l' := (foldl (settle_finding outcome now e drafts) s ids).1.1 in
  moves l l' /\ (ledger_ok l -> ledger_ok l' /\ vsize (lg_findings l') = vsize (lg_findings l)) /\
  (forall id, id ∉ ids -> mfind id (lg_findings l') = mfind id (lg_findings l)).
Proof.
  cbv zeta. revert s. induction ids as [|id ids IH]; intros s Hn Hids; cbn [foldl].
  { split; [reflexivity|]. by split. }
  apply NoDup_cons in Hn as [Hid Hn].
  destruct (Hids id) as (f & Hf & Hs & Hj); [apply list_elem_of_here|].
  destruct (settle_finding_spec e drafts s id f Hf Hs Hj) as (M & O & F).
  destruct (IH (settle_finding outcome now e drafts s id) Hn) as (M' & O' & F').
  { intros id' Hin. rewrite F by (intros ->; done). apply Hids. by apply list_elem_of_further. }
  split; [by etransitivity|]. split.
  - intros H. destruct (O H) as [H1 E1]. destruct (O' H1) as [H2 E2]. split; [done|]. congruence.
  - intros id' [Hne Hin]%not_elem_of_cons. by rewrite F', F.
Qed.

Lemma live_undrafted_spec l e drafts : ledger_ok l ->
  NoDup (live_undrafted l e drafts) /\
  (forall id, id ∈ live_undrafted l e drafts -> exists f, mfind id (lg_findings l) = Some f /\
     IsLiveState (fd_state f) = true /\ fi_target (fd_identity f) = te_target e /\
     mmem id drafts = false).
Proof.
  intros H. unfold live_undrafted. set (test := fun entry : Digest * Finding => _). split.
  - pose proof (filter_msorted test (lg_findings l) (ok_findings_sorted _ H)) as Hs.
    unfold msorted, mkeys in Hs. clear -Hs. induction Hs as [|x k Hs IH Hf]; constructor; [|done].
    intros Hin. rewrite Forall_forall in Hf. by apply Hf, key_lt_irrefl in Hin.
  - intros id Hin. apply list_elem_of_In, in_map_iff in Hin as ([id' f] & <- & Hin).
    apply filter_In in Hin as [Hin Ht]. unfold test in Ht. cbn in Ht. breflect.
    exists f. split; [apply mfind_In_sorted; [apply H|done]|]. split; [done|].
    split; [by apply eqb_eq|done].
Qed.

(** ** Groups *)

Definition scan_ok (limits : RuntimeLimits) (s : GroupScan) : Prop :=
  msorted (gs_groups s) /\ mall (fun id g => gr_id g = id) (gs_groups s) /\
  vsize (gs_groups s) <= max_groups limits.

Lemma produce_group_ok limits target key bucket s :
  scan_ok limits s -> scan_ok limits (produce_group now limits target key bucket s).2.
Proof.
  intros (Hs & Hg & Hn). unfold produce_group.
  destruct (eqb _ _); [done|]. destruct (negb _); [done|].
  destruct (sort_by _ bucket) as [|front rest]; [done|]. cbn [gs_groups].
  match goal with |- context [GroupIdentity ?a ?b ?c ?d] => set (id := GroupIdentity a b c d) end.
  unfold update at 1. cbn [gs_groups].
  destruct (mfind id (gs_groups s)) as [g|] eqn:Hf.
  - split; [|split]; cbn; auto with ndo.
    + apply mall_insert; [|done]. cbn. by apply Hg.
    + rewrite vsize_minsert by done. by rewrite (proj2 (mmem_true _ _)) by eauto.
  - destruct (_ <=? _) eqn:E; [done|]. breflect.
    change (vsize (gs_groups s) < max_groups limits) in E. split; [|split]; cbn; auto with ndo.
    unfold memplace. rewrite Hf, vsize_minsert by done. destruct (mmem _ _); lia.
Qed.

Lemma produce_groups_ok limits target buckets s :
  scan_ok limits s -> scan_ok limits (produce_groups now limits target buckets s).2.
Proof.
  revert s. induction buckets as [|[key bucket] rest IH]; intros s Hs; [done|]. cbn.
  pose proof (produce_group_ok limits target key bucket s Hs) as H1.
  destruct (produce_group now limits target key bucket s) as [status s1]. cbn in H1.
  destruct (negb _); [done|]. by apply IH.
Qed.

Definition only_timeline (l l' : FindingLedger) : Prop :=
  evolves l l' /\ (ledger_ok l -> ledger_ok l').

#[export] Instance only_timeline_preorder : PreOrder only_timeline.
Proof. split; [by intros l|]. intros a b c [] []. split; [by etransitivity|auto]. Qed.

Lemma assign_entry_step target assignment id f l :
  let r := assign_entry now target assignment id f l in
  only_timeline l r.2 /\ same_record f r.1 /\ fd_state r.1 = fd_state f /\
  fd_resolution_confirmations r.1 = fd_resolution_confirmations f /\
  (fi_target (fd_identity f) <> target -> r.1 = f).
Proof.
  unfold assign_entry. destruct (eqb (fi_target (fd_identity f)) target) eqn:Et; cbn [negb].
  2: { by split_and!. }
  apply eqb_eq in Et. destruct (negb _); [by split_and!|].
  destruct (mfind _ assignment) as [g|]; [destruct (eqb _ g); [by split_and!|]|].
  - cbn [fst snd]. split; [split; [apply AppendTimeline_evolves|apply AppendTimeline_ok]|].
    by split_and!.
  - cbn [fst snd]. split; [done|]. by destruct (Digest_is_set _).
Qed.

Lemma RefreshGroups_spec target report l :
  let l' := (RefreshGroups now target report l).2 in
  moves l l' /\ (ledger_ok l -> ledger_ok l' /\ vsize (lg_findings l') = vsize (lg_findings l)) /\
  (forall id f, mfind id (lg_findings l) = Some f -> fi_target (fd_identity f) <> target ->
     mfind id (lg_findings l') = Some f).
Proof.
  unfold RefreshGroups. cbv zeta.
  pose proof (produce_groups_ok (lg_limits l) target (group_buckets l target)
    (mkGroupScan (lg_groups l) report [] [])) as Hscan.
  destruct (produce_groups _ _ _ _ _) as [status scan]. cbn [snd] in Hscan.
  set (l1 := l <| lg_groups := gs_groups scan |>).
  assert (E1 : evolves l l1) by by apply evolves_same.
  assert (O1 : ledger_ok l -> ledger_ok l1).
  { intros []. destruct Hscan as (? & ? & ?); [by split_and!|]. by constructor. }
  destruct (negb (status_ok status)); cbn [snd].
  { split; [by apply moves_same|]. split; [by auto|done]. }
  set (body := assign_entry now target (gs_assignment scan)).
  pose proof (mfor_state only_timeline body (lg_findings l1) l1
    (fun k v s => proj1 (assign_entry_step _ _ k v s))) as [He Ho].
  assert (Hq : forall k f s, quiet f (body k f s).1).
  { intros k f s. destruct (assign_entry_step target (gs_assignment scan) k f s)
      as (_ & R & S & C & _). split; [done|]. fold body in S, C. by rewrite S, C. }
  pose proof (mkept_mfor quiet body (lg_findings l1) l1 Hq) as Hk.
  pose proof (mfor_length body (lg_findings l1) l1) as Hn.
  pose proof (mfor_sorted body (lg_findings l1) l1) as Hs.
  pose proof (mfor_find_inv body (lg_findings l1) l1) as Hi.
  pose proof (mfor_find body (lg_findings l1) l1) as Hfd.
  destruct (mfor body (lg_findings l1) l1) as [findings l2]. cbn [fst snd] in *.
  change (lg_findings l1) with (lg_findings l) in *. split; [|split].
  - transitivity (l2 <| lg_findings := findings |>); [|by apply moves_same; [apply evolves_same|]].
    split; cbn.
    + apply evolves_with_findings; [by etransitivity|]. intros k v Hv.
      destruct (Hk k v Hv) as (v' & Hv' & [Hr _]). eauto.
    + intros id f' (f & s' & Hf & ->)%Hi _. left. eauto.
  - intros H. assert (H2 : ledger_ok (l2 <| lg_findings := findings |>)).
    { apply ledger_ok_findings; [auto|by apply Hs, H| |].
      - intros id f' (f & s' & Hf & ->)%Hi. eapply same_record_keyed; [apply Hq|by apply H].
      - pose proof (ok_findings_size _ H). destruct He as [-> _ _ _].
        change (lg_limits l1) with (lg_limits l). unfold vsize in *. lia. }
    split; [|cbn; unfold vsize; lia]. pose proof (ok_groups_size _ H2) as Hg.
    destruct H2. constructor; cbn; auto with ndo. cbn in Hg.
    pose proof (List.filter_length_le (fun entry : Digest * RootCauseGroup =>
             negb (eqb (gr_target (snd entry)) target && negb (smem (fst entry) (gs_produced scan)))) (lg_groups l2)).
    unfold vsize in *. lia.
  - intros id f Hf Hne. cbn. destruct (Hfd id f Hf) as [s' ->].
    destruct (assign_entry_step target (gs_assignment scan) id f s') as (_ & _ & _ & _ & E).
    f_equal. by apply E.
Qed.
(** ** One target *)

Lemma draft_map_spec drafts :
  mall (fun id d => draft_id d = id /\ In d drafts) (draft_map drafts) /\
  (forall d, In d drafts -> mmem (draft_id d) (draft_map drafts) = true).
Proof.
  unfold draft_map.
  assert (Hgen : forall ds m, mall (fun id d => draft_id d = id /\ In d drafts) m ->
    (forall d, In d ds -> In d drafts) ->
    let m' := foldl (fun m d => memplace (draft_id d) d m) m ds in
    mall (fun id d => draft_id d = id /\ In d drafts) m' /\
    (forall d, In d ds \/ mmem (draft_id d) m = true -> mmem (draft_id d) m' = true)).
  { induction ds as [|d ds IH]; intros m Hm Hin; cbn; [split; [done|by intros d [[]|?]]|].
    destruct (IH (memplace (draft_id d) d m)) as [H1 H2].
    - apply mall_emplace; [|done]. split; [done|]. apply Hin. by left.
    - intros d' ?. apply Hin. by right.
    - split; [done|]. intros d' [[<-|Hd]|Hd]; apply H2; [right|by left|right].
      + unfold memplace. destruct (mfind _ m) eqn:E; apply mmem_true; rewrite ?E; [eauto|].
        rewrite mfind_insert_eq. eauto.
      + apply (mkept_mem (fun _ _ => True) m); [|done]. by apply mkept_emplace. }
  destruct (Hgen drafts [] (mall_nil _) (fun d H => H)) as [H1 H2]. split; [done|]. auto.
Qed.

Lemma draft_map_sorted drafts : msorted (draft_map drafts).
Proof.
  unfold draft_map. assert (Hgen : forall ds m, msorted m ->
    msorted (foldl (fun m d => memplace (draft_id d) d m) m ds)).
  { induction ds as [|d ds IH]; intros m Hm; cbn; [done|]. apply IH. auto with ndo. }
  apply Hgen, msorted_nil.
Qed.

Lemma vcount_cons {A} (test : A -> bool) x l :
  vcount test (x :: l) = (if test x then 1 else 0) + vcount test l.
Proof. unfold vcount, vsize. cbn [List.filter]. destruct (test x); cbn [length]; lia. Qed.

Lemma vcount_minsert {V} (p : Digest -> bool) k (v : V) m : mfind k m = None ->
  vcount (fun e => p (fst e)) (minsert k v m) = (if p k then 1 else 0) + vcount (fun e => p (fst e)) m.
Proof.
  induction m as [|[k' v'] m IH]; [intros _; cbn [minsert]; by rewrite vcount_cons|].
  cbn [mfind minsert]. destruct (eqb k k') eqn:E; [done|]. intros Hk. apply eqb_neq in E.
  destruct (compare k k') eqn:C; [by apply compare_eq_iff in C| |].
  - by rewrite vcount_cons.
  - rewrite !vcount_cons, IH by done. cbn [fst]. lia.
Qed.

(** Distinct new identities are at most the new drafts. *)
Lemma draft_map_count (p : Digest -> bool) drafts :
  vcount (fun e => p (fst e)) (draft_map drafts) <= vcount (fun d => p (draft_id d)) drafts.
Proof.
  unfold draft_map. assert (Hgen : forall ds m,
    vcount (fun e => p (fst e)) (foldl (fun m d => memplace (draft_id d) d m) m ds) <=
    vcount (fun e => p (fst e)) m + vcount (fun d => p (draft_id d)) ds).
  { induction ds as [|d ds IH]; intros m; cbn [foldl]; [unfold vcount, vsize; cbn; lia|].
    rewrite vcount_cons. specialize (IH (memplace (draft_id d) d m)). unfold memplace in *.
    destruct (mfind (draft_id d) m) eqn:E; [destruct (p (draft_id d)); lia|].
    rewrite vcount_minsert in IH by done. lia. }
  specialize (Hgen drafts []). unfold vcount, vsize in *. cbn in *. lia.
Qed.

(** [p] tells the identities a step may add; the others are stored already. *)
Definition stored_or (p : Digest -> bool) (l : FindingLedger) : Prop :=
  forall id, p id = false -> mmem id (lg_findings l) = true.

Lemma stored_or_moves p l l' : moves l l' -> stored_or p l -> stored_or p l'.
Proof. intros [[_ _ He _] _] Hp id Hid. eapply mkept_mem; [exact He|]. by apply Hp. Qed.

(** A step of a phase with room for [n] more findings. *)
Definition admits (n : Z) (l l' : FindingLedger) : Prop :=
  moves l l' /\ ledger_ok l' /\ vsize (lg_findings l') <= vsize (lg_findings l) + n.

Lemma apply_drafts_spec p e entries s : ledger_ok s.1 -> stored_or p s.1 ->
  Forall (fun entry => draft_id (snd entry) = fst entry) entries ->
  vsize (lg_findings s.1) + vcount (fun entry => p (fst entry)) entries <= max_findings (lg_limits s.1) ->
  let l' := (foldl (apply_draft outcome policy now e) s entries).1 in
  admits (vcount (fun entry => p (fst entry)) entries) s.1 l' /\
  (forall id, id ∉ map fst entries -> mfind id (lg_findings l') = mfind id (lg_findings s.1)).
Proof.
  cbv zeta. revert s. induction entries as [|entry entries IH]; intros s Hok Hp Hids Hroom; cbn [foldl].
  { split; [|done]. split; [reflexivity|]. split; [done|]. unfold vcount, vsize. cbn. lia. }
  inversion_clear Hids as [|? ? Hid Hids'].
  pose proof (vcount_bound (fun entry : Digest * FindingDraft => p (fst entry)) entries) as Hc.
  rewrite vcount_cons in *. destruct (apply_draft_spec e s entry) as (M & O & F & _).
  assert (Hmem : p (fst entry) = false -> mmem (fst entry) (lg_findings s.1) = true) by apply Hp.
  destruct (O Hok Hid) as [O1 N1].
  { intros Hm. destruct (p (fst entry)); [lia|]. rewrite Hmem in Hm by done. done. }
  set (s' := apply_draft outcome policy now e s entry) in *.
  assert (Hl : lg_limits s'.1 = lg_limits s.1) by apply M.
  assert (Hn : vsize (lg_findings s'.1) <= vsize (lg_findings s.1) + (if p (fst entry) then 1 else 0)).
  { rewrite N1. destruct (p (fst entry)); [destruct (mmem _ _); lia|]. rewrite Hmem by done. lia. }
  destruct (IH s' O1) as [(M2 & O2 & N2) F2]; [by eapply stored_or_moves|done|rewrite Hl; lia|].
  split.
  - split; [by etransitivity|]. split; [done|lia].
  - intros id [Hne Hin]%not_elem_of_cons. by rewrite F2, F.
Qed.

Definition drafted (e : TargetEvaluation) (id : Digest) : Prop :=
  Exists (fun d => draft_id d = id) (te_drafts e).

Lemma drafted_mem e id : drafted e id <-> mmem id (draft_map (te_drafts e)) = true.
Proof.
  unfold drafted. rewrite List.Exists_exists. split.
  - intros (d & Hd & <-). by apply draft_map_spec.
  - intros [d Hd]%mmem_true. apply (proj1 (draft_map_spec _)) in Hd as [Hid Hd]. eauto.
Qed.

Lemma apply_target_spec p e s : ledger_ok s.1 -> stored_or p s.1 ->
  vsize (lg_findings s.1) + vcount (fun d => p (draft_id d)) (te_drafts e)
    <= max_findings (lg_limits s.1) ->
  (forall id f, te_compliance_decidable e = true -> fi_target (fd_identity f) = te_target e ->
     ~ drafted e id -> required_confirmations outcome <= fd_resolution_confirmations f ->
     justified id f) ->
  let l' := (apply_target outcome policy now e s).2.1 in
  admits (vcount (fun d => p (draft_id d)) (te_drafts e)) s.1 l' /\
  (forall id f, mfind id (lg_findings s.1) = Some f -> fi_target (fd_identity f) <> te_target e ->
     ~ drafted e id -> mfind id (lg_findings l') = Some f).
Proof.
  intros Hok Hp Hroom Hj. unfold apply_target. set (drafts := draft_map (te_drafts e)).
  pose proof (draft_map_count p (te_drafts e)) as Hcount. fold drafts in Hcount.
  destruct (apply_drafts_spec p e drafts s Hok Hp) as [(M1 & O1 & N1) F1]; [|lia|].
  { apply Forall_forall. intros [id d] Hin%list_elem_of_In.
    apply (mfind_In_sorted _ _ _ (draft_map_sorted _)) in Hin.
    by apply (proj1 (draft_map_spec _)) in Hin as [Hin _]. }
  destruct (foldl (apply_draft outcome policy now e) s drafts) as [l1 report1]. cbn [fst] in M1, O1, N1, F1.
  destruct (live_undrafted_spec l1 e drafts O1) as [Hnd Hlive].
  destruct (settle_all e drafts (live_undrafted l1 e drafts) (l1, report1, []) Hnd) as (M2 & O2 & F2).
  { intros id Hin. destruct (Hlive id Hin) as (f & Hf & Hl & Ht & Hm). exists f.
    split; [done|]. split; [by destruct (fd_state f)|]. intros f' (_ & Hi & _) Hd Hr.
    apply Hj; [done|by rewrite Hi| |done]. rewrite drafted_mem. fold drafts. by rewrite Hm. }
  destruct (foldl (settle_finding outcome now e drafts) (l1, report1, [])
    (live_undrafted l1 e drafts)) as [[l2 report2] drop]. cbn [fst] in M2, O2, F2.
  destruct (O2 O1) as [O2' N2].
  pose proof (RefreshGroups_spec (te_target e) report2 l2) as (M3 & O3 & F3).
  destruct (RefreshGroups _ _ _ _) as [[status report3] l3]. cbn [snd] in M3, O3, F3.
  destruct (O3 O2') as [O3' N3].
  assert (Hfinal : forall l4, evolves l3 l4 -> lg_findings l4 = lg_findings l3 -> ledger_ok l4 ->
    admits (vcount (fun d => p (draft_id d)) (te_drafts e)) s.1 l4 /\
    (forall id f, mfind id (lg_findings s.1) = Some f -> fi_target (fd_identity f) <> te_target e ->
       ~ drafted e id -> mfind id (lg_findings l4) = Some f)).
  { intros l4 E4 F4 O4. split.
    - split; [|split; [done|rewrite F4; lia]]. etransitivity; [exact M1|].
      etransitivity; [exact M2|]. etransitivity; [exact M3|]. by apply moves_same.
    - intros id f Hf Ht Hd. rewrite F4. apply F3; [|done]. rewrite drafted_mem in Hd. fold drafts in Hd.
      rewrite F2, F1; [done| |].
      + intros Hin. apply list_elem_of_In in Hin. destruct Hd. apply mmem_true, mfind_is_Some.
        by apply list_elem_of_In.
      + intros Hin. destruct (Hlive id Hin) as (f1 & Hf1 & _ & Ht1 & _).
        assert (Hf1' : mfind id (lg_findings l1) = Some f).
        { rewrite F1; [done|]. intros Hin'. apply list_elem_of_In in Hin'. destruct Hd.
          apply mmem_true, mfind_is_Some. by apply list_elem_of_In. }
        congruence. }
  destruct (negb (status_ok status)); cbn [snd fst].
  - apply Hfinal; [reflexivity|done|done].
  - apply Hfinal; [apply erase_groups_evolves|done|by apply erase_groups_ok].
Qed.
End Moves.

(** ** The whole outcome *)

(** Decidable evidence about the finding's target that does not report it, as
    often in a row as the outcome requires. *)
Definition resolution_justified (outcome : EvaluationOutcome) (targets : list TargetEvaluation)
    (id : Digest) (f : Finding) : Prop :=
  required_confirmations outcome <= fd_resolution_confirmations f /\
  Exists (fun e => te_compliance_decidable e = true /\ fi_target (fd_identity f) = te_target e /\
    ~ drafted e id) targets.

Lemma resolution_justified_quiet outcome targets id f f' :
  resolution_justified outcome targets id f -> quiet f f' -> fd_state f' = St_Resolved ->
  resolution_justified outcome targets id f'.
Proof.
  intros [Hc He] [(_ & Hi & _) Hq] Hs. destruct (Hq Hs) as [_ Hc']. split; [by rewrite Hc'|].
  by rewrite Hi.
Qed.

#[export] Instance justified_moves_preorder outcome targets :
  PreOrder (moves (resolution_justified outcome targets)) :=
  moves_preorder _ (resolution_justified_quiet outcome targets).

Section Outcome.
Variable outcome : EvaluationOutcome.
Variable policy : ObservatoryPolicy.
Variable now : NdoTime.

Lemma apply_targets_spec p all targets s :
  let J := resolution_justified outcome all in
  ledger_ok s.1 -> stored_or p s.1 -> Forall (fun e => In e all) targets ->
  vsize (lg_findings s.1) +
    sum_by (fun e => vcount (fun d => p (draft_id d)) (te_drafts e)) targets
    <= max_findings (lg_limits s.1) ->
  let l' := (apply_targets outcome policy now targets s).2.1 in
  moves J s.1 l' /\ ledger_ok l' /\
  (forall id f, mfind id (lg_findings s.1) = Some f ->
     Forall (fun e => fi_target (fd_identity f) <> te_target e /\ ~ drafted e id) targets ->
     mfind id (lg_findings l') = Some f).
Proof.
  cbv zeta. revert s. induction targets as [|e targets IH]; intros s Hok Hp Hin Hroom; cbn [apply_targets].
  { cbn [snd]. split; [reflexivity|]. done. }
  inversion_clear Hin as [|? ? He Hin'].
  rewrite sum_by_cons in Hroom.
  assert (Hpos : 0 <= sum_by (fun e => vcount (fun d => p (draft_id d)) (te_drafts e)) targets).
  { clear. induction targets as [|e l IH]; [done|]. rewrite sum_by_cons.
    pose proof (vcount_bound (fun d => p (draft_id d)) (te_drafts e)). lia. }
  destruct (apply_target_spec (resolution_justified outcome all)
    (resolution_justified_quiet outcome all) outcome policy now p e s Hok Hp) as [(M & O & N) F]; [lia| |].
  { intros id f Hd Ht Hn Hc. split; [done|]. apply List.Exists_exists. by exists e. }
  destruct (apply_target outcome policy now e s) as [status s1]. cbn [snd] in *.
  assert (Hl : lg_limits s1.1 = lg_limits s.1) by apply M.
  destruct (negb (status_ok status)); cbn [snd].
  - split; [done|]. split; [done|]. intros id f Hf Hall. inversion_clear Hall as [|? ? [? ?] _]. by apply F.
  - destruct (IH s1) as (M2 & O2 & F2); [done|by eapply stored_or_moves|done|rewrite Hl; lia|].
    split; [by etransitivity|].
    split; [done|]. intros id f Hf Hall. inversion_clear Hall as [|? ? [? ?] Hall'].
    apply F2; [by apply F|done].
Qed.

(** The evaluations that the committed baselines accept. *)
Definition accepted_targets (l : FindingLedger) : list TargetEvaluation :=
  List.filter (fence_accepts l) (out_targets outcome).

Lemma ApplyEvaluation_spec l : ledger_ok l ->
  let J := resolution_justified outcome (accepted_targets l) in
  let l' := (ApplyEvaluation outcome policy now l).2 in
  moves J l l' /\ ledger_ok l' /\
  (forall id f, mfind id (lg_findings l) = Some f ->
     Forall (fun e => fi_target (fd_identity f) <> te_target e /\ ~ drafted e id) (accepted_targets l) ->
     mfind id (lg_findings l') = Some f \/
     exists at_, fd_suppression f <> None /\ fd_suppression_expires_at f = Some at_ /\ at_ <= now /\
       status_ok (ApplyEvaluation outcome policy now l).1.1 = true /\
       mfind id (lg_findings l') = Some (suppression_lifted (lg_limits l) now at_ f)).
Proof.
  intros Hok. cbv zeta. unfold ApplyEvaluation.
  destruct (_ <? _) eqn:Eroom; [split; [apply moves_same; [reflexivity|done]|]; split; [done|]; by left|].
  breflect. change (List.filter (fence_accepts l) (out_targets outcome)) with (accepted_targets l).
  set (report := empty_apply_report <| rp_fenced_targets := _ |>).
  destruct (apply_targets_spec (fun id => negb (mmem id (lg_findings l))) (accepted_targets l)
    (accepted_targets l) (l, report)) as (M & O & F).
  { done. }
  { intros id Hid. by apply negb_false_iff in Hid. }
  { by apply Forall_forall; intros e He; apply list_elem_of_In. }
  { exact Eroom. }
  destruct (apply_targets outcome policy now (accepted_targets l) (l, report)) as [status [l1 report1]].
  cbn [fst snd] in *. destruct (negb (status_ok status)); cbn [snd].
  { split; [done|]. split; [done|]. intros id f Hf Hall. left. by apply F. }
  pose proof (fun id f => ExpireSuppressions_exact now l1 id f) as X.
  destruct (ExpireSuppressions_step now l1) as (E2 & O2 & K2 & I2).
  set (l2 := (ExpireSuppressions now l1).2) in *. split; [|split].
  - etransitivity; [exact M|]. split.
    + evolve. exact E2.
    + intros id f' Hf' _. destruct (I2 id f' Hf') as (f & Hf & Ht). left. exists f.
      split; [done|]. by apply quiet_same_truth.
  - apply TrimTimelineIfNeeded_ok, bump_revision_ok. auto.
  - intros id f Hf Hall. specialize (X id f (F id f Hf Hall)). destruct M as [[Hl _ _ _] _].
    rewrite Hl in X. destruct (expired_suppression now f) as [at_|]; [right|by left].
    exists at_. destruct X as (? & ? & ? & ?). by split_and!.
Qed.
End Outcome.

(** ** What records evidence

    Only [RecordObservation] and [InvalidateRetainedEvidence] touch the windows
    of retained observations. *)

Lemma mfor_frame {K V S X} `{Ordered K} (g : S -> X) (body : K -> V -> S -> V * S) m s :
  (forall k v s, g (body k v s).2 = g s) -> g (mfor body m s).2 = g s.
Proof.
  intros Hb. revert s. induction m as [|[k v] m IH]; intros s; [done|].
  destruct (mfor_cons body k v m s) as [_ ->]. by rewrite IH.
Qed.

Lemma foldl_frame {A S X} (g : S -> X) (body : S -> A -> S) l s :
  (forall s x, g (body s x) = g s) -> g (foldl body s l) = g s.
Proof. intros Hb. revert s. induction l as [|x l IH]; intros s; cbn; [done|]. by rewrite IH. Qed.

Lemma CommitIntent_windows doc now report l :
  lg_windows (CommitIntent doc now report l).2 = lg_windows l.
Proof.
  unfold CommitIntent. destruct (negb _); [done|].
  destruct (FindBaseline l (doc_target doc)) as [b|]; [|by destruct (_ <=? _)].
  destruct (_ <? _); [done|]. destruct (_ <? base_generation b); [done|].
  destruct (_ =? base_generation b); [by destruct (eqb _ _)|].
  unfold RebaseFindingsForTarget. set (l1 := l <| lg_baselines ::= _ |>).
  match goal with |- context [mfor ?body ?m ?s0] =>
    pose proof (mfor_frame (fun s => lg_windows s.1.1) body m s0) as Hw;
    destruct (mfor body m s0) as [findings [[l' report'] drop]] end.
  cbn [fst snd] in Hw |- *. change (lg_windows l' = lg_windows l1). apply Hw. clear.
  intros id f [[l0 report0] drop]. unfold rebase_entry, rebase_finding. cbn [fst snd].
  repeat (destruct (negb _); [done|]). destruct (_ =? _); [done|].
  match goal with |- context [leave_group ?f ?d] => by destruct (leave_group f d) end.
Qed.

Lemma ExpireSuppressions_windows now l : lg_windows (ExpireSuppressions now l).2 = lg_windows l.
Proof.
  unfold ExpireSuppressions.
  pose proof (mfor_frame (fun s : FindingLedger * Z => lg_windows s.1) (expire_entry now) (lg_findings l) (l, 0)) as Hw.
  destruct (mfor _ _ _) as [findings [l' expired]]. cbn [fst snd] in Hw |- *.
  rewrite <- Hw; [by destruct (0 <? expired)|]. clear. intros id f [k n].
  unfold expire_entry. by destruct (expired_suppression now f).
Qed.

Section ApplyWindows.
Variables (outcome : EvaluationOutcome) (policy : ObservatoryPolicy) (now : NdoTime).
Local Notation windows s := (lg_windows (fst s)).

Lemma apply_draft_windows e s entry : windows (apply_draft outcome policy now e s entry) = windows s.
Proof.
  unfold apply_draft. destruct s as [l report]. cbn [fst].
  destruct (mfind (fst entry) (lg_findings l)) as [f|].
  - unfold refresh_finding, note_change.
    match goal with |- context [fst ?x] => set (goal := x) end.
    assert (Hr : forall g k, lg_windows (recheck_suppression policy now g k).2 = lg_windows k).
    { intros g k. unfold recheck_suppression. destruct (_ && _); [|done]. by destruct (FindSuppression _ _ _ _ _ _ _). }
    unfold goal. clear goal.
    destruct (is_closed _); [|destruct (material_change _ _)]; cbn;
      match goal with |- context [recheck_suppression ?p ?n ?g ?k] =>
        pose proof (Hr g k) as Hw; destruct (recheck_suppression p n g k) end; exact Hw.
  - unfold create_finding. by destruct (open_or_suppress _ _ _ _ _) as [[f event] report'].
Qed.

Lemma settle_finding_windows e drafts s id :
  windows (fst (settle_finding outcome now e drafts s id)) = windows (fst s).
Proof.
  destruct s as [[l report] drop]. unfold settle_finding. cbn [fst].
  destruct (mfind id (lg_findings l)) as [f|]; [|done]. destruct (negb _); [done|].
  destruct (existsb _ _).
  - unfold reclassify_finding. by match goal with |- context [leave_group ?f ?d] => destruct (leave_group f d) end.
  - destruct (_ <=? _); [|done]. unfold resolve_finding.
    by match goal with |- context [leave_group ?f ?d] => destruct (leave_group f d) end.
Qed.

Lemma RefreshGroups_windows target report l :
  lg_windows (RefreshGroups now target report l).2 = lg_windows l.
Proof.
  unfold RefreshGroups. destruct (produce_groups _ _ _ _ _) as [status scan].
  destruct (negb _); [done|]. cbv zeta.
  match goal with |- context [mfor ?body ?m ?s] =>
    pose proof (mfor_frame lg_windows body m s) as Hw; destruct (mfor body m s) as [findings l'] end.
  cbn [fst snd] in Hw |- *. change (lg_windows l' = lg_windows l). apply Hw. clear.
  intros id f k. unfold assign_entry. repeat (destruct (negb _); [done|]).
  destruct (mfind _ _); [by destruct (eqb _ _)|done].
Qed.

Lemma apply_targets_windows targets s : windows (apply_targets outcome policy now targets s).2 = windows s.
Proof.
  assert (Ht : forall e s, windows (apply_target outcome policy now e s).2 = windows s).
  { clear. intros e s. unfold apply_target.
    pose proof (foldl_frame (fun s : LedgerAndReport => windows s) (apply_draft outcome policy now e)
      (draft_map (te_drafts e)) s (fun s x => apply_draft_windows e s x)) as H1.
    destruct (foldl (apply_draft _ _ _ e) s _) as [l1 report1]. cbn [fst] in H1.
    match goal with |- context [foldl (settle_finding ?o ?n e ?d) ?s0 ?ids] =>
      pose proof (foldl_frame (fun s : SettleState => windows (fst s)) (settle_finding o n e d) ids s0
        (fun s x => settle_finding_windows e d s x)) as H2;
      destruct (foldl (settle_finding o n e d) s0 ids) as [[l2 report2] drop] end.
    cbn [fst] in H2. pose proof (RefreshGroups_windows (te_target e) report2 l2) as H3.
    destruct (RefreshGroups _ _ _ _) as [[status report3] l3]. cbn [snd] in H3.
    destruct (negb _); cbn [fst snd]; [congruence|].
    change (lg_windows l3 = windows s). congruence. }
  revert s. induction targets as [|e targets IH]; intros s; cbn [apply_targets]; [done|].
  pose proof (Ht e s) as He. destruct (apply_target _ _ _ e s) as [status s']. cbn [snd] in He.
  destruct (negb _); [done|]. by rewrite IH.
Qed.

Lemma ApplyEvaluation_windows l : lg_windows (ApplyEvaluation outcome policy now l).2 = lg_windows l.
Proof.
  unfold ApplyEvaluation. destruct (_ <? _); [done|].
  match goal with |- context [apply_targets ?o ?p ?n ?ts ?s] =>
    pose proof (apply_targets_windows ts s) as H; destruct (apply_targets o p n ts s) as [status [l' report]] end.
  cbn [fst snd] in H. destruct (negb _); [done|].
  change (lg_windows (ExpireSuppressions now l').2 = lg_windows l). by rewrite ExpireSuppressions_windows.
Qed.
End ApplyWindows.

Lemma acting_windows id l (r : Status * FindingLedger) :
  (let '(status, l') := r in if status_ok status then acts_on id l l' else l' = l) ->
  lg_windows r.2 = lg_windows l.
Proof.
  destruct r as [status l']. destruct (status_ok status); [|by intros ->].
  by intros (f & f' & _ & _ & _ & _ & H & _).
Qed.
