(* ===== verification/LedgerProps.v ===== *)
(** * What the ledger guarantees

    [Mutation] lists the mutators of a ledger in service and [exec] runs one;
    [Restoration] lists what ledger.hpp calls recovery-only mutation, with
    [SetLimits]; a [LedgerCall] is one or the other, so that it covers every public
    operation that changes a ledger.  The theorems state the invariant of the
    ledgers that calls produce from an empty one, how a ledger in service can
    evolve, when a finding may be resolved, what fencing protects, what operator
    actions leave alone, and what admitting intent and observations does on every
    branch. *)

From Stdlib Require Import ZArith Lia List Bool Sorting.Sorted String.
From stdpp Require Import base tactics list strings.
From S2P Require Import Prelude Containers Text Hash Status Time Identity Double Value Drift Intent.
From S2P Require Import Observation Freshness Policy Comparison Finding Ledger LedgerApply LedgerFacts.
From S2P Require Import ApplyFacts.
#[local] Open Scope string_scope.
#[local] Open Scope Z_scope.
#[local] Arguments String.append : simpl nomatch.

(** ** Runs of the ledger *)

(** The mutators of a ledger in service. *)
Inductive Mutation :=
| Mut_CommitIntent (doc : IntentGenerationDocument) (now : NdoTime)
| Mut_RecordObservation (snapshot : ObservationSnapshot) (verdict : FreshnessVerdict) (recovered : bool)
| Mut_InvalidateRetainedEvidence (reason : ReasonCode) (now : NdoTime)
| Mut_ApplyEvaluation (outcome : EvaluationOutcome) (policy : ObservatoryPolicy) (now : NdoTime)
| Mut_Suppress (id : Digest) (actor reason : string) (expires_at : option NdoTime) (now : NdoTime)
| Mut_ClearSuppression (id : Digest) (actor : string) (now : NdoTime)
| Mut_Acknowledge (id : Digest) (actor reason : string) (now : NdoTime)
| Mut_ClearAcknowledgement (id : Digest) (actor : string) (now : NdoTime)
| Mut_ExpireSuppressions (now : NdoTime)
| Mut_RecordEvent (entry : TimelineEntry).

Definition exec (l : FindingLedger) (m : Mutation) : FindingLedger :=
  match m with
  | Mut_CommitIntent doc now => snd (CommitIntent doc now (mkCommitReport "" 0 0 0 0 0 false) l)
  | Mut_RecordObservation s v r =>
      snd (RecordObservation s v r (mkAdmission "" "" "" 0 FS_Unknown false false) l)
  | Mut_InvalidateRetainedEvidence reason now => snd (InvalidateRetainedEvidence reason now l)
  | Mut_ApplyEvaluation outcome policy now => snd (ApplyEvaluation outcome policy now l)
  | Mut_Suppress id actor reason expires_at now => snd (Suppress id actor reason expires_at now l)
  | Mut_ClearSuppression id actor now => snd (ClearSuppression id actor now l)
  | Mut_Acknowledge id actor reason now => snd (Acknowledge id actor reason now l)
  | Mut_ClearAcknowledgement id actor now => snd (ClearAcknowledgement id actor now l)
  | Mut_ExpireSuppressions now => snd (ExpireSuppressions now l)
  | Mut_RecordEvent entry => RecordEvent entry l
  end.

(** The recovery-only mutators, and the limits. *)
Inductive Restoration :=
| Res_SetLimits (limits : RuntimeLimits)
| Res_RestoreBaseline (baseline : IntentBaseline)
| Res_RestoreObservation (observation : RetainedObservation)
| Res_RestoreFinding (finding : Finding)
| Res_RestoreGroup (group : RootCauseGroup)
| Res_RestoreTimeline (entry : TimelineEntry)
| Res_RestoreRevision (revision : Z)
| Res_RestoreSuppressionSequence (sequence : Z).

Definition restore (l : FindingLedger) (r : Restoration) : FindingLedger :=
  match r with
  | Res_SetLimits limits => SetLimits limits l
  | Res_RestoreBaseline b => snd (RestoreBaseline b l)
  | Res_RestoreObservation o => snd (RestoreObservation o l)
  | Res_RestoreFinding f => snd (RestoreFinding f l)
  | Res_RestoreGroup g => snd (RestoreGroup g l)
  | Res_RestoreTimeline entry => snd (RestoreTimeline entry l)
  | Res_RestoreRevision revision => snd (RestoreRevision revision l)
  | Res_RestoreSuppressionSequence sequence => snd (RestoreSuppressionSequence sequence l)
  end.

(** Every public operation that changes a ledger. *)
Inductive LedgerCall :=
| LC_Mutation (m : Mutation)
| LC_Restoration (r : Restoration).

Definition exec_ledger_call (l : FindingLedger) (c : LedgerCall) : FindingLedger :=
  match c with LC_Mutation m => exec l m | LC_Restoration r => restore l r end.

(** Limits that are sizes. *)
Definition limits_ok (limits : RuntimeLimits) : Prop :=
  0 <= max_targets limits /\ 0 <= max_retained_snapshots_per_source limits /\
  0 <= max_findings limits /\ 0 <= max_groups limits.

Lemma empty_ledger_ok limits : limits_ok limits -> ledger_ok (empty_ledger limits).
Proof. intros (? & ? & ? & ?). constructor; cbn; auto with ndo; apply mall_nil. Qed.

Lemma acting_step id l (r : Status * FindingLedger) : ledger_ok l ->
  (let '(status, l') := r in if status_ok status then acts_on id l l' else l' = l) ->
  evolves l r.2 /\ ledger_ok r.2.
Proof.
  destruct r as [status l']. intros H. destruct (status_ok status).
  - by apply acts_on_step.
  - by intros ->.
Qed.

Lemma exec_step l m : ledger_ok l -> limits_ok (lg_limits l) ->
  evolves l (exec l m) /\ ledger_ok (exec l m).
Proof.
  intros H (_ & Hw & _). destruct m; cbn [exec].
  - by apply CommitIntent_step.
  - by apply RecordObservation_step.
  - by apply InvalidateRetainedEvidence_step.
  - destruct (ApplyEvaluation_spec outcome policy now l H) as ([? _] & ? & _). done.
  - by apply (acting_step id), Suppress_acts.
  - by apply (acting_step id), ClearSuppression_acts.
  - by apply (acting_step id), Acknowledge_acts.
  - by apply (acting_step id), ClearAcknowledgement_acts.
  - destruct (ExpireSuppressions_step now l) as (? & ? & _). auto.
  - by apply RecordEvent_step.
Qed.

Lemma run_step l ms : ledger_ok l -> limits_ok (lg_limits l) ->
  evolves l (foldl exec l ms) /\ ledger_ok (foldl exec l ms).
Proof.
  revert l. induction ms as [|m ms IH]; intros l H Hl; cbn; [by split|].
  destruct (exec_step l m H Hl) as [E1 H1]. destruct (IH (exec l m) H1) as [E2 H2].
  { destruct E1 as [-> _ _ _]. done. }
  split; [by etransitivity|done].
Qed.

(** *** Recovery *)

(** Limits that hold what is stored. *)
Definition limits_fit (limits : RuntimeLimits) (l : FindingLedger) : Prop :=
  limits_ok limits /\ vsize (lg_baselines l) <= max_targets limits /\
  mall (fun _ w => vsize w <= max_retained_snapshots_per_source limits) (lg_windows l) /\
  vsize (lg_findings l) <= max_findings limits /\ vsize (lg_groups l) <= max_groups limits.

(** What a recovery-only mutator leaves to its caller. *)
Definition admissible (l : FindingLedger) (c : LedgerCall) : Prop :=
  match c with
  | LC_Restoration (Res_SetLimits limits) => limits_fit limits l
  | LC_Restoration (Res_RestoreObservation _) => 1 <= max_retained_snapshots_per_source (lg_limits l)
  | LC_Restoration (Res_RestoreFinding f) => ComputeId (fd_identity f) = fd_id f
  | _ => True
  end.

(** An observation is restored after those of its window it is not older than. *)
Definition in_order (l : FindingLedger) (c : LedgerCall) : Prop :=
  match c with
  | LC_Restoration (Res_RestoreObservation r) =>
      Forall (fun x => retained_less r x = false)
        (mget [] (snap_target (ro_snapshot r), snap_source (ro_snapshot r)) (lg_windows l))
  | _ => True
  end.

(** Every call of the sequence is made in a ledger where [P] holds of it. *)
Fixpoint along (P : FindingLedger -> LedgerCall -> Prop) (l : FindingLedger) (cs : list LedgerCall) : Prop :=
  match cs with
  | [] => True
  | c :: cs => P l c /\ along P (exec_ledger_call l c) cs
  end.

Lemma insert_within {K V} `{Ordered K} limit k (v : V) (m : omap K V) : msorted m -> vsize m <= limit ->
  (limit <=? vsize m) && negb (mmem k m) = false -> vsize (minsert k v m) <= limit.
Proof.
  intros Hs Hn E. rewrite vsize_minsert by done. destruct (mmem k m); [done|].
  rewrite andb_true_r in E. breflect. lia.
Qed.

(** A full window loses its oldest observation before one is appended. *)
Lemma restored_window_size limit (w : list RetainedObservation) r : 1 <= limit -> vsize w <= limit ->
  vsize ((if limit <=? vsize w then tl w else w) ++ [r])%list <= limit.
Proof.
  intros H1 Hw. destruct (Z.leb_spec limit (vsize w)); unfold vsize in *; rewrite length_app; cbn [length]; [|lia].
  destruct w; cbn [tl length] in *; lia.
Qed.

Lemma Forall_tl {A} (P : A -> Prop) (l : list A) : Forall P l -> Forall P (tl l).
Proof. by destruct 1. Qed.

Lemma RestoreObservation_ok r l : ledger_ok l -> 1 <= max_retained_snapshots_per_source (lg_limits l) ->
  ledger_ok (snd (RestoreObservation r l)).
Proof.
  intros H H1. unfold RestoreObservation. cbn [snd]. set (key := (snap_target _, snap_source _)).
  destruct (mget_window_ok l key H) as [Hw Hn]; [lia|]. apply put_window_ok; [done| |by apply restored_window_size].
  apply Forall_app. split; [destruct (_ <=? _); [by apply Forall_tl|done]|]. by constructor.
Qed.

(** A finding is restored, changed in its freshness and its timeline, or not at all. *)
Lemma RestoreFinding_stores f l :
  (RestoreFinding f l).2 = l \/
  exists g k, (RestoreFinding f l).2 = k <| lg_findings ::= minsert (fd_id f) g |> /\
    fd_id g = fd_id f /\ fd_identity g = fd_identity f /\
    k = l <| lg_timeline_sequence := lg_timeline_sequence k |>
          <| lg_suppressions_active := lg_suppressions_active k |> /\
    (max_findings (lg_limits l) <=? vsize (lg_findings l)) && negb (mmem (fd_id f) (lg_findings l)) = false.
Proof.
  unfold RestoreFinding. destruct ((_ <=? _) && negb (mmem _ _)) eqn:E; [by left|].
  destruct (Digest_is_set (fd_id f)); cbn [negb]; [right|by left].
  destruct (IsLiveState _ && _); destruct (has_suppression _); eexists _, _; (split; [reflexivity|]);
    by destruct l.
Qed.

Lemma RestoreFinding_ok f l : ledger_ok l -> ComputeId (fd_identity f) = fd_id f ->
  ledger_ok (snd (RestoreFinding f l)).
Proof.
  intros H Hid. destruct (RestoreFinding_stores f l) as [->|(g & k & -> & Hg1 & Hg2 & -> & E)]; [done|].
  destruct H. constructor; cbn; auto with ndo; [|by apply insert_within].
  apply mall_insert; [|done]. split; congruence.
Qed.

(** A restoration that is admissible keeps the ledger well formed. *)
Lemma restore_ok l r : ledger_ok l -> limits_ok (lg_limits l) -> admissible l (LC_Restoration r) ->
  ledger_ok (restore l r) /\ limits_ok (lg_limits (restore l r)).
Proof.
  intros H Hl Ha. destruct r; cbn [restore admissible] in *.
  - destruct Ha as (Hok & H1 & H2 & H3 & H4). split; [|done]. destruct H. by constructor.
  - unfold RestoreBaseline. destruct (_ && _) eqn:E; [done|]. split; [|done]. destruct H.
    constructor; cbn; eauto using minsert_sorted, mall_insert, insert_within.
  - split; [by apply RestoreObservation_ok|done].
  - split; [by apply RestoreFinding_ok|].
    by destruct (RestoreFinding_stores finding l) as [->|(g & k & -> & _ & _ & -> & _)].
  - unfold RestoreGroup. destruct (_ && _) eqn:E; [done|]. split; [|done]. destruct H.
    constructor; cbn; eauto using minsert_sorted, mall_insert, insert_within.
  - split; [|done]. apply TrimTimelineIfNeeded_ok. by apply (ledger_ok_same l).
  - split; [|done]. by apply (ledger_ok_same l).
  - split; [|done]. by apply (ledger_ok_same l).
Qed.

Lemma restore_ordered l r : windows_ordered l -> in_order l (LC_Restoration r) -> windows_ordered (restore l r).
Proof.
  intros H Ho. destruct r; cbn [restore in_order] in *; try done.
  - unfold RestoreBaseline. by destruct (_ && _).
  - unfold RestoreObservation. cbn [snd]. apply mall_insert; [|done].
    set (key := (snap_target _, snap_source _)) in *. set (w := mget [] key (lg_windows l)) in *.
    assert (Hw : window_ordered w)
      by (unfold w, mget; destruct (mfind key (lg_windows l)) eqn:E; [by apply (H key)|constructor]).
    assert (Hsnoc : forall v : list RetainedObservation, window_ordered v -> forall x,
      Forall (fun y => retained_less observation y = false) v -> ro_snapshot x = ro_snapshot observation ->
      window_ordered (v ++ [x])%list).
    { intros v Hv x Hx Ex. unfold window_ordered in *. induction Hv as [|y v Hv IH Hf]; [by repeat constructor|].
      apply Forall_cons in Hx as [Hy Hx]. cbn. constructor; [by apply IH|]. apply Forall_app. split; [done|].
      constructor; [|constructor]. unfold retained_less in *. by rewrite Ex. }
    apply Hsnoc; [|destruct (_ <=? _); [by apply Forall_tl|done]|done].
    destruct (_ <=? _); [|done]. destruct Hw; [constructor|done].
  - by destruct (RestoreFinding_stores finding l) as [->|(g & k & -> & _ & _ & -> & _)].
  - unfold RestoreGroup. by destruct (_ && _).
Qed.

Lemma exec_ordered l m : windows_ordered l -> windows_ordered (exec l m).
Proof.
  intros H. assert (Hact : forall id (r : Status * FindingLedger),
    (let '(status, l') := r in if status_ok status then acts_on id l l' else l' = l) -> windows_ordered r.2)
    by (intros id r Hr; eapply windows_ordered_same; [by eapply acting_windows|done]).
  destruct m; cbn [exec].
  - by eapply windows_ordered_same; [apply CommitIntent_windows|].
  - by apply RecordObservation_ordered.
  - by apply InvalidateRetainedEvidence_ordered.
  - by eapply windows_ordered_same; [apply ApplyEvaluation_windows|].
  - apply (Hact id), Suppress_acts.
  - apply (Hact id), ClearSuppression_acts.
  - apply (Hact id), Acknowledge_acts.
  - apply (Hact id), ClearAcknowledgement_acts.
  - by eapply windows_ordered_same; [apply ExpireSuppressions_windows|].
  - done.
Qed.

Lemma calls_step l cs : ledger_ok l -> limits_ok (lg_limits l) -> along admissible l cs ->
  ledger_ok (foldl exec_ledger_call l cs) /\
  (windows_ordered l -> along in_order l cs -> windows_ordered (foldl exec_ledger_call l cs)).
Proof.
  revert l. induction cs as [|c cs IH]; intros l H Hl Ha; cbn [foldl along] in *; [done|]. destruct Ha as [Hc Ha].
  assert (Hstep : ledger_ok (exec_ledger_call l c) /\ limits_ok (lg_limits (exec_ledger_call l c))).
  { destruct c as [m|r]; cbn [exec_ledger_call] in *; [|by apply restore_ok].
    destruct (exec_step l m H Hl) as [E Ho]. split; [done|]. by rewrite (ev_limits _ _ E). }
  destruct Hstep as [H' Hl']. destruct (IH _ H' Hl' Ha) as [Hok Hord]. split; [done|]. intros Hw [Ho Hos].
  apply Hord; [|done]. destruct c as [m|r]; [by apply exec_ordered|by apply restore_ordered].
Qed.

(** A ledger in service needs nothing of its callers. *)
Lemma mutations_admissible l ms : foldl exec_ledger_call l (map LC_Mutation ms) = foldl exec l ms /\
  along admissible l (map LC_Mutation ms) /\ along in_order l (map LC_Mutation ms).
Proof. revert l. induction ms as [|m ms IH]; intros l; [done|]. destruct (IH (exec l m)) as (E & Ha & Ho). done. Qed.

(** C4. Ledgers are well formed: their maps are sorted and keyed by the identity
    of what they hold (a finding by the digest of its own identity), every window
    holds the observations of its own target and source, and baselines, windows,
    findings and groups stay within the limits; and windows are in order.  From an
    empty ledger, any sequence of the mutators of a ledger in service gives such a
    ledger.  When recovery-only mutators and changes of the limits are mixed in,
    the sequence gives a well-formed ledger as long as each one is admissible where
    it is made: a finding is restored with the identity its content computes to, an
    observation under limits that retain one, and limits fit what is stored; and
    windows are in order as long as no observation is restored after a newer one
    of its window, which the recovery does not check. *)
Theorem reachable_ledger_ok (limits : RuntimeLimits) (Hl : limits_ok limits) :
  (forall ms : list Mutation,
     let l := foldl exec (empty_ledger limits) ms in ledger_ok l /\ windows_ordered l) /\
  (forall cs : list LedgerCall, along admissible (empty_ledger limits) cs ->
     let l := foldl exec_ledger_call (empty_ledger limits) cs in
     ledger_ok l /\ (along in_order (empty_ledger limits) cs -> windows_ordered l)).
Proof.
  assert (He : windows_ordered (empty_ledger limits)) by apply mall_nil.
  assert (Hcalls : forall cs, along admissible (empty_ledger limits) cs ->
     let l := foldl exec_ledger_call (empty_ledger limits) cs in
     ledger_ok l /\ (along in_order (empty_ledger limits) cs -> windows_ordered l)).
  { intros cs Ha. destruct (calls_step _ cs (empty_ledger_ok limits Hl) Hl Ha) as [Hok Ho]. auto. }
  split; [|exact Hcalls]. intros ms. destruct (mutations_admissible (empty_ledger limits) ms) as (E & Ha & Ho).
  cbv zeta. rewrite <- E. destruct (Hcalls _ Ha). auto.
Qed.

(** C33. History is never rewritten: along any sequence of the mutators of a
    ledger in service, which are all but the recovery-only ones, every finding is
    kept with its identity and the time it was first seen, a committed baseline is only ever replaced by one of a later generation and no
    older epoch, and the global timeline is only appended to, with consecutive
    sequence numbers, and trimmed at its front. *)
Theorem run_evolves (l : FindingLedger) (H : ledger_ok l) (Hl : limits_ok (lg_limits l))
    (ms : list Mutation) : evolves l (foldl exec l ms).
Proof. by apply run_step. Qed.

(** C2. A finding is never resolved by the absence of evidence: when an
    evaluation leaves a finding resolved that was not resolved before, some
    accepted evaluation of the finding's target was decidable and did not report
    the finding, and the agreements counted in a row reach what the outcome
    requires. *)
Theorem ApplyEvaluation_resolution_justified (outcome : EvaluationOutcome) (policy : ObservatoryPolicy)
    (now : NdoTime) (l : FindingLedger) (H : ledger_ok l) (id : Digest) (f' : Finding) :
  mfind id (lg_findings (ApplyEvaluation outcome policy now l).2) = Some f' ->
  fd_state f' = St_Resolved ->
  (exists f, mfind id (lg_findings l) = Some f /\ fd_state f = St_Resolved) \/
  (required_confirmations outcome <= fd_resolution_confirmations f' /\
   Exists (fun e => fence_accepts l e = true /\ te_compliance_decidable e = true /\
     fi_target (fd_identity f') = te_target e /\ ~ drafted e id) (out_targets outcome)).
Proof.
  intros Hf Hs. destruct (ApplyEvaluation_spec outcome policy now l H) as ([_ Hr] & _ & _).
  destruct (Hr id f' Hf Hs) as [(f & Hf0 & _ & Hq)|[Hc He]].
  - left. exists f. split; [done|]. by apply Hq.
  - right. split; [done|]. apply List.Exists_exists in He as (e & He & Hd).
    apply filter_In in He as [He Ha]. apply List.Exists_exists. by exists e.
Qed.

(** C23. Fencing protects findings: a finding whose target no accepted evaluation
    is about, because the evaluations of its target were made against a baseline
    that has since moved or there are none, is left exactly as it was, or, when it
    has a suppression whose time has come and the outcome is applied, exactly with
    that suppression lifted.  (No accepted evaluation of another target drafts the
    identity of the finding; it could only do so by a collision of SHA-256, which
    is not assumed away.) *)
Theorem ApplyEvaluation_fenced (outcome : EvaluationOutcome) (policy : ObservatoryPolicy)
    (now : NdoTime) (l : FindingLedger) (H : ledger_ok l) (id : Digest) (f : Finding)
    (Hf : mfind id (lg_findings l) = Some f)
    (Hout : Forall (fun e => fence_accepts l e = true ->
       fi_target (fd_identity f) <> te_target e /\ ~ drafted e id) (out_targets outcome)) :
  let '(status, _, l') := ApplyEvaluation outcome policy now l in
  mfind id (lg_findings l') = Some f \/
  exists at_, fd_suppression f <> None /\ fd_suppression_expires_at f = Some at_ /\ at_ <= now /\
    status_ok status = true /\
    mfind id (lg_findings l') = Some (suppression_lifted (lg_limits l) now at_ f).
Proof.
  destruct (ApplyEvaluation_spec outcome policy now l H) as (_ & _ & F). specialize (F id f Hf).
  destruct (ApplyEvaluation outcome policy now l) as [[status report] l']. apply F.
  unfold accepted_targets. rewrite Forall_forall in Hout |- *. intros e He.
  apply list_elem_of_In, filter_In in He as [He Ha]. apply Hout; [by apply list_elem_of_In|done].
Qed.

(** C31. Suppressing or acknowledging a finding, and ending either, never changes
    the compliance truth: each action refuses and leaves the ledger as it was,
    or changes one finding, keeping its class, severity, evidence, values,
    counters, relevance to compliance and liveness, and nothing else but the
    timeline, the revision and the suppression counter. *)
Theorem operator_actions_keep_truth (l : FindingLedger) (id : Digest) (m : Mutation) :
  (exists actor reason expires_at now, m = Mut_Suppress id actor reason expires_at now) \/
  (exists actor now, m = Mut_ClearSuppression id actor now) \/
  (exists actor reason now, m = Mut_Acknowledge id actor reason now) \/
  (exists actor now, m = Mut_ClearAcknowledgement id actor now) ->
  exec l m = l \/ acts_on id l (exec l m).
Proof.
  intros [(a & r & x & n & ->)|[(a & n & ->)|[(a & r & n & ->)|(a & n & ->)]]]; cbn [exec].
  - pose proof (Suppress_acts id a r x n l) as H. destruct (Suppress id a r x n l) as [s l'].
    destruct (status_ok s); auto.
  - pose proof (ClearSuppression_acts id a n l) as H. destruct (ClearSuppression id a n l) as [s l'].
    destruct (status_ok s); auto.
  - pose proof (Acknowledge_acts id a r n l) as H. destruct (Acknowledge id a r n l) as [s l'].
    destruct (status_ok s); auto.
  - pose proof (ClearAcknowledgement_acts id a n l) as H.
    destruct (ClearAcknowledgement id a n l) as [s l']. destruct (status_ok s); auto.
Qed.

(** ** Admitting intent *)

(** When a document is committed or recognised as the committed one. *)
Definition commit_accepts (l : FindingLedger) (doc : IntentGenerationDocument) : Prop :=
  status_ok (Intent_Validate (lg_limits l) doc) = true /\
  match FindBaseline l (doc_target doc) with
  | None => vsize (lg_baselines l) < max_targets (lg_limits l)
  | Some b =>
      base_epoch b <= doc_epoch doc /\
      (base_generation b < doc_generation doc \/
       base_generation b = doc_generation doc /\
       base_content_digest b = Intent_ComputeContentDigest doc)
  end.

(** The committed baseline has the generation and the content of the document. *)
Definition already_committed (l : FindingLedger) (doc : IntentGenerationDocument) : Prop :=
  exists b, FindBaseline l (doc_target doc) = Some b /\ base_generation b = doc_generation doc /\
    base_content_digest b = Intent_ComputeContentDigest doc.

Lemma rebase_entry_generation baseline target generation now id f s :
  let f' := (rebase_entry baseline target generation now id f s).1 in
  fi_target (fd_identity f') = target -> IsLiveState (fd_state f') = true ->
  fd_baseline_generation f' = generation.
Proof.
  cbv zeta. unfold rebase_entry. destruct (eqb (fi_target (fd_identity f)) target) eqn:Et; cbn [negb].
  2: { intros E. by apply eqb_neq in Et. }
  destruct (IsLiveState (fd_state f)) eqn:El; cbn [negb fst]; [|congruence].
  destruct (Z.eqb_spec (fd_baseline_generation f) generation); [done|].
  destruct s as [[l report] drop]. unfold rebase_finding.
  set (g := (if still_managed baseline f then _ else _) <| fd_last_evaluated := now |>).
  pose proof (leave_group_state g drop) as (_ & Hs & _). destruct (leave_group g drop) as [h drop'].
  cbn in *. intros _. rewrite Hs. unfold g. by destruct (still_managed baseline f).
Qed.

Lemma RebaseFindingsForTarget_facts target generation now report l :
  let r := RebaseFindingsForTarget target generation now report l in
  lg_baselines r.2 = lg_baselines l /\
  cr_committed_generation r.1 = cr_committed_generation report /\
  cr_duplicate_identical r.1 = cr_duplicate_identical report /\
  mall (fun _ f => fi_target (fd_identity f) = target -> IsLiveState (fd_state f) = true ->
          fd_baseline_generation f = generation) (lg_findings r.2).
Proof.
  unfold RebaseFindingsForTarget. set (body := rebase_entry (FindBaseline l target) target generation now).
  pose proof (mfor_find_inv body (lg_findings l) (l, report, [])) as Hi.
  set (R := fun a b : FindingLedger * IntentCommitReport * oset Digest =>
    lg_baselines b.1.1 = lg_baselines a.1.1 /\
    cr_committed_generation b.1.2 = cr_committed_generation a.1.2 /\
    cr_duplicate_identical b.1.2 = cr_duplicate_identical a.1.2).
  assert (HR : PreOrder R) by (split; [by intros x|
    intros x y z (? & ? & ?) (? & ? & ?); unfold R; split_and!; congruence]).
  assert (Hb : R (l, report, []) (mfor body (lg_findings l) (l, report, [])).2).
  { apply (mfor_state R). intros k f [[l0 r0] d0]. unfold body, rebase_entry.
    repeat (destruct (negb _); [done|]). destruct (_ =? _); [done|].
    unfold rebase_finding. destruct (leave_group _ _) as [h d]. by destruct (still_managed _ _). }
  destruct (mfor body (lg_findings l) (l, report, [])) as [findings [[l' report'] drop]].
  destruct Hb as (? & ? & ?). cbn [fst snd] in *. split_and!; [done..|].
  intros id f' (f & s & Hf & ->)%Hi. apply rebase_entry_generation.
Qed.

(** C34. Committing intent does exactly one of three things: a refused document
    leaves the ledger as it was; a document is flagged as a duplicate exactly when
    the committed baseline has its generation and its content digest, and leaves
    the ledger as it was; any other accepted one becomes the baseline of
    its target, the baselines of other targets stay, and no finding of the
    target stays live against the generation it replaced. *)
Theorem CommitIntent_spec (doc : IntentGenerationDocument) (now : NdoTime) (report : IntentCommitReport)
    (l : FindingLedger) (H : ledger_ok l) :
  let '(status, report', l') := CommitIntent doc now report l in
  (status_ok status = true <-> commit_accepts l doc) /\
  (status_ok status = false -> l' = l) /\
  (status_ok status = true ->
     cr_committed_generation report' = doc_generation doc /\
     (cr_duplicate_identical report' = true <-> already_committed l doc) /\
     if cr_duplicate_identical report' then l' = l
     else FindBaseline l' (doc_target doc) = Some (baseline_of doc now) /\
          (forall target, target <> doc_target doc -> FindBaseline l' target = FindBaseline l target) /\
          (FindBaseline l (doc_target doc) <> None ->
           mall (fun _ f => fi_target (fd_identity f) = doc_target doc -> IsLiveState (fd_state f) = true ->
                   fd_baseline_generation f = doc_generation doc) (lg_findings l'))).
Proof.
  unfold CommitIntent, commit_accepts.
  destruct (status_ok (Intent_Validate (lg_limits l) doc)) eqn:Ev; cbn [negb].
  2: { rewrite Ev. split; [split; [done|by intros []]|]. done. }
  destruct (FindBaseline l (doc_target doc)) as [b|] eqn:Eb.
  - destruct (doc_epoch doc <? base_epoch b) eqn:E1; breflect.
    { split; [split; [done|intros (_ & ? & _); lia]|done]. }
    destruct (doc_generation doc <? base_generation b) eqn:E2; breflect.
    { split; [split; [done|intros (_ & _ & [?|[? _]]); lia]|done]. }
    destruct (Z.eqb_spec (doc_generation doc) (base_generation b)) as [E3|E3].
    + destruct (eqb (Intent_ComputeContentDigest doc) (base_content_digest b)) eqn:E4.
      * apply eqb_eq in E4. split; [split; [intros _; split; [done|]; split; [lia|]; by right|done]|].
        split; [done|]. intros _. split; [done|]. split; [|done]. split; [|done]. intros _. by exists b.
      * apply eqb_neq in E4. split; [split; [done|]|done].
        intros (_ & _ & [?|[_ ?]]); [lia|congruence].
    + match goal with |- context [RebaseFindingsForTarget ?t ?g ?n ?r ?k] =>
        destruct (RebaseFindingsForTarget_facts t g n r k) as (Fb & Fc & Fd & Ff);
        destruct (RebaseFindingsForTarget t g n r k) as [report' l'] end.
      cbn [fst snd] in *. split; [split; [intros _; split; [done|]; split; [lia|]; left; lia|done]|].
      split; [done|]. intros _. rewrite Fc, Fd. cbn [cr_committed_generation cr_duplicate_identical].
      split; [done|]. split; [split; [done|intros (b' & Hb & Hg & _); congruence]|].
      unfold FindBaseline in *. cbn. rewrite Fb. cbn. split; [apply mfind_insert_eq|].
      split; [|done]. intros target Hne. apply mfind_insert_ne. congruence.
  - destruct (max_targets (lg_limits l) <=? vsize (lg_baselines l)) eqn:E; breflect.
    { split; [split; [done|intros []; lia]|done]. }
    split; [done|]. split; [done|]. intros _. cbn [cr_committed_generation cr_duplicate_identical].
    split; [done|]. split; [split; [done|by intros (b & Hb & _); rewrite Eb in Hb]|].
    unfold FindBaseline in *. cbn. unfold memplace. rewrite Eb.
    split; [apply mfind_insert_eq|]. split; [|done]. intros target Hne. apply mfind_insert_ne. congruence.
Qed.

(** ** Admitting observations *)

Lemma retained_less_irrefl a : retained_less a a = false.
Proof.
  rewrite retained_less_key. apply not_true_iff_false. rewrite ltb_lt. apply key_lt_irrefl.
Qed.

(** The last element of a window never moves back. *)
Lemma last_insert_by x w y : last w = Some y ->
  exists z, last (insert_by retained_less x w) = Some z /\ retained_less z y = false.
Proof.
  induction w as [|a w IH]; [done|]. cbn [insert_by]. destruct (retained_less a x) eqn:E.
  - destruct w as [|b w].
    + cbn. intros [= ->]. exists x. split; [done|].
      by apply (keyed_asym _ _ retained_less_key).
    + intros Hy. destruct (IH Hy) as (z & Hz & Hl). exists z. split; [|done].
      rewrite <- Hz. by destruct (insert_by retained_less x (b :: w)) eqn:Ei; [cbn in Ei; destruct (retained_less b x)|].
  - intros Hy. exists y. split; [done|apply retained_less_irrefl].
Qed.

Lemma insert_by_newest x w : Forall (fun y => retained_less y x = true) w ->
  insert_by retained_less x w = (w ++ [x])%list.
Proof. induction 1 as [|y w Hy _ IH]; [done|]. cbn. by rewrite Hy, IH. Qed.

Lemma last_erase_at {A} n (w : list A) : (n + 1 < length w)%nat -> last (erase_at n w) = last w.
Proof.
  intros Hn. unfold erase_at. rewrite <- (firstn_skipn (S n) w) at 3.
  destruct (exists_last (l:=skipn (S n) w)) as (c & x & ->).
  - intros E. apply (f_equal length) in E. rewrite length_skipn in E. cbn in E. lia.
  - by rewrite !app_assoc, !last_snoc.
Qed.

(** Eviction keeps the newest record. *)
Lemma last_EvictIfNeeded limits w : 1 <= max_retained_snapshots_per_source limits ->
  last (EvictIfNeeded limits w) = last w.
Proof.
  intros H1. unfold EvictIfNeeded. destruct (_ <? _) eqn:E; [|done]. breflect.
  apply last_erase_at. apply eviction_victim_bound; unfold vsize in *; lia.
Qed.

Definition window_of (l : FindingLedger) (key : SourceWindowKey) : list RetainedObservation :=
  mget [] key (lg_windows l).

Lemma window_of_insert l key w key' :
  window_of (l <| lg_windows ::= minsert key w |>) key' = if eqb key' key then w else window_of l key'.
Proof. unfold window_of, mget. cbn. rewrite mfind_insert. by destruct (eqb key' key). Qed.

(** Admitting an observation either stores it or changes nothing: a refused
    or duplicate snapshot leaves the ledger as it was; a stored one changes only
    the window of its own target and source, whose newest observation never
    moves back and is the new snapshot when that is later than everything
    retained. *)
Theorem RecordObservation_spec (snapshot : ObservationSnapshot) (verdict : FreshnessVerdict)
    (recovered : bool) (report : ObservationAdmission) (l : FindingLedger) (H : ledger_ok l)
    (Hmax : 1 <= max_retained_snapshots_per_source (lg_limits l)) :
  let '(status, report', l') := RecordObservation snapshot verdict recovered report l in
  let key := (snap_target snapshot, snap_source snapshot) in
  let r := mkRetained snapshot verdict recovered in
  if status_ok status && negb (ad_duplicate_identical report') then
    (forall key', key' <> key -> window_of l' key' = window_of l key') /\
    (forall newest, last (window_of l key) = Some newest ->
       exists newest', last (window_of l' key) = Some newest' /\ retained_less newest' newest = false) /\
    (Forall (fun x => retained_less x r = true) (window_of l key) -> last (window_of l' key) = Some r) /\
    lg_findings l' = lg_findings l /\ lg_baselines l' = lg_baselines l
  else l' = l.
Proof.
  unfold RecordObservation.
  destruct (status_ok (Snapshot_Validate (lg_limits l) snapshot)) eqn:Ev; cbn [negb]; [|by rewrite Ev].
  set (key := (snap_target snapshot, snap_source snapshot)).
  set (r := mkRetained snapshot verdict recovered). cbv zeta.
  change (mget [] key (lg_windows l)) with (window_of l key).
  assert (Hstored : let l' := bump_revision (l <| lg_windows ::= minsert key (window_of l key) |>
      <| lg_windows ::= minsert key (EvictIfNeeded (lg_limits l)
           (insert_at_lower_bound retained_less r (window_of l key))) |>) in
    (forall key', key' <> key -> window_of l' key' = window_of l key') /\
    (forall newest, last (window_of l key) = Some newest ->
       exists newest', last (window_of l' key) = Some newest' /\ retained_less newest' newest = false) /\
    (Forall (fun x => retained_less x r = true) (window_of l key) -> last (window_of l' key) = Some r)).
  { cbv zeta. unfold bump_revision.
    match goal with |- context [window_of (update lg_revision bump ?x)] =>
      change (window_of (update lg_revision bump x)) with (window_of x) end.
    setoid_rewrite window_of_insert. setoid_rewrite window_of_insert. rewrite eqb_refl. split; [|split].
    - intros key' Hne. by rewrite (proj2 (eqb_neq key' key)).
    - intros newest Hn. rewrite last_EvictIfNeeded, insert_at_lower_bound_eq by done.
      by apply last_insert_by.
    - intros Hall. rewrite last_EvictIfNeeded, insert_at_lower_bound_eq, insert_by_newest by done.
      by rewrite last_snoc. }
  destruct (last (window_of l key)) as [newest|] eqn:En.
  - pose proof (touch_window l key H) as Ht. fold (window_of l key) in Ht. rewrite En in Ht.
    specialize (Ht ltac:(done)).
    destruct (snap_incarnation snapshot <? snap_incarnation (ro_snapshot newest)); [exact Ht|].
    destruct (snap_epoch snapshot <? snap_epoch (ro_snapshot newest)); [exact Ht|].
    destruct ((snap_incarnation snapshot =? snap_incarnation (ro_snapshot newest)) && _);
      [destruct (eqb _ _); exact Ht|].
    destruct Hstored as (S1 & S2 & S3). done.
  - destruct Hstored as (S1 & S2 & S3). done.
Qed.

(** After a restart nothing retained counts as fresh: invalidation marks
    every retained observation recovered, with a verdict that supports neither
    compliance nor absence, and touches nothing else. *)
Theorem InvalidateRetainedEvidence_spec (reason : ReasonCode) (now : NdoTime) (l : FindingLedger) :
  let l' := (InvalidateRetainedEvidence reason now l).2 in
  (forall target, Forall (fun r => ro_recovered r = true /\ fv_state (ro_freshness r) = FS_RecoveredNotFresh /\
      fv_may_support_compliance (ro_freshness r) = false /\
      fv_may_assert_absence (ro_freshness r) = false) (ObservationsFor l' target)) /\
  (forall key, map ro_snapshot (window_of l' key) = map ro_snapshot (window_of l key)) /\
  lg_findings l' = lg_findings l /\ lg_baselines l' = lg_baselines l /\ lg_groups l' = lg_groups l.
Proof.
  cbv zeta. unfold InvalidateRetainedEvidence. cbn [snd].
  set (l1 := l <| lg_windows ::= _ |>).
  assert (Hsame : forall l2, lg_windows l2 = lg_windows l1 -> lg_findings l2 = lg_findings l ->
    lg_baselines l2 = lg_baselines l -> lg_groups l2 = lg_groups l ->
    (forall target, Forall (fun r => ro_recovered r = true /\ fv_state (ro_freshness r) = FS_RecoveredNotFresh /\
      fv_may_support_compliance (ro_freshness r) = false /\
      fv_may_assert_absence (ro_freshness r) = false) (ObservationsFor l2 target)) /\
    (forall key, map ro_snapshot (window_of l2 key) = map ro_snapshot (window_of l key)) /\
    lg_findings l2 = lg_findings l /\ lg_baselines l2 = lg_baselines l /\ lg_groups l2 = lg_groups l).
  { intros l2 E1 E2 E3 E4. split; [|split; [|done]].
    - intros target. unfold ObservationsFor. rewrite E1. apply Forall_flat_map, Forall_forall.
      intros entry Hin. apply list_elem_of_In, in_map_iff in Hin as (e0 & <- & _). cbn [fst snd].
      destruct (eqb _ _); [|constructor]. apply Forall_map, Forall_true. done.
    - intros key. unfold window_of, mget. rewrite E1. unfold l1. cbn.
      rewrite (mfind_map_values (map (invalidated reason now))).
      destruct (mfind key (lg_windows l)) as [w|]; cbn; [|done]. by rewrite map_map. }
  destruct (0 <? _); by apply Hsame.
Qed.

(** ** Examples and witnesses *)

Definition example_field : FieldPath := [PS_Key "mtu"].
Definition example_marker : FieldPath := [PS_Key "@applied-generation"].

Definition example_document (generation : Z) (objects : list string) : IntentGenerationDocument :=
  mkIntentDocument "t" generation 1 IA_IntentFabric "policy/default" 1000
    (map (fun id => (id, mkIntentObject id OE_Required
       [(example_field, mkIntentField example_field (V_Int 1500) FC_Managed)])) objects) EC_Real.

(** An observed object: the generation it reports as applied and its value. *)
Definition example_object (id : string) (applied mtu : Z) : string * ObservedObject :=
  (id, mkObservedObject id OP_Present [(example_marker, V_Int applied); (example_field, V_Int mtu)]).

Definition example_observation (sequence : Z) (objects : list (string * ObservedObject))
    : ObservationSnapshot :=
  let s := mkSnapshot "" "src" 1 1 sequence "t" 1000 1005 0 OC_Complete [] objects
    (mkCapabilities true true false EC_Real) EC_Real in
  s <| snap_id := ComputeSnapshotId s |>.

(** The evaluation of the committed baseline against one fresh snapshot. *)
Definition example_outcome (l : FindingLedger) (snapshot : ObservationSnapshot) : EvaluationOutcome :=
  let verdict := EvaluateFreshness snapshot default_freshness 1010 1 false in
  mkOutcome 1010 1 1 "policy/default" (Policy_ComputeDigest Policy_Default) 1 1
    [CompareTarget (input_of "t" (FindBaseline l "t") [(Some snapshot, verdict)])
       Policy_Default default_limits].

Definition committed (objects : list string) : FindingLedger :=
  exec (empty_ledger default_limits) (Mut_CommitIntent (example_document 5 objects) 1000).

Definition evaluated (l : FindingLedger) (objects : list (string * ObservedObject)) : FindingLedger :=
  exec l (Mut_ApplyEvaluation (example_outcome l (example_observation 1 objects)) Policy_Default 1010).

Lemma default_limits_ok : limits_ok default_limits.
Proof. vm_compute. repeat split; discriminate. Qed.

Lemma committed_ok objects : ledger_ok (committed objects) /\ limits_ok (lg_limits (committed objects)).
Proof.
  destruct (exec_step (empty_ledger default_limits) (Mut_CommitIntent (example_document 5 objects) 1000)
    (empty_ledger_ok _ default_limits_ok) default_limits_ok) as [E H].
  split; [exact H|]. unfold committed. rewrite (ev_limits _ _ E). apply default_limits_ok.
Qed.

(** A ledger with one live finding: the value differs. *)
Definition drifted : FindingLedger :=
  Eval vm_compute in evaluated (committed ["vlan"]) [example_object "vlan" 5 9000].

Lemma drifted_ok : ledger_ok drifted /\ limits_ok (lg_limits drifted).
Proof.
  assert (drifted = evaluated (committed ["vlan"]) [example_object "vlan" 5 9000]) as -> by (vm_compute; reflexivity).
  destruct (committed_ok ["vlan"]) as [H Hl].
  destruct (exec_step _ (Mut_ApplyEvaluation (example_outcome (committed ["vlan"])
    (example_observation 1 [example_object "vlan" 5 9000])) Policy_Default 1010) H Hl) as [E H'].
  split; [exact H'|]. unfold evaluated. rewrite (ev_limits _ _ E). exact Hl.
Qed.

(** The identity of that finding. *)
Definition drifted_id : Digest :=
  Eval vm_compute in ComputeId (mkIdentity "t" "vlan" example_field DC_PartialApplication 5
    (GenerationQualifier "partial" 5 [5])).

Example drifted_shape :
  map (fun f => (eqb (fd_id f) drifted_id, fd_state f, fd_klass f, fd_raw_class f)) (Findings drifted) =
  [(true, St_Open, DC_PartialApplication, DC_ValueMismatch)].
Proof. vm_compute. reflexivity. Qed.

(** The next fresh observation agrees with the intent. *)
Definition agreeing : EvaluationOutcome :=
  Eval vm_compute in example_outcome drifted (example_observation 2 [example_object "vlan" 5 1500]).

(** A recovered observation of the example, and the finding of [drifted]. *)
Definition restored_calls : list LedgerCall :=
  [LC_Restoration (Res_RestoreObservation (mkRetained (example_observation 1 [example_object "vlan" 5 9000])
     (mkFreshnessVerdict FS_Fresh RC_None 0 0 true true) false));
   LC_Restoration (Res_RestoreRevision 7);
   LC_Mutation (Mut_ExpireSuppressions 2000)].

Lemma reachable_ledger_ok_witness :
  let ms := [Mut_CommitIntent (example_document 5 ["vlan"]) 1000;
             Mut_ApplyEvaluation (example_outcome (committed ["vlan"])
               (example_observation 1 [example_object "vlan" 5 9000])) Policy_Default 1010] in
  vsize (lg_findings (foldl exec (empty_ledger default_limits) ms)) = 1 /\
  (ledger_ok (foldl exec (empty_ledger default_limits) ms) /\
   windows_ordered (foldl exec (empty_ledger default_limits) ms)) /\
  ledger_ok (foldl exec_ledger_call (empty_ledger default_limits) restored_calls).
Proof.
  cbv zeta. destruct (reachable_ledger_ok default_limits default_limits_ok) as [H1 H2].
  split; [vm_compute; reflexivity|]. split; [apply H1|]. apply (H2 restored_calls).
  vm_compute. repeat split; discriminate.
Defined.

Lemma run_evolves_witness :
  evolves drifted (foldl exec drifted
    [Mut_ApplyEvaluation agreeing Policy_Default 1010; Mut_ExpireSuppressions 2000]).
Proof. apply run_evolves; apply drifted_ok. Defined.

Lemma ApplyEvaluation_resolution_justified_witness :
  match mfind drifted_id (lg_findings (ApplyEvaluation agreeing Policy_Default 1010 drifted).2) with
  | Some f' =>
      fd_state f' = St_Resolved /\
      ((exists f, mfind drifted_id (lg_findings drifted) = Some f /\ fd_state f = St_Resolved) \/
       (required_confirmations agreeing <= fd_resolution_confirmations f' /\
        Exists (fun e => fence_accepts drifted e = true /\ te_compliance_decidable e = true /\
          fi_target (fd_identity f') = te_target e /\ ~ drafted e drifted_id) (out_targets agreeing)))
  | None => False
  end.
Proof.
  assert (Hc : option_map fd_state (mfind drifted_id
    (lg_findings (ApplyEvaluation agreeing Policy_Default 1010 drifted).2)) = Some St_Resolved)
    by (vm_compute; reflexivity).
  destruct (mfind drifted_id _) as [f'|] eqn:E; [|discriminate]. injection Hc as Hs.
  split; [exact Hs|]. exact (ApplyEvaluation_resolution_justified agreeing Policy_Default 1010 drifted
    (proj1 drifted_ok) drifted_id f' E Hs).
Defined.

(** The same evaluation after the intent has moved on is fenced off. *)
Definition advanced : FindingLedger :=
  Eval vm_compute in exec drifted (Mut_CommitIntent (example_document 6 ["vlan"]) 1020).

Lemma advanced_ok : ledger_ok advanced.
Proof.
  assert (advanced = exec drifted (Mut_CommitIntent (example_document 6 ["vlan"]) 1020)) as -> by (vm_compute; reflexivity).
  destruct drifted_ok as [H Hl]. exact (proj2 (exec_step _ (Mut_CommitIntent _ 1020) H Hl)).
Qed.

Lemma ApplyEvaluation_fenced_witness :
  match mfind drifted_id (lg_findings advanced) with
  | Some f =>
      fd_state f = St_Superseded /\
      mfind drifted_id (lg_findings (ApplyEvaluation agreeing Policy_Default 1030 advanced).2) = Some f
  | None => False
  end.
Proof.
  assert (Hc : option_map fd_state (mfind drifted_id (lg_findings advanced)) = Some St_Superseded)
    by (vm_compute; reflexivity).
  destruct (mfind drifted_id (lg_findings advanced)) as [f|] eqn:E; [|discriminate].
  injection Hc as Hs. split; [exact Hs|].
  assert (Hn : option_map fd_suppression (mfind drifted_id (lg_findings advanced)) = Some None)
    by (vm_compute; reflexivity).
  rewrite E in Hn. injection Hn as Hn.
  pose proof (ApplyEvaluation_fenced agreeing Policy_Default 1030 advanced advanced_ok drifted_id f E) as H.
  destruct (ApplyEvaluation agreeing Policy_Default 1030 advanced) as [[status report] l']. cbn [snd].
  destruct H as [H|(at_ & Hx & _)]; [|exact H|destruct (Hx Hn)].
  assert (Hf : forallb (fun e => negb (fence_accepts advanced e)) (out_targets agreeing) = true)
    by (vm_compute; reflexivity).
  rewrite forallb_forall in Hf. apply Forall_forall. intros e He%list_elem_of_In Ha.
  specialize (Hf e He). cbv beta in Hf. rewrite Ha in Hf. discriminate Hf.
Defined.

Lemma operator_actions_keep_truth_witness :
  acts_on drifted_id drifted (exec drifted (Mut_Acknowledge drifted_id "alice" "seen" 1500)).
Proof.
  destruct (operator_actions_keep_truth drifted drifted_id (Mut_Acknowledge drifted_id "alice" "seen" 1500))
    as [E|H]; [right; right; left; repeat eexists| |exact H].
  exfalso. apply (f_equal lg_revision) in E. vm_compute in E. discriminate.
Defined.

Lemma CommitIntent_spec_witness :
  let doc := example_document 6 ["vlan"] in
  let '(status, report', l') := CommitIntent doc 1020 (mkCommitReport "" 0 0 0 0 0 false) drifted in
  status_ok status = true /\ commit_accepts drifted doc /\
  FindBaseline l' "t" = Some (baseline_of doc 1020).
Proof.
  cbv zeta.
  assert (Hc : (let '(status, report', _) := CommitIntent (example_document 6 ["vlan"]) 1020
      (mkCommitReport "" 0 0 0 0 0 false) drifted in
    (status_ok status, cr_duplicate_identical report')) = (true, false)) by (vm_compute; reflexivity).
  pose proof (CommitIntent_spec (example_document 6 ["vlan"]) 1020 (mkCommitReport "" 0 0 0 0 0 false)
    drifted (proj1 drifted_ok)) as H.
  destruct (CommitIntent _ _ _ drifted) as [[status report'] l']. injection Hc as Hs Hd.
  destruct H as (Ha & _ & Hb). split; [exact Hs|]. split; [exact (proj1 Ha Hs)|].
  destruct (Hb Hs) as (_ & _ & Hb'). rewrite Hd in Hb'. exact (proj1 Hb').
Defined.

Lemma RecordObservation_spec_witness :
  let snapshot := example_observation 2 [example_object "vlan" 5 1500] in
  let verdict := EvaluateFreshness snapshot default_freshness 1010 1 false in
  let '(status, report', l') := RecordObservation snapshot verdict false
    (mkAdmission "" "" "" 0 FS_Unknown false false) drifted in
  status_ok status = true /\
  last (window_of l' ("t", "src")) = Some (mkRetained snapshot verdict false).
Proof.
  cbv zeta. set (snapshot := example_observation 2 _). set (verdict := EvaluateFreshness _ _ _ _ _).
  assert (Hm : 1 <= max_retained_snapshots_per_source (lg_limits drifted)) by (vm_compute; discriminate).
  assert (Hw : window_of drifted ("t", "src") = []) by (vm_compute; reflexivity).
  assert (Hc : (let '(status, report', _) := RecordObservation snapshot verdict false
      (mkAdmission "" "" "" 0 FS_Unknown false false) drifted in
    (status_ok status, ad_duplicate_identical report')) = (true, false)) by (vm_compute; reflexivity).
  pose proof (RecordObservation_spec snapshot verdict false (mkAdmission "" "" "" 0 FS_Unknown false false)
    drifted (proj1 drifted_ok) Hm) as H.
  destruct (RecordObservation _ _ _ _ _) as [[status report'] l']. injection Hc as Hs Hd.
  rewrite Hs, Hd in H. cbn [negb andb] in H. split; [exact Hs|].
  change (snap_target snapshot, snap_source snapshot) with ("t", "src") in H.
  apply (proj1 (proj2 (proj2 H))). rewrite Hw. constructor.
Defined.

(** *** Behaviours worth knowing *)

(** An older sequence delivered twice is stored twice: only the newest retained
    observation is compared with a new one. *)
Example older_duplicate_is_stored :
  let observe l sequence :=
    exec l (Mut_RecordObservation (example_observation sequence []) 
      (EvaluateFreshness (example_observation sequence []) default_freshness 1010 1 false) false) in
  map (fun r => snap_sequence (ro_snapshot r))
    (window_of (observe (observe (observe (empty_ledger default_limits) 2) 1) 1) ("t", "src")) = [1; 1; 2].
Proof. vm_compute. reflexivity. Qed.

(** Two findings share a root cause; one is resolved.  The group that still
    explains the other one is produced again under the same identity and then
    erased, so the other finding refers to a group that does not exist. *)
Example group_reference_dangles :
  let l := committed ["a"; "b"; "c"] in
  let l := evaluated l [example_object "a" 5 1500; example_object "b" 4 9000; example_object "c" 4 9000] in
  let l' := evaluated l [example_object "a" 5 1500; example_object "b" 4 9000; example_object "c" 4 1500] in
  vsize (lg_groups l) = 1 /\ vsize (lg_groups l') = 0 /\
  map (fun f => (fd_state f, Digest_is_set (fd_group f)))
    (List.filter is_live (Findings l')) = [(St_Open, true)].
Proof. vm_compute. repeat split. Qed.

(** A finding that reopens while an operator suppression is attached is open,
    and the suppression stays attached. *)
Example reopened_while_suppressed :
  let l := exec drifted (Mut_Suppress drifted_id "alice" "noise" None 1100) in
  let l := exec l (Mut_ApplyEvaluation agreeing Policy_Default 1200) in
  let l := evaluated l [example_object "vlan" 5 9000] in
  map (fun f => (fd_state f, fd_suppression_origin f)) (Findings l) = [(St_Open, SO_Operator)].
Proof. vm_compute. reflexivity. Qed.
