(* ===== verification/Decimal.v ===== *)
(** * Reading decimal numbers

    [std::from_chars] of the C++ standard library as json.cpp uses it: integers
    of 64 bits, and doubles in the general format.  A double is rounded to
    nearest, ties to even; a text whose value is not representable (an overflow,
    or a positive value that rounds to zero) is out of range.  The file also
    holds the scanners of runs of digits. *)

From Stdlib Require Import ZArith Lia List Bool Ascii String.
From Stdlib Require Import Floats.SpecFloat.
From stdpp Require Import base tactics list strings.
From S2P Require Import Prelude Containers Text Double.
#[local] Open Scope string_scope.
#[local] Open Scope Z_scope.
#[local] Arguments String.append : simpl nomatch.

(** ** Scanning *)

(** The longest run of digits, and what follows it. *)
Fixpoint take_digits (text : string) : string * string :=
  match text with
  | "" => ("", "")
  | String c rest =>
      if is_digit c then let '(digits, rest') := take_digits rest in (String c digits, rest')
      else ("", text)
  end.

(** The text after [c], when it starts with [c]. *)
Definition next_is (c : ascii) (text : string) : option string :=
  match text with
  | "" => None
  | String d rest => if Ascii.eqb c d then Some rest else None
  end.

(** A leading minus sign. *)
Definition take_minus (text : string) : bool * string :=
  match next_is "-" text with Some rest => (true, rest) | None => (false, text) end.

(** ** Integers *)

Definition from_chars_int64 (token : string) : option Z :=
  let '(negative, digits) := take_minus token in
  match read_digits digits 0 with
  | Some v =>
      let v := if negative then - v else v in
      if (INT64_MIN <=? v) && (v <=? INT64_MAX) && negb (digits =? "")%string then Some v else None
  | None => None
  end.

Definition from_chars_uint64 (token : string) : option Z :=
  match read_digits token 0 with
  | Some v => if (v <=? UINT64_MAX) && negb (token =? "")%string then Some v else None
  | None => None
  end.

(** ** Doubles *)

(** The integer nearest to [n / d], the even one of two. *)
Definition round_half_even (n d : Z) : Z :=
  let q := n / d in
  let r := n mod d in
  if 2 * r <? d then q
  else if d <? 2 * r then q + 1
  else if Z.even q then q else q + 1.

(** [floor(log2(n / d))]. *)
Definition floor_log2 (n d : Z) : Z :=
  let l := Z.log2 n - Z.log2 d in
  if n * scale_down 2 l <? d * scale_up 2 l then l - 1 else l.

(** The double nearest to [n / d], [n] not negative; [None] when it is zero
    or infinite for a positive [n]. *)
Definition nearest_double (negative : bool) (n d : Z) : option Double :=
  if n =? 0 then Some (S754_zero negative)
  else
    let e := Z.max (floor_log2 n d - 52) (-1074) in
    let m := round_half_even (n * scale_down 2 e) (d * scale_up 2 e) in
    let '(m, e) := if m =? 2 ^ 53 then (2 ^ 52, e + 1) else (m, e) in
    if (m =? 0) || (971 <? e) then None else Some (S754_finite negative (Z.to_pos m) e).

(** The exponent part: nothing, or [e] or [E], a sign and digits. *)
Definition read_exponent (text : string) : option Z :=
  match text with
  | "" => Some 0
  | String c rest =>
      if negb (Ascii.eqb c "e" || Ascii.eqb c "E") then None
      else
        let '(negative, digits) :=
          match next_is "+" rest with Some rest => (false, rest) | None => take_minus rest end in
        if (digits =? "")%string then None
        else option_map (fun v => if negative then - v else v) (read_digits digits 0)
  end.

(** [from_chars(token, value, chars_format::general)], the whole token read. *)
Definition from_chars_double (token : string) : option Double :=
  let '(negative, text) := take_minus token in
  let '(whole, text) := take_digits text in
  let '(fraction, text) :=
    match next_is "." text with Some rest => take_digits rest | None => ("", text) end in
  match read_digits (String.append whole fraction) 0, read_exponent text with
  | Some digits, Some exponent =>
      let k := exponent - ssize fraction in
      nearest_double negative (digits * scale_up 10 k) (scale_down 10 k)
  | _, _ => None
  end.
