(* ===== verification/StdText.v ===== *)
(** * What the tools share

    What they use of the C++ standard library to read numbers on a command line:
    [std::stoull], [std::stoll] and [std::stoul], in the "C" locale.  Each skips
    white space, takes a sign and the longest run of digits, and leaves the rest
    of the text unread; [None] is the exception it throws. *)

From Stdlib Require Import ZArith Lia List Bool Ascii String.
From stdpp Require Import base tactics list strings.
From S2P Require Import Prelude Text Decimal.
#[local] Open Scope string_scope.
#[local] Open Scope Z_scope.
#[local] Arguments String.append : simpl nomatch.

(** [isspace]. *)
Definition is_space (c : ascii) : bool := (byte_of c =? 32) || ((9 <=? byte_of c) && (byte_of c <=? 13)).

Fixpoint skip_space (text : string) : string :=
  match text with
  | "" => ""
  | String c rest => if is_space c then skip_space rest else text
  end.

Definition take_sign (text : string) : bool * string :=
  match next_is "+" text with Some rest => (false, rest) | None => take_minus text end.

(** The sign, the magnitude and what follows the digits. *)
Definition scan_integer (text : string) : option (bool * Z * string) :=
  let '(negative, text) := take_sign (skip_space text) in
  let '(digits, rest) := take_digits text in
  if (digits =? "")%string then None
  else option_map (fun v => (negative, v, rest)) (read_digits digits 0).

(** A magnitude out of range is refused; the negation wraps. *)
Definition stoull (text : string) : option Z :=
  match scan_integer text with
  | Some (negative, v, _) => if UINT64_MAX <? v then None else Some (if negative : bool then wrap64 (- v) else v)
  | None => None
  end.

(** The value and the number of characters read. *)
Definition stoll_at (text : string) : option (Z * Z) :=
  match scan_integer text with
  | Some (negative, v, rest) =>
      let v := if negative : bool then - v else v in
      if (INT64_MIN <=? v) && (v <=? INT64_MAX) then Some (v, ssize text - ssize rest) else None
  | None => None
  end.
Definition stoll (text : string) : option Z := option_map fst (stoll_at text).

(** [unsigned long] is 32 or 64 bits wide. *)
Definition stoul (ulong_max : Z) (text : string) : option Z :=
  match scan_integer text with
  | Some (negative, v, _) =>
      if ulong_max <? v then None else Some (if negative : bool then (- v) mod (ulong_max + 1) else v)
  | None => None
  end.

(** ** Text the tools print *)

Definition newline : string := String "010" "".

(** A literal with its quotation marks written as apostrophes. *)
Definition quoted (text : string) : string :=
  string_of_list_ascii (map (fun c => if Ascii.eqb c "'" then "034"%char else c) (list_ascii_of_string text)).

(** ** Facts *)

Lemma take_digits_all s : (forall c, In c (list_ascii_of_string s) -> is_digit c = true) -> take_digits s = (s, "").
Proof.
  induction s as [|c s IH]; intros H; [done|]. cbn. rewrite H by (cbn; auto). rewrite IH by (intros d Hd; apply H; cbn; auto). done.
Qed.

Lemma digit_char_digit d : 0 <= d < 10 -> is_digit (digit_char d) = true /\ is_space (digit_char d) = false /\
  Ascii.eqb "+" (digit_char d) = false /\ Ascii.eqb "-" (digit_char d) = false.
Proof.
  intros Hd. assert (Hin : d ∈ seqZ 0 10) by (apply elem_of_seqZ; lia). clear Hd. revert d Hin.
  apply Forall_forall. by repeat constructor.
Qed.

(** A number the library wrote starts and continues with digits. *)
Definition all_digit_text (s : string) : Prop := Forall (fun c => exists d, 0 <= d < 10 /\ c = digit_char d) (list_ascii_of_string s).

Lemma dec_digits_digits fuel : forall n acc, all_digit_text acc -> all_digit_text (dec_digits fuel n acc).
Proof.
  induction fuel as [|fuel IH]; intros n acc Ha; [done|]. cbn.
  assert (H : all_digit_text (String (digit_char (n mod 10)) acc)).
  { constructor; [|done]. exists (n mod 10). split; [apply Z.mod_pos_bound; lia|done]. }
  destruct (n <? 10); [done|]. by apply IH.
Qed.

Lemma dec_digits_nonempty fuel n acc : (0 < fuel)%nat -> dec_digits fuel n acc <> "".
Proof.
  revert n acc. induction fuel as [|fuel IH]; intros n acc Hf; [lia|]. cbn. destruct (n <? 10); [done|].
  destruct fuel as [|fuel]; [done|]. apply IH. lia.
Qed.

Lemma scan_integer_digits s v : all_digit_text s -> s <> "" -> read_digits s 0 = Some v -> scan_integer s = Some (false, v, "").
Proof.
  intros Hs Hn Hv. unfold scan_integer. assert (Ht : take_sign (skip_space s) = (false, s)).
  { destruct s as [|c s]; [done|]. apply Forall_cons in Hs as [(d & Hd & ->) _].
    destruct (digit_char_digit d Hd) as (_ & H1 & H2 & H3). cbn. rewrite H1. unfold take_sign, take_minus, next_is. by rewrite H2, H3. }
  rewrite Ht, take_digits_all.
  - destruct (s =? "")%string eqn:E; [by apply String.eqb_eq in E|]. by rewrite Hv.
  - intros c Hc. unfold all_digit_text in Hs. rewrite List.Forall_forall in Hs. destruct (Hs c Hc) as (d & Hd & ->). by apply digit_char_digit.
Qed.

Lemma to_string_unsigned_digits v : all_digit_text (to_string_unsigned v) /\ to_string_unsigned v <> "".
Proof. split; [apply dec_digits_digits; constructor|apply dec_digits_nonempty; lia]. Qed.

Lemma scan_integer_written v : is_u64 v -> scan_integer (to_string_unsigned v) = Some (false, v, "").
Proof.
  intros Hv. destruct (to_string_unsigned_digits v). apply scan_integer_digits; [done|done|by apply read_to_string].
Qed.

Lemma scan_integer_written_minus v : is_u64 v -> scan_integer (String "-" (to_string_unsigned v)) = Some (true, v, "").
Proof.
  intros Hv. unfold scan_integer. cbn [skip_space]. change (is_space "-") with false. cbv iota.
  unfold take_sign, take_minus. cbn [next_is]. change (Ascii.eqb "+" "-") with false. change (Ascii.eqb "-" "-") with true. cbv iota.
  destruct (to_string_unsigned_digits v) as [Hd Hn]. rewrite take_digits_all.
  - destruct (_ =? "")%string eqn:E; [by apply String.eqb_eq in E|]. by rewrite read_to_string.
  - intros c Hc. unfold all_digit_text in Hd. rewrite List.Forall_forall in Hd. destruct (Hd c Hc) as (d & Hd' & ->). by apply digit_char_digit.
Qed.

Lemma stoull_written v : is_u64 v -> stoull (to_string_unsigned v) = Some v.
Proof.
  intros Hv. unfold stoull. rewrite scan_integer_written by done. destruct (Z.ltb_spec UINT64_MAX v); [|done].
  unfold is_u64 in Hv. lia.
Qed.

Lemma stoll_at_written v : is_i64 v -> stoll_at (to_string_signed v) = Some (v, ssize (to_string_signed v)).
Proof.
  unfold is_i64, INT64_MIN, INT64_MAX. intros Hv. unfold to_string_signed, stoll_at.
  destruct (Z.ltb_spec v 0) as [Hneg|Hpos].
  - rewrite scan_integer_written_minus by (unfold is_u64, UINT64_MAX; lia). rewrite Z.opp_involutive.
    rewrite (proj2 (Z.leb_le _ _)), (proj2 (Z.leb_le _ _)) by (unfold INT64_MIN, INT64_MAX; lia).
    cbn [andb]. by rewrite Z.sub_0_r.
  - rewrite scan_integer_written by (unfold is_u64, UINT64_MAX; lia).
    rewrite (proj2 (Z.leb_le _ _)), (proj2 (Z.leb_le _ _)) by (unfold INT64_MIN, INT64_MAX; lia).
    cbn [andb]. by rewrite Z.sub_0_r.
Qed.

Lemma read_digits_range s a v : 0 <= a -> read_digits s a = Some v -> 0 <= v.
Proof.
  revert a. induction s as [|c s IH]; intros a Ha; cbn; [by intros [= <-]|].
  destruct (is_digit c) eqn:Hc; [|done]. apply IH. unfold is_digit, digit_value in *. lia.
Qed.

Lemma scan_integer_range text negative v rest : scan_integer text = Some (negative, v, rest) -> 0 <= v.
Proof.
  unfold scan_integer. destruct (take_sign _) as [n t]. destruct (take_digits t) as [d r]. destruct (_ =? _)%string; [done|].
  destruct (read_digits d 0) as [x|] eqn:E; [|done]. cbn. intros [= <- <- <-]. by apply read_digits_range in E.
Qed.

Lemma stoull_width text v : stoull text = Some v -> is_u64 v.
Proof.
  unfold stoull. destruct (scan_integer text) as [[[n x] r]|] eqn:E; [|done]. apply scan_integer_range in E.
  destruct (Z.ltb_spec UINT64_MAX x); [done|]. intros [= <-]. unfold is_u64, UINT64_MAX in *.
  destruct n; [|lia]. pose proof (Z.mod_pos_bound (- x) 18446744073709551616). unfold wrap64. lia.
Qed.

Lemma stoll_width text v : stoll text = Some v -> is_i64 v.
Proof.
  unfold stoll, stoll_at. destruct (scan_integer text) as [[[n x] r]|]; [|done].
  destruct ((_ <=? _) && _) eqn:E; [|done]. intros [= <-]. apply andb_prop in E as [? ?]. unfold is_i64. lia.
Qed.

(** ** What the readers let through *)

Example a_sign_wraps : stoull "-1" = Some UINT64_MAX.
Proof. reflexivity. Qed.
Example the_rest_is_not_read : stoull " 80x" = Some 80 /\ stoll "12 days" = Some 12.
Proof. split; reflexivity. Qed.
