(* ===== verification/DecimalFacts.v ===== *)
(** * The shortest decimal text of a double reads back

    [to_chars_general] picks a decimal that lies between the midpoints to the
    neighbours of a double ([shortest_digits_reads_back]: seventeen digits always
    suffice), and every such decimal is rounded back to the double
    ([reads_back_nearest]). *)

From Stdlib Require Import ZArith Lia List Bool Ascii String.
From Stdlib Require Import Floats.SpecFloat.
From stdpp Require Import base tactics list strings.
From S2P Require Import Prelude Containers Text Double Decimal.
#[local] Open Scope Z_scope.

(** ** Powers with a sign

    [scale_up b t] over [scale_down b t] is [b^t]; multiplied by a common power
    [b^K] both become integers. *)

Lemma scale_common b t K : 0 < b -> 0 <= K -> 0 <= t + K ->
  exists p, 0 < p /\ b ^ (t + K) = scale_up b t * p /\ b ^ K = scale_down b t * p.
Proof.
  intros Hb HK Ht. unfold scale_up, scale_down. destruct (Z.leb_spec 0 t).
  - exists (b ^ K). split; [by apply Z.pow_pos_nonneg|]. rewrite Z.pow_add_r by lia. lia.
  - exists (b ^ (t + K)). split; [by apply Z.pow_pos_nonneg|]. split; [lia|].
    rewrite <- Z.pow_add_r by lia. f_equal. lia.
Qed.

Lemma scale_pos b t : 0 < b -> 0 < scale_up b t /\ 0 < scale_down b t.
Proof.
  intros Hb. unfold scale_up, scale_down. destruct (Z.leb_spec 0 t); split; try lia; apply Z.pow_pos_nonneg; lia.
Qed.

Section Scale.
Variable b : Z.
Hypothesis Hb : 0 < b.

Lemma scale_le t K x y : 0 <= K -> 0 <= t + K ->
  x * scale_up b t <= y * scale_down b t <-> x * b ^ (t + K) <= y * b ^ K.
Proof.
  intros HK Ht. destruct (scale_common b t K Hb HK Ht) as (p & Hp & -> & ->).
  rewrite !Z.mul_assoc. apply Z.mul_le_mono_pos_r. lia.
Qed.

Lemma scale_lt t K x y : 0 <= K -> 0 <= t + K ->
  x * scale_up b t < y * scale_down b t <-> x * b ^ (t + K) < y * b ^ K.
Proof.
  intros HK Ht. destruct (scale_common b t K Hb HK Ht) as (p & Hp & -> & ->).
  rewrite !Z.mul_assoc. apply Z.mul_lt_mono_pos_r. lia.
Qed.

Lemma scale_le' t K x y : 0 <= K -> 0 <= t + K ->
  y * scale_down b t <= x * scale_up b t <-> y * b ^ K <= x * b ^ (t + K).
Proof.
  intros HK Ht. destruct (scale_common b t K Hb HK Ht) as (p & Hp & -> & ->).
  rewrite !Z.mul_assoc. apply Z.mul_le_mono_pos_r. lia.
Qed.

Lemma scale_lt' t K x y : 0 <= K -> 0 <= t + K ->
  y * scale_down b t < x * scale_up b t <-> y * b ^ K < x * b ^ (t + K).
Proof.
  intros HK Ht. destruct (scale_common b t K Hb HK Ht) as (p & Hp & -> & ->).
  rewrite !Z.mul_assoc. apply Z.mul_lt_mono_pos_r. lia.
Qed.
End Scale.

(** ** Rounding to nearest *)

Lemma round_half_even_scale n d p : 0 < d -> 0 < p ->
  round_half_even (n * p) (d * p) = round_half_even n d.
Proof.
  intros Hd Hp. unfold round_half_even. rewrite Z.div_mul_cancel_r, Z.mul_mod_distr_r by lia.
  rewrite !Z.mul_assoc.
  replace (2 * (n mod d) * p <? d * p) with (2 * (n mod d) <? d)
    by (apply eq_true_iff_eq; rewrite !Z.ltb_lt; apply Z.mul_lt_mono_pos_r; lia).
  replace (d * p <? 2 * (n mod d) * p) with (d <? 2 * (n mod d))
    by (apply eq_true_iff_eq; rewrite !Z.ltb_lt; apply Z.mul_lt_mono_pos_r; lia).
  done.
Qed.

(** The value is at most half a unit away, a tie only at an even number. *)
Lemma round_half_even_near n d m : 0 < d ->
  (2 * m - 1) * d <= 2 * n <= (2 * m + 1) * d ->
  (Z.even m = false -> (2 * m - 1) * d < 2 * n < (2 * m + 1) * d) ->
  round_half_even n d = m.
Proof.
  intros Hd Hb Hodd. unfold round_half_even. pose proof (Z.div_mod n d ltac:(lia)) as E.
  pose proof (Z.mod_pos_bound n d Hd) as Hr. set (q := n / d) in *. set (r := n mod d) in *.
  assert (Hq : q = m \/ q = m - 1) by nia.
  destruct (Z.ltb_spec (2 * r) d); [nia|]. destruct (Z.ltb_spec d (2 * r)); [nia|].
  assert (Hev : Z.even (m - 1) = negb (Z.even m)) by (rewrite Z.even_sub; by destruct (Z.even m)).
  destruct Hq as [-> | ->]; destruct (Z.even m) eqn:Em; rewrite ?Hev; cbn [negb]; try lia;
    specialize (Hodd eq_refl); nia.
Qed.

Lemma floor_log2_spec n d K : 0 < n -> 0 < d -> Z.log2 d + 1 <= K -> 0 <= floor_log2 n d + K ->
  d * 2 ^ (floor_log2 n d + K) <= n * 2 ^ K < d * 2 ^ (floor_log2 n d + 1 + K).
Proof.
  intros Hn Hd HK. pose proof (Z.log2_spec n Hn) as [Hn1 Hn2]. pose proof (Z.log2_spec d Hd) as [Hd1 Hd2].
  pose proof (Z.log2_nonneg n). pose proof (Z.log2_nonneg d).
  set (a := Z.log2 n) in *. set (c := Z.log2 d) in *.
  assert (Hlow : forall t, t <= a - c - 1 -> 0 <= t + K -> d * 2 ^ (t + K) <= n * 2 ^ K).
  { intros t Ht HtK. change (Z.succ c) with (c + 1) in Hd2.
    assert (H2 : 2 ^ (c + 1) * 2 ^ (t + K) <= 2 ^ a * 2 ^ K)
      by (rewrite <- !Z.pow_add_r by lia; apply Z.pow_le_mono_r; lia).
    etransitivity; [|etransitivity; [exact H2|]]; apply Z.mul_le_mono_nonneg_r; try lia;
      apply Z.pow_nonneg; lia. }
  assert (Hhigh : forall t, a - c + 1 <= t -> 0 <= t + K -> n * 2 ^ K < d * 2 ^ (t + K)).
  { intros t Ht HtK.
    assert (H2 : 2 ^ (a + 1) * 2 ^ K <= 2 ^ c * 2 ^ (t + K))
      by (rewrite <- !Z.pow_add_r by lia; apply Z.pow_le_mono_r; lia).
    change (Z.succ a) with (a + 1) in Hn2. eapply Z.lt_le_trans; [|etransitivity; [exact H2|]].
    - apply Z.mul_lt_mono_pos_r; [apply Z.pow_pos_nonneg; lia|lia].
    - apply Z.mul_le_mono_nonneg_r; [apply Z.pow_nonneg; lia|lia]. }
  unfold floor_log2. fold a c. destruct (Z.ltb_spec (n * scale_down 2 (a - c)) (d * scale_up 2 (a - c))) as [H1|H1];
    intros HF.
  - apply (scale_lt' 2 ltac:(lia) _ K) in H1; [|lia..]. split; [apply Hlow; lia|].
    by replace (a - c - 1 + 1 + K) with (a - c + K) by lia.
  - apply (scale_le 2 ltac:(lia) _ K) in H1; [|lia..]. split; [done|]. apply Hhigh; lia.
Qed.

(** ** A decimal between the midpoints is rounded back *)

Definition nearest_mantissa (n d e : Z) : Z := round_half_even (n * scale_down 2 e) (d * scale_up 2 e).

Lemma nearest_mantissa_common n d e K : 0 < d -> 0 <= K -> 0 <= e + K ->
  nearest_mantissa n d e = round_half_even (n * 2 ^ K) (d * 2 ^ (e + K)).
Proof.
  intros Hd HK He. destruct (scale_common 2 e K ltac:(lia) HK He) as (p & Hp & -> & ->).
  rewrite !Z.mul_assoc. symmetry. apply round_half_even_scale; [|done].
  pose proof (scale_pos 2 e ltac:(lia)). nia.
Qed.

(** The lower midpoint is nearer when [m] is a power of two. *)
Definition low_quarters (m e : Z) : Z := if (m =? 2 ^ 52) && (-1074 <? e) then 4 * m - 1 else 4 * m - 2.

Definition between_midpoints (m e n d : Z) : Prop :=
  let x := n * scale_down 2 (e - 2) in
  let unit := d * scale_up 2 (e - 2) in
  low_quarters m e * unit <= x <= (4 * m + 2) * unit /\
  (Z.even m = false -> low_quarters m e * unit < x < (4 * m + 2) * unit).

Lemma reads_back_iff m e digits k : reads_back m e digits k = true <->
  between_midpoints m e (digits * scale_up 10 k) (scale_down 10 k).
Proof.
  unfold reads_back, between_midpoints. fold (low_quarters m e).
  destruct (Z.even m); rewrite andb_true_iff, ?Z.leb_le, ?Z.ltb_lt; intuition lia.
Qed.

Section Nearest.
Variables m e n d : Z.
Hypothesis Hn : 0 < n.
Hypothesis Hd : 0 < d.
Hypothesis Hm : 0 < m < 2 ^ 53.
Hypothesis He : -1074 <= e <= 971.
Hypothesis Hsub : m < 2 ^ 52 -> e = -1074.
Hypothesis Hmid : between_midpoints m e n d.

(** Everything in quarter units of the last place, times a power of two. *)
Definition common_power : Z := Z.abs e + Z.log2 d + 2000.
Definition quarter_unit : Z := d * 2 ^ (e - 2 + common_power).
Definition common_value : Z := n * 2 ^ common_power.

Lemma common_nonneg : 0 <= common_power /\ 0 <= e - 2 + common_power /\ Z.log2 d + 1 <= common_power.
Proof. unfold common_power. pose proof (Z.log2_nonneg d). lia. Qed.

Lemma quarter_pos : 0 < quarter_unit.
Proof. unfold quarter_unit. pose proof common_nonneg. apply Z.mul_pos_pos; [lia|apply Z.pow_pos_nonneg; lia]. Qed.

Lemma unit_power j : 0 <= j -> d * 2 ^ (e - 2 + j + common_power) = 2 ^ j * quarter_unit.
Proof.
  intros Hj. unfold quarter_unit. pose proof common_nonneg.
  replace (e - 2 + j + common_power) with (e - 2 + common_power + j) by lia. rewrite Z.pow_add_r by lia. lia.
Qed.

Lemma midpoints_common :
  low_quarters m e * quarter_unit <= common_value <= (4 * m + 2) * quarter_unit /\
  (Z.even m = false -> low_quarters m e * quarter_unit < common_value < (4 * m + 2) * quarter_unit).
Proof.
  pose proof common_nonneg as (HK & HeK & _). unfold between_midpoints in Hmid. cbv zeta in Hmid.
  rewrite !Z.mul_assoc in Hmid.
  rewrite (scale_le 2 ltac:(lia) _ common_power), (scale_le' 2 ltac:(lia) _ common_power),
    (scale_lt 2 ltac:(lia) _ common_power), (scale_lt' 2 ltac:(lia) _ common_power) in Hmid by lia.
  unfold quarter_unit, common_value. rewrite !Z.mul_assoc. exact Hmid.
Qed.

Lemma floor_log2_common : 0 <= floor_log2 n d + common_power /\
  d * 2 ^ (floor_log2 n d + common_power) <= common_value < d * 2 ^ (floor_log2 n d + 1 + common_power).
Proof.
  pose proof common_nonneg as (HK & HeK & HdK). assert (Hl : 0 <= floor_log2 n d + common_power).
  { unfold floor_log2, common_power. pose proof (Z.log2_nonneg n). pose proof (Z.log2_nonneg d).
    destruct (_ <? _); lia. }
  split; [done|]. by apply floor_log2_spec.
Qed.

Lemma floor_log2_at_most l : e - 2 <= l -> common_value < 2 ^ (l - e + 2) * quarter_unit -> floor_log2 n d < l.
Proof.
  intros Hl Hv. destruct floor_log2_common as (Hnn & H1 & _). pose proof common_nonneg.
  rewrite <- unit_power in Hv by lia. replace (e - 2 + (l - e + 2)) with l in Hv by lia.
  destruct (Z.lt_ge_cases (floor_log2 n d) l) as [H'|H']; [done|].
  assert (d * 2 ^ (l + common_power) <= d * 2 ^ (floor_log2 n d + common_power))
    by (apply Z.mul_le_mono_nonneg_l; [lia|]; apply Z.pow_le_mono_r; lia). lia.
Qed.

Lemma floor_log2_at_least l : e - 2 <= l -> 2 ^ (l - e + 2) * quarter_unit <= common_value -> l <= floor_log2 n d.
Proof.
  intros Hl Hv. destruct floor_log2_common as (Hnn & _ & H2). pose proof common_nonneg.
  rewrite <- unit_power in Hv by lia. replace (e - 2 + (l - e + 2)) with l in Hv by lia.
  destruct (Z.lt_ge_cases (floor_log2 n d) l) as [H'|H']; [|done].
  assert (d * 2 ^ (floor_log2 n d + 1 + common_power) <= d * 2 ^ (l + common_power))
    by (apply Z.mul_le_mono_nonneg_l; [lia|]; apply Z.pow_le_mono_r; lia). lia.
Qed.

(** The mantissa rounded at an exponent [j] halvings below [e]. *)
Lemma nearest_mantissa_at j : 0 <= j <= 1 ->
  nearest_mantissa n d (e - j) = round_half_even common_value (2 ^ (2 - j) * quarter_unit).
Proof.
  intros Hj. pose proof common_nonneg. rewrite (nearest_mantissa_common _ _ _ common_power) by lia.
  rewrite <- unit_power by lia. unfold common_value. f_equal. f_equal. f_equal. lia.
Qed.

Lemma nearest_here : nearest_mantissa n d e = m.
Proof.
  replace e with (e - 0) at 1 by lia. rewrite nearest_mantissa_at by lia. change (2 ^ (2 - 0)) with 4.
  pose proof quarter_pos. destruct midpoints_common as [Hb Ho].
  assert (Hlow : 4 * m - 2 <= low_quarters m e) by (unfold low_quarters; destruct (_ && _); lia).
  apply round_half_even_near; [lia|nia|]. intros Hodd. specialize (Ho Hodd). nia.
Qed.

Lemma nearest_below_binade : m = 2 ^ 52 -> common_value < 2 ^ 54 * quarter_unit -> -1074 < e ->
  nearest_mantissa n d (e - 1) = 2 ^ 53.
Proof.
  intros Em Hv He'. rewrite nearest_mantissa_at by lia. change (2 ^ (2 - 1)) with 2.
  pose proof quarter_pos. destruct midpoints_common as [[Hb _] _].
  unfold low_quarters in Hb. rewrite Em in Hb. cbn [Z.eqb] in Hb.
  replace (-1074 <? e) with true in Hb by (symmetry; by apply Z.ltb_lt). rewrite Z.eqb_refl in Hb. cbn [andb] in Hb.
  apply round_half_even_near; [lia| |done]. lia.
Qed.

Lemma between_midpoints_nearest s : nearest_double s n d = Some (S754_finite s (Z.to_pos m) e).
Proof.
  pose proof quarter_pos as Hq. destruct midpoints_common as [[Hb1 Hb2] _].
  assert (Hlow : 4 * m - 2 <= low_quarters m e) by (unfold low_quarters; destruct (_ && _); lia).
  unfold nearest_double. replace (n =? 0) with false by (symmetry; apply Z.eqb_neq; lia).
  assert (Htop : floor_log2 n d < 53 + e).
  { apply floor_log2_at_most; [lia|]. replace (53 + e - e + 2) with 55 by lia. nia. }
  cbv zeta. fold (nearest_mantissa n d (Z.max (floor_log2 n d - 52) (-1074))).
  destruct (Z.lt_ge_cases common_value (2 ^ 54 * quarter_unit)) as [Hsmall|Hbig].
  - assert (Hlt : floor_log2 n d < 52 + e)
      by (apply floor_log2_at_most; [lia|]; by replace (52 + e - e + 2) with 54 by lia).
    destruct (Z.lt_ge_cases (-1074) e) as [Hnormal|Hmin].
    + assert (Em : m = 2 ^ 52) by nia.
      assert (Hge : 51 + e <= floor_log2 n d).
      { apply floor_log2_at_least; [lia|]. replace (51 + e - e + 2) with 53 by lia. nia. }
      replace (Z.max (floor_log2 n d - 52) (-1074)) with (e - 1) by lia.
      rewrite nearest_below_binade by done. rewrite Z.eqb_refl.
      replace (e - 1 + 1) with e by lia. replace (971 <? e) with false by (symmetry; apply Z.ltb_ge; lia).
      by rewrite Em.
    + replace (Z.max (floor_log2 n d - 52) (-1074)) with e by lia. rewrite nearest_here.
      replace (m =? 2 ^ 53) with false by (symmetry; apply Z.eqb_neq; lia).
      replace (m =? 0) with false by (symmetry; apply Z.eqb_neq; lia).
      by replace (971 <? e) with false by (symmetry; apply Z.ltb_ge; lia).
  - assert (Hge : 52 + e <= floor_log2 n d)
      by (apply floor_log2_at_least; [lia|]; by replace (52 + e - e + 2) with 54 by lia).
    replace (Z.max (floor_log2 n d - 52) (-1074)) with e by lia. rewrite nearest_here.
    replace (m =? 2 ^ 53) with false by (symmetry; apply Z.eqb_neq; lia).
    replace (m =? 0) with false by (symmetry; apply Z.eqb_neq; lia).
    by replace (971 <? e) with false by (symmetry; apply Z.ltb_ge; lia).
Qed.
End Nearest.

(** ** Seventeen digits suffice *)

Lemma log10_up_spec fuel : forall n d x, 0 < d -> d <= n -> n < d * 10 ^ Z.of_nat fuel ->
  let x' := log10_up fuel n d x in
  x <= x' < x + Z.of_nat fuel /\ d * 10 ^ (x' - x) <= n < d * 10 ^ (x' - x + 1).
Proof.
  induction fuel as [|fuel IH]; intros n d x Hd Hn Hf; cbn [log10_up].
  { change (10 ^ Z.of_nat 0) with 1 in Hf. lia. }
  rewrite Nat2Z.inj_succ, Z.pow_succ_r in Hf by lia. destruct (Z.ltb_spec n (d * 10)).
  - cbv zeta. rewrite Z.sub_diag. change (10 ^ (0 + 1)) with 10. change (10 ^ 0) with 1. lia.
  - destruct (IH n (d * 10) (x + 1)) as [H1 H2]; [lia..|]. cbv zeta. set (x' := log10_up _ _ _ _) in *.
    split; [lia|]. replace (x' - x) with (Z.succ (x' - (x + 1))) by lia.
    replace (Z.succ (x' - (x + 1)) + 1) with (Z.succ (x' - (x + 1) + 1)) by lia.
    rewrite !Z.pow_succ_r by lia. lia.
Qed.

Lemma log10_down_spec fuel : forall n d x, 0 < n -> n < d -> d <= n * 10 ^ Z.of_nat fuel ->
  let x' := log10_down fuel n d x in
  x - Z.of_nat fuel <= x' < x /\ d <= n * 10 ^ (x - x') /\ n * 10 ^ (x - x' - 1) < d.
Proof.
  assert (Hgen : forall fuel n d x, 0 < n -> d <= n * 10 ^ Z.of_nat fuel ->
    let x' := log10_down fuel n d x in
    x - Z.of_nat fuel <= x' <= x /\ d <= n * 10 ^ (x - x') /\ (x' < x -> n * 10 ^ (x - x' - 1) < d)).
  { clear. induction fuel as [|fuel IH]; intros n d x Hn Hf; cbn [log10_down].
    { change (10 ^ Z.of_nat 0) with 1 in Hf. cbv zeta. rewrite Z.sub_diag. change (10 ^ 0) with 1. lia. }
    rewrite Nat2Z.inj_succ, Z.pow_succ_r in Hf by lia. destruct (Z.leb_spec d n).
    - cbv zeta. rewrite Z.sub_diag. change (10 ^ 0) with 1. lia.
    - destruct (IH (n * 10) d (x - 1)) as (H1 & H2 & H3); [lia..|]. cbv zeta. set (x' := log10_down _ _ _ _) in *.
      split; [lia|]. replace (x - x') with (Z.succ (x - 1 - x')) by lia. rewrite Z.pow_succ_r by lia.
      split; [lia|]. intros _. replace (Z.succ (x - 1 - x') - 1) with (x - 1 - x') by lia.
      destruct (Z.eq_dec x' (x - 1)) as [->|Hne].
      + rewrite Z.sub_diag. change (10 ^ 0) with 1. lia.
      + specialize (H3 ltac:(lia)). replace (x - 1 - x') with (Z.succ (x - 1 - x' - 1)) by lia.
        rewrite Z.pow_succ_r by lia. lia. }
  intros n d x Hn Hlt Hf. destruct (Hgen fuel n d x Hn Hf) as (H1 & H2 & H3). cbv zeta in *.
  set (x' := log10_down fuel n d x) in *.
  assert (x' < x); [|split; [lia|]; split; [done|by apply H3]].
  destruct (Z.eq_dec x' x) as [E|]; [|lia]. rewrite E, Z.sub_diag in H2. change (10 ^ 0) with 1 in H2. lia.
Qed.

Lemma floor_log10_spec n d : 0 < n -> 0 < d -> n < d * 10 ^ 400 -> d <= n * 10 ^ 400 ->
  let x := floor_log10 n d in
  -400 <= x < 400 /\ d * scale_up 10 x <= n * scale_down 10 x /\
  n * scale_down 10 (x + 1) < d * scale_up 10 (x + 1).
Proof.
  intros Hn Hd H1 H2. unfold floor_log10. cbv zeta. destruct (Z.leb_spec d n) as [H|H].
  - destruct (log10_up_spec 400 n d 0 Hd H H1) as [Hx Hv]. cbv zeta in *. set (x := log10_up _ _ _ _) in *.
    rewrite Z.sub_0_r in Hv. unfold scale_up, scale_down.
    replace (0 <=? x) with true by (symmetry; apply Z.leb_le; lia).
    replace (0 <=? x + 1) with true by (symmetry; apply Z.leb_le; lia). lia.
  - destruct (log10_down_spec 400 n d 0 Hn H H2) as (Hx & Hv1 & Hv2). cbv zeta in *. set (x := log10_down _ _ _ _) in *.
    rewrite Z.sub_0_l in Hv1, Hv2. split; [lia|]. unfold scale_up, scale_down.
    replace (0 <=? x) with false by (symmetry; apply Z.leb_gt; lia). split; [lia|].
    destruct (Z.leb_spec 0 (x + 1)).
    + replace (x + 1) with 0 by lia. change (10 ^ 0) with 1. replace (- x - 1) with 0 in Hv2 by lia.
      change (10 ^ 0) with 1 in Hv2. lia.
    + replace (- (x + 1)) with (- x - 1) by lia. lia.
Qed.

Section Shortest.
Variables m e x : Z.
Hypothesis Hm : 0 < m < 2 ^ 53.
Hypothesis He : -1074 <= e <= 971.

(** The value, a quarter of the last place and the unit of the decimal [k], all
    times one power of two and one power of ten. *)
Definition scaled_value : Z := m * 2 ^ (e + 2000) * 10 ^ 1000.
Definition scaled_quarter : Z := 2 ^ (e - 2 + 2000) * 10 ^ 1000.
Definition scaled_unit (k : Z) : Z := 10 ^ (k + 1000) * 2 ^ 2000.

Hypothesis Hlow : scaled_unit x <= scaled_value.
Hypothesis Hhigh : scaled_value < scaled_unit (x + 1).
Hypothesis Hx : -400 <= x < 400.

Lemma scaled_value_quarters : scaled_value = 4 * m * scaled_quarter.
Proof.
  unfold scaled_value, scaled_quarter. replace (e + 2000) with (2 + (e - 2 + 2000)) by lia.
  rewrite Z.pow_add_r by lia. change (2 ^ 2) with 4. lia.
Qed.

Lemma scaled_quarter_pos : 0 < scaled_quarter.
Proof. unfold scaled_quarter. apply Z.mul_pos_pos; apply Z.pow_pos_nonneg; lia. Qed.

Lemma scaled_unit_pos k : -1000 <= k -> 0 < scaled_unit k.
Proof. intros. unfold scaled_unit. apply Z.mul_pos_pos; apply Z.pow_pos_nonneg; lia. Qed.

Lemma scaled_unit_shift k j : -1000 <= k -> 0 <= j -> scaled_unit (k + j) = 10 ^ j * scaled_unit k.
Proof.
  intros Hk Hj. unfold scaled_unit. replace (k + j + 1000) with (j + (k + 1000)) by lia.
  rewrite Z.pow_add_r by lia. lia.
Qed.

(** The quotient [shortest_digits] computes. *)
Definition quotient_num (k : Z) : Z := m * scale_up 2 e * scale_down 10 k.
Definition quotient_den (k : Z) : Z := scale_down 2 e * scale_up 10 k.

Lemma quotient_scaled k : -1000 <= k -> exists p, 0 < p /\
  scaled_value = quotient_num k * p /\ scaled_unit k = quotient_den k * p.
Proof.
  intros Hk. unfold scaled_value, scaled_unit, quotient_num, quotient_den.
  destruct (scale_common 2 e 2000) as (p2 & H2 & -> & ->); [lia..|].
  destruct (scale_common 10 k 1000) as (p10 & H10 & -> & ->); [lia..|].
  exists (p2 * p10). split; [by apply Z.mul_pos_pos|]. split; ring.
Qed.

Lemma reads_back_scaled digits k : -1000 <= k -> reads_back m e digits k = true <->
  low_quarters m e * scaled_quarter <= digits * scaled_unit k <= (4 * m + 2) * scaled_quarter /\
  (Z.even m = false ->
   low_quarters m e * scaled_quarter < digits * scaled_unit k < (4 * m + 2) * scaled_quarter).
Proof.
  intros Hk. rewrite reads_back_iff. unfold between_midpoints, scaled_quarter, scaled_unit. cbv zeta.
  destruct (scale_common 2 (e - 2) 2000) as (p2 & H2 & -> & ->); [lia..|].
  destruct (scale_common 10 k 1000) as (p10 & H10 & -> & ->); [lia..|].
  set (u := scale_up 2 (e - 2)). set (w := scale_down 2 (e - 2)).
  set (u' := scale_up 10 k). set (w' := scale_down 10 k).
  assert (Hp : 0 < p2 * p10) by (by apply Z.mul_pos_pos).
  replace (digits * (u' * p10 * (w * p2))) with (digits * u' * w * (p2 * p10)) by ring.
  replace (low_quarters m e * (u * p2 * (w' * p10))) with (low_quarters m e * (w' * u) * (p2 * p10)) by ring.
  replace ((4 * m + 2) * (u * p2 * (w' * p10))) with ((4 * m + 2) * (w' * u) * (p2 * p10)) by ring.
  rewrite <- !Z.mul_le_mono_pos_r, <- !Z.mul_lt_mono_pos_r by done. reflexivity.
Qed.

(** What one round computes: the two neighbouring decimals and the nearer one. *)
Lemma quotient_bounds n : 1 <= n <= 17 ->
  let k := x - n + 1 in
  let below := quotient_num k / quotient_den k in
  1 <= below < 10 ^ n /\ below * scaled_unit k <= scaled_value < (below + 1) * scaled_unit k /\
  (2 * (quotient_num k - below * quotient_den k) <=? quotient_den k) =
  (2 * (scaled_value - below * scaled_unit k) <=? scaled_unit k).
Proof.
  intros Hn k below. pose proof (scaled_unit_pos k ltac:(lia)) as Hu.
  destruct (quotient_scaled k ltac:(lia)) as (p & Hp & EV & EU).
  assert (Hden : 0 < quotient_den k) by nia.
  assert (Eb : below = scaled_value / scaled_unit k)
    by (unfold below; rewrite EV, EU, Z.div_mul_cancel_r by lia; reflexivity).
  pose proof (Z.div_mod scaled_value (scaled_unit k) ltac:(lia)) as Edm.
  pose proof (Z.mod_pos_bound scaled_value (scaled_unit k) Hu) as Hmod. rewrite <- Eb in Edm.
  assert (E1 : scaled_unit x = 10 ^ (n - 1) * scaled_unit k)
    by (rewrite <- scaled_unit_shift by lia; f_equal; lia).
  assert (E2 : scaled_unit (x + 1) = 10 ^ n * scaled_unit k)
    by (rewrite <- scaled_unit_shift by lia; f_equal; lia).
  assert (Hpow : 0 < 10 ^ (n - 1)) by (apply Z.pow_pos_nonneg; lia).
  split; [split; [nia|]|split; [lia|]].
  - rewrite E2 in Hhigh. nia.
  - apply eq_true_iff_eq. rewrite !Z.leb_le, EV, EU. clear -Hp. split; intros; nia.
Qed.

(** At seventeen digits the nearer neighbour reads back. *)
Lemma nearest_reads_back digits : (m < 2 ^ 52 -> e = -1074) ->
  2 * Z.abs (scaled_value - digits * scaled_unit (x - 16)) <= scaled_unit (x - 16) ->
  reads_back m e digits (x - 16) = true.
Proof.
  intros Hsub Hd. apply reads_back_scaled; [lia|]. pose proof scaled_quarter_pos as Hq.
  set (q := scaled_quarter) in *. set (a := scaled_unit (x - 16)) in *.
  assert (E1 : scaled_unit x = 10 ^ 16 * a)
    by (unfold a; rewrite <- scaled_unit_shift by lia; f_equal; lia).
  rewrite E1 in Hlow. pose proof scaled_value_quarters as EV. fold q in EV.
  change (10 ^ 16) with 10000000000000000 in *. change (2 ^ 53) with 9007199254740992 in *.
  change (2 ^ 52) with 4503599627370496 in *.
  assert (Ha : 10 * a < 37 * q) by nia.
  unfold low_quarters. change (2 ^ 52) with 4503599627370496.
  destruct (Z.eqb_spec m 4503599627370496) as [->|Hne]; cbn [andb].
  - assert (Hb : 10 * a < 19 * q) by lia. destruct (-1074 <? e); lia.
  - lia.
Qed.
End Shortest.

Lemma shortest_digits_reads_back m e x fuel n :
  0 < m < 2 ^ 53 -> -1074 <= e <= 971 -> (m < 2 ^ 52 -> e = -1074) -> -400 <= x < 400 ->
  scaled_unit x <= scaled_value m e -> scaled_value m e < scaled_unit (x + 1) ->
  1 <= n -> Z.of_nat fuel + n = 18 -> (1 <= fuel)%nat ->
  let '(digits, k) := shortest_digits fuel m e x n in
  reads_back m e digits k = true /\ 1 <= digits <= 10 ^ 17 /\ -416 <= k <= 399.
Proof.
  intros Hm He Hsub Hx Hlow Hhigh. revert n. induction fuel as [|fuel IH]; intros n Hn Hf Hf1; [lia|].
  rewrite Nat2Z.inj_succ in Hf. cbn [shortest_digits].
  destruct (quotient_bounds m e x Hm He Hlow Hhigh Hx n) as (Hb & Hv & En); [lia|].
  fold (quotient_num m e (x - n + 1)) (quotient_den e (x - n + 1)). cbv zeta in *. rewrite En.
  set (k := x - n + 1) in *. set (below := quotient_num m e k / quotient_den e k) in *.
  assert (Hpow : 10 ^ n <= 10 ^ 17) by (apply Z.pow_le_mono_r; lia).
  set (near := 2 * (scaled_value m e - below * scaled_unit k) <=? scaled_unit k).
  destruct (reads_back m e below k) eqn:E1, (reads_back m e (below + 1) k) eqn:E2;
    cbn [andb orb negb]; rewrite ?orb_true_r, ?andb_true_l.
  - destruct near; cbn [orb]; (split; [done|split; lia]).
  - split; [done|split; lia].
  - split; [done|split; lia].
  - destruct (Z.eq_dec n 17) as [->|Hne]; [exfalso|apply IH; lia].
    assert (Ek : x - 16 = k) by (unfold k; lia).
    pose proof (fun d => nearest_reads_back m e x Hm He Hlow Hx d Hsub) as Hnear. rewrite Ek in Hnear.
    clearbody k. destruct near eqn:Enear; unfold near in Enear; breflect.
    + rewrite Hnear in E1; [done|lia].
    + rewrite Hnear in E2; [done|lia].
Qed.

Lemma strip_zeros_spec fuel : forall digits k, 1 <= digits ->
  let '(digits', k') := strip_zeros fuel digits k in
  1 <= digits' <= digits /\ k <= k' <= k + Z.of_nat fuel /\ digits = digits' * 10 ^ (k' - k).
Proof.
  induction fuel as [|fuel IH]; intros digits k Hd; cbn [strip_zeros].
  { rewrite Z.sub_diag. change (10 ^ 0) with 1. lia. }
  destruct ((digits mod 10 =? 0) && (1 <=? digits)) eqn:E.
  - breflect. pose proof (Z.div_mod digits 10 ltac:(lia)) as Ed.
    specialize (IH (digits / 10) (k + 1) ltac:(lia)). destruct (strip_zeros fuel (digits / 10) (k + 1)) as [d' k'].
    destruct IH as (H1 & H2 & H3). split; [lia|]. split; [lia|].
    replace (k' - k) with (Z.succ (k' - (k + 1))) by lia. rewrite Z.pow_succ_r by lia. lia.
  - rewrite Z.sub_diag. change (10 ^ 0) with 1. lia.
Qed.

(** ** Every decimal equal to the shortest one is rounded back *)

(** [digits * 10^k] is the decimal [to_chars_general] chose, written at some
    exponent. *)
Definition shortest_decimal (m e : Z) : Z * Z :=
  let '(digits, k) :=
    shortest_digits 17 m e (floor_log10 (m * scale_up 2 e) (scale_down 2 e)) 1 in
  strip_zeros 20 digits k.

Lemma decimal_nearest s m e digits k j : 0 < m < 2 ^ 53 -> -1074 <= e <= 971 -> (m < 2 ^ 52 -> e = -1074) ->
  0 < digits -> 0 <= j -> reads_back m e digits (k + j) = true ->
  nearest_double s (digits * 10 ^ j * scale_up 10 k) (scale_down 10 k) = Some (S754_finite s (Z.to_pos m) e).
Proof.
  intros Hm He Hsub Hd Hj Hr. pose proof (scale_pos 10 k ltac:(lia)) as [H1 H2].
  pose proof (Z.pow_pos_nonneg 10 j ltac:(lia) Hj).
  apply between_midpoints_nearest; try done; [nia|]. apply reads_back_iff. revert Hr.
  rewrite !reads_back_iff. unfold between_midpoints. cbv zeta.
  set (K := Z.abs k + j). pose proof (scale_pos 2 (e - 2) ltac:(lia)) as [Hu Hw].
  set (u := scale_up 2 (e - 2)) in *. set (w := scale_down 2 (e - 2)) in *.
  destruct (scale_common 10 k K) as (p & Hp & Ep & Ep'); [unfold K; lia..|].
  destruct (scale_common 10 (k + j) K) as (p' & Hp' & Eq & Eq'); [unfold K; lia..|].
  assert (E : 10 ^ (k + j + K) = 10 ^ j * 10 ^ (k + K))
    by (rewrite <- Z.pow_add_r by (unfold K; lia); f_equal; lia).
  assert (Hcross : scale_up 10 (k + j) * p' = 10 ^ j * (scale_up 10 k * p)) by (rewrite <- Ep, <- Eq; exact E).
  assert (Hcross' : scale_down 10 (k + j) * p' = scale_down 10 k * p) by (rewrite <- Ep', <- Eq'; reflexivity).
  clear Ep Ep' Eq Eq' E.
  set (a := scale_up 10 (k + j)) in *. set (b := scale_down 10 (k + j)) in *.
  set (c := scale_up 10 k) in *. set (d := scale_down 10 k) in *.
  assert (Hscale : forall z, (z * (b * u) <= digits * a * w <-> z * (d * u) <= digits * 10 ^ j * c * w) /\
    (digits * a * w <= z * (b * u) <-> digits * 10 ^ j * c * w <= z * (d * u)) /\
    (z * (b * u) < digits * a * w <-> z * (d * u) < digits * 10 ^ j * c * w) /\
    (digits * a * w < z * (b * u) <-> digits * 10 ^ j * c * w < z * (d * u))).
  { intros z.
    rewrite (Z.mul_le_mono_pos_r _ _ p' Hp'), (Z.mul_le_mono_pos_r (digits * a * w) _ p' Hp'),
      (Z.mul_lt_mono_pos_r p' _ _ Hp'), (Z.mul_lt_mono_pos_r p' (digits * a * w) _ Hp').
    rewrite (Z.mul_le_mono_pos_r _ (digits * 10 ^ j * c * w) p Hp),
      (Z.mul_le_mono_pos_r (digits * 10 ^ j * c * w) _ p Hp),
      (Z.mul_lt_mono_pos_r p _ (digits * 10 ^ j * c * w) Hp),
      (Z.mul_lt_mono_pos_r p (digits * 10 ^ j * c * w) _ Hp).
    replace (digits * a * w * p') with (digits * w * (a * p')) by ring. rewrite Hcross.
    replace (z * (b * u) * p') with (z * u * (b * p')) by ring. rewrite Hcross'.
    replace (digits * w * (10 ^ j * (c * p))) with (digits * 10 ^ j * c * w * p) by ring.
    replace (z * u * (d * p)) with (z * (d * u) * p) by ring. tauto. }
  destruct (Hscale (low_quarters m e)) as (A1 & _ & A3 & _).
  destruct (Hscale (4 * m + 2)) as (_ & B2 & _ & B4). rewrite A1, A3, B2, B4. tauto.
Qed.

Lemma shortest_decimal_spec m e : 0 < m < 2 ^ 53 -> -1074 <= e <= 971 -> (m < 2 ^ 52 -> e = -1074) ->
  let '(digits, k) := shortest_decimal m e in
  1 <= digits <= 10 ^ 17 /\ -416 <= k <= 419 /\
  forall s j, 0 <= j ->
    nearest_double s (digits * 10 ^ j * scale_up 10 (k - j)) (scale_down 10 (k - j)) =
    Some (S754_finite s (Z.to_pos m) e).
Proof.
  intros Hm He Hsub. unfold shortest_decimal. pose proof (scale_pos 2 e ltac:(lia)) as [Hu Hw].
  assert (Hup : scale_up 2 e <= 2 ^ 971)
    by (unfold scale_up; destruct (0 <=? e); [apply Z.pow_le_mono_r; lia|apply Z.lt_le_incl; reflexivity]).
  assert (Hdown : scale_down 2 e <= 2 ^ 1074)
    by (unfold scale_down; destruct (0 <=? e); [apply Z.lt_le_incl; reflexivity|apply Z.pow_le_mono_r; lia]).
  assert (Hbig : 2 ^ 53 * 2 ^ 971 < 10 ^ 400) by reflexivity.
  assert (Hbig' : 2 ^ 1074 < 10 ^ 400) by reflexivity.
  destruct (floor_log10_spec (m * scale_up 2 e) (scale_down 2 e)) as (Hx & Hlow & Hhigh); [nia|done| | |].
  { set (P := 2 ^ 53) in *. set (Q := 2 ^ 971) in *. set (R := 10 ^ 400) in *. clearbody P Q R. nia. }
  { assert (Hone : 1 <= m * scale_up 2 e) by nia. clear -Hone Hdown Hbig' Hw.
    set (R := 10 ^ 400) in *. set (Q := 2 ^ 1074) in *. set (y := m * scale_up 2 e) in *. clearbody R Q y.
    assert (0 <= R) by lia. nia. }
  cbv zeta in *. set (x := floor_log10 _ _) in *.
  assert (Hlow' : scaled_unit x <= scaled_value m e).
  { destruct (quotient_scaled m e He x) as (p & Hp & -> & ->); [lia|].
    apply Z.mul_le_mono_nonneg_r; [lia|]. unfold quotient_num, quotient_den. lia. }
  assert (Hhigh' : scaled_value m e < scaled_unit (x + 1)).
  { destruct (quotient_scaled m e He (x + 1)) as (p & Hp & -> & ->); [lia|].
    apply Z.mul_lt_mono_pos_r; [done|]. unfold quotient_num, quotient_den. lia. }
  pose proof (shortest_digits_reads_back m e x 17 1 Hm He Hsub Hx Hlow' Hhigh' ltac:(lia) eq_refl ltac:(lia)) as H.
  destruct (shortest_digits 17 m e x 1) as [digits0 k0]. destruct H as (Hr & Hd0 & Hk0).
  pose proof (strip_zeros_spec 20 digits0 k0 ltac:(lia)) as H.
  destruct (strip_zeros 20 digits0 k0) as [digits k]. destruct H as (Hd & Hk & E).
  split; [lia|]. split; [lia|]. intros s j Hj.
  assert (Hr' : reads_back m e digits (k - j + j) = true).
  { replace (k - j + j) with k by lia. revert Hr. rewrite !reads_back_scaled by lia. rewrite E.
    replace (scaled_unit k) with (10 ^ (k - k0) * scaled_unit k0)
      by (rewrite <- scaled_unit_shift by lia; f_equal; lia).
    by rewrite !Z.mul_assoc. }
  assert (0 < digits) by lia. clear Hbig Hbig'.
  apply decimal_nearest; [exact Hm|exact He|exact Hsub|assumption|exact Hj|exact Hr'].
Qed.
