(* ===== verification/Json.v ===== *)
(** * The JSON text codec

    json.hpp/json.cpp: the canonical and the pretty writer and the strict parser
    of the value tree.  The parser's [position_] is the text that is left, its
    [nodes_] is threaded; an early return is [P_Fail].  Loops and recursion over
    the document run on fuel, which [Parse] supplies from the size of the text;
    [P_Fuel] is never reached (JsonFacts.v). *)

From Stdlib Require Import ZArith Lia List Bool Ascii String.
From Stdlib Require Import Floats.SpecFloat.
From stdpp Require Import base tactics list strings.
From S2P Require Import Prelude Containers Text Status Double Decimal Value.
#[local] Open Scope string_scope.
#[local] Open Scope Z_scope.
#[local] Arguments String.append : simpl nomatch.

Definition kBytesMember : string := "$bytes".

Definition quote_char : ascii := "034".
Definition backslash : ascii := "\".
Definition quote : string := char_string quote_char.

(** ** The writers *)

Definition escape_char (c : ascii) : string :=
  let b := byte_of c in
  if Ascii.eqb c quote_char then String backslash quote
  else if Ascii.eqb c backslash then "\\"
  else if b =? 8 then "\b"
  else if b =? 12 then "\f"
  else if b =? 10 then "\n"
  else if b =? 13 then "\r"
  else if b =? 9 then "\t"
  else if b <? 0x20 then
    "\u00" +:+ String (hex_digit (Z.land (Z.shiftr b 4) 0x0F)) (char_string (hex_digit (Z.land b 0x0F)))
  else char_string c.

Fixpoint escape_text (text : string) : string :=
  match text with "" => "" | String c rest => escape_char c +:+ escape_text rest end.

Definition AppendEscaped (text : string) : string := quote +:+ escape_text text +:+ quote.

Definition JsonQuote (text : string) : string := AppendEscaped text.

Definition has_char (c : ascii) (text : string) : bool :=
  existsb (Ascii.eqb c) (list_ascii_of_string text).

Definition FormatDoubleCanonical (value : Double) : string :=
  let text := to_chars_general value in
  if negb (has_char "." text) && negb (has_char "e" text) && negb (has_char "E" text)
  then text +:+ ".0" else text.

(** Items with a comma between two of them. *)
Fixpoint comma_separated (items : list string) : string :=
  match items with
  | [] => ""
  | [item] => item
  | item :: rest => item +:+ "," +:+ comma_separated rest
  end.

Fixpoint WriteCompact (value : Value) : string :=
  match value with
  | V_Null => "null"
  | V_Bool b => if b then "true" else "false"
  | V_Int v => to_string_signed v
  | V_Uint v => to_string_unsigned v
  | V_Double v => FormatDoubleCanonical v
  | V_String text => AppendEscaped text
  | V_Bytes bytes => "{" +:+ quote +:+ kBytesMember +:+ quote +:+ ":" +:+ quote +:+ ToHex bytes +:+ quote +:+ "}"
  | V_List l => "[" +:+ comma_separated (map WriteCompact l) +:+ "]"
  | V_Map m =>
      "{" +:+ comma_separated
        (map (fun entry => AppendEscaped (fst entry) +:+ ":" +:+ WriteCompact (snd entry)) m) +:+ "}"
  end.

Fixpoint spaces (n : nat) : string := match n with O => "" | S n' => String " " (spaces n') end.

Definition WriteIndent (width depth : Z) : string :=
  if width =? 0 then "" else String "010" (spaces (Z.to_nat (width * depth))).

Fixpoint WritePretty (width depth : Z) (value : Value) : string :=
  match value with
  | V_List [] => "[]"
  | V_List l =>
      "[" +:+ comma_separated
        (map (fun element => WriteIndent width (depth + 1) +:+ WritePretty width (depth + 1) element) l) +:+
      WriteIndent width depth +:+ "]"
  | V_Map [] => "{}"
  | V_Map m =>
      "{" +:+ comma_separated
        (map (fun entry => WriteIndent width (depth + 1) +:+ AppendEscaped (fst entry) +:+ ": " +:+
                WritePretty width (depth + 1) (snd entry)) m) +:+
      WriteIndent width depth +:+ "}"
  | _ => WriteCompact value
  end.

Definition WriteCanonicalJson (value : Value) : string := WriteCompact value.
Definition WritePrettyJson (value : Value) (indent_width : Z) : string := WritePretty indent_width 0 value.

(** ** The parser *)

Inductive Parsed (A : Type) : Type :=
| P_Ok (value : A) (rest : string)
| P_Fail (status : Status)
| P_Fuel.
Arguments P_Ok {A}. Arguments P_Fail {A}. Arguments P_Fuel {A}.

Definition pbind {A B} (p : Parsed A) (k : A -> string -> Parsed B) : Parsed B :=
  match p with
  | P_Ok value rest => k value rest
  | P_Fail status => P_Fail status
  | P_Fuel => P_Fuel
  end.

Notation "'let*' ( x , rest ) := p 'in' k" := (pbind p (fun x rest => k))
  (at level 200, x pattern, rest name, p at level 100, k at level 200) : ndo_scope.

Definition Fail {A} (reason : ReasonCode) (detail : string) : Parsed A :=
  P_Fail (Status_Rejected reason detail).
Definition Limit {A} (reason : ReasonCode) (detail : string) : Parsed A :=
  P_Fail (Status_Limit reason detail).

Definition is_whitespace (c : ascii) : bool :=
  Ascii.eqb c " " || Ascii.eqb c "009" || Ascii.eqb c "010" || Ascii.eqb c "013".

Fixpoint SkipWhitespace (text : string) : string :=
  match text with
  | "" => ""
  | String c rest => if is_whitespace c then SkipWhitespace rest else text
  end.

(** [text_.substr(position_, literal.size()) == literal]. *)
Fixpoint strip_prefix (literal text : string) : option string :=
  match literal, text with
  | "", _ => Some text
  | String c literal', String d text' => if Ascii.eqb c d then strip_prefix literal' text' else None
  | _, _ => None
  end.

(** [ParseHex4], once four characters are there. *)
Definition ParseHex4 (h1 h2 h3 h4 : ascii) : option Z :=
  foldl (fun value c =>
    match value with
    | None => None
    | Some v => if HexValue c <? 0 then None else Some (Z.lor (Z.shiftl v 4) (HexValue c))
    end) (Some 0) [h1; h2; h3; h4].

Definition AppendUtf8 (codepoint : Z) : string :=
  string_of_bytes
    (if codepoint <? 0x80 then [codepoint]
     else if codepoint <? 0x800 then
       [Z.lor 0xC0 (Z.shiftr codepoint 6); Z.lor 0x80 (Z.land codepoint 0x3F)]
     else if codepoint <? 0x10000 then
       [Z.lor 0xE0 (Z.shiftr codepoint 12); Z.lor 0x80 (Z.land (Z.shiftr codepoint 6) 0x3F);
        Z.lor 0x80 (Z.land codepoint 0x3F)]
     else
       [Z.lor 0xF0 (Z.shiftr codepoint 18); Z.lor 0x80 (Z.land (Z.shiftr codepoint 12) 0x3F);
        Z.lor 0x80 (Z.land (Z.shiftr codepoint 6) 0x3F); Z.lor 0x80 (Z.land codepoint 0x3F)]).

(** The escapes of one character. *)
Definition simple_escape (escape : ascii) : option ascii :=
  if Ascii.eqb escape quote_char then Some quote_char
  else if Ascii.eqb escape backslash then Some backslash
  else if Ascii.eqb escape "/" then Some "/"%char
  else if Ascii.eqb escape "b" then Some "008"%char
  else if Ascii.eqb escape "f" then Some "012"%char
  else if Ascii.eqb escape "n" then Some "010"%char
  else if Ascii.eqb escape "r" then Some "013"%char
  else if Ascii.eqb escape "t" then Some "009"%char
  else None.

Definition is_high_surrogate (codepoint : Z) : bool := (0xD800 <=? codepoint) && (codepoint <=? 0xDBFF).
Definition is_low_surrogate (codepoint : Z) : bool := (0xDC00 <=? codepoint) && (codepoint <=? 0xDFFF).
Definition join_surrogates (high low : Z) : Z :=
  0x10000 + Z.shiftl (high - 0xD800) 10 + (low - 0xDC00).

Section Parser.
Variable limits : RuntimeLimits.

(** What has been decoded so far stays below the bound. *)
Definition bounded_string (out : string) (k : string -> Parsed string) : Parsed string :=
  if max_leaf_bytes limits <? ssize out
  then Limit RC_LimitBytesExceeded "string exceeds the envelope" else k out.

(** The loop of [ParseString], after the opening quote. *)
Fixpoint ParseString (text out : string) : Parsed string :=
  match text with
  | "" => Fail RC_EncodingMalformed "unterminated string"
  | String c rest =>
      if Ascii.eqb c quote_char then
        if negb (IsValidUtf8 out) then Fail RC_EncodingInvalidUtf8 "string is not valid UTF-8"
        else bounded_string out (fun out => P_Ok out rest)
      else if Ascii.eqb c backslash then
        match rest with
        | "" => Fail RC_EncodingMalformed "truncated escape sequence"
        | String escape rest =>
            match simple_escape escape with
            | Some d => bounded_string (out +:+ char_string d) (fun out => ParseString rest out)
            | None =>
                if negb (Ascii.eqb escape "u")
                then Fail RC_EncodingMalformed "invalid escape sequence"
                else
                  match rest with
                  | String h1 (String h2 (String h3 (String h4 rest))) =>
                      match ParseHex4 h1 h2 h3 h4 with
                      | None => Fail RC_EncodingMalformed "invalid escape digit"
                      | Some codepoint =>
                          if is_high_surrogate codepoint then
                            match rest with
                            | String b (String u rest) =>
                                if negb (Ascii.eqb b backslash && Ascii.eqb u "u")
                                then Fail RC_EncodingInvalidUtf8 "lone high surrogate"
                                else
                                  match rest with
                                  | String l1 (String l2 (String l3 (String l4 rest))) =>
                                      match ParseHex4 l1 l2 l3 l4 with
                                      | None => Fail RC_EncodingMalformed "invalid escape digit"
                                      | Some low =>
                                          if negb (is_low_surrogate low)
                                          then Fail RC_EncodingInvalidUtf8
                                                 "high surrogate without a low surrogate"
                                          else bounded_string
                                                 (out +:+ AppendUtf8 (join_surrogates codepoint low))
                                                 (fun out => ParseString rest out)
                                      end
                                  | _ => Fail RC_EncodingMalformed "truncated escape sequence"
                                  end
                            | _ => Fail RC_EncodingInvalidUtf8 "lone high surrogate"
                            end
                          else if is_low_surrogate codepoint
                          then Fail RC_EncodingInvalidUtf8 "lone low surrogate"
                          else bounded_string (out +:+ AppendUtf8 codepoint)
                                 (fun out => ParseString rest out)
                      end
                  | _ => Fail RC_EncodingMalformed "truncated escape sequence"
                  end
            end
        end
      else if byte_of c <? 0x20 then Fail RC_EncodingMalformed "raw control character in string"
      else bounded_string (out +:+ char_string c) (fun out => ParseString rest out)
  end.

(** *** Numbers: the token, then its value *)

Definition scan_whole (text : string) : Parsed string :=
  match text with
  | "" => Fail RC_EncodingUnexpectedToken "not a value"
  | String c rest =>
      if negb (is_digit c) then Fail RC_EncodingUnexpectedToken "not a value"
      else if Ascii.eqb c "0" then
        match rest with
        | String d _ =>
            if is_digit d then Fail RC_EncodingMalformed "number has a leading zero" else P_Ok "0" rest
        | "" => P_Ok "0" rest
        end
      else let '(digits, rest) := take_digits text in P_Ok digits rest
  end.

Definition scan_fraction (text : string) : Parsed string :=
  match next_is "." text with
  | None => P_Ok "" text
  | Some rest =>
      match take_digits rest with
      | ("", _) => Fail RC_EncodingMalformed "fraction has no digits"
      | (digits, rest) => P_Ok (String "." digits) rest
      end
  end.

Definition scan_exponent (text : string) : Parsed string :=
  match text with
  | String c rest =>
      if Ascii.eqb c "e" || Ascii.eqb c "E" then
        let '(sign, rest) :=
          match rest with
          | String s rest' =>
              if Ascii.eqb s "+" || Ascii.eqb s "-" then (char_string s, rest') else ("", rest)
          | "" => ("", rest)
          end in
        match take_digits rest with
        | ("", _) => Fail RC_EncodingMalformed "exponent has no digits"
        | (digits, rest) => P_Ok (String c (sign +:+ digits)) rest
        end
      else P_Ok "" text
  | "" => P_Ok "" text
  end.

Definition number_double (token : string) : option Value :=
  match from_chars_double token with Some v => TryMakeDouble v | None => None end.

(** An integral token of at most twenty characters that fits 64 bits is an
    integer; every other token is a double. *)
Definition number_value (token : string) (integral : bool) : option Value :=
  let integer :=
    if integral && (ssize token <=? 20) then
      match next_is "-" token with
      | Some _ => option_map V_Int (from_chars_int64 token)
      | None => option_map (fun v => if v <=? INT64_MAX then V_Int v else V_Uint v) (from_chars_uint64 token)
      end
    else None in
  match integer with Some v => Some v | None => number_double token end.

Definition ParseNumber (text : string) : Parsed Value :=
  let '(negative, text) := take_minus text in
  let* (whole, text) := scan_whole text in
  let* (fraction, text) := scan_fraction text in
  let* (exponent, text) := scan_exponent text in
  let token := (if negative then "-" else "") +:+ whole +:+ fraction +:+ exponent in
  match number_value token ((fraction =? "") && (exponent =? ""))%string with
  | Some v => P_Ok v text
  | None => Fail RC_EncodingNumberOutOfRange "number is outside the representable range"
  end.

(** *** Values *)

(** [{"$bytes": "<hex>"}] is a byte string. *)
Definition FinishObject (map : omap string Value) (rest : string) : Parsed Value :=
  match (if vsize map =? 1 then mfind kBytesMember map else None) with
  | None => P_Ok (V_Map map) rest
  | Some (V_String hex) =>
      match FromHex hex with
      | None => Fail RC_EncodingMalformed "the byte-string tag carries invalid hex"
      | Some raw =>
          if max_leaf_bytes limits <? vsize raw
          then Limit RC_LimitBytesExceeded "byte string exceeds the envelope"
          else P_Ok (V_Bytes raw) rest
      end
  | Some _ => Fail RC_EncodingMalformed "the byte-string tag must carry a hex string"
  end.

Definition finish_nodes (p : Parsed Value) (nodes : Z) : Parsed (Value * Z) :=
  let* (v, rest) := p in P_Ok (v, nodes) rest.

Definition ParseLiteral (literal : string) (value : Value) (text : string) : Parsed Value :=
  match strip_prefix literal text with
  | Some rest => P_Ok value rest
  | None => Fail RC_EncodingUnexpectedToken "unrecognized literal"
  end.

(** [ParseValue] with the bodies of [ParseObject] and [ParseArray]; the loops
    are [parse_members] and [parse_elements]. *)
Fixpoint ParseValue (fuel : nat) (depth nodes : Z) (text : string) : Parsed (Value * Z) :=
  match fuel with
  | O => P_Fuel
  | S fuel =>
      if max_value_depth limits <? depth
      then Limit RC_LimitDepthExceeded "document nesting exceeds the envelope"
      else if max_value_nodes limits <? nodes + 1
      then Limit RC_LimitObjectsExceeded "document node count exceeds the envelope"
      else
        let nodes := nodes + 1 in
        match text with
        | "" => Fail RC_EncodingMalformed "document ended before a value"
        | String c rest =>
            if Ascii.eqb c "{" then
              let rest := SkipWhitespace rest in
              match next_is "}" rest with
              | Some rest => finish_nodes (FinishObject [] rest) nodes
              | None => parse_members fuel depth nodes [] rest
              end
            else if Ascii.eqb c "[" then
              let rest := SkipWhitespace rest in
              match next_is "]" rest with
              | Some rest => P_Ok (V_List [], nodes) rest
              | None => parse_elements fuel depth nodes [] rest
              end
            else if Ascii.eqb c quote_char then
              let* (s, rest) := ParseString rest "" in P_Ok (V_String s, nodes) rest
            else if Ascii.eqb c "t" then finish_nodes (ParseLiteral "true" (V_Bool true) text) nodes
            else if Ascii.eqb c "f" then finish_nodes (ParseLiteral "false" (V_Bool false) text) nodes
            else if Ascii.eqb c "n" then finish_nodes (ParseLiteral "null" V_Null text) nodes
            else finish_nodes (ParseNumber text) nodes
        end
  end
with parse_members (fuel : nat) (depth nodes : Z) (map : omap string Value) (text : string)
    : Parsed (Value * Z) :=
  match fuel with
  | O => P_Fuel
  | S fuel =>
      match next_is quote_char (SkipWhitespace text) with
      | None => Fail RC_EncodingMalformed "member name must be a string"
      | Some rest =>
          let* (key, rest) := ParseString rest "" in
          if max_leaf_bytes limits <? ssize key
          then Limit RC_LimitBytesExceeded "member name exceeds the envelope"
          else
            match next_is ":" (SkipWhitespace rest) with
            | None => Fail RC_EncodingMalformed "member name must be followed by a colon"
            | Some rest =>
                let* ((member, nodes), rest) := ParseValue fuel (depth + 1) nodes (SkipWhitespace rest) in
                if mmem key map then Fail RC_EncodingDuplicateKey "duplicate member name"
                else
                  let map := memplace key member map in
                  if max_fields_per_object limits <? vsize map
                  then Limit RC_LimitFieldsExceeded "member count exceeds the envelope"
                  else
                    match SkipWhitespace rest with
                    | "" => Fail RC_EncodingMalformed "unterminated object"
                    | String c rest =>
                        if Ascii.eqb c "," then parse_members fuel depth nodes map rest
                        else if Ascii.eqb c "}" then finish_nodes (FinishObject map rest) nodes
                        else Fail RC_EncodingMalformed "expected ',' or '}'"
                    end
            end
      end
  end
with parse_elements (fuel : nat) (depth nodes : Z) (list : list Value) (text : string)
    : Parsed (Value * Z) :=
  match fuel with
  | O => P_Fuel
  | S fuel =>
      let* ((element, nodes), rest) := ParseValue fuel (depth + 1) nodes (SkipWhitespace text) in
      let list := (list ++ [element])%list in
      if max_value_nodes limits <? vsize list
      then Limit RC_LimitObjectsExceeded "sequence exceeds the envelope"
      else
        match SkipWhitespace rest with
        | "" => Fail RC_EncodingMalformed "unterminated sequence"
        | String c rest =>
            if Ascii.eqb c "," then parse_elements fuel depth nodes list rest
            else if Ascii.eqb c "]" then P_Ok (V_List list, nodes) rest
            else Fail RC_EncodingMalformed "expected ',' or ']'"
        end
  end.

(** [Parser::Parse].  Two units of fuel per character are enough. *)
Definition Parse (text : string) : Parsed Value :=
  let text := SkipWhitespace text in
  if (text =? "")%string then Fail RC_EncodingMalformed "empty document"
  else
    let* ((value, _), rest) := ParseValue (2 * String.length text + 2) 0 0 text in
    let rest := SkipWhitespace rest in
    if negb (rest =? "")%string
    then Fail RC_EncodingTrailingBytes "document has bytes after the top-level value"
    else P_Ok value rest.
End Parser.

(** [ParseJson(text, limits, out)]; [out] changes only on success. *)
Definition ParseJson (text : string) (limits : RuntimeLimits) (out : Value) : Status * Value :=
  if max_document_bytes limits <? ssize text
  then (Status_Limit RC_LimitBytesExceeded "document exceeds the envelope", out)
  else
    match Parse limits text with
    | P_Ok parsed _ => (Status_Ok, parsed)
    | P_Fail status => (status, out)
    | P_Fuel => (Status_Internal RC_None "", out)
    end.
