(* ===== verification/JsonGrammar.v ===== *)
(** * The grammar of JSON documents

    What json.cpp accepts, as relations that do not mention the parser:
    [Number], [Chars] (the inside of a string literal) and [Spells], which says
    that a text spells a value.  JsonFacts.v proves that the parser accepts
    exactly the texts that spell a value within the envelope, and that both
    writers produce such texts. *)

From Stdlib Require Import ZArith Lia List Bool Ascii String.
From stdpp Require Import base tactics list strings.
From S2P Require Import Prelude Containers Text Status Double Decimal Value Json.
#[local] Open Scope string_scope.
#[local] Open Scope Z_scope.
#[local] Arguments String.append : simpl nomatch.

(** ** Tokens *)

Definition all_digits (s : string) : Prop := take_digits s = (s, "").

Definition digits_part (s : string) : Prop := s <> "" /\ all_digits s.

Definition sign_part (s : string) : Prop := s = "" \/ s = "-".
Definition whole_part (s : string) : Prop :=
  s = "0" \/ (all_digits s /\ exists c r, s = String c r /\ c <> "0"%char).
Definition fraction_part (s : string) : Prop := s = "" \/ exists d, s = String "." d /\ digits_part d.
Definition exponent_part (s : string) : Prop :=
  s = "" \/ exists c sign d, s = String c (sign +:+ d) /\ (c = "e"%char \/ c = "E"%char) /\
    (sign = "" \/ sign = "+" \/ sign = "-") /\ digits_part d.

Definition Number (v : Value) (token : string) : Prop :=
  exists sign whole fraction exponent,
    token = sign +:+ whole +:+ fraction +:+ exponent /\
    sign_part sign /\ whole_part whole /\ fraction_part fraction /\ exponent_part exponent /\
    number_value token ((fraction =? "") && (exponent =? ""))%string = Some v.

(** The inside of a string literal and the bytes it stands for. *)
Inductive Chars : string -> string -> Prop :=
| Chars_end : Chars "" ""
| Chars_raw c t d : c <> quote_char -> c <> backslash -> 0x20 <= byte_of c ->
    Chars t d -> Chars (String c t) (String c d)
| Chars_escape e c t d : simple_escape e = Some c ->
    Chars t d -> Chars (String backslash (String e t)) (String c d)
| Chars_unicode h1 h2 h3 h4 code t d : ParseHex4 h1 h2 h3 h4 = Some code ->
    is_high_surrogate code = false -> is_low_surrogate code = false -> Chars t d ->
    Chars (String backslash (String "u" (String h1 (String h2 (String h3 (String h4 t))))))
      (AppendUtf8 code +:+ d)
| Chars_pair h1 h2 h3 h4 l1 l2 l3 l4 high low t d :
    ParseHex4 h1 h2 h3 h4 = Some high -> ParseHex4 l1 l2 l3 l4 = Some low ->
    is_high_surrogate high = true -> is_low_surrogate low = true -> Chars t d ->
    Chars (String backslash (String "u" (String h1 (String h2 (String h3 (String h4
             (String backslash (String "u" (String l1 (String l2 (String l3 (String l4 t))))))))))))
      (AppendUtf8 (join_surrogates high low) +:+ d).

Definition Literal (s text : string) : Prop :=
  exists t, text = quote +:+ t +:+ quote /\ Chars t s /\ IsValidUtf8 s = true.

Definition whitespace (s : string) : Prop := SkipWhitespace s = "".

(** ** Documents *)

(** The members of an object as a map. *)
Definition map_of (members : list (string * Value)) : omap string Value :=
  foldl (fun m entry => memplace (fst entry) (snd entry) m) [] members.

(** The value a complete object stands for. *)
Definition object_value (map : omap string Value) : option Value :=
  match (if vsize map =? 1 then mfind kBytesMember map else None) with
  | None => Some (V_Map map)
  | Some (V_String hex) => option_map V_Bytes (FromHex hex)
  | Some _ => None
  end.

Inductive Spells : Value -> string -> Prop :=
| Spells_null : Spells V_Null "null"
| Spells_true : Spells (V_Bool true) "true"
| Spells_false : Spells (V_Bool false) "false"
| Spells_number v t : Number v t -> Spells v t
| Spells_string s t : Literal s t -> Spells (V_String s) t
| Spells_no_elements w : whitespace w -> Spells (V_List []) ("[" +:+ w +:+ "]")
| Spells_list l t : SpellsElements l t -> Spells (V_List l) ("[" +:+ t +:+ "]")
| Spells_no_members w : whitespace w -> Spells (V_Map []) ("{" +:+ w +:+ "}")
| Spells_object members t v : SpellsMembers members t -> NoDup (map fst members) ->
    object_value (map_of members) = Some v -> Spells v ("{" +:+ t +:+ "}")
with SpellsElements : list Value -> string -> Prop :=
| Elements_last v w1 t w2 : whitespace w1 -> Spells v t -> whitespace w2 ->
    SpellsElements [v] (w1 +:+ t +:+ w2)
| Elements_more v l w1 t w2 t' : whitespace w1 -> Spells v t -> whitespace w2 ->
    SpellsElements l t' -> SpellsElements (v :: l) (w1 +:+ t +:+ w2 +:+ "," +:+ t')
with SpellsMembers : list (string * Value) -> string -> Prop :=
| Members_last k v w1 tk w2 w3 t w4 : whitespace w1 -> Literal k tk -> whitespace w2 ->
    whitespace w3 -> Spells v t -> whitespace w4 ->
    SpellsMembers [(k, v)] (w1 +:+ tk +:+ w2 +:+ ":" +:+ w3 +:+ t +:+ w4)
| Members_more k v l w1 tk w2 w3 t w4 t' : whitespace w1 -> Literal k tk -> whitespace w2 ->
    whitespace w3 -> Spells v t -> whitespace w4 -> SpellsMembers l t' ->
    SpellsMembers ((k, v) :: l) (w1 +:+ tk +:+ w2 +:+ ":" +:+ w3 +:+ t +:+ w4 +:+ "," +:+ t').

Scheme Spells_mut := Induction for Spells Sort Prop
with SpellsElements_mut := Induction for SpellsElements Sort Prop
with SpellsMembers_mut := Induction for SpellsMembers Sort Prop.
Combined Scheme Spells_ind3 from Spells_mut, SpellsElements_mut, SpellsMembers_mut.

(** ** The envelope of a document

    A byte string is written as an object with one string member: it counts two
    nodes and one level. *)

Fixpoint doc_nodes (v : Value) : Z :=
  match v with
  | V_Bytes _ => 2
  | V_List l => 1 + sum_by doc_nodes l
  | V_Map m => 1 + sum_by (fun entry => doc_nodes (snd entry)) m
  | _ => 1
  end.

(** The deepest level below this value is at most [n]. *)
Fixpoint depth_within (v : Value) (n : Z) : Prop :=
  0 <= n /\
  match v with
  | V_Bytes _ => 1 <= n
  | V_List l => foldr (fun x P => depth_within x (n - 1) /\ P) True l
  | V_Map m => foldr (fun entry P => depth_within (snd entry) (n - 1) /\ P) True m
  | _ => True
  end.

Section Fits.
Variable limits : RuntimeLimits.

(** The bounds on leaves, keys and objects. *)
Fixpoint fits (v : Value) : Prop :=
  match v with
  | V_String s => ssize s <= max_leaf_bytes limits
  | V_Bytes b =>
      2 * vsize b <= max_leaf_bytes limits /\ ssize kBytesMember <= max_leaf_bytes limits /\
      1 <= max_fields_per_object limits
  | V_List l => foldr (fun x P => fits x /\ P) True l
  | V_Map m =>
      vsize m <= Z.max 0 (max_fields_per_object limits) /\
      foldr (fun entry P => (ssize (fst entry) <= max_leaf_bytes limits /\ fits (snd entry)) /\ P) True m
  | _ => True
  end.

Definition document_fits (v : Value) : Prop :=
  fits v /\ depth_within v (max_value_depth limits) /\ doc_nodes v <= max_value_nodes limits.
End Fits.
