(* ===== verification/JsonTokens.v ===== *)
(** * The tokens of the JSON parser

    The scanners of numbers and of string literals read exactly the tokens of
    the grammar, and the writers' tokens are such tokens. *)

From Stdlib Require Import ZArith Lia List Bool Ascii String.
From stdpp Require Import base tactics list strings.
From S2P Require Import Prelude Containers Text Status Double Decimal Value Json JsonGrammar.
#[local] Open Scope string_scope.
#[local] Open Scope Z_scope.
#[local] Arguments String.append : simpl nomatch.
#[local] Arguments ParseHex4 : simpl never.
#[local] Arguments AppendUtf8 : simpl never.

(** ** Characters *)

Lemma char_eqb_refl c : Ascii.eqb c c = true.
Proof. apply Ascii.eqb_refl. Qed.

Lemma char_eqb_neq c d : c <> d -> Ascii.eqb c d = false.
Proof. apply Ascii.eqb_neq. Qed.

(** Reads the character tests of the hypotheses. *)
Ltac chars :=
  repeat match goal with
  | H : Ascii.eqb ?c ?d = true |- _ => apply Ascii.eqb_eq in H; subst
  | H : Ascii.eqb _ _ = false |- _ => apply Ascii.eqb_neq in H
  | H : (_ || _)%bool = true |- _ => apply orb_true_iff in H
  | H : (_ || _)%bool = false |- _ => apply orb_false_iff in H; destruct H
  | H : (_ && _)%bool = true |- _ => apply andb_true_iff in H; destruct H
  | H : negb _ = true |- _ => apply negb_true_iff in H
  | H : negb _ = false |- _ => apply negb_false_iff in H
  end.

Lemma next_is_Some c text rest : next_is c text = Some rest <-> text = String c rest.
Proof.
  destruct text as [|d t]; cbn; [done|]. destruct (Ascii.eqb c d) eqn:E; chars; [naive_solver|].
  split; [done|]. by intros [= -> ->].
Qed.

Lemma next_is_None c d rest : d <> c -> next_is c (String d rest) = None.
Proof. intros H. cbn. by rewrite char_eqb_neq. Qed.

Lemma length_cons c s : String.length (String c s) = S (String.length s).
Proof. done. Qed.

Lemma ssize_app s t : ssize (s +:+ t) = ssize s + ssize t.
Proof. unfold ssize. rewrite length_append. lia. Qed.

(** ** White space *)

Lemma SkipWhitespace_split text : exists w, text = w +:+ SkipWhitespace text /\ whitespace w.
Proof.
  unfold whitespace. induction text as [|c rest IH]; cbn; [by exists ""|].
  destruct (is_whitespace c) eqn:E.
  - destruct IH as (w & E1 & E2). exists (String c w). cbn. rewrite E. by rewrite <- E1.
  - by exists "".
Qed.

(** A text that does not start with white space. *)
Definition solid (text : string) : Prop := SkipWhitespace text = text.

Lemma SkipWhitespace_app w text : whitespace w -> solid text -> SkipWhitespace (w +:+ text) = text.
Proof.
  unfold whitespace, solid. intros Hw Ht. induction w as [|c w IH]; cbn in *; [done|].
  destruct (is_whitespace c); [by apply IH|done].
Qed.

Lemma SkipWhitespace_solid text : solid (SkipWhitespace text).
Proof.
  unfold solid. induction text as [|c t IH]; [done|]. cbn.
  destruct (is_whitespace c) eqn:Ec; [done|]. cbn. by rewrite Ec.
Qed.

Lemma solid_char c rest : is_whitespace c = false -> solid (String c rest).
Proof. intros H. unfold solid. cbn. by rewrite H. Qed.

(** ** Runs of digits *)

Definition starts_digit (text : string) : bool :=
  match text with String c _ => is_digit c | "" => false end.

Lemma take_digits_app d rest : all_digits d -> starts_digit rest = false ->
  take_digits (d +:+ rest) = (d, rest).
Proof.
  unfold all_digits. intros Hd Hr. induction d as [|c d IH]; cbn.
  - destruct rest as [|c r]; cbn in *; [done|]. by rewrite Hr.
  - cbn in Hd. destruct (is_digit c); [|done]. destruct (take_digits d) as [d' r'].
    injection Hd as -> ->. by rewrite IH.
Qed.

Lemma take_digits_inv text : exists d rest, take_digits text = (d, rest) /\
  text = d +:+ rest /\ all_digits d /\ starts_digit rest = false.
Proof.
  unfold all_digits. induction text as [|c text (d & rest & E & -> & Hd & Hr)]; cbn.
  { by exists "", "". }
  destruct (is_digit c) eqn:Ec.
  - rewrite E. exists (String c d), rest. cbn. by rewrite Ec, Hd.
  - exists "", (String c (d +:+ rest)). by rewrite <- ?Ec.
Qed.

(** Splits a run of digits off and names the two parts. *)
Ltac split_digits text d rest H :=
  let E := fresh in let Et := fresh "Et" in let Hd := fresh "Hd" in
  destruct (take_digits_inv text) as (d & rest & E & Et & Hd & H); rewrite ?E in *; clear E.

(** ** Numbers *)

(** What may follow the number, so that the scanners stop there. *)
Definition ends_number (rest : string) : Prop :=
  match rest with
  | "" => True
  | String c _ => is_digit c = false /\ c <> "."%char /\ c <> "e"%char /\ c <> "E"%char
  end.

Lemma ends_number_digit rest : ends_number rest -> starts_digit rest = false.
Proof. destruct rest; [done|]. by intros []. Qed.

Lemma digits_part_head d : digits_part d -> exists c r, d = String c r /\ is_digit c = true.
Proof.
  intros [Hne Hd]. unfold all_digits in Hd. destruct d as [|c r]; [done|]. exists c, r.
  split; [done|]. cbn in Hd. by destruct (is_digit c).
Qed.

(** Matching on a run of digits that is not empty. *)
Lemma digits_part_match {A} d rest (a : A) (k : string -> string -> A) : d <> "" ->
  (match (d, rest) with ("", _) => a | (digits, r) => k digits r end) = k d rest.
Proof. by destruct d. Qed.

Lemma scan_exponent_complete x rest : exponent_part x -> ends_number rest ->
  scan_exponent (x +:+ rest) = P_Ok x rest.
Proof.
  intros [->|(c & sign & d & -> & Hc & Hsign & Hne & Hd)] Hr; cbn.
  - destruct rest as [|c r]; [done|]. destruct Hr as (_ & _ & H1 & H2). cbn. by rewrite !char_eqb_neq.
  - assert (Ec : (Ascii.eqb c "e" || Ascii.eqb c "E")%bool = true) by (by destruct Hc as [-> | ->]).
    rewrite Ec. destruct (digits_part_head d) as (h & r & -> & Hh); [by split|].
    assert (Hs : forall s, (s = "+" \/ s = "-")%char ->
      Ascii.eqb h s = false) by (intros s [-> | ->]; apply Ascii.eqb_neq; intros ->; discriminate Hh).
    rewrite append_assoc.
    destruct Hsign as [-> | [-> | ->]]; cbn [String.append]; rewrite ?(Hs "+"%char), ?(Hs "-"%char) by tauto;
      cbn [orb Ascii.eqb Bool.eqb char_string]; change (String h (r +:+ rest)) with (String h r +:+ rest);
      rewrite take_digits_app by (done || by apply ends_number_digit); done.
Qed.

Lemma scan_fraction_complete f rest : fraction_part f -> starts_digit rest = false ->
  (f = "" -> next_is "." rest = None) -> scan_fraction (f +:+ rest) = P_Ok f rest.
Proof.
  unfold scan_fraction. intros [->|(d & -> & Hne & Hd)] Hr Hdot; cbn [String.append].
  - by rewrite Hdot.
  - cbn. rewrite take_digits_app by done. by destruct d.
Qed.

Lemma scan_whole_complete w rest : whole_part w -> starts_digit rest = false ->
  scan_whole (w +:+ rest) = P_Ok w rest.
Proof.
  intros [->|(Hd & c & r & -> & Hc)] Hr; cbn.
  - destruct rest as [|d r]; [done|]. cbn in Hr. by rewrite Hr.
  - assert (Hc' : is_digit c = true) by (unfold all_digits in Hd; cbn in Hd; by destruct (is_digit c)).
    rewrite Hc', char_eqb_neq by done. cbn [negb]. pose proof (take_digits_app _ rest Hd Hr) as E.
    cbn in E. rewrite Hc' in E. by rewrite E.
Qed.

Lemma scan_exponent_sound text x rest : scan_exponent text = P_Ok x rest ->
  text = x +:+ rest /\ exponent_part x.
Proof.
  unfold scan_exponent, exponent_part. destruct text as [|c text]; [intros [= <- <-]; by split; [|left]|].
  destruct (_ || _)%bool eqn:Ec; [|intros [= <- <-]; by split; [|left]].
  assert (Hc : c = "e"%char \/ c = "E"%char) by (chars; destruct Ec; chars; auto).
  set (s := match text with String s r => _ | "" => _ end).
  assert (Hs : exists sign, text = sign +:+ snd s /\ fst s = sign /\ (sign = "" \/ sign = "+" \/ sign = "-")).
  { subst s. destruct text as [|d text]; [exists ""; by auto|].
    destruct (Ascii.eqb d "+" || Ascii.eqb d "-")%bool eqn:Ed; [|exists ""; by auto]. exists (char_string d).
    cbn [fst snd]. split; [reflexivity|]. split; [reflexivity|]. chars. destruct Ed; chars; auto. }
  destruct s as [sign r], Hs as (sign' & Et & <- & Hsign). cbn in Et.
  split_digits r d rest' Hr. destruct d as [|h d]; [done|]. intros [= <- <-].
  split; [subst; cbn; by rewrite append_assoc|]. right. exists c, sign, (String h d). by repeat split.
Qed.

Lemma scan_fraction_sound text f rest : scan_fraction text = P_Ok f rest ->
  text = f +:+ rest /\ fraction_part f.
Proof.
  unfold scan_fraction, fraction_part. destruct (next_is "." text) as [r|] eqn:En.
  - apply next_is_Some in En as ->. split_digits r d rest' Hr. destruct d as [|h d]; [done|].
    intros [= <- <-]. split; [by rewrite Et|]. right. exists (String h d). by repeat split.
  - intros [= <- <-]. by split; [|left].
Qed.

Lemma scan_whole_sound text w rest : scan_whole text = P_Ok w rest -> text = w +:+ rest /\ whole_part w.
Proof.
  unfold scan_whole, whole_part. destruct text as [|c text]; [done|].
  destruct (is_digit c) eqn:Ec; cbn [negb]; [|done]. destruct (Ascii.eqb c "0") eqn:E0; chars.
  - intros H. assert (Hw : P_Ok "0" text = P_Ok w rest).
    { destruct text as [|d t]; [done|]. by destruct (is_digit d). }
    injection Hw as <- <-. by split; [|left].
  - split_digits (String c text) d rest' Hr. intros [= <- <-]. split; [done|]. right. split; [done|].
    destruct d as [|h d]; [|by injection Et as <- _; eauto].
    cbn in Et. subst rest'. cbn in Hr. congruence.
Qed.

Lemma ParseNumber_sound text v rest : ParseNumber text = P_Ok v rest ->
  exists t, text = t +:+ rest /\ Number v t.
Proof.
  unfold ParseNumber, pbind. set (s := take_minus text).
  assert (Hs : exists sign, text = sign +:+ snd s /\ sign_part sign /\ (if fst s then "-" else "") = sign).
  { unfold s, take_minus, sign_part. destruct (next_is "-" text) as [r|] eqn:En.
    - apply next_is_Some in En as ->. exists "-". by auto.
    - exists "". by auto. }
  destruct s as [negative t0], Hs as (sign & -> & Hsign & Hn). cbn [snd].
  destruct (scan_whole t0) as [w t1| |] eqn:E1; try done.
  apply scan_whole_sound in E1 as [-> Hw].
  destruct (scan_fraction t1) as [f t2| |] eqn:E2; try done.
  apply scan_fraction_sound in E2 as [-> Hf].
  destruct (scan_exponent t2) as [x t3| |] eqn:E3; try done.
  apply scan_exponent_sound in E3 as [-> Hx]. cbn [fst] in Hn. rewrite Hn.
  destruct (number_value _ _) as [v'|] eqn:Ev; [|done]. intros [= -> ->].
  exists (sign +:+ w +:+ f +:+ x). split; [by rewrite !append_assoc|].
  by exists sign, w, f, x.
Qed.

Lemma exponent_starts x rest : exponent_part x -> ends_number rest ->
  starts_digit (x +:+ rest) = false /\ next_is "." (x +:+ rest) = None.
Proof.
  intros [->|(c & sign & d & -> & [-> | ->] & _)] Hr; [|by split..].
  cbn. split; [by apply ends_number_digit|]. destruct rest as [|c r]; [done|].
  apply next_is_None. by destruct Hr as (_ & ? & _).
Qed.

Lemma ParseNumber_complete v t rest : Number v t -> ends_number rest ->
  ParseNumber (t +:+ rest) = P_Ok v rest.
Proof.
  intros (sign & w & f & x & -> & Hsign & Hw & Hf & Hx & Hv) Hr.
  destruct (exponent_starts x rest Hx Hr) as [Hx1 Hx2].
  assert (Hf1 : starts_digit (f +:+ x +:+ rest) = false)
    by (destruct Hf as [->|(d & -> & _)]; [exact Hx1|done]).
  assert (Hm : take_minus (sign +:+ w +:+ f +:+ x +:+ rest) =
    (negb (sign =? "")%string, w +:+ f +:+ x +:+ rest)).
  { destruct Hsign as [-> | ->]; [|done]. cbn [String.append]. unfold take_minus.
    assert (Hn : next_is "-" (w +:+ f +:+ x +:+ rest) = None).
    { destruct Hw as [-> | (Hd & c & r & -> & _)]; [done|]. apply next_is_None. intros ->.
      discriminate Hd. }
    by rewrite Hn. }
  rewrite !append_assoc. unfold ParseNumber. rewrite Hm, scan_whole_complete by done. cbn [pbind].
  rewrite scan_fraction_complete by done. cbn [pbind]. rewrite scan_exponent_complete by done. cbn [pbind].
  assert (Es : (if negb (sign =? "")%string then "-" else "") = sign) by (by destruct Hsign as [-> | ->]).
  by rewrite Es, Hv.
Qed.

(** ** String literals *)

Section Strings.
Variable limits : RuntimeLimits.
Notation leaf := (max_leaf_bytes limits).

Lemma bounded_string_ok out k s rest :
  bounded_string limits out k = P_Ok s rest <-> ssize out <= leaf /\ k out = P_Ok s rest.
Proof.
  unfold bounded_string. destruct (Z.ltb_spec leaf (ssize out)); [|naive_solver].
  split; [done|]. intros []. lia.
Qed.

(** One decoded piece in front of the rest. *)
Definition reads (out d s : string) : Prop := s = out +:+ d /\ IsValidUtf8 s = true /\ ssize s <= leaf.

Lemma reads_piece out p d s : reads (out +:+ p) d s -> reads out (p +:+ d) s.
Proof. unfold reads. by rewrite append_assoc. Qed.

Lemma ParseString_sound n : forall text out s rest, (String.length text <= n)%nat ->
  ParseString limits text out = P_Ok s rest ->
  exists t d, text = t +:+ String quote_char rest /\ Chars t d /\ reads out d s.
Proof.
  induction n as [|n IH]; intros text out s rest Hn.
  { destruct text; [done|cbn in Hn; lia]. }
  assert (Hrec : forall text' out' p pre, (String.length text' <= n)%nat ->
    bounded_string limits (out' +:+ p) (fun out => ParseString limits text' out) = P_Ok s rest ->
    (forall t d, Chars t d -> Chars (pre t) (p +:+ d)) ->
    (forall t, pre (t +:+ String quote_char rest) = pre t +:+ String quote_char rest) ->
    exists t d, pre text' = t +:+ String quote_char rest /\ Chars t d /\ reads out' d s).
  { intros text' out' p pre Hl [_ Hp]%bounded_string_ok Hpre Happ.
    apply IH in Hp as (t & d & -> & Hc & Hd); [|done]. exists (pre t), (p +:+ d). split; [done|].
    split; [by apply Hpre|by apply reads_piece]. }
  destruct text as [|c text]; [done|]. cbn [ParseString String.length] in *.
  destruct (Ascii.eqb c quote_char) eqn:Eq; chars.
  { destruct (IsValidUtf8 out) eqn:Eu; [|done]. cbn [negb]. intros [Hl [= <- <-]]%bounded_string_ok.
    exists "", "". split; [done|]. split; [constructor|]. unfold reads. by rewrite append_nil_r. }
  destruct (Ascii.eqb c backslash) eqn:Eb; chars.
  2: { destruct (Z.ltb_spec (byte_of c) 32); [done|]. intros Hp.
       apply (Hrec text out (char_string c) (String c)); [lia|exact Hp| |done].
       intros t d Hc. exact (Chars_raw c t d Eq Eb H Hc). }
  destruct text as [|e text]; [done|]. destruct (simple_escape e) as [x|] eqn:Ee.
  { intros Hp. apply (Hrec text out (char_string x) (fun t => String backslash (String e t)));
      [cbn in Hn; lia|exact Hp| |done].
    intros t d Hc. exact (Chars_escape e x t d Ee Hc). }
  destruct (Ascii.eqb e "u") eqn:Eue; [|done]. cbn [negb]. chars.
  destruct text as [|h1 [|h2 [|h3 [|h4 text]]]]; try done. cbn [String.length] in Hn.
  destruct (ParseHex4 h1 h2 h3 h4) as [code|] eqn:E4; [|done].
  destruct (is_high_surrogate code) eqn:Eh.
  2: { destruct (is_low_surrogate code) eqn:El; [done|]. intros Hp.
       apply (Hrec text out (AppendUtf8 code)
         (fun t => String backslash (String "u" (String h1 (String h2 (String h3 (String h4 t)))))));
         [lia|exact Hp| |done].
       intros t d Hc. by apply Chars_unicode. }
  destruct text as [|b [|u text]]; try done.
  destruct (Ascii.eqb b backslash && Ascii.eqb u "u")%bool eqn:Ebu; [|done]. cbn [negb]. chars.
  destruct text as [|l1 [|l2 [|l3 [|l4 text]]]]; try done. cbn [String.length] in Hn.
  destruct (ParseHex4 l1 l2 l3 l4) as [low|] eqn:E4'; [|done].
  destruct (is_low_surrogate low) eqn:El; [|done]. cbn [negb]. intros Hp.
  apply (Hrec text out (AppendUtf8 (join_surrogates code low))
    (fun t => String backslash (String "u" (String h1 (String h2 (String h3 (String h4
       (String backslash (String "u" (String l1 (String l2 (String l3 (String l4 t)))))))))))));
    [lia|exact Hp| |done].
  intros t d Hc. by apply Chars_pair.
Qed.

Lemma ParseString_complete t d : Chars t d -> forall out rest,
  IsValidUtf8 (out +:+ d) = true -> ssize (out +:+ d) <= leaf ->
  ParseString limits (t +:+ String quote_char rest) out = P_Ok (out +:+ d) rest.
Proof.
  assert (Hb : forall out p d k, ssize (out +:+ p +:+ d) <= leaf ->
    bounded_string limits (out +:+ p) k = k (out +:+ p)).
  { intros out p d' k H. unfold bounded_string. rewrite !ssize_app in *. unfold ssize in *.
    destruct (Z.ltb_spec leaf (Z.of_nat (String.length out) + Z.of_nat (String.length p))); [lia|done]. }
  induction 1 as [|c t d H1 H2 H3 _ IH|e c t d He _ IH|h1 h2 h3 h4 code t d E4 Eh El _ IH
                 |h1 h2 h3 h4 l1 l2 l3 l4 high low t d E4 E4' Eh El _ IH]; intros out rest Hu Hl.
  - cbn. rewrite append_nil_r in *. rewrite Hu. cbn [negb]. by apply bounded_string_ok.
  - cbn. rewrite !char_eqb_neq by done. destruct (Z.ltb_spec (byte_of c) 32); [lia|].
    change (String c d) with (char_string c +:+ d) in *. rewrite (Hb _ _ d) by done.
    rewrite <- append_assoc in *. by apply IH.
  - cbn. rewrite He. change (String c d) with (char_string c +:+ d) in *. rewrite (Hb _ _ d) by done.
    rewrite <- append_assoc in *. by apply IH.
  - cbn. rewrite E4, Eh, El, (Hb _ _ d) by done. rewrite <- append_assoc in *. by apply IH.
  - cbn. rewrite E4, Eh. cbn. rewrite E4', El. cbn [negb]. rewrite (Hb _ _ d) by done.
    rewrite <- append_assoc in *. by apply IH.
Qed.

Lemma literal_sound text s rest : ParseString limits text "" = P_Ok s rest ->
  exists t, String quote_char text = t +:+ rest /\ Literal s t /\ ssize s <= leaf.
Proof.
  intros H. apply (ParseString_sound (String.length text)) in H as (t & d & -> & Hc & -> & Hu & Hl); [|lia].
  exists (quote +:+ t +:+ quote). split; [cbn; by rewrite append_assoc|]. split; [|done]. by exists t.
Qed.

(** A literal starts with a quote, after which the loop reads it. *)
Lemma literal_complete s t rest : Literal s t -> ssize s <= leaf ->
  exists t', t +:+ rest = String quote_char t' /\ ParseString limits t' "" = P_Ok s rest.
Proof.
  intros (c & -> & Hc & Hu) Hl. exists (c +:+ String quote_char rest).
  split; [cbn; by rewrite append_assoc|]. by apply (ParseString_complete c s Hc "" rest).
Qed.
End Strings.

(** The writer's escapes are literals. *)
Lemma escape_char_reads c t d : Chars t d -> Chars (escape_char c +:+ t) (String c d).
Proof.
  assert (Hall : forall n, 0 <= n < 32 -> n <> 8 -> n <> 12 -> n <> 10 -> n <> 13 -> n <> 9 ->
    ParseHex4 "0" "0" (hex_digit (Z.land (Z.shiftr n 4) 0x0F)) (hex_digit (Z.land n 0x0F)) = Some n /\
    AppendUtf8 n = char_string (char_of n)).
  { intros n H0 _ _ _ _ _. assert (Hn : n ∈ seqZ 0 32) by (apply elem_of_seqZ; lia).
    revert n Hn H0. apply (Forall_forall (fun n => 0 <= n < 32 -> _)). by repeat constructor. }
  intros H. unfold escape_char. cbv zeta.
  repeat (match goal with |- context [if ?b then _ else _] => destruct b eqn:? end; chars; breflect);
    try (rewrite <- (char_of_byte_of c); match goal with E : byte_of c = _ |- _ => rewrite E end);
    try (by apply Chars_escape); try (by apply Chars_raw).
  destruct (Hall (byte_of c)) as [H4 Hu]; try done; [pose proof (byte_of_range c); lia|].
  rewrite char_of_byte_of in Hu.
  change (String c d) with (char_string c +:+ d). rewrite <- Hu. apply Chars_unicode; [exact H4| | |exact H];
    unfold is_high_surrogate, is_low_surrogate; apply andb_false_iff; left; apply Z.leb_gt; lia.
Qed.

Lemma AppendEscaped_literal s : IsValidUtf8 s = true -> Literal s (AppendEscaped s).
Proof.
  intros Hu. exists (escape_text s). split; [done|]. split; [|done].
  clear Hu. induction s as [|c s IH]; cbn [escape_text]; [constructor|by apply escape_char_reads].
Qed.
