(* ===== verification/JsonDouble.v ===== *)
(** * Doubles in JSON text

    The writer's text of a finite double is a number token that the parser
    rounds back to the same double. *)

From Stdlib Require Import ZArith Lia List Bool Ascii String.
From Stdlib Require Import Floats.SpecFloat.
From stdpp Require Import base tactics list strings.
From S2P Require Import Prelude Containers Text Status Identity Double Decimal DecimalFacts Value.
From S2P Require Import Json JsonGrammar JsonTokens.
#[local] Open Scope string_scope.
#[local] Open Scope Z_scope.
#[local] Arguments String.append : simpl nomatch.

(** ** Runs of digits *)

Lemma all_digits_forallb s : all_digits s <-> forallb is_digit (list_ascii_of_string s) = true.
Proof.
  unfold all_digits. induction s as [|c s IH]; cbn; [done|].
  destruct (is_digit c); cbn; [|by split; [intros [=]|done]].
  destruct (take_digits s) as [d r]. rewrite <- IH. split; [by intros [= -> ->]|by intros [= -> ->]].
Qed.

Lemma all_digits_app s t : all_digits (s +:+ t) <-> all_digits s /\ all_digits t.
Proof.
  rewrite !all_digits_forallb. induction s as [|c s IH]; cbn; [naive_solver|].
  destruct (is_digit c); cbn; [exact IH|naive_solver].
Qed.

Lemma read_digits_app s t a v : read_digits s a = Some v -> read_digits (s +:+ t) a = read_digits t v.
Proof.
  revert a. induction s as [|c s IH]; cbn; intros a; [by intros [= ->]|].
  destruct (is_digit c); [apply IH|done].
Qed.

Lemma zeros_digits n : all_digits (zeros_string n).
Proof. apply all_digits_forallb. by induction n. Qed.

Lemma read_zeros n a : read_digits (zeros_string n) a = Some (a * 10 ^ Z.of_nat n).
Proof.
  revert a. induction n as [|n IH]; intros a; [cbn; f_equal; lia|].
  change (read_digits (zeros_string (S n)) a) with (read_digits (zeros_string n) (a * 10 + 0)).
  rewrite IH. f_equal. rewrite Nat2Z.inj_succ, Z.pow_succ_r by lia. lia.
Qed.

Lemma zeros_size n : ssize (zeros_string n) = Z.of_nat n.
Proof. unfold ssize. f_equal. induction n; cbn; congruence. Qed.

(** ** Parts of a string *)

Lemma substring_split n : forall s, (n <= String.length s)%nat ->
  String.substring 0 n s +:+ String.substring n (String.length s) s = s /\
  String.length (String.substring 0 n s) = n.
Proof.
  induction n as [|n IH]; intros s Hn.
  - assert (Hall : forall t k, (String.length t <= k)%nat -> String.substring 0 k t = t).
    { induction t as [|c t IHt]; intros [|k] Hk; cbn in *; try done; [lia|]. f_equal. apply IHt. lia. }
    destruct s as [|c s]; [done|]. split; [|done]. cbn [String.substring String.append String.length].
    by rewrite Hall.
  - destruct s as [|c s]; cbn in Hn; [lia|]. destruct (IH s) as [E1 E2]; [lia|].
    split; [|cbn; by rewrite E2]. cbn [String.substring String.append String.length]. f_equal.
    transitivity (String.substring 0 n s +:+ String.substring n (String.length s) s); [|exact E1].
    f_equal. clear.
    assert (Hk : forall t m k k', (String.length t <= k)%nat -> (String.length t <= k')%nat ->
      String.substring m k t = String.substring m k' t).
    { induction t as [|d t IHt]; intros [|m] [|k] [|k'] H H'; cbn in *; try done; try lia.
      - f_equal. apply (IHt 0%nat); lia.
      - apply (IHt m (S k) (S k')); lia. }
    apply Hk; lia.
Qed.

Lemma substr_split n s : 0 <= n <= ssize s ->
  substr 0 n s +:+ substr n (ssize s) s = s /\ ssize (substr 0 n s) = n /\
  ssize (substr n (ssize s) s) = ssize s - n.
Proof.
  unfold substr, ssize. intros Hn. rewrite Nat2Z.id.
  destruct (substring_split (Z.to_nat n) s) as [E1 E2]; [lia|].
  split; [exact E1|]. change (Z.to_nat 0) with 0%nat. rewrite E2. split; [lia|].
  rewrite <- E1 at 3. rewrite length_append, E2. lia.
Qed.

(** ** Reading a token in parts *)

Definition fraction_of (digits : string) : string :=
  match digits with "" => "" | _ => String "." digits end.

(** A text that stands for [digits * 10^k], as digits with [j] more zeros. *)
Definition decimal_token (text : string) (digits k : Z) : Prop :=
  exists whole fd exponent j x,
    text = whole +:+ fraction_of fd +:+ exponent /\
    whole_part whole /\ all_digits fd /\ exponent_part exponent /\ (fd <> "" \/ exponent <> "") /\
    0 <= j /\ read_digits (whole +:+ fd) 0 = Some (digits * 10 ^ j) /\
    read_exponent exponent = Some x /\ x - ssize fd = k - j.

Lemma whole_part_digits whole : whole_part whole -> digits_part whole.
Proof. intros [->|(Hd & c & r & -> & _)]; by split. Qed.

Lemma fraction_part_of fd : all_digits fd -> fraction_part (fraction_of fd).
Proof. intros H. destruct fd as [|c r]; [by left|]. right. by exists (String c r). Qed.

Lemma from_chars_double_parts (s : bool) whole fd exponent digits x :
  whole_part whole -> all_digits fd -> exponent_part exponent ->
  read_digits (whole +:+ fd) 0 = Some digits -> read_exponent exponent = Some x ->
  from_chars_double ((if s then "-" else "") +:+ whole +:+ fraction_of fd +:+ exponent) =
  nearest_double s (digits * scale_up 10 (x - ssize fd)) (scale_down 10 (x - ssize fd)).
Proof.
  intros Hw Hf Hx Hr Hrx. unfold from_chars_double.
  destruct (digits_part_head whole (whole_part_digits _ Hw)) as (c & r & Ew & Hc).
  destruct (exponent_starts exponent "" Hx I) as [H1 H2]. rewrite append_nil_r in H1, H2.
  assert (Hm : take_minus ((if s then "-" else "") +:+ whole +:+ fraction_of fd +:+ exponent) =
    (s, whole +:+ fraction_of fd +:+ exponent)).
  { destruct s; [done|]. cbn [String.append]. unfold take_minus. rewrite Ew. cbn [String.append].
    rewrite next_is_None; [done|]. intros ->. discriminate Hc. }
  rewrite Hm, take_digits_app; [|apply (whole_part_digits _ Hw)|by destruct fd].
  destruct fd as [|h t].
  - cbn [fraction_of String.append]. rewrite H2. by rewrite Hr, Hrx.
  - change (next_is "." (fraction_of (String h t) +:+ exponent)) with (Some (String h t +:+ exponent)).
    cbv beta iota. rewrite take_digits_app by done. by rewrite Hr, Hrx.
Qed.

Lemma decimal_token_number text digits k s m e : decimal_token text digits k ->
  (forall j, 0 <= j -> nearest_double s (digits * 10 ^ j * scale_up 10 (k - j)) (scale_down 10 (k - j)) =
     Some (S754_finite s m e)) ->
  Number (V_Double (S754_finite s m e)) ((if s then "-" else "") +:+ text).
Proof.
  intros (whole & fd & x & j & n & -> & Hw & Hf & Hx & Hne & Hj & Hr & Hrx & Hk) Hnear.
  exists (if s then "-" else ""), whole, (fraction_of fd), x. split; [done|].
  split; [destruct s; [by right|by left]|]. split; [done|]. split; [by apply fraction_part_of|]. split; [done|].
  assert (Hi : ((fraction_of fd =? "") && (x =? ""))%string = false).
  { apply andb_false_iff. destruct Hne as [Hne|Hne]; [left|right; by apply String.eqb_neq].
    apply String.eqb_neq. by destruct fd. }
  rewrite Hi. unfold number_value, number_double. cbn [andb].
  rewrite (from_chars_double_parts _ _ _ _ _ _ Hw Hf Hx Hr Hrx), Hk, Hnear by done. done.
Qed.

(** ** The layouts of [to_chars_general] *)

Lemma digits_text digits : 1 <= digits <= 10 ^ 17 ->
  exists c r, to_string_unsigned digits = String c r /\ c <> "0"%char /\ all_digits (String c r) /\
    read_digits (String c r) 0 = Some digits.
Proof.
  intros Hd. change (10 ^ 17) with 100000000000000000 in Hd.
  assert (Hu : is_u64 digits) by (unfold is_u64, UINT64_MAX; lia).
  destruct (to_string_shape digits Hu) as (_ & _ & Hall & _). pose proof (read_to_string digits Hu) as Hr.
  destruct (dec_digits_first 20 digits "") as (c & r & E & Hc).
  { change (10 ^ Z.of_nat 20) with 100000000000000000000. lia. }
  change (dec_digits 20 digits "") with (to_string_unsigned digits) in E. rewrite E in *.
  exists c, r. split; [done|]. split; [by apply Ascii.eqb_neq|]. split; [by apply all_digits_forallb|done].
Qed.

Definition with_point (text : string) : string :=
  if negb (has_char "." text) && negb (has_char "e" text) && negb (has_char "E" text)
  then text +:+ ".0" else text.

Lemma has_char_app c s t : has_char c (s +:+ t) = has_char c s || has_char c t.
Proof. unfold has_char. induction s as [|d s IH]; cbn; [done|]. by rewrite IH, orb_assoc. Qed.

Lemma has_char_digits c s : all_digits s -> is_digit c = false -> has_char c s = false.
Proof.
  unfold has_char. rewrite all_digits_forallb. intros Hs Hc.
  induction s as [|d s IH]; cbn in *; [done|]. apply andb_true_iff in Hs as [Hd Hs].
  rewrite IH, orb_false_r by done. apply Ascii.eqb_neq. congruence.
Qed.

Lemma with_point_kept c s : c = "."%char \/ c = "e"%char -> has_char c s = true -> with_point s = s.
Proof. unfold with_point. intros [-> | ->] ->; [done|]. by rewrite andb_false_r. Qed.

(** The three layouts without an exponent. *)
Lemma token_integer c r digits k : c <> "0"%char -> all_digits (String c r) ->
  read_digits (String c r) 0 = Some digits -> 0 <= k ->
  decimal_token (with_point (String c r +:+ zeros_string (Z.to_nat k))) digits k.
Proof.
  intros Hc Hd Hr Hk. set (T := String c r) in *. pose proof (zeros_digits (Z.to_nat k)) as Hz.
  assert (Hall : all_digits (T +:+ zeros_string (Z.to_nat k))) by (by apply all_digits_app).
  unfold with_point. rewrite !has_char_digits by done. cbn [negb andb].
  exists (T +:+ zeros_string (Z.to_nat k)), "0", "", (k + 1), 0.
  split; [done|]. split; [right; split; [done|]; by eexists c, _|]. split; [done|]. split; [by left|].
  split; [by left|]. split; [lia|]. split; [|by split; [|change (ssize "0") with 1; lia]].
  rewrite append_assoc, (read_digits_app T _ _ digits Hr), (read_digits_app _ _ _ _ (read_zeros _ _)).
  cbn. f_equal. rewrite Z2Nat.id, Z.pow_add_r by lia. change (10 ^ 1) with 10. change (digit_value "0") with 0. ring.
Qed.

Lemma token_point c r digits k n : c <> "0"%char -> all_digits (String c r) ->
  read_digits (String c r) 0 = Some digits -> k < 0 -> n = k + ssize (String c r) -> 1 <= n ->
  decimal_token (with_point (substr 0 n (String c r) +:+ String "." (substr n (ssize (String c r)) (String c r))))
    digits k.
Proof.
  intros Hc Hd Hr Hk En Hn. set (T := String c r) in *.
  destruct (substr_split n T) as (E & E1 & E2); [lia|].
  set (a := substr 0 n T) in *. set (b := substr n (ssize T) T) in *. clearbody a b.
  rewrite (with_point_kept "."%char); [|by left|by rewrite has_char_app; cbn; rewrite orb_true_r].
  assert (Hab : all_digits a /\ all_digits b) by (apply all_digits_app; by rewrite E).
  assert (Hb : b <> "") by (intros ->; change (ssize "") with 0 in E2; lia).
  exists a, b, "", 0, 0. split; [by destruct b; rewrite ?append_nil_r|].
  split.
  { right. split; [apply Hab|]. destruct a as [|h a']; [change (ssize "") with 0 in E1; lia|].
    injection E as -> _. by eexists c, _. }
  split; [apply Hab|]. split; [by left|]. split; [by left|]. split; [done|].
  rewrite E, Z.mul_1_r. split; [done|]. split; [done|lia].
Qed.

Lemma token_small c r digits k z : all_digits (String c r) ->
  read_digits (String c r) 0 = Some digits -> 0 <= z -> k = - z - ssize (String c r) ->
  decimal_token (with_point ("0." +:+ zeros_string (Z.to_nat z) +:+ String c r)) digits k.
Proof.
  intros Hd Hr Hz Ek. rewrite (with_point_kept "."%char) by (by left || done).
  set (fd := zeros_string (Z.to_nat z) +:+ String c r).
  assert (Hfd : fd <> "") by (unfold fd; by destruct (Z.to_nat z)).
  exists "0", fd, "", 0, 0. split; [rewrite append_nil_r; by destruct fd|].
  split; [by left|]. split; [apply all_digits_app; split; [apply zeros_digits|done]|].
  split; [by left|]. split; [by left|]. split; [done|]. split; [|split; [done|]].
  - rewrite Z.mul_1_r. change (read_digits ("0" +:+ fd) 0) with (read_digits fd 0). unfold fd.
    by rewrite (read_digits_app _ _ _ _ (read_zeros _ _)).
  - unfold fd. rewrite ssize_app, zeros_size. lia.
Qed.

(** The exponent of the scientific layout. *)
Lemma exponent_text v (text := to_string_unsigned v)
    (padded := if ssize text <? 2 then String "0" text else text) : is_u64 v ->
  digits_part padded /\ read_digits padded 0 = Some v.
Proof.
  intros Hv. destruct (to_string_shape v Hv) as (_ & Hne & Hall & _). pose proof (read_to_string v Hv) as Hr.
  unfold padded. subst text. destruct (_ <? 2); [|by split; [split; [|apply all_digits_forallb]|]].
  split; [split; [done|apply all_digits_forallb; exact Hall]|exact Hr].
Qed.

Lemma token_scientific c r digits k x : c <> "0"%char -> all_digits (String c r) ->
  read_digits (String c r) 0 = Some digits -> x = k + ssize (String c r) - 1 -> is_u64 (Z.abs x) ->
  decimal_token (with_point
    (substr 0 1 (String c r) +:+
     (if 1 <? ssize (String c r) then String "." (substr 1 (ssize (String c r)) (String c r)) else "") +:+
     (if x <? 0 then "e-" else "e+") +:+
     (if ssize (to_string_unsigned (Z.abs x)) <? 2 then String "0" (to_string_unsigned (Z.abs x))
      else to_string_unsigned (Z.abs x)))) digits k.
Proof.
  intros Hc Hd Hr Ex Hx. destruct (exponent_text _ Hx) as [[Hne Hp] Hpr]. cbv zeta in *.
  set (p := if ssize (to_string_unsigned (Z.abs x)) <? 2 then _ else _) in *. clearbody p.
  set (T := String c r) in *. assert (Hsz : 1 <= ssize T) by (unfold ssize, T; cbn; lia).
  destruct (substr_split 1 T) as (E & E1 & E2); [lia|].
  set (a := substr 0 1 T) in *. set (b := substr 1 (ssize T) T) in *. clearbody a b.
  set (f := if 1 <? ssize T then String "." b else "").
  assert (Ef : f = fraction_of b).
  { unfold f. destruct (Z.ltb_spec 1 (ssize T)).
    - destruct b; [change (ssize "") with 0 in E2; lia|done].
    - destruct b as [|h b]; [done|]. unfold ssize in E2 at 1. rewrite length_cons in E2. lia. }
  rewrite (with_point_kept "e"%char); [|by right|].
  2: { rewrite !has_char_app. assert (He : has_char "e" (if x <? 0 then "e-" else "e+") = true) by (by destruct (x <? 0)).
       by rewrite He, !orb_true_r. }
  assert (Hab : all_digits a /\ all_digits b) by (apply all_digits_app; by rewrite E).
  exists a, b, ((if x <? 0 then "e-" else "e+") +:+ p), 0, x. split; [by rewrite Ef|].
  split.
  { right. split; [apply Hab|]. destruct a as [|h a']; [change (ssize "") with 0 in E1; lia|].
    injection E as -> _. by eexists c, _. }
  split; [apply Hab|]. split.
  { right. exists "e"%char, (if x <? 0 then "-" else "+"), p. split; [by destruct (x <? 0)|].
    split; [by left|]. split; [destruct (x <? 0); auto|by split]. }
  split; [right; by destruct (x <? 0)|]. split; [done|]. rewrite E, Z.mul_1_r. split; [done|]. split; [|lia].
  destruct (digits_part_head p) as (h & q & -> & Hh); [by split|].
  destruct (Z.ltb_spec x 0).
  - change (option_map Z.opp (read_digits (String h q) 0) = Some x). rewrite Hpr. cbn. f_equal. lia.
  - change (option_map (fun v => v) (read_digits (String h q) 0) = Some x). rewrite Hpr. cbn. f_equal. lia.
Qed.

Lemma general_layout_token digits k : 1 <= digits <= 10 ^ 17 -> -416 <= k <= 419 ->
  decimal_token (with_point (general_layout digits k)) digits k.
Proof.
  intros Hd Hk. destruct (digits_text digits Hd) as (c & r & E & Hc & Hall & Hr).
  unfold general_layout. rewrite E. set (x := k + ssize (String c r) - 1). cbv zeta.
  assert (Hsz : 1 <= ssize (String c r) <= 20).
  { split; [unfold ssize; cbn; lia|]. rewrite <- E. apply to_string_shape.
    change (10 ^ 17) with 100000000000000000 in Hd. unfold is_u64, UINT64_MAX. lia. }
  destruct ((-4 <=? x) && (x <? 6)) eqn:Efixed.
  - destruct (Z.leb_spec 0 k); [by apply token_integer|].
    destruct (Z.leb_spec 0 x); [by apply token_point; try done; unfold x in *; lia|].
    apply token_small; try done; unfold x in *; lia.
  - apply token_scientific; try done. unfold x, is_u64, UINT64_MAX. lia.
Qed.

(** ** The text of a double *)

Theorem FormatDoubleCanonical_number f : valid_double f -> is_finite f = true ->
  Number (V_Double f) (FormatDoubleCanonical f).
Proof.
  intros Hv Hf. destruct f as [s| | |s m e]; try discriminate Hf.
  - destruct s.
    + exists "-", "0", ".0", "". repeat split; [by right|by left|right; by exists "0"|by left].
    + exists "", "0", ".0", "". repeat split; [by left|by left|right; by exists "0"|by left].
  - apply valid_double_bounds in Hv as (Hm & He & Hsub).
    pose proof (shortest_decimal_spec (Zpos m) e ltac:(lia) He Hsub) as H.
    assert (E : FormatDoubleCanonical (S754_finite s m e) =
      (if s then "-" else "") +:+
      with_point (let '(digits, k) := shortest_decimal (Zpos m) e in general_layout digits k)).
    { unfold FormatDoubleCanonical. fold (with_point (to_chars_general (S754_finite s m e))).
      unfold to_chars_general, shortest_decimal. cbv zeta.
      destruct (shortest_digits 17 (Zpos m) e _ 1) as [d0 k0]. destruct (strip_zeros 20 d0 k0) as [d k].
      unfold with_point. destruct s; [|done]. cbn [String.append].
      assert (Hc : forall c t, c <> "-"%char -> has_char c (String "-" t) = has_char c t).
      { intros c t Hc. unfold has_char. cbn [list_ascii_of_string existsb]. by rewrite char_eqb_neq. }
      rewrite !Hc by done. by destruct (_ && _). }
    rewrite E. destruct (shortest_decimal (Zpos m) e) as [digits k]. destruct H as (Hd & Hk & Hnear).
    apply (decimal_token_number _ digits k); [by apply general_layout_token|].
    intros j Hj. exact (Hnear s j Hj).
Qed.
