(* ===== verification/JsonFacts.v ===== *)
(** * The parser and the grammar of JSON agree

    [ParseValue_sound] and [ParseValue_complete] relate the parser to
    [Spells]; [ParseValue_total] says the fuel is enough. *)

From Stdlib Require Import ZArith Lia List Bool Ascii String Permutation.
From stdpp Require Import base tactics list strings.
From S2P Require Import Prelude Containers Text Status Double Decimal Value.
From S2P Require Import Json JsonGrammar JsonTokens.
#[local] Open Scope string_scope.
#[local] Open Scope Z_scope.
#[local] Arguments String.append : simpl nomatch.

(** ** Members as maps *)

Definition absorb (map : omap string Value) (members : list (string * Value)) : omap string Value :=
  foldl (fun m entry => memplace (fst entry) (snd entry) m) map members.

Lemma minsert_perm {K V} `{Ordered K} (k : K) (v : V) m : mfind k m = None ->
  minsert k v m ≡ₚ (k, v) :: m.
Proof.
  induction m as [|[k' v'] m IH]; cbn; [done|]. unfold eqb. destruct (compare k k'); [done|done|].
  intros Hn. rewrite IH by done. apply Permutation_swap.
Qed.

Definition disjoint_from (map : omap string Value) (members : list (string * Value)) : Prop :=
  Forall (fun e => mfind e.1 map = None) members.

Lemma absorb_perm members : forall map, NoDup (List.map fst members) -> disjoint_from map members ->
  absorb map members ≡ₚ (members ++ map)%list.
Proof.
  unfold disjoint_from, absorb. induction members as [|[k v] ms IH]; intros map; cbn; [done|].
  rewrite NoDup_cons, Forall_cons. intros [Hk Hn] [Hf Hd]. cbn in Hf. rewrite memplace_absent by done.
  rewrite IH; [|done|].
  - rewrite minsert_perm by done. symmetry. apply Permutation_middle.
  - rewrite Forall_forall in *. intros e He. rewrite mfind_insert_ne; [by apply Hd|].
    intros E. apply Hk, list_elem_of_fmap. rewrite E. eauto.
Qed.

Lemma sum_by_perm {A} (f : A -> Z) l l' : l ≡ₚ l' -> sum_by f l = sum_by f l'.
Proof. induction 1; rewrite ?sum_by_cons; try congruence; lia. Qed.

Lemma sum_by_app {A} (f : A -> Z) l l' : sum_by f (l ++ l')%list = sum_by f l + sum_by f l'.
Proof. induction l as [|x l IH]; [done|]. cbn [app]. rewrite !sum_by_cons, IH. lia. Qed.

Lemma map_of_perm members : NoDup (List.map fst members) -> map_of members ≡ₚ members.
Proof.
  intros H. change (map_of members) with (absorb [] members). rewrite absorb_perm; [|done|].
  - by rewrite app_nil_r.
  - by apply Forall_true.
Qed.

Lemma doc_nodes_pos v : 1 <= doc_nodes v.
Proof.
  assert (Hs : forall {A} (f : A -> Z) l, (forall x, 0 <= f x) -> 0 <= sum_by f l).
  { intros A f l H. induction l as [|x l IH]; rewrite ?sum_by_cons; [done|]. specialize (H x). lia. }
  revert v. fix IH 1. intros [| | | | | | |l|m]; cbn; try lia.
  - enough (0 <= sum_by doc_nodes l) by lia. induction l as [|x l IHl]; [done|]. rewrite sum_by_cons.
    specialize (IH x). lia.
  - enough (0 <= sum_by (fun e => doc_nodes e.2) m) by lia. induction m as [|[k x] m IHm]; [done|].
    rewrite sum_by_cons. specialize (IH x). cbn. lia.
Qed.

Lemma FromHex_length_aux n : forall s raw, (String.length s <= n)%nat -> FromHex s = Some raw ->
  String.length s = (2 * length raw)%nat.
Proof.
  induction n as [|n IH]; intros s raw Hn; destruct s as [|h [|l s]]; cbn in Hn |- *;
    try (by intros [= <-]); try lia; try done.
  destruct (_ || _)%bool; [done|]. destruct (FromHex s) as [r|] eqn:E; [|done]. intros [= <-].
  apply IH in E; cbn; lia.
Qed.

Lemma FromHex_size s raw : FromHex s = Some raw -> ssize s = 2 * vsize raw.
Proof. intros H. apply (FromHex_length_aux (String.length s)) in H; [|done]. unfold ssize, vsize. lia. Qed.

Section Facts.
Variable limits : RuntimeLimits.
Notation leaf := (max_leaf_bytes limits).

(** The bounds seen from a nesting depth. *)
Definition within (depth : Z) (v : Value) : Prop :=
  fits limits v /\ depth_within v (max_value_depth limits - depth).

Definition member_ok (depth : Z) (entry : string * Value) : Prop :=
  ssize entry.1 <= leaf /\ within depth entry.2.

Lemma within_depth depth v : within depth v -> depth <= max_value_depth limits.
Proof. intros [_ H]. destruct v; cbn in H; lia. Qed.

Lemma within_list depth l :
  within depth (V_List l) <-> depth <= max_value_depth limits /\ Forall (within (depth + 1)) l.
Proof.
  unfold within at 1. cbn [fits depth_within]. rewrite !foldr_and_Forall.
  replace (max_value_depth limits - depth - 1) with (max_value_depth limits - (depth + 1)) by lia.
  unfold within. rewrite Forall_and. intuition lia.
Qed.

Lemma within_map depth m : within depth (V_Map m) <->
  depth <= max_value_depth limits /\ vsize m <= Z.max 0 (max_fields_per_object limits) /\
  Forall (member_ok (depth + 1)) m.
Proof.
  unfold within. cbn [fits depth_within].
  rewrite (foldr_and_Forall (fun e => ssize e.1 <= leaf /\ fits limits e.2)), foldr_and_Forall.
  replace (max_value_depth limits - depth - 1) with (max_value_depth limits - (depth + 1)) by lia.
  assert (E : Forall (member_ok (depth + 1)) m <->
    Forall (fun e => ssize e.1 <= leaf /\ fits limits e.2) m /\
    Forall (fun e => depth_within e.2 (max_value_depth limits - (depth + 1))) m).
  { rewrite <- Forall_and. apply Forall_iff. intros e. unfold member_ok, within. tauto. }
  rewrite E. intuition lia.
Qed.

(** What a complete object of given members must satisfy. *)
Definition members_ok (depth : Z) (map : omap string Value) (members : list (string * Value)) : Prop :=
  Forall (member_ok (depth + 1)) members /\ vsize map <= max_fields_per_object limits.

Lemma singleton_perm {A} (m : list A) ms : m ≡ₚ ms -> vsize m = 1 -> exists e, m = [e] /\ ms = [e].
Proof.
  intros Hp Hv. unfold vsize in Hv. destruct m as [|e [|]]; cbn in Hv; try lia. exists e. split; [done|].
  by apply Permutation_singleton_l in Hp.
Qed.

Lemma object_within depth members v : members <> [] -> NoDup (List.map fst members) ->
  object_value (map_of members) = Some v ->
  (within depth v <-> depth <= max_value_depth limits /\ members_ok depth (map_of members) members) /\
  doc_nodes v = 1 + sum_by (fun entry => doc_nodes (snd entry)) members.
Proof.
  intros Hne Hnd. pose proof (map_of_perm members Hnd) as Hp. unfold object_value, members_ok.
  set (m := map_of members) in *. clearbody m.
  assert (Hmap : forall v', v' = V_Map m -> 
    (within depth v' <-> depth <= max_value_depth limits /\
       Forall (member_ok (depth + 1)) members /\ vsize m <= max_fields_per_object limits) /\
    doc_nodes v' = 1 + sum_by (fun entry => doc_nodes (snd entry)) members).
  { intros v' ->.
    assert (HF : Forall (member_ok (depth + 1)) members <-> Forall (member_ok (depth + 1)) m)
      by (split; apply Permutation_Forall; by rewrite Hp).
    rewrite within_map, HF. cbn [doc_nodes]. split; [|by rewrite (sum_by_perm _ _ _ Hp)].
    assert (1 <= vsize m).
    { unfold vsize. destruct m; [|cbn; lia]. apply Permutation_nil_l in Hp. done. }
    intuition lia. }
  destruct (Z.eqb_spec (vsize m) 1) as [E1|E1]; [|intros [= <-]; by apply Hmap].
  destruct (mfind kBytesMember m) as [x|] eqn:Ef; [|intros [= <-]; by apply Hmap].
  destruct (singleton_perm m members Hp E1) as ([k y] & -> & ->). cbn in Ef.
  destruct (eqb kBytesMember k) eqn:Ek; [|done]. apply eqb_eq in Ek as <-. injection Ef as ->.
  destruct x as [| | | | |hex| | |]; try done. destruct (FromHex hex) as [raw|] eqn:Eh; [|done].
  intros [= <-]. apply FromHex_size in Eh. split; [|done].
  unfold within, member_ok. rewrite Forall_singleton. cbn [fst snd fits depth_within within].
  unfold within. cbn [fits depth_within]. change (vsize [(kBytesMember, V_String hex)]) with 1.
  rewrite Eh. intuition lia.
Qed.

Lemma FinishObject_ok m rest v rest' : FinishObject limits m rest = P_Ok v rest' <->
  rest' = rest /\ object_value m = Some v /\ (forall raw, v = V_Bytes raw -> vsize raw <= leaf).
Proof.
  unfold FinishObject, object_value. set (o := if _ =? _ then _ else _). clearbody o.
  destruct o as [[| | | | |hex| | |]|]; try naive_solver.
  destruct (FromHex hex) as [raw|]; cbn; [|naive_solver].
  destruct (Z.ltb_spec leaf (vsize raw)); [|naive_solver].
  split; [done|]. intros (_ & [= <-] & Hr). specialize (Hr raw eq_refl). lia.
Qed.

Lemma within_bytes depth raw : within depth (V_Bytes raw) -> vsize raw <= leaf.
Proof. intros [(H & _) _]. unfold vsize in *. lia. Qed.
End Facts.
