(* ===== verification/JsonProps.v ===== *)
(** * Properties of the JSON codec

    The parser terminates within its fuel, accepts exactly the texts that spell
    a value within the envelope, and reads both writers' output back. *)

From Stdlib Require Import ZArith Lia List Bool Ascii String Permutation.
From stdpp Require Import base tactics list strings.
From S2P Require Import Prelude Containers Text Status Double Decimal Value.
From S2P Require Import Json JsonGrammar JsonTokens JsonFacts.
#[local] Open Scope string_scope.
#[local] Open Scope Z_scope.
#[local] Arguments String.append : simpl nomatch.

(** ** The parser stops within its fuel, on a text of the grammar *)

Lemma pbind_ok {A B} (p : Parsed A) (k : A -> string -> Parsed B) b rest :
  pbind p k = P_Ok b rest -> exists a r, p = P_Ok a r /\ k a r = P_Ok b rest.
Proof. destruct p as [a r| |]; [|done..]. intros H. by exists a, r. Qed.

Lemma finish_nodes_ok p n v n' rest :
  finish_nodes p n = P_Ok (v, n') rest <-> p = P_Ok v rest /\ n' = n.
Proof. unfold finish_nodes. destruct p; naive_solver. Qed.

Lemma strip_prefix_ok literal text rest :
  strip_prefix literal text = Some rest <-> text = literal +:+ rest.
Proof.
  revert text. induction literal as [|c l IH]; intros [|d text]; cbn; [naive_solver..|].
  destruct (Ascii.eqb c d) eqn:E; chars; [rewrite IH; naive_solver|naive_solver].
Qed.

Lemma ParseLiteral_ok literal v text v' rest :
  ParseLiteral literal v text = P_Ok v' rest <-> text = literal +:+ rest /\ v' = v.
Proof.
  unfold ParseLiteral. rewrite <- strip_prefix_ok. destruct (strip_prefix literal text); naive_solver.
Qed.

Lemma whitespace_app w w' : whitespace w -> whitespace w' -> whitespace (w +:+ w').
Proof.
  unfold whitespace. intros H H'. induction w as [|c w IH]; cbn in *; [done|]. by destruct (is_whitespace c); auto.
Qed.

Lemma SpellsElements_space w l t : whitespace w -> SpellsElements l t -> SpellsElements l (w +:+ t).
Proof.
  intros Hw H. destruct H; rewrite <- (append_assoc w w1); constructor; auto using whitespace_app.
Qed.

Lemma SpellsMembers_space w l t : whitespace w -> SpellsMembers l t -> SpellsMembers l (w +:+ t).
Proof.
  intros Hw H. destruct H; rewrite <- (append_assoc w w1); constructor; auto using whitespace_app.
Qed.

(** Splits white space off the front of a text and names the remainder. *)
Ltac split_space text w r :=
  let E := fresh "Ew" in let Hw := fresh "Hw" in
  destruct (SkipWhitespace_split text) as (w & E & Hw); set (r := SkipWhitespace text) in *; clearbody r;
  subst text.

Lemma number_value_kind token integral v : number_value token integral = Some v ->
  match v with V_Int _ | V_Uint _ | V_Double _ => True | _ => False end.
Proof.
  assert (Hd : number_double token = Some v -> match v with V_Double _ => True | _ => False end).
  { unfold number_double, TryMakeDouble. destruct (from_chars_double token) as [d|]; [|discriminate].
    destruct (is_finite d); [|discriminate]. by intros [= <-]. }
  unfold number_value. set (integer := if (_ && _)%bool then _ else None).
  assert (Hi : forall x, integer = Some x -> match x with V_Int _ | V_Uint _ => True | _ => False end).
  { subst integer. intros x. destruct (_ && _)%bool; [|discriminate].
    destruct (next_is "-" token); [destruct (from_chars_int64 token)|destruct (from_chars_uint64 token)];
      cbn [option_map]; try discriminate; intros [= <-]; [done|]. by destruct (_ <=? _). }
  clearbody integer. destruct integer as [x|]; [intros [= <-]; specialize (Hi x eq_refl); by destruct x|].
  intros H. specialize (Hd H). by destruct v.
Qed.

Section Sound.
Variable limits : RuntimeLimits.
Notation leaf := (max_leaf_bytes limits).
Notation within := (within limits).
Notation member_ok := (member_ok limits).
Notation max_nodes := (max_value_nodes limits).

Definition value_sound (fuel : nat) : Prop := forall depth nodes text v n rest,
  ParseValue limits fuel depth nodes text = P_Ok (v, n) rest ->
  exists t, text = t +:+ rest /\ Spells v t /\ within depth v /\ n = nodes + doc_nodes v /\ n <= max_nodes.

Definition members_sound (fuel : nat) : Prop := forall depth nodes map text v n rest,
  parse_members limits fuel depth nodes map text = P_Ok (v, n) rest ->
  exists ms t, text = t +:+ String "}" rest /\ SpellsMembers ms t /\ NoDup (List.map fst ms) /\
    disjoint_from map ms /\ Forall (member_ok (depth + 1)) ms /\
    vsize (absorb map ms) <= max_fields_per_object limits /\
    FinishObject limits (absorb map ms) rest = P_Ok v rest /\
    n = nodes + sum_by (fun entry => doc_nodes (snd entry)) ms /\ n <= max_nodes.

Definition elements_sound (fuel : nat) : Prop := forall depth nodes l text v n rest,
  parse_elements limits fuel depth nodes l text = P_Ok (v, n) rest ->
  exists l' t, text = t +:+ String "]" rest /\ SpellsElements l' t /\ v = V_List (l ++ l')%list /\
    Forall (within (depth + 1)) l' /\ n = nodes + sum_by doc_nodes l' /\ n <= max_nodes.

Lemma FinishObject_rest m r v rest : FinishObject limits m r = P_Ok v rest -> r = rest.
Proof. intros [-> _]%FinishObject_ok. done. Qed.

Lemma elements_step fuel : value_sound fuel -> elements_sound fuel -> elements_sound (S fuel).
Proof.
  intros HV HE depth nodes l text v n rest. cbn [parse_elements]. split_space text w r.
  intros ([x n1] & r1 & (t & -> & Hs & Hx & -> & Hn)%HV & H)%pbind_ok. cbv beta iota in H.
  destruct (max_nodes <? _); [done|]. split_space r1 w' r. destruct r as [|c r]; [done|].
  destruct (Ascii.eqb c ",") eqn:Ec; chars.
  - apply HE in H as (l' & t' & -> & Ht & -> & Hl & -> & Hm).
    exists (x :: l'), (w +:+ t +:+ w' +:+ "," +:+ t'). split; [by rewrite !append_assoc|].
    split; [by constructor|]. split; [by rewrite <- app_assoc|]. split; [by constructor|].
    rewrite sum_by_cons. lia.
  - destruct (Ascii.eqb c "]") eqn:Ec'; [|done]. chars. injection H as <- <- <-.
    exists [x], (w +:+ t +:+ w'). split; [by rewrite !append_assoc|]. split; [by constructor|].
    split; [done|]. split; [by constructor|]. rewrite sum_by_cons. change (sum_by doc_nodes []) with 0. lia.
Qed.

Lemma members_step fuel : value_sound fuel -> members_sound fuel -> members_sound (S fuel).
Proof.
  intros HV HM depth nodes map text v n rest. cbn [parse_members]. split_space text w1 r.
  destruct (next_is quote_char r) as [r0|] eqn:Eq; [|done]. apply next_is_Some in Eq as ->.
  intros (k & r1 & (tk & Ek & Hk & Hlen)%literal_sound & H)%pbind_ok. rewrite Ek. clear Ek r0.
  destruct (Z.ltb_spec leaf (ssize k)); [done|]. split_space r1 w2 r.
  destruct (next_is ":" r) as [r0|] eqn:Eq; [|done]. apply next_is_Some in Eq as ->.
  split_space r0 w3 r. apply pbind_ok in H as ([x n1] & r1 & (t & -> & Hs & Hx & -> & Hn)%HV & H).
  cbv beta iota in H. destruct (mmem k map) eqn:Ek; [done|].
  assert (Hnone : mfind k map = None) by (unfold mmem in Ek; by destruct (mfind k map)).
  destruct (Z.ltb_spec (max_fields_per_object limits) (vsize (memplace k x map))); [done|].
  split_space r1 w4 r. destruct r as [|c r]; [done|].
  set (ms0 := [(k, x)]). assert (Hok : member_ok (depth + 1) (k, x)) by by split.
  destruct (Ascii.eqb c ",") eqn:Ec; chars.
  - apply HM in H as (ms & t' & -> & Ht & Hnd & Hdis & Hms & Hsz & Hf & -> & Hm).
    unfold disjoint_from in *. rewrite memplace_absent in Hdis by done.
    exists ((k, x) :: ms), (w1 +:+ tk +:+ w2 +:+ ":" +:+ w3 +:+ t +:+ w4 +:+ "," +:+ t').
    split; [by rewrite !append_assoc|]. split; [by constructor|]. rewrite Forall_forall in Hdis.
    assert (Hkx : Forall (fun e => mfind e.1 map = None /\ e.1 <> k) ms).
    { apply Forall_forall. intros e He. specialize (Hdis e He). cbn beta in Hdis.
      assert (Hne : e.1 <> k) by (intros E; rewrite E, mfind_insert_eq in Hdis; done).
      split; [|done]. by rewrite mfind_insert_ne in Hdis. }
    rewrite Forall_and in Hkx. destruct Hkx as [Hk1 Hk2].
    split; [cbn; constructor; [|done]|].
    { intros (e & E & He)%list_elem_of_fmap. rewrite Forall_forall in Hk2. by apply (Hk2 e He). }
    split; [by constructor|]. split; [by constructor|]. split; [done|]. split; [done|].
    rewrite sum_by_cons. cbn [snd]. lia.
  - destruct (Ascii.eqb c "}") eqn:Ec'; [|done]. chars. apply finish_nodes_ok in H as [H ->].
    pose proof (FinishObject_rest _ _ _ _ H) as ->.
    exists [(k, x)], (w1 +:+ tk +:+ w2 +:+ ":" +:+ w3 +:+ t +:+ w4). split; [by rewrite !append_assoc|].
    split; [by constructor|]. split; [cbn; constructor; [by apply not_elem_of_nil|constructor]|].
    split; [by constructor|]. split; [by constructor|]. split; [done|]. split; [done|].
    rewrite sum_by_cons. cbn [snd]. change (sum_by _ []) with 0. lia.
Qed.

Lemma value_step fuel : members_sound fuel -> elements_sound fuel -> value_sound (S fuel).
Proof.
  intros HM HE depth nodes text v n rest. cbn [ParseValue].
  destruct (Z.ltb_spec (max_value_depth limits) depth) as [|Hd]; [done|].
  destruct (Z.ltb_spec max_nodes (nodes + 1)) as [|Hn]; [done|].
  destruct text as [|c text]; [done|].
  assert (Hleaf : forall v', match v' with V_Bytes _ | V_List _ | V_Map _ | V_String _ => False | _ => True end ->
    within depth v' /\ doc_nodes v' = 1) by (intros v'; destruct v'; intros Hv; try contradiction Hv; (split; [|reflexivity]); split; cbn; auto with lia).
  destruct (Ascii.eqb c "{") eqn:E1; chars.
  { split_space text w r. destruct (next_is "}" r) as [r0|] eqn:En.
    - apply next_is_Some in En as ->. intros [H ->]%finish_nodes_ok.
      apply FinishObject_ok in H as (-> & [= <-] & _). exists ("{" +:+ w +:+ "}").
      split; [cbn; by rewrite !append_assoc|]. split; [by constructor|].
      rewrite within_map. split; [|by split]. split; [lia|]. split; [change (vsize _) with 0; lia|constructor].
    - intros (ms & t & -> & Ht & Hnd & _ & Hok & Hsz & Hf & -> & Hm)%HM.
      apply FinishObject_ok in Hf as (_ & Hv & _). exists ("{" +:+ (w +:+ t) +:+ "}").
      split; [cbn; by rewrite !append_assoc|].
      split; [by apply (Spells_object ms); [apply SpellsMembers_space|..]|].
      destruct (object_within limits depth ms v) as [Hin Hd']; try done; [by destruct Ht|].
      split; [by apply Hin|]. lia. }
  destruct (Ascii.eqb c "[") eqn:E2; chars.
  { split_space text w r. destruct (next_is "]" r) as [r0|] eqn:En.
    - apply next_is_Some in En as ->. intros [= <- <- <-]. exists ("[" +:+ w +:+ "]").
      split; [cbn; by rewrite !append_assoc|]. split; [by constructor|]. rewrite within_list. by auto.
    - intros (l & t & -> & Ht & -> & Hok & -> & Hm)%HE. exists ("[" +:+ (w +:+ t) +:+ "]").
      split; [cbn; by rewrite !append_assoc|]. split; [by constructor; apply SpellsElements_space|].
      rewrite within_list. split; [by split|]. cbn [doc_nodes app]. lia. }
  destruct (Ascii.eqb c quote_char) eqn:E3; chars.
  { intros (s & r & (t & -> & Hs & Hl)%literal_sound & [= <- <- <-])%pbind_ok. exists t.
    split; [done|]. split; [by constructor|]. split; [|by split]. split; [done|]. cbn. lia. }
  assert (Hlit : forall literal v', finish_nodes (ParseLiteral literal v' (String c text)) (nodes + 1)
      = P_Ok (v, n) rest -> Spells v' literal ->
    match v' with V_Bytes _ | V_List _ | V_Map _ | V_String _ => False | _ => True end ->
    exists t, String c text = t +:+ rest /\ Spells v t /\ within depth v /\ n = nodes + doc_nodes v /\ n <= max_nodes).
  { intros literal v' [[E ->]%ParseLiteral_ok ->]%finish_nodes_ok Hs Hv. exists literal.
    destruct (Hleaf v' Hv) as [? ->]. split; [exact E|]. split; [exact Hs|]. split; [assumption|]. split; [reflexivity|lia]. }
  destruct (Ascii.eqb c "t"); [intros H; apply (Hlit _ _ H); [constructor|done]|].
  destruct (Ascii.eqb c "f"); [intros H; apply (Hlit _ _ H); [constructor|done]|].
  destruct (Ascii.eqb c "n"); [intros H; apply (Hlit _ _ H); [constructor|done]|].
  intros [(t & -> & Ht)%ParseNumber_sound ->]%finish_nodes_ok. exists t.
  destruct (Hleaf v) as [Hw ->]; [|split; [reflexivity|]; split; [by apply Spells_number|]; split; [exact Hw|]; split; [reflexivity|lia]].
  destruct Ht as (? & ? & ? & ? & _ & _ & _ & _ & _ & Hv). apply number_value_kind in Hv. by destruct v.
Qed.

Lemma parser_sound fuel : value_sound fuel /\ members_sound fuel /\ elements_sound fuel.
Proof.
  induction fuel as [|fuel (HV & HM & HE)]; [by repeat split; intros ? *|].
  split; [by apply value_step|]. split; [by apply members_step|by apply elements_step].
Qed.
End Sound.

(** ** Termination *)

(** A result that is a value or a refusal. *)
Definition settles {A} (p : Parsed A) : Prop :=
  match p with P_Ok _ _ => True | P_Fail status => status_ok status = false | P_Fuel => False end.

Ltac settle := first [exact I | reflexivity].

Section Total.
Variable limits : RuntimeLimits.

Lemma bounded_string_settles out k : (forall o, settles (k o)) -> settles (bounded_string limits out k).
Proof. intros H. unfold bounded_string. destruct (_ <? _); [settle|apply H]. Qed.

Lemma ParseString_fuel n : forall text out, (String.length text <= n)%nat ->
  settles (ParseString limits text out).
Proof.
  induction n as [|n IH]; intros text out Hn; (destruct text as [|c text]; [settle|]); cbn in Hn; [lia|].
  cbn [ParseString].
  repeat match goal with
  | |- settles (bounded_string _ _ _) => apply bounded_string_settles; intros ?
  | |- settles (ParseString _ _ _) => apply IH; cbn in Hn; lia
  | |- settles (match ?x with _ => _ end) => destruct x; try settle
  end; settle.
Qed.

Lemma ParseString_settles text out : settles (ParseString limits text out).
Proof. by apply (ParseString_fuel (String.length text)). Qed.

Lemma pbind_settles {A B} (p : Parsed A) (k : A -> string -> Parsed B) :
  settles p -> (forall a r, p = P_Ok a r -> settles (k a r)) -> settles (pbind p k).
Proof. destruct p; cbn; intros H Hk; [by apply Hk|exact H|exact H]. Qed.

Lemma finish_nodes_settles p n : settles p -> settles (finish_nodes p n).
Proof. intros H. apply pbind_settles; [exact H|intros; settle]. Qed.

Lemma ParseNumber_settles text : settles (ParseNumber text).
Proof.
  unfold ParseNumber. destruct (take_minus text) as [b t].
  apply pbind_settles; [|intros w t1 _; apply pbind_settles; [|intros f t2 _; apply pbind_settles]].
  - unfold scan_whole. destruct t as [|c r]; [settle|].
    repeat (case_match; try settle).
  - unfold scan_fraction. repeat (case_match; try settle).
  - unfold scan_exponent. repeat (case_match; try settle).
  - intros x t3 _. destruct (number_value _ _); settle.
Qed.

Lemma FinishObject_settles m rest : settles (FinishObject limits m rest).
Proof. unfold FinishObject. repeat (case_match; try settle). Qed.

Lemma ParseLiteral_settles l v text : settles (ParseLiteral l v text).
Proof. unfold ParseLiteral. destruct (strip_prefix l text); settle. Qed.

Lemma SkipWhitespace_length text : (String.length (SkipWhitespace text) <= String.length text)%nat.
Proof. induction text as [|c t IH]; cbn; [lia|]. destruct (is_whitespace c); cbn; lia. Qed.

Lemma next_is_length c text rest : next_is c text = Some rest -> String.length text = S (String.length rest).
Proof. by intros ->%next_is_Some. Qed.

Lemma value_length fuel depth nodes text v rest :
  ParseValue limits fuel depth nodes text = P_Ok v rest -> (String.length rest <= String.length text)%nat.
Proof.
  destruct v as [v n]. intros (t & -> & _)%(proj1 (parser_sound limits fuel)). rewrite length_append. lia.
Qed.

Lemma string_rest_length text s rest : ParseString limits text "" = P_Ok s rest ->
  (String.length rest <= String.length text)%nat.
Proof.
  intros (t & E & (t' & -> & _) & _)%literal_sound. injection E as ->.
  rewrite !length_append. lia.
Qed.

Lemma ParseValue_total fuel :
  (forall depth nodes text, (2 * String.length text + 1 <= fuel)%nat ->
     settles (ParseValue limits fuel depth nodes text)) /\
  (forall depth nodes map text, (2 * String.length text + 1 <= fuel)%nat ->
     settles (parse_members limits fuel depth nodes map text)) /\
  (forall depth nodes l text, (2 * String.length text + 2 <= fuel)%nat ->
     settles (parse_elements limits fuel depth nodes l text)).
Proof.
  induction fuel as [|fuel (HV & HM & HE)]; [repeat split; intros; lia|]. split; [|split].
  - intros depth nodes text Hf. cbn [ParseValue]. do 2 (case_match; [settle|]).
    destruct text as [|c text]; [settle|]. cbn [String.length] in Hf.
    pose proof (SkipWhitespace_length text).
    do 2 (case_match; [case_match;
      [first [settle | apply finish_nodes_settles, FinishObject_settles]
      | first [apply HM | apply HE]; lia]|]).
    case_match; [apply pbind_settles; [apply ParseString_settles|intros; settle]|].
    do 3 (case_match; [apply finish_nodes_settles, ParseLiteral_settles|]).
    apply finish_nodes_settles, ParseNumber_settles.
  - intros depth nodes map text Hf. cbn [parse_members].
    pose proof (SkipWhitespace_length text) as HL1.
    case_match eqn:E1; [|settle]. apply next_is_length in E1.
    apply pbind_settles; [apply ParseString_settles|]. intros k r Ek%string_rest_length.
    case_match; [settle|]. pose proof (SkipWhitespace_length r) as HL2.
    case_match eqn:E2; [|settle]. apply next_is_length in E2.
    pose proof (SkipWhitespace_length s0) as HL3.
    apply pbind_settles; [apply HV; lia|]. intros [x n] r1 E3%value_length.
    do 2 (case_match; [settle|]). pose proof (SkipWhitespace_length r1) as HL4.
    case_match eqn:E4; [settle|]. cbn [String.length] in HL4.
    case_match; [apply HM; lia|]. case_match; [apply finish_nodes_settles, FinishObject_settles|settle].
  - intros depth nodes l text Hf. cbn [parse_elements].
    pose proof (SkipWhitespace_length text) as HL1.
    apply pbind_settles; [apply HV; lia|]. intros [x n] r E%value_length.
    case_match; [settle|]. pose proof (SkipWhitespace_length r) as HL2.
    case_match eqn:E2; [settle|]. cbn [String.length] in HL2.
    case_match; [apply HE; lia|case_match; settle].
Qed.
End Total.

(** ** A text of the grammar is accepted *)

Section Complete.
Variable limits : RuntimeLimits.
Notation leaf := (max_leaf_bytes limits).
Notation within := (within limits).
Notation member_ok := (member_ok limits).
Notation max_nodes := (max_value_nodes limits).

(** How the text of a value starts. *)
Definition value_head (c : ascii) : Prop := is_whitespace c = false /\ c <> "]"%char /\ c <> "}"%char.

Lemma number_head v t : Number v t -> exists c r, t = String c r /\ (is_digit c = true \/ c = "-"%char).
Proof.
  intros (sign & w & f & x & -> & [-> | ->] & Hw & _); [|by eauto].
  destruct Hw as [-> | (Hd & c & r & -> & _)]; [by eauto|].
  exists c, (r +:+ f +:+ x). split; [done|]. left. unfold all_digits in Hd. cbn in Hd. by destruct (is_digit c).
Qed.

Lemma Spells_head v t : Spells v t -> exists c r, t = String c r /\ value_head c.
Proof.
  unfold value_head. destruct 1 as [| | |v t Hn|s t (t' & -> & _)| | | |]; try by eexists _, _.
  destruct (number_head v t Hn) as (c & r & -> & Hc). exists c, r. split; [done|].
  destruct Hc as [Hc| ->]; [|done].
  split; [|split; intros ->; discriminate Hc].
  unfold is_whitespace. repeat (apply orb_false_intro); apply Ascii.eqb_neq; intros ->; discriminate Hc.
Qed.

Lemma Spells_solid v t rest : Spells v t -> solid (t +:+ rest).
Proof. intros (c & r & -> & Hc & _)%Spells_head. by apply solid_char. Qed.

Lemma Spells_next v t c rest : Spells v t -> c = "]"%char \/ c = "}"%char -> next_is c (t +:+ rest) = None.
Proof. intros (d & r & -> & _ & H1 & H2)%Spells_head [-> | ->]; by apply next_is_None. Qed.

Lemma ends_number_space w rest : whitespace w -> ends_number rest -> ends_number (w +:+ rest).
Proof.
  unfold whitespace. destruct w as [|c w]; cbn; [done|]. destruct (is_whitespace c) eqn:E; [|done]. intros _ _.
  unfold is_whitespace in E. chars. destruct E as [E|E]; chars; [|done].
  destruct E as [E|E]; chars; [|done]. by destruct E; chars.
Qed.

Definition value_complete (v : Value) (t : string) : Prop := forall fuel depth nodes rest,
  ends_number rest -> within depth v -> nodes + doc_nodes v <= max_nodes -> 0 <= nodes ->
  (2 * String.length (t +:+ rest) + 1 <= fuel)%nat ->
  ParseValue limits fuel depth nodes (t +:+ rest) = P_Ok (v, nodes + doc_nodes v) rest.

Definition elements_complete (l : list Value) (t : string) : Prop := forall fuel depth nodes acc rest,
  Forall (within (depth + 1)) l -> nodes + sum_by doc_nodes l <= max_nodes -> vsize acc <= nodes ->
  (2 * String.length (t +:+ String "]" rest) + 2 <= fuel)%nat ->
  parse_elements limits fuel depth nodes acc (t +:+ String "]" rest) =
    P_Ok (V_List (acc ++ l)%list, nodes + sum_by doc_nodes l) rest.

Definition members_complete (ms : list (string * Value)) (t : string) : Prop :=
  forall fuel depth nodes map v rest,
  NoDup (List.map fst ms) -> disjoint_from map ms -> Forall (member_ok (depth + 1)) ms ->
  vsize (absorb map ms) <= max_fields_per_object limits ->
  FinishObject limits (absorb map ms) rest = P_Ok v rest ->
  nodes + sum_by (fun entry => doc_nodes (snd entry)) ms <= max_nodes -> 0 <= nodes ->
  (2 * String.length (t +:+ String "}" rest) + 1 <= fuel)%nat ->
  parse_members limits fuel depth nodes map (t +:+ String "}" rest) =
    P_Ok (v, nodes + sum_by (fun entry => doc_nodes (snd entry)) ms) rest.

(** One element, read up to what follows it. *)
Lemma element_read v w t w2 c rest fuel depth nodes acc :
  whitespace w -> Spells v t -> value_complete v t -> whitespace w2 -> c = ","%char \/ c = "]"%char ->
  within (depth + 1) v -> nodes + doc_nodes v <= max_nodes -> vsize acc <= nodes ->
  (2 * String.length (w +:+ t +:+ w2 +:+ String c rest) + 2 <= S fuel)%nat ->
  parse_elements limits (S fuel) depth nodes acc (w +:+ t +:+ w2 +:+ String c rest) =
    if Ascii.eqb c "," then parse_elements limits fuel depth (nodes + doc_nodes v) (acc ++ [v])%list rest
    else P_Ok (V_List (acc ++ [v])%list, nodes + doc_nodes v) rest.
Proof.
  intros Hw Hs Hc Hw2 Hcc Hin Hn Hacc Hf. cbn [parse_elements]. pose proof (doc_nodes_pos v).
  rewrite SkipWhitespace_app by (done || by apply Spells_solid with v).
  assert (Hr : ends_number (w2 +:+ String c rest)) by (apply ends_number_space; [done|by destruct Hcc as [-> | ->]]).
  assert (Hv : 0 <= vsize acc) by (unfold vsize; lia).
  rewrite (Hc fuel (depth + 1) nodes _ Hr Hin Hn); [|lia|rewrite !length_append in *; lia].
  cbn [pbind]. replace (max_nodes <? vsize (acc ++ [v])%list) with false
    by (symmetry; apply Z.ltb_ge; unfold vsize in *; rewrite length_app; cbn [length]; lia).
  rewrite SkipWhitespace_app by (done || by apply solid_char; destruct Hcc as [-> | ->]).
  by destruct Hcc as [-> | ->].
Qed.

(** One member, read up to what follows it. *)
Lemma member_read k v w1 tk w2 w3 t w4 c rest fuel depth nodes map :
  whitespace w1 -> Literal k tk -> whitespace w2 -> whitespace w3 -> Spells v t -> value_complete v t ->
  whitespace w4 -> c = ","%char \/ c = "}"%char -> member_ok (depth + 1) (k, v) ->
  nodes + doc_nodes v <= max_nodes -> 0 <= nodes -> mfind k map = None ->
  vsize (memplace k v map) <= max_fields_per_object limits ->
  (2 * String.length (w1 +:+ tk +:+ w2 +:+ ":" +:+ w3 +:+ t +:+ w4 +:+ String c rest) + 1 <= S fuel)%nat ->
  parse_members limits (S fuel) depth nodes map
      (w1 +:+ tk +:+ w2 +:+ ":" +:+ w3 +:+ t +:+ w4 +:+ String c rest) =
    if Ascii.eqb c ","
    then parse_members limits fuel depth (nodes + doc_nodes v) (memplace k v map) rest
    else finish_nodes (FinishObject limits (memplace k v map) rest) (nodes + doc_nodes v).
Proof.
  intros Hw1 Hk Hw2 Hw3 Hs Hc Hw4 Hcc [Hlen Hin] Hn Hnodes Hnone Hsz Hf. cbn [fst snd] in *.
  cbn [parse_members].
  destruct (literal_complete limits k tk (w2 +:+ ":" +:+ w3 +:+ t +:+ w4 +:+ String c rest) Hk Hlen)
    as (tk' & Ek & Hp).
  rewrite Ek, SkipWhitespace_app by (done || by apply solid_char).
  change (next_is quote_char (String quote_char tk')) with (Some tk'). cbv beta iota. rewrite Hp. cbn [pbind].
  replace (leaf <? ssize k) with false by (symmetry; by apply Z.ltb_ge).
  rewrite SkipWhitespace_app by done.
  change (next_is ":" (":" +:+ w3 +:+ t +:+ w4 +:+ String c rest)) with (Some (w3 +:+ t +:+ w4 +:+ String c rest)).
  cbv beta iota. rewrite SkipWhitespace_app by (done || by apply Spells_solid with v).
  assert (Hr : ends_number (w4 +:+ String c rest)) by (apply ends_number_space; [done|by destruct Hcc as [-> | ->]]).
  rewrite (Hc fuel (depth + 1) nodes _ Hr Hin Hn); [|lia|rewrite !length_append in *; cbn [String.length] in *; lia].
  cbn [pbind]. unfold mmem. rewrite Hnone.
  replace (max_fields_per_object limits <? _) with false by (symmetry; by apply Z.ltb_ge).
  rewrite SkipWhitespace_app by (done || by apply solid_char; destruct Hcc as [-> | ->]).
  by destruct Hcc as [-> | ->].
Qed.

Lemma sum_by_pos {A} (f : A -> Z) l : (forall x, 0 <= f x) -> 0 <= sum_by f l.
Proof. intros H. induction l as [|x l IH]; [done|]. rewrite sum_by_cons. specialize (H x). lia. Qed.

Lemma elements_head l t : SpellsElements l t -> exists w c r, t = w +:+ String c r /\ whitespace w /\ value_head c.
Proof.
  destruct 1 as [v w1 t w2 Hw (c & r & -> & Hc)%Spells_head _|v l w1 t w2 t' Hw (c & r & -> & Hc)%Spells_head _ _];
    by eexists w1, c, _.
Qed.

Lemma members_head ms t : SpellsMembers ms t -> exists w r, t = w +:+ String quote_char r /\ whitespace w.
Proof. destruct 1 as [? ? ? ? ? ? ? ? ? (? & -> & _)|? ? ? ? ? ? ? ? ? ? ? (? & -> & _)]; by eexists _, _. Qed.

Lemma parse_elements_skip fuel depth nodes acc text :
  parse_elements limits fuel depth nodes acc (SkipWhitespace text) = parse_elements limits fuel depth nodes acc text.
Proof. destruct fuel; [done|]. cbn [parse_elements]. by rewrite SkipWhitespace_solid. Qed.

Lemma parse_members_skip fuel depth nodes map text :
  parse_members limits fuel depth nodes map (SkipWhitespace text) = parse_members limits fuel depth nodes map text.
Proof. destruct fuel; [done|]. cbn [parse_members]. by rewrite SkipWhitespace_solid. Qed.

(** The guards of [ParseValue] are passed. *)
Lemma ParseValue_enter v fuel depth nodes c text :
  within depth v -> nodes + doc_nodes v <= max_nodes ->
  (2 * String.length (String c text) + 1 <= fuel)%nat ->
  exists fuel', (2 * String.length text + 2 <= fuel')%nat /\
    ParseValue limits fuel depth nodes (String c text) =
    if Ascii.eqb c "{" then
      match next_is "}" (SkipWhitespace text) with
      | Some rest => finish_nodes (FinishObject limits [] rest) (nodes + 1)
      | None => parse_members limits fuel' depth (nodes + 1) [] text
      end
    else if Ascii.eqb c "[" then
      match next_is "]" (SkipWhitespace text) with
      | Some rest => P_Ok (V_List [], nodes + 1) rest
      | None => parse_elements limits fuel' depth (nodes + 1) [] text
      end
    else if Ascii.eqb c quote_char then
      let* (s, rest) := ParseString limits text "" in P_Ok (V_String s, nodes + 1) rest
    else if Ascii.eqb c "t" then finish_nodes (ParseLiteral "true" (V_Bool true) (String c text)) (nodes + 1)
    else if Ascii.eqb c "f" then finish_nodes (ParseLiteral "false" (V_Bool false) (String c text)) (nodes + 1)
    else if Ascii.eqb c "n" then finish_nodes (ParseLiteral "null" V_Null (String c text)) (nodes + 1)
    else finish_nodes (ParseNumber (String c text)) (nodes + 1).
Proof.
  intros Hd%within_depth Hn Hf. pose proof (doc_nodes_pos v). destruct fuel as [|fuel]; [lia|].
  exists fuel. cbn [String.length] in Hf. split; [lia|]. cbn [ParseValue].
  replace (max_value_depth limits <? depth) with false by (symmetry; apply Z.ltb_ge; lia).
  replace (max_nodes <? nodes + 1) with false by (symmetry; apply Z.ltb_ge; lia).
  by rewrite parse_members_skip, parse_elements_skip.
Qed.

Lemma literal_value literal v rest : ParseLiteral literal v (literal +:+ rest) = P_Ok v rest.
Proof. by apply ParseLiteral_ok. Qed.

Lemma list_value_complete l t : SpellsElements l t -> elements_complete l t ->
  value_complete (V_List l) ("[" +:+ t +:+ "]").
Proof.
  intros Hs Hc fuel depth nodes rest _ Hin Hn H0 Hf. rewrite append_assoc in *. cbn [String.append] in *.
  rewrite append_assoc in *. cbn [String.append] in *.
  destruct (ParseValue_enter _ _ _ _ _ _ Hin Hn Hf) as (fuel' & Hf' & ->). cbn [Ascii.eqb Bool.eqb].
  assert (En : next_is "]" (SkipWhitespace (t +:+ String "]" rest)) = None).
  { destruct (elements_head l t Hs) as (w & c & r & -> & Hw & Hws & Hc1 & _).
    rewrite append_assoc, SkipWhitespace_app by (done || by apply solid_char). by apply next_is_None. }
  rewrite En. cbn [doc_nodes] in *.
  apply within_list in Hin as [_ Hin]. rewrite Hc; [|done|lia|change (vsize []) with 0; lia|exact Hf']. cbn [app].
  f_equal. f_equal. lia.
Qed.

Lemma object_value_complete ms t v : SpellsMembers ms t -> members_complete ms t ->
  NoDup (List.map fst ms) -> object_value (map_of ms) = Some v ->
  value_complete v ("{" +:+ t +:+ "}").
Proof.
  intros Hs Hc Hnd Hv fuel depth nodes rest _ Hin Hn H0 Hf. rewrite append_assoc in *. cbn [String.append] in *.
  rewrite append_assoc in *. cbn [String.append] in *.
  destruct (ParseValue_enter _ _ _ _ _ _ Hin Hn Hf) as (fuel' & Hf' & ->). cbn [Ascii.eqb Bool.eqb].
  assert (En : next_is "}" (SkipWhitespace (t +:+ String "}" rest)) = None).
  { destruct (members_head ms t Hs) as (w & r & -> & Hw).
    rewrite append_assoc, SkipWhitespace_app by (done || by apply solid_char). by apply next_is_None. }
  rewrite En.
  destruct (object_within limits depth ms v) as [Hiff Hnodes]; [by destruct Hs|done|done|].
  rewrite Hnodes in *. pose proof (proj1 Hiff Hin) as (_ & Hok & Hsz).
  rewrite (Hc fuel' depth (nodes + 1) [] v rest); [|done|by apply Forall_true|done|done| |lia|lia|].
  - f_equal. f_equal. lia.
  - apply FinishObject_ok. split; [done|]. split; [done|]. intros raw ->. by apply within_bytes in Hin.
  - lia.
Qed.

Lemma scalar_complete v t : Spells v t ->
  match v with V_List _ | V_Map _ | V_Bytes _ => False | _ => True end -> value_complete v t.
Proof.
  intros Hs Hk fuel depth nodes rest Hr Hin Hn H0 Hf.
  destruct (Spells_head v t Hs) as (c & r & E & _). rewrite E in Hf |- *. cbn [String.append] in Hf |- *.
  destruct (ParseValue_enter _ _ _ _ _ _ Hin Hn Hf) as (fuel' & Hf' & ->).
  change (String c (r +:+ rest)) with (String c r +:+ rest). rewrite <- E.
  replace (doc_nodes v) with 1 by (by destruct v).
  destruct Hs as [| | |v' t' Hnum|s t' Hl| | | |ms t' v' _ _ Hv]; try contradiction Hk.
  1-3: injection E as <- <-; cbn [Ascii.eqb Bool.eqb]; by rewrite literal_value.
  - destruct (number_head v' t' Hnum) as (c' & r' & E' & Hc). rewrite E in E'. injection E' as <- <-.
    assert (Hne : forall x, is_digit x = false -> x <> "-"%char -> Ascii.eqb c x = false)
      by (intros x Hx Hx'; apply Ascii.eqb_neq; intros ->; destruct Hc; congruence).
    rewrite !Hne by done. by rewrite (ParseNumber_complete v' t' rest Hnum Hr).
  - destruct Hin as [Hlen _]. destruct (literal_complete limits s t' rest Hl Hlen) as (t2 & E' & Hp).
    rewrite E in E'. cbn [String.append] in E'. injection E' as -> ->. cbn [Ascii.eqb Bool.eqb].
    by rewrite Hp.
  - exfalso. unfold object_value in Hv. set (o := if _ =? _ then _ else _) in Hv. destruct o as [[| | | | |hex| | |]|];
      try discriminate Hv; [|by injection Hv as <-]. destruct (FromHex hex); [|discriminate Hv].
    by injection Hv as <-.
Qed.

Lemma empty_list_complete w : whitespace w -> value_complete (V_List []) ("[" +:+ w +:+ "]").
Proof.
  intros Hw fuel depth nodes rest _ Hin Hn H0 Hf. rewrite append_assoc in *. cbn [String.append] in *.
  rewrite append_assoc in *. cbn [String.append] in *.
  destruct (ParseValue_enter _ _ _ _ _ _ Hin Hn Hf) as (fuel' & Hf' & ->).
  rewrite SkipWhitespace_app by (done || by apply solid_char). reflexivity.
Qed.

Lemma empty_map_complete w : whitespace w -> value_complete (V_Map []) ("{" +:+ w +:+ "}").
Proof.
  intros Hw fuel depth nodes rest _ Hin Hn H0 Hf. rewrite append_assoc in *. cbn [String.append] in *.
  rewrite append_assoc in *. cbn [String.append] in *.
  destruct (ParseValue_enter _ _ _ _ _ _ Hin Hn Hf) as (fuel' & Hf' & ->).
  rewrite SkipWhitespace_app by (done || by apply solid_char). reflexivity.
Qed.

Lemma absorb_cons map k v ms : NoDup (List.map fst ((k, v) :: ms)) -> disjoint_from map ((k, v) :: ms) ->
  mfind k map = None /\ NoDup (List.map fst ms) /\ disjoint_from (memplace k v map) ms /\
  (vsize (memplace k v map) <= vsize (absorb map ((k, v) :: ms))).
Proof.
  unfold disjoint_from. intros Hnd Hdis. pose proof (absorb_perm _ _ Hnd Hdis) as Hp.
  cbn in Hnd. apply NoDup_cons in Hnd as [Hk Hnd]. apply Forall_cons in Hdis as [Hnone Hdis]. cbn in Hnone.
  split; [done|]. split; [done|]. rewrite memplace_absent by done. split.
  - rewrite Forall_forall in *. intros e He. rewrite mfind_insert_ne; [by apply Hdis|].
    intros E. apply Hk, list_elem_of_fmap. rewrite E. eauto.
  - unfold vsize. rewrite (Permutation_length (minsert_perm k v map Hnone)), (Permutation_length Hp).
    cbn. rewrite length_app. lia.
Qed.

Lemma last_element_complete v w1 t w2 : whitespace w1 -> Spells v t -> value_complete v t -> whitespace w2 ->
  elements_complete [v] (w1 +:+ t +:+ w2).
Proof.
  intros Hw1 Hs Hc Hw2 fuel depth nodes acc rest [Hin _]%Forall_cons Hn Hacc Hf.
  rewrite sum_by_cons in *. change (sum_by _ []) with 0 in *. rewrite Z.add_0_r in *.
  destruct fuel as [|fuel]; [lia|]. rewrite !append_assoc in *. by rewrite (element_read v) by auto.
Qed.

Lemma more_elements_complete v l w1 t w2 t' : whitespace w1 -> Spells v t -> value_complete v t ->
  whitespace w2 -> elements_complete l t' -> elements_complete (v :: l) (w1 +:+ t +:+ w2 +:+ "," +:+ t').
Proof.
  intros Hw1 Hs Hc Hw2 Hl fuel depth nodes acc rest [Hin Hins]%Forall_cons Hn Hacc Hf.
  pose proof (sum_by_pos doc_nodes l ltac:(intros x; pose proof (doc_nodes_pos x); lia)).
  rewrite sum_by_cons in *. destruct fuel as [|fuel]; [lia|]. rewrite !append_assoc in *.
  cbn [String.append] in *.
  rewrite (element_read v) by (auto; lia). cbn [Ascii.eqb Bool.eqb]. pose proof (doc_nodes_pos v).
  rewrite Hl; [by rewrite <- app_assoc, Z.add_assoc|done|lia| |].
  - unfold vsize in *. rewrite length_app. cbn [length]. lia.
  - rewrite !length_append in Hf. cbn [String.length] in Hf. rewrite length_append in *. cbn [String.length] in *. lia.
Qed.

Lemma last_member_complete k v w1 tk w2 w3 t w4 : whitespace w1 -> Literal k tk -> whitespace w2 ->
  whitespace w3 -> Spells v t -> value_complete v t -> whitespace w4 ->
  members_complete [(k, v)] (w1 +:+ tk +:+ w2 +:+ ":" +:+ w3 +:+ t +:+ w4).
Proof.
  intros Hw1 Hk Hw2 Hw3 Hs Hc Hw4 fuel depth nodes map o rest Hnd Hdis [Hok _]%Forall_cons Hsz Hfin Hn H0 Hf.
  destruct (absorb_cons map k v [] Hnd Hdis) as (Hnone & _ & _ & Hle).
  rewrite sum_by_cons in *. change (sum_by _ []) with 0 in *. rewrite Z.add_0_r in *. cbn [snd] in *.
  destruct fuel as [|fuel]; [lia|]. rewrite !append_assoc in *.
  rewrite (member_read k v) by (auto; lia). cbn [Ascii.eqb Bool.eqb]. by apply finish_nodes_ok.
Qed.

Lemma more_members_complete k v l w1 tk w2 w3 t w4 t' : whitespace w1 -> Literal k tk -> whitespace w2 ->
  whitespace w3 -> Spells v t -> value_complete v t -> whitespace w4 -> members_complete l t' ->
  members_complete ((k, v) :: l) (w1 +:+ tk +:+ w2 +:+ ":" +:+ w3 +:+ t +:+ w4 +:+ "," +:+ t').
Proof.
  intros Hw1 Hk Hw2 Hw3 Hs Hc Hw4 Hl fuel depth nodes map o rest Hnd Hdis [Hok Hoks]%Forall_cons Hsz Hfin Hn H0 Hf.
  destruct (absorb_cons map k v l Hnd Hdis) as (Hnone & Hnd' & Hdis' & Hle).
  pose proof (sum_by_pos (fun e : string * Value => doc_nodes e.2) l
    ltac:(intros x; pose proof (doc_nodes_pos x.2); lia)).
  rewrite sum_by_cons in *. cbn [snd] in *.
  destruct fuel as [|fuel]; [lia|]. rewrite !append_assoc in *.
  change ("," +:+ t' +:+ String "}" rest) with (String "," (t' +:+ String "}" rest)) in *.
  rewrite (member_read k v) by (auto; lia). cbn [Ascii.eqb Bool.eqb]. pose proof (doc_nodes_pos v).
  rewrite (Hl _ _ _ _ o); [by rewrite Z.add_assoc|done..|lia|lia|].
  rewrite !length_append in Hf. cbn [String.length] in Hf. rewrite !length_append in *. cbn [String.length] in *. lia.
Qed.

Lemma parser_complete :
  (forall v t, Spells v t -> value_complete v t) /\
  (forall l t, SpellsElements l t -> elements_complete l t) /\
  (forall ms t, SpellsMembers ms t -> members_complete ms t).
Proof.
  apply Spells_ind3; intros.
  all: try (apply scalar_complete; [by constructor|done]).
  - apply scalar_complete; [by constructor|]. destruct n as (? & ? & ? & ? & _ & _ & _ & _ & _ & Hv).
    apply number_value_kind in Hv. by destruct v.
  - by apply empty_list_complete.
  - by apply list_value_complete.
  - by apply empty_map_complete.
  - by apply object_value_complete with members.
  - by apply last_element_complete.
  - by apply more_elements_complete.
  - by apply last_member_complete.
  - by apply more_members_complete.
Qed.
End Complete.
