(* ===== verification/JsonCodec.v ===== *)
(** * The JSON codec: what is proved of json.cpp

    [ParseJson_exact]: the parser accepts exactly the documents of the grammar
    within the envelope and otherwise leaves its output alone.
    [ParseJson_writers]: both writers' output parses back to the value.
    [ParseJson_too_large]: a text whose value is outside the envelope is refused,
    since a text spells one value only.
    [Parse_terminates]: two units of fuel per character are enough.
    [FormatDoubleCanonical_reads_back]: doubles survive the text. *)

From Stdlib Require Import ZArith Lia List Bool Ascii String Sorting.Sorted Permutation.
From Stdlib Require Import Floats.SpecFloat.
From stdpp Require Import base tactics list strings sorting.
From S2P Require Import Prelude Containers Text Status Time Identity Double Decimal Value.
From S2P Require Import Json JsonGrammar JsonTokens JsonDouble JsonFacts JsonProps.
#[local] Open Scope string_scope.
#[local] Open Scope Z_scope.
#[local] Arguments String.append : simpl nomatch.

(** ** What the claims speak about *)

(** A complete document of the grammar within the envelope. *)
Definition Document (limits : RuntimeLimits) (text : string) (v : Value) : Prop :=
  ssize text <= max_document_bytes limits /\ document_fits limits v /\
  exists w1 t w2, text = w1 +:+ t +:+ w2 /\ whitespace w1 /\ Spells v t /\ whitespace w2.

(** A value the writers can spell: numbers of their C++ types, valid UTF-8 and
    maps in key order; a map whose only member is the byte-string tag is not a
    map for the parser. *)
Fixpoint writable (v : Value) : Prop :=
  match v with
  | V_Int z => is_i64 z
  | V_Uint z => INT64_MAX < z <= UINT64_MAX
  | V_Double d => valid_double d /\ is_finite d = true
  | V_String s => IsValidUtf8 s = true
  | V_Bytes b => Forall is_byte b
  | V_List l => foldr (fun x P => writable x /\ P) True l
  | V_Map m =>
      msorted m /\ object_value m = Some (V_Map m) /\
      foldr (fun e P => (IsValidUtf8 (fst e) = true /\ writable (snd e)) /\ P) True m
  | _ => True
  end.

(** ** The parser *)

Lemma Parse_settles limits text : settles (Parse limits text).
Proof.
  unfold Parse. destruct (_ =? "")%string; [settle|]. apply pbind_settles.
  - apply ParseValue_total. lia.
  - intros [v n] r _. by destruct (negb _).
Qed.

Lemma Parse_ok limits text v rest : Parse limits text = P_Ok v rest ->
  rest = "" /\ document_fits limits v /\
  exists w1 t w2, text = w1 +:+ t +:+ w2 /\ whitespace w1 /\ Spells v t /\ whitespace w2.
Proof.
  unfold Parse. split_space text w1 t0. destruct (String.eqb_spec t0 ""); [done|].
  intros ([v' n'] & r & (t & -> & Hs & [Hf Hd] & -> & Hn)%(proj1 (parser_sound limits _)) & H)%pbind_ok.
  rewrite Z.sub_0_r in Hd. split_space r w2 r'. destruct (String.eqb_spec r' "") as [->|]; [|done].
  injection H as <- <-. split; [done|]. split; [by repeat split|].
  exists w1, t, w2. by rewrite append_nil_r.
Qed.

Lemma Parse_document limits w1 t w2 v : whitespace w1 -> Spells v t -> whitespace w2 ->
  document_fits limits v -> Parse limits (w1 +:+ t +:+ w2) = P_Ok v "".
Proof.
  intros Hw1 Hs Hw2 (Hf & Hd & Hn). unfold Parse.
  rewrite SkipWhitespace_app by (done || by apply Spells_solid with v).
  assert (Hne : (t +:+ w2 =? "")%string = false).
  { apply String.eqb_neq. by destruct (Spells_head v t Hs) as (c & r & -> & _). }
  rewrite Hne. pose proof (proj1 (parser_complete limits) v t Hs) as Hc.
  rewrite Hc; [| | |exact Hn|done|lia].
  - cbn [pbind]. pose proof (SkipWhitespace_app w2 "" Hw2 eq_refl) as E. rewrite append_nil_r in E.
    by rewrite E.
  - rewrite <- (append_nil_r w2). by apply ends_number_space.
  - split; [exact Hf|by rewrite Z.sub_0_r].
Qed.

(** ** The writers *)

Lemma unsigned_whole n : is_u64 n -> whole_part (to_string_unsigned n).
Proof.
  intros Hn. destruct (to_string_shape n Hn) as (_ & Hne & Hall & _).
  destruct (Z.eq_dec n 0) as [->|H0]; [by left|]. right. split; [by apply all_digits_forallb|].
  destruct (dec_digits_first 20 n "") as (c & r & E & Hc).
  { unfold is_u64, UINT64_MAX in Hn. change (10 ^ Z.of_nat 20) with 100000000000000000000. lia. }
  exists c, r. split; [exact E|by apply Ascii.eqb_neq].
Qed.

Lemma integral_token (sign whole : string) v : sign_part sign -> whole_part whole ->
  number_value (sign +:+ whole) true = Some v -> Number v (sign +:+ whole).
Proof.
  intros Hs Hw Hv. exists sign, whole, "", "". cbn [String.append]. rewrite append_nil_r.
  split; [done|]. split; [done|]. split; [done|]. split; [by left|]. split; [by left|]. done.
Qed.

Lemma unsigned_number n : is_u64 n ->
  Number (if n <=? INT64_MAX then V_Int n else V_Uint n) (to_string_unsigned n).
Proof.
  intros Hn. apply (integral_token "" (to_string_unsigned n)); [by left|by apply unsigned_whole|].
  destruct (to_string_shape n Hn) as (Hl & Hne & Hall & _). cbn [String.append]. unfold number_value.
  replace (ssize _ <=? 20) with true by (symmetry; by apply Z.leb_le). cbn [andb].
  destruct (to_string_unsigned n) as [|c r] eqn:E; [done|].
  assert (Hc : is_digit c = true) by (cbn in Hall; by destruct (is_digit c)).
  rewrite next_is_None by (intros ->; discriminate Hc). unfold from_chars_uint64.
  rewrite <- E, (read_to_string n Hn), E.
  replace (n <=? UINT64_MAX) with true by (symmetry; apply Z.leb_le; apply Hn). done.
Qed.

Lemma signed_number z : is_i64 z -> Number (V_Int z) (to_string_signed z).
Proof.
  unfold is_i64, INT64_MIN, INT64_MAX, to_string_signed. intros Hz. destruct (Z.ltb_spec z 0).
  - assert (Hn : is_u64 (- z)) by (unfold is_u64, UINT64_MAX; lia).
    apply (integral_token "-" (to_string_unsigned (- z))); [by right|by apply unsigned_whole|].
    destruct (to_string_shape (- z) Hn) as (_ & Hne & _).
    assert (Hl : (String.length (to_string_unsigned (- z)) <= 19)%nat).
    { pose proof (Time.dec_digits_length 20 (- z) "" 18) as H19. cbn [String.length] in H19.
      rewrite Nat.add_0_r in H19. apply H19. change (10 ^ Z.of_nat 19) with 10000000000000000000. lia. }
    unfold number_value. replace (ssize ("-" +:+ to_string_unsigned (- z)) <=? 20) with true
      by (symmetry; apply Z.leb_le; rewrite ssize_app; change (ssize "-") with 1; unfold ssize; lia).
    cbn [andb]. change (next_is "-" ("-" +:+ to_string_unsigned (- z))) with (Some (to_string_unsigned (- z))).
    cbv beta iota. unfold from_chars_int64.
    change (take_minus ("-" +:+ to_string_unsigned (- z))) with (true, to_string_unsigned (- z)).
    cbv beta iota. rewrite (read_to_string (- z) Hn). cbv zeta. rewrite Z.opp_involutive.
    replace (INT64_MIN <=? z) with true by (symmetry; apply Z.leb_le; unfold INT64_MIN; lia).
    replace (z <=? INT64_MAX) with true by (symmetry; apply Z.leb_le; unfold INT64_MAX; lia).
    destruct (String.eqb_spec (to_string_unsigned (- z)) ""); done.
  - pose proof (unsigned_number z ltac:(unfold is_u64, UINT64_MAX; lia)) as H'.
    by replace (z <=? INT64_MAX) with true in H' by (symmetry; apply Z.leb_le; unfold INT64_MAX; lia).
Qed.

(** Members in key order are a map. *)
Lemma absorb_sorted ms m : msorted (m ++ ms)%list -> absorb m ms = (m ++ ms)%list.
Proof. apply emplace_all_sorted. Qed.

Lemma msorted_NoDup {V} (m : omap string V) : msorted m -> NoDup (map fst m).
Proof.
  unfold msorted, mkeys. induction 1 as [|k l _ IH Hk]; constructor; [|done].
  intros Hin. rewrite Forall_forall in Hk. by apply (key_lt_irrefl k), Hk.
Qed.

Section Separated.
Variables (pre post : string).
Hypothesis Hpre : whitespace pre.
Hypothesis Hpost : whitespace post.

Lemma elements_spelled (f : Value -> string) l : l <> [] -> Forall (fun x => Spells x (f x)) l ->
  SpellsElements l (comma_separated (map (fun x => pre +:+ f x) l) +:+ post).
Proof.
  intros Hne Hl. induction Hl as [|x l Hx Hl IH]; [done|]. destruct l as [|y l].
  - cbn. rewrite append_assoc. by constructor.
  - cbn [map comma_separated] in IH |- *. rewrite !append_assoc.
    pose proof (Elements_more x (y :: l) pre (f x) "" _ Hpre Hx eq_refl (IH ltac:(done))) as H.
    rewrite !append_assoc in H. exact H.
Qed.

Lemma members_spelled w3 (f : Value -> string) m : whitespace w3 -> m <> [] ->
  Forall (fun e : string * Value => IsValidUtf8 e.1 = true /\ Spells e.2 (f e.2)) m ->
  SpellsMembers m (comma_separated
    (map (fun e => pre +:+ AppendEscaped (fst e) +:+ ":" +:+ w3 +:+ f (snd e)) m) +:+ post).
Proof.
  intros Hw3 Hne Hm. induction Hm as [|[k x] m [Hk Hx] Hm IH]; [done|]. cbn [fst snd] in Hk, Hx.
  apply AppendEscaped_literal in Hk. destruct m as [|y m].
  - cbn [map comma_separated fst snd]. rewrite !append_assoc.
    exact (Members_last k x pre (AppendEscaped k) "" w3 (f x) post Hpre Hk eq_refl Hw3 Hx Hpost).
  - cbn [map comma_separated fst snd] in IH |- *. rewrite !append_assoc.
    pose proof (Members_more k x (y :: m) pre (AppendEscaped k) "" w3 (f x) "" _
      Hpre Hk eq_refl Hw3 Hx eq_refl (IH ltac:(done))) as H.
    rewrite !append_assoc in H. exact H.
Qed.
End Separated.

Lemma hex_utf8 b : Forall is_byte b -> IsValidUtf8 (ToHex b) = true /\ escape_text (ToHex b) = ToHex b.
Proof.
  assert (Hd : forall n, 0 <= n < 16 -> byte_of (hex_digit n) < 0x80 /\
    escape_char (hex_digit n) = char_string (hex_digit n)).
  { intros n Hn. assert (Hin : n ∈ seqZ 0 16) by (apply elem_of_seqZ; lia). clear Hn. revert n Hin.
    apply Forall_forall. by repeat constructor. }
  intros Hb. unfold IsValidUtf8. induction Hb as [|x b Hx _ [IH1 IH2]]; [done|].
  destruct (nibbles x Hx) as (Hh & Hl & _). destruct (Hd _ Hh) as [Hh1 Hh2], (Hd _ Hl) as [Hl1 Hl2].
  cbn [ToHex String.length string_bytes list_ascii_of_string map utf8_loop escape_text].
  rewrite Hh2, Hl2, IH2. split; [|done].
  change (string_bytes (String ?a (String ?b ?t))) with (byte_of a :: byte_of b :: string_bytes t).
  cbv beta iota. apply Z.ltb_lt in Hh1, Hl1. rewrite Hh1, Hl1. exact IH1.
Qed.

Lemma bytes_spelled b : Forall is_byte b -> Spells (V_Bytes b) (WriteCompact (V_Bytes b)).
Proof.
  intros Hb. destruct (hex_utf8 b Hb) as [Hu He].
  pose proof (members_spelled "" "" eq_refl eq_refl "" WriteCompact [(kBytesMember, V_String (ToHex b))] eq_refl) as H.
  assert (E : WriteCompact (V_Bytes b) = "{" +:+ (comma_separated (map (fun e : string * Value => "" +:+ AppendEscaped (fst e) +:+
      ":" +:+ "" +:+ WriteCompact (snd e)) [(kBytesMember, V_String (ToHex b))]) +:+ "") +:+ "}").
  { cbn [map comma_separated fst snd WriteCompact]. unfold AppendEscaped. rewrite He, append_nil_r.
    change (escape_text kBytesMember) with kBytesMember. generalize (ToHex b). intros h.
    cbn [String.append]. rewrite !append_assoc. cbn [String.append]. by rewrite !append_assoc. }
  specialize (H ltac:(done)). specialize (H ltac:(constructor; [split; [done|]; by constructor;
    apply AppendEscaped_literal|constructor])).
  rewrite E. apply (Spells_object _ _ _ H).
  - apply NoDup_singleton.
  - change (map_of [(kBytesMember, V_String (ToHex b))]) with [(kBytesMember, V_String (ToHex b))].
    unfold object_value. change (vsize _ =? 1) with true. cbv beta iota.
    change (mfind kBytesMember _) with (Some (V_String (ToHex b))). cbv beta iota. by rewrite FromHex_ToHex.
Qed.

(** What both writers have in common. *)
Section Writers.
Variables (pre post colon : string) (f : Value -> string).
Hypothesis Hpre : whitespace pre.
Hypothesis Hpost : whitespace post.
Hypothesis Hcolon : whitespace colon.

Lemma list_spelled l : l <> [] -> Forall (fun x => Spells x (f x)) l ->
  Spells (V_List l) ("[" +:+ comma_separated (map (fun x => pre +:+ f x) l) +:+ post +:+ "]").
Proof.
  intros Hne Hl. rewrite <- (append_assoc (comma_separated _)). apply Spells_list. by apply elements_spelled.
Qed.

Lemma map_spelled m : m <> [] -> msorted m -> object_value m = Some (V_Map m) ->
  Forall (fun e : string * Value => IsValidUtf8 e.1 = true /\ Spells e.2 (f e.2)) m ->
  Spells (V_Map m) ("{" +:+ comma_separated
    (map (fun e => pre +:+ AppendEscaped (fst e) +:+ ":" +:+ colon +:+ f (snd e)) m) +:+ post +:+ "}").
Proof.
  intros Hne Hs Ho Hm. rewrite <- (append_assoc (comma_separated _)). apply (Spells_object m).
  - by apply members_spelled.
  - by apply msorted_NoDup.
  - change (map_of m) with (absorb [] m). by rewrite absorb_sorted.
Qed.
End Writers.

(** Induction over the value tree. *)
Lemma Value_tree_ind (P : Value -> Prop) :
  (forall v, is_scalar v = true -> P v) ->
  (forall l, Forall P l -> P (V_List l)) ->
  (forall m, Forall (fun e : string * Value => P e.2) m -> P (V_Map m)) -> forall v, P v.
Proof.
  intros Hs Hl Hm. fix IH 1. intros v. destruct v as [| | | | | | |l|m]; try (apply Hs; reflexivity).
  - apply Hl. induction l as [|x l IHl]; constructor; [apply IH|exact IHl].
  - apply Hm. induction m as [|[k x] m IHm]; constructor; [apply IH|exact IHm].
Qed.

Lemma Forall_modus {A} (P Q : A -> Prop) l : Forall (fun x => P x -> Q x) l -> Forall P l -> Forall Q l.
Proof. intros H H'. induction H; constructor; inversion H'; auto. Qed.

(** A writable value is spelled by a writer that spells the parts of it. *)
Lemma writable_list l : writable (V_List l) -> Forall writable l.
Proof. cbn [writable]. by rewrite foldr_and_Forall. Qed.

Lemma writable_map m : writable (V_Map m) -> msorted m /\ object_value m = Some (V_Map m) /\
  Forall (fun e => IsValidUtf8 e.1 = true /\ writable e.2) m.
Proof. cbn [writable]. by rewrite (foldr_and_Forall (fun e => IsValidUtf8 e.1 = true /\ writable e.2)). Qed.

Lemma scalar_spelled v : is_scalar v = true -> writable v -> Spells v (WriteCompact v).
Proof.
  destruct v as [|b|z|z|d|s|b|l|m]; intros Hk Hw; try discriminate Hk.
  - constructor.
  - destruct b; constructor.
  - by apply Spells_number, signed_number.
  - apply Spells_number. cbn [writable] in Hw. pose proof (unsigned_number z) as H.
    replace (z <=? INT64_MAX) with false in H by (symmetry; apply Z.leb_gt; lia).
    apply H. unfold is_u64, UINT64_MAX, INT64_MAX in *. lia.
  - destruct Hw. by apply Spells_number, FormatDoubleCanonical_number.
  - by apply Spells_string, AppendEscaped_literal.
  - by apply bytes_spelled.
Qed.

Lemma members_modus (P : Value -> Prop) m :
  Forall (fun e : string * Value => writable e.2 -> P e.2) m ->
  Forall (fun e => IsValidUtf8 e.1 = true /\ writable e.2) m ->
  Forall (fun e => IsValidUtf8 e.1 = true /\ P e.2) m.
Proof. intros H. apply Forall_modus. eapply Forall_impl; [exact H|]. naive_solver. Qed.

Lemma WriteCompact_spells v : writable v -> Spells v (WriteCompact v).
Proof.
  induction v as [v Hv|l IH|m IH] using Value_tree_ind; intros Hw; [by apply scalar_spelled| |].
  - apply writable_list in Hw. pose proof (Forall_modus _ _ _ IH Hw) as Hl.
    destruct l as [|x l]; [by apply (Spells_no_elements "")|].
    apply (list_spelled "" "" WriteCompact eq_refl eq_refl (x :: l)); done.
  - apply writable_map in Hw as (Hs & Ho & Hw). pose proof (members_modus (fun x => Spells x (WriteCompact x)) _ IH Hw) as Hm.
    destruct m as [|e m]; [by apply (Spells_no_members "")|].
    apply (map_spelled "" "" "" WriteCompact eq_refl eq_refl eq_refl (e :: m)); done.
Qed.

Lemma indent_space width depth : whitespace (WriteIndent width depth).
Proof.
  unfold WriteIndent. destruct (width =? 0); [done|]. unfold whitespace. cbn.
  induction (Z.to_nat (width * depth)) as [|n IHn]; [done|exact IHn].
Qed.

Lemma WritePretty_spells width v : forall depth, writable v -> Spells v (WritePretty width depth v).
Proof.
  induction v as [v Hv|l IH|m IH] using Value_tree_ind; intros depth Hw.
  - destruct v; try discriminate Hv; by apply scalar_spelled.
  - apply writable_list in Hw.
    assert (Hl : Forall (fun x => Spells x (WritePretty width (depth + 1) x)) l)
      by (eapply Forall_modus; [|exact Hw]; eapply Forall_impl; [exact IH|auto]).
    destruct l as [|x l]; [by apply (Spells_no_elements "")|].
    apply (list_spelled (WriteIndent width (depth + 1)) (WriteIndent width depth)
      (WritePretty width (depth + 1)) (indent_space _ _) (indent_space _ _) (x :: l)); done.
  - apply writable_map in Hw as (Hs & Ho & Hw).
    assert (Hm : Forall (fun e : string * Value => IsValidUtf8 e.1 = true /\
      Spells e.2 (WritePretty width (depth + 1) e.2)) m)
      by (apply (members_modus (fun x => Spells x (WritePretty width (depth + 1) x))); [|exact Hw];
          eapply Forall_impl; [exact IH|auto]).
    destruct m as [|e m]; [by apply (Spells_no_members "")|].
    apply (map_spelled (WriteIndent width (depth + 1)) (WriteIndent width depth) " "
      (WritePretty width (depth + 1)) (indent_space _ _) (indent_space _ _) eq_refl (e :: m)); done.
Qed.

Lemma ParseJson_spelled limits t v out : Spells v t -> document_fits limits v ->
  ssize t <= max_document_bytes limits -> ParseJson t limits out = (Status_Ok, v).
Proof.
  intros Hs Hfit Hsz. unfold ParseJson.
  replace (max_document_bytes limits <? _) with false by (symmetry; by apply Z.ltb_ge).
  pose proof (Parse_document limits "" t "" v eq_refl Hs eq_refl Hfit) as E.
  cbn [String.append] in E. rewrite append_nil_r in E. by rewrite E.
Qed.

Lemma ParseJson_canonical limits v out : writable v -> document_fits limits v ->
  ssize (WriteCanonicalJson v) <= max_document_bytes limits ->
  ParseJson (WriteCanonicalJson v) limits out = (Status_Ok, v).
Proof. intros Hw. by apply ParseJson_spelled, WriteCompact_spells. Qed.

(** ** What is refused *)

(** Limits of [n] for everything a document is measured by. *)
Definition generous (n : Z) : RuntimeLimits :=
  default_limits <| max_leaf_bytes := n |> <| max_fields_per_object := n |> <| max_value_depth := n |>
    <| max_value_nodes := n |>.

Lemma eventually_Forall {A} (P : A -> Z -> Prop) l : Forall (fun x => exists n, forall k, n <= k -> P x k) l ->
  exists n, forall k, n <= k -> Forall (fun x => P x k) l.
Proof.
  induction 1 as [|x l [n Hx] _ [m Hl]]; [by exists 0|].
  exists (Z.max n m). intros k Hk. constructor; [apply Hx|apply Hl]; lia.
Qed.

(** Every value fits limits that are wide enough. *)
Lemma eventually_fits v : exists n, forall k, n <= k -> fits (generous k) v /\ depth_within v (k - 1).
Proof.
  induction v as [v Hv|l IH|m IH] using Value_tree_ind.
  - exists (2 + ssize kBytesMember + match v with V_String s => ssize s | V_Bytes b => 2 * vsize b | _ => 0 end).
    intros k Hk. assert (Hz : forall s, 0 <= ssize s) by (intros; unfold ssize; lia). pose proof (Hz kBytesMember).
    destruct v as [| | | | |s|b|l|m]; cbn [fits depth_within generous] in *; try done; cbn; try (split_and!; lia).
    + pose proof (Hz s). split_and!; lia.
    + assert (0 <= vsize b) by (unfold vsize; lia). split_and!; lia.
  - apply eventually_Forall in IH as [n Hn]. exists (Z.max 1 (n + 1)). intros k Hk. cbn [fits depth_within].
    rewrite !foldr_and_Forall.
    assert (H : forall j, n <= j -> Forall (fun x => fits (generous j) x /\ depth_within x (j - 1)) l) by auto.
    split; [|split; [lia|]].
    + eapply Forall_impl; [apply (H k); lia|]. by intros x [].
    + eapply Forall_impl; [apply (H (k - 1)); lia|]. by intros x [].
  - assert (Hk : Forall (fun e : string * Value => exists n, forall k, n <= k -> ssize e.1 <= k) m)
      by (apply Forall_forall; intros e _; by exists (ssize e.1)).
    apply eventually_Forall in IH as [n Hn], Hk as [n' Hk]. exists (Z.max (vsize m) (Z.max n' (Z.max 1 (n + 1)))).
    intros k Hle. cbn [fits depth_within].
    rewrite (foldr_and_Forall (fun e => ssize e.1 <= max_leaf_bytes (generous k) /\ fits (generous k) e.2)), foldr_and_Forall.
    split; [split; [change (max_fields_per_object (generous k)) with k; lia|]|split; [lia|]].
    + assert (H1 : n' <= k) by lia. assert (H2 : n <= k) by lia. specialize (Hk k H1). specialize (Hn k H2).
      rewrite Forall_forall in *. intros x Hx. split; [by apply Hk|by apply Hn].
    + eapply Forall_impl; [apply (Hn (k - 1)); lia|]. by intros x [].
Qed.

Lemma eventually_document_fits v : exists n, forall k, n <= k -> document_fits (generous k) v.
Proof.
  destruct (eventually_fits v) as [n Hn]. exists (Z.max n (doc_nodes v)). intros k Hk.
  destruct (Hn k ltac:(lia)) as [Hf _]. destruct (Hn (k + 1) ltac:(lia)) as [_ Hd].
  split; [exact Hf|]. split; [|cbn; lia]. cbn. by rewrite Z.add_simpl_r in Hd.
Qed.

(** A text spells one value: what is read from a spelling is the value spelled,
    and it fits. *)
Lemma ParseJson_of_spelled limits t v v' out : Spells v t -> ParseJson t limits out = (Status_Ok, v') ->
  v' = v /\ document_fits limits v /\ ssize t <= max_document_bytes limits.
Proof.
  intros Hs Hp. unfold ParseJson in Hp. destruct (Z.ltb_spec (max_document_bytes limits) (ssize t)); [done|].
  pose proof (Parse_settles limits t) as Hset.
  destruct (Parse limits t) as [v0 rest|status|] eqn:E; cbn in Hset; [|injection Hp as -> _; done|done].
  injection Hp as <-. apply Parse_ok in E as (_ & Hfit & w1 & t' & w2 & Et & Hw1 & Hs' & Hw2).
  destruct (eventually_document_fits v) as [n Hn], (eventually_document_fits v0) as [n0 Hn0].
  pose proof (Parse_document (generous (Z.max n n0)) "" t "" v eq_refl Hs eq_refl
    (Hn (Z.max n n0) ltac:(lia))) as E1.
  pose proof (Parse_document (generous (Z.max n n0)) w1 t' w2 v0 Hw1 Hs' Hw2
    (Hn0 (Z.max n n0) ltac:(lia))) as E2.
  cbn [String.append] in E1. rewrite append_nil_r, Et, E2 in E1. injection E1 as ->. done.
Qed.

(** A spelling whose value does not fit is refused. *)
Lemma ParseJson_too_large limits t v out : Spells v t ->
  ~ (document_fits limits v /\ ssize t <= max_document_bytes limits) ->
  exists status, ParseJson t limits out = (status, out) /\ status_ok status = false.
Proof.
  intros Hs Hn. destruct (ParseJson t limits out) as [status v'] eqn:E. pose proof E as E'. unfold ParseJson in E.
  pose proof (Parse_settles limits t) as Hset.
  destruct (_ <? _); [injection E as <- <-; by eauto|].
  destruct (Parse limits t) as [v0 rest|why|]; cbn in Hset; [|injection E as <- <-; by eauto|done].
  injection E as <- <-. exfalso. by destruct (ParseJson_of_spelled _ _ _ _ _ Hs E') as (_ & ? & ?); apply Hn.
Qed.

(** ** The claims *)

(** C27. [ParseJson] accepts exactly the documents of the grammar within the
    envelope: it succeeds with [v] if and only if the text, white space around
    it apart, spells [v], and the size of the text, the nesting, the number of
    nodes, the leaves, the keys and the members of every object stay within the
    limits.  Every other text is refused with an error and the output is left
    as it was. *)
Theorem ParseJson_exact (limits : RuntimeLimits) (text : string) (out : Value) :
  (forall v, ParseJson text limits out = (Status_Ok, v) <-> Document limits text v) /\
  (~ (exists v, Document limits text v) ->
   exists status, ParseJson text limits out = (status, out) /\ status_ok status = false).
Proof.
  assert (Hdoc : forall v, Document limits text v -> ParseJson text limits out = (Status_Ok, v)).
  { intros v (Hsz & Hfit & w1 & t & w2 & -> & Hw1 & Hs & Hw2). unfold ParseJson.
    replace (max_document_bytes limits <? _) with false by (symmetry; by apply Z.ltb_ge).
    by rewrite (Parse_document limits w1 t w2 v). }
  assert (Hno : forall status, status_ok status = false -> status <> Status_Ok) by (by intros s Hs ->).
  unfold ParseJson in *. pose proof (Parse_settles limits text) as Hset.
  destruct (Z.ltb_spec (max_document_bytes limits) (ssize text)) as [Hbig|Hsz].
  { split; [|eauto]. intros v. split; [done|]. intros [? _]. lia. }
  destruct (Parse limits text) as [v0 rest|status|] eqn:E; cbn in Hset; [| |contradiction].
  - apply Parse_ok in E as (_ & Hfit & Hw). assert (Hd : Document limits text v0) by done.
    split; [|intros Hn; exfalso; eauto]. intros v. split; [by intros [= <-]|apply Hdoc].
  - split; [|by eauto]. intros v. split; [|apply Hdoc]. intros [= Es _]. by apply Hno in Hset.
Qed.

(** C29. What the writers produce parses back to exactly the same value: the
    canonical text and the pretty text of any indentation, for every value of
    valid UTF-8 strings, finite doubles and in-range integers that fits the
    limits and holds no map that looks like the byte-string tag. *)
Theorem ParseJson_writers (limits : RuntimeLimits) (v out : Value) (width : Z)
    (Hw : writable v) (Hfit : document_fits limits v) :
  (ssize (WriteCanonicalJson v) <= max_document_bytes limits ->
   ParseJson (WriteCanonicalJson v) limits out = (Status_Ok, v)) /\
  (ssize (WritePrettyJson v width) <= max_document_bytes limits ->
   ParseJson (WritePrettyJson v width) limits out = (Status_Ok, v)).
Proof.
  split; (apply ParseJson_spelled; [|done]); [by apply WriteCompact_spells|by apply WritePretty_spells].
Qed.

(** C30. Two units of fuel per character of the text are enough for the parser:
    on every text it stops with a value or with a refusal that carries an
    error, never because the fuel ran out. *)
Theorem Parse_terminates (limits : RuntimeLimits) (text : string) :
  (exists v, Parse limits text = P_Ok v "") \/
  (exists status, Parse limits text = P_Fail status /\ status_ok status = false).
Proof.
  pose proof (Parse_settles limits text) as H. destruct (Parse limits text) as [v rest|status|] eqn:E.
  - left. exists v. apply Parse_ok in E as [-> _]. done.
  - right. by exists status.
  - contradiction H.
Qed.

(** The canonical text of a finite double is a JSON number with a fraction
    or an exponent, and [std::from_chars] rounds it back to the same double:
    doubles survive a round trip through JSON text bit for bit. *)
Theorem FormatDoubleCanonical_reads_back (f : Double) (Hv : valid_double f) (Hf : is_finite f = true) :
  Number (V_Double f) (FormatDoubleCanonical f) /\
  number_value (FormatDoubleCanonical f) false = Some (V_Double f).
Proof.
  pose proof (FormatDoubleCanonical_number f Hv Hf) as H. split; [exact H|].
  destruct H as (s & w & fr & x & E & _ & _ & _ & _ & Hn).
  unfold number_value in *. cbn [andb]. destruct ((fr =? "") && (x =? ""))%string; [|exact Hn].
  revert Hn. set (integer := if (_ && _)%bool then _ else None).
  destruct integer as [i|] eqn:Ei; [|done]. intros [= ->]. exfalso. revert Ei. unfold integer.
  destruct (_ && _)%bool; [|discriminate]. destruct (next_is _ _).
  - by destruct (from_chars_int64 _).
  - destruct (from_chars_uint64 _); cbn [option_map]; [|discriminate]. by destruct (_ <=? _).
Qed.

(** ** Witnesses *)

Definition example_value : Value :=
  V_Map [("list", V_List [V_Null; V_Bool true; V_Int (-7); V_Uint UINT64_MAX]);
         ("name", V_String "eth0");
         ("rate", V_Double (S754_finite false 5404319552844595 (-55)));
         ("raw", V_Bytes [0; 255])].

Example example_text :
  WriteCanonicalJson example_value =
  string_of_list_ascii (map (fun c => if Ascii.eqb c "'" then quote_char else c) (list_ascii_of_string
    "{'list':[null,true,-7,18446744073709551615],'name':'eth0','rate':0.15,'raw':{'$bytes':'00ff'}}")).
Proof. vm_compute. reflexivity. Qed.

Lemma ParseJson_writers_witness :
  ParseJson (WriteCanonicalJson example_value) default_limits V_Null = (Status_Ok, example_value) /\
  ParseJson (WritePrettyJson example_value 2) default_limits V_Null = (Status_Ok, example_value).
Proof.
  assert (Hw : writable example_value).
  { cbn. unfold valid_double, is_i64, is_byte. repeat split; try lia; try (vm_compute; reflexivity);
      repeat constructor; try lia; vm_compute; try reflexivity; try discriminate. }
  assert (Hf : document_fits default_limits example_value)
    by (vm_compute; repeat split; discriminate).
  assert (H1 : ssize (WriteCanonicalJson example_value) <= max_document_bytes default_limits)
    by (vm_compute; discriminate).
  assert (H2 : ssize (WritePrettyJson example_value 2) <= max_document_bytes default_limits)
    by (vm_compute; discriminate).
  destruct (ParseJson_writers default_limits example_value V_Null 2 Hw Hf) as [H3 H4].
  split; [exact (H3 H1)|exact (H4 H2)].
Defined.

Lemma FormatDoubleCanonical_reads_back_witness :
  FormatDoubleCanonical (S754_finite false 1 (-1074)) = "5e-324" /\
  number_value "5e-324" false = Some (V_Double (S754_finite false 1 (-1074))).
Proof.
  assert (E : FormatDoubleCanonical (S754_finite false 1 (-1074)) = "5e-324") by (vm_compute; reflexivity).
  split; [exact E|]. rewrite <- E.
  apply (FormatDoubleCanonical_reads_back (S754_finite false 1 (-1074)) eq_refl eq_refl).
Defined.

(** A map whose only member is named like the byte-string tag is written as an
    ordinary object; the parser turns it into bytes or refuses it. *)
Example tag_is_not_a_map :
  ParseJson (WriteCanonicalJson (V_Map [("$bytes", V_String "00")])) default_limits V_Null =
    (Status_Ok, V_Bytes [0]) /\
  status_ok (fst (ParseJson (WriteCanonicalJson (V_Map [("$bytes", V_Int 1)])) default_limits V_Null)) = false.
Proof. split; vm_compute; reflexivity. Qed.
