(* ===== verification/JsonHelp.v ===== *)
(** * Reading documents

    json_help.hpp: the helpers every document codec shares.  A function that
    fills an output parameter and returns a status is a [Decoded] value: the
    status that refuses, or the value read; an early return on a status that is
    not Ok is the bind of this error monad. *)

From Stdlib Require Import ZArith Lia List Bool Ascii String.
From stdpp Require Import base tactics list strings.
From S2P Require Import Prelude Containers Text Status Hash Identity Double Value.
From S2P Require Import Json JsonGrammar JsonTokens JsonCodec.
#[local] Open Scope string_scope.
#[local] Open Scope Z_scope.
#[local] Arguments String.append : simpl nomatch.

(** ** The error monad *)

Definition Decoded (A : Type) : Type := (Status + A)%type.

Definition dbind {A B} (d : Decoded A) (k : A -> Decoded B) : Decoded B :=
  match d with inl status => inl status | inr x => k x end.

(** [if (!status.ok()) return status;], then the rest. *)
Definition checked {A} (status : Status) (rest : Decoded A) : Decoded A :=
  if status_ok status then rest else inl status.

Notation "'let?' x := d 'in' k" := (dbind d (fun x => k))
  (at level 200, x pattern, d at level 100, k at level 200) : ndo_scope.
Notation "'check' s 'then' k" := (checked s k) (at level 200, s at level 100, k at level 200) : ndo_scope.

(** [for (x : l) { ... out.push_back(f(x)) ... }], stopping at the first refusal. *)
Fixpoint dmap {A B} (f : A -> Decoded B) (l : list A) : Decoded (list B) :=
  match l with
  | [] => inr []
  | x :: rest => let? y := f x in let? ys := dmap f rest in inr (y :: ys)
  end.

(** ** Access to a value *)

Definition VMap : Type := list (string * Value).

Definition as_bool (value : Value) : option bool := match value with V_Bool b => Some b | _ => None end.
Definition as_int (value : Value) : option Z := match value with V_Int v => Some v | _ => None end.
Definition as_uint (value : Value) : option Z := match value with V_Uint v => Some v | _ => None end.
Definition as_double (value : Value) : option Double := match value with V_Double v => Some v | _ => None end.
Definition as_string (value : Value) : option string := match value with V_String s => Some s | _ => None end.
Definition as_list (value : Value) : option (list Value) := match value with V_List l => Some l | _ => None end.
Definition as_map (value : Value) : option VMap := match value with V_Map m => Some m | _ => None end.

(** ** Members *)

Definition MemberError (what member detail : string) : Status :=
  Status_Rejected RC_EncodingMalformed (what +:+ ": " +:+ member +:+ ": " +:+ detail).

(** The first member that the format does not declare is refused. *)
Fixpoint CheckMembers (m : VMap) (allowed : list string) (what : string) : Status :=
  match m with
  | [] => Status_Ok
  | (name, _) :: rest =>
      if existsb (eqb name) allowed then CheckMembers rest allowed what
      else MemberError what name "unknown member"
  end.

Definition FindMember (m : VMap) (name : string) : option Value := mfind name m.

Definition Require {A} (access : Value -> option A) (complaint : string) (m : VMap) (name what : string)
    : Decoded A :=
  match FindMember m name with
  | None => inl (MemberError what name "missing required member")
  | Some member =>
      match access member with
      | Some x => inr x
      | None => inl (MemberError what name complaint)
      end
  end.

(** A non-negative integer, however it is stored. *)
Definition as_unsigned (value : Value) : option Z :=
  match value with
  | V_Uint v => Some v
  | V_Int v => if 0 <=? v then Some v else None
  | _ => None
  end.

(** An integer of the signed range, however it is stored. *)
Definition as_signed (value : Value) : option Z :=
  match value with
  | V_Int v => Some v
  | V_Uint v => if v <=? INT64_MAX then Some v else None
  | _ => None
  end.

Definition RequireString : VMap -> string -> string -> Decoded string := Require as_string "must be a string".
Definition RequireBool : VMap -> string -> string -> Decoded bool := Require as_bool "must be a boolean".
Definition RequireUint : VMap -> string -> string -> Decoded Z :=
  Require as_unsigned "must be a non-negative integer".
Definition RequireList : VMap -> string -> string -> Decoded (list Value) :=
  Require as_list "must be a sequence".
Definition RequireMap : VMap -> string -> string -> Decoded VMap := Require as_map "must be an object".

Definition RequireObject (value : Value) (what : string) : Decoded VMap :=
  match as_map value with
  | Some m => inr m
  | None => inl (Status_Rejected RC_EncodingMalformed (what +:+ ": top-level value must be an object"))
  end.

(** [Optional...]: a member of another kind counts as missing. *)
Definition Optional {A} (access : Value -> option A) (m : VMap) (name : string) : option A :=
  match FindMember m name with Some member => access member | None => None end.

Definition OptionalString : VMap -> string -> option string := Optional as_string.
Definition OptionalBool : VMap -> string -> option bool := Optional as_bool.
Definition OptionalUint : VMap -> string -> option Z := Optional as_unsigned.
Definition OptionalInt : VMap -> string -> option Z := Optional as_signed.

(** [ReadOptional...]: a member of another kind is refused. *)
Definition ReadOptional {A} (access : Value -> option A) (complaint : string) (m : VMap)
    (name what : string) : Decoded (option A) :=
  match FindMember m name with
  | None => inr None
  | Some member =>
      match access member with
      | Some x => inr (Some x)
      | None => inl (MemberError what name complaint)
      end
  end.

Definition ReadOptionalUint : VMap -> string -> string -> Decoded (option Z) :=
  ReadOptional as_unsigned "must be a non-negative integer".
Definition ReadOptionalInt : VMap -> string -> string -> Decoded (option Z) :=
  ReadOptional as_signed "must be an integer".
Definition ReadOptionalBool : VMap -> string -> string -> Decoded (option bool) :=
  ReadOptional as_bool "must be a boolean".
Definition ReadOptionalString : VMap -> string -> string -> Decoded (option string) :=
  ReadOptional as_string "must be a string".

(** [std::string::c_str()] read as a C string: up to the first NUL. *)
Fixpoint c_str (text : string) : string :=
  match text with
  | "" => ""
  | String c rest => if Ascii.eqb c "000" then "" else String c (c_str rest)
  end.

(** [Id::TryParse] of the text of a member. *)
Definition identity_of (text what name : string) : Decoded string :=
  if IsValidIdentityText text then inr text else inl (MemberError what name "is not a valid identity").

Definition required_identity (m : VMap) (name what : string) : Decoded string :=
  let? text := RequireString m name what in identity_of text what name.

(** An optional member that names an enumerator; its text ends at its first NUL. *)
Definition optional_enum {T} (parse : string -> option T) (missing : T) (m : VMap) (name what : string)
    : Decoded T :=
  match OptionalString m name with
  | None => inr missing
  | Some text =>
      match parse (c_str text) with
      | Some x => inr x
      | None => inl (MemberError what name "is not recognized")
      end
  end.

(** A member of any kind that must be present. *)
Definition required_member (m : VMap) (name what : string) : Decoded Value :=
  match FindMember m name with
  | Some value => inr value
  | None => inl (MemberError what name "missing required member")
  end.

(** [for (entry : list) { ... map.emplace(key, value); }], stopping at the first refusal. *)
Definition decode_entries {K V} `{Ordered K} (f : Value -> Decoded (K * V)) (l : list Value)
    : Decoded (omap K V) :=
  let? entries := dmap f l in inr (emplace_all [] entries).

(** ** Writing documents *)

(** [map.emplace(k, v)] for the members in turn. *)
Definition make_map (members : list (string * Value)) : VMap := emplace_all [] members.

(** ** Kinds of members *)

Inductive MemberKind : Set := MK_Any | MK_Integer | MK_Number | MK_Boolean | MK_Text | MK_Sequence | MK_Object.

Definition MemberHasKind (value : Value) (k : MemberKind) : bool :=
  match k, value with
  | MK_Any, _ => true
  | MK_Integer, (V_Int _ | V_Uint _) => true
  | MK_Number, (V_Int _ | V_Uint _ | V_Double _) => true
  | MK_Boolean, V_Bool _ => true
  | MK_Text, V_String _ => true
  | MK_Sequence, V_List _ => true
  | MK_Object, V_Map _ => true
  | _, _ => false
  end.

Fixpoint CheckMemberKinds (m : VMap) (expectations : list (string * MemberKind)) (what : string) : Status :=
  match expectations with
  | [] => Status_Ok
  | (name, k) :: rest =>
      match FindMember m name with
      | Some member =>
          if MemberHasKind member k then CheckMemberKinds m rest what
          else MemberError what name "has the wrong kind"
      | None => CheckMemberKinds m rest what
      end
  end.

(** ** Facts *)

Lemma dbind_ok {A B} (d : Decoded A) (k : A -> Decoded B) y :
  dbind d k = inr y -> exists x, d = inr x /\ k x = inr y.
Proof. destruct d as [status|x]; [done|]. cbn. eauto. Qed.

Lemma checked_ok {A} status (rest : Decoded A) y : checked status rest = inr y ->
  status_ok status = true /\ rest = inr y.
Proof. unfold checked. by destruct (status_ok status). Qed.

Lemma dmap_ok {A B} (f : A -> Decoded B) l ys : dmap f l = inr ys <-> Forall2 (fun x y => f x = inr y) l ys.
Proof.
  revert ys. induction l as [|x l IH]; intros ys; cbn [dmap].
  - split; [by intros [= <-]|by inversion 1].
  - split.
    + intros (y & Hy & (ys' & Hys & [= <-])%dbind_ok)%dbind_ok. constructor; [done|by apply IH].
    + inversion 1 as [|? y ? ys' Hy Hys]; subst. rewrite Hy. cbn. apply IH in Hys. by rewrite Hys.
Qed.

(** Nothing undeclared passes. *)
Lemma CheckMembers_ok m allowed what :
  status_ok (CheckMembers m allowed what) = true <-> Forall (fun name => name ∈ allowed) (mkeys m).
Proof.
  induction m as [|[name v] m IH]; [split; [constructor|done]|]. cbn [CheckMembers mkeys map fst].
  rewrite Forall_cons. destruct (existsb (eqb name) allowed) eqn:E.
  - rewrite IH. apply existsb_exists in E as (x & Hx & Heq%eqb_eq). subst x. rewrite <- list_elem_of_In in Hx.
    unfold mkeys. tauto.
  - split; [done|]. intros [Hin _]. apply not_true_iff_false in E. destruct E.
    apply existsb_exists. exists name. split; [by apply list_elem_of_In|by apply eqb_eq].
Qed.

Lemma as_unsigned_MakeUint v : 0 <= v -> as_unsigned (MakeUint v) = Some v.
Proof.
  intros Hv. unfold MakeUint. destruct (v <=? INT64_MAX); [|done]. cbn.
  by rewrite (proj2 (Z.leb_le 0 v) Hv).
Qed.

(** ** Facts: built maps *)

(** What a built map holds is the first member of a name. *)
Lemma mfind_make_map k l : mfind k (make_map l) = mfind k l.
Proof. unfold make_map. by rewrite mfind_emplace_all. Qed.

Lemma make_map_sorted l : msorted (make_map l).
Proof. apply emplace_all_msorted, msorted_nil. Qed.

Lemma mkeys_make_map x l : x ∈ mkeys (make_map l) <-> x ∈ mkeys l.
Proof. by rewrite <- !mfind_is_Some, mfind_make_map. Qed.

Lemma CheckMembers_make_map l allowed what :
  forallb (fun name => existsb (eqb name) allowed) (mkeys l) = true ->
  CheckMembers (make_map l) allowed what = Status_Ok.
Proof.
  intros H. rewrite forallb_forall in H.
  assert (Hall : Forall (fun name => existsb (eqb name) allowed = true) (mkeys (make_map l))).
  { apply Forall_forall. intros x Hx. apply H, list_elem_of_In. by apply mkeys_make_map. }
  induction (make_map l) as [|[k v] m IH]; [done|]. cbn [CheckMembers mkeys map fst] in *.
  apply Forall_cons in Hall as [-> Hall]. by apply IH.
Qed.

Lemma FindMember_make_map l name : FindMember (make_map l) name = mfind name l.
Proof. apply mfind_make_map. Qed.

(** A text without a NUL is its own C string. *)
Lemma c_str_id text : Forall (fun c => c <> "000"%char) (list_ascii_of_string text) -> c_str text = text.
Proof.
  induction text as [|c text IH]; [done|]. cbn [list_ascii_of_string c_str]. intros [Hc H]%Forall_cons.
  destruct (Ascii.eqb_spec c "000"); [done|]. by rewrite IH.
Qed.

(** ** Facts: documents that can be written *)

Lemma foldr_and {A} (P : A -> Prop) l : foldr (fun x Q => P x /\ Q) True l <-> Forall P l.
Proof. induction l as [|x l IH]; cbn; [split; constructor|]. by rewrite Forall_cons, IH. Qed.

Lemma writable_make_map l :
  Forall (fun e => IsValidUtf8 (fst e) = true /\ writable (snd e)) l -> mfind kBytesMember l = None ->
  writable (V_Map (make_map l)).
Proof.
  intros Hl Hb. cbn [writable]. split; [apply make_map_sorted|]. split.
  - unfold object_value. rewrite mfind_make_map, Hb. by destruct (_ =? 1).
  - apply (foldr_and (fun e : string * Value => IsValidUtf8 (fst e) = true /\ writable (snd e))).
    apply Forall_forall. intros [k v] Hin.
    pose proof (mfind_In_sorted k v _ (make_map_sorted l) (proj1 (list_elem_of_In _ _) Hin)) as Hf.
    rewrite mfind_make_map in Hf. apply mfind_In, list_elem_of_In in Hf.
    rewrite Forall_forall in Hl. by apply (Hl _ Hf).
Qed.

Lemma writable_list_of l : Forall writable l -> writable (V_List l).
Proof. intros. by apply (foldr_and writable). Qed.

Lemma writable_MakeUint v : is_u64 v -> writable (MakeUint v).
Proof.
  intros Hv. unfold is_u64, is_i64, INT64_MIN in *. unfold MakeUint.
  destruct (Z.leb_spec v INT64_MAX); cbn [writable]; unfold is_i64, INT64_MIN; lia.
Qed.

(** A text of 7-bit characters is valid UTF-8. *)
Lemma ascii_utf8 text : Forall (fun c => byte_of c < 0x80) (list_ascii_of_string text) ->
  IsValidUtf8 text = true.
Proof.
  unfold IsValidUtf8. induction text as [|c text IH]; [done|]. cbn [list_ascii_of_string].
  intros [Hc H]%Forall_cons. specialize (IH H). cbn [String.length].
  change (string_bytes (String c text)) with (byte_of c :: string_bytes text).
  cbn [utf8_loop]. apply Z.ltb_lt in Hc. by rewrite Hc.
Qed.

Lemma IsAlnum_ascii c : IsAlnum c = true -> byte_of c < 0x80.
Proof. unfold IsAlnum. rewrite !orb_true_iff, !andb_true_iff, !Z.leb_le. lia. Qed.

Lemma separator_ascii c : IsIdentitySeparator c = true -> byte_of c < 0x80.
Proof.
  unfold IsIdentitySeparator, one_of. intros (x & Hx & E%Ascii.eqb_eq)%existsb_exists. subst x.
  apply list_elem_of_In in Hx. revert c Hx. apply Forall_forall. by repeat constructor.
Qed.

(** An identity is 7-bit text. *)
Lemma identity_utf8 text : IsValidIdentityText text = true -> IsValidUtf8 text = true.
Proof.
  intros H. apply ascii_utf8. unfold IsValidIdentityText in H. destruct text as [|first rest]; [done|].
  destruct (_ <? _); [done|]. destruct (one_of "/.-" _); [done|]. destruct (last_char _) as [l|]; [|done].
  destruct (IsIdentitySeparator l || _); [done|].
  destruct (forallb identity_char _) eqn:E; [clear H|done].
  rewrite forallb_forall in E. apply Forall_forall. intros c Hc%list_elem_of_In%E.
  unfold identity_char in Hc. destruct (_ || _); [done|]. destruct (Ascii.eqb _ _); [done|].
  apply orb_true_iff in Hc as [?|?]; [by apply IsAlnum_ascii|by apply separator_ascii].
Qed.

(** Evaluates the members that a decoder looks up in a built map. *)
Ltac read_members :=
  rewrite ?FindMember_make_map;
  repeat match goal with
  | |- context [mfind ?k ?l] => let r := eval hnf in (mfind k l) in progress change (mfind k l) with r
  end.

(** Unfolds the accessors of the members of a built map. *)
Ltac decode_members :=
  unfold required_identity, required_member, optional_enum, RequireString, RequireBool, RequireUint, RequireList, RequireMap, Require, OptionalString,
    OptionalBool, OptionalUint, OptionalInt, Optional;
  read_members; cbn [as_string as_bool as_list as_map dbind default from_option id].

(** A built document of texts, flags, counters and documents can be written. *)
Ltac writable_members :=
  apply writable_make_map; [repeat (apply Forall_cons; split; [split; [vm_compute; reflexivity|]|]) |
    try reflexivity]; [..|apply Forall_nil_2]; cbn [fst snd];
  lazymatch goal with
  | |- writable (V_Bool _) => exact I
  | |- writable (V_String (String _ _)) => vm_compute; reflexivity
  | |- writable (V_String _) => cbn [writable]; try assumption
  | |- writable (MakeUint _) => apply writable_MakeUint; try assumption
  | |- _ => idtac
  end.
