(* ===== verification/Wire.v ===== *)
(** * Framed transport

    wire.hpp/wire.cpp: the 28-byte frame header with its little-endian fields
    and the CRC-32 of the payload, and the handshake and acknowledgement
    documents a frame carries.  A function that fills an output parameter is a
    [Decoded] value, so a refusal leaves the output as it was. *)

From Stdlib Require Import ZArith Lia List Bool Ascii String.
From stdpp Require Import base tactics list strings.
From S2P Require Import Prelude Containers Text Status Hash Identity Double Value Intent Observation.
From S2P Require Import Json JsonGrammar JsonHelp JsonCodec.
#[local] Open Scope string_scope.
#[local] Open Scope Z_scope.
#[local] Arguments String.append : simpl nomatch.

(** ** Frame types *)

Definition kFrameMagic : list Z := [78; 68; 79; 49].
Definition kFrameHeaderBytes : Z := 28.
Definition kWireProtocolVersion : Z := 1.

Inductive FrameType : Set :=
| FT_Hello | FT_HelloAck | FT_Snapshot | FT_SnapshotAck | FT_Intent | FT_IntentAck | FT_ErrorFrame
| FT_Bye | FT_Heartbeat.

#[export, refine] Instance enum_FrameType : Enum FrameType :=
  {| code v := match v with
               | FT_Hello => 1 | FT_HelloAck => 2 | FT_Snapshot => 3 | FT_SnapshotAck => 4
               | FT_Intent => 5 | FT_IntentAck => 6 | FT_ErrorFrame => 7 | FT_Bye => 8
               | FT_Heartbeat => 9 end;
     values := [FT_Hello; FT_HelloAck; FT_Snapshot; FT_SnapshotAck; FT_Intent; FT_IntentAck;
                FT_ErrorFrame; FT_Bye; FT_Heartbeat] |}.
Proof. enum_complete. Defined.

Definition kFrameTypeNames : list (Z * string) :=
  [(1, "hello"); (2, "hello-ack"); (3, "snapshot"); (4, "snapshot-ack"); (5, "intent");
   (6, "intent-ack"); (7, "error"); (8, "bye"); (9, "heartbeat")].

Definition ToText_FrameType (value : FrameType) : string := Lookup kFrameTypeNames "unknown" (code value).

(** The raw value of an entry of the table, cast. *)
Definition TryParseFrameType (raw : Z) : option FrameType :=
  if existsb (fun entry => fst entry =? raw) kFrameTypeNames then of_code raw else None.

(** [enum class FrameFlags], as the bits it names. *)
Definition FF_None : Z := 0.
Definition FF_ExpectResponse : Z := 1.
Definition FF_Final : Z := 2.

(** ** Little-endian words *)

(** [AppendU16], [AppendU32], [AppendU64]: the [n] bytes that are appended. *)
Definition le_bytes (n : nat) (value : Z) : list Z :=
  map (fun index => Z.land (Z.shiftr value (8 * Z.of_nat index)) 0xFF) (seq 0 n).

Definition AppendU16 (out : list Z) (value : Z) : list Z := (out ++ le_bytes 2 value)%list.
Definition AppendU32 (out : list Z) (value : Z) : list Z := (out ++ le_bytes 4 value)%list.
Definition AppendU64 (out : list Z) (value : Z) : list Z := (out ++ le_bytes 8 value)%list.

(** [value |= data[index] << (8 * index)] for the [n] bytes of the word, so that
    no bit is shifted out of it. *)
Definition read_le (n : nat) (data : list Z) : Z :=
  foldl (fun value index => Z.lor value (Z.shiftl (nth index data 0) (8 * Z.of_nat index))) 0 (seq 0 n).

Definition ReadU16 (data : list Z) : Z := read_le 2 data.
Definition ReadU32 (data : list Z) : Z := read_le 4 data.
Definition ReadU64 (data : list Z) : Z := read_le 8 data.

(** ** Frames *)

Record FrameHeader := mkFrameHeader {
  fh_version : Z;
  fh_type : FrameType;
  fh_flags : Z;
  fh_payload_bytes : Z;
  fh_checksum : Z;
  fh_sequence : Z
}.

Definition EncodeFrame (type : FrameType) (flags sequence : Z) (payload : string) (limits : RuntimeLimits)
    : Decoded (list Z) :=
  if max_wire_payload_bytes limits <? ssize payload
  then inl (Status_Limit RC_WireFrameOversize "frame payload exceeds the envelope")
  else
    let out := kFrameMagic in
    let out := AppendU16 out kWireProtocolVersion in
    let out := AppendU16 out (code type) in
    let out := AppendU16 out flags in
    let out := AppendU16 out 0 in
    let out := AppendU32 out (wrap32 (ssize payload)) in
    let out := AppendU32 out (Crc32 (string_bytes payload)) in
    let out := AppendU64 out sequence in
    inr (out ++ string_bytes payload)%list.

(** The header is the bytes at hand; a null pointer has none. *)
Definition DecodeFrameHeader (header : list Z) (limits : RuntimeLimits) : Decoded FrameHeader :=
  if vsize header <? kFrameHeaderBytes
  then inl (Status_Rejected RC_WireFrameTruncated "the frame header is incomplete")
  else if negb (eqb (firstn 4 header) kFrameMagic)
  then inl (Status_Rejected RC_WireFrameMagicMismatch "the frame magic does not match")
  else
    let version := ReadU16 (skipn 4 header) in
    if negb (version =? kWireProtocolVersion)
    then inl (Status_Rejected RC_WireProtocolVersionUnsupported
                "the frame protocol version is not supported")
    else
      match TryParseFrameType (ReadU16 (skipn 6 header)) with
      | None => inl (Status_Rejected RC_WireFrameTypeUnsupported "the frame type is not recognized")
      | Some type =>
          let payload_bytes := ReadU32 (skipn 12 header) in
          if max_wire_payload_bytes limits <? payload_bytes
          then inl (Status_Limit RC_WireFrameOversize "the declared payload exceeds the envelope")
          else inr (mkFrameHeader version type (ReadU16 (skipn 8 header)) payload_bytes
                      (ReadU32 (skipn 16 header)) (ReadU64 (skipn 20 header)))
      end.

Definition VerifyFramePayload (header : FrameHeader) (payload : list Z) : Status :=
  if negb (vsize payload =? fh_payload_bytes header)
  then Status_Rejected RC_WireFrameTruncated "the payload length does not match the header"
  else if negb (Crc32 payload =? fh_checksum header)
  then Status_Rejected RC_WireFrameChecksumMismatch "the payload checksum does not match the header"
  else Status_Ok.

(** ** Documents *)

(** [SourceCapabilities{}]. *)
Definition no_capabilities : SourceCapabilities := mkCapabilities false false false EC_Unknown.

Record HelloPayload := mkHello {
  hello_source : string;
  hello_epoch : Z;
  hello_incarnation : Z;
  hello_start_sequence : Z;
  hello_capabilities : SourceCapabilities;
  hello_provenance : string;
  hello_product_version : string
}.

Record HelloAckPayload := mkHelloAck {
  ha_accepted : bool;
  ha_reason : ReasonCode;
  ha_protocol_version : Z;
  ha_server_epoch : Z;
  ha_server_incarnation : Z;
  ha_session_id : Z;
  ha_max_payload_bytes : Z;
  ha_detail : string
}.

Record AckPayload := mkAck {
  ack_accepted : bool;
  ack_reason : ReasonCode;
  ack_sequence : Z;
  ack_snapshot : string;
  ack_generation : Z;
  ack_detail : string
}.

#[export] Instance eta_HelloAckPayload : Eta HelloAckPayload := fun p =>
  mkHelloAck (ha_accepted p) (ha_reason p) (ha_protocol_version p) (ha_server_epoch p)
    (ha_server_incarnation p) (ha_session_id p) (ha_max_payload_bytes p) (ha_detail p).
#[export] Instance eta_AckPayload : Eta AckPayload := fun p =>
  mkAck (ack_accepted p) (ack_reason p) (ack_sequence p) (ack_snapshot p) (ack_generation p)
    (ack_detail p).

Definition empty_hello_ack : HelloAckPayload := mkHelloAck false RC_None 0 0 0 0 0 "".
Definition empty_ack : AckPayload := mkAck false RC_None 0 "" 0 "".

Definition EncodeCapabilities (capabilities : SourceCapabilities) : Value :=
  V_Map (make_map [("asserts_absence", V_Bool (asserts_absence capabilities));
                   ("complete_coverage", V_Bool (complete_coverage capabilities));
                   ("reports_nested_paths", V_Bool (reports_nested_paths capabilities));
                   ("evidence", V_String (ToText_EvidenceClass (cap_evidence capabilities)))]).

Definition EncodeHello (p : HelloPayload) : Value :=
  V_Map (make_map [("schema", V_String "ndo/hello/1");
                   ("source", V_String (hello_source p));
                   ("epoch", MakeUint (hello_epoch p));
                   ("incarnation", MakeUint (hello_incarnation p));
                   ("start_sequence", MakeUint (hello_start_sequence p));
                   ("provenance", V_String (hello_provenance p));
                   ("product_version", V_String (hello_product_version p));
                   ("capabilities", EncodeCapabilities (hello_capabilities p))]).

(** [provenance] and [product_version]: an optional text within the leaf bound. *)
Definition bounded_text (limits : RuntimeLimits) (m : VMap) (name complaint : string) : Decoded string :=
  match OptionalString m name with
  | Some text =>
      if max_leaf_bytes limits <? ssize text then inl (Status_Limit RC_LimitBytesExceeded complaint)
      else inr text
  | None => inr ""
  end.

(** The capability members that are present and of their kind. *)
Definition capabilities_of (m : VMap) (what : string) : Decoded SourceCapabilities :=
  let flag_of name := default false (OptionalBool m name) in
  let? evidence := optional_enum TryParseEvidenceClass EC_Unknown m "evidence" what in
  inr (mkCapabilities (flag_of "asserts_absence") (flag_of "complete_coverage")
         (flag_of "reports_nested_paths") evidence).

Definition hello_capabilities_of (m : VMap) : Decoded SourceCapabilities :=
  match FindMember m "capabilities" with
  | None => inr no_capabilities
  | Some capabilities =>
      match as_map capabilities with
      | None => inl (MemberError "hello" "capabilities" "must be an object")
      | Some capability_map => capabilities_of capability_map "hello.capabilities"
      end
  end.

Definition hello_members : list string :=
  ["schema"; "source"; "epoch"; "incarnation"; "start_sequence"; "provenance"; "product_version";
   "capabilities"].

Definition DecodeHello (value : Value) (limits : RuntimeLimits) : Decoded HelloPayload :=
  match as_map value with
  | None => inl (Status_Rejected RC_WireHandshakeRejected "the hello payload must be an object")
  | Some m =>
      check CheckMembers m hello_members "hello" then
      let? source := required_identity m "source" "hello" in
      let? epoch := RequireUint m "epoch" "hello" in
      let? incarnation := RequireUint m "incarnation" "hello" in
      let start_sequence := default 0 (OptionalUint m "start_sequence") in
      let? provenance := bounded_text limits m "provenance" "provenance exceeds the envelope" in
      let? product_version :=
        bounded_text limits m "product_version" "product version exceeds the envelope" in
      let? capabilities := hello_capabilities_of m in
      if negb (uint_is_set epoch) || negb (uint_is_set incarnation)
      then inl (Status_Rejected RC_FencedStaleIncarnation
                  "hello must declare a positive epoch and incarnation")
      else inr (mkHello source epoch incarnation start_sequence capabilities provenance product_version)
  end.

(** The reason code of an acknowledgement; a missing one is [None]. *)
Definition reason_of (m : VMap) (what : string) : Decoded ReasonCode :=
  optional_enum TryParseReasonCode RC_None m "reason" what.

Definition EncodeHelloAck (p : HelloAckPayload) : Value :=
  V_Map (make_map [("schema", V_String "ndo/hello-ack/1");
                   ("accepted", V_Bool (ha_accepted p));
                   ("reason", V_String (ToText_ReasonCode (ha_reason p)));
                   ("protocol_version", MakeUint (ha_protocol_version p));
                   ("server_epoch", MakeUint (ha_server_epoch p));
                   ("server_incarnation", MakeUint (ha_server_incarnation p));
                   ("session_id", MakeUint (ha_session_id p));
                   ("max_payload_bytes", MakeUint (ha_max_payload_bytes p));
                   ("detail", V_String (ha_detail p))]).

Definition DecodeHelloAck (value : Value) : Decoded HelloAckPayload :=
  match as_map value with
  | None => inl (Status_Rejected RC_WireHandshakeRejected "the hello acknowledgement must be an object")
  | Some m =>
      let? reason := reason_of m "hello-ack" in
      inr (mkHelloAck (default false (OptionalBool m "accepted")) reason
             (Z.land (default 0 (OptionalUint m "protocol_version")) 0xFFFF)
             (default 0 (OptionalUint m "server_epoch"))
             (default 0 (OptionalUint m "server_incarnation"))
             (default 0 (OptionalUint m "session_id"))
             (Z.land (default 0 (OptionalUint m "max_payload_bytes")) 0xFFFFFFFF)
             (default "" (OptionalString m "detail")))
  end.

Definition EncodeAck (p : AckPayload) : Value :=
  V_Map (make_map [("schema", V_String "ndo/ack/1");
                   ("accepted", V_Bool (ack_accepted p));
                   ("reason", V_String (ToText_ReasonCode (ack_reason p)));
                   ("sequence", MakeUint (ack_sequence p));
                   ("snapshot", V_String (ack_snapshot p));
                   ("generation", MakeUint (ack_generation p));
                   ("detail", V_String (ack_detail p))]).

(** The snapshot identity of an acknowledgement; an empty one counts as missing. *)
Definition ack_snapshot_of (m : VMap) : Decoded string :=
  match OptionalString m "snapshot" with
  | Some text => if String.eqb text "" then inr "" else identity_of text "ack" "snapshot"
  | None => inr ""
  end.

Definition DecodeAck (value : Value) : Decoded AckPayload :=
  match as_map value with
  | None => inl (Status_Rejected RC_EncodingMalformed "the acknowledgement must be an object")
  | Some m =>
      let? reason := reason_of m "ack" in
      let? snapshot := ack_snapshot_of m in
      inr (mkAck (default false (OptionalBool m "accepted")) reason
             (default 0 (OptionalUint m "sequence")) snapshot
             (default 0 (OptionalUint m "generation")) (default "" (OptionalString m "detail")))
  end.

Definition EncodeError (reason : ReasonCode) (detail : string) : Value :=
  V_Map (make_map [("schema", V_String "ndo/error/1");
                   ("reason", V_String (ToText_ReasonCode reason));
                   ("domain", V_String (ReasonCodeDomain reason));
                   ("detail", V_String detail)]).

(** ** Facts: little-endian words *)

Lemma le_bytes_length n v : length (le_bytes n v) = n.
Proof. unfold le_bytes. by rewrite length_map, length_seq. Qed.

Lemma le_bytes_range n v : Forall is_byte (le_bytes n v).
Proof. apply Forall_map, Forall_true. intros. apply land_255_byte. Qed.

Lemma le_bytes_nth n v rest i : (i < n)%nat ->
  nth i (le_bytes n v ++ rest) 0 = Z.land (Z.shiftr v (8 * Z.of_nat i)) 0xFF.
Proof.
  intros Hi. rewrite app_nth1 by (by rewrite le_bytes_length). unfold le_bytes.
  rewrite (nth_indep _ 0 (Z.land (Z.shiftr v (8 * Z.of_nat 0)) 0xFF)) by (by rewrite length_map, length_seq).
  rewrite (map_nth (fun index => Z.land (Z.shiftr v (8 * Z.of_nat index)) 0xFF)), seq_nth by done. done.
Qed.

Lemma nth_byte data i : Forall is_byte data -> is_byte (nth i data 0).
Proof.
  intros H. destruct (Nat.lt_ge_cases i (length data)) as [Hi|Hi].
  - rewrite Forall_forall in H. apply H, list_elem_of_In, nth_In, Hi.
  - rewrite nth_overflow by done. by split.
Qed.

Lemma high_bits v n k : 0 <= v < 2 ^ n -> n <= k -> Z.testbit v k = false.
Proof.
  intros [H0 H1] Hk. destruct (Z.eq_dec v 0) as [->|]; [apply Z.bits_0|].
  apply Z.bits_above_log2; [done|]. assert (Z.log2 v < n); [|lia]. apply Z.log2_lt_pow2; lia.
Qed.

(** The bits of a word that is read are the bits of its bytes. *)
Lemma read_le_bits n data k : Forall is_byte data -> 0 <= k ->
  Z.testbit (read_le n data) k =
  (k <? 8 * Z.of_nat n) && Z.testbit (nth (Z.to_nat (k / 8)) data 0) (k mod 8).
Proof.
  intros Hd Hk. unfold read_le. induction n as [|n IH].
  - cbn [seq foldl]. rewrite Z.bits_0. by rewrite (proj2 (Z.ltb_ge k (8 * Z.of_nat 0))) by lia.
  - rewrite seq_S, foldl_app. cbn [foldl Nat.add]. rewrite Z.lor_spec, IH.
    pose proof (nth_byte data n Hd) as Hb.
    destruct (Z.ltb_spec k (8 * Z.of_nat n)) as [Hlt|Hge].
    + rewrite Z.shiftl_spec_low by done. rewrite orb_false_r. by rewrite (proj2 (Z.ltb_lt k (8 * Z.of_nat (S n)))) by lia.
    + rewrite Z.shiftl_spec by done. cbn [andb orb].
      destruct (Z.ltb_spec k (8 * Z.of_nat (S n))) as [Hlt|Hge']; cbn [andb].
      * replace (Z.to_nat (k / 8)) with n by (Z.to_euclidean_division_equations; lia).
        f_equal. Z.to_euclidean_division_equations; lia.
      * apply (high_bits _ 8); [exact Hb|lia].
Qed.

Lemma read_le_range n data : Forall is_byte data -> 0 <= read_le n data < 2 ^ (8 * Z.of_nat n).
Proof.
  intros Hd. assert (H0 : 0 <= read_le n data).
  { unfold read_le. induction n as [|n IH]; [done|]. rewrite seq_S, foldl_app. cbn [foldl Nat.add].
    apply Z.lor_nonneg. split; [done|]. apply Z.shiftl_nonneg. pose proof (nth_byte data n Hd) as []. lia. }
  split; [done|]. destruct (Z.eq_dec (read_le n data) 0) as [->|Hne]; [lia|].
  apply Z.log2_lt_pow2; [lia|]. destruct (Z.ltb_spec (Z.log2 (read_le n data)) (8 * Z.of_nat n)) as [|Hge]; [done|].
  pose proof (Z.bit_log2 (read_le n data) ltac:(lia)) as Hb.
  rewrite read_le_bits in Hb by (done || apply Z.log2_nonneg).
  by rewrite (proj2 (Z.ltb_ge _ _)) in Hb by lia.
Qed.

(** What is appended is read back. *)
Lemma read_le_le_bytes n v rest : Forall is_byte rest -> 0 <= v < 2 ^ (8 * Z.of_nat n) ->
  read_le n (le_bytes n v ++ rest) = v.
Proof.
  intros Hr Hv. apply Z.bits_inj'. intros k Hk.
  rewrite read_le_bits by (done || apply Forall_app; auto using le_bytes_range).
  destruct (Z.ltb_spec k (8 * Z.of_nat n)) as [Hlt|Hge]; cbn [andb].
  - pose proof (Z.div_mod k 8 ltac:(lia)). pose proof (Z.mod_pos_bound k 8 ltac:(lia)).
    assert (0 <= k / 8) by (apply Z.div_pos; lia).
    rewrite le_bytes_nth by lia. change 0xFF with (Z.ones 8).
    rewrite Z.land_spec, Z.shiftr_spec, Z.ones_spec_low, andb_true_r by lia. f_equal. lia.
  - symmetry. by apply (high_bits _ (8 * Z.of_nat n)).
Qed.

(** What is read is appended unchanged: a word has one encoding. *)
Lemma le_bytes_read_le n data : Forall is_byte data -> (n <= length data)%nat ->
  le_bytes n (read_le n data) = firstn n data.
Proof.
  intros Hd Hn. apply (nth_ext _ _ 0 0); [rewrite le_bytes_length, length_firstn; lia|].
  intros i Hi. rewrite le_bytes_length in Hi.
  pose proof (le_bytes_nth n (read_le n data) [] i Hi) as E. rewrite app_nil_r in E. rewrite E.
  assert (nth i (firstn n data) 0 = nth i data 0) as ->
    by (rewrite <- (firstn_skipn n data) at 2; rewrite app_nth1; [done|rewrite length_firstn; lia]).
  pose proof (nth_byte data i Hd) as Hb. change 0xFF with (Z.ones 8).
  apply Z.bits_inj'. intros k Hk. rewrite Z.land_spec, Z.shiftr_spec by done.
  destruct (Z.ltb_spec k 8) as [Hlt|Hge].
  - rewrite Z.ones_spec_low, andb_true_r, read_le_bits by (done || lia).
    rewrite (proj2 (Z.ltb_lt (k + 8 * Z.of_nat i) (8 * Z.of_nat n))) by lia. cbn [andb].
    replace (Z.to_nat ((k + 8 * Z.of_nat i) / 8)) with i by (Z.to_euclidean_division_equations; lia).
    f_equal. Z.to_euclidean_division_equations; lia.
  - rewrite Z.ones_spec_high, andb_false_r by lia. symmetry. by apply (high_bits _ 8).
Qed.

(** ** Facts: frames *)

(** The layout of a header and of a frame. *)
Definition header_bytes (type : FrameType) (flags reserved sequence : Z) (payload : list Z) : list Z :=
  (kFrameMagic ++ le_bytes 2 kWireProtocolVersion ++ le_bytes 2 (code type) ++ le_bytes 2 flags ++
   le_bytes 2 reserved ++ le_bytes 4 (vsize payload) ++ le_bytes 4 (Crc32 payload) ++
   le_bytes 8 sequence)%list.

Definition frame_bytes (type : FrameType) (flags reserved sequence : Z) (payload : list Z) : list Z :=
  (header_bytes type flags reserved sequence payload ++ payload)%list.

Definition frame_header (type : FrameType) (flags sequence : Z) (payload : list Z) : FrameHeader :=
  mkFrameHeader kWireProtocolVersion type flags (vsize payload) (Crc32 payload) sequence.

Definition is_u16 (z : Z) : Prop := 0 <= z < 2 ^ 16.

Lemma EncodeFrame_layout type flags sequence payload limits :
  ssize payload <= max_wire_payload_bytes limits -> ssize payload <= UINT32_MAX ->
  EncodeFrame type flags sequence payload limits = inr (frame_bytes type flags 0 sequence (string_bytes payload)).
Proof.
  intros H H32. unfold EncodeFrame, AppendU16, AppendU32, AppendU64, frame_bytes, header_bytes.
  rewrite (proj2 (Z.ltb_ge _ _)) by done. rewrite <- !app_assoc.
  assert (vsize (string_bytes payload) = ssize payload) as ->
    by (unfold ssize, vsize; by rewrite string_bytes_length).
  unfold wrap32. by rewrite Z.mod_small by (unfold ssize, UINT32_MAX in *; lia).
Qed.

Lemma code_u16 (type : FrameType) : is_u16 (code type).
Proof. destruct type; by split. Qed.

Lemma TryParseFrameType_code type : TryParseFrameType (code type) = Some type.
Proof. by destruct type. Qed.

Lemma TryParseFrameType_some raw type : TryParseFrameType raw = Some type -> raw = code type.
Proof.
  unfold TryParseFrameType. destruct (existsb _ _); [|done]. unfold of_code.
  intros [_ E]%List.find_some. by apply Z.eqb_eq in E.
Qed.

Lemma header_bytes_length type flags reserved sequence payload :
  length (header_bytes type flags reserved sequence payload) = 28%nat.
Proof. done. Qed.

Lemma header_bytes_range type flags reserved sequence payload :
  Forall is_byte (header_bytes type flags reserved sequence payload).
Proof.
  unfold header_bytes. repeat (apply Forall_app; split; [apply le_bytes_range || by repeat constructor|]).
  apply le_bytes_range.
Qed.

(** The fields of a header are where the layout puts them. *)
Lemma header_fields type flags reserved sequence payload :
  is_u16 flags -> is_u64 sequence -> vsize payload <= UINT32_MAX -> Forall is_byte payload ->
  let header := header_bytes type flags reserved sequence payload in
  firstn 4 header = kFrameMagic /\ ReadU16 (skipn 4 header) = kWireProtocolVersion /\
  ReadU16 (skipn 6 header) = code type /\ ReadU16 (skipn 8 header) = flags /\
  ReadU32 (skipn 12 header) = vsize payload /\ ReadU32 (skipn 16 header) = Crc32 payload /\
  ReadU64 (skipn 20 header) = sequence.
Proof.
  intros Hf Hs Hn Hp header. pose proof (Crc32_u32 payload Hp) as Hc.
  assert (Hr : forall k, Forall is_byte (skipn k header))
    by (intros; apply Forall_drop, header_bytes_range).
  split; [done|]. unfold ReadU16, ReadU32, ReadU64.
  assert (Hn0 : 0 <= vsize payload) by (unfold vsize; lia).
  repeat split.
  - apply (read_le_le_bytes 2 (code type) (skipn 8 header)); [apply Hr|apply code_u16].
  - apply (read_le_le_bytes 2 flags (skipn 10 header)); [apply Hr|exact Hf].
  - apply (read_le_le_bytes 4 (vsize payload) (skipn 16 header)); [apply Hr|].
    unfold UINT32_MAX in *. change (2 ^ (8 * Z.of_nat 4)) with 4294967296. lia.
  - apply (read_le_le_bytes 4 (Crc32 payload) (skipn 20 header)); [apply Hr|exact Hc].
  - apply (read_le_le_bytes 8 sequence []); [by constructor|].
    unfold is_u64, UINT64_MAX in *. change (2 ^ (8 * Z.of_nat 8)) with 18446744073709551616. lia.
Qed.

Lemma DecodeFrameHeader_layout type flags reserved sequence payload limits :
  is_u16 flags -> is_u64 sequence -> vsize payload <= UINT32_MAX -> Forall is_byte payload ->
  vsize payload <= max_wire_payload_bytes limits ->
  DecodeFrameHeader (header_bytes type flags reserved sequence payload) limits =
  inr (frame_header type flags sequence payload).
Proof.
  intros Hf Hs Hn Hp Hm.
  destruct (header_fields type flags reserved sequence payload Hf Hs Hn Hp) as (H1 & H2 & H3 & H4 & H5 & H6 & H7).
  unfold DecodeFrameHeader. rewrite H1, H2, H3, H4, H5, H6, H7, TryParseFrameType_code.
  rewrite (proj2 (Z.ltb_ge (max_wire_payload_bytes limits) _)) by done. done.
Qed.

Lemma VerifyFramePayload_ok h payload : VerifyFramePayload h payload = Status_Ok <->
  fh_payload_bytes h = vsize payload /\ fh_checksum h = Crc32 payload.
Proof.
  unfold VerifyFramePayload.
  destruct (Z.eqb_spec (vsize payload) (fh_payload_bytes h)), (Z.eqb_spec (Crc32 payload) (fh_checksum h));
    cbn [negb]; split; (done || intuition congruence).
Qed.

(** A header that is accepted has the layout of its fields. *)
Lemma DecodeFrameHeader_ok header payload limits h :
  Forall is_byte header -> length header = 28%nat ->
  DecodeFrameHeader header limits = inr h -> VerifyFramePayload h payload = Status_Ok ->
  exists type flags reserved sequence, is_u16 flags /\ is_u16 reserved /\ is_u64 sequence /\
    vsize payload <= max_wire_payload_bytes limits /\ vsize payload <= UINT32_MAX /\
    header = header_bytes type flags reserved sequence payload /\
    h = frame_header type flags sequence payload.
Proof.
  intros Hb Hl E [Hsz Hcrc]%VerifyFramePayload_ok. unfold DecodeFrameHeader in E.
  destruct (_ <? kFrameHeaderBytes); [done|]. destruct (eqb (firstn 4 header) kFrameMagic) eqn:Em; [|done].
  apply eqb_eq in Em. cbn [negb] in E.
  destruct (Z.eqb_spec (ReadU16 (skipn 4 header)) kWireProtocolVersion) as [Ev|]; [|done]. cbn [negb] in E.
  destruct (TryParseFrameType _) as [type|] eqn:Et; [|done]. apply TryParseFrameType_some in Et.
  destruct (Z.ltb_spec (max_wire_payload_bytes limits) (ReadU32 (skipn 12 header))) as [|Hm]; [done|].
  injection E as <-. cbn [fh_payload_bytes fh_checksum] in *.
  assert (Hr : forall k n, 0 <= read_le n (skipn k header) < 2 ^ (8 * Z.of_nat n))
    by (intros; by apply read_le_range, Forall_drop).
  exists type, (ReadU16 (skipn 8 header)), (ReadU16 (skipn 10 header)), (ReadU64 (skipn 20 header)).
  split; [apply Hr|]. split; [apply Hr|].
  split; [pose proof (Hr 20%nat 8%nat) as Hr8; change (2 ^ (8 * Z.of_nat 8)) with 18446744073709551616 in Hr8;
          unfold is_u64, UINT64_MAX, ReadU64 in *; lia|].
  split; [lia|].
  split; [pose proof (Hr 12%nat 4%nat) as Hr4; change (2 ^ (8 * Z.of_nat 4)) with 4294967296 in Hr4;
          unfold UINT32_MAX, ReadU32 in *; lia|].
  split; [|by rewrite Ev, Hsz, Hcrc].
  unfold header_bytes. rewrite <- Em, <- Ev, <- Et, <- Hsz, <- Hcrc.
  unfold ReadU16, ReadU32, ReadU64. rewrite !le_bytes_read_le by
    ((by apply Forall_drop) || (rewrite length_drop; lia)).
  clear -Hl. do 28 (destruct header as [|? header]; [done|]). by destruct header.
Qed.

(** ** Facts: documents *)

Record hello_ok (limits : RuntimeLimits) (p : HelloPayload) : Prop := {
  hello_source_ok : IsValidIdentityText (hello_source p) = true;
  hello_epoch_ok : is_u64 (hello_epoch p) /\ hello_epoch p <> 0;
  hello_incarnation_ok : is_u64 (hello_incarnation p) /\ hello_incarnation p <> 0;
  hello_sequence_ok : is_u64 (hello_start_sequence p);
  hello_provenance_ok : ssize (hello_provenance p) <= max_leaf_bytes limits;
  hello_version_ok : ssize (hello_product_version p) <= max_leaf_bytes limits
}.

Lemma evidence_text_reads e : TryParseEvidenceClass (c_str (ToText_EvidenceClass e)) = Some e.
Proof. by destruct e. Qed.

Lemma capabilities_read c what :
  capabilities_of (make_map [("asserts_absence", V_Bool (asserts_absence c));
     ("complete_coverage", V_Bool (complete_coverage c));
     ("reports_nested_paths", V_Bool (reports_nested_paths c));
     ("evidence", V_String (ToText_EvidenceClass (cap_evidence c)))]) what = inr c.
Proof. unfold capabilities_of. decode_members. rewrite evidence_text_reads. by destruct c. Qed.

Lemma identity_of_valid text what name : IsValidIdentityText text = true ->
  identity_of text what name = inr text.
Proof. intros H. unfold identity_of. by rewrite H. Qed.

Lemma bounded_text_ok limits m name complaint text : OptionalString m name = Some text ->
  ssize text <= max_leaf_bytes limits -> bounded_text limits m name complaint = inr text.
Proof. intros H Hs. unfold bounded_text. rewrite H. by rewrite (proj2 (Z.ltb_ge _ _)). Qed.

Lemma DecodeHello_EncodeHello limits p : hello_ok limits p -> DecodeHello (EncodeHello p) limits = inr p.
Proof.
  intros [Hs [He He0] [Hi Hi0] Hq Hp Hv]. unfold DecodeHello, EncodeHello. cbn [as_map].
  rewrite CheckMembers_make_map by done. unfold checked. change (status_ok Status_Ok) with true. cbv iota.
  rewrite (bounded_text_ok limits _ "provenance" _ (hello_provenance p)), (bounded_text_ok limits _ "product_version" _ (hello_product_version p));
    [|decode_members; done..].
  unfold hello_capabilities_of. decode_members. rewrite identity_of_valid by done. cbn [dbind].
  unfold is_u64 in *. rewrite !as_unsigned_MakeUint by lia. cbn [dbind default from_option id EncodeCapabilities as_map].
  rewrite capabilities_read. cbn [dbind]. unfold uint_is_set.
  rewrite (proj2 (Z.eqb_neq _ _) He0), (proj2 (Z.eqb_neq _ _) Hi0). by destruct p.
Qed.

Lemma utf8_reason r : IsValidUtf8 (ToText_ReasonCode r) = true.
Proof. by destruct r. Qed.

Lemma utf8_evidence e : IsValidUtf8 (ToText_EvidenceClass e) = true.
Proof. by destruct e. Qed.

Lemma reason_text_reads r : TryParseReasonCode (c_str (ToText_ReasonCode r)) = Some r.
Proof. destruct r; vm_compute; reflexivity. Qed.

Lemma EncodeHello_writable limits p : hello_ok limits p ->
  IsValidUtf8 (hello_provenance p) = true -> IsValidUtf8 (hello_product_version p) = true ->
  writable (EncodeHello p).
Proof.
  intros [Hs [He _] [Hi _] Hq _ _] Hp Hv. apply identity_utf8 in Hs. unfold EncodeHello. writable_members.
  unfold EncodeCapabilities. writable_members. apply utf8_evidence.
Qed.

Record hello_ack_ok (p : HelloAckPayload) : Prop := {
  ha_version_ok : is_u16 (ha_protocol_version p);
  ha_epoch_ok : is_u64 (ha_server_epoch p);
  ha_incarnation_ok : is_u64 (ha_server_incarnation p);
  ha_session_ok : is_u64 (ha_session_id p);
  ha_max_ok : is_u32 (ha_max_payload_bytes p);
  ha_detail_ok : IsValidUtf8 (ha_detail p) = true
}.

Lemma EncodeHelloAck_writable p : hello_ack_ok p -> writable (EncodeHelloAck p).
Proof.
  intros [[] ? ? ? [] ?]. unfold EncodeHelloAck. writable_members.
  - apply utf8_reason.
  - unfold is_u64, UINT64_MAX. lia.
  - unfold is_u64, UINT64_MAX. lia.
Qed.

(** The masks of the narrow fields keep a value of their width. *)
Lemma DecodeHelloAck_EncodeHelloAck p : hello_ack_ok p -> DecodeHelloAck (EncodeHelloAck p) = inr p.
Proof.
  intros [Hv He Hi Hs Hm _]. unfold DecodeHelloAck, EncodeHelloAck. cbn [as_map].
  unfold reason_of. decode_members. rewrite reason_text_reads. cbn [dbind].
  unfold is_u64, is_u16, is_u32 in *. rewrite !as_unsigned_MakeUint by lia. cbn [default from_option id].
  change 0xFFFF with (Z.ones 16). change 0xFFFFFFFF with (Z.ones 32).
  rewrite !Z.land_ones, !Z.mod_small by lia. by destruct p.
Qed.

Record ack_ok (p : AckPayload) : Prop := {
  ack_sequence_ok : is_u64 (ack_sequence p);
  ack_snapshot_ok : ack_snapshot p = "" \/ IsValidIdentityText (ack_snapshot p) = true;
  ack_generation_ok : is_u64 (ack_generation p);
  ack_detail_ok : IsValidUtf8 (ack_detail p) = true
}.

Lemma EncodeAck_writable p : ack_ok p -> writable (EncodeAck p).
Proof.
  intros [? Hs ? ?]. unfold EncodeAck. writable_members; [apply utf8_reason|].
  destruct Hs as [->|Hs]; [done|by apply identity_utf8].
Qed.

Lemma DecodeAck_EncodeAck p : ack_ok p -> DecodeAck (EncodeAck p) = inr p.
Proof.
  intros [Hq Hs Hg _]. unfold DecodeAck, EncodeAck. cbn [as_map].
  unfold reason_of, ack_snapshot_of. decode_members. rewrite reason_text_reads. cbn [dbind].
  unfold is_u64 in *. rewrite !as_unsigned_MakeUint by lia. cbn [default from_option id].
  destruct (String.eqb_spec (ack_snapshot p) "") as [E|E].
  - cbn [dbind]. rewrite <- E. by destruct p.
  - destruct Hs as [?|Hs]; [done|]. rewrite identity_of_valid by done. by destruct p.
Qed.

(** A document fits the transport: the JSON envelope and the frame's. *)
Definition transportable (limits : RuntimeLimits) (v : Value) : Prop :=
  document_fits limits v /\ ssize (WriteCanonicalJson v) <= max_document_bytes limits /\
  ssize (WriteCanonicalJson v) <= max_wire_payload_bytes limits /\
  ssize (WriteCanonicalJson v) <= UINT32_MAX.

Lemma string_of_string_bytes s : string_of_bytes (string_bytes s) = s.
Proof. apply string_bytes_inj. rewrite string_bytes_of_bytes; [done|apply string_bytes_range]. Qed.

(** A document that is framed arrives as it was sent. *)
Lemma document_over_the_wire limits type flags sequence v out :
  is_u16 flags -> is_u64 sequence -> writable v -> transportable limits v ->
  exists header payload,
    EncodeFrame type flags sequence (WriteCanonicalJson v) limits = inr (header ++ payload)%list /\
    length header = 28%nat /\
    DecodeFrameHeader header limits = inr (frame_header type flags sequence payload) /\
    VerifyFramePayload (frame_header type flags sequence payload) payload = Status_Ok /\
    ParseJson (string_of_bytes payload) limits out = (Status_Ok, v).
Proof.
  intros Hf Hs Hw (Hfit & Hd & Hm & H32).
  exists (header_bytes type flags 0 sequence (string_bytes (WriteCanonicalJson v))), (string_bytes (WriteCanonicalJson v)).
  assert (Hn : vsize (string_bytes (WriteCanonicalJson v)) = ssize (WriteCanonicalJson v))
    by (unfold vsize, ssize; by rewrite string_bytes_length).
  split; [exact (EncodeFrame_layout type flags sequence _ limits Hm H32)|]. split; [apply header_bytes_length|].
  split; [apply DecodeFrameHeader_layout;
    [exact Hf|exact Hs|rewrite Hn; exact H32|apply string_bytes_range|rewrite Hn; exact Hm]|].
  split; [apply VerifyFramePayload_ok; split; reflexivity|].
  rewrite string_of_string_bytes. by apply ParseJson_canonical.
Qed.

(** ** Properties *)

(** C32. The frame codec is exact.  The encoder refuses a payload over the
    envelope and lays every other one out as header and payload; a receiver
    accepts precisely the headers and payloads of that layout (the two reserved
    bytes are free), reading back the type, the flags, the sequence and the
    length that were written; and once a frame is accepted, the same header with
    a payload changed in any one byte is refused for its checksum. *)
Theorem frames_exact (limits : RuntimeLimits) (header payload : list Z) (h : FrameHeader)
    (Hh : Forall is_byte header) (Hl : length header = 28%nat) (Hp : Forall is_byte payload) :
  (forall type flags sequence text, ssize text <= UINT32_MAX ->
     EncodeFrame type flags sequence text limits =
     if max_wire_payload_bytes limits <? ssize text
     then inl (Status_Limit RC_WireFrameOversize "frame payload exceeds the envelope")
     else inr (frame_bytes type flags 0 sequence (string_bytes text))) /\
  (DecodeFrameHeader header limits = inr h /\ VerifyFramePayload h payload = Status_Ok <->
   exists type flags reserved sequence, is_u16 flags /\ is_u16 reserved /\ is_u64 sequence /\
     vsize payload <= max_wire_payload_bytes limits /\ vsize payload <= UINT32_MAX /\
     header = header_bytes type flags reserved sequence payload /\
     h = frame_header type flags sequence payload) /\
  (VerifyFramePayload h payload = Status_Ok ->
   forall pre a b post, payload = (pre ++ a :: post)%list -> is_byte b -> a <> b ->
   st_reason (VerifyFramePayload h (pre ++ b :: post)) = RC_WireFrameChecksumMismatch).
Proof.
  split; [|split].
  - intros type flags sequence text H32.
    destruct (Z.ltb_spec (max_wire_payload_bytes limits) (ssize text)) as [Hlt|Hge].
    + unfold EncodeFrame. by rewrite (proj2 (Z.ltb_lt _ _) Hlt).
    + by apply EncodeFrame_layout.
  - split; [intros [Hd Hv]; by eapply DecodeFrameHeader_ok|].
    intros (type & flags & reserved & sequence & Hf & _ & Hs & Hm & H32 & -> & ->).
    split; [by apply DecodeFrameHeader_layout|by apply VerifyFramePayload_ok].
  - intros [Hsz Hcrc]%VerifyFramePayload_ok pre a b post -> Hb Hab.
    apply Forall_app in Hp as [Hpre [Ha Hpost]%Forall_cons].
    unfold VerifyFramePayload. rewrite Hsz, Hcrc. unfold vsize. rewrite !length_app. cbn [length].
    rewrite Z.eqb_refl. cbn [negb].
    rewrite (proj2 (Z.eqb_neq _ _)); [done|]. apply not_eq_sym. by apply Crc32_byte_change.
Qed.

(** A source's greeting survives the transport: the hello document of any
    valid source, written as canonical JSON and framed, is accepted by the
    receiver's header, checksum, parser and decoder, and decodes to the greeting
    that was sent. *)
Theorem hello_over_the_wire (limits : RuntimeLimits) (flags sequence : Z) (p : HelloPayload)
    (Hf : is_u16 flags) (Hs : is_u64 sequence) (Hp : hello_ok limits p)
    (Hprovenance : IsValidUtf8 (hello_provenance p) = true)
    (Hversion : IsValidUtf8 (hello_product_version p) = true)
    (Hfit : transportable limits (EncodeHello p)) :
  exists header payload h document,
    EncodeFrame FT_Hello flags sequence (WriteCanonicalJson (EncodeHello p)) limits =
      inr (header ++ payload)%list /\ length header = 28%nat /\
    DecodeFrameHeader header limits = inr h /\ fh_type h = FT_Hello /\ fh_sequence h = sequence /\
    VerifyFramePayload h payload = Status_Ok /\
    ParseJson (string_of_bytes payload) limits V_Null = (Status_Ok, document) /\
    DecodeHello document limits = inr p.
Proof.
  destruct (document_over_the_wire limits FT_Hello flags sequence (EncodeHello p) V_Null Hf Hs
    (EncodeHello_writable limits p Hp Hprovenance Hversion) Hfit) as (header & payload & He & Hl & Hd & Hv & Hj).
  exists header, payload, (frame_header FT_Hello flags sequence payload), (EncodeHello p).
  split_and!; try done. by apply DecodeHello_EncodeHello.
Qed.

(** ** Witnesses *)

Definition example_header : list Z :=
  header_bytes FT_Heartbeat FF_ExpectResponse 0 7 (string_bytes "{}").

Lemma frames_exact_witness :
  DecodeFrameHeader example_header default_limits = inr (frame_header FT_Heartbeat FF_ExpectResponse 7 (string_bytes "{}")) /\
  st_reason (VerifyFramePayload (frame_header FT_Heartbeat FF_ExpectResponse 7 (string_bytes "{}")) [123; 124]) =
    RC_WireFrameChecksumMismatch.
Proof.
  destruct (frames_exact default_limits example_header (string_bytes "{}")
    (frame_header FT_Heartbeat FF_ExpectResponse 7 (string_bytes "{}")) (header_bytes_range _ _ _ _ _)
    eq_refl (string_bytes_range _)) as (_ & Hexact & Hcrc).
  assert (Hok : DecodeFrameHeader example_header default_limits =
      inr (frame_header FT_Heartbeat FF_ExpectResponse 7 (string_bytes "{}")) /\
    VerifyFramePayload (frame_header FT_Heartbeat FF_ExpectResponse 7 (string_bytes "{}")) (string_bytes "{}") = Status_Ok).
  { apply Hexact. exists FT_Heartbeat, FF_ExpectResponse, 0, 7. unfold is_u16, is_u64.
    split_and!; try lia; try (vm_compute; congruence); try reflexivity; by vm_compute. }
  split; [apply Hok|]. apply (Hcrc (proj2 Hok) [123] 125 124 []); [by vm_compute|by split|done].
Defined.

Definition example_hello : HelloPayload :=
  mkHello "collector/eth" 3 9 0 (mkCapabilities true false true EC_Real) "rack 4" "1.0".

Lemma hello_over_the_wire_witness :
  exists header payload h document,
    EncodeFrame FT_Hello 1 5 (WriteCanonicalJson (EncodeHello example_hello)) default_limits =
      inr (header ++ payload)%list /\ length header = 28%nat /\
    DecodeFrameHeader header default_limits = inr h /\ fh_type h = FT_Hello /\ fh_sequence h = 5 /\
    VerifyFramePayload h payload = Status_Ok /\
    ParseJson (string_of_bytes payload) default_limits V_Null = (Status_Ok, document) /\
    DecodeHello document default_limits = inr example_hello.
Proof.
  apply (hello_over_the_wire default_limits 1 5 example_hello).
  - by split.
  - by split.
  - constructor; cbn; unfold is_u64, UINT64_MAX; (reflexivity || lia || (split; lia) || (vm_compute; congruence)).
  - by vm_compute.
  - by vm_compute.
  - unfold transportable. split; [vm_compute; repeat split; discriminate|].
    split_and!; vm_compute; discriminate.
Defined.

(** Changing the flags, the reserved bytes or the sequence of an accepted header
    goes unnoticed: the checksum covers the payload only. *)
Example header_is_not_covered :
  let tampered := header_bytes FT_Heartbeat FF_Final 513 8 (string_bytes "{}") in
  exists h, DecodeFrameHeader tampered default_limits = inr h /\
    VerifyFramePayload h (string_bytes "{}") = Status_Ok /\ fh_flags h = FF_Final /\ fh_sequence h = 8.
Proof. eexists. vm_compute. by split_and!. Qed.

(** The text of an evidence class ends at its first NUL. *)
Example evidence_text_is_cut :
  capabilities_of [("evidence", V_String ("real" +:+ String "000" "!"))] "hello.capabilities" =
  inr (mkCapabilities false false false EC_Real).
Proof. reflexivity. Qed.
