(* ===== verification/Interchange.v ===== *)
(** * Interchange documents

    interchange.hpp/interchange.cpp: intent generations, observation snapshots
    and source descriptors to and from the value tree, and the two entry points
    that read them from JSON text.  A decoder is a [Decoded] value; what it
    accepts has passed the validation of the document it builds. *)

From Stdlib Require Import ZArith Lia List Bool Ascii String.
From stdpp Require Import base tactics list strings.
From S2P Require Import Prelude Containers Text Status Time Hash Identity Double Value Intent Observation.
From S2P Require Import Json JsonGrammar JsonTokens JsonCodec JsonHelp Wire.
#[local] Open Scope string_scope.
#[local] Open Scope Z_scope.
#[local] Arguments String.append : simpl nomatch.

(** ** Shared members *)

Definition RequireSchema (m : VMap) (expected what : string) : Status :=
  match RequireString m "schema" what with
  | inl status => status
  | inr schema =>
      if String.eqb schema expected then Status_Ok
      else Status_Rejected RC_LedgerSchemaUnsupported
             (what +:+ ": schema " +:+ schema +:+ " is not supported")
  end.

Definition EncodeField (path : FieldPath) (value : Value) : Value :=
  V_Map (make_map [("path", V_String (FieldPath_ToText path)); ("value", value)]).

Definition DecodeFieldPath (m : VMap) (limits : RuntimeLimits) (what : string) : Decoded FieldPath :=
  let? text := RequireString m "path" what in
  match FieldPath_TryParse (max_path_segments limits) (max_path_key_bytes limits) text with
  | Some path => inr path
  | None => inl (MemberError what "path" "is not a valid field path")
  end.

(** [DecodeIdentity]: [None] leaves the output as it was. *)
Definition DecodeIdentity (m : VMap) (name what : string) (required : bool) : Decoded (option string) :=
  match FindMember m name with
  | None => if required then inl (MemberError what name "missing required member") else inr None
  | Some member =>
      match as_string member with
      | Some text => inr (Some text)
      | None => inl (MemberError what name "must be a string")
      end
  end.

Definition required_time (m : VMap) (name what : string) : Decoded NdoTime :=
  let? text := RequireString m name what in
  match TryParseTime text with
  | Some time => inr time
  | None => inl (MemberError what name "is not an RFC 3339 timestamp")
  end.

(** A list of documents of at most [limit] entries, each of them an object. *)
Definition object_of (entry : Value) (complaint : string) : Decoded VMap :=
  match as_map entry with
  | Some m => inr m
  | None => inl (Status_Rejected RC_EncodingMalformed complaint)
  end.

Definition bounded_list (m : VMap) (name what : string) (limit : Z) (reason : ReasonCode)
    (complaint : string) : Decoded (list Value) :=
  let? l := RequireList m name what in
  if limit <? vsize l then inl (Status_Limit reason complaint) else inr l.

(** The capabilities of a document, with nothing undeclared and every member of
    its kind. *)
Definition capability_kinds : list (string * MemberKind) :=
  [("asserts_absence", MK_Boolean); ("complete_coverage", MK_Boolean);
   ("reports_nested_paths", MK_Boolean); ("evidence", MK_Text)].

Definition document_capabilities (m : VMap) (what : string) : Decoded SourceCapabilities :=
  match FindMember m "capabilities" with
  | None => inr no_capabilities
  | Some member =>
      match as_map member with
      | None => inl (MemberError what "capabilities" "must be an object")
      | Some capabilities =>
          let what' := what +:+ ".capabilities" in
          check CheckMembers capabilities (mkeys capability_kinds) what' then
          check CheckMemberKinds capabilities capability_kinds what' then
          capabilities_of capabilities what'
      end
  end.

(** ** Intent *)

Definition intent_members : list string :=
  ["schema"; "target"; "generation"; "epoch"; "authority"; "policy"; "authored_at"; "evidence";
   "objects"].
Definition intent_kinds : list (string * MemberKind) :=
  [("target", MK_Text); ("generation", MK_Integer); ("epoch", MK_Integer); ("authority", MK_Text);
   ("policy", MK_Text); ("authored_at", MK_Text); ("evidence", MK_Text); ("objects", MK_Sequence)].

Definition EncodeIntentField (entry : FieldPath * IntentField) : Value :=
  V_Map (make_map [("path", V_String (FieldPath_ToText (fst entry)));
                   ("value", if_intended (snd entry));
                   ("comparability", V_String (ToText_FieldComparability (if_comparability (snd entry))))]).

Definition EncodeIntentObject (entry : string * IntentObject) : Value :=
  V_Map (make_map [("id", V_String (fst entry));
                   ("existence", V_String (ToText_ObjectExistence (io_existence (snd entry))));
                   ("fields", V_List (map EncodeIntentField (io_fields (snd entry))))]).

Definition EncodeIntentDocument (document : IntentGenerationDocument) : Value :=
  V_Map (make_map [("schema", V_String "ndo/intent-generation/1");
                   ("target", V_String (doc_target document));
                   ("generation", MakeUint (doc_generation document));
                   ("epoch", MakeUint (doc_epoch document));
                   ("authority", V_String (ToText_IntentAuthority (doc_authority document)));
                   ("policy", V_String (doc_policy document));
                   ("authored_at", V_String (FormatTime (doc_authored_at document)));
                   ("evidence", V_String (ToText_EvidenceClass (doc_evidence document)));
                   ("objects", V_List (map EncodeIntentObject (doc_objects document)))]).

Definition DecodeIntentField (limits : RuntimeLimits) (entry : Value) : Decoded (FieldPath * IntentField) :=
  let what := "intent document.field" in
  let? m := object_of entry "intent document: field must be an object" in
  check CheckMembers m ["path"; "value"; "comparability"] what then
  check CheckMemberKinds m [("path", MK_Text); ("comparability", MK_Text)] what then
  let? path := DecodeFieldPath m limits what in
  let? intended := required_member m "value" what in
  let? comparability := optional_enum TryParseFieldComparability FC_Managed m "comparability" what in
  inr (path, mkIntentField path intended comparability).

Definition existence_of (m : VMap) : Decoded ObjectExistence :=
  match OptionalString m "existence" with
  | None => inr OE_Required
  | Some text =>
      if String.eqb text "required" then inr OE_Required
      else if String.eqb text "forbidden" then inr OE_Forbidden
      else inl (MemberError "intent document.object" "existence" "is not recognized")
  end.

Definition DecodeIntentObject (limits : RuntimeLimits) (entry : Value) : Decoded (string * IntentObject) :=
  let what := "intent document.object" in
  let? m := object_of entry "intent document: object must be an object" in
  check CheckMembers m ["id"; "existence"; "fields"] what then
  check CheckMemberKinds m [("id", MK_Text); ("existence", MK_Text); ("fields", MK_Sequence)] what then
  let? id := required_identity m "id" what in
  let? existence := existence_of m in
  let? fields := bounded_list m "fields" what (max_fields_per_object limits) RC_LimitFieldsExceeded
                   "intent field count exceeds the envelope" in
  let? decoded := decode_entries (DecodeIntentField limits) fields in
  inr (id, mkIntentObject id existence decoded).

Definition required_authority (m : VMap) (what : string) : Decoded IntentAuthority :=
  let? text := RequireString m "authority" what in
  match TryParseIntentAuthority (c_str text) with
  | Some authority => inr authority
  | None => inl (MemberError what "authority" "is not recognized")
  end.

Definition DecodeIntentDocument (value : Value) (limits : RuntimeLimits) : Decoded IntentGenerationDocument :=
  let what := "intent document" in
  let? root := RequireObject value what in
  check CheckMembers root intent_members what then
  check CheckMemberKinds root intent_kinds what then
  check RequireSchema root "ndo/intent-generation/1" what then
  let? target := required_identity root "target" what in
  let? generation := RequireUint root "generation" what in
  let? epoch := RequireUint root "epoch" what in
  let? authority := required_authority root what in
  let? policy := required_identity root "policy" what in
  let? authored_at := required_time root "authored_at" what in
  let? evidence := optional_enum TryParseEvidenceClass EC_Unknown root "evidence" what in
  let? objects := bounded_list root "objects" what (max_objects_per_target limits) RC_LimitObjectsExceeded
                    "intent object count exceeds the envelope" in
  let? decoded := decode_entries (DecodeIntentObject limits) objects in
  let document := mkIntentDocument target generation epoch authority policy authored_at decoded evidence in
  check Intent_Validate limits document then inr document.

(** ** Observations *)

Definition observation_members : list string :=
  ["schema"; "source"; "epoch"; "incarnation"; "sequence"; "target"; "collected_at"; "ttl_nanos";
   "coverage"; "evidence"; "unobserved"; "capabilities"; "objects"; "snapshot_id"].
Definition observation_kinds : list (string * MemberKind) :=
  [("source", MK_Text); ("epoch", MK_Integer); ("incarnation", MK_Integer); ("sequence", MK_Integer);
   ("target", MK_Text); ("collected_at", MK_Text); ("ttl_nanos", MK_Integer); ("coverage", MK_Text);
   ("evidence", MK_Text); ("unobserved", MK_Sequence); ("capabilities", MK_Object);
   ("objects", MK_Sequence); ("snapshot_id", MK_Text)].

Definition EncodeObservedObject (entry : string * ObservedObject) : Value :=
  V_Map (make_map [("id", V_String (fst entry));
                   ("presence", V_String (ToText_ObjectPresence (ob_presence (snd entry))));
                   ("fields", V_List (map (fun field => EncodeField (fst field) (snd field))
                                        (ob_fields (snd entry))))]).

Definition EncodeObservationDocument (snapshot : ObservationSnapshot) : Value :=
  V_Map (make_map [("schema", V_String "ndo/observation/1");
                   ("source", V_String (snap_source snapshot));
                   ("epoch", MakeUint (snap_epoch snapshot));
                   ("incarnation", MakeUint (snap_incarnation snapshot));
                   ("sequence", MakeUint (snap_sequence snapshot));
                   ("target", V_String (snap_target snapshot));
                   ("collected_at", V_String (FormatTime (snap_collected_at snapshot)));
                   ("ttl_nanos", V_Int (snap_ttl_nanos snapshot));
                   ("coverage", V_String (ToText_ObservationCoverage (snap_coverage snapshot)));
                   ("evidence", V_String (ToText_EvidenceClass (snap_evidence snapshot)));
                   ("unobserved", V_List (map V_String (snap_unobserved snapshot)));
                   ("capabilities", EncodeCapabilities (snap_capabilities snapshot));
                   ("objects", V_List (map EncodeObservedObject (snap_objects snapshot)))]).

Definition DecodeObservedField (limits : RuntimeLimits) (entry : Value) : Decoded (FieldPath * Value) :=
  let what := "observation document.field" in
  let? m := object_of entry "observation document: field must be an object" in
  check CheckMembers m ["path"; "value"] what then
  check CheckMemberKinds m [("path", MK_Text)] what then
  let? path := DecodeFieldPath m limits what in
  let? raw := required_member m "value" what in
  inr (path, raw).

Definition DecodeObservedObject (limits : RuntimeLimits) (entry : Value) : Decoded (string * ObservedObject) :=
  let what := "observation document.object" in
  let? m := object_of entry "observation document: object must be an object" in
  check CheckMembers m ["id"; "presence"; "fields"] what then
  check CheckMemberKinds m [("id", MK_Text); ("presence", MK_Text); ("fields", MK_Sequence)] what then
  let? id := required_identity m "id" what in
  let? presence := optional_enum TryParseObjectPresence OP_Unknown m "presence" what in
  let? fields := bounded_list m "fields" what (max_fields_per_object limits) RC_LimitFieldsExceeded
                   "observed field count exceeds the envelope" in
  let? decoded := decode_entries (DecodeObservedField limits) fields in
  inr (id, mkObservedObject id presence decoded).

Definition ttl_of (m : VMap) (what : string) : Decoded Z :=
  match OptionalInt m "ttl_nanos" with
  | None => inr 0
  | Some ttl => if ttl <? 0 then inl (MemberError what "ttl_nanos" "must not be negative") else inr ttl
  end.

Definition unobserved_entry (what : string) (entry : Value) : Decoded string :=
  match as_string entry with
  | None => inl (MemberError what "unobserved" "entries must be strings")
  | Some text =>
      if IsValidIdentityText text then inr text
      else inl (MemberError what "unobserved" "entry is not a valid identity")
  end.

Definition unobserved_of (m : VMap) (what : string) : Decoded (list string) :=
  match FindMember m "unobserved" with
  | None => inr []
  | Some member =>
      match as_list member with
      | None => inl (MemberError what "unobserved" "must be a sequence")
      | Some l => dmap (unobserved_entry what) l
      end
  end.

(** The identity is computed; a declared one has to agree with it. *)
Definition declared_identity_agrees (m : VMap) (snapshot : ObservationSnapshot) : Status :=
  match OptionalString m "snapshot_id" with
  | Some declared =>
      if String.eqb declared (ComputeSnapshotId snapshot) then Status_Ok
      else Status_Rejected RC_LedgerIntegrityDigestMismatch
             "declared snapshot identity does not match observation content"
  | None => Status_Ok
  end.

Definition DecodeObservationDocument (value : Value) (limits : RuntimeLimits) : Decoded ObservationSnapshot :=
  let what := "observation document" in
  let? root := RequireObject value what in
  check CheckMembers root observation_members what then
  check CheckMemberKinds root observation_kinds what then
  check RequireSchema root "ndo/observation/1" what then
  let? source := required_identity root "source" what in
  let? epoch := RequireUint root "epoch" what in
  let? incarnation := RequireUint root "incarnation" what in
  let? sequence := RequireUint root "sequence" what in
  let? target := required_identity root "target" what in
  let? collected_at := required_time root "collected_at" what in
  let? ttl := ttl_of root what in
  let? coverage := optional_enum TryParseObservationCoverage OC_Unknown root "coverage" what in
  let? evidence := optional_enum TryParseEvidenceClass EC_Unknown root "evidence" what in
  let? unobserved := unobserved_of root what in
  let? capabilities := document_capabilities root what in
  let? objects := bounded_list root "objects" what (max_objects_per_target limits) RC_LimitObjectsExceeded
                    "observation object count exceeds the envelope" in
  let? decoded := decode_entries (DecodeObservedObject limits) objects in
  let snapshot := mkSnapshot "" source epoch incarnation sequence target collected_at 0 ttl coverage
                    unobserved decoded capabilities evidence in
  let snapshot := snapshot <| snap_id := ComputeSnapshotId snapshot |> in
  check declared_identity_agrees root snapshot then
  check Snapshot_Validate limits snapshot then
  inr snapshot.

(** ** Source descriptors *)

Definition descriptor_members : list string :=
  ["schema"; "id"; "epoch"; "incarnation"; "registered_at"; "provenance"; "evidence"; "capabilities"].
Definition descriptor_kinds : list (string * MemberKind) :=
  [("id", MK_Text); ("epoch", MK_Integer); ("incarnation", MK_Integer); ("registered_at", MK_Text);
   ("provenance", MK_Text); ("evidence", MK_Text); ("capabilities", MK_Object)].

Definition EncodeSourceDescriptor (descriptor : SourceDescriptor) : Value :=
  V_Map (make_map [("schema", V_String "ndo/source/1");
                   ("id", V_String (sd_id descriptor));
                   ("epoch", MakeUint (sd_epoch descriptor));
                   ("incarnation", MakeUint (sd_incarnation descriptor));
                   ("registered_at", V_String (FormatTime (sd_registered_at descriptor)));
                   ("provenance", V_String (sd_provenance descriptor));
                   ("evidence", V_String (ToText_EvidenceClass (sd_evidence descriptor)));
                   ("capabilities", EncodeCapabilities (sd_capabilities descriptor))]).

Definition registered_at_of (m : VMap) (what : string) : Decoded NdoTime :=
  match OptionalString m "registered_at" with
  | None => inr 0
  | Some text =>
      match TryParseTime text with
      | Some time => inr time
      | None => inl (MemberError what "registered_at" "is not an RFC 3339 timestamp")
      end
  end.

Definition DecodeSourceDescriptor (value : Value) (limits : RuntimeLimits) : Decoded SourceDescriptor :=
  let what := "source descriptor" in
  let? root := RequireObject value what in
  check CheckMembers root descriptor_members what then
  check CheckMemberKinds root descriptor_kinds what then
  check RequireSchema root "ndo/source/1" what then
  let? id := required_identity root "id" what in
  let? epoch := RequireUint root "epoch" what in
  let? incarnation := RequireUint root "incarnation" what in
  let? registered_at := registered_at_of root what in
  let? provenance := bounded_text limits root "provenance" "provenance exceeds the envelope" in
  let? evidence := optional_enum TryParseEvidenceClass EC_Unknown root "evidence" what in
  let? capabilities := document_capabilities root what in
  if negb (uint_is_set epoch) || negb (uint_is_set incarnation)
  then inl (Status_Rejected RC_FencedStaleIncarnation
              "source descriptor must declare its epoch and incarnation")
  else inr (mkSourceDescriptor id capabilities registered_at epoch incarnation provenance evidence).

(** ** From text *)

Definition parse_document {A} (decode : Value -> RuntimeLimits -> Decoded A) (text : string)
    (limits : RuntimeLimits) : Decoded A :=
  let '(status, value) := ParseJson text limits V_Null in
  check status then decode value limits.

Definition ParseIntentJson : string -> RuntimeLimits -> Decoded IntentGenerationDocument :=
  parse_document DecodeIntentDocument.
Definition ParseObservationJson : string -> RuntimeLimits -> Decoded ObservationSnapshot :=
  parse_document DecodeObservationDocument.

(** ** Facts: members *)

Lemma CheckMemberKinds_make_map l kinds what :
  Forall (fun e : string * MemberKind =>
    match mfind (fst e) l with Some v => MemberHasKind v (snd e) = true | None => True end) kinds ->
  CheckMemberKinds (make_map l) kinds what = Status_Ok.
Proof.
  induction 1 as [|[name k] kinds Hk _ IH]; [done|]. cbn [CheckMemberKinds fst snd] in *.
  rewrite FindMember_make_map. destruct (mfind name l); [by rewrite Hk|done].
Qed.

Lemma MakeUint_integer v : MemberHasKind (MakeUint v) MK_Integer = true.
Proof. unfold MakeUint. by destruct (_ <=? _). Qed.

(** A built document passes the checks of its members and of their kinds. *)
Ltac checked_members :=
  rewrite ?CheckMembers_make_map by reflexivity;
  rewrite CheckMemberKinds_make_map by
    (repeat (apply Forall_cons; split; [cbn [fst snd]; read_members; first [reflexivity | apply MakeUint_integer | exact I]|]);
     apply Forall_nil_2);
  unfold checked; change (status_ok Status_Ok) with true; cbv iota; cbn [dbind].

Lemma dmap_map {A B C} (f : B -> Decoded C) (g : A -> B) (h : A -> C) l :
  Forall (fun x => f (g x) = inr (h x)) l -> dmap f (map g l) = inr (map h l).
Proof. induction 1 as [|x l Hx _ IH]; [done|]. cbn [map dmap]. rewrite Hx. cbn [dbind]. by rewrite IH. Qed.

Lemma decode_entries_map {K V} `{Ordered K} (f : Value -> Decoded (K * V)) (g : K * V -> Value) (m : omap K V) :
  msorted m -> Forall (fun e => f (g e) = inr e) m -> decode_entries f (map g m) = inr m.
Proof.
  intros Hs Hm. unfold decode_entries. rewrite (dmap_map f g id) by exact Hm. cbn [dbind].
  rewrite map_id. by rewrite emplace_all_sorted.
Qed.

Lemma bounded_list_ok m name what limit reason complaint l :
  FindMember m name = Some (V_List l) -> vsize l <= limit ->
  bounded_list m name what limit reason complaint = inr l.
Proof.
  intros Hm Hl. unfold bounded_list, RequireList, Require. rewrite Hm. cbn [as_list dbind].
  by rewrite (proj2 (Z.ltb_ge _ _)).
Qed.

Lemma required_identity_ok m name what text :
  FindMember m name = Some (V_String text) -> IsValidIdentityText text = true ->
  required_identity m name what = inr text.
Proof.
  intros Hm Hv. unfold required_identity, RequireString, Require. rewrite Hm. by apply identity_of_valid.
Qed.

Lemma required_uint_ok m name what v : FindMember m name = Some (MakeUint v) -> is_u64 v ->
  RequireUint m name what = inr v.
Proof.
  intros Hm [Hv _]. unfold RequireUint, Require. rewrite Hm. by rewrite as_unsigned_MakeUint.
Qed.

(** A time from the epoch on is read back from its text. *)
Lemma required_time_ok m name what t : FindMember m name = Some (V_String (FormatTime t)) ->
  0 <= t <= INT64_MAX -> required_time m name what = inr t.
Proof.
  intros Hm Ht. unfold required_time, RequireString, Require. rewrite Hm. cbn [as_string dbind].
  rewrite FormatTime_reads_back by (unfold is_i64, INT64_MIN; lia). unfold reread_time.
  by rewrite (proj2 (Z.ltb_ge t 0)) by lia.
Qed.

Lemma optional_enum_ok {T} (parse : string -> option T) missing m name what text x :
  FindMember m name = Some (V_String text) -> parse (c_str text) = Some x ->
  optional_enum parse missing m name what = inr x.
Proof. intros Hm Hp. unfold optional_enum, OptionalString, Optional. rewrite Hm. cbn [as_string]. by rewrite Hp. Qed.

(** The member of a built map, by evaluation. *)
Ltac found := rewrite FindMember_make_map; reflexivity.

Lemma document_capabilities_ok m what c : FindMember m "capabilities" = Some (EncodeCapabilities c) ->
  document_capabilities m what = inr c.
Proof.
  intros Hm. unfold document_capabilities. rewrite Hm. unfold EncodeCapabilities. cbn [as_map].
  checked_members. apply capabilities_read.
Qed.

(** A path that has a spelling inside the limits. *)
Definition path_spelled (limits : RuntimeLimits) (p : FieldPath) : Prop :=
  Forall (segment_ok (max_path_key_bytes limits)) p /\ vsize p <= max_path_segments limits /\
  ssize (FieldPath_ToText p) <=
    wrap64 (max_path_segments limits * wrap64 (max_path_key_bytes limits + 4)).

Lemma DecodeFieldPath_ok m limits what p : FindMember m "path" = Some (V_String (FieldPath_ToText p)) ->
  path_spelled limits p -> DecodeFieldPath m limits what = inr p.
Proof.
  intros Hm (Hs & Hn & Hl). unfold DecodeFieldPath, RequireString, Require. rewrite Hm. cbn [as_string dbind].
  by rewrite FieldPath_TryParse_ToText.
Qed.

Lemma RequireSchema_ok m schema what : FindMember m "schema" = Some (V_String schema) ->
  RequireSchema m schema what = Status_Ok.
Proof. intros Hm. unfold RequireSchema, RequireString, Require. rewrite Hm. cbn [as_string]. by rewrite String.eqb_refl. Qed.

(** ** Facts: observations *)

(** What validation knows of the entries of a snapshot. *)
Lemma Snapshot_Validate_entries limits s : status_ok (Snapshot_Validate limits s) = true ->
  Forall (fun id => IsValidIdentityText id = true) (snap_unobserved s) /\
  Forall (fun e => IsValidIdentityText (fst e) = true /\
                   vsize (ob_fields (snd e)) <= max_fields_per_object limits) (snap_objects s).
Proof.
  unfold Snapshot_Validate. rewrite !passed_guard, and_then_ok, andb_true_iff, for_status_ok by done.
  intros (_ & _ & _ & _ & _ & _ & _ & _ & Hu & _ & Ho & _). split.
  - apply negb_false_iff in Hu. rewrite forallb_forall in Hu. apply Forall_forall.
    intros x Hx. by apply Hu, list_elem_of_In.
  - eapply Forall_impl; [exact Ho|]. intros [id o]. unfold validate_observed_object.
    rewrite !passed_guard by done. cbn [fst snd]. intros (Hid & _ & Hn & _).
    split; [by apply negb_false_iff|by apply Z.ltb_ge].
Qed.

(** A snapshot in the shape the runtime keeps: counters of their width, a time
    from the epoch on, maps in key order and paths that have a spelling. *)
Record snapshot_shape (limits : RuntimeLimits) (s : ObservationSnapshot) : Prop := {
  shape_epoch : is_u64 (snap_epoch s);
  shape_incarnation : is_u64 (snap_incarnation s);
  shape_sequence : is_u64 (snap_sequence s);
  shape_time : 0 <= snap_collected_at s <= INT64_MAX;
  shape_objects : msorted (snap_objects s);
  shape_entries : Forall (fun e => ob_id (snd e) = fst e /\ msorted (ob_fields (snd e)) /\
                    Forall (fun f => path_spelled limits (fst f)) (ob_fields (snd e))) (snap_objects s)
}.

Lemma DecodeObservedField_ok limits f : path_spelled limits (fst f) ->
  DecodeObservedField limits (EncodeField (fst f) (snd f)) = inr f.
Proof.
  intros Hp. unfold DecodeObservedField, EncodeField. cbn [object_of as_map dbind]. checked_members.
  rewrite (DecodeFieldPath_ok _ _ _ (fst f)) by (found || done). cbn [dbind].
  unfold required_member. rewrite FindMember_make_map. by destruct f.
Qed.

Lemma presence_reads p : TryParseObjectPresence (c_str (ToText_ObjectPresence p)) = Some p.
Proof. by destruct p. Qed.

Lemma coverage_reads c : TryParseObservationCoverage (c_str (ToText_ObservationCoverage c)) = Some c.
Proof. by destruct c. Qed.

Lemma DecodeObservedObject_ok limits e : IsValidIdentityText (fst e) = true ->
  vsize (ob_fields (snd e)) <= max_fields_per_object limits -> ob_id (snd e) = fst e ->
  msorted (ob_fields (snd e)) -> Forall (fun f => path_spelled limits (fst f)) (ob_fields (snd e)) ->
  DecodeObservedObject limits (EncodeObservedObject e) = inr e.
Proof.
  intros Hid Hn Hk Hs Hp. unfold DecodeObservedObject, EncodeObservedObject. cbn [object_of as_map dbind].
  checked_members. rewrite (required_identity_ok _ _ _ (fst e)) by (found || done). cbn [dbind].
  rewrite (optional_enum_ok _ _ _ _ _ _ (ob_presence (snd e))) by (found || apply presence_reads).
  cbn [dbind]. erewrite bounded_list_ok; [|found|unfold vsize in *; by rewrite length_map]. cbn [dbind].
  rewrite decode_entries_map; [|done|eapply Forall_impl; [exact Hp|intros f; apply DecodeObservedField_ok]].
  cbn [dbind]. destruct e as [id [oid presence fields]]. cbn [fst snd ob_id] in *. by subst.
Qed.

Lemma unobserved_ok m what ids : FindMember m "unobserved" = Some (V_List (map V_String ids)) ->
  Forall (fun id => IsValidIdentityText id = true) ids -> unobserved_of m what = inr ids.
Proof.
  intros Hm Hv. unfold unobserved_of. rewrite Hm. cbn [as_list].
  rewrite (dmap_map _ V_String id); [by rewrite map_id|]. eapply Forall_impl; [exact Hv|].
  intros x Hx. cbn. by rewrite Hx.
Qed.

(** The identity and the validation do not look at the local receive time. *)
Lemma received_irrelevant limits s t :
  ComputeSnapshotId (s <| snap_received_at := t |>) = ComputeSnapshotId s /\
  Snapshot_Validate limits (s <| snap_received_at := t |>) = Snapshot_Validate limits s.
Proof. by destruct s. Qed.

Lemma DecodeObservation_Encode limits s : snapshot_shape limits s ->
  status_ok (Snapshot_Validate limits s) = true ->
  DecodeObservationDocument (EncodeObservationDocument s) limits = inr (s <| snap_received_at := 0 |>).
Proof.
  intros [He Hi Hq Ht Hs Hent] Hval.
  destruct (Snapshot_Validate_ok limits s Hval) as (_ & _ & _ & Httl & _ & Hsrc & Htgt & Hn & _ & Hid).
  destruct (Snapshot_Validate_entries limits s Hval) as [Hun Hobj].
  unfold DecodeObservationDocument, EncodeObservationDocument. cbn [RequireObject as_map dbind].
  checked_members. rewrite RequireSchema_ok by found. cbv iota.
  rewrite (required_identity_ok _ "source" _ (snap_source s)) by (found || done). cbn [dbind].
  rewrite (required_uint_ok _ "epoch" _ (snap_epoch s)) by (found || done). cbn [dbind].
  rewrite (required_uint_ok _ "incarnation" _ (snap_incarnation s)) by (found || done). cbn [dbind].
  rewrite (required_uint_ok _ "sequence" _ (snap_sequence s)) by (found || done). cbn [dbind].
  rewrite (required_identity_ok _ "target" _ (snap_target s)) by (found || done). cbn [dbind].
  rewrite (required_time_ok _ "collected_at" _ (snap_collected_at s)) by (found || done). cbn [dbind].
  assert (forall m, FindMember m "ttl_nanos" = Some (V_Int (snap_ttl_nanos s)) ->
    ttl_of m "observation document" = inr (snap_ttl_nanos s)) as Httl_ok.
  { intros m Hm. unfold ttl_of, OptionalInt, Optional. rewrite Hm. cbn [as_signed].
    by rewrite (proj2 (Z.ltb_ge _ _)). }
  rewrite Httl_ok by found. cbn [dbind].
  rewrite (optional_enum_ok _ _ _ _ _ _ (snap_coverage s)) by (found || apply coverage_reads). cbn [dbind].
  rewrite (optional_enum_ok _ _ _ _ _ _ (snap_evidence s)) by (found || apply evidence_text_reads).
  cbn [dbind]. rewrite (unobserved_ok _ _ (snap_unobserved s)) by (found || done). cbn [dbind].
  rewrite (document_capabilities_ok _ _ (snap_capabilities s)) by found. cbn [dbind].
  erewrite bounded_list_ok; [|found|unfold vsize in *; by rewrite length_map]. cbn [dbind].
  rewrite decode_entries_map; [|done|].
  2: { rewrite !Forall_forall in *. intros e Hin. destruct (Hobj e Hin), (Hent e Hin) as (? & ? & ?).
       by apply DecodeObservedObject_ok. }
  cbn [dbind]. unfold declared_identity_agrees, OptionalString, Optional. rewrite FindMember_make_map.
  match goal with |- context [mfind "snapshot_id" ?l] => change (mfind "snapshot_id" l) with (@None Value) end.
  cbv iota. change (status_ok Status_Ok) with true. cbv iota.
  assert (E : forall s0, s0 = s <| snap_id := "" |> <| snap_received_at := 0 |> ->
    s0 <| snap_id := ComputeSnapshotId s0 |> = s <| snap_received_at := 0 |>).
  { intros s0 ->. destruct s. cbn in *. by rewrite Hid at 2. }
  match goal with |- context [ComputeSnapshotId ?x] => rewrite (E x) by (by destruct s) end.
  rewrite (proj2 (received_irrelevant limits s 0)), Hval. reflexivity.
Qed.

(** ** Facts: intent *)

Lemma Intent_Validate_ok limits d : status_ok (Intent_Validate limits d) = true ->
  IsValidIdentityText (doc_target d) = true /\ doc_generation d <> 0 /\ doc_epoch d <> 0 /\
  IsValidIdentityText (doc_policy d) = true /\ doc_authority d <> IA_Unknown /\
  vsize (doc_objects d) <= max_objects_per_target limits /\
  Forall (fun e => IsValidIdentityText (fst e) = true /\
                   vsize (io_fields (snd e)) <= max_fields_per_object limits) (doc_objects d).
Proof.
  unfold Intent_Validate, uint_is_set. rewrite !passed_guard, for_status_ok by done.
  intros (Ht & Hg & He & Hp & Ha & Hn & Ho). apply orb_false_iff in Hp as [_ Hp].
  apply eqb_neq in Ha. breflect. repeat (split; [assumption|]).
  eapply Forall_impl; [exact Ho|]. intros [id o]. unfold validate_intent_object.
  rewrite !passed_guard by done. cbn [fst snd]. intros (Hid & Hf & _).
  split; [by apply negb_false_iff|by apply Z.ltb_ge].
Qed.

Record intent_shape (limits : RuntimeLimits) (d : IntentGenerationDocument) : Prop := {
  shape_generation : is_u64 (doc_generation d);
  shape_intent_epoch : is_u64 (doc_epoch d);
  shape_authored : 0 <= doc_authored_at d <= INT64_MAX;
  shape_intent_objects : msorted (doc_objects d);
  shape_intent_entries : Forall (fun e => io_id (snd e) = fst e /\ msorted (io_fields (snd e)) /\
    Forall (fun f => if_path (snd f) = fst f /\ path_spelled limits (fst f)) (io_fields (snd e)))
    (doc_objects d)
}.

Lemma comparability_reads c : TryParseFieldComparability (c_str (ToText_FieldComparability c)) = Some c.
Proof. by destruct c. Qed.

Lemma authority_reads a : TryParseIntentAuthority (c_str (ToText_IntentAuthority a)) = Some a.
Proof. by destruct a. Qed.

Lemma DecodeIntentField_ok limits f : if_path (snd f) = fst f -> path_spelled limits (fst f) ->
  DecodeIntentField limits (EncodeIntentField f) = inr f.
Proof.
  intros Hk Hp. unfold DecodeIntentField, EncodeIntentField. cbn [object_of as_map dbind]. checked_members.
  rewrite (DecodeFieldPath_ok _ _ _ (fst f)) by (found || done). cbn [dbind].
  unfold required_member. rewrite FindMember_make_map.
  match goal with |- context [mfind "value" ?l] => change (mfind "value" l) with (Some (if_intended (snd f))) end.
  cbn [dbind].
  rewrite (optional_enum_ok _ _ _ _ _ _ (if_comparability (snd f))) by (found || apply comparability_reads).
  cbn [dbind]. destruct f as [p [q i c]]. cbn [fst snd if_path] in *. by subst.
Qed.

Lemma existence_reads m o : FindMember m "existence" = Some (V_String (ToText_ObjectExistence o)) ->
  existence_of m = inr o.
Proof. intros Hm. unfold existence_of, OptionalString, Optional. rewrite Hm. by destruct o. Qed.

Lemma DecodeIntentObject_ok limits e : IsValidIdentityText (fst e) = true ->
  vsize (io_fields (snd e)) <= max_fields_per_object limits -> io_id (snd e) = fst e ->
  msorted (io_fields (snd e)) ->
  Forall (fun f => if_path (snd f) = fst f /\ path_spelled limits (fst f)) (io_fields (snd e)) ->
  DecodeIntentObject limits (EncodeIntentObject e) = inr e.
Proof.
  intros Hid Hn Hk Hs Hp. unfold DecodeIntentObject, EncodeIntentObject. cbn [object_of as_map dbind].
  checked_members. rewrite (required_identity_ok _ _ _ (fst e)) by (found || done). cbn [dbind].
  rewrite (existence_reads _ (io_existence (snd e))) by found. cbn [dbind].
  erewrite bounded_list_ok; [|found|unfold vsize in *; by rewrite length_map]. cbn [dbind].
  rewrite decode_entries_map; [|done|eapply Forall_impl; [exact Hp|intros f [? ?]; by apply DecodeIntentField_ok]].
  cbn [dbind]. destruct e as [id [oid existence fields]]. cbn [fst snd io_id] in *. by subst.
Qed.

Lemma DecodeIntent_Encode limits d : intent_shape limits d ->
  status_ok (Intent_Validate limits d) = true ->
  DecodeIntentDocument (EncodeIntentDocument d) limits = inr d.
Proof.
  intros [Hg He Ht Hs Hent] Hval.
  destruct (Intent_Validate_ok limits d Hval) as (Htgt & _ & _ & Hpol & _ & Hn & Hobj).
  unfold DecodeIntentDocument, EncodeIntentDocument. cbn [RequireObject as_map dbind].
  checked_members. rewrite RequireSchema_ok by found. cbv iota.
  rewrite (required_identity_ok _ "target" _ (doc_target d)) by (found || done). cbn [dbind].
  rewrite (required_uint_ok _ "generation" _ (doc_generation d)) by (found || done). cbn [dbind].
  rewrite (required_uint_ok _ "epoch" _ (doc_epoch d)) by (found || done). cbn [dbind].
  assert (forall m, FindMember m "authority" = Some (V_String (ToText_IntentAuthority (doc_authority d))) ->
    required_authority m "intent document" = inr (doc_authority d)) as Ha.
  { intros m Hm. unfold required_authority, RequireString, Require. rewrite Hm. cbn [as_string dbind].
    by rewrite authority_reads. }
  rewrite Ha by found. cbn [dbind].
  rewrite (required_identity_ok _ "policy" _ (doc_policy d)) by (found || done). cbn [dbind].
  rewrite (required_time_ok _ "authored_at" _ (doc_authored_at d)) by (found || done). cbn [dbind].
  rewrite (optional_enum_ok _ _ _ _ _ _ (doc_evidence d)) by (found || apply evidence_text_reads).
  cbn [dbind]. erewrite bounded_list_ok; [|found|unfold vsize in *; by rewrite length_map]. cbn [dbind].
  rewrite decode_entries_map; [|done|].
  2: { rewrite !Forall_forall in *. intros e Hin. destruct (Hobj e Hin), (Hent e Hin) as (? & ? & ?).
       by apply DecodeIntentObject_ok. }
  cbn [dbind]. match goal with |- context [Intent_Validate limits ?x] => replace x with d by (by destruct d) end.
  by rewrite Hval.
Qed.

(** ** Facts: source descriptors *)

Record descriptor_ok (limits : RuntimeLimits) (s : SourceDescriptor) : Prop := {
  sd_id_ok : IsValidIdentityText (sd_id s) = true;
  sd_epoch_ok : is_u64 (sd_epoch s) /\ sd_epoch s <> 0;
  sd_incarnation_ok : is_u64 (sd_incarnation s) /\ sd_incarnation s <> 0;
  sd_time_ok : 0 <= sd_registered_at s <= INT64_MAX;
  sd_provenance_ok : ssize (sd_provenance s) <= max_leaf_bytes limits
}.

Lemma DecodeSourceDescriptor_Encode limits s : descriptor_ok limits s ->
  DecodeSourceDescriptor (EncodeSourceDescriptor s) limits = inr s.
Proof.
  intros [Hid [He He0] [Hi Hi0] Ht Hp]. unfold DecodeSourceDescriptor, EncodeSourceDescriptor.
  cbn [RequireObject as_map dbind]. checked_members. rewrite RequireSchema_ok by found. cbv iota.
  rewrite (required_identity_ok _ "id" _ (sd_id s)) by (found || done). cbn [dbind].
  rewrite (required_uint_ok _ "epoch" _ (sd_epoch s)) by (found || done). cbn [dbind].
  rewrite (required_uint_ok _ "incarnation" _ (sd_incarnation s)) by (found || done). cbn [dbind].
  assert (forall m, FindMember m "registered_at" = Some (V_String (FormatTime (sd_registered_at s))) ->
    registered_at_of m "source descriptor" = inr (sd_registered_at s)) as Hreg.
  { intros m Hm. unfold registered_at_of, OptionalString, Optional. rewrite Hm. cbn [as_string].
    rewrite FormatTime_reads_back by (unfold is_i64, INT64_MIN; lia). unfold reread_time.
    by rewrite (proj2 (Z.ltb_ge _ 0)) by lia. }
  rewrite Hreg by found. cbn [dbind].
  rewrite (bounded_text_ok limits _ "provenance" _ (sd_provenance s)); [|decode_members; done|done].
  cbn [dbind]. rewrite (optional_enum_ok _ _ _ _ _ _ (sd_evidence s)) by (found || apply evidence_text_reads).
  cbn [dbind]. rewrite (document_capabilities_ok _ _ (sd_capabilities s)) by found. cbn [dbind].
  unfold uint_is_set. rewrite (proj2 (Z.eqb_neq _ _) He0), (proj2 (Z.eqb_neq _ _) Hi0). by destruct s.
Qed.

(** ** Facts: documents that can be written *)

Definition ascii_text (s : string) : Prop := Forall (fun c => byte_of c < 0x80) (list_ascii_of_string s).

Lemma ascii_append s t : ascii_text s -> ascii_text t -> ascii_text (s +:+ t).
Proof.
  unfold ascii_text. intros Hs Ht. induction s as [|c s IH]; [done|]. cbn in Hs |- *.
  apply Forall_cons in Hs as [Hc Hs]. constructor; auto.
Qed.

Lemma digit_ascii d : 0 <= d < 10 -> byte_of (digit_char d) < 0x80.
Proof.
  intros Hd. assert (Hin : d ∈ seqZ 0 10) by (apply elem_of_seqZ; lia). clear Hd. revert d Hin.
  apply Forall_forall. by repeat constructor.
Qed.

Lemma dec_digits_ascii fuel : forall n acc, ascii_text acc -> ascii_text (dec_digits fuel n acc).
Proof.
  induction fuel as [|fuel IH]; intros n acc Ha; [done|]. cbn [dec_digits].
  assert (ascii_text (String (digit_char (n mod 10)) acc))
    by (constructor; [apply digit_ascii, Z.mod_pos_bound; lia|done]).
  destruct (n <? 10); auto.
Qed.

Lemma zeros_ascii n : ascii_text (zeros n).
Proof. induction n; by constructor. Qed.

Lemma printf_padded_ascii w z : ascii_text (printf_padded w z).
Proof.
  assert (H : forall n, ascii_text (to_string_unsigned n)) by (intros; apply dec_digits_ascii; constructor).
  unfold printf_padded. destruct (z <? 0); [constructor; [done|]|]; by apply ascii_append; [apply zeros_ascii|].
Qed.

(** The text of a time is 7-bit text. *)
Lemma FormatTime_utf8 t : IsValidUtf8 (FormatTime t) = true.
Proof.
  apply ascii_utf8. change (ascii_text (FormatTime t)). unfold FormatTime.
  destruct (if _ <? 0 then _ else _) as [seconds fraction]. destruct (CivilFromDays _) as [[y m] d].
  repeat first [apply ascii_append | apply printf_padded_ascii | by repeat constructor].
Qed.

(** The values a document carries can be written, and its paths are UTF-8. *)
Definition field_writable (p : FieldPath) (v : Value) : Prop :=
  IsValidUtf8 (FieldPath_ToText p) = true /\ writable v.

Lemma EncodeCapabilities_writable c : writable (EncodeCapabilities c).
Proof. unfold EncodeCapabilities. writable_members. apply utf8_evidence. Qed.

Lemma EncodeObservation_writable limits s : snapshot_shape limits s ->
  status_ok (Snapshot_Validate limits s) = true -> is_i64 (snap_ttl_nanos s) ->
  Forall (fun e => Forall (fun f => field_writable (fst f) (snd f)) (ob_fields (snd e))) (snap_objects s) ->
  writable (EncodeObservationDocument s).
Proof.
  intros [He Hi Hq _ _ _] Hval Httl Hw.
  destruct (Snapshot_Validate_ok limits s Hval) as (_ & _ & _ & _ & _ & Hsrc%identity_utf8 & Htgt%identity_utf8 & _).
  destruct (Snapshot_Validate_entries limits s Hval) as [Hun Hobj].
  pose proof (FormatTime_utf8 (snap_collected_at s)) as Ht.
  unfold EncodeObservationDocument. writable_members.
  - exact Httl.
  - by destruct (snap_coverage s).
  - apply utf8_evidence.
  - apply writable_list_of, Forall_map. eapply Forall_impl; [exact Hun|]. intros id Hid. by apply identity_utf8.
  - apply EncodeCapabilities_writable.
  - apply writable_list_of, Forall_map. rewrite !Forall_forall in *. intros e Hin.
    destruct (Hobj e Hin) as [Hid%identity_utf8 _]. unfold EncodeObservedObject. writable_members.
    + by destruct (ob_presence (snd e)).
    + apply writable_list_of, Forall_map. eapply Forall_impl; [exact (Hw e Hin)|].
      intros f [Hp Hv]. unfold EncodeField. writable_members. exact Hv.
Qed.

Lemma EncodeIntent_writable limits d : intent_shape limits d ->
  status_ok (Intent_Validate limits d) = true ->
  Forall (fun e => Forall (fun f => field_writable (fst f) (if_intended (snd f))) (io_fields (snd e))) (doc_objects d) ->
  writable (EncodeIntentDocument d).
Proof.
  intros [Hg He _ _ _] Hval Hw.
  destruct (Intent_Validate_ok limits d Hval) as (Htgt%identity_utf8 & _ & _ & Hpol%identity_utf8 & _ & _ & Hobj).
  pose proof (FormatTime_utf8 (doc_authored_at d)) as Ht.
  unfold EncodeIntentDocument. writable_members.
  - by destruct (doc_authority d).
  - apply utf8_evidence.
  - apply writable_list_of, Forall_map. rewrite !Forall_forall in *. intros e Hin.
    destruct (Hobj e Hin) as [Hid%identity_utf8 _]. unfold EncodeIntentObject. writable_members.
    + by destruct (io_existence (snd e)).
    + apply writable_list_of, Forall_map. eapply Forall_impl; [exact (Hw e Hin)|].
      intros f [Hp Hv]. unfold EncodeIntentField. writable_members; [exact Hv|].
      by destruct (if_comparability (snd f)).
Qed.

(** A document that fits the parser's envelope. *)
Definition readable_within (limits : RuntimeLimits) (v : Value) : Prop :=
  document_fits limits v /\ ssize (WriteCanonicalJson v) <= max_document_bytes limits.

Lemma parse_document_written {A} (decode : Value -> RuntimeLimits -> Decoded A) limits v :
  writable v -> readable_within limits v ->
  parse_document decode (WriteCanonicalJson v) limits = decode v limits.
Proof. intros Hw [Hf Hn]. unfold parse_document. by rewrite ParseJson_canonical. Qed.

(** One that does not is refused, whatever the decoder. *)
Lemma parse_document_too_large {A} (decode : Value -> RuntimeLimits -> Decoded A) limits v :
  writable v -> ~ readable_within limits v ->
  exists status, parse_document decode (WriteCanonicalJson v) limits = inl status.
Proof.
  intros Hw%WriteCompact_spells Hn. unfold parse_document.
  destruct (ParseJson_too_large limits (WriteCanonicalJson v) v V_Null Hw Hn) as (status & -> & E).
  exists status. unfold checked. by rewrite E.
Qed.

(** What was read of the text of a document [v]: [x] when the document as a whole
    is within the limits of values, and a refusal when it is not. *)
Definition read_within {A} (limits : RuntimeLimits) (v : Value) (answer : Decoded A) (x : A) : Prop :=
  (readable_within limits v -> answer = inr x) /\
  (~ readable_within limits v -> exists status, answer = inl status).

Lemma parse_document_within {A} (decode : Value -> RuntimeLimits -> Decoded A) limits v x :
  writable v -> decode v limits = inr x ->
  read_within limits v (parse_document decode (WriteCanonicalJson v) limits) x.
Proof.
  intros Hw Hd. split; intros Hf; [by rewrite parse_document_written|by apply parse_document_too_large].
Qed.

(** ** Facts: what a decoder accepts *)

(** Splits an accepted decoding into its steps. *)
Ltac decoded H :=
  repeat match type of H with
  | dbind _ _ = inr _ => let x := fresh "x" in let Hx := fresh "Hx" in apply dbind_ok in H as (x & Hx & H)
  | checked _ _ = inr _ => let Hs := fresh "Hs" in apply checked_ok in H as [Hs H]
  end.

Lemma emplace_all_subset {K V} `{Ordered K} (l : list (K * V)) e : In e (emplace_all [] l) -> In e l.
Proof.
  destruct e as [k v]. intros Hin. apply mfind_In.
  pose proof (mfind_In_sorted k v _ (emplace_all_msorted l [] msorted_nil) Hin) as Hf.
  by rewrite mfind_emplace_all in Hf.
Qed.

Lemma decode_entries_ok {K V} `{Ordered K} (f : Value -> Decoded (K * V)) l m : decode_entries f l = inr m ->
  msorted m /\ Forall (fun e => exists entry, f entry = inr e) m.
Proof.
  unfold decode_entries. intros (es & Hes%dmap_ok & [= <-])%dbind_ok.
  split; [apply emplace_all_msorted, msorted_nil|]. apply Forall_forall.
  intros e He%list_elem_of_In%emplace_all_subset%list_elem_of_In%list_elem_of_lookup.
  destruct He as [i Hi]. destruct (Forall2_lookup_r _ _ _ _ _ Hes Hi) as (v & _ & Hv). eauto.
Qed.

Lemma FieldPath_TryParse_spelled limits text p : is_u64 (max_path_segments limits) ->
  FieldPath_TryParse (max_path_segments limits) (max_path_key_bytes limits) text = Some p -> path_spelled limits p.
Proof.
  intros Hu E. pose proof (FieldPath_TryParse_sound _ _ text p Hu E) as (Ht & Hs & Hn).
  split; [done|]. split; [done|]. rewrite Ht. unfold FieldPath_TryParse in E. destruct text as [|c t].
  - unfold ssize, wrap64. cbn. apply Z.mod_pos_bound. lia.
  - destruct (Z.ltb_spec (wrap64 (max_path_segments limits * wrap64 (max_path_key_bytes limits + 4)))
      (ssize (String c t))); [done|lia].
Qed.

Lemma DecodeFieldPath_spelled m limits what p : is_u64 (max_path_segments limits) ->
  DecodeFieldPath m limits what = inr p -> path_spelled limits p.
Proof.
  intros Hu (text & _ & H)%dbind_ok. destruct (FieldPath_TryParse _ _ text) as [q|] eqn:E; [|done].
  injection H as ->. by eapply FieldPath_TryParse_spelled.
Qed.

Lemma DecodeObservedObject_entry limits entry e : is_u64 (max_path_segments limits) ->
  DecodeObservedObject limits entry = inr e ->
  ob_id (snd e) = fst e /\ msorted (ob_fields (snd e)) /\
  Forall (fun f => path_spelled limits (fst f)) (ob_fields (snd e)).
Proof.
  intros Hu H. unfold DecodeObservedObject in H. decoded H. injection H as <-. cbn [fst snd ob_id ob_fields].
  match goal with Hd : decode_entries _ _ = inr _ |- _ => apply decode_entries_ok in Hd as [Hsorted Hall] end.
  split; [done|]. split; [done|]. eapply Forall_impl; [exact Hall|]. intros f [v Hv].
  unfold DecodeObservedField in Hv. decoded Hv. injection Hv as <-. by eapply DecodeFieldPath_spelled.
Qed.

Lemma DecodeObservation_ok value limits s : is_u64 (max_path_segments limits) ->
  DecodeObservationDocument value limits = inr s ->
  status_ok (Snapshot_Validate limits s) = true /\ snap_received_at s = 0 /\
  snap_id s = ComputeSnapshotId s /\ msorted (snap_objects s) /\
  Forall (fun e => ob_id (snd e) = fst e /\ msorted (ob_fields (snd e)) /\
    Forall (fun f => path_spelled limits (fst f)) (ob_fields (snd e))) (snap_objects s) /\
  exists m, value = V_Map m /\ Forall (fun name => name ∈ observation_members) (mkeys m) /\
    (forall declared, mfind "snapshot_id" m = Some (V_String declared) -> declared = snap_id s).
Proof.
  intros Hu H. unfold DecodeObservationDocument in H. cbv zeta in H. decoded H.
  injection H as <-. split; [assumption|]. split; [done|]. split; [done|]. cbn [snap_objects snap_id].
  match goal with Hd : decode_entries _ _ = inr _ |- _ => apply decode_entries_ok in Hd as [Hsorted Hall] end.
  split; [exact Hsorted|]. split.
  { eapply Forall_impl; [exact Hall|]. intros e [v Hv]. by eapply DecodeObservedObject_entry. }
  match goal with Hr : RequireObject _ _ = inr ?m |- _ =>
    exists m; unfold RequireObject in Hr; destruct value; try discriminate Hr;
    cbn [as_map] in Hr; injection Hr as -> end.
  split; [done|]. split; [by eapply CheckMembers_ok|].
  intros declared Hd. match goal with Ha : status_ok (declared_identity_agrees _ _) = true |- _ =>
    unfold declared_identity_agrees, OptionalString, Optional, FindMember in Ha; rewrite Hd in Ha;
    cbn [as_string] in Ha; revert Ha end.
  match goal with |- context [String.eqb declared ?t] => destruct (String.eqb_spec declared t) as [->|] end;
    [reflexivity|done].
Qed.

(** ** Properties *)

(** C24. Documents survive interchange as JSON text: a valid snapshot, encoded
    and written canonically, is read back as itself except for the local receive
    time, which is never taken from a document, and a valid intent generation is
    read back as itself, exactly when the JSON document as a whole is within the
    limits of values (nodes, depth, members of an object, leaf size, bytes), which
    the parser applies to the document and the validation to each value; a valid
    one that is too large as a document is refused.  The records are those of C++
    (counters of their width, entries under their own key, in order) with times
    from the epoch on, values the writer can spell, and paths whose text is within
    the bound on path texts. *)
Theorem documents_round_trip (limits : RuntimeLimits) (s : ObservationSnapshot) (d : IntentGenerationDocument)
    (Hs : snapshot_shape limits s) (Hd : intent_shape limits d)
    (Hvs : status_ok (Snapshot_Validate limits s) = true)
    (Hvd : status_ok (Intent_Validate limits d) = true)
    (Httl : is_i64 (snap_ttl_nanos s))
    (Hws : Forall (fun e => Forall (fun f => field_writable (fst f) (snd f)) (ob_fields (snd e))) (snap_objects s))
    (Hwd : Forall (fun e => Forall (fun f => field_writable (fst f) (if_intended (snd f))) (io_fields (snd e)))
             (doc_objects d)) :
  read_within limits (EncodeObservationDocument s)
    (ParseObservationJson (WriteCanonicalJson (EncodeObservationDocument s)) limits) (s <| snap_received_at := 0 |>) /\
  read_within limits (EncodeIntentDocument d)
    (ParseIntentJson (WriteCanonicalJson (EncodeIntentDocument d)) limits) d.
Proof.
  split; apply parse_document_within;
    eauto using EncodeObservation_writable, EncodeIntent_writable, DecodeObservation_Encode, DecodeIntent_Encode.
Qed.

(** C25. An accepted observation document certifies itself.  Whatever value is
    decoded, the snapshot that comes out has passed the validation of the
    envelope, carries the identity computed from its own content (a declared
    identity had to agree), has no receive time, consists only of declared
    members, and, with counters of their width and a time from the epoch on, is
    what its own canonical encoding decodes to. *)
Theorem DecodeObservation_certifies (limits : RuntimeLimits) (value : Value) (s : ObservationSnapshot)
    (Hu : is_u64 (max_path_segments limits))
    (Hd : DecodeObservationDocument value limits = inr s) :
  status_ok (Snapshot_Validate limits s) = true /\ snap_received_at s = 0 /\
  snap_id s = ComputeSnapshotId s /\
  (exists m, value = V_Map m /\ Forall (fun name => name ∈ observation_members) (mkeys m) /\
     (forall declared, mfind "snapshot_id" m = Some (V_String declared) -> declared = ComputeSnapshotId s)) /\
  (is_u64 (snap_epoch s) -> is_u64 (snap_incarnation s) -> is_u64 (snap_sequence s) ->
   0 <= snap_collected_at s <= INT64_MAX ->
   DecodeObservationDocument (EncodeObservationDocument s) limits = inr s).
Proof.
  destruct (DecodeObservation_ok value limits s Hu Hd) as (Hv & Hr & Hid & Hs & He & m & Hm & Hk & Hdecl).
  split; [done|]. split; [done|]. split; [done|].
  split; [exists m; by rewrite <- Hid|]. intros Hep Hin Hsq Ht.
  rewrite DecodeObservation_Encode by (done || by constructor).
  f_equal. destruct s. cbn in *. by subst.
Qed.

(** ** Witnesses *)

Definition example_fields : omap FieldPath Value :=
  [([PS_Key "mtu"], V_Int 9000); ([PS_Key "ports"; PS_Index 0], V_String "up")].

Definition example_snapshot_draft : ObservationSnapshot :=
  mkSnapshot "" "collector/eth" 3 9 12 "switch-7" 1700000000000000000 55 60000000000 OC_Complete
    ["port/9"] [("port/1", mkObservedObject "port/1" OP_Present example_fields)]
    (mkCapabilities true true true EC_Real) EC_Real.

Definition example_snapshot : ObservationSnapshot :=
  example_snapshot_draft <| snap_id := ComputeSnapshotId example_snapshot_draft |>.

Definition example_intent : IntentGenerationDocument :=
  mkIntentDocument "switch-7" 4 3 IA_IntentFabric "policy/base" 1700000000000000001
    [("port/1", mkIntentObject "port/1" OE_Required
        [([PS_Key "mtu"], mkIntentField [PS_Key "mtu"] (V_Int 9000) FC_Managed)])] EC_Real.

Ltac spelled_path := unfold path_spelled; split; [|split; vm_compute; discriminate];
  repeat constructor; vm_compute; (done || reflexivity || congruence).

Lemma example_snapshot_shape : snapshot_shape default_limits example_snapshot.
Proof.
  constructor.
  - change (is_u64 3). by split.
  - change (is_u64 9). by split.
  - change (is_u64 12). by split.
  - change (0 <= 1700000000000000000 <= INT64_MAX). unfold INT64_MAX. lia.
  - repeat constructor.
  - change (snap_objects example_snapshot) with [("port/1", mkObservedObject "port/1" OP_Present example_fields)].
    apply Forall_singleton. split_and!; [done|repeat constructor|].
    repeat (apply Forall_cons; split; [spelled_path|]). apply Forall_nil_2.
Defined.

Lemma example_intent_shape : intent_shape default_limits example_intent.
Proof.
  constructor.
  - change (is_u64 4). by split.
  - change (is_u64 3). by split.
  - change (0 <= 1700000000000000001 <= INT64_MAX). unfold INT64_MAX. lia.
  - repeat constructor.
  - apply Forall_singleton. split_and!; [done|repeat constructor|].
    apply Forall_singleton. split; [done|spelled_path].
Defined.

Lemma documents_round_trip_witness :
  ParseObservationJson (WriteCanonicalJson (EncodeObservationDocument example_snapshot)) default_limits =
    inr (example_snapshot <| snap_received_at := 0 |>) /\
  ParseIntentJson (WriteCanonicalJson (EncodeIntentDocument example_intent)) default_limits = inr example_intent.
Proof.
  edestruct (documents_round_trip default_limits example_snapshot example_intent
    example_snapshot_shape example_intent_shape) as [[Ho _] [Hi _]].
  - vm_compute. reflexivity.
  - vm_compute. reflexivity.
  - change (is_i64 60000000000). unfold is_i64, INT64_MIN, INT64_MAX. lia.
  - change (snap_objects example_snapshot) with [("port/1", mkObservedObject "port/1" OP_Present example_fields)].
    apply Forall_singleton. repeat (apply Forall_cons; split; [split; [vm_compute; reflexivity|]|]);
      [cbn; unfold is_i64, INT64_MIN, INT64_MAX; lia|vm_compute; reflexivity|apply Forall_nil_2].
  - apply Forall_singleton, Forall_singleton. split; [vm_compute; reflexivity|].
    cbn. unfold is_i64, INT64_MIN, INT64_MAX. lia.
  - split; [apply Ho|apply Hi]; (split; [vm_compute; repeat split; discriminate|vm_compute; discriminate]).
Defined.

(** Under limits with room for the one value of each document, but not for the
    document itself, both are valid and both are refused. *)
Definition tight_limits : RuntimeLimits := default_limits <| max_value_nodes := 16 |>.

Example valid_but_unreadable :
  status_ok (Snapshot_Validate tight_limits example_snapshot) = true /\
  status_ok (Intent_Validate tight_limits example_intent) = true /\
  (exists status, ParseObservationJson (WriteCanonicalJson (EncodeObservationDocument example_snapshot)) tight_limits = inl status) /\
  exists status, ParseIntentJson (WriteCanonicalJson (EncodeIntentDocument example_intent)) tight_limits = inl status.
Proof. vm_compute. repeat split; eexists; reflexivity. Qed.

Lemma DecodeObservation_certifies_witness :
  DecodeObservationDocument (EncodeObservationDocument example_snapshot) default_limits =
    inr (example_snapshot <| snap_received_at := 0 |>) /\
  snap_id (example_snapshot <| snap_received_at := 0 |>) =
    ComputeSnapshotId (example_snapshot <| snap_received_at := 0 |>).
Proof.
  assert (H : DecodeObservationDocument (EncodeObservationDocument example_snapshot) default_limits =
    inr (example_snapshot <| snap_received_at := 0 |>)) by (vm_compute; reflexivity).
  split; [exact H|].
  assert (Hu : is_u64 (max_path_segments default_limits)) by (vm_compute; split; discriminate).
  apply (DecodeObservation_certifies default_limits _ _ Hu H).
Defined.

(** A document that lists an object twice is accepted, and what it says the
    second time is dropped. *)
Example second_listing_is_dropped :
  let object presence := V_Map [("fields", V_List []); ("id", V_String "port/1"); ("presence", V_String presence)] in
  decode_entries (DecodeObservedObject default_limits) [object "present"; object "absent"] =
  inr [("port/1", mkObservedObject "port/1" OP_Present [])].
Proof. vm_compute. reflexivity. Qed.

(** A declared identity that is not that of the content is refused. *)
Example forged_identity_is_refused :
  match as_map (EncodeObservationDocument example_snapshot) with
  | Some m =>
      match DecodeObservationDocument (V_Map (m ++ [("snapshot_id", V_String "00")])%list) default_limits with
      | inl status => st_reason status = RC_LedgerIntegrityDigestMismatch
      | inr _ => False
      end
  | None => False
  end.
Proof. vm_compute. reflexivity. Qed.
