(* ===== verification/Query.v ===== *)
(** * Queries

    query.hpp/query.cpp: pages of findings and of the global timeline.  Both
    queries filter, sort and cut a window out of the matches; the window's end
    is computed in 64 bits and wraps. *)

From Stdlib Require Import ZArith Lia List Bool Sorting.Sorted Permutation String.
From stdpp Require Import base tactics list strings.
From S2P Require Import Prelude Containers Text Hash Status Time Identity Drift Freshness Policy.
From S2P Require Import Comparison Finding Ledger LedgerApply.
#[local] Open Scope string_scope.
#[local] Open Scope Z_scope.

(** ** Data *)

Inductive QueryOrder : Set :=
| QO_SeverityDescending | QO_FirstSeenAscending | QO_LastSeenDescending | QO_TargetAscending
| QO_IdentityAscending.

#[export, refine] Instance enum_QueryOrder : Enum QueryOrder :=
  {| code v := match v with
               | QO_SeverityDescending => 0 | QO_FirstSeenAscending => 1
               | QO_LastSeenDescending => 2 | QO_TargetAscending => 3
               | QO_IdentityAscending => 4 end;
     values := [QO_SeverityDescending; QO_FirstSeenAscending; QO_LastSeenDescending;
                QO_TargetAscending; QO_IdentityAscending] |}.
Proof. enum_complete. Defined.

Definition kOrderNames : list (Z * string) :=
  [(0, "severity-descending"); (1, "first-seen-ascending"); (2, "last-seen-descending");
   (3, "target-ascending"); (4, "identity-ascending")].

Definition ToText_QueryOrder (value : QueryOrder) : string := Lookup kOrderNames "invalid" (code value).
Definition TryParseQueryOrder (text : string) : option QueryOrder := TryParseEnum kOrderNames text.

Record QuerySpec := mkQuerySpec {
  qs_target : option string;
  qs_object : option string;
  qs_path_prefix : option FieldPath;
  qs_generation : option Z;
  qs_epoch : option Z;
  qs_klass : option DriftClass;
  qs_min_severity : option Severity;
  qs_exact_severity : option Severity;
  qs_state : option FindingState;
  qs_group : option Digest;
  qs_source : option string;
  qs_root_cause : option RootCauseKind;
  qs_min_freshness : option FreshnessState;
  qs_min_age_nanos : option Z;
  qs_max_age_nanos : option Z;
  qs_include_resolved : bool;
  qs_include_superseded : bool;
  qs_include_retired : bool;
  qs_include_suppressed : bool;
  qs_order : QueryOrder;
  qs_limit : Z;
  qs_offset : Z
}.

#[export] Instance eta_QuerySpec : Eta QuerySpec := fun s =>
  mkQuerySpec (qs_target s) (qs_object s) (qs_path_prefix s) (qs_generation s) (qs_epoch s)
    (qs_klass s) (qs_min_severity s) (qs_exact_severity s) (qs_state s) (qs_group s) (qs_source s)
    (qs_root_cause s) (qs_min_freshness s) (qs_min_age_nanos s) (qs_max_age_nanos s)
    (qs_include_resolved s) (qs_include_superseded s) (qs_include_retired s)
    (qs_include_suppressed s) (qs_order s) (qs_limit s) (qs_offset s).

(** The default-constructed specification. *)
Definition default_query : QuerySpec :=
  mkQuerySpec None None None None None None None None None None None None None None None
    false false false true QO_SeverityDescending 1000 0.

Record QueryResult := mkQueryResult {
  qr_findings : list Finding;
  qr_total_matched : Z;
  qr_truncated : bool;
  qr_evaluated_at : NdoTime;
  qr_spec : QuerySpec;
  qr_page_digest : Digest
}.

Record TimelineSpec := mkTimelineSpec {
  ts_finding : option Digest;
  ts_target : option string;
  ts_kind : option TimelineEventKind;
  ts_since : option NdoTime;
  ts_until : option NdoTime;
  ts_limit : Z;
  ts_offset : Z
}.

Record TimelinePage := mkTimelinePage {
  tp_entries : list TimelineEntry;
  tp_total_matched : Z;
  tp_truncated : bool
}.

(** ** Matching *)

Definition FreshnessRank (state : FreshnessState) : Z :=
  match state with
  | FS_Fresh => 4
  | FS_Aging => 3
  | FS_Stale => 2
  | FS_Future | FS_Expired => 1
  | FS_Unknown | FS_RecoveredNotFresh => 0
  end.

Definition AgeMatches (finding : Finding) (spec : QuerySpec) (now : NdoTime) : bool :=
  let age := match TryDifference now (fd_first_seen finding) with Some age => age | None => 0 end in
  unset_or (qs_min_age_nanos spec) (fun low => negb (age <? low)) &&
  unset_or (qs_max_age_nanos spec) (fun high => negb (high <? age)).

Definition FindingMatches (finding : Finding) (spec : QuerySpec) (now : NdoTime) : bool :=
  unset_or (qs_target spec) (fun t => eqb (fi_target (fd_identity finding)) t) &&
  unset_or (qs_object spec) (fun o => eqb (fi_object (fd_identity finding)) o) &&
  unset_or (qs_path_prefix spec) (fun p => IsPrefixOf p (fi_path (fd_identity finding))) &&
  unset_or (qs_generation spec) (fun g => fd_baseline_generation finding =? g) &&
  unset_or (qs_epoch spec) (fun e => fd_baseline_epoch finding =? e) &&
  unset_or (qs_klass spec) (fun k => eqb (fd_klass finding) k) &&
  unset_or (qs_min_severity spec)
    (fun s => negb (SeverityRank (fd_severity finding) <? SeverityRank s)) &&
  unset_or (qs_exact_severity spec) (fun s => eqb (fd_severity finding) s) &&
  unset_or (qs_state spec) (fun s => eqb (fd_state finding) s) &&
  unset_or (qs_group spec) (fun g => eqb (fd_group finding) g) &&
  unset_or (qs_root_cause spec) (fun c => eqb (fd_group_cause finding) c) &&
  unset_or (qs_source spec)
    (fun s => existsb (fun reference => eqb (ref_source reference) s) (fd_evidence finding)) &&
  unset_or (qs_min_freshness spec)
    (fun s => negb (FreshnessRank (fd_evidence_freshness finding) <? FreshnessRank s)) &&
  AgeMatches finding spec now &&
  match fd_state finding with
  | St_Resolved => qs_include_resolved spec
  | St_Superseded => qs_include_superseded spec
  | St_Retired => qs_include_retired spec
  | St_Suppressed => qs_include_suppressed spec
  | _ => true
  end.

(** ** Order *)

(** [if (!(a == b)) return a < b;], then the rest. *)
Definition before_or {K} `{Ordered K} (a b : K) (rest : bool) : bool :=
  if eqb a b then rest else ltb a b.

Definition OrderBefore (order : QueryOrder) (lhs rhs : Finding) : bool :=
  let by_identity := ltb (fd_id lhs) (fd_id rhs) in
  match order with
  | QO_SeverityDescending =>
      if negb (eqb (fd_severity lhs) (fd_severity rhs))
      then SeverityRank (fd_severity rhs) <? SeverityRank (fd_severity lhs)
      else before_or (fd_last_seen rhs) (fd_last_seen lhs) by_identity
  | QO_FirstSeenAscending => before_or (fd_first_seen lhs) (fd_first_seen rhs) by_identity
  | QO_LastSeenDescending => before_or (fd_last_seen rhs) (fd_last_seen lhs) by_identity
  | QO_TargetAscending =>
      before_or (fi_target (fd_identity lhs)) (fi_target (fd_identity rhs))
        (before_or (fi_object (fd_identity lhs)) (fi_object (fd_identity rhs))
          (before_or (fi_path (fd_identity lhs)) (fi_path (fd_identity rhs)) by_identity))
  | QO_IdentityAscending => by_identity
  end.

(** ** Pages *)

(** [begin = min(offset, size)]. *)
Definition page_begin {A} (offset : Z) (matched : list A) : Z := Z.min offset (vsize matched).
(** [end = min(begin + limit, size)]; the sum wraps. *)
Definition page_end {A} (offset limit : Z) (matched : list A) : Z :=
  Z.min (wrap64 (page_begin offset matched + limit)) (vsize matched).

(** The elements from [begin] up to [end]; none when [end] is not greater. *)
Definition slice {A} (begin end_ : Z) (l : list A) : list A :=
  firstn (Z.to_nat (end_ - begin)) (skipn (Z.to_nat begin) l).

Definition page_of {A} (offset limit : Z) (matched : list A) : list A :=
  slice (page_begin offset matched) (page_end offset limit matched) matched.

Definition page_truncated {A} (offset limit : Z) (matched : list A) : bool :=
  (page_end offset limit matched <? vsize matched) || (0 <? page_begin offset matched).

Definition page_digest (spec : QuerySpec) (total begin : Z) (page : list Finding) : Digest :=
  let hasher := UpdateTag Sha256_init "ndo/query-page/v1" in
  let hasher := UpdateLengthPrefixed hasher (ToText_QueryOrder (qs_order spec)) in
  let hasher := UpdateU64 hasher total in
  let hasher := UpdateU64 hasher begin in
  let hasher := UpdateU64 hasher (vsize page) in
  Final (foldl (fun hasher f =>
    UpdateU64 (UpdateByte (Update hasher (fd_id f)) (code (fd_state f))) (fd_observation_count f))
    hasher page).

(** What matches, in the order of the specification. *)
Definition matched_findings (findings : list Finding) (spec : QuerySpec) (now : NdoTime) : list Finding :=
  sort_by (OrderBefore (qs_order spec)) (List.filter (fun f => FindingMatches f spec now) findings).

Definition ExecuteQuery (findings : list Finding) (spec : QuerySpec) (now : NdoTime) : Result QueryResult :=
  if qs_limit spec =? 0
  then Result_status (Status_Rejected RC_LimitFindingsExceeded
         "a query limit of zero would hide every finding")
  else
    let matched := matched_findings findings spec now in
    let page := page_of (qs_offset spec) (qs_limit spec) matched in
    Result_value (mkQueryResult page (vsize matched)
      (page_truncated (qs_offset spec) (qs_limit spec) matched) now spec
      (page_digest spec (vsize matched) (page_begin (qs_offset spec) matched) page)).

Definition entry_matches (spec : TimelineSpec) (entry : TimelineEntry) : bool :=
  unset_or (ts_finding spec) (fun f => eqb (tl_finding entry) f) &&
  unset_or (ts_target spec) (fun t => eqb (tl_target entry) t) &&
  unset_or (ts_kind spec) (fun k => eqb (tl_kind entry) k) &&
  unset_or (ts_since spec) (fun since => negb (tl_at entry <? since)) &&
  unset_or (ts_until spec) (fun until => negb (until <? tl_at entry)).

Definition entry_before (lhs rhs : TimelineEntry) : bool :=
  if negb (tl_sequence lhs =? tl_sequence rhs) then tl_sequence lhs <? tl_sequence rhs
  else tl_at lhs <? tl_at rhs.

(** The sort is written as the stable one: entries of one ledger have distinct
    sequence numbers, so no two of them tie. *)
Definition matched_entries (entries : list TimelineEntry) (spec : TimelineSpec) : list TimelineEntry :=
  sort_by entry_before (List.filter (entry_matches spec) entries).

Definition ExecuteTimelineQuery (entries : list TimelineEntry) (spec : TimelineSpec)
    : Result TimelinePage :=
  if ts_limit spec =? 0
  then Result_status (Status_Rejected RC_LimitTimelineExceeded
         "a timeline limit of zero would hide every entry")
  else
    let matched := matched_entries entries spec in
    Result_value (mkTimelinePage (page_of (ts_offset spec) (ts_limit spec) matched) (vsize matched)
      (page_truncated (ts_offset spec) (ts_limit spec) matched)).

(** ** Facts: the orders *)

Lemma before_or_key {K L} `{Ordered K, Ordered L} (a b : K) (x y : L) :
  before_or a b (ltb x y) = ltb (a, x) (b, y).
Proof. unfold before_or. rewrite ltb_pair. cbn [fst snd]. by destruct (eqb a b). Qed.

Lemma before_or_opp {L} `{Ordered L} (a b : Z) (x y : L) :
  before_or b a (ltb x y) = ltb (- a, x) (- b, y).
Proof.
  unfold before_or. rewrite ltb_pair. cbn [fst snd].
  rewrite ltb_opp, eqb_opp, (eqb_sym b a), <- (Z_eqb_eqb a b), (Z_ltb_ltb b a). by destruct (a =? b).
Qed.

Lemma severity_before_key {L} `{Ordered L} (s t : Severity) (x y : L) :
  (if negb (eqb s t) then SeverityRank t <? SeverityRank s else ltb x y) =
  ltb (- SeverityRank s, x) (- SeverityRank t, y).
Proof. rewrite ltb_pair. cbn [fst snd]. by destruct s, t. Qed.

Definition severity_key (f : Finding) : Z * (Z * Digest) :=
  (- SeverityRank (fd_severity f), (- fd_last_seen f, fd_id f)).
Definition target_key (f : Finding) : string * (string * (FieldPath * Digest)) :=
  (fi_target (fd_identity f), (fi_object (fd_identity f), (fi_path (fd_identity f), fd_id f))).

(** Every order is a strict order in which only findings of one identity tie. *)
Lemma OrderBefore_order order :
  less_trans_neg (OrderBefore order) /\ less_asym (OrderBefore order) /\
  forall x y, OrderBefore order x y = false -> OrderBefore order y x = false -> fd_id x = fd_id y.
Proof.
  assert (Hkey : forall (K : Type) (HK : Ordered K) (key : Finding -> K),
    (forall x y, OrderBefore order x y = ltb (key x) (key y)) ->
    (forall x y, key x = key y -> fd_id x = fd_id y) ->
    less_trans_neg (OrderBefore order) /\ less_asym (OrderBefore order) /\
    forall x y, OrderBefore order x y = false -> OrderBefore order y x = false -> fd_id x = fd_id y).
  { intros K HK key Hk Hid. split; [apply (keyed_trans_neg _ _ Hk)|].
    split; [apply (keyed_asym _ _ Hk)|]. intros x y H1 H2. apply Hid. by apply (keyed_tie _ _ Hk). }
  destruct order.
  - apply (Hkey _ _ severity_key); [|by intros ?? E; apply (f_equal (fun k => k.2.2)) in E]. intros x y.
    unfold OrderBefore. by rewrite before_or_opp, severity_before_key.
  - apply (Hkey _ _ (fun f => (fd_first_seen f, fd_id f))); [|by intros ?? E; apply (f_equal snd) in E].
    intros. apply before_or_key.
  - apply (Hkey _ _ (fun f => (- fd_last_seen f, fd_id f))); [|by intros ?? E; apply (f_equal snd) in E].
    intros. apply before_or_opp.
  - apply (Hkey _ _ target_key); [|by intros ?? E; apply (f_equal (fun k => k.2.2.2)) in E]. intros x y.
    unfold OrderBefore. by rewrite !before_or_key.
  - by apply (Hkey _ _ fd_id).
Qed.

Lemma matched_findings_perm findings spec now :
  Permutation (List.filter (fun f => FindingMatches f spec now) findings) (matched_findings findings spec now).
Proof. apply sort_by_perm. Qed.

Lemma filter_permutation {A} (test : A -> bool) (l m : list A) :
  Permutation l m -> Permutation (List.filter test l) (List.filter test m).
Proof.
  induction 1 as [|x l m _ IH|x y l|l m k _ IH1 _ IH2]; cbn [List.filter]; [done| | |by rewrite IH1].
  - destruct (test x); by rewrite IH.
  - destruct (test x), (test y); [apply perm_swap|done..].
Qed.

Lemma matched_findings_canonical findings findings' spec now :
  NoDup (map fd_id findings) -> Permutation findings findings' ->
  matched_findings findings spec now = matched_findings findings' spec now.
Proof.
  intros Hn Hp. destruct (OrderBefore_order (qs_order spec)) as (H1 & H2 & H3).
  apply sort_by_canonical; [done..| |by apply filter_permutation].
  intros x y Hx Hy Hxy Hyx. rewrite list_elem_of_In, filter_In, <- list_elem_of_In in Hx, Hy.
  apply (NoDup_map_inj fd_id findings); [done|naive_solver..|by apply H3].
Qed.

(** ** Facts: the pages *)

Section Pages.
Context {A : Type}.
Implicit Types l : list A.

Lemma page_of_window offset limit l :
  0 <= offset -> 0 < limit -> vsize l < 2 ^ 64 -> offset + limit < 2 ^ 64 ->
  page_of offset limit l = firstn (Z.to_nat limit) (skipn (Z.to_nat offset) l).
Proof.
  intros Ho Hl Hs Hw. unfold page_of, page_end, page_begin, slice.
  assert (0 <= vsize l) by (unfold vsize; lia).
  unfold wrap64. rewrite Z.mod_small by lia.
  destruct (Z.le_gt_cases (vsize l) offset) as [Hlt|Hlt].
  - rewrite (Z.min_r offset) by lia. rewrite (Z.min_r (vsize l + limit)) by lia.
    rewrite Z.sub_diag, !skipn_all2 by (unfold vsize in *; lia). by rewrite !firstn_nil.
  - rewrite (Z.min_l offset) by lia.
    destruct (Z.le_gt_cases (vsize l) (offset + limit)).
    + rewrite Z.min_r by lia. by rewrite !firstn_all2 by (rewrite length_skipn; unfold vsize in *; lia).
    + rewrite Z.min_l by lia. do 2 f_equal. lia.
Qed.

(** [n] consecutive pages from the front are the first [n * limit] elements. *)
Lemma pages_tile n limit l :
  0 < limit -> vsize l < 2 ^ 64 -> Z.of_nat n * limit + limit < 2 ^ 64 ->
  concat (map (fun k => page_of (Z.of_nat k * limit) limit l) (seq 0 n)) =
  firstn (n * Z.to_nat limit) l.
Proof.
  intros Hl Hs. induction n as [|n IH]; intros Hw; [by rewrite firstn_O|].
  assert (0 <= Z.of_nat n * limit) by nia.
  rewrite seq_S, map_app, concat_app, IH by lia. cbn [map concat Nat.add]. rewrite app_nil_r.
  rewrite page_of_window by lia.
  rewrite Z2Nat.inj_mul, Nat2Z.id by lia. generalize (Z.to_nat limit) as page. intros page.
  rewrite <- (firstn_skipn (n * page) (firstn (S n * page) l)), firstn_firstn, skipn_firstn_comm.
  f_equal; f_equal; lia.
Qed.
End Pages.

(** ** Pages of findings *)

(** The findings of an answer. *)
Definition answered (r : Result QueryResult) : list Finding :=
  match r with Result_value r => qr_findings r | Result_status _ => [] end.

(** C36. A query walks its matches without loss: for findings with distinct
    identities the answer does not depend on the order in which they are given;
    the matches are exactly the findings that meet the specification, in the
    requested order; a page is the window of at most [limit] of them that starts
    at [offset], [truncated] says whether matches lie outside it, and
    consecutive pages that cover the matches give every match exactly once. *)
Theorem ExecuteQuery_pages findings spec now
    (Hid : NoDup (map fd_id findings)) (Hsize : vsize findings < 2 ^ 63)
    (Hlimit : 0 < qs_limit spec) (Hoffset : 0 <= qs_offset spec)
    (Hfit : qs_offset spec + qs_limit spec < 2 ^ 64) :
  let matched := matched_findings findings spec now in
  (forall f, f ∈ matched <-> f ∈ findings /\ FindingMatches f spec now = true) /\
  StronglySorted (fun a b => OrderBefore (qs_order spec) b a = false) matched /\
  (forall findings', Permutation findings findings' ->
     ExecuteQuery findings' spec now = ExecuteQuery findings spec now) /\
  (exists r, ExecuteQuery findings spec now = Result_value r /\
     qr_total_matched r = vsize matched /\
     qr_findings r = firstn (Z.to_nat (qs_limit spec)) (skipn (Z.to_nat (qs_offset spec)) matched) /\
     (qr_truncated r = false <-> qr_findings r = matched)) /\
  (forall n, vsize matched <= Z.of_nat n * qs_limit spec ->
     Z.of_nat n * qs_limit spec + qs_limit spec < 2 ^ 64 ->
     concat (map (fun k => answered
       (ExecuteQuery findings (spec <| qs_offset := Z.of_nat k * qs_limit spec |>) now)) (seq 0 n)) =
     matched).
Proof.
  cbv zeta. set (matched := matched_findings findings spec now).
  assert (Hs : vsize matched < 2 ^ 63).
  { unfold matched, matched_findings, vsize in *. rewrite sort_by_length.
    pose proof (List.filter_length_le (fun f => FindingMatches f spec now) findings). lia. }
  split_and!.
  - intros f. unfold matched, matched_findings.
    by rewrite <- sort_by_perm, !list_elem_of_In, filter_In.
  - apply sort_by_sorted; apply (OrderBefore_order (qs_order spec)).
  - intros findings' Hp. unfold ExecuteQuery. by rewrite (matched_findings_canonical _ _ _ _ Hid Hp).
  - unfold ExecuteQuery. fold matched. destruct (qs_limit spec =? 0) eqn:E; breflect; [lia|].
    eexists. split; [done|]. cbn [qr_total_matched qr_findings qr_truncated].
    rewrite page_of_window by lia. split; [done|]. split; [done|].
    unfold page_truncated, page_end, page_begin, wrap64. assert (0 <= vsize matched) by (unfold vsize; lia).
    rewrite Z.mod_small, orb_false_iff, Z.ltb_ge, Z.ltb_ge by lia.
    split; [intros [H1 H2]|intros Hall].
    + assert (vsize matched = 0 \/ qs_offset spec = 0) as [H0|H0] by lia.
      { unfold vsize in H0. destruct matched; [by rewrite skipn_nil, firstn_nil|cbn in H0; lia]. }
      rewrite H0 in *. rewrite skipn_O, firstn_all2; [done|]. unfold vsize in *. lia.
    + apply (f_equal length) in Hall. rewrite length_firstn, length_skipn in Hall.
      unfold vsize in *. lia.
  - intros n Hn Hw.
    rewrite (map_ext _ (fun k => page_of (Z.of_nat k * qs_limit spec) (qs_limit spec) matched)).
    2:{ intros k. unfold ExecuteQuery. cbn [qs_limit update]. by destruct (Z.eqb_spec (qs_limit spec) 0); [lia|]. }
    rewrite pages_tile by lia. apply firstn_all2. unfold vsize in *. nia.
Qed.

(** ** Examples and witnesses *)

Definition example_finding (n : Z) (severity : Severity) : Finding :=
  (blank_finding [n] (mkIdentity "t" "o" [] DC_Missing 1 zero_digest)) <| fd_severity := severity |>.

Definition example_findings : list Finding :=
  [example_finding 1 Sev_Low; example_finding 2 Sev_High; example_finding 3 Sev_Low].

(** A limit that makes [begin + limit] wrap returns nothing, although a finding
    lies behind the offset. *)
Example page_end_wraps :
  let spec := default_query <| qs_limit := UINT64_MAX |> <| qs_offset := 2 |> in
  vsize (matched_findings example_findings spec 0) = 3 /\
  answered (ExecuteQuery example_findings spec 0) = [].
Proof. split; reflexivity. Qed.

Lemma ExecuteQuery_pages_witness :
  let spec := default_query <| qs_limit := 2 |> <| qs_offset := 1 |> in
  map fd_id (answered (ExecuteQuery example_findings spec 0)) = [[1]; [3]] /\
  exists r, ExecuteQuery example_findings spec 0 = Result_value r /\ qr_total_matched r = 3.
Proof.
  cbv zeta. split; [reflexivity|].
  destruct (ExecuteQuery_pages example_findings
    (default_query <| qs_limit := 2 |> <| qs_offset := 1 |>) 0) as (_ & _ & _ & (r & Hr & Ht & _) & _).
  - by apply (bool_decide_unpack (NoDup (map fd_id example_findings))).
  - reflexivity.
  - reflexivity.
  - discriminate.
  - reflexivity.
  - exists r. split; [exact Hr|exact Ht].
Defined.
