(* ===== verification/Engine.v ===== *)
(** * The observatory engine

    engine.hpp/engine.cpp: the runtime that owns the ledger, the source registry,
    the policy, the live epoch and incarnation, and the evaluation path.

    A member function that runs under the mutex is one function from the state
    to the state.  [EvaluateAt] is not atomic: it builds its input under the
    mutex ([begin_evaluation]), reads the policy under the mutex again
    ([read_policy]), compares the targets in threads that read the two atomic
    flags before every target, and takes the mutex a third time to publish
    ([publish_evaluation]).  [EvaluateAt] below composes these parts with no one
    else running; Concurrency.v interleaves them with everything else.

    The clock is injected into the runtime: a reading is an argument of the
    operation that takes it.  Saving and loading the state are in
    Persistence.v. *)

From Stdlib Require Import ZArith Lia List Bool String.
From stdpp Require Import base tactics list strings.
From S2P Require Import Prelude Containers Text Hash Status Time Identity Double Value Drift Intent.
From S2P Require Import Observation Freshness Policy Comparison Finding Ledger LedgerApply.
From S2P Require Import JsonHelp Interchange Query.
#[local] Open Scope string_scope.
#[local] Open Scope Z_scope.
#[local] Arguments String.append : simpl nomatch.

(** ** Data *)

Record ObservatoryConfig := mkConfig {
  cfg_policy : ObservatoryPolicy;
  cfg_limits : RuntimeLimits;
  cfg_epoch : Z;
  cfg_incarnation : Z;
  cfg_evaluation_workers : Z;
  cfg_require_started : bool;
  cfg_require_registered_sources : bool
}.

#[export] Instance eta_ObservatoryConfig : Eta ObservatoryConfig := fun c =>
  mkConfig (cfg_policy c) (cfg_limits c) (cfg_epoch c) (cfg_incarnation c)
    (cfg_evaluation_workers c) (cfg_require_started c) (cfg_require_registered_sources c).

Record ObservatoryCounters := mkCounters {
  ct_intents_accepted : Z;
  ct_intents_rejected : Z;
  ct_intents_duplicate_identical : Z;
  ct_observations_accepted : Z;
  ct_observations_rejected : Z;
  ct_observations_duplicate_identical : Z;
  ct_observations_superseded : Z;
  ct_evaluations : Z;
  ct_evaluations_cancelled : Z;
  ct_evaluations_fenced : Z;
  ct_findings_created : Z;
  ct_findings_resolved : Z;
  ct_findings_reopened : Z;
  ct_findings_suppressed : Z;
  ct_acknowledgements : Z;
  ct_recoveries : Z;
  ct_persistence_writes : Z;
  ct_policy_changes : Z
}.

#[export] Instance eta_ObservatoryCounters : Eta ObservatoryCounters := fun c =>
  mkCounters (ct_intents_accepted c) (ct_intents_rejected c) (ct_intents_duplicate_identical c)
    (ct_observations_accepted c) (ct_observations_rejected c)
    (ct_observations_duplicate_identical c) (ct_observations_superseded c) (ct_evaluations c)
    (ct_evaluations_cancelled c) (ct_evaluations_fenced c) (ct_findings_created c)
    (ct_findings_resolved c) (ct_findings_reopened c) (ct_findings_suppressed c)
    (ct_acknowledgements c) (ct_recoveries c) (ct_persistence_writes c) (ct_policy_changes c).

Definition zero_counters : ObservatoryCounters :=
  mkCounters 0 0 0 0 0 0 0 0 0 0 0 0 0 0 0 0 0 0.

Record Observatory := mkObservatory {
  eng_config : ObservatoryConfig;
  eng_ledger : FindingLedger;
  eng_sources : omap string SourceDescriptor;
  eng_evaluation_sequence : Z;
  eng_started : bool;
  eng_cancelled : bool;
  eng_stopping : bool;
  eng_active_evaluations : Z;
  eng_counters : ObservatoryCounters
}.

#[export] Instance eta_Observatory : Eta Observatory := fun e =>
  mkObservatory (eng_config e) (eng_ledger e) (eng_sources e) (eng_evaluation_sequence e)
    (eng_started e) (eng_cancelled e) (eng_stopping e) (eng_active_evaluations e) (eng_counters e).

(** The owned snapshot and verdict storage is what the pointers of the targets
    point into; the input below holds what they point at. *)
Record EvaluationInput := mkEvaluationInput {
  ei_now : NdoTime;
  ei_epoch : Z;
  ei_incarnation : Z;
  ei_policy : string;
  ei_policy_digest : Digest;
  ei_resolution_confirmations : Z;
  ei_sequence : Z;
  ei_targets : list TargetComparisonInput
}.

#[export] Instance eta_EvaluationInput : Eta EvaluationInput := fun i =>
  mkEvaluationInput (ei_now i) (ei_epoch i) (ei_incarnation i) (ei_policy i) (ei_policy_digest i)
    (ei_resolution_confirmations i) (ei_sequence i) (ei_targets i).

Definition empty_commit_report : IntentCommitReport := mkCommitReport "" 0 0 0 0 0 false.
Definition empty_admission : ObservationAdmission := mkAdmission "" "" "" 0 FS_Unknown false false.

Definition count (counter : ObservatoryCounters -> ObservatoryCounters) (e : Observatory) : Observatory :=
  e <| eng_counters ::= counter |>.

(** The constructor. *)
Definition clamp_workers (limits : RuntimeLimits) (workers : Z) : Z :=
  let workers := if workers =? 0 then 1 else workers in
  if max_evaluation_workers limits <? workers then max_evaluation_workers limits else workers.

Definition new_observatory (config : ObservatoryConfig) : Observatory :=
  mkObservatory (config <| cfg_evaluation_workers ::= clamp_workers (cfg_limits config) |>)
    (empty_ledger (cfg_limits config)) [] 0 false false false 0 zero_counters.

(** ** Lifecycle *)

Definition Start (e : Observatory) : Status * Observatory :=
  let config := eng_config e in
  if eng_started e
  then (Status_Precondition RC_None "the observatory is already started", e)
  else if negb (uint_is_set (cfg_epoch config)) || negb (uint_is_set (cfg_incarnation config))
  then (Status_Rejected RC_FencedStaleEpoch
          "the observatory requires an explicit epoch and incarnation", e)
  else
    let status := Policy_Validate (cfg_limits config) (cfg_policy config) in
    if negb (status_ok status) then (status, e)
    else if eqb (pol_evidence (cfg_policy config)) EC_Unknown
    then (Status_Rejected RC_EncodingMalformed "policy must declare its evidence class", e)
    else
      (Status_Ok,
       e <| eng_ledger ::= SetLimits (cfg_limits config) |>
         <| eng_started := true |> <| eng_stopping := false |> <| eng_cancelled := false |>).

(** [Stop] up to its wait for [active_evaluations_ == 0]. *)
Definition Stop_begin (e : Observatory) : Observatory :=
  e <| eng_stopping := true |> <| eng_started := false |>.
(** What the wait waits for. *)
Definition Stop_may_return (e : Observatory) : bool := eng_active_evaluations e =? 0.

Definition RotateIncarnation (next_incarnation next_epoch : Z) (now : NdoTime) (e : Observatory)
    : Status * Observatory :=
  if negb (uint_is_set next_incarnation)
  then (Status_Rejected RC_FencedStaleIncarnation "the new incarnation must be positive", e)
  else if next_incarnation <=? cfg_incarnation (eng_config e)
  then (Status_Rejected RC_FencedStaleIncarnation
          "the new incarnation must be strictly greater than the current one", e)
  else if next_epoch <? cfg_epoch (eng_config e)
  then (Status_Rejected RC_FencedStaleEpoch "the new epoch must not be older than the current one", e)
  else
    (Status_Ok,
     count (fun c => c <| ct_recoveries ::= bump |>)
       (e <| eng_config ::= fun c => c <| cfg_incarnation := next_incarnation |>
                                       <| cfg_epoch := next_epoch |> |>
          <| eng_ledger ::= fun l => (InvalidateRetainedEvidence RC_EvidenceRecoveredNotFresh now l).2 |>)).

Definition RequestCancellation (e : Observatory) : Observatory := e <| eng_cancelled := true |>.
Definition ClearCancellation (e : Observatory) : Observatory := e <| eng_cancelled := false |>.

(** ** Sources *)

Definition RegisterSource (descriptor : SourceDescriptor) (e : Observatory) : Status * Observatory :=
  if invalid_id (sd_id descriptor)
  then (Status_Rejected RC_EncodingMalformed "source identity is invalid", e)
  else if negb (uint_is_set (sd_incarnation descriptor)) || negb (uint_is_set (sd_epoch descriptor))
  then (Status_Rejected RC_FencedStaleIncarnation "source must declare its epoch and incarnation", e)
  else
    let refused :=
      match mfind (sd_id descriptor) (eng_sources e) with
      | Some existing =>
          if sd_incarnation descriptor <? sd_incarnation existing
          then Some (Status_Stale RC_FencedStaleIncarnation
                 "source incarnation regressed; the registration is refused")
          else None
      | None =>
          if max_sources (cfg_limits (eng_config e)) <=? vsize (eng_sources e)
          then Some (Status_Limit RC_LimitObjectsExceeded "source count exceeds the envelope")
          else None
      end in
    match refused with
    | Some status => (status, e)
    | None => (Status_Ok, e <| eng_sources ::= minsert (sd_id descriptor) descriptor |>)
    end.

Definition FindSource (id : string) (e : Observatory) : option SourceDescriptor :=
  mfind id (eng_sources e).
Definition SourceCount (e : Observatory) : Z := vsize (eng_sources e).

(** ** Ingestion *)

(** [config_.require_started && !started_]. *)
Definition not_admitting (e : Observatory) : bool :=
  cfg_require_started (eng_config e) && negb (eng_started e).

Definition PublishIntent (document : IntentGenerationDocument) (stamp : NdoTime)
    (report : IntentCommitReport) (e : Observatory) : Status * IntentCommitReport * Observatory :=
  if not_admitting e
  then (Status_Precondition RC_None "the observatory is not started", report, e)
  else if negb (doc_epoch document =? cfg_epoch (eng_config e))
  then (Status_Stale RC_FencedStaleEpoch "intent was authored under a different epoch", report, e)
  else
    let '(status, report, ledger) := CommitIntent document stamp empty_commit_report (eng_ledger e) in
    let e := e <| eng_ledger := ledger |> in
    if negb (status_ok status)
    then (status, report, count (fun c => c <| ct_intents_rejected ::= bump |>) e)
    else
      (Status_Ok, report,
       count (fun c => if cr_duplicate_identical report
                       then c <| ct_intents_duplicate_identical ::= bump |>
                       else c <| ct_intents_accepted ::= bump |>) e).

(** The freshness policy of a target: the time to live of its scope object. *)
Definition target_freshness (policy : ObservatoryPolicy) (target : string) : FreshnessPolicy :=
  (pol_freshness policy) <| fp_ttl_nanos := TtlFor policy target kTargetScopeObjectId [] |>.

Definition IngestObservation (snapshot : ObservationSnapshot) (receive_time : NdoTime)
    (report : ObservationAdmission) (e : Observatory) : Status * ObservationAdmission * Observatory :=
  if not_admitting e
  then (Status_Precondition RC_None "the observatory is not started", report, e)
  else
    let snapshot := snapshot <| snap_received_at := receive_time |> in
    if cfg_require_registered_sources (eng_config e) && negb (mmem (snap_source snapshot) (eng_sources e))
    then (Status_NotFound RC_AuthorityMismatch "the observation source is not registered",
          empty_admission, count (fun c => c <| ct_observations_rejected ::= bump |>) e)
    else
      let freshness := target_freshness (cfg_policy (eng_config e)) (snap_target snapshot) in
      let verdict := EvaluateFreshness snapshot freshness receive_time (cfg_epoch (eng_config e)) false in
      let '(status, report, ledger) :=
        RecordObservation snapshot verdict false empty_admission (eng_ledger e) in
      let e := e <| eng_ledger := ledger |> in
      if negb (status_ok status)
      then (status, report, count (fun c => c <| ct_observations_rejected ::= bump |>) e)
      else if ad_duplicate_identical report
      then (Status_Ok, report, count (fun c => c <| ct_observations_duplicate_identical ::= bump |>) e)
      else
        (Status_Ok, report,
         count (fun c =>
           let c := c <| ct_observations_accepted ::= bump |> in
           if ad_superseded_older report then c <| ct_observations_superseded ::= bump |> else c) e).

(** A text that is no observation document counts as a rejected observation. *)
Definition IngestObservationJson (json : string) (receive_time : NdoTime) (report : ObservationAdmission)
    (e : Observatory) : Status * ObservationAdmission * Observatory :=
  match ParseObservationJson json (cfg_limits (eng_config e)) with
  | inl status => (status, report, count (fun c => c <| ct_observations_rejected ::= bump |>) e)
  | inr snapshot => IngestObservation snapshot receive_time report e
  end.

(** ** The input of an evaluation *)

(** The targets of the ledger and those the policy requires. *)
Definition evaluation_targets (ledger : FindingLedger) (policy : ObservatoryPolicy) : list string :=
  dedup eqb (sort_by ltb (Targets ledger ++ pol_required_targets policy)%list).

(** Retained evidence that was recovered is never judged again. *)
Definition retained_verdict (freshness : FreshnessPolicy) (now : NdoTime) (epoch : Z)
    (observation : RetainedObservation) : FreshnessVerdict :=
  if ro_recovered observation then
    let age := match TryDifference now (snap_collected_at (ro_snapshot observation)) with
               | Some age => age | None => 0 end in
    mkFreshnessVerdict FS_RecoveredNotFresh RC_EvidenceRecoveredNotFresh age 0 false false
  else EvaluateFreshness (ro_snapshot observation) freshness now epoch false.

(** First pass: the comparisons without evidence, and the two storages. *)
Definition storages (verdict : string -> RetainedObservation -> FreshnessVerdict)
    (per_target : list (string * list RetainedObservation))
    : list ObservationSnapshot * list FreshnessVerdict :=
  (flat_map (fun t => map ro_snapshot (snd t)) per_target,
   flat_map (fun t => map (verdict (fst t)) (snd t)) per_target).

(** Second pass: each comparison gets the next [count] entries of the storages,
    which start at the cursor. *)
Fixpoint attach_pointers (snapshots : list ObservationSnapshot) (verdicts : list FreshnessVerdict)
    (cursor : nat) (comparisons : list (TargetComparisonInput * nat)) : list TargetComparisonInput :=
  match comparisons with
  | [] => []
  | (comparison, count) :: rest =>
      mkComparisonInput (in_target comparison) (in_baseline comparison)
        (map Some (firstn count (skipn cursor snapshots))) (firstn count (skipn cursor verdicts)) ::
      attach_pointers snapshots verdicts (cursor + count) rest
  end.

Definition comparison_inputs (ledger : FindingLedger) (targets : list string)
    (verdict : string -> RetainedObservation -> FreshnessVerdict) : list TargetComparisonInput :=
  let per_target := map (fun target => (target, ObservationsFor ledger target)) targets in
  let '(snapshots, verdicts) := storages verdict per_target in
  attach_pointers snapshots verdicts 0
    (map (fun t => (mkComparisonInput (fst t) (FindBaseline ledger (fst t)) [] [], length (snd t)))
       per_target).

Definition BuildEvaluationInput (now : NdoTime) (e : Observatory) : EvaluationInput :=
  let config := eng_config e in
  let policy := cfg_policy config in
  mkEvaluationInput now (cfg_epoch config) (cfg_incarnation config) (pol_id policy)
    (Policy_ComputeDigest policy) 1 (wrap64 (eng_evaluation_sequence e + 1))
    (comparison_inputs (eng_ledger e) (evaluation_targets (eng_ledger e) policy)
       (fun target => retained_verdict (target_freshness policy target) now (cfg_epoch config))).

(** ** Comparing the targets *)

(** A default-constructed slot of [outcome.targets]. *)
Definition empty_evaluation : TargetEvaluation :=
  mkTargetEvaluation "" false 0 0 IA_Unknown FS_Unknown 0 0 false false RC_NoFreshEvidence [] [].

(** [outcome.targets[index] = CompareTarget(input.targets[index], policy, limits)]. *)
Definition compare_slot (targets : list TargetComparisonInput) (policy : ObservatoryPolicy)
    (limits : RuntimeLimits) (index : nat) (out : list TargetEvaluation) : list TargetEvaluation :=
  match targets !! index with
  | Some target => <[index := CompareTarget target policy limits]> out
  | None => out
  end.

(** [EvaluateTargetRange]: [halted i] is what the two flags say before target
    [i]; [count] is the length of the range. *)
Fixpoint EvaluateTargetRange (targets : list TargetComparisonInput) (policy : ObservatoryPolicy)
    (limits : RuntimeLimits) (halted : nat -> bool) (index count : nat) (out : list TargetEvaluation)
    : list TargetEvaluation :=
  match count with
  | O => out
  | S count' =>
      if halted index then out
      else EvaluateTargetRange targets policy limits halted (S index) count'
             (compare_slot targets policy limits index out)
  end.

Definition worker_count (evaluation_workers : Z) (targets : nat) : nat :=
  Nat.min (if evaluation_workers =? 0 then 1%nat else Z.to_nat evaluation_workers)
    (match targets with O => 1%nat | _ => targets end).

(** The ranges the targets are split into, one thread per range that is not
    empty; the calling thread takes them all when there is one worker. *)
Definition worker_ranges (evaluation_workers : Z) (targets : nat) : list (nat * nat) :=
  let workers := worker_count evaluation_workers targets in
  if (workers <=? 1)%nat then [(0, targets)]%nat
  else
    let per_worker := ((targets + workers - 1) / workers)%nat in
    flat_map (fun worker =>
      let begin := (worker * per_worker)%nat in
      let end_ := Nat.min (begin + per_worker) targets in
      if (end_ <=? begin)%nat then [] else [(begin, end_)]) (seq 0 workers).

(** ** Publication *)

Definition outcome_of (input : EvaluationInput) (targets : list TargetEvaluation) : EvaluationOutcome :=
  mkOutcome (ei_now input) (ei_epoch input) (ei_incarnation input) (ei_policy input)
    (ei_policy_digest input) (ei_resolution_confirmations input) (ei_sequence input) targets.

Definition count_cancelled : Observatory -> Observatory :=
  count (fun c => c <| ct_evaluations_cancelled ::= bump |>).

(** The last critical section of [EvaluateInternal]. *)
Definition publish_evaluation (input : EvaluationInput) (policy : ObservatoryPolicy)
    (targets : list TargetEvaluation) (apply : bool) (e : Observatory)
    : Result EvaluationOutcome * Observatory :=
  let outcome := outcome_of input targets in
  let e := e <| eng_active_evaluations ::= fun n => wrap64 (n - 1) |> in
  if eng_cancelled e
  then (Result_of_status (Status_Cancelled RC_None
          "the evaluation was cancelled; no outcome was published"), count_cancelled e)
  else if eng_stopping e || not_admitting e
  then (Result_of_status (Status_Cancelled RC_None
          "the observatory stopped before the outcome was published"), count_cancelled e)
  else if negb (ei_epoch input =? cfg_epoch (eng_config e)) ||
          negb (ei_incarnation input =? cfg_incarnation (eng_config e))
  then (Result_of_status (Status_Stale RC_FencedStaleEpoch
          "the epoch or incarnation changed while the evaluation was running"),
        count (fun c => c <| ct_evaluations_fenced ::= bump |>) e)
  else
    let counted := count (fun c => c <| ct_evaluations ::= bump |>) in
    if apply then
      let '(status, report, ledger) := ApplyEvaluation outcome policy (ei_now input) (eng_ledger e) in
      let e := e <| eng_ledger := ledger |> in
      if negb (status_ok status) then (Result_of_status status, e)
      else
        let add n := fun c => wrap64 (c + n report) in
        (Result_value outcome,
         counted (count (fun c =>
           c <| ct_findings_created ::= add rp_created |>
             <| ct_findings_resolved ::= add rp_resolved |>
             <| ct_findings_reopened ::= add rp_reopened |>
             <| ct_findings_suppressed ::= add rp_suppressed |>) e))
    else (Result_value outcome, counted e).

(** The first critical section of [EvaluateAt]. *)
Definition begin_evaluation (now : NdoTime) (e : Observatory) : (Status + EvaluationInput) * Observatory :=
  if not_admitting e
  then (inl (Status_Precondition RC_None "the observatory is not started"), e)
  else if eng_cancelled e
  then (inl (Status_Cancelled RC_None "cancellation is requested"), count_cancelled e)
  else
    let input := (BuildEvaluationInput now e)
      <| ei_resolution_confirmations := pol_resolution_confirmations (cfg_policy (eng_config e)) |> in
    (inr input, e <| eng_active_evaluations ::= bump |>).

Definition halted (e : Observatory) : bool := eng_cancelled e || eng_stopping e.

(** [EvaluateInternal] with no interference: the ranges one after another, the
    flags as they are. *)
Definition EvaluateInternal (input : EvaluationInput) (apply : bool) (e : Observatory)
    : Result EvaluationOutcome * Observatory :=
  let policy := cfg_policy (eng_config e) in
  let limits := cfg_limits (eng_config e) in
  let n := length (ei_targets input) in
  let targets :=
    foldl (fun out range =>
      EvaluateTargetRange (ei_targets input) policy limits (fun _ => halted e)
        (fst range) (snd range - fst range) out)
      (repeat empty_evaluation n)
      (worker_ranges (cfg_evaluation_workers (eng_config e)) n) in
  publish_evaluation input policy targets apply e.

Definition EvaluateAt (now : NdoTime) (apply : bool) (e : Observatory)
    : Result EvaluationOutcome * Observatory :=
  match begin_evaluation now e with
  | (inl status, e) => (Result_of_status status, e)
  | (inr input, e) => EvaluateInternal input apply e
  end.

Definition Evaluate (clock : NdoTime) (e : Observatory) : Result EvaluationOutcome * Observatory :=
  EvaluateAt clock true e.

(** [EvaluateLedgerOnce]: one pass over a ledger, without a runtime. *)
Definition EvaluateLedgerOnce (ledger : FindingLedger) (policy : ObservatoryPolicy)
    (limits : RuntimeLimits) (epoch incarnation : Z) (now : NdoTime) : Result EvaluationOutcome :=
  let status := Policy_Validate limits policy in
  if negb (status_ok status) then Result_of_status status
  else
    let verdict target (observation : RetainedObservation) :=
      if ro_recovered observation
      then mkFreshnessVerdict FS_RecoveredNotFresh RC_EvidenceRecoveredNotFresh 0 0 false false
      else EvaluateFreshness (ro_snapshot observation) (target_freshness policy target) now epoch false in
    let inputs := comparison_inputs ledger (evaluation_targets ledger policy) verdict in
    Result_value
      (mkOutcome now epoch incarnation (pol_id policy) (Policy_ComputeDigest policy)
         (pol_resolution_confirmations policy) 0
         (map (fun input => CompareTarget input policy limits) inputs)).

(** ** Operator actions and policy *)

Definition SuppressFinding (finding : Digest) (actor reason : string) (expires_at : option NdoTime)
    (now : NdoTime) (e : Observatory) : Status * Observatory :=
  let '(status, ledger) := Suppress finding actor reason expires_at now (eng_ledger e) in
  let e := e <| eng_ledger := ledger |> in
  (status, if status_ok status then count (fun c => c <| ct_findings_suppressed ::= bump |>) e else e).

Definition Observatory_ClearSuppression (finding : Digest) (actor : string) (now : NdoTime)
    (e : Observatory) : Status * Observatory :=
  let '(status, ledger) := ClearSuppression finding actor now (eng_ledger e) in
  (status, e <| eng_ledger := ledger |>).

Definition AcknowledgeFinding (finding : Digest) (actor reason : string) (now : NdoTime)
    (e : Observatory) : Status * Observatory :=
  let '(status, ledger) := Acknowledge finding actor reason now (eng_ledger e) in
  let e := e <| eng_ledger := ledger |> in
  (status, if status_ok status then count (fun c => c <| ct_acknowledgements ::= bump |>) e else e).

Definition Observatory_ClearAcknowledgement (finding : Digest) (actor : string) (now : NdoTime)
    (e : Observatory) : Status * Observatory :=
  let '(status, ledger) := ClearAcknowledgement finding actor now (eng_ledger e) in
  (status, e <| eng_ledger := ledger |>).

Definition SetPolicy (policy : ObservatoryPolicy) (now : NdoTime) (e : Observatory)
    : Status * Observatory :=
  let status := Policy_Validate (cfg_limits (eng_config e)) policy in
  if negb (status_ok status) then (status, e)
  else
    let previous := Policy_ComputeDigest (cfg_policy (eng_config e)) in
    let e := e <| eng_config ::= fun c => c <| cfg_policy := policy |> |> in
    let e := count (fun c => c <| ct_policy_changes ::= bump |>) e in
    let entry := mkTimelineEntry TE_Updated "policy" "policy" zero_digest 0 now St_Open DC_None
      Sev_Info RC_None 0 0 zero_digest ""
      ("policy " +:+ pol_id policy +:+ " installed; previous digest " +:+ Digest_ToShortHex previous) in
    (Status_Ok, e <| eng_ledger ::= RecordEvent entry |>).

Definition Observatory_ExpireSuppressions (now : NdoTime) (e : Observatory) : Z * Observatory :=
  let '(expired, ledger) := ExpireSuppressions now (eng_ledger e) in
  (expired, e <| eng_ledger := ledger |>).

(** ** Inspection *)

Definition Observatory_Query (spec : QuerySpec) (now : NdoTime) (e : Observatory) : Result QueryResult :=
  ExecuteQuery (Findings (eng_ledger e)) spec now.

Definition QueryTimeline (spec : TimelineSpec) (e : Observatory) : Result TimelinePage :=
  ExecuteTimelineQuery (GlobalTimeline (eng_ledger e)) spec.

Record ReportSpec := mkReportSpec {
  rs_id : string;
  rs_target : option string;
  rs_include_resolved : bool;
  rs_include_superseded : bool;
  rs_include_suppressed : bool;
  rs_include_timeline : bool;
  rs_include_evidence : bool;
  rs_include_groups : bool;
  rs_include_reconciliation_requests : bool;
  rs_max_findings : Z;
  rs_note : string
}.

Record ReportInputs := mkReportInputs {
  ri_generated_at : NdoTime;
  ri_policy : string;
  ri_policy_digest : Digest;
  ri_epoch : Z;
  ri_incarnation : Z;
  ri_revision : Z;
  ri_stats : LedgerStats;
  ri_counters : ObservatoryCounters;
  ri_findings : list Finding;
  ri_groups : list RootCauseGroup;
  ri_timeline : list TimelineEntry;
  ri_matching_findings : Z;
  ri_timeline_entries : Z;
  ri_truncated : bool;
  ri_started : bool;
  ri_state_digest : Digest
}.

Definition reported (spec : ReportSpec) (f : Finding) : bool :=
  unset_or (rs_target spec) (fun t => eqb (fi_target (fd_identity f)) t) &&
  negb (negb (rs_include_resolved spec) && eqb (fd_state f) St_Resolved) &&
  negb (negb (rs_include_superseded spec) && eqb (fd_state f) St_Superseded) &&
  negb (negb (rs_include_suppressed spec) && eqb (fd_state f) St_Suppressed).

(** The loop over the findings: what it collects, and whether it broke off. *)
Fixpoint collect_findings (spec : ReportSpec) (budget : Z) (findings : list Finding) (taken : Z)
    : list Finding * bool :=
  match findings with
  | [] => ([], false)
  | f :: rest =>
      if negb (reported spec f) then collect_findings spec budget rest taken
      else if budget <=? taken then ([], true)
      else let '(l, truncated) := collect_findings spec budget rest (taken + 1) in (f :: l, truncated)
  end.

Definition CollectReportInputs (spec : ReportSpec) (stamp : NdoTime) (e : Observatory) : ReportInputs :=
  let config := eng_config e in
  let ledger := eng_ledger e in
  let budget := Z.min (rs_max_findings spec) (max_report_findings (cfg_limits config)) in
  let '(findings, truncated) := collect_findings spec budget (Findings ledger) 0 in
  let groups :=
    if rs_include_groups spec
    then List.filter (fun g => unset_or (rs_target spec) (fun t => eqb (gr_target g) t)) (Groups ledger)
    else [] in
  let timeline :=
    if rs_include_timeline spec
    then List.filter (fun entry => unset_or (rs_target spec) (fun t =>
           eqb (tl_target entry) "" || eqb (tl_target entry) t)) (GlobalTimeline ledger)
    else [] in
  mkReportInputs stamp (pol_id (cfg_policy config)) (Policy_ComputeDigest (cfg_policy config))
    (cfg_epoch config) (cfg_incarnation config) (lg_revision ledger) (Stats ledger) (eng_counters e)
    findings groups timeline (vsize findings) (vsize timeline) truncated (eng_started e)
    (ContentDigest ledger).
