(* ===== verification/EngineFacts.v ===== *)
(** * Facts about one evaluation

    The input the engine builds, the split of the targets over worker threads,
    what of a freshness verdict a comparison depends on, and what evaluations of
    recovered evidence conclude. *)

From Stdlib Require Import ZArith Lia List Bool Sorting.Sorted Permutation String.
From stdpp Require Import base tactics list strings.
From S2P Require Import Prelude Containers Text Hash Status Time Identity Double Value Drift Intent.
From S2P Require Import Observation Freshness Policy Comparison Finding Ledger LedgerApply.
From S2P Require Import LedgerFacts ApplyFacts LedgerProps Query Engine.
#[local] Open Scope string_scope.
#[local] Open Scope Z_scope.

(** ** The input of an evaluation *)

(** The pointers attached to a target point at its own observations. *)
Lemma attach_pointers_own {A} (verdict : string -> RetainedObservation -> FreshnessVerdict)
    (comparison : A -> TargetComparisonInput) (name : A -> string)
    (own : A -> list RetainedObservation) pre_s pre_v (l : list A) :
  length pre_s = length pre_v ->
  attach_pointers
    (pre_s ++ flat_map (fun t => map ro_snapshot (own t)) l)%list
    (pre_v ++ flat_map (fun t => map (verdict (name t)) (own t)) l)%list (length pre_s)
    (map (fun t => (comparison t, length (own t))) l) =
  map (fun t => mkComparisonInput (in_target (comparison t)) (in_baseline (comparison t))
        (map (fun o => Some (ro_snapshot o)) (own t)) (map (verdict (name t)) (own t))) l.
Proof.
  revert pre_s pre_v. induction l as [|t l IH]; intros pre_s pre_v Hl; cbn [map flat_map attach_pointers];
    [done|].
  f_equal.
  - f_equal; [rewrite drop_app_length|rewrite Hl, drop_app_length];
      rewrite take_app_length' by (by rewrite length_map); [by rewrite map_map|done].
  - specialize (IH (pre_s ++ map ro_snapshot (own t))%list (pre_v ++ map (verdict (name t)) (own t))%list).
    rewrite !length_app, !length_map, <- !app_assoc in IH. apply IH. lia.
Qed.

(** The comparison input of one target. *)
Definition input_for (ledger : FindingLedger)
    (verdict : string -> RetainedObservation -> FreshnessVerdict) (target : string)
    : TargetComparisonInput :=
  mkComparisonInput target (FindBaseline ledger target)
    (map (fun o => Some (ro_snapshot o)) (ObservationsFor ledger target))
    (map (verdict target) (ObservationsFor ledger target)).

Lemma comparison_inputs_own ledger targets verdict :
  comparison_inputs ledger targets verdict = map (input_for ledger verdict) targets.
Proof.
  unfold comparison_inputs, storages. rewrite map_map. cbn [fst snd].
  rewrite !flat_map_concat_map, !map_map, <- !flat_map_concat_map. cbn [fst snd].
  exact (attach_pointers_own verdict (fun t => mkComparisonInput t (FindBaseline ledger t) [] [])
    (fun t => t) (ObservationsFor ledger) [] [] targets eq_refl).
Qed.

(** ** The threads *)

Section Threads.
Variables (targets : list TargetComparisonInput) (policy : ObservatoryPolicy) (limits : RuntimeLimits).

Lemma lookup_map {A B} (f : A -> B) l i : map f l !! i = option_map f (l !! i).
Proof. apply (list_lookup_fmap f). Qed.

Local Notation compared := (map (fun t => CompareTarget t policy limits) targets).

Lemma compare_slot_length i out : length (compare_slot targets policy limits i out) = length out.
Proof. unfold compare_slot. case_match; [by rewrite length_insert|done]. Qed.

Lemma EvaluateTargetRange_length halted i n out :
  length (EvaluateTargetRange targets policy limits halted i n out) = length out.
Proof.
  revert i out. induction n as [|n IH]; intros i out; cbn [EvaluateTargetRange]; [done|].
  destruct (halted i); [done|]. by rewrite IH, compare_slot_length.
Qed.

(** A slot holds the evaluation of its target when the range ran over it, and
    what it held before otherwise. *)
Lemma EvaluateTargetRange_slot i n out k :
  length out = length targets ->
  EvaluateTargetRange targets policy limits (fun _ => false) i n out !! k =
  if decide (i <= k < i + n)%nat then compared !! k else out !! k.
Proof.
  revert i out. induction n as [|n IH]; intros i out Hl; cbn [EvaluateTargetRange].
  - by destruct (decide _); [lia|].
  - rewrite IH by (by rewrite compare_slot_length). unfold compare_slot.
    destruct (decide (S i <= k < S i + n)%nat), (decide (i <= k < i + S n)%nat); try lia; [done|..].
    + assert (k = i) as -> by lia. destruct (targets !! i) as [t|] eqn:E.
      * rewrite list_lookup_insert_eq by (rewrite Hl; by eapply lookup_lt_Some).
        by rewrite lookup_map, E.
      * rewrite lookup_map, E. cbn.
        apply lookup_ge_None in E. apply lookup_ge_None. lia.
    + destruct (targets !! i); [|done]. rewrite list_lookup_insert_ne by lia. done.
Qed.
End Threads.

(** ** The split of the targets *)

Definition range_indices (range : nat * nat) : list nat := seq (fst range) (snd range - fst range).

(** The ranges of the threads are disjoint and cover the targets: read one after
    another they are the indices from first to last. *)
Lemma worker_ranges_cover workers n :
  flat_map range_indices (worker_ranges workers n) = seq 0 n.
Proof.
  unfold worker_ranges. set (w := worker_count workers n).
  destruct (w <=? 1)%nat eqn:Ew; [cbn; by rewrite app_nil_r, Nat.sub_0_r|].
  apply Nat.leb_gt in Ew. set (per := ((n + w - 1) / w)%nat).
  assert (Hper : (n <= w * per)%nat).
  { unfold per. pose proof (Nat.div_mod_eq (n + w - 1) w). pose proof (Nat.mod_upper_bound (n + w - 1) w).
    lia. }
  assert (Hcover : forall j, flat_map range_indices (flat_map (fun worker =>
      let begin := (worker * per)%nat in let end_ := Nat.min (begin + per) n in
      if (end_ <=? begin)%nat then [] else [(begin, end_)]) (seq 0 j)) = seq 0 (Nat.min (j * per) n)).
  { induction j as [|j IH]; [done|]. rewrite seq_S, !flat_map_app, IH. cbn [flat_map Nat.add].
    rewrite app_nil_r. cbv zeta.
    replace (Nat.min (S j * per) n) with
      (Nat.min (j * per) n + (Nat.min (j * per + per) n - Nat.min (j * per) n))%nat by lia.
    rewrite seq_app. f_equal.
    destruct (_ <=? _)%nat eqn:E; [apply Nat.leb_le in E|apply Nat.leb_gt in E].
    - by replace (_ - _)%nat with 0%nat by lia.
    - cbn. rewrite app_nil_r. unfold range_indices. cbn [fst snd]. f_equal; lia. }
  rewrite Hcover. f_equal. lia.
Qed.

Lemma in_range_indices k range : In k (range_indices range) <-> (fst range <= k < snd range)%nat.
Proof. unfold range_indices. rewrite in_seq. lia. Qed.

Lemma worker_ranges_cover_index workers n k : (k < n)%nat ->
  exists range, In range (worker_ranges workers n) /\ (fst range <= k < snd range)%nat.
Proof.
  intros Hk. assert (Hin : In k (seq 0 n)) by (apply in_seq; lia).
  rewrite <- (worker_ranges_cover workers n), in_flat_map in Hin.
  destruct Hin as (range & ? & ?%in_range_indices). by exists range.
Qed.

(** All ranges compared, with the flags down: every slot holds the evaluation of
    its target. *)
Lemma ranges_compared targets policy limits workers :
  foldl (fun out range => EvaluateTargetRange targets policy limits (fun _ => false)
          (fst range) (snd range - fst range) out)
    (repeat empty_evaluation (length targets)) (worker_ranges workers (length targets)) =
  map (fun t => CompareTarget t policy limits) targets.
Proof.
  set (body := fun out range => _). set (goal := map _ targets).
  assert (Hslots : forall ranges out k, length out = length targets ->
    foldl body out ranges !! k =
    if existsb (fun r => (fst r <=? k)%nat && (k <? snd r)%nat) ranges then goal !! k else out !! k).
  { induction ranges as [|r ranges IH]; intros out k Hl; cbn [foldl existsb]; [done|].
    rewrite IH by (unfold body; by rewrite EvaluateTargetRange_length).
    destruct (existsb _ ranges); [by rewrite orb_true_r|]. rewrite orb_false_r. unfold body.
    rewrite EvaluateTargetRange_slot by done.
    destruct (decide _) as [H|H], (_ && _) eqn:E; rewrite ?andb_true_iff, ?andb_false_iff in E;
      rewrite ?Nat.leb_le, ?Nat.leb_gt, ?Nat.ltb_lt, ?Nat.ltb_ge in E; [done|lia|lia|done]. }
  apply list_eq. intros k. rewrite Hslots by apply repeat_length.
  destruct (existsb _ _) eqn:E; [done|].
  assert (Hk : (length targets <= k)%nat).
  { apply Nat.nlt_ge. intros Hk. destruct (worker_ranges_cover_index workers _ k Hk) as (r & Hr & Hb).
    apply not_true_iff_false in E. apply E, existsb_exists. exists r. split; [done|].
    apply andb_true_iff. rewrite Nat.leb_le, Nat.ltb_lt. lia. }
  transitivity (@None TargetEvaluation); [|symmetry]; apply lookup_ge_None;
    [by rewrite repeat_length|unfold goal; by rewrite length_map].
Qed.

(** ** What a comparison reads of a verdict *)

(** The state, the reason and whether it supports compliance. *)
Definition verdict_core (v : FreshnessVerdict) : FreshnessVerdict :=
  mkFreshnessVerdict (fv_state v) (fv_reason v) 0 0 (fv_may_support_compliance v) false.

Definition view_core (v : EvidenceView) : EvidenceView :=
  mkView (view_snapshot v) (verdict_core (view_verdict v)) (view_usable v) (view_complete v)
    (view_absence_authority v) (view_priority v) (view_digest v).

Lemma candidate_views_core policy snapshots freshness :
  candidate_views policy snapshots (map verdict_core freshness) =
  map view_core (candidate_views policy snapshots freshness).
Proof.
  revert freshness. induction snapshots as [|[s|] l IH]; intros [|f k]; cbn; try done.
  by rewrite IH.
Qed.

Lemma insert_by_map {A B} (f : A -> B) less less' x l :
  (forall a b, less' (f a) (f b) = less a b) ->
  insert_by less' (f x) (map f l) = map f (insert_by less x l).
Proof.
  intros H. induction l as [|y l IH]; cbn; [done|]. rewrite H. destruct (less y x); cbn; by rewrite ?IH.
Qed.

Lemma sort_by_map {A B} (f : A -> B) less less' l :
  (forall a b, less' (f a) (f b) = less a b) -> sort_by less' (map f l) = map f (sort_by less l).
Proof.
  intros H. unfold sort_by. induction l as [|x l IH]; cbn; [done|].
  rewrite IH. by apply insert_by_map.
Qed.

Lemma keep_newest_core last l : keep_newest last (map view_core l) = map view_core (keep_newest last l).
Proof.
  revert last. induction l as [|v l IH]; intros last; cbn [map keep_newest]; [done|].
  change (view_source (view_core v)) with (view_source v).
  destruct last as [s|]; [destruct (eqb s (view_source v))|]; cbn [map]; by rewrite ?IH.
Qed.

Lemma sorted_views_core policy target baseline snapshots freshness :
  sorted_views policy (mkComparisonInput target baseline snapshots (map verdict_core freshness)) =
  map view_core (sorted_views policy (mkComparisonInput target baseline snapshots freshness)).
Proof.
  unfold sorted_views. cbn [in_snapshots in_freshness]. rewrite candidate_views_core.
  rewrite (sort_by_map view_core newest_less newest_less) by done. rewrite keep_newest_core.
  by apply sort_by_map.
Qed.

Lemma foldl_map_core {A} (f : A -> EvidenceView -> A) a l :
  (forall a v, f a (view_core v) = f a v) -> foldl f a (map view_core l) = foldl f a l.
Proof. intros H. revert a. induction l as [|v l IH]; intros a; cbn; [done|]. by rewrite H, IH. Qed.

Lemma filter_core (test : EvidenceView -> bool) l : (forall v, test (view_core v) = test v) ->
  List.filter test (map view_core l) = map view_core (List.filter test l).
Proof.
  intros H. induction l as [|v l IH]; cbn; [done|]. rewrite H. destruct (test v); cbn; by rewrite IH.
Qed.

Lemma find_core l : List.find view_usable (map view_core l) = option_map view_core (List.find view_usable l).
Proof. induction l as [|v l IH]; cbn; [done|]. by destruct (view_usable v). Qed.

Lemma conflicts_core policy limits target baseline l :
  conflicts policy limits target baseline (map view_core l) = conflicts policy limits target baseline l.
Proof.
  induction l as [|v l IH]; cbn [map conflicts]; [done|]. rewrite IH. f_equal.
  change (view_usable (view_core v)) with (view_usable v). destruct (view_usable v); [|done].
  clear IH. induction l as [|w l IH]; cbn [map flat_map]; [done|]. rewrite IH. reflexivity.
Qed.

(** Two lists of verdicts that agree but for ages, lifetimes and the right to
    assert absence lead to the same evaluation. *)
Lemma CompareTarget_core target baseline snapshots f1 f2 policy limits :
  map verdict_core f1 = map verdict_core f2 ->
  CompareTarget (mkComparisonInput target baseline snapshots f1) policy limits =
  CompareTarget (mkComparisonInput target baseline snapshots f2) policy limits.
Proof.
  assert (Hcore : forall f,
    CompareTarget (mkComparisonInput target baseline snapshots (map verdict_core f)) policy limits =
    CompareTarget (mkComparisonInput target baseline snapshots f) policy limits).
  { intros f. unfold CompareTarget. rewrite sorted_views_core. cbn [in_target in_baseline in_snapshots in_freshness].
    rewrite candidate_views_core. generalize (candidate_views policy snapshots f) as candidates.
    generalize (sorted_views policy (mkComparisonInput target baseline snapshots f)) as views.
    intros views candidates. unfold vsize. rewrite !length_map.
    assert (Hc : vcount view_usable (map view_core views) = vcount view_usable views)
      by (unfold vcount, vsize; rewrite filter_core by done; by rewrite length_map).
    rewrite Hc, find_core.
    destruct baseline as [b|]; [|by destruct views].
    rewrite firstn_map, conflicts_core.
    destruct views as [|v views]; [done|]. cbn [map].
    change (fv_state (view_verdict (view_core v))) with (fv_state (view_verdict v)).
    change (fv_reason (view_verdict (view_core v))) with (fv_reason (view_verdict v)).
    assert (Hs : forall reason best, stale_draft policy limits target b reason best (view_core v :: map view_core views) =
      stale_draft policy limits target b reason best (v :: views)).
    { intros reason best. unfold stale_draft. cbn [foldl]. by rewrite foldl_map_core. }
    destruct (List.find view_usable (v :: views)); cbn [option_map]; [|by rewrite Hs].
    change (primary_drafts policy limits target b (view_core v)) with (primary_drafts policy limits target b v).
    change (regroup policy b (view_core v)) with (regroup policy b v). reflexivity. }
  intros H. by rewrite <- (Hcore f1), H, Hcore.
Qed.

(** ** One evaluation without interference *)

Lemma comparisons_core ledger targets v1 v2 policy limits :
  (forall target r, verdict_core (v1 target r) = verdict_core (v2 target r)) ->
  map (fun i => CompareTarget i policy limits) (comparison_inputs ledger targets v1) =
  map (fun i => CompareTarget i policy limits) (comparison_inputs ledger targets v2).
Proof.
  intros H. rewrite !comparison_inputs_own, !map_map. apply map_ext. intros target.
  unfold input_for. apply CompareTarget_core. rewrite !map_map. by apply map_ext.
Qed.

(** The comparisons of an evaluation's input. *)
Definition compare_all (input : EvaluationInput) (policy : ObservatoryPolicy) (limits : RuntimeLimits)
    : list TargetEvaluation :=
  map (fun i => CompareTarget i policy limits) (ei_targets input).

(** The input built under the mutex is the one [EvaluateLedgerOnce] compares. *)
Lemma BuildEvaluationInput_once now e outcome :
  EvaluateLedgerOnce (eng_ledger e) (cfg_policy (eng_config e)) (cfg_limits (eng_config e))
    (cfg_epoch (eng_config e)) (cfg_incarnation (eng_config e)) now = Result_value outcome ->
  outcome_of ((BuildEvaluationInput now e)
      <| ei_resolution_confirmations := pol_resolution_confirmations (cfg_policy (eng_config e)) |>)
    (compare_all (BuildEvaluationInput now e) (cfg_policy (eng_config e)) (cfg_limits (eng_config e))) =
  outcome <| out_sequence := wrap64 (eng_evaluation_sequence e + 1) |>.
Proof.
  unfold EvaluateLedgerOnce. destruct (negb _); [unfold Result_of_status; by destruct (status_ok _)|].
  intros [= <-].
  refine (f_equal (mkOutcome now _ _ _ _ _ _) (comparisons_core _ _ _ _ _ _ _)).
  intros target r. unfold retained_verdict. by destruct (ro_recovered r).
Qed.

(** ** Recovered evidence *)

(** Every retained observation was recovered rather than received. *)
Definition all_recovered (l : FindingLedger) : Prop :=
  forall target, Forall (fun r => ro_recovered r = true) (ObservationsFor l target).

Lemma all_recovered_windows l l' : lg_windows l' = lg_windows l -> all_recovered l -> all_recovered l'.
Proof. intros E H target. unfold ObservationsFor. rewrite E. apply H. Qed.

Lemma InvalidateRetainedEvidence_recovered reason now l :
  all_recovered (InvalidateRetainedEvidence reason now l).2.
Proof.
  intros target.
  assert (Hw : lg_windows (InvalidateRetainedEvidence reason now l).2 =
    map (fun entry => (fst entry, map (invalidated reason now) (snd entry))) (lg_windows l))
    by (unfold InvalidateRetainedEvidence; cbn [snd]; by destruct (0 <? _)).
  unfold ObservationsFor. rewrite Hw. apply Forall_flat_map, Forall_map, Forall_true.
  intros entry. cbn [fst snd]. destruct (eqb _ _); [|constructor]. by apply Forall_map, Forall_true.
Qed.

(** Without usable evidence nothing is decided. *)
Definition undecided (e : TargetEvaluation) : Prop :=
  te_compliance_decidable e = false /\ te_compliant e = false.

Lemma CompareTarget_undecided input policy limits :
  Forall (fun v => fv_may_support_compliance v = false) (in_freshness input) ->
  undecided (CompareTarget input policy limits).
Proof.
  intros Hf. unfold undecided.
  assert (He : existsb view_usable (sorted_views policy input) = false).
  { apply not_true_iff_false. intros (v & Hin & Hv)%existsb_exists.
    apply list_elem_of_In, elem_of_sorted_views, usable_candidate in Hin as (w & Hw & E).
    rewrite Forall_forall in Hf. rewrite (Hf w Hw) in E. congruence. }
  destruct (vsize (in_snapshots input) =? vsize (in_freshness input)) eqn:En.
  - breflect. destruct (in_baseline input) as [b|] eqn:Eb.
    + destruct (CompareTarget_refused input policy limits b En Eb He) as (? & ? & -> & -> & _). done.
    + unfold CompareTarget. by rewrite En, Z.eqb_refl, Eb.
  - unfold CompareTarget. rewrite En. cbn [negb]. by destruct (in_baseline input).
Qed.

Lemma BuildEvaluationInput_recovered now e : all_recovered (eng_ledger e) ->
  Forall (fun i => Forall (fun v => fv_may_support_compliance v = false) (in_freshness i))
    (ei_targets (BuildEvaluationInput now e)).
Proof.
  intros H. unfold BuildEvaluationInput. cbn [ei_targets]. rewrite comparison_inputs_own.
  apply Forall_map, Forall_true. intros target. unfold input_for. cbn [in_freshness].
  apply Forall_map. eapply Forall_impl; [apply H|]. intros r Hr. unfold retained_verdict.
  cbn beta in Hr. by rewrite Hr.
Qed.

(** ** Findings that become resolved *)

Definition resolves_nothing (l l' : FindingLedger) : Prop :=
  forall id f', mfind id (lg_findings l') = Some f' -> fd_state f' = St_Resolved ->
    exists f, mfind id (lg_findings l) = Some f /\ fd_state f = St_Resolved.

#[export] Instance resolves_nothing_preorder : PreOrder resolves_nothing.
Proof.
  split; [intros l id f; by exists f|]. intros a b c H1 H2 id f' Hf Hs.
  destruct (H2 id f' Hf Hs) as (f & ? & ?). by apply (H1 id f).
Qed.

Lemma CommitIntent_resolves_nothing doc now report l :
  resolves_nothing l (CommitIntent doc now report l).2.
Proof.
  assert (Hsame : forall l', lg_findings l' = lg_findings l -> resolves_nothing l l')
    by (intros l' E id f; rewrite E; by exists f).
  unfold CommitIntent. destruct (negb _); [done|].
  destruct (FindBaseline l (doc_target doc)) as [b|]; [|destruct (_ <=? _); by apply Hsame].
  destruct (_ <? _); [done|]. destruct (_ <? base_generation b); [done|].
  destruct (_ =? base_generation b); [by destruct (eqb _ _)|].
  unfold RebaseFindingsForTarget. set (l1 := l <| lg_baselines ::= _ |>).
  match goal with |- context [mfor ?body ?m ?s0] =>
    pose proof (mfor_find_inv body m s0) as Hi; destruct (mfor body m s0) as [findings [[l' report'] drop]] end.
  cbn [fst snd] in Hi |- *. intros id f' Hf Hs. destruct (Hi id f' Hf) as (f & [[l0 r0] d0] & Hf0 & ->).
  exists f. split; [done|]. revert Hs. unfold rebase_entry, rebase_finding. clear.
  repeat (destruct (negb _); [done|]). destruct (_ =? _); [done|].
  destruct (still_managed _ _); unfold leave_group; destruct (Digest_is_set _); done.
Qed.

Lemma same_truth_resolves_nothing l l' :
  (forall id f', mfind id (lg_findings l') = Some f' ->
     exists f, mfind id (lg_findings l) = Some f /\ same_truth f f') -> resolves_nothing l l'.
Proof.
  intros H id f' Hf Hs. destruct (H id f' Hf) as (f & Hf0 & Ht). exists f. split; [done|].
  destruct (quiet_same_truth _ _ Ht) as [_ Hq]. by apply Hq.
Qed.

Lemma acts_on_resolves_nothing id l (r : Status * FindingLedger) :
  (let '(status, l') := r in if status_ok status then acts_on id l l' else l' = l) ->
  resolves_nothing l r.2.
Proof.
  destruct r as [status l']. destruct (status_ok status); [|by intros ->].
  intros (f & f' & Hf & Ht & Hm & _). apply same_truth_resolves_nothing. cbn [snd]. rewrite Hm.
  intros id' g. rewrite mfind_insert. destruct (eqb id' id) eqn:E.
  - apply eqb_eq in E as ->. intros [= <-]. by exists f.
  - intros Hg. exists g. split; [done|reflexivity].
Qed.

Lemma ApplyEvaluation_resolves_nothing outcome policy now l : ledger_ok l ->
  Forall (fun e => te_compliance_decidable e = false) (out_targets outcome) ->
  resolves_nothing l (ApplyEvaluation outcome policy now l).2.
Proof.
  intros Hok Hu id f' Hf Hs.
  destruct (ApplyEvaluation_spec outcome policy now l Hok) as ([_ Hr] & _ & _).
  destruct (Hr id f' Hf Hs) as [(f & Hf0 & _ & Hq)|[_ He]].
  - exists f. split; [done|]. by apply Hq.
  - apply List.Exists_exists in He as (e & He & Hd & _). apply filter_In in He as [He _].
    rewrite Forall_forall in Hu. rewrite (Hu e) in Hd by (by apply list_elem_of_In). done.
Qed.
