(* ===== verification/Durable.v ===== *)
(** * Durable records

    persistence.cpp, namespace detail (declared in ledger_encode.hpp): the value
    trees of a timeline entry, an evidence reference, a finding, a root-cause
    group and a baseline, as the ledger file and the report spell them, and their
    decoders.  As in Interchange.v a decoder is a [Decoded] value: the refusal, or
    the record it builds. *)

From Stdlib Require Import ZArith Lia List Bool Ascii String.
From stdpp Require Import base tactics list strings.
From S2P Require Import Prelude Containers Text Status Time Hash Identity Double Value Drift Intent.
From S2P Require Import Observation Freshness Policy Comparison Finding.
From S2P Require Import Json JsonGrammar JsonTokens JsonCodec JsonHelp Wire Interchange.
#[local] Open Scope string_scope.
#[local] Open Scope Z_scope.
#[local] Arguments String.append : simpl nomatch.

(** ** Members *)

(** The entry of a record has to be an object. *)
Definition record_of (value : Value) (complaint : string) : Decoded VMap :=
  match as_map value with
  | Some m => inr m
  | None => inl (Status_Rejected RC_LedgerDecodeFailed complaint)
  end.

(** [StringId::TryParse]. *)
Definition TryParseIdentity (text : string) : option string :=
  if IsValidIdentityText text then Some text else None.

(** A required text that [parse] reads. *)
Definition required_parsed {T} (parse : string -> option T) (complaint : string) (m : VMap)
    (name what : string) : Decoded T :=
  let? text := RequireString m name what in
  match parse text with Some x => inr x | None => inl (MemberError what name complaint) end.

(** An optional text that [parse] reads; [blank] leaves an empty text out. *)
Definition optional_parsed {T} (blank : bool) (parse : string -> option T) (complaint : string)
    (missing : T) (m : VMap) (name what : string) : Decoded T :=
  match OptionalString m name with
  | None => inr missing
  | Some text =>
      if blank && String.eqb text "" then inr missing
      else match parse text with Some x => inr x | None => inl (MemberError what name complaint) end
  end.

Definition required_enum {T} (parse : string -> option T) : VMap -> string -> string -> Decoded T :=
  required_parsed (fun text => parse (c_str text)) "is not recognized".

Definition not_a_time : string := "is not an RFC 3339 timestamp".
Definition not_an_identity : string := "is not a valid identity".

(** [for (raw : kinds) if (wanted == ToText(raw))]: the whole text counts. *)
Definition cause_named (text : string) : option RootCauseKind :=
  List.find (fun k => String.eqb text (ToText_RootCauseKind k)) values.

Definition text_or (missing : string) (m : VMap) (name : string) : string :=
  default missing (OptionalString m name).
Definition uint_or (missing : Z) (m : VMap) (name : string) : Z := default missing (OptionalUint m name).
Definition bool_or (missing : bool) (m : VMap) (name : string) : bool := default missing (OptionalBool m name).
Definition value_or (missing : Value) (m : VMap) (name : string) : Value := default missing (FindMember m name).

(** An optional list whose entries [decode] reads. *)
Definition optional_list {T} (bound : list Value -> Status) (decode : Value -> Decoded T) (m : VMap)
    (name what : string) : Decoded (list T) :=
  match FindMember m name with
  | None => inr []
  | Some member =>
      match as_list member with
      | None => inl (MemberError what name "must be a sequence")
      | Some l => check bound l then dmap decode l
      end
  end.

Definition unbounded (l : list Value) : Status := Status_Ok.
Definition at_most (limit : Z) (reason : ReasonCode) (complaint : string) (l : list Value) : Status :=
  if limit <? vsize l then Status_Limit reason complaint else Status_Ok.

(** An entry that is a text [parse] reads. *)
Definition text_entry {T} (parse : string -> option T) (complaint what name : string) (entry : Value)
    : Decoded T :=
  match as_string entry with
  | None => inl (MemberError what name "entries must be strings")
  | Some text => match parse text with Some x => inr x | None => inl (MemberError what name complaint) end
  end.

(** [d.is_set() ? d.ToHex() : ""]. *)
Definition hex_or_blank (d : Digest) : string := if Digest_is_set d then Digest_ToHex d else "".

(** ** Timeline entries *)

Definition timeline_members : list string :=
  ["kind"; "sequence"; "at"; "state"; "class"; "severity"; "reason"; "baseline_generation";
   "baseline_epoch"; "evidence_digest"; "actor"; "detail"; "target"; "object"; "finding"].

Definition EncodeTimelineEntry (e : TimelineEntry) : Value :=
  V_Map (make_map [("kind", V_String (ToText_TimelineEventKind (tl_kind e)));
                   ("sequence", MakeUint (tl_sequence e));
                   ("at", V_String (FormatTime (tl_at e)));
                   ("state", V_String (ToText_FindingState (tl_state_after e)));
                   ("class", V_String (ToText_DriftClass (tl_klass e)));
                   ("severity", V_String (ToText_Severity (tl_severity e)));
                   ("reason", V_String (ToText_ReasonCode (tl_reason e)));
                   ("baseline_generation", MakeUint (tl_baseline_generation e));
                   ("baseline_epoch", MakeUint (tl_baseline_epoch e));
                   ("evidence_digest", V_String (Digest_ToHex (tl_evidence_digest e)));
                   ("actor", V_String (tl_actor e));
                   ("detail", V_String (tl_detail e));
                   ("target", V_String (tl_target e));
                   ("object", V_String (tl_object e));
                   ("finding", V_String (hex_or_blank (tl_finding e)))]).

Definition DecodeTimelineEntry (value : Value) : Decoded TimelineEntry :=
  let what := "timeline entry" in
  let? m := record_of value "timeline entry must be an object" in
  check CheckMembers m timeline_members what then
  let? kind := required_enum TryParseTimelineEventKind m "kind" what in
  let? sequence := RequireUint m "sequence" what in
  let? at_time := required_parsed TryParseTime not_a_time m "at" what in
  let? state := optional_enum TryParseFindingState St_Open m "state" what in
  let? klass := optional_enum TryParseDriftClass DC_None m "class" what in
  let? severity := optional_enum TryParseSeverity Sev_Medium m "severity" what in
  let? reason := optional_enum TryParseReasonCode RC_None m "reason" what in
  let generation := uint_or 0 m "baseline_generation" in
  let epoch := uint_or 0 m "baseline_epoch" in
  let? digest := optional_parsed true Digest_TryFromHex "is not a digest" zero_digest m "evidence_digest" what in
  let? actor := optional_parsed true TryParseIdentity not_an_identity "" m "actor" what in
  let detail := text_or "" m "detail" in
  let? target := optional_parsed true TryParseIdentity not_an_identity "" m "target" what in
  let? object := optional_parsed true TryParseIdentity not_an_identity "" m "object" what in
  let? finding := optional_parsed true Digest_TryFromHex "is not a finding identity" zero_digest m "finding" what in
  inr (mkTimelineEntry kind target object finding sequence at_time state klass severity reason
         generation epoch digest actor detail).

(** ** Evidence references *)

Definition evidence_members : list string :=
  ["source"; "snapshot"; "epoch"; "incarnation"; "sequence"; "collected_at"; "received_at";
   "freshness"; "coverage"; "evidence"; "content_digest"].

Definition EncodeEvidenceRef (r : EvidenceRef) : Value :=
  V_Map (make_map [("source", V_String (ref_source r));
                   ("snapshot", V_String (ref_snapshot r));
                   ("epoch", MakeUint (ref_epoch r));
                   ("incarnation", MakeUint (ref_incarnation r));
                   ("sequence", MakeUint (ref_sequence r));
                   ("collected_at", V_String (FormatTime (ref_collected_at r)));
                   ("received_at", V_String (FormatTime (ref_received_at r)));
                   ("freshness", V_String (ToText_FreshnessState (ref_freshness r)));
                   ("coverage", V_String (ToText_ObservationCoverage (ref_coverage r)));
                   ("evidence", V_String (ToText_EvidenceClass (ref_evidence r)));
                   ("content_digest", V_String (Digest_ToHex (ref_content_digest r)))]).

Definition DecodeEvidenceRef (value : Value) : Decoded EvidenceRef :=
  let what := "evidence reference" in
  let? m := record_of value "evidence reference must be an object" in
  check CheckMembers m evidence_members what then
  let? source := required_identity m "source" what in
  let? snapshot := required_identity m "snapshot" what in
  let? epoch := RequireUint m "epoch" what in
  let? incarnation := RequireUint m "incarnation" what in
  let? sequence := RequireUint m "sequence" what in
  let? collected_at := optional_parsed false TryParseTime not_a_time 0 m "collected_at" what in
  let? received_at := optional_parsed false TryParseTime not_a_time 0 m "received_at" what in
  let? freshness := optional_enum TryParseFreshnessState FS_Unknown m "freshness" what in
  let? coverage := optional_enum TryParseObservationCoverage OC_Unknown m "coverage" what in
  let? evidence := optional_enum TryParseEvidenceClass EC_Unknown m "evidence" what in
  let? digest := optional_parsed false Digest_TryFromHex "is not a digest" zero_digest m "content_digest" what in
  inr (mkEvidenceRef source snapshot epoch incarnation sequence collected_at received_at freshness
         digest coverage evidence).

(** ** Findings *)

Definition finding_members : list string :=
  ["id"; "target"; "object"; "path"; "class"; "raw_class"; "severity"; "state"; "reason";
   "baseline_generation"; "baseline_epoch"; "baseline_authority"; "policy"; "policy_digest";
   "qualifier"; "has_intended"; "intended"; "has_observed"; "observed"; "evidence_freshness";
   "group"; "group_cause"; "observation_count"; "reopen_count"; "resolution_confirmations";
   "first_seen"; "last_seen"; "last_evaluated"; "resolved_at"; "suppression"; "suppression_origin";
   "suppressed_by"; "suppression_reason"; "suppression_expires_at"; "acknowledged_by";
   "acknowledged_at"; "acknowledgement_reason"; "compliance_relevant"; "summary"; "evidence";
   "timeline"].

Definition EncodeFinding (f : Finding) : Value :=
  V_Map (make_map [("id", V_String (Digest_ToHex (fd_id f)));
                   ("target", V_String (fi_target (fd_identity f)));
                   ("object", V_String (fi_object (fd_identity f)));
                   ("path", V_String (FieldPath_ToText (fi_path (fd_identity f))));
                   ("class", V_String (ToText_DriftClass (fd_klass f)));
                   ("raw_class", V_String (ToText_DriftClass (fd_raw_class f)));
                   ("severity", V_String (ToText_Severity (fd_severity f)));
                   ("state", V_String (ToText_FindingState (fd_state f)));
                   ("reason", V_String (ToText_ReasonCode (fd_reason f)));
                   ("baseline_generation", MakeUint (fd_baseline_generation f));
                   ("baseline_epoch", MakeUint (fd_baseline_epoch f));
                   ("baseline_authority", V_String (ToText_IntentAuthority (fd_baseline_authority f)));
                   ("policy", V_String (fd_policy f));
                   ("policy_digest", V_String (Digest_ToHex (fd_policy_digest f)));
                   ("qualifier", V_String (Digest_ToHex (fi_qualifier (fd_identity f))));
                   ("has_intended", V_Bool (fd_has_intended f));
                   ("intended", fd_intended f);
                   ("has_observed", V_Bool (fd_has_observed f));
                   ("observed", fd_observed f);
                   ("evidence_freshness", V_String (ToText_FreshnessState (fd_evidence_freshness f)));
                   ("group", V_String (hex_or_blank (fd_group f)));
                   ("group_cause", V_String (ToText_RootCauseKind (fd_group_cause f)));
                   ("observation_count", MakeUint (fd_observation_count f));
                   ("reopen_count", MakeUint (fd_reopen_count f));
                   ("resolution_confirmations", MakeUint (fd_resolution_confirmations f));
                   ("first_seen", V_String (FormatTime (fd_first_seen f)));
                   ("last_seen", V_String (FormatTime (fd_last_seen f)));
                   ("last_evaluated", V_String (FormatTime (fd_last_evaluated f)));
                   ("resolved_at", V_String (FormatTime (fd_resolved_at f)));
                   ("suppression", V_String (default "" (fd_suppression f)));
                   ("suppression_origin", V_String (ToText_SuppressionOrigin (fd_suppression_origin f)));
                   ("suppressed_by", V_String (fd_suppressed_by f));
                   ("suppression_reason", V_String (fd_suppression_reason f));
                   ("suppression_expires_at",
                     V_String (match fd_suppression_expires_at f with Some t => FormatTime t | None => "" end));
                   ("acknowledged_by", V_String (fd_acknowledged_by f));
                   ("acknowledged_at", V_String (FormatTime (fd_acknowledged_at f)));
                   ("acknowledgement_reason", V_String (fd_acknowledgement_reason f));
                   ("compliance_relevant", V_Bool (fd_compliance_relevant f));
                   ("summary", V_String (fd_summary f));
                   ("evidence", V_List (map EncodeEvidenceRef (fd_evidence f)));
                   ("timeline", V_List (map EncodeTimelineEntry (fd_timeline f)))]).

(** The identity members; the digest is derived from them, and a record whose
    stored identity does not match its content is refused. *)
Definition decode_identity_members (m : VMap) (limits : RuntimeLimits)
    : Decoded (Digest * string * string * FieldPath) :=
  let what := "finding" in
  let? id := required_parsed Digest_TryFromHex "is not a finding identity" m "id" what in
  let? target := required_identity m "target" what in
  let? object := required_identity m "object" what in
  let? path := DecodeFieldPath m limits what in
  inr (id, target, object, path).

Definition identity_agrees (id : Digest) (identity : FindingIdentity) : Status :=
  if eqb (ComputeId identity) id then Status_Ok
  else Status_Rejected RC_LedgerIntegrityDigestMismatch
         "finding identity does not match its identity members".

Definition confirmations_of (m : VMap) (what : string) : Decoded Z :=
  match OptionalUint m "resolution_confirmations" with
  | None => inr 0
  | Some count =>
      if UINT32_MAX <? count then inl (MemberError what "resolution_confirmations" "is out of range")
      else inr count
  end.

Definition stamp_of (m : VMap) (name what : string) : Decoded NdoTime :=
  optional_parsed true TryParseTime not_a_time 0 m name what.

Definition DecodeFinding (value : Value) (limits : RuntimeLimits) : Decoded Finding :=
  let what := "finding" in
  let? m := record_of value "finding must be an object" in
  check CheckMembers m finding_members what then
  let? (id, target, object, path) := decode_identity_members m limits in
  let? klass := required_enum TryParseDriftClass m "class" what in
  let? raw_class := optional_enum TryParseDriftClass klass m "raw_class" what in
  let? severity := optional_enum TryParseSeverity Sev_Medium m "severity" what in
  let? state := optional_enum TryParseFindingState St_Open m "state" what in
  let? reason := optional_enum TryParseReasonCode RC_None m "reason" what in
  let? generation := RequireUint m "baseline_generation" what in
  let epoch := uint_or 0 m "baseline_epoch" in
  let? authority := optional_enum TryParseIntentAuthority IA_Unknown m "baseline_authority" what in
  let? policy := optional_parsed false TryParseIdentity not_an_identity "" m "policy" what in
  let? policy_digest := optional_parsed false Digest_TryFromHex "is not a digest" zero_digest m "policy_digest" what in
  let? qualifier := optional_parsed true Digest_TryFromHex "is not a digest" zero_digest m "qualifier" what in
  let identity := mkIdentity target object path klass generation qualifier in
  check identity_agrees id identity then
  let has_intended := bool_or false m "has_intended" in
  let intended := value_or V_Null m "intended" in
  let has_observed := bool_or false m "has_observed" in
  let observed := value_or V_Null m "observed" in
  let? freshness := optional_enum TryParseFreshnessState FS_Unknown m "evidence_freshness" what in
  let? group := optional_parsed true Digest_TryFromHex "is not a group identity" zero_digest m "group" what in
  let? cause := optional_parsed false cause_named "is not recognized" RK_None m "group_cause" what in
  let observation_count := uint_or 0 m "observation_count" in
  let reopen_count := uint_or 0 m "reopen_count" in
  let? confirmations := confirmations_of m what in
  let? first_seen := stamp_of m "first_seen" what in
  let? last_seen := stamp_of m "last_seen" what in
  let? last_evaluated := stamp_of m "last_evaluated" what in
  let? resolved_at := stamp_of m "resolved_at" what in
  let? suppression := optional_parsed true (option_map Some ∘ TryParseIdentity) not_an_identity None m "suppression" what in
  let? origin := optional_enum TryParseSuppressionOrigin SO_None m "suppression_origin" what in
  let? suppressed_by := optional_parsed true TryParseIdentity not_an_identity "" m "suppressed_by" what in
  let suppression_reason := text_or "" m "suppression_reason" in
  let? expires := optional_parsed true (option_map Some ∘ TryParseTime) not_a_time None m "suppression_expires_at" what in
  let? acknowledged_by := optional_parsed true TryParseIdentity not_an_identity "" m "acknowledged_by" what in
  let? acknowledged_at := stamp_of m "acknowledged_at" what in
  let acknowledgement_reason := text_or "" m "acknowledgement_reason" in
  let relevant := bool_or true m "compliance_relevant" in
  let summary := text_or "" m "summary" in
  let? evidence := optional_list (at_most (max_evidence_refs_per_finding limits) RC_LimitBytesExceeded
                      "evidence references exceed the envelope") DecodeEvidenceRef m "evidence" what in
  let? timeline := optional_list (at_most (max_timeline_entries_per_finding limits) RC_LimitTimelineExceeded
                      "finding timeline exceeds the envelope") DecodeTimelineEntry m "timeline" what in
  inr (mkFinding id identity klass raw_class severity state reason generation epoch authority policy
         policy_digest has_intended intended has_observed observed evidence freshness group cause
         observation_count reopen_count confirmations first_seen last_seen last_evaluated resolved_at
         suppression origin suppressed_by suppression_reason expires acknowledged_by acknowledged_at
         acknowledgement_reason summary relevant timeline).

(** ** Groups *)

Definition group_members : list string :=
  ["id"; "target"; "baseline_generation"; "baseline_epoch"; "cause"; "discriminator"; "summary";
   "observation_count"; "first_seen"; "last_seen"; "members"; "objects"].

Definition EncodeGroup (g : RootCauseGroup) : Value :=
  V_Map (make_map [("id", V_String (Digest_ToHex (gr_id g)));
                   ("target", V_String (gr_target g));
                   ("baseline_generation", MakeUint (gr_baseline_generation g));
                   ("baseline_epoch", MakeUint (gr_baseline_epoch g));
                   ("cause", V_String (ToText_RootCauseKind (gr_cause g)));
                   ("discriminator", V_String (Digest_ToHex (gr_discriminator g)));
                   ("summary", V_String (gr_summary g));
                   ("observation_count", MakeUint (gr_observation_count g));
                   ("first_seen", V_String (FormatTime (gr_first_seen g)));
                   ("last_seen", V_String (FormatTime (gr_last_seen g)));
                   ("members", V_List (map (fun member => V_String (Digest_ToHex member)) (gr_members g)));
                   ("objects", V_List (map V_String (gr_objects g)))]).

Definition DecodeGroup (value : Value) : Decoded RootCauseGroup :=
  let what := "group" in
  let? m := record_of value "group must be an object" in
  check CheckMembers m group_members what then
  let? id := required_parsed Digest_TryFromHex "is not a group identity" m "id" what in
  let? target := required_identity m "target" what in
  let? generation := RequireUint m "baseline_generation" what in
  let epoch := uint_or 0 m "baseline_epoch" in
  let? cause := required_parsed cause_named "is not recognized" m "cause" what in
  let? discriminator := optional_parsed true Digest_TryFromHex "is not a digest" zero_digest m "discriminator" what in
  let summary := text_or "" m "summary" in
  let observation_count := uint_or 0 m "observation_count" in
  let? first_seen := stamp_of m "first_seen" what in
  let? last_seen := stamp_of m "last_seen" what in
  let? members := optional_list unbounded
      (text_entry Digest_TryFromHex "entry is not a finding identity" what "members") m "members" what in
  let? objects := optional_list unbounded
      (text_entry TryParseIdentity "entry is not a valid identity" what "objects") m "objects" what in
  inr (mkGroup id target generation epoch cause discriminator members objects summary
         observation_count first_seen last_seen).

(** ** Baselines *)

Definition baseline_members : list string :=
  ["target"; "generation"; "epoch"; "authority"; "policy"; "committed_at"; "content_digest";
   "evidence"; "objects"].

Definition EncodeBaseline (b : IntentBaseline) : Value :=
  V_Map (make_map [("target", V_String (base_target b));
                   ("generation", MakeUint (base_generation b));
                   ("epoch", MakeUint (base_epoch b));
                   ("authority", V_String (ToText_IntentAuthority (base_authority b)));
                   ("policy", V_String (base_policy b));
                   ("committed_at", V_String (FormatTime (base_committed_at b)));
                   ("content_digest", V_String (Digest_ToHex (base_content_digest b)));
                   ("evidence", V_String (ToText_EvidenceClass (base_evidence b)));
                   ("objects", V_List (map EncodeIntentObject (base_objects b)))]).

Definition DecodeBaselineField (limits : RuntimeLimits) (entry : Value) : Decoded (FieldPath * IntentField) :=
  let what := "baseline.field" in
  let? m := record_of entry "baseline field must be an object" in
  check CheckMembers m ["path"; "value"; "comparability"] what then
  let? path := DecodeFieldPath m limits what in
  let? intended := required_member m "value" what in
  let? comparability := optional_enum TryParseFieldComparability FC_Managed m "comparability" what in
  inr (path, mkIntentField path intended comparability).

Definition stored_existence (m : VMap) (what : string) : Decoded ObjectExistence :=
  match OptionalString m "existence" with
  | None => inr OE_Required
  | Some text =>
      if String.eqb text "required" then inr OE_Required
      else if String.eqb text "forbidden" then inr OE_Forbidden
      else inl (MemberError what "existence" "is not recognized")
  end.

Definition DecodeBaselineObject (limits : RuntimeLimits) (entry : Value) : Decoded (string * IntentObject) :=
  let what := "baseline.object" in
  let? m := record_of entry "baseline object must be an object" in
  check CheckMembers m ["id"; "existence"; "fields"] what then
  let? id := required_identity m "id" what in
  let? existence := stored_existence m what in
  let? fields := bounded_list m "fields" what (max_fields_per_object limits) RC_LimitFieldsExceeded
                   "baseline field count exceeds the envelope" in
  let? decoded := decode_entries (DecodeBaselineField limits) fields in
  inr (id, mkIntentObject id existence decoded).

Definition DecodeBaseline (value : Value) (limits : RuntimeLimits) : Decoded IntentBaseline :=
  let what := "baseline" in
  let? m := record_of value "baseline must be an object" in
  check CheckMembers m baseline_members what then
  let? target := required_identity m "target" what in
  let? generation := RequireUint m "generation" what in
  let? epoch := RequireUint m "epoch" what in
  let? authority := optional_enum TryParseIntentAuthority IA_Unknown m "authority" what in
  let? policy := optional_parsed false TryParseIdentity not_an_identity "" m "policy" what in
  let? committed_at := optional_parsed false TryParseTime not_a_time 0 m "committed_at" what in
  let? digest := optional_parsed false Digest_TryFromHex "is not a digest" zero_digest m "content_digest" what in
  let? evidence := optional_enum TryParseEvidenceClass EC_Unknown m "evidence" what in
  let? objects := bounded_list m "objects" what (max_objects_per_target limits) RC_LimitObjectsExceeded
                    "baseline object count exceeds the envelope" in
  let? decoded := decode_entries (DecodeBaselineObject limits) objects in
  inr (mkIntentBaseline target generation epoch authority policy committed_at digest evidence decoded).

(** ** Records the runtime keeps *)

Definition is_u32 (v : Z) : Prop := 0 <= v <= UINT32_MAX.
Definition time_from_epoch (t : NdoTime) : Prop := 0 <= t <= INT64_MAX.
Definition identity_text (text : string) : Prop := IsValidIdentityText text = true.
Definition blank_or_identity (text : string) : Prop := text = "" \/ identity_text text.
Definition plain_text (text : string) : Prop := IsValidUtf8 text = true.

(** What a timeline entry has to be to be stored without loss. *)
Record entry_kept (e : TimelineEntry) : Prop := {
  ek_sequence : is_u64 (tl_sequence e);
  ek_at : time_from_epoch (tl_at e);
  ek_generation : is_u64 (tl_baseline_generation e);
  ek_epoch : is_u64 (tl_baseline_epoch e);
  ek_digest : is_digest (tl_evidence_digest e);
  ek_finding : is_digest (tl_finding e);
  ek_actor : blank_or_identity (tl_actor e);
  ek_target : blank_or_identity (tl_target e);
  ek_object : blank_or_identity (tl_object e);
  ek_detail : plain_text (tl_detail e)
}.

Record reference_kept (r : EvidenceRef) : Prop := {
  rk_source : identity_text (ref_source r);
  rk_snapshot : identity_text (ref_snapshot r);
  rk_epoch : is_u64 (ref_epoch r);
  rk_incarnation : is_u64 (ref_incarnation r);
  rk_sequence : is_u64 (ref_sequence r);
  rk_collected : time_from_epoch (ref_collected_at r);
  rk_received : time_from_epoch (ref_received_at r);
  rk_digest : is_digest (ref_content_digest r)
}.

Record finding_kept (limits : RuntimeLimits) (f : Finding) : Prop := {
  fk_id : ComputeId (fd_identity f) = fd_id f;
  fk_id_digest : is_digest (fd_id f);
  fk_target : identity_text (fi_target (fd_identity f));
  fk_object : identity_text (fi_object (fd_identity f));
  fk_path : path_spelled limits (fi_path (fd_identity f));
  fk_path_text : plain_text (FieldPath_ToText (fi_path (fd_identity f)));
  fk_klass : fi_klass (fd_identity f) = fd_klass f;
  fk_generation : fi_baseline_generation (fd_identity f) = fd_baseline_generation f;
  fk_generation_u64 : is_u64 (fd_baseline_generation f);
  fk_qualifier : is_digest (fi_qualifier (fd_identity f));
  fk_epoch : is_u64 (fd_baseline_epoch f);
  fk_policy : identity_text (fd_policy f);
  fk_policy_digest : is_digest (fd_policy_digest f);
  fk_intended : writable (fd_intended f);
  fk_observed : writable (fd_observed f);
  fk_group : is_digest (fd_group f);
  fk_observation_count : is_u64 (fd_observation_count f);
  fk_reopen_count : is_u64 (fd_reopen_count f);
  fk_confirmations : is_u32 (fd_resolution_confirmations f);
  fk_first_seen : time_from_epoch (fd_first_seen f);
  fk_last_seen : time_from_epoch (fd_last_seen f);
  fk_last_evaluated : time_from_epoch (fd_last_evaluated f);
  fk_resolved_at : time_from_epoch (fd_resolved_at f);
  fk_suppression : forall id, fd_suppression f = Some id -> identity_text id;
  fk_suppressed_by : blank_or_identity (fd_suppressed_by f);
  fk_suppression_reason : plain_text (fd_suppression_reason f);
  fk_expires : forall t, fd_suppression_expires_at f = Some t -> time_from_epoch t;
  fk_acknowledged_by : blank_or_identity (fd_acknowledged_by f);
  fk_acknowledged_at : time_from_epoch (fd_acknowledged_at f);
  fk_acknowledgement_reason : plain_text (fd_acknowledgement_reason f);
  fk_summary : plain_text (fd_summary f);
  fk_evidence : Forall reference_kept (fd_evidence f);
  fk_evidence_size : vsize (fd_evidence f) <= max_evidence_refs_per_finding limits;
  fk_timeline : Forall entry_kept (fd_timeline f);
  fk_timeline_size : vsize (fd_timeline f) <= max_timeline_entries_per_finding limits
}.

Record group_kept (g : RootCauseGroup) : Prop := {
  gk_id : is_digest (gr_id g);
  gk_target : identity_text (gr_target g);
  gk_generation : is_u64 (gr_baseline_generation g);
  gk_epoch : is_u64 (gr_baseline_epoch g);
  gk_discriminator : is_digest (gr_discriminator g);
  gk_summary : plain_text (gr_summary g);
  gk_count : is_u64 (gr_observation_count g);
  gk_first_seen : time_from_epoch (gr_first_seen g);
  gk_last_seen : time_from_epoch (gr_last_seen g);
  gk_members : Forall is_digest (gr_members g);
  gk_objects : Forall identity_text (gr_objects g)
}.

Definition object_kept (limits : RuntimeLimits) (e : string * IntentObject) : Prop :=
  identity_text (fst e) /\ io_id (snd e) = fst e /\
  vsize (io_fields (snd e)) <= max_fields_per_object limits /\ msorted (io_fields (snd e)) /\
  Forall (fun f => if_path (snd f) = fst f /\ path_spelled limits (fst f) /\
                   field_writable (fst f) (if_intended (snd f))) (io_fields (snd e)).

Record baseline_kept (limits : RuntimeLimits) (b : IntentBaseline) : Prop := {
  bk_target : identity_text (base_target b);
  bk_generation : is_u64 (base_generation b);
  bk_epoch : is_u64 (base_epoch b);
  bk_policy : identity_text (base_policy b);
  bk_committed : time_from_epoch (base_committed_at b);
  bk_digest : is_digest (base_content_digest b);
  bk_size : vsize (base_objects b) <= max_objects_per_target limits;
  bk_sorted : msorted (base_objects b);
  bk_objects : Forall (object_kept limits) (base_objects b)
}.

(** ** Facts: members *)

Section Members.
Context (m : VMap) (name what : string).

Lemma required_parsed_ok {T} (parse : string -> option T) complaint text x :
  FindMember m name = Some (V_String text) -> parse text = Some x ->
  required_parsed parse complaint m name what = inr x.
Proof.
  intros Hm Hp. unfold required_parsed, RequireString, Require. rewrite Hm. cbn [as_string dbind]. by rewrite Hp.
Qed.

Lemma required_enum_ok {T} (parse : string -> option T) text x :
  FindMember m name = Some (V_String text) -> parse (c_str text) = Some x ->
  required_enum parse m name what = inr x.
Proof. intros Hm Hp. unfold required_enum. by apply (required_parsed_ok _ _ text). Qed.

Lemma optional_parsed_ok {T} blank (parse : string -> option T) complaint missing text x :
  FindMember m name = Some (V_String text) -> parse text = Some x -> (blank = true -> text <> "") ->
  optional_parsed blank parse complaint missing m name what = inr x.
Proof.
  intros Hm Hp Hb. unfold optional_parsed, OptionalString, Optional. rewrite Hm. cbn [as_string].
  rewrite Hp. destruct blank; [|done]. cbn [andb]. by rewrite (proj2 (String.eqb_neq _ _)) by auto.
Qed.

Lemma optional_parsed_blank {T} (parse : string -> option T) complaint missing :
  FindMember m name = Some (V_String "") -> optional_parsed true parse complaint missing m name what = inr missing.
Proof. intros Hm. unfold optional_parsed, OptionalString, Optional. by rewrite Hm. Qed.

Lemma text_or_ok missing text : FindMember m name = Some (V_String text) -> text_or missing m name = text.
Proof. intros Hm. unfold text_or, OptionalString, Optional. by rewrite Hm. Qed.

Lemma uint_or_ok missing v : FindMember m name = Some (MakeUint v) -> is_u64 v -> uint_or missing m name = v.
Proof. intros Hm [Hv _]. unfold uint_or, OptionalUint, Optional. by rewrite Hm, as_unsigned_MakeUint. Qed.

Lemma bool_or_ok missing b : FindMember m name = Some (V_Bool b) -> bool_or missing m name = b.
Proof. intros Hm. unfold bool_or, OptionalBool, Optional. by rewrite Hm. Qed.

Lemma value_or_ok missing v : FindMember m name = Some v -> value_or missing m name = v.
Proof. intros Hm. unfold value_or. by rewrite Hm. Qed.

Lemma TryParseIdentity_ok text : identity_text text -> TryParseIdentity text = Some text.
Proof. unfold identity_text, TryParseIdentity. by intros ->. Qed.

Lemma identity_not_blank text : identity_text text -> text <> "".
Proof. by intros H ->. Qed.

(** A stored identity that may be missing. *)
Lemma blank_identity_ok complaint text : FindMember m name = Some (V_String text) -> blank_or_identity text ->
  optional_parsed true TryParseIdentity complaint "" m name what = inr text.
Proof.
  intros Hm [->|Hv]; [by apply optional_parsed_blank|].
  eapply optional_parsed_ok; [done|by apply TryParseIdentity_ok|intros _; by apply identity_not_blank].
Qed.

Lemma hex_not_blank d : is_digest d -> Digest_ToHex d <> "".
Proof.
  intros [Hl _] E. apply (f_equal String.length) in E. unfold Digest_ToHex in E. rewrite ToHex_length, Hl in E. done.
Qed.

Lemma stored_digest_ok blank complaint d : FindMember m name = Some (V_String (Digest_ToHex d)) -> is_digest d ->
  optional_parsed blank Digest_TryFromHex complaint zero_digest m name what = inr d.
Proof.
  intros Hm Hd. eapply optional_parsed_ok; [done|by apply Digest_hex_round_trip|intros _; by apply hex_not_blank].
Qed.

Lemma blank_digest_ok complaint d : FindMember m name = Some (V_String (hex_or_blank d)) -> is_digest d ->
  optional_parsed true Digest_TryFromHex complaint zero_digest m name what = inr d.
Proof.
  intros Hm Hd. unfold hex_or_blank in Hm. destruct (Digest_is_set d) eqn:E; [by apply stored_digest_ok|].
  rewrite (unset_digest d) by (done || apply Hd). by apply optional_parsed_blank.
Qed.

(** A digest that may be missing, spelled with or without the missing case. *)
Definition spells_digest (text : string) (d : Digest) : Prop := text = Digest_ToHex d \/ text = hex_or_blank d.

Lemma spelled_digest_ok complaint text d : FindMember m name = Some (V_String text) ->
  spells_digest text d -> is_digest d ->
  optional_parsed true Digest_TryFromHex complaint zero_digest m name what = inr d.
Proof. intros Hm [->| ->] Hd; [by apply stored_digest_ok|by apply blank_digest_ok]. Qed.

Lemma spells_hex d : spells_digest (Digest_ToHex d) d.
Proof. by left. Qed.
Lemma spells_blank d : spells_digest (hex_or_blank d) d.
Proof. by right. Qed.

Lemma time_reads t : time_from_epoch t -> TryParseTime (FormatTime t) = Some t.
Proof.
  intros Ht. unfold time_from_epoch in Ht. rewrite FormatTime_reads_back by (unfold is_i64, INT64_MIN; lia).
  unfold reread_time. by rewrite (proj2 (Z.ltb_ge t 0)) by lia.
Qed.

Lemma time_not_blank t : time_from_epoch t -> FormatTime t <> "".
Proof. intros Ht E. apply time_reads in Ht. by rewrite E in Ht. Qed.

Lemma stored_time_ok blank complaint missing t : FindMember m name = Some (V_String (FormatTime t)) ->
  time_from_epoch t -> optional_parsed blank TryParseTime complaint missing m name what = inr t.
Proof.
  intros Hm Ht. eapply optional_parsed_ok; [done|by apply time_reads|intros _; by apply time_not_blank].
Qed.

Lemma cause_reads k : cause_named (ToText_RootCauseKind k) = Some k.
Proof. by destruct k. Qed.

Lemma optional_list_ok {A} (encode : A -> Value) bound (decode : Value -> Decoded A) l :
  FindMember m name = Some (V_List (map encode l)) -> bound (map encode l) = Status_Ok ->
  Forall (fun x => decode (encode x) = inr x) l -> optional_list bound decode m name what = inr l.
Proof.
  intros Hm Hb Hl. unfold optional_list. rewrite Hm. cbn [as_list]. rewrite Hb. unfold checked.
  change (status_ok Status_Ok) with true. cbv iota. rewrite (dmap_map _ _ id) by exact Hl. by rewrite map_id.
Qed.

Lemma at_most_ok {A} (f : A -> Value) limit reason complaint l : vsize l <= limit ->
  at_most limit reason complaint (map f l) = Status_Ok.
Proof. intros Hl. unfold at_most, vsize in *. rewrite length_map. by rewrite (proj2 (Z.ltb_ge _ _)). Qed.
End Members.

Lemma state_reads s : TryParseFindingState (c_str (ToText_FindingState s)) = Some s.
Proof. by destruct s. Qed.
Lemma event_reads k : TryParseTimelineEventKind (c_str (ToText_TimelineEventKind k)) = Some k.
Proof. by destruct k. Qed.
Lemma klass_reads k : TryParseDriftClass (c_str (ToText_DriftClass k)) = Some k.
Proof. by destruct k. Qed.
Lemma severity_reads s : TryParseSeverity (c_str (ToText_Severity s)) = Some s.
Proof. by destruct s. Qed.
Lemma freshness_reads s : TryParseFreshnessState (c_str (ToText_FreshnessState s)) = Some s.
Proof. by destruct s. Qed.
Lemma origin_reads s : TryParseSuppressionOrigin (c_str (ToText_SuppressionOrigin s)) = Some s.
Proof. by destruct s. Qed.

(** ** Facts: what was stored is read back *)

(** The declared members of a record are all there is to it. *)
Ltac record_members :=
  cbn [record_of as_map dbind]; rewrite CheckMembers_make_map by reflexivity;
  unfold checked at 1; change (status_ok Status_Ok) with true; cbv iota.

Create HintDb stored discriminated.
#[local] Hint Constants Opaque : stored.
#[local] Hint Resolve state_reads event_reads klass_reads severity_reads freshness_reads origin_reads
  reason_text_reads coverage_reads evidence_text_reads authority_reads comparability_reads
  cause_reads time_reads Digest_hex_round_trip TryParseIdentity_ok spells_hex spells_blank : stored.

(** Reads the next member with the given lemma: the member is found by
    evaluation, what it has to satisfy is known. *)
Tactic Notation "read" uconstr(H) :=
  erewrite H; [cbn [dbind]|first [found | solve [eauto with stored nocore] | eassumption | done]..].

(** Reads member after member, whatever its shape. *)
Ltac read_stored :=
  repeat lazymatch goal with
  | |- dbind (required_parsed _ _ _ _ _) _ = _ => read required_parsed_ok
  | |- dbind (required_enum _ _ _ _) _ = _ => read required_enum_ok
  | |- dbind (required_identity _ _ _) _ = _ => read required_identity_ok
  | |- dbind (RequireUint _ _ _) _ = _ => read required_uint_ok
  | |- dbind (DecodeFieldPath _ _ _) _ = _ => read DecodeFieldPath_ok
  | |- dbind (optional_enum _ _ _ _ _) _ = _ => read optional_enum_ok
  | |- dbind (optional_parsed _ cause_named _ _ _ _ _) _ = _ => read optional_parsed_ok
  | |- dbind (optional_parsed true TryParseIdentity _ _ _ _ _) _ = _ => read blank_identity_ok
  | |- dbind (optional_parsed false TryParseIdentity _ _ _ _ _) _ = _ => read optional_parsed_ok
  | |- dbind (optional_parsed _ TryParseTime _ _ _ _ _) _ = _ => read stored_time_ok
  | |- dbind (optional_parsed true Digest_TryFromHex _ _ _ _ _) _ = _ => read spelled_digest_ok
  | |- dbind (optional_parsed false Digest_TryFromHex _ _ _ _ _) _ = _ => read stored_digest_ok
  end.

Lemma DecodeTimelineEntry_Encode e : entry_kept e -> DecodeTimelineEntry (EncodeTimelineEntry e) = inr e.
Proof.
  intros []. unfold DecodeTimelineEntry, EncodeTimelineEntry. record_members. read_stored.
  do 2 read uint_or_ok. read text_or_ok. by destruct e.
Qed.

Lemma DecodeEvidenceRef_Encode r : reference_kept r -> DecodeEvidenceRef (EncodeEvidenceRef r) = inr r.
Proof.
  intros []. unfold DecodeEvidenceRef, EncodeEvidenceRef. record_members. read_stored. by destruct r.
Qed.

Lemma DecodeGroup_Encode g : group_kept g -> DecodeGroup (EncodeGroup g) = inr g.
Proof.
  intros []. unfold DecodeGroup, EncodeGroup, stamp_of. record_members. read_stored.
  erewrite optional_list_ok; [cbn [dbind]|found|done|].
  2: { eapply Forall_impl; [eassumption|]. intros d Hd. unfold text_entry. cbn [as_string].
       by rewrite Digest_hex_round_trip. }
  erewrite optional_list_ok; [cbn [dbind]|found|done|].
  2: { eapply Forall_impl; [eassumption|]. intros text Ht. unfold text_entry. cbn [as_string].
       by rewrite TryParseIdentity_ok. }
  do 2 read uint_or_ok. read text_or_ok. by destruct g.
Qed.

Lemma suppression_reads (m : VMap) name what complaint (o : option string) :
  FindMember m name = Some (V_String (default "" o)) -> (forall id, o = Some id -> identity_text id) ->
  optional_parsed true (option_map Some ∘ TryParseIdentity) complaint None m name what = inr o.
Proof.
  intros Hm Ho. destruct o as [id|]; [|by apply optional_parsed_blank]. specialize (Ho id eq_refl).
  eapply optional_parsed_ok; [exact Hm| |intros _; by apply identity_not_blank].
  unfold compose. cbn. by rewrite TryParseIdentity_ok.
Qed.

Lemma expiry_reads (m : VMap) name what complaint (o : option NdoTime) :
  FindMember m name = Some (V_String (match o with Some t => FormatTime t | None => "" end)) ->
  (forall t, o = Some t -> time_from_epoch t) ->
  optional_parsed true (option_map Some ∘ TryParseTime) complaint None m name what = inr o.
Proof.
  intros Hm Ho. destruct o as [t|]; [|by apply optional_parsed_blank]. specialize (Ho t eq_refl).
  eapply optional_parsed_ok; [exact Hm| |intros _; by apply time_not_blank].
  unfold compose. by rewrite time_reads.
Qed.

Lemma confirmations_read (m : VMap) what v : FindMember m "resolution_confirmations" = Some (MakeUint v) ->
  is_u32 v -> confirmations_of m what = inr v.
Proof.
  intros Hm [H0 H1]. unfold confirmations_of, OptionalUint, Optional. rewrite Hm, as_unsigned_MakeUint by done.
  by rewrite (proj2 (Z.ltb_ge _ _)).
Qed.

Lemma identity_members_read l limits f : finding_kept limits f ->
  mfind "id" l = Some (V_String (Digest_ToHex (fd_id f))) ->
  mfind "target" l = Some (V_String (fi_target (fd_identity f))) ->
  mfind "object" l = Some (V_String (fi_object (fd_identity f))) ->
  mfind "path" l = Some (V_String (FieldPath_ToText (fi_path (fd_identity f)))) ->
  decode_identity_members (make_map l) limits =
  inr (fd_id f, fi_target (fd_identity f), fi_object (fd_identity f), fi_path (fd_identity f)).
Proof.
  intros [] H1 H2 H3 H4. unfold decode_identity_members.
  erewrite required_parsed_ok; [cbn [dbind]|by rewrite FindMember_make_map|by apply Digest_hex_round_trip].
  erewrite required_identity_ok; [cbn [dbind]|by rewrite FindMember_make_map|done].
  erewrite required_identity_ok; [cbn [dbind]|by rewrite FindMember_make_map|done].
  erewrite DecodeFieldPath_ok; [cbn [dbind]|by rewrite FindMember_make_map|done]. done.
Qed.

Lemma DecodeFinding_Encode limits f : finding_kept limits f -> DecodeFinding (EncodeFinding f) limits = inr f.
Proof.
  intros Hf. unfold DecodeFinding, EncodeFinding, stamp_of. record_members.
  rewrite (identity_members_read _ limits f) by (assumption || reflexivity). destruct Hf. cbn [dbind].
  read_stored.
  assert (Hi : mkIdentity (fi_target (fd_identity f)) (fi_object (fd_identity f)) (fi_path (fd_identity f))
    (fd_klass f) (fd_baseline_generation f) (fi_qualifier (fd_identity f)) = fd_identity f)
    by (rewrite <- fk_klass0, <- fk_generation0; by destruct (fd_identity f)).
  rewrite Hi. unfold identity_agrees. rewrite fk_id0, eqb_refl. unfold checked at 1.
  change (status_ok Status_Ok) with true. cbv iota. read_stored.
  read confirmations_read. read_stored. read suppression_reads. read_stored. read expiry_reads. read_stored.
  erewrite optional_list_ok; [cbn [dbind]|found|by apply at_most_ok|].
  2: { eapply Forall_impl; [eassumption|]. apply DecodeEvidenceRef_Encode. }
  erewrite optional_list_ok; [cbn [dbind]|found|by apply at_most_ok|].
  2: { eapply Forall_impl; [eassumption|]. apply DecodeTimelineEntry_Encode. }
  repeat read uint_or_ok. repeat read text_or_ok. repeat read bool_or_ok. repeat read value_or_ok.
  by destruct f.
Qed.

Lemma DecodeBaselineField_Encode limits f : if_path (snd f) = fst f -> path_spelled limits (fst f) ->
  DecodeBaselineField limits (EncodeIntentField f) = inr f.
Proof.
  intros Hk Hp. unfold DecodeBaselineField, EncodeIntentField. record_members. read_stored.
  unfold required_member. rewrite FindMember_make_map.
  match goal with |- context [mfind "value" ?l] => change (mfind "value" l) with (Some (if_intended (snd f))) end.
  cbn [dbind]. read_stored. destruct f as [p [q i c]]. cbn [fst snd if_path] in *. by subst.
Qed.

Lemma stored_existence_reads m what o : FindMember m "existence" = Some (V_String (ToText_ObjectExistence o)) ->
  stored_existence m what = inr o.
Proof. intros Hm. unfold stored_existence, OptionalString, Optional. rewrite Hm. by destruct o. Qed.

Lemma DecodeBaselineObject_Encode limits e : object_kept limits e ->
  DecodeBaselineObject limits (EncodeIntentObject e) = inr e.
Proof.
  intros (Hid & Hk & Hn & Hs & Hf). unfold DecodeBaselineObject, EncodeIntentObject. record_members. read_stored.
  read stored_existence_reads.
  erewrite bounded_list_ok; [|found|unfold vsize in *; by rewrite length_map]. cbn [dbind].
  rewrite decode_entries_map;
    [|done|eapply Forall_impl; [exact Hf|intros f (? & ? & _); by apply DecodeBaselineField_Encode]].
  cbn [dbind]. destruct e as [id [oid existence fields]]. cbn [fst snd io_id] in *. by subst.
Qed.

Lemma DecodeBaseline_Encode limits b : baseline_kept limits b -> DecodeBaseline (EncodeBaseline b) limits = inr b.
Proof.
  intros []. unfold DecodeBaseline, EncodeBaseline. record_members. read_stored.
  erewrite bounded_list_ok; [|found|unfold vsize in *; by rewrite length_map]. cbn [dbind].
  rewrite decode_entries_map;
    [|done|eapply Forall_impl; [eassumption|intros e; apply DecodeBaselineObject_Encode]].
  cbn [dbind]. by destruct b.
Qed.

(** ** Facts: what is stored can be written *)

Lemma hex_plain d : is_digest d -> plain_text (Digest_ToHex d).
Proof. intros [_ Hb]. by apply hex_utf8. Qed.
Lemma hex_or_blank_plain d : is_digest d -> plain_text (hex_or_blank d).
Proof. unfold hex_or_blank. destruct (Digest_is_set d); [apply hex_plain|done]. Qed.
Lemma identity_plain text : identity_text text -> plain_text text.
Proof. apply identity_utf8. Qed.
Lemma blank_or_identity_plain text : blank_or_identity text -> plain_text text.
Proof. intros [->|H]; [done|by apply identity_plain]. Qed.
Lemma time_plain t : plain_text (FormatTime t).
Proof. apply FormatTime_utf8. Qed.
Lemma reason_plain r : plain_text (ToText_ReasonCode r).
Proof. apply utf8_reason. Qed.
Lemma evidence_plain e : plain_text (ToText_EvidenceClass e).
Proof. apply utf8_evidence. Qed.
Lemma state_plain s : plain_text (ToText_FindingState s).
Proof. by destruct s. Qed.
Lemma event_plain k : plain_text (ToText_TimelineEventKind k).
Proof. by destruct k. Qed.
Lemma klass_plain k : plain_text (ToText_DriftClass k).
Proof. by destruct k. Qed.
Lemma severity_plain s : plain_text (ToText_Severity s).
Proof. by destruct s. Qed.
Lemma freshness_plain s : plain_text (ToText_FreshnessState s).
Proof. by destruct s. Qed.
Lemma coverage_plain c : plain_text (ToText_ObservationCoverage c).
Proof. by destruct c. Qed.
Lemma authority_plain a : plain_text (ToText_IntentAuthority a).
Proof. by destruct a. Qed.
Lemma cause_plain k : plain_text (ToText_RootCauseKind k).
Proof. by destruct k. Qed.
Lemma origin_plain s : plain_text (ToText_SuppressionOrigin s).
Proof. by destruct s. Qed.
Lemma existence_plain o : plain_text (ToText_ObjectExistence o).
Proof. by destruct o. Qed.
Lemma comparability_plain c : plain_text (ToText_FieldComparability c).
Proof. by destruct c. Qed.
Lemma suppression_plain o : (forall id, o = Some id -> identity_text id) -> plain_text (default "" o).
Proof. intros H. destruct o; [by apply identity_plain, H|done]. Qed.
Lemma expiry_plain o : plain_text (match o with Some t => FormatTime t | None => "" end).
Proof. destruct o; [apply time_plain|done]. Qed.
Lemma u32_u64 v : is_u32 v -> is_u64 v.
Proof. unfold is_u32, is_u64, UINT32_MAX, UINT64_MAX. lia. Qed.

Create HintDb plain discriminated.
#[export] Hint Constants Opaque : plain.
#[export] Hint Resolve hex_plain hex_or_blank_plain identity_plain blank_or_identity_plain time_plain
  reason_plain evidence_plain state_plain event_plain klass_plain severity_plain freshness_plain
  coverage_plain authority_plain cause_plain origin_plain existence_plain comparability_plain
  suppression_plain expiry_plain u32_u64 : plain.

(** Every member of a record is text, a flag, a counter or a document. *)
Ltac plain_members :=
  writable_members;
  try lazymatch goal with
  | |- IsValidUtf8 ?t = true => change (plain_text t); solve [eauto with plain nocore]
  | |- is_u64 _ => solve [eauto with plain nocore]
  | |- writable _ => eassumption
  end.

Lemma EncodeTimelineEntry_writable e : entry_kept e -> writable (EncodeTimelineEntry e).
Proof. intros []. unfold EncodeTimelineEntry. plain_members. Qed.

Lemma EncodeEvidenceRef_writable r : reference_kept r -> writable (EncodeEvidenceRef r).
Proof. intros []. unfold EncodeEvidenceRef. plain_members. Qed.

Lemma writable_records {A} (f : A -> Value) (P : A -> Prop) l :
  (forall x, P x -> writable (f x)) -> Forall P l -> writable (V_List (map f l)).
Proof. intros Hf Hl. apply writable_list_of, Forall_map. by eapply Forall_impl; [exact Hl|]. Qed.

Lemma EncodeFinding_writable limits f : finding_kept limits f -> writable (EncodeFinding f).
Proof.
  intros []. unfold EncodeFinding. plain_members.
  - eapply writable_records; [|eassumption]. apply EncodeEvidenceRef_writable.
  - eapply writable_records; [|eassumption]. apply EncodeTimelineEntry_writable.
Qed.

Lemma EncodeGroup_writable g : group_kept g -> writable (EncodeGroup g).
Proof.
  intros []. unfold EncodeGroup. plain_members.
  - eapply (writable_records _ is_digest); [|eassumption]. intros d. apply hex_plain.
  - eapply (writable_records _ identity_text); [|eassumption]. intros t. apply identity_plain.
Qed.

Lemma EncodeIntentObject_writable limits e : object_kept limits e -> writable (EncodeIntentObject e).
Proof.
  intros (Hid & _ & _ & _ & Hf). unfold EncodeIntentObject. plain_members.
  eapply writable_records; [|exact Hf]. intros f (_ & _ & Hp & Hv). unfold EncodeIntentField. plain_members.
Qed.

Lemma EncodeBaseline_writable limits b : baseline_kept limits b -> writable (EncodeBaseline b).
Proof.
  intros []. unfold EncodeBaseline. plain_members.
  eapply writable_records; [|eassumption]. apply EncodeIntentObject_writable.
Qed.
