(* ===== verification/PolicyCodec.v ===== *)
(** * The policy document

    policy.cpp, [EncodePolicy] and [DecodePolicy] with the selectors: a policy as
    a value tree, and from JSON text through the parser of Json.v. *)

From Stdlib Require Import ZArith Lia List Bool String.
From stdpp Require Import base tactics list strings.
From S2P Require Import Prelude Containers Text Status Time Identity Double Value Drift Intent.
From S2P Require Import Observation Freshness Policy.
From S2P Require Import Json JsonGrammar JsonTokens JsonCodec JsonHelp Wire Interchange Durable.
#[local] Open Scope string_scope.
#[local] Open Scope Z_scope.
#[local] Arguments String.append : simpl nomatch.

(** ** Encoding *)

(** A member that is there when the option has a value. *)
Definition opt_member {A} (name : string) (encode : A -> Value) (o : option A) : list (string * Value) :=
  match o with Some x => [(name, encode x)] | None => [] end.

Definition EncodeSelector (selector : PolicySelector) : list (string * Value) :=
  (opt_member "target" V_String (sel_target selector) ++
   opt_member "object" V_String (sel_object selector) ++
   opt_member "path_prefix" (fun p => V_String (FieldPath_ToText p)) (sel_path_prefix selector))%list.

Definition class_member (klass : option DriftClass) : list (string * Value) :=
  opt_member "class" (fun k => V_String (ToText_DriftClass k)) klass.
Definition minimum_member (minimum : option Severity) : list (string * Value) :=
  opt_member "min_severity" (fun s => V_String (ToText_Severity s)) minimum.

Definition EncodeSeverityRule (rule : SeverityRule) : Value :=
  V_Map (make_map (EncodeSelector (sr_selector rule) ++ class_member (sr_klass rule) ++
    minimum_member (sr_min_severity rule) ++ [("severity", V_String (ToText_Severity (sr_severity rule)))])).

Definition EncodeFreshnessRule (rule : FreshnessRule) : Value :=
  V_Map (make_map (EncodeSelector (fr_selector rule) ++ [("ttl_nanos", V_Int (fr_ttl_nanos rule))])).

Definition EncodeFieldClassRule (rule : FieldClassRule) : Value :=
  V_Map (make_map (EncodeSelector (fc_selector rule) ++
    [("comparability", V_String (ToText_FieldComparability (fc_comparability rule)))])).

Definition EncodeSuppressionRule (rule : SuppressionRule) : Value :=
  V_Map (make_map (EncodeSelector (sup_selector rule) ++ [("id", V_String (sup_id rule))] ++
    class_member (sup_klass rule) ++ minimum_member (sup_min_severity rule) ++
    [("author", V_String (sup_author rule)); ("reason", V_String (sup_reason rule));
     ("created_at", V_String (FormatTime (sup_created_at rule)))] ++
    opt_member "expires_at" (fun t => V_String (FormatTime t)) (sup_expires_at rule))).

Definition EncodeFreshnessPolicy (p : FreshnessPolicy) : Value :=
  V_Map (make_map [("ttl_nanos", V_Int (fp_ttl_nanos p));
                   ("aging_threshold_percent", V_Int (fp_aging_threshold_percent p));
                   ("max_clock_skew_nanos", V_Int (fp_max_clock_skew_nanos p));
                   ("ttl_applies_to_receive_time", V_Bool (fp_ttl_applies_to_receive_time p))]).

Definition equivalence_text (n : NumericEquivalence) : string :=
  if eqb n NE_Exact then "exact" else "numeric".

Definition EncodePolicy (p : ObservatoryPolicy) : Value :=
  V_Map (make_map [("schema", V_String "ndo/policy/1");
                   ("id", V_String (pol_id p));
                   ("format_version", MakeUint (pol_format_version p));
                   ("freshness", EncodeFreshnessPolicy (pol_freshness p));
                   ("resolution_confirmations", MakeUint (pol_resolution_confirmations p));
                   ("require_complete_coverage_for_compliance", V_Bool (pol_require_complete_coverage p));
                   ("require_absence_authority", V_Bool (pol_require_absence_authority p));
                   ("numeric_equivalence", V_String (equivalence_text (pol_numeric_equivalence p)));
                   ("default_severity", V_String (ToText_Severity (pol_default_severity p)));
                   ("evidence", V_String (ToText_EvidenceClass (pol_evidence p)));
                   ("severity_rules", V_List (map EncodeSeverityRule (pol_severity_rules p)));
                   ("freshness_rules", V_List (map EncodeFreshnessRule (pol_freshness_rules p)));
                   ("field_class_rules", V_List (map EncodeFieldClassRule (pol_field_class_rules p)));
                   ("suppressions", V_List (map EncodeSuppressionRule (pol_suppressions p)));
                   ("source_priority", V_List (map V_String (pol_source_priority p)));
                   ("required_targets", V_List (map V_String (pol_required_targets p)))]).

(** ** Decoding *)

Definition malformed (complaint : string) : Status := Status_Rejected RC_EncodingMalformed complaint.

(** An optional text that [parse] reads. *)
Definition policy_text {T} (parse : string -> option T) (complaint : string) (missing : T) (m : VMap)
    (name : string) : Decoded T :=
  match OptionalString m name with
  | None => inr missing
  | Some text => match parse text with Some x => inr x | None => inl (malformed complaint) end
  end.

(** A required text that [parse] reads. *)
Definition policy_required {T} (parse : string -> option T) (complaint : string) (m : VMap)
    (name what : string) : Decoded T :=
  let? text := RequireString m name what in
  match parse text with Some x => inr x | None => inl (malformed complaint) end.

Definition class_named (text : string) : option (option DriftClass) :=
  option_map Some (TryParseDriftClass (c_str text)).
Definition severity_named (text : string) : option Severity := TryParseSeverity (c_str text).

Definition selector_kinds : list (string * MemberKind) :=
  [("target", MK_Text); ("object", MK_Text); ("path_prefix", MK_Text)].

Definition DecodeSelector (m : VMap) (limits : RuntimeLimits) (what : string) : Decoded PolicySelector :=
  check CheckMemberKinds m selector_kinds what then
  let? target := optional_parsed false (option_map Some ∘ TryParseIdentity) not_an_identity None m "target" what in
  let? object := optional_parsed false (option_map Some ∘ TryParseIdentity) not_an_identity None m "object" what in
  let? path := optional_parsed false
                 (option_map Some ∘ FieldPath_TryParse (max_path_segments limits) (max_path_key_bytes limits))
                 "is not a valid field path" None m "path_prefix" what in
  inr (mkSelector target object path).

(** The object of an entry, its members and their kinds checked. *)
Definition rule_of (entry : Value) (complaint : string) (members : list string)
    (kinds : list (string * MemberKind)) (what : string) : Decoded VMap :=
  match as_map entry with
  | None => inl (malformed complaint)
  | Some m =>
      check CheckMembers m members what then
      check CheckMemberKinds m kinds what then
      inr m
  end.

Definition DecodeSeverityRule (limits : RuntimeLimits) (entry : Value) : Decoded SeverityRule :=
  let what := "policy.severity_rule" in
  let? m := rule_of entry "policy: severity rule must be an object"
              ["target"; "object"; "path_prefix"; "class"; "min_severity"; "severity"]
              [("class", MK_Text); ("min_severity", MK_Text); ("severity", MK_Text)] what in
  let? selector := DecodeSelector m limits what in
  let? klass := policy_text class_named "policy: severity rule class is unknown" None m "class" in
  let? minimum := policy_text (option_map Some ∘ severity_named)
                    "policy: severity rule min_severity is unknown" None m "min_severity" in
  let? severity := policy_text severity_named "policy: severity is unknown" Sev_Medium m "severity" in
  inr (mkSeverityRule selector klass minimum severity).

Definition DecodeFreshnessRule (limits : RuntimeLimits) (entry : Value) : Decoded FreshnessRule :=
  let what := "policy.freshness_rule" in
  let? m := rule_of entry "policy: freshness rule must be an object"
              ["target"; "object"; "path_prefix"; "ttl_nanos"] [("ttl_nanos", MK_Integer)] what in
  let? selector := DecodeSelector m limits what in
  match OptionalInt m "ttl_nanos" with
  | Some ttl =>
      if ttl <=? 0 then inl (malformed "policy: freshness rule ttl is required")
      else inr (mkFreshnessRule selector ttl)
  | None => inl (malformed "policy: freshness rule ttl is required")
  end.

Definition DecodeFieldClassRule (limits : RuntimeLimits) (entry : Value) : Decoded FieldClassRule :=
  let what := "policy.field_class_rule" in
  let? m := rule_of entry "policy: field class rule must be an object"
              ["target"; "object"; "path_prefix"; "comparability"] [("comparability", MK_Text)] what in
  let? selector := DecodeSelector m limits what in
  match OptionalString m "comparability" with
  | None => inl (malformed "policy: comparability is required")
  | Some text =>
      match TryParseFieldComparability (c_str text) with
      | None => inl (malformed "policy: comparability is unknown")
      | Some comparability => inr (mkFieldClassRule selector comparability)
      end
  end.

Definition DecodeSuppressionRule (limits : RuntimeLimits) (entry : Value) : Decoded SuppressionRule :=
  let what := "policy.suppression" in
  let? m := rule_of entry "policy: suppression must be an object"
              ["id"; "target"; "object"; "path_prefix"; "class"; "min_severity"; "author"; "reason";
               "created_at"; "expires_at"]
              [("id", MK_Text); ("class", MK_Text); ("min_severity", MK_Text); ("author", MK_Text);
               ("reason", MK_Text); ("created_at", MK_Text); ("expires_at", MK_Text)] what in
  let? selector := DecodeSelector m limits what in
  let? id := policy_required TryParseIdentity "policy: suppression id is invalid" m "id" what in
  let? author := policy_required TryParseIdentity "policy: suppression author is invalid" m "author" what in
  let? reason := RequireString m "reason" what in
  let? created := policy_required TryParseTime "policy: suppression created_at is invalid" m "created_at" what in
  let? expires := policy_text (option_map Some ∘ TryParseTime) "policy: suppression expires_at is invalid"
                    None m "expires_at" in
  let? klass := policy_text class_named "policy: suppression class is unknown" None m "class" in
  let? minimum := policy_text (option_map Some ∘ severity_named)
                    "policy: suppression min_severity is unknown" None m "min_severity" in
  inr (mkSuppressionRule id selector klass minimum author reason created expires).

(** A list of entries, bounded when [limit] says so. *)
Definition policy_list {A} (name : string) (limit : option Z) (decode : Value -> Decoded A) (m : VMap)
    : Decoded (list A) :=
  match FindMember m name with
  | None => inr []
  | Some member =>
      match as_list member with
      | None => inl (malformed ("policy: " +:+ name +:+ " must be a sequence"))
      | Some entries =>
          if match limit with Some n => n <? vsize entries | None => false end
          then inl (Status_Limit RC_LimitFieldsExceeded ("policy: " +:+ name +:+ " exceeds the envelope"))
          else dmap decode entries
      end
  end.

(** An identity in a list; [kind] is what it identifies. *)
Definition DecodeIdentityEntry (kind : string) (entry : Value) : Decoded string :=
  match as_string entry with
  | None => inl (malformed ("policy: " +:+ kind +:+ " identity must be a string"))
  | Some text =>
      match TryParseIdentity text with
      | Some id => inr id
      | None => inl (malformed ("policy: " +:+ kind +:+ " identity is invalid"))
      end
  end.

Definition DecodeFreshnessPolicy (m : VMap) : Decoded FreshnessPolicy :=
  let what := "policy.freshness" in
  check CheckMembers m ["ttl_nanos"; "aging_threshold_percent"; "max_clock_skew_nanos";
                        "ttl_applies_to_receive_time"] what then
  check CheckMemberKinds m [("ttl_nanos", MK_Integer); ("aging_threshold_percent", MK_Integer);
                            ("max_clock_skew_nanos", MK_Integer);
                            ("ttl_applies_to_receive_time", MK_Boolean)] what then
  match OptionalInt m "ttl_nanos" with
  | None => inl (malformed "policy.freshness: ttl_nanos is required")
  | Some ttl =>
      let aging := default (fp_aging_threshold_percent default_freshness)
                     (OptionalInt m "aging_threshold_percent") in
      if (aging <? 0) || (100 <? aging)
      then inl (malformed "policy.freshness: aging_threshold_percent is out of range")
      else
        inr (mkFreshnessPolicy ttl aging
               (default (fp_max_clock_skew_nanos default_freshness) (OptionalInt m "max_clock_skew_nanos"))
               (bool_or (fp_ttl_applies_to_receive_time default_freshness) m "ttl_applies_to_receive_time"))
  end.

Definition equivalence_named (text : string) : option NumericEquivalence :=
  if String.eqb text "exact" then Some NE_Exact
  else if String.eqb text "numeric" then Some NE_Numeric else None.

Definition policy_confirmations (m : VMap) : Decoded Z :=
  match OptionalUint m "resolution_confirmations" with
  | None => inr (pol_resolution_confirmations Policy_Default)
  | Some count =>
      if (count =? 0) || (UINT32_MAX <? count)
      then inl (malformed "policy: resolution_confirmations is out of range")
      else inr count
  end.

Definition policy_version (m : VMap) : Decoded Z :=
  let? version := RequireUint m "format_version" "policy" in
  if 0xFFFF <? version then inl (malformed "policy: format version is out of range")
  else if negb (version =? kPolicyFormatVersion)
  then inl (Status_Rejected RC_LedgerSchemaUnsupported "policy: format version is not supported")
  else inr version.

Definition policy_members : list string :=
  ["schema"; "id"; "format_version"; "freshness"; "resolution_confirmations";
   "require_complete_coverage_for_compliance"; "require_absence_authority"; "numeric_equivalence";
   "default_severity"; "evidence"; "severity_rules"; "freshness_rules"; "field_class_rules";
   "suppressions"; "source_priority"; "required_targets"].

Definition policy_kinds : list (string * MemberKind) :=
  [("id", MK_Text); ("format_version", MK_Integer); ("resolution_confirmations", MK_Integer);
   ("require_complete_coverage_for_compliance", MK_Boolean); ("require_absence_authority", MK_Boolean);
   ("numeric_equivalence", MK_Text); ("default_severity", MK_Text); ("evidence", MK_Text);
   ("severity_rules", MK_Sequence); ("freshness_rules", MK_Sequence); ("field_class_rules", MK_Sequence);
   ("suppressions", MK_Sequence); ("source_priority", MK_Sequence); ("required_targets", MK_Sequence)].

Definition DecodePolicy (value : Value) (limits : RuntimeLimits) : Decoded ObservatoryPolicy :=
  let? m := RequireObject value "policy" in
  check CheckMembers m policy_members "policy" then
  check CheckMemberKinds m policy_kinds "policy" then
  let? id := policy_required TryParseIdentity "policy: id is not a valid identity" m "id" "policy" in
  let? version := policy_version m in
  let? freshness_map := RequireMap m "freshness" "policy" in
  let? freshness := DecodeFreshnessPolicy freshness_map in
  let? confirmations := policy_confirmations m in
  let coverage := bool_or (pol_require_complete_coverage Policy_Default) m
                    "require_complete_coverage_for_compliance" in
  let absence := bool_or (pol_require_absence_authority Policy_Default) m "require_absence_authority" in
  let? equivalence := policy_text equivalence_named "policy: numeric_equivalence is not recognized"
                        (pol_numeric_equivalence Policy_Default) m "numeric_equivalence" in
  let? severity := policy_text severity_named "policy: default_severity is not recognized"
                     (pol_default_severity Policy_Default) m "default_severity" in
  let? evidence := policy_text (fun text => TryParseEvidenceClass (c_str text)) "policy: evidence is not recognized"
                     (pol_evidence Policy_Default) m "evidence" in
  let? severity_rules := policy_list "severity_rules" (Some kMaxPolicyRules) (DecodeSeverityRule limits) m in
  let? freshness_rules := policy_list "freshness_rules" (Some kMaxPolicyRules) (DecodeFreshnessRule limits) m in
  let? class_rules := policy_list "field_class_rules" (Some kMaxPolicyRules) (DecodeFieldClassRule limits) m in
  let? suppressions := policy_list "suppressions" (Some (max_suppressions limits)) (DecodeSuppressionRule limits) m in
  let? sources := policy_list "source_priority" None (DecodeIdentityEntry "source") m in
  let? targets := policy_list "required_targets" None (DecodeIdentityEntry "target") m in
  let policy := mkPolicy id version freshness confirmations coverage absence equivalence severity
                  severity_rules freshness_rules class_rules suppressions sources targets evidence in
  check Policy_Validate limits policy then inr policy.

(** ** What is kept *)

Record selector_kept (limits : RuntimeLimits) (s : PolicySelector) : Prop := {
  selk_target : forall t, sel_target s = Some t -> identity_text t;
  selk_object : forall o, sel_object s = Some o -> identity_text o;
  selk_prefix : forall p, sel_path_prefix s = Some p -> path_spelled limits p
}.

(** The names and paths of a policy are ones a decoder accepts. *)
Record policy_named (limits : RuntimeLimits) (p : ObservatoryPolicy) : Prop := {
  pn_id : identity_text (pol_id p);
  pn_severity : Forall (fun r => selector_kept limits (sr_selector r)) (pol_severity_rules p);
  pn_freshness : Forall (fun r => selector_kept limits (fr_selector r)) (pol_freshness_rules p);
  pn_classes : Forall (fun r => selector_kept limits (fc_selector r)) (pol_field_class_rules p);
  pn_suppressions : Forall (fun r => selector_kept limits (sup_selector r) /\
    identity_text (sup_id r) /\ identity_text (sup_author r)) (pol_suppressions p);
  pn_sources : Forall identity_text (pol_source_priority p);
  pn_targets : Forall identity_text (pol_required_targets p)
}.

(** The count has its width, and the times of the suppressions are ones the text
    form can show. *)
Definition policy_timed (p : ObservatoryPolicy) : Prop :=
  is_u32 (pol_resolution_confirmations p) /\
  Forall (fun r => time_from_epoch (sup_created_at r) /\
    forall t, sup_expires_at r = Some t -> time_from_epoch t) (pol_suppressions p).

(** ** Facts: reading what was written *)

Section Read.
Context (m : VMap) (name what : string).

Lemma optional_text_read {T} (write : T -> string) (parse : string -> option (option T)) complaint o :
  FindMember m name = option_map (fun x => V_String (write x)) o ->
  (forall x, o = Some x -> parse (write x) = Some (Some x)) ->
  policy_text parse complaint None m name = inr o.
Proof.
  intros Hm Hp. unfold policy_text, OptionalString, Optional. rewrite Hm. destruct o as [x|]; [|done].
  cbn [option_map as_string]. by rewrite Hp.
Qed.

Lemma policy_text_read {T} (parse : string -> option T) complaint missing text x :
  FindMember m name = Some (V_String text) -> parse text = Some x -> policy_text parse complaint missing m name = inr x.
Proof. intros Hm Hp. unfold policy_text, OptionalString, Optional. rewrite Hm. cbn [as_string]. by rewrite Hp. Qed.

Lemma policy_required_read {T} (parse : string -> option T) complaint text x :
  FindMember m name = Some (V_String text) -> parse text = Some x -> policy_required parse complaint m name what = inr x.
Proof. intros Hm Hp. unfold policy_required, RequireString, Require. rewrite Hm. cbn [as_string dbind]. by rewrite Hp. Qed.

Lemma optional_parsed_read {T} (write : T -> string) (parse : string -> option T) complaint o :
  FindMember m name = option_map (fun x => V_String (write x)) o ->
  (forall x, o = Some x -> parse (write x) = Some x) ->
  optional_parsed false (option_map Some ∘ parse) complaint None m name what = inr o.
Proof.
  intros Hm Hp. unfold optional_parsed, OptionalString, Optional. rewrite Hm. destruct o as [x|]; [|done].
  unfold compose. cbn [option_map as_string andb]. by rewrite Hp.
Qed.

Lemma policy_list_read {A} limit (decode : Value -> Decoded A) (encode : A -> Value) l :
  FindMember m name = Some (V_List (map encode l)) ->
  match limit with Some n => vsize l <= n | None => True end ->
  Forall (fun x => decode (encode x) = inr x) l -> policy_list name limit decode m = inr l.
Proof.
  intros Hm Hn Hd. unfold policy_list. rewrite Hm. cbn [as_list].
  assert (E : match limit with Some n => n <? vsize (map encode l) | None => false end = false).
  { destruct limit as [n|]; [|done]. apply Z.ltb_ge. unfold vsize in *. by rewrite length_map. }
  rewrite E, (dmap_map decode encode id) by exact Hd. by rewrite map_id.
Qed.
End Read.

Lemma class_named_read k : class_named (ToText_DriftClass k) = Some (Some k).
Proof. unfold class_named. by rewrite klass_reads. Qed.

Lemma minimum_named_read s : (option_map Some ∘ severity_named) (ToText_Severity s) = Some (Some s).
Proof. unfold compose, severity_named. by rewrite severity_reads. Qed.

Lemma equivalence_read n : equivalence_named (equivalence_text n) = Some n.
Proof. by destruct n. Qed.

(** The members a selector contributes, wherever it is in an entry. *)
Definition selects (m : VMap) (s : PolicySelector) : Prop :=
  FindMember m "target" = option_map V_String (sel_target s) /\
  FindMember m "object" = option_map V_String (sel_object s) /\
  FindMember m "path_prefix" = option_map (fun p => V_String (FieldPath_ToText p)) (sel_path_prefix s).

Lemma DecodeSelector_read m limits what s : selects m s -> selector_kept limits s ->
  DecodeSelector m limits what = inr s.
Proof.
  intros (Ht & Ho & Hp) [Kt Ko Kp]. unfold DecodeSelector.
  assert (CheckMemberKinds m selector_kinds what = Status_Ok) as ->.
  { cbn [CheckMemberKinds selector_kinds]. rewrite Ht, Ho, Hp.
    by destruct (sel_target s), (sel_object s), (sel_path_prefix s). }
  unfold checked. change (status_ok Status_Ok) with true. cbv iota.
  rewrite (optional_parsed_read m "target" what id TryParseIdentity _ (sel_target s) Ht)
    by (intros; by apply TryParseIdentity_ok, Kt).
  cbn [dbind]. rewrite (optional_parsed_read m "object" what id TryParseIdentity _ (sel_object s) Ho)
    by (intros; by apply TryParseIdentity_ok, Ko).
  cbn [dbind]. rewrite (optional_parsed_read m "path_prefix" what FieldPath_ToText _ _ (sel_path_prefix s) Hp).
  - cbn [dbind]. by destruct s.
  - intros p Hs. destruct (Kp p Hs) as (Hk & Hn & Hl). by rewrite FieldPath_TryParse_ToText.
Qed.

Lemma selects_prefix s rest : forallb (fun e => negb (existsb (eqb (fst e)) ["target"; "object"; "path_prefix"])) rest = true ->
  selects (make_map (EncodeSelector s ++ rest)) s.
Proof.
  intros Hr. assert (Hn : forall name, existsb (eqb name) ["target"; "object"; "path_prefix"] = true ->
    mfind name rest = None).
  { intros name Hname. destruct (mfind name rest) as [v|] eqn:E; [|done]. apply mfind_In in E.
    rewrite forallb_forall in Hr. apply Hr in E. cbn [fst] in E. by rewrite Hname in E. }
  unfold selects. rewrite !FindMember_make_map. unfold EncodeSelector.
  destruct s as [[t|] [o|] [q|]]; cbn; rewrite ?Hn by reflexivity; done.
Qed.

Lemma rule_member s rest name : existsb (eqb name) ["target"; "object"; "path_prefix"] = false ->
  FindMember (make_map (EncodeSelector s ++ rest)) name = mfind name rest.
Proof.
  intros Hn. rewrite FindMember_make_map. unfold EncodeSelector. cbn [existsb] in Hn.
  apply orb_false_iff in Hn as [H1 Hn]. apply orb_false_iff in Hn as [H2 Hn]. apply orb_false_iff in Hn as [H3 _].
  destruct s as [[t|] [o|] [q|]]; cbn [opt_member sel_target sel_object sel_path_prefix app mfind fst];
    rewrite ?H1, ?H2, ?H3; done.
Qed.

Lemma rule_of_read s rest complaint members kinds what :
  forallb (fun n => existsb (eqb n) members) ("target" :: "object" :: "path_prefix" :: mkeys rest) = true ->
  Forall (fun e => existsb (eqb (fst e)) ["target"; "object"; "path_prefix"] = false /\
    match mfind (fst e) rest with Some v => MemberHasKind v (snd e) = true | None => True end) kinds ->
  rule_of (V_Map (make_map (EncodeSelector s ++ rest))) complaint members kinds what =
  inr (make_map (EncodeSelector s ++ rest)).
Proof.
  intros Hm Hk. unfold rule_of. cbn [as_map]. rewrite CheckMembers_make_map.
  - unfold checked. change (status_ok Status_Ok) with true. cbv iota.
    assert (CheckMemberKinds (make_map (EncodeSelector s ++ rest)) kinds what = Status_Ok) as ->; [|done].
    clear Hm. induction Hk as [|[n k] kinds [Hn Hv] _ IH]; [done|]. cbn [CheckMemberKinds fst snd] in *.
    rewrite rule_member by done. destruct (mfind n rest); [by rewrite Hv|done].
  - unfold mkeys. rewrite map_app, forallb_app. cbn [forallb] in Hm. apply andb_true_iff in Hm as [H1 Hm].
    apply andb_true_iff in Hm as [H2 Hm]. apply andb_true_iff in Hm as [H3 Hm]. apply andb_true_iff. split; [|done].
    unfold EncodeSelector. destruct s as [[t|] [o|] [q|]]; cbn [opt_member sel_target sel_object sel_path_prefix app map fst forallb];
      by rewrite ?H1, ?H2, ?H3.
Qed.

(** The members after the selector, by the cases of the optional ones. *)
Ltac rule_cases :=
  unfold class_member, minimum_member;
  repeat match goal with |- context [opt_member _ _ ?o] => destruct o; cbn [opt_member] end;
  cbn [app].
Ltac rule_entry :=
  rewrite rule_of_read by
    (rule_cases; first [reflexivity | repeat (apply Forall_cons; split; [split; [reflexivity|exact eq_refl || exact I]|]); apply Forall_nil_2]);
  cbn [dbind]; erewrite DecodeSelector_read; [|apply selects_prefix; rule_cases; reflexivity|eassumption];
  cbn [dbind].
Ltac rule_found := rewrite rule_member by reflexivity; rule_cases; reflexivity.

Lemma DecodeSeverityRule_read limits r : selector_kept limits (sr_selector r) ->
  DecodeSeverityRule limits (EncodeSeverityRule r) = inr r.
Proof.
  intros Hs. unfold DecodeSeverityRule, EncodeSeverityRule. rule_entry.
  rewrite (optional_text_read _ _ ToText_DriftClass _ _ (sr_klass r)) by (rule_found || (intros; apply class_named_read)).
  cbn [dbind].
  rewrite (optional_text_read _ _ ToText_Severity _ _ (sr_min_severity r))
    by (rule_found || (intros; apply minimum_named_read)).
  cbn [dbind]. rewrite (policy_text_read _ _ _ _ _ (ToText_Severity (sr_severity r)) (sr_severity r))
    by (rule_found || apply severity_reads).
  by destruct r.
Qed.

Lemma DecodeFreshnessRule_read limits r : selector_kept limits (fr_selector r) -> 0 < fr_ttl_nanos r ->
  DecodeFreshnessRule limits (EncodeFreshnessRule r) = inr r.
Proof.
  intros Hs Ht. unfold DecodeFreshnessRule, EncodeFreshnessRule. rule_entry.
  unfold OptionalInt, Optional. rewrite rule_member by reflexivity. cbn [mfind].
  change (eqb "ttl_nanos" "ttl_nanos") with true. cbv iota. cbn [as_signed].
  destruct (Z.leb_spec (fr_ttl_nanos r) 0); [lia|]. by destruct r.
Qed.

Lemma DecodeFieldClassRule_read limits r : selector_kept limits (fc_selector r) ->
  DecodeFieldClassRule limits (EncodeFieldClassRule r) = inr r.
Proof.
  intros Hs. unfold DecodeFieldClassRule, EncodeFieldClassRule. rule_entry.
  unfold OptionalString, Optional. rewrite rule_member by reflexivity. cbn [mfind].
  change (eqb "comparability" "comparability") with true. cbn [as_string]. rewrite comparability_reads. by destruct r.
Qed.

Lemma DecodeSuppressionRule_read limits r : selector_kept limits (sup_selector r) ->
  identity_text (sup_id r) -> identity_text (sup_author r) -> time_from_epoch (sup_created_at r) ->
  (forall t, sup_expires_at r = Some t -> time_from_epoch t) ->
  DecodeSuppressionRule limits (EncodeSuppressionRule r) = inr r.
Proof.
  intros Hs Hi Ha Hc He. unfold DecodeSuppressionRule, EncodeSuppressionRule. rule_entry.
  rewrite (policy_required_read _ _ _ _ _ (sup_id r) (sup_id r)) by (rule_found || by apply TryParseIdentity_ok).
  cbn [dbind]. rewrite (policy_required_read _ _ _ _ _ (sup_author r) (sup_author r)) by (rule_found || by apply TryParseIdentity_ok).
  cbn [dbind]. unfold RequireString at 1, Require. rewrite rule_member by reflexivity.
  match goal with |- context [mfind "reason" ?l] =>
    assert (mfind "reason" l = Some (V_String (sup_reason r))) as -> by (rule_cases; reflexivity) end.
  cbn [as_string dbind].
  rewrite (policy_required_read _ _ _ _ _ (FormatTime (sup_created_at r)) (sup_created_at r))
    by (rule_found || by apply time_reads).
  cbn [dbind]. rewrite (optional_text_read _ _ FormatTime _ _ (sup_expires_at r))
    by (rule_found || (intros t Ht; unfold compose; by rewrite (time_reads t) by auto)).
  cbn [dbind].
  rewrite (optional_text_read _ _ ToText_DriftClass _ _ (sup_klass r)) by (rule_found || (intros; apply class_named_read)).
  cbn [dbind].
  rewrite (optional_text_read _ _ ToText_Severity _ _ (sup_min_severity r))
    by (rule_found || (intros; apply minimum_named_read)).
  by destruct r.
Qed.

Lemma DecodeIdentityEntry_read kind text : identity_text text -> DecodeIdentityEntry kind (V_String text) = inr text.
Proof. intros Ht. unfold DecodeIdentityEntry. cbn [as_string]. by rewrite TryParseIdentity_ok. Qed.

Lemma Policy_Validate_ok limits p : status_ok (Policy_Validate limits p) = true ->
  pol_format_version p = kPolicyFormatVersion /\ 0 < fp_ttl_nanos (pol_freshness p) /\
  0 <= fp_aging_threshold_percent (pol_freshness p) <= 100 /\ pol_resolution_confirmations p <> 0 /\
  vsize (pol_severity_rules p) <= kMaxPolicyRules /\ vsize (pol_freshness_rules p) <= kMaxPolicyRules /\
  vsize (pol_field_class_rules p) <= kMaxPolicyRules /\ vsize (pol_suppressions p) <= max_suppressions limits /\
  Forall (fun r => 0 < fr_ttl_nanos r) (pol_freshness_rules p).
Proof.
  unfold Policy_Validate. destruct (invalid_id _); [done|]. destruct (Z.eqb_spec (pol_format_version p) kPolicyFormatVersion); [|done].
  cbn [negb]. destruct (Z.leb_spec (fp_ttl_nanos (pol_freshness p)) 0); [done|].
  destruct (Z.ltb_spec (fp_aging_threshold_percent (pol_freshness p)) 0); [done|].
  destruct (Z.ltb_spec 100 (fp_aging_threshold_percent (pol_freshness p))); [done|]. cbn [orb].
  destruct (fp_max_clock_skew_nanos (pol_freshness p) <? 0); [done|].
  destruct (Z.eqb_spec (pol_resolution_confirmations p) 0); [done|]. destruct (_ || _ || _) eqn:Er; [done|].
  destruct (Z.ltb_spec (max_suppressions limits) (vsize (pol_suppressions p))); [done|].
  destruct (max_sources limits <? _); [done|]. destruct (max_targets limits <? _); [done|]. rewrite !and_then_ok, !andb_true_iff, !for_status_ok.
  intros [_ [Hf _]]. breflect. split_and!; try done; try lia. eapply Forall_impl; [exact Hf|]. intros r. cbn.
  destruct (Z.leb_spec (fr_ttl_nanos r) 0); [done|lia].
Qed.

Lemma DecodeFreshnessPolicy_read p m : EncodeFreshnessPolicy p = V_Map m ->
  0 <= fp_aging_threshold_percent p <= 100 -> DecodeFreshnessPolicy m = inr p.
Proof.
  intros [= <-] Ha. unfold DecodeFreshnessPolicy. checked_members.
  unfold OptionalInt, Optional. rewrite !FindMember_make_map. cbn [mfind].
  repeat match goal with |- context [eqb ?x ?y] => change (eqb x y) with true || change (eqb x y) with false end.
  cbv iota. cbn [as_signed default from_option id].
  rewrite (proj2 (Z.ltb_ge (fp_aging_threshold_percent p) 0)), (proj2 (Z.ltb_ge 100 _)) by lia. cbn [orb].
  rewrite (bool_or_ok _ _ _ (fp_ttl_applies_to_receive_time p)) by found. by destruct p.
Qed.

Lemma DecodePolicy_Encode limits p : policy_named limits p -> policy_timed p ->
  status_ok (Policy_Validate limits p) = true -> DecodePolicy (EncodePolicy p) limits = inr p.
Proof.
  intros [] [Hcount Ht] Hv. destruct (Policy_Validate_ok limits p Hv) as (Hfv & Httl & Hag & Hc & H1 & H2 & H3 & H4 & Hpos).
  unfold DecodePolicy, EncodePolicy. cbn [RequireObject as_map dbind].
  unfold policy_kinds. checked_members.
  rewrite (policy_required_read _ _ _ _ _ (pol_id p) (pol_id p)) by (found || by apply TryParseIdentity_ok). cbn [dbind].
  unfold policy_version. rewrite (required_uint_ok _ "format_version" _ (pol_format_version p)) by (found || by rewrite Hfv).
  cbn [dbind]. rewrite Hfv. change (0xFFFF <? kPolicyFormatVersion) with false.
  change (kPolicyFormatVersion =? kPolicyFormatVersion) with true. cbn [negb dbind].
  assert (Hf : exists m, EncodeFreshnessPolicy (pol_freshness p) = V_Map m) by (by eexists). destruct Hf as [fm Hf].
  unfold RequireMap, Require. rewrite FindMember_make_map.
  match goal with |- context [mfind "freshness" ?l] =>
    change (mfind "freshness" l) with (Some (EncodeFreshnessPolicy (pol_freshness p))) end.
  rewrite Hf. cbn [as_map dbind].
  rewrite (DecodeFreshnessPolicy_read _ fm Hf Hag). cbn [dbind].
  unfold policy_confirmations, OptionalUint, Optional. rewrite FindMember_make_map.
  match goal with |- context [mfind "resolution_confirmations" ?l] =>
    change (mfind "resolution_confirmations" l) with (Some (MakeUint (pol_resolution_confirmations p))) end.
  cbv iota beta. unfold is_u32 in *. rewrite as_unsigned_MakeUint by lia. cbv iota beta.
  rewrite (proj2 (Z.eqb_neq _ _) Hc), (proj2 (Z.ltb_ge UINT32_MAX (pol_resolution_confirmations p))) by lia. cbn [orb dbind].
  rewrite (bool_or_ok _ _ _ (pol_require_complete_coverage p)), (bool_or_ok _ _ _ (pol_require_absence_authority p)) by found.
  rewrite (policy_text_read _ _ _ _ _ _ (pol_numeric_equivalence p)) by (found || apply equivalence_read). cbn [dbind].
  rewrite (policy_text_read _ _ _ _ _ _ (pol_default_severity p)) by (found || apply severity_reads). cbn [dbind].
  rewrite (policy_text_read _ _ _ _ _ _ (pol_evidence p)) by (found || apply evidence_text_reads). cbn [dbind].
  rewrite (policy_list_read _ _ _ _ EncodeSeverityRule (pol_severity_rules p)); [|found|done|].
  2: { eapply Forall_impl; [exact pn_severity0|]. intros r. apply DecodeSeverityRule_read. }
  cbn [dbind]. rewrite (policy_list_read _ _ _ _ EncodeFreshnessRule (pol_freshness_rules p)); [|found|done|].
  2: { rewrite Forall_forall in *. intros r Hr. apply DecodeFreshnessRule_read; auto. }
  cbn [dbind]. rewrite (policy_list_read _ _ _ _ EncodeFieldClassRule (pol_field_class_rules p)); [|found|done|].
  2: { eapply Forall_impl; [exact pn_classes0|]. intros r. apply DecodeFieldClassRule_read. }
  cbn [dbind]. rewrite (policy_list_read _ _ _ _ EncodeSuppressionRule (pol_suppressions p)); [|found|done|].
  2: { rewrite Forall_forall in *. intros r Hr. destruct (pn_suppressions0 r Hr) as (? & ? & ?).
       destruct (Ht r Hr). by apply DecodeSuppressionRule_read. }
  cbn [dbind]. rewrite (policy_list_read _ _ _ _ V_String (pol_source_priority p)); [|found|done|].
  2: { eapply Forall_impl; [exact pn_sources0|]. intros t. apply DecodeIdentityEntry_read. }
  cbn [dbind]. rewrite (policy_list_read _ _ _ _ V_String (pol_required_targets p)); [|found|done|].
  2: { eapply Forall_impl; [exact pn_targets0|]. intros t. apply DecodeIdentityEntry_read. }
  cbn [dbind]. rewrite <- Hfv.
  replace (mkPolicy _ _ _ _ _ _ _ _ _ _ _ _ _ _ _) with p by (by destruct p). unfold checked. by rewrite Hv.
Qed.

(** ** Facts: writing *)

Definition selector_plain (s : PolicySelector) : Prop :=
  forall p, sel_path_prefix s = Some p -> plain_text (FieldPath_ToText p).

(** Numbers of their width, and texts that are text. *)
Record policy_plain (p : ObservatoryPolicy) : Prop := {
  pp_ttl : is_i64 (fp_ttl_nanos (pol_freshness p));
  pp_skew : is_i64 (fp_max_clock_skew_nanos (pol_freshness p));
  pp_severity : Forall (fun r => selector_plain (sr_selector r)) (pol_severity_rules p);
  pp_freshness : Forall (fun r => selector_plain (fr_selector r) /\ is_i64 (fr_ttl_nanos r)) (pol_freshness_rules p);
  pp_classes : Forall (fun r => selector_plain (fc_selector r)) (pol_field_class_rules p);
  pp_suppressions : Forall (fun r => selector_plain (sup_selector r) /\ plain_text (sup_reason r)) (pol_suppressions p)
}.

Definition plain_member (e : string * Value) : Prop := IsValidUtf8 (fst e) = true /\ writable (snd e).

Lemma opt_member_plain {A} name (encode : A -> Value) o : IsValidUtf8 name = true ->
  (forall x, o = Some x -> writable (encode x)) -> Forall plain_member (opt_member name encode o).
Proof. intros Hn Ho. destruct o as [x|]; [|constructor]. apply Forall_singleton. split; [done|by apply Ho]. Qed.

Lemma rule_writable limits s rest : selector_kept limits s -> selector_plain s -> Forall plain_member rest ->
  mfind kBytesMember rest = None -> writable (V_Map (make_map (EncodeSelector s ++ rest))).
Proof.
  intros [Kt Ko _] Hp Hr Hb. apply writable_make_map.
  - unfold EncodeSelector. repeat (apply Forall_app; split); try done; apply opt_member_plain; try reflexivity.
    + intros t Ht. by apply identity_plain, Kt.
    + intros o Ho. by apply identity_plain, Ko.
    + intros q Hq. by apply Hp.
  - unfold EncodeSelector. destruct s as [[t|] [o|] [q|]]; exact Hb.
Qed.

Ltac rule_plain :=
  repeat match goal with
  | |- Forall plain_member (_ ++ _) => apply Forall_app; split
  | |- Forall plain_member [] => apply Forall_nil_2
  | |- Forall plain_member (_ :: _) => apply Forall_cons; split; [split; [reflexivity|]|]
  | |- Forall plain_member (class_member _) => apply opt_member_plain; [reflexivity|intros k _; apply klass_plain]
  | |- Forall plain_member (minimum_member _) => apply opt_member_plain; [reflexivity|intros k _; apply severity_plain]
  | |- Forall plain_member (opt_member _ _ _) => apply opt_member_plain; [reflexivity|intros t _; apply time_plain]
  | |- mfind _ _ = None => rule_cases; reflexivity
  end.

Lemma EncodePolicy_writable limits p : policy_named limits p -> policy_timed p -> policy_plain p ->
  status_ok (Policy_Validate limits p) = true -> writable (EncodePolicy p).
Proof.
  intros [] [Hcount _] [] Hv. destruct (Policy_Validate_ok limits p Hv) as (Hfv & _ & Hag & _).
  unfold EncodePolicy. plain_members.
  - by rewrite Hfv.
  - unfold EncodeFreshnessPolicy. writable_members; [done|cbn; unfold is_i64, INT64_MIN, INT64_MAX; lia|done].
  - by destruct (pol_numeric_equivalence p).
  - apply writable_list_of, Forall_map. rewrite Forall_forall in *. intros r Hr.
    apply (rule_writable limits); auto; rule_plain. apply severity_plain.
  - apply writable_list_of, Forall_map. rewrite Forall_forall in *. intros r Hr. destruct (pp_freshness0 r Hr).
    apply (rule_writable limits); auto; rule_plain. done.
  - apply writable_list_of, Forall_map. rewrite Forall_forall in *. intros r Hr.
    apply (rule_writable limits); auto; rule_plain. apply comparability_plain.
  - apply writable_list_of, Forall_map. rewrite Forall_forall in *. intros r Hr.
    destruct (pn_suppressions0 r Hr) as (? & ? & ?), (pp_suppressions0 r Hr).
    apply (rule_writable limits); auto; rule_plain; try (by apply identity_plain); [done|apply time_plain].
  - eapply (writable_records V_String identity_text); [|eassumption]. intros t. apply identity_plain.
  - eapply (writable_records V_String identity_text); [|eassumption]. intros t. apply identity_plain.
Qed.

(** ** Facts: what a decoder accepts *)

Lemma optional_identity_ok blank complaint m name what o :
  optional_parsed blank (option_map Some ∘ TryParseIdentity) complaint None m name what = inr o ->
  forall t, o = Some t -> identity_text t.
Proof.
  unfold optional_parsed, compose. destruct (OptionalString m name) as [text|]; [|by intros [= <-]].
  destruct (blank && _); [by intros [= <-]|]. unfold TryParseIdentity, identity_text.
  destruct (IsValidIdentityText text) eqn:E; [|done]. by intros [= <-] t [= <-].
Qed.

Lemma policy_required_ok {T} (parse : string -> option T) complaint m name what x :
  policy_required parse complaint m name what = inr x -> exists text, parse text = Some x.
Proof. unfold policy_required. intros (text & _ & H)%dbind_ok. exists text. destruct (parse text); [by injection H as ->|done]. Qed.

Lemma TryParseIdentity_sound text id : TryParseIdentity text = Some id -> identity_text id.
Proof. unfold TryParseIdentity, identity_text. destruct (IsValidIdentityText text) eqn:E; [|done]. by intros [= <-]. Qed.

Lemma policy_identity_ok complaint m name what id :
  policy_required TryParseIdentity complaint m name what = inr id -> identity_text id.
Proof. intros [text Ht]%policy_required_ok. by eapply TryParseIdentity_sound. Qed.

Lemma DecodeSelector_ok m limits what s : is_u64 (max_path_segments limits) ->
  DecodeSelector m limits what = inr s -> selector_kept limits s.
Proof.
  intros Hu H. unfold DecodeSelector in H. decoded H. injection H as <-. constructor; cbn.
  - by eapply optional_identity_ok.
  - by eapply optional_identity_ok.
  - intros p Hp. match goal with Hx : optional_parsed _ _ _ _ _ "path_prefix" _ = _ |- _ => revert Hx end.
    unfold optional_parsed, compose. destruct (OptionalString m "path_prefix") as [text|]; [|congruence]. cbn [andb].
    destruct (FieldPath_TryParse _ _ text) as [q|] eqn:E; [|done]. cbn. intros [= <-]. injection Hp as ->.
    by eapply FieldPath_TryParse_spelled.
Qed.

Lemma policy_list_ok {A} (Q : A -> Prop) name limit (decode : Value -> Decoded A) m l :
  (forall v x, decode v = inr x -> Q x) -> policy_list name limit decode m = inr l -> Forall Q l.
Proof.
  intros Hd. unfold policy_list. destruct (FindMember m name) as [v|]; [|intros [= <-]; constructor].
  destruct (as_list v) as [entries|]; [|done]. destruct (match limit with Some n => _ | None => _ end); [done|].
  intros Hl%dmap_ok. apply Forall_forall. intros x [i Hi]%list_elem_of_lookup.
  destruct (Forall2_lookup_r _ _ _ _ _ Hl Hi) as (v' & _ & Hv). by eapply Hd.
Qed.


Lemma DecodePolicy_ok value limits p : is_u64 (max_path_segments limits) -> DecodePolicy value limits = inr p ->
  status_ok (Policy_Validate limits p) = true /\ policy_named limits p /\
  exists m, value = V_Map m /\ Forall (fun name => name ∈ policy_members) (mkeys m).
Proof.
  intros Hu H. unfold DecodePolicy in H. cbv zeta in H. decoded H. injection H as <-. split; [assumption|]. split.
  - constructor; cbn.
    + by eapply policy_identity_ok.
    + eapply policy_list_ok; [|eassumption]. intros v r Hr. unfold DecodeSeverityRule in Hr. cbv zeta in Hr. decoded Hr.
      injection Hr as <-. by eapply DecodeSelector_ok.
    + eapply policy_list_ok; [|eassumption]. intros v r Hr. unfold DecodeFreshnessRule in Hr. cbv zeta in Hr. decoded Hr.
      destruct (OptionalInt _ _); [|done]. destruct (_ <=? 0); [done|]. injection Hr as <-. by eapply DecodeSelector_ok.
    + eapply policy_list_ok; [|eassumption]. intros v r Hr. unfold DecodeFieldClassRule in Hr. cbv zeta in Hr. decoded Hr.
      destruct (OptionalString _ _); [|done]. destruct (TryParseFieldComparability _); [|done]. injection Hr as <-.
      by eapply DecodeSelector_ok.
    + eapply policy_list_ok; [|eassumption]. intros v r Hr. unfold DecodeSuppressionRule in Hr. cbv zeta in Hr. decoded Hr.
      injection Hr as <-. cbn. split_and!; [by eapply DecodeSelector_ok|by eapply policy_identity_ok..].
    + eapply policy_list_ok; [|eassumption]. intros v t. unfold DecodeIdentityEntry.
      destruct (as_string v); [|done]. destruct (TryParseIdentity _) eqn:E; [|done]. intros [= <-].
      by eapply TryParseIdentity_sound.
    + eapply policy_list_ok; [|eassumption]. intros v t. unfold DecodeIdentityEntry.
      destruct (as_string v); [|done]. destruct (TryParseIdentity _) eqn:E; [|done]. intros [= <-].
      by eapply TryParseIdentity_sound.
  - match goal with Hr : RequireObject _ _ = inr ?m |- _ =>
      exists m; unfold RequireObject in Hr; destruct value; try discriminate Hr;
      cbn [as_map] in Hr; injection Hr as -> end.
    split; [done|]. by eapply CheckMembers_ok.
Qed.

(** ** Properties *)

(** C16. The policy document is exact.  A policy that validates, with names a
    decoder accepts, a count of its width and suppression times from the epoch
    on, is what its encoding decodes to.  Its texts being text and its numbers of
    their width, so it is as canonical JSON exactly when the document as a whole,
    all its rules together, is within the limits of values, which the parser
    applies to it; a policy larger than that is refused although it validates.
    And whatever value is decoded consists of declared members and gives a policy
    that passes the validation of the envelope, so that, under the same two
    conditions, it survives any further round of encoding. *)
Theorem policy_documents_exact (limits : RuntimeLimits) (Hu : is_u64 (max_path_segments limits)) :
  (forall p, policy_named limits p -> policy_timed p -> status_ok (Policy_Validate limits p) = true ->
     DecodePolicy (EncodePolicy p) limits = inr p /\
     (policy_plain p -> read_within limits (EncodePolicy p)
        (parse_document DecodePolicy (WriteCanonicalJson (EncodePolicy p)) limits) p)) /\
  (forall value p, DecodePolicy value limits = inr p ->
     status_ok (Policy_Validate limits p) = true /\
     (exists m, value = V_Map m /\ Forall (fun name => name ∈ policy_members) (mkeys m)) /\
     (policy_timed p -> DecodePolicy (EncodePolicy p) limits = inr p)).
Proof.
  split.
  - intros p Hn Ht Hv. split; [by apply DecodePolicy_Encode|]. intros Hp.
    apply parse_document_within; [by eapply EncodePolicy_writable|by apply DecodePolicy_Encode].
  - intros value p H. destruct (DecodePolicy_ok value limits p Hu H) as (Hv & Hn & Hm).
    split; [done|]. split; [done|]. intros Ht. by apply DecodePolicy_Encode.
Qed.

(** ** Examples and witnesses *)

Definition example_selector : PolicySelector :=
  mkSelector (Some "switch-7") None (Some [PS_Key "ports"; PS_Index 2]).

Definition example_policy : ObservatoryPolicy :=
  mkPolicy "policy/site" kPolicyFormatVersion (mkFreshnessPolicy 60000000000 80 5000000000 true) 2 true false
    NE_Exact Sev_Low
    [mkSeverityRule example_selector (Some DC_ValueMismatch) None Sev_High;
     mkSeverityRule (mkSelector None None None) None (Some Sev_Medium) Sev_Low]
    [mkFreshnessRule example_selector 1000000000]
    [mkFieldClassRule (mkSelector None (Some "port/1") None) FC_Managed]
    [mkSuppressionRule "sup/1" example_selector None (Some Sev_Low) "alice" "maintenance" 1700000000000000000
       (Some 1700000000000000001)]
    ["collector/eth"] ["switch-7"] EC_Real.

Lemma policy_documents_exact_witness :
  parse_document DecodePolicy (WriteCanonicalJson (EncodePolicy example_policy)) default_limits = inr example_policy.
Proof.
  assert (Hs : selector_kept default_limits example_selector).
  { constructor; cbn; [by intros t [= <-]|done|]. intros p [= <-]. split; [|split; vm_compute; discriminate].
    repeat constructor; vm_compute; (done || reflexivity || congruence). }
  assert (Hn : policy_named default_limits example_policy).
  { constructor; cbn.
    - reflexivity.
    - apply Forall_cons. split; [exact Hs|]. apply Forall_singleton. by constructor.
    - by apply Forall_singleton.
    - apply Forall_singleton. constructor; [done|by intros o [= <-]|done].
    - apply Forall_singleton. split; [exact Hs|by split].
    - by apply Forall_singleton.
    - by apply Forall_singleton. }
  assert (Ht : policy_timed example_policy).
  { split; [by split|]. apply Forall_singleton. split; [by split|]. intros t [= <-]. by split. }
  edestruct (proj1 (policy_documents_exact default_limits ltac:(by split)) example_policy) as [_ Hj];
    [assumption..|vm_compute; reflexivity|]. apply Hj.
  - assert (Hpl : selector_plain example_selector) by (intros q [= <-]; vm_compute; reflexivity).
    constructor; cbn; try (split; vm_compute; discriminate).
    + apply Forall_cons. split; [exact Hpl|]. by apply Forall_singleton.
    + apply Forall_singleton. split; [exact Hpl|split; vm_compute; discriminate].
    + by apply Forall_singleton.
    + apply Forall_singleton. split; [exact Hpl|vm_compute; reflexivity].
  - split; [vm_compute; repeat split; discriminate|vm_compute; discriminate].
Defined.

(** A policy that validates and is too large as a document. *)
Example valid_but_unreadable_policy :
  status_ok (Policy_Validate tight_limits example_policy) = true /\
  exists status, parse_document DecodePolicy (WriteCanonicalJson (EncodePolicy example_policy)) tight_limits = inl status.
Proof. vm_compute. split; [reflexivity|]. eexists. reflexivity. Qed.
