(* ===== verification/Persistence.v ===== *)
(** * The durable ledger

    persistence.hpp/persistence.cpp and the operations of engine.cpp that save and
    load the state: the bytes of a ledger file, their decoder, and the
    replacement of the file.  The file system is a parameter, [FileSystem], with
    what the code relies on as [FileSystemLaws]; [Disk] is an instance. *)

From Stdlib Require Import ZArith Lia List Bool Sorting.Sorted Ascii String.
From stdpp Require Import base tactics list strings.
From S2P Require Import Prelude Containers Text Status Time Hash Identity Double Value Drift Intent.
From S2P Require Import Observation Freshness Policy Comparison Finding Ledger LedgerApply LedgerFacts.
From S2P Require Import Json JsonGrammar JsonTokens JsonCodec JsonHelp Wire Interchange Query Engine.
From S2P Require Import Durable.
#[local] Open Scope string_scope.
#[local] Open Scope Z_scope.
#[local] Arguments String.append : simpl nomatch.

(** ** Data *)

(** "NDOLEDG1" *)
Definition kLedgerMagic : list Z := [78; 68; 79; 76; 69; 68; 71; 49].
Definition kLedgerFormatVersion : Z := 1.
(** Magic, format, flags, payload size, digest, epoch and incarnation. *)
Definition kLedgerHeaderBytes : Z := 8 + 2 + 2 + 8 + 32 + 8 + 8.

Record LedgerRecoveryReport := mkRecoveryReport {
  rr_revision : Z;
  rr_findings_restored : Z;
  rr_groups_restored : Z;
  rr_baselines_restored : Z;
  rr_observations_restored : Z;
  rr_conservative : bool;
  rr_reason : ReasonCode
}.

#[export] Instance eta_LedgerRecoveryReport : Eta LedgerRecoveryReport := fun r =>
  mkRecoveryReport (rr_revision r) (rr_findings_restored r) (rr_groups_restored r)
    (rr_baselines_restored r) (rr_observations_restored r) (rr_conservative r) (rr_reason r).

Definition blank_recovery_report : LedgerRecoveryReport :=
  mkRecoveryReport 0 0 0 0 0 true RC_LedgerRecoveredConservatively.

Definition LedgerPayloadDigest (payload : list Z) : Digest := HashBytes payload.

(** ** The envelope of a payload *)

(** The node budget: 4096 and 128 for every record a ledger may hold, or zero
    when a step overflows. *)
Fixpoint node_budget (budget : Z) (counts : list Z) : Z :=
  match counts with
  | [] => budget
  | count :: rest =>
      match CheckedMul t_uint64 128 count with
      | None => 0
      | Some added =>
          match CheckedAdd t_uint64 budget added with
          | None => 0
          | Some total => node_budget total rest
          end
      end
  end.

Definition LedgerPayloadLimits (limits : RuntimeLimits) : RuntimeLimits :=
  let budget := node_budget 4096
    [max_findings limits; max_global_timeline_entries limits; max_targets limits] in
  limits <| max_value_nodes := if budget =? 0 then 100000000 else budget |>
         <| max_value_depth := wrap64 (max_value_depth limits + 8) |>
         <| max_fields_per_object :=
              if 256 <? max_fields_per_object limits then max_fields_per_object limits else 256 |>
         <| max_document_bytes := max_ledger_bytes limits |>.

(** ** Encoding *)

Definition EncodeRetained (observation : RetainedObservation) : Value :=
  V_Map (make_map [("recovered", V_Bool true);
                   ("document", EncodeObservationDocument (ro_snapshot observation))]).

(** The members of the root, in the order they are put in. *)
Definition stored_baselines (l : FindingLedger) : list IntentBaseline :=
  flat_map (fun target => match FindBaseline l target with Some b => [b] | None => [] end) (Targets l).
Definition stored_observations (l : FindingLedger) : list RetainedObservation :=
  flat_map (ObservationsFor l) (Targets l).

Definition ledger_document (l : FindingLedger) : Value :=
  V_Map (make_map [("schema", V_String "ndo/ledger/1");
                   ("format_version", MakeUint kLedgerFormatVersion);
                   ("revision", MakeUint (lg_revision l));
                   ("timeline_sequence", MakeUint (lg_timeline_sequence l));
                   ("baselines", V_List (map EncodeBaseline (stored_baselines l)));
                   ("observations", V_List (map EncodeRetained (stored_observations l)));
                   ("findings", V_List (map EncodeFinding (Findings l)));
                   ("groups", V_List (map EncodeGroup (Groups l)));
                   ("timeline", V_List (map EncodeTimelineEntry (GlobalTimeline l)))]).

Definition ledger_header (write_epoch write_incarnation : Z) (payload : list Z) : list Z :=
  (kLedgerMagic ++ le_bytes 2 kLedgerFormatVersion ++ le_bytes 2 0 ++ le_bytes 8 (vsize payload) ++
   LedgerPayloadDigest payload ++ le_bytes 8 write_epoch ++ le_bytes 8 write_incarnation)%list.

(** [EncodeLedger], which never refuses. *)
Definition EncodeLedger (l : FindingLedger) (write_epoch write_incarnation : Z) : list Z :=
  let payload := string_bytes (WriteCanonicalJson (ledger_document l)) in
  (ledger_header write_epoch write_incarnation payload ++ payload)%list.

(** ** Decoding *)

(** What a decoding has restored so far. *)
Definition Recovery : Type := (FindingLedger * LedgerRecoveryReport)%type.

Definition tally_report (f : LedgerRecoveryReport -> LedgerRecoveryReport) (s : Recovery) : Recovery :=
  (fst s, f (snd s)).

(** [if (!status.ok()) return status;], then the next section. *)
Definition recover_then (r : Status * Recovery) (k : Recovery -> Status * Recovery) : Status * Recovery :=
  if status_ok (fst r) then k (snd r) else r.

(** One section: an optional list, whose entries are decoded, restored and
    counted in turn. *)
Fixpoint restore_each {A} (decode : Value -> Decoded A)
    (restore : A -> FindingLedger -> Status * FindingLedger)
    (counted : LedgerRecoveryReport -> LedgerRecoveryReport) (entries : list Value) (s : Recovery)
    : Status * Recovery :=
  match entries with
  | [] => (Status_Ok, s)
  | entry :: rest =>
      match decode entry with
      | inl status => (status, s)
      | inr record =>
          let '(status, ledger) := restore record (fst s) in
          if negb (status_ok status) then (status, (ledger, snd s))
          else restore_each decode restore counted rest (ledger, counted (snd s))
      end
  end.

Definition restore_section {A} (name : string) (bound : list Value -> Status)
    (decode : Value -> Decoded A) (restore : A -> FindingLedger -> Status * FindingLedger)
    (counted : LedgerRecoveryReport -> LedgerRecoveryReport) (m : VMap) (s : Recovery) : Status * Recovery :=
  match FindMember m name with
  | None => (Status_Ok, s)
  | Some member =>
      match as_list member with
      | None => (MemberError "ledger" name "must be a sequence", s)
      | Some entries =>
          let status := bound entries in
          if negb (status_ok status) then (status, s)
          else restore_each decode restore counted entries s
      end
  end.

Definition ledger_members : list string :=
  ["schema"; "format_version"; "revision"; "timeline_sequence"; "baselines"; "observations";
   "findings"; "groups"; "timeline"].

Definition recovered_verdict : FreshnessVerdict :=
  mkFreshnessVerdict FS_RecoveredNotFresh RC_EvidenceRecoveredNotFresh 0 0 false false.

(** An observation comes back as recovered, whatever the file says. *)
Definition DecodeRetained (limits : RuntimeLimits) (entry : Value) : Decoded RetainedObservation :=
  match as_map entry with
  | None => inl (MemberError "ledger" "observations" "entries must be objects")
  | Some m =>
      check CheckMembers m ["recovered"; "document"] "ledger.observation" then
      let? document := required_member m "document" "ledger.observation" in
      let? snapshot := DecodeObservationDocument document limits in
      inr (mkRetained snapshot recovered_verdict true)
  end.

(** The sections of the root, in the order they are restored. *)
Definition restore_sections (limits : RuntimeLimits) (m : VMap) (s : Recovery) : Status * Recovery :=
  let payload_limits := LedgerPayloadLimits limits in
  let r := restore_section "baselines" unbounded (fun v => DecodeBaseline v payload_limits)
             RestoreBaseline (fun r => r <| rr_baselines_restored ::= bump |>) m s in
  let r := recover_then r (restore_section "observations" unbounded (DecodeRetained payload_limits)
             RestoreObservation (fun r => r <| rr_observations_restored ::= bump |>) m) in
  let r := recover_then r (restore_section "findings"
             (at_most (max_findings limits) RC_LimitFindingsExceeded "ledger finding count exceeds the envelope")
             (fun v => DecodeFinding v payload_limits)
             RestoreFinding (fun r => r <| rr_findings_restored ::= bump |>) m) in
  let r := recover_then r (restore_section "groups" unbounded DecodeGroup
             RestoreGroup (fun r => r <| rr_groups_restored ::= bump |>) m) in
  recover_then r (restore_section "timeline"
             (at_most (max_global_timeline_entries limits) RC_LimitTimelineExceeded
                "ledger timeline exceeds the envelope")
             DecodeTimelineEntry RestoreTimeline (fun r => r) m).

(** The payload, once its bytes are known to be the ones that were written. *)
Definition DecodePayload (limits : RuntimeLimits) (root : Value) : Status * Recovery :=
  let s : Recovery := (empty_ledger limits, blank_recovery_report) in
  match as_map root with
  | None => (Status_Rejected RC_LedgerDecodeFailed "ledger payload must be an object", s)
  | Some m =>
      let header :=
        check CheckMembers m ledger_members "ledger" then
        let? format := RequireUint m "format_version" "ledger" in
        if negb (format =? kLedgerFormatVersion)
        then inl (Status_Rejected RC_LedgerSchemaUnsupported
                    "ledger payload declares an unsupported format version")
        else RequireUint m "revision" "ledger" in
      match header with
      | inl status => (status, s)
      | inr revision =>
          let ledger := snd (RestoreRevision revision (fst s)) in
          let ledger :=
            match OptionalUint m "timeline_sequence" with
            | Some sequence => snd (RestoreSuppressionSequence sequence ledger)
            | None => ledger
            end in
          let r := restore_sections limits m (ledger, (snd s) <| rr_revision := revision |>) in
          recover_then r (fun s => (Status_Ok,
            tally_report (fun r => r <| rr_conservative := true |>
                                     <| rr_reason := RC_LedgerRecoveredConservatively |>) s))
      end
  end.

(** The checks on the header: the refusal, or the payload. *)
Definition CheckLedgerHeader (bytes : list Z) (limits : RuntimeLimits) (live_epoch : Z) : Decoded (list Z) :=
  let size := vsize bytes in
  if max_ledger_bytes limits <? size
  then inl (Status_Limit RC_LedgerPayloadTooLarge "ledger exceeds the envelope")
  else if size <? kLedgerHeaderBytes
  then inl (Status_Rejected RC_LedgerTruncated "ledger is shorter than its header")
  else if negb (eqb (firstn 8 bytes) kLedgerMagic)
  then inl (Status_Rejected RC_LedgerHeaderInvalid "ledger magic does not match")
  else if negb (ReadU16 (skipn 8 bytes) =? kLedgerFormatVersion)
  then inl (Status_Rejected RC_LedgerSchemaUnsupported "ledger format version is not supported")
  else
    let payload_bytes := ReadU64 (skipn 12 bytes) in
    if max_record_payload_bytes limits <? payload_bytes
    then inl (Status_Limit RC_LedgerPayloadTooLarge "ledger payload exceeds the envelope")
    else
      let expected_size := wrap64 (kLedgerHeaderBytes + payload_bytes) in
      if size <? expected_size
      then inl (Status_Rejected RC_LedgerTruncated "ledger payload is truncated")
      else if expected_size <? size
      then inl (Status_Rejected RC_LedgerTruncated "ledger carries bytes beyond its declared payload")
      else
        let payload := firstn (Z.to_nat payload_bytes) (skipn 68 bytes) in
        if negb (eqb (LedgerPayloadDigest payload) (firstn 32 (skipn 20 bytes)))
        then inl (Status_Integrity RC_LedgerIntegrityDigestMismatch
                    "ledger payload digest does not match the header")
        else if uint_is_set live_epoch && (live_epoch <? ReadU64 (skipn 52 bytes))
        then inl (Status_Stale RC_LedgerVersionRegression
                    "ledger was written by a newer epoch than the live one")
        else inr payload.

(** [DecodeLedger]: the output ledger is replaced by a complete one or left; the
    report is written in any case.  [None] is a null pointer. *)
Definition DecodeLedger (bytes : option (list Z)) (limits : RuntimeLimits) (live_epoch : Z)
    (out : FindingLedger) : Status * FindingLedger * LedgerRecoveryReport :=
  match bytes with
  | None => (Status_Rejected RC_LedgerHeaderInvalid "no bytes were supplied", out, blank_recovery_report)
  | Some bytes =>
      match CheckLedgerHeader bytes limits live_epoch with
      | inl status => (status, out, blank_recovery_report)
      | inr payload =>
          let '(status, root) := ParseJson (string_of_bytes payload) (LedgerPayloadLimits limits) V_Null in
          if negb (status_ok status)
          then (Status_Integrity RC_LedgerDecodeFailed
                  ("ledger payload did not parse: " +:+ ToText_ReasonCode (st_reason status)),
                out, blank_recovery_report)
          else
            let '(status, (ledger, report)) := DecodePayload limits root in
            (status, if status_ok status then ledger else out, report)
      end
  end.

(** ** Files *)

(** The calls on the file system, each with whether it went well; an open stream
    is known by the path it writes. *)
Class FileSystem (F : Type) := {
  open_truncated : string -> F -> bool * F;
  write_stream : string -> list Z -> F -> bool * F;
  flush_stream : string -> F -> bool * F;
  rename_file : string -> string -> F -> bool * F;
  remove_file : string -> F -> F;
  file_size : string -> F -> option Z;
  read_file : string -> Z -> F -> option (list Z);
  (** what a reader that starts now would find under a path *)
  stored : string -> F -> option (list Z)
}.

(** What saving and loading rely on.  A call on one path leaves the others; what
    was written and flushed is there; a rename happens or does not. *)
Class FileSystemLaws (F : Type) `{FileSystem F} := {
  open_frame p q f : q <> p -> stored q (snd (open_truncated p f)) = stored q f;
  open_ok p f f' : open_truncated p f = (true, f') -> stored p f' = Some [];
  write_frame p bytes q f : q <> p -> stored q (snd (write_stream p bytes f)) = stored q f;
  flush_frame p q f : q <> p -> stored q (snd (flush_stream p f)) = stored q f;
  written p bytes f f' f'' : stored p f = Some [] -> write_stream p bytes f = (true, f') ->
    flush_stream p f' = (true, f'') -> stored p f'' = Some bytes;
  rename_ok p q f f' : rename_file p q f = (true, f') -> stored q f' = stored p f;
  rename_frame p q r f : r <> p -> r <> q -> stored r (snd (rename_file p q f)) = stored r f;
  rename_failed p q f f' r : rename_file p q f = (false, f') -> stored r f' = stored r f;
  remove_frame p q f : q <> p -> stored q (remove_file p f) = stored q f;
  size_stored p f bytes : stored p f = Some bytes -> file_size p f = Some (vsize bytes);
  read_stored_file p f bytes : stored p f = Some bytes -> read_file p (vsize bytes) f = Some bytes
}.

(** An instance: the files by their paths, and for the calls to come whether each
    goes well; a write that fails leaves half of its bytes. *)
Record Disk := mkDisk { dk_files : string -> option (list Z); dk_answers : list bool }.

Definition dk_set (path : string) (bytes : option (list Z)) (d : Disk) : Disk :=
  mkDisk (fun p => if eqb p path then bytes else dk_files d p) (dk_answers d).

(** The answer of the next call. *)
Definition dk_next (d : Disk) : bool * Disk :=
  match dk_answers d with
  | [] => (true, d)
  | ok :: rest => (ok, mkDisk (dk_files d) rest)
  end.

Definition dk_append (path : string) (bytes : list Z) (d : Disk) : Disk :=
  dk_set path (option_map (fun old => old ++ bytes)%list (dk_files d path)) d.

#[export] Instance disk_file_system : FileSystem Disk := {
  open_truncated path d :=
    let '(ok, d) := dk_next d in (ok, if ok : bool then dk_set path (Some []) d else d);
  write_stream path bytes d :=
    let '(ok, d) := dk_next d in
    (ok, dk_append path (if ok : bool then bytes else firstn (length bytes / 2) bytes) d);
  flush_stream _ d := dk_next d;
  rename_file p q d :=
    let '(ok, d) := dk_next d in
    (ok, if ok : bool then dk_set q (dk_files d p) (dk_set p None d) else d);
  remove_file path d := dk_set path None d;
  file_size path d := option_map vsize (dk_files d path);
  read_file path size d := option_map (firstn (Z.to_nat size)) (dk_files d path);
  stored path d := dk_files d path
}.

Section Files.
Context {F : Type} `{FileSystem F}.

(** What [data()] of an empty vector is: a null pointer or not. *)
Context (empty_data : option (list Z)).

(** The steps of a save, each with the refusal when it fails. *)
Inductive SaveStep :=
| Save_Open (path : string)
| Save_Write (path : string) (bytes : list Z)
| Save_Flush (path : string)
| Save_Rename (from path : string).

Definition save_step (step : SaveStep) (f : F) : bool * F :=
  match step with
  | Save_Open path => open_truncated path f
  | Save_Write path bytes => write_stream path bytes f
  | Save_Flush path => flush_stream path f
  | Save_Rename from path =>
      let '(ok, f) := rename_file from path f in (ok, if ok : bool then f else remove_file from f)
  end.

Definition save_refusal (step : SaveStep) : Status :=
  Status_Rejected RC_LedgerHeaderInvalid
    match step with
    | Save_Open _ => "the ledger file could not be opened for writing"
    | Save_Write _ _ => "the ledger file could not be written"
    | Save_Flush _ => "the ledger file could not be flushed"
    | Save_Rename _ _ => "the ledger file could not be replaced atomically"
    end.

Fixpoint run_save (steps : list SaveStep) (f : F) : Status * F :=
  match steps with
  | [] => (Status_Ok, f)
  | step :: rest =>
      let '(ok, f) := save_step step f in
      if ok then run_save rest f else (save_refusal step, f)
  end.

Definition temporary_path (path : string) : string := path +:+ ".tmp".

Definition save_steps (path : string) (bytes : list Z) : list SaveStep :=
  let temporary := temporary_path path in
  [Save_Open temporary; Save_Write temporary bytes; Save_Flush temporary; Save_Rename temporary path].

Definition SaveLedgerFile (l : FindingLedger) (path : string) (write_epoch write_incarnation max_bytes : Z)
    (f : F) : Status * F :=
  let bytes := EncodeLedger l write_epoch write_incarnation in
  if max_bytes <? vsize bytes
  then (Status_Limit RC_LedgerPayloadTooLarge "encoded ledger exceeds the file envelope", f)
  else run_save (save_steps path bytes) f.

Definition vector_data (bytes : list Z) : option (list Z) :=
  match bytes with [] => empty_data | _ => Some bytes end.

Definition LoadLedgerFile (path : string) (limits : RuntimeLimits) (live_epoch : Z) (out : FindingLedger)
    (report : LedgerRecoveryReport) (f : F) : Status * FindingLedger * LedgerRecoveryReport :=
  let refuse status := (status, out, report) in
  match file_size path f with
  | None => refuse (Status_NotFound RC_LedgerHeaderInvalid "the ledger file could not be inspected")
  | Some size =>
      if max_ledger_bytes limits <? size
      then refuse (Status_Limit RC_LedgerPayloadTooLarge "ledger file exceeds the envelope")
      else
        match read_file path size f with
        | None => refuse (Status_NotFound RC_LedgerHeaderInvalid "the ledger file could not be opened")
        | Some bytes =>
            if negb (vsize bytes =? size)
            then refuse (Status_Rejected RC_LedgerTruncated "the ledger file ended early")
            else DecodeLedger (vector_data bytes) limits live_epoch out
        end
  end.

(** ** The state of the observatory *)

Definition Observatory_Save (path : string) (e : Observatory) (f : F) : Status * Observatory * F :=
  let config := eng_config e in
  let '(status, f) := SaveLedgerFile (eng_ledger e) path (cfg_epoch config) (cfg_incarnation config)
                        (max_ledger_bytes (cfg_limits config)) f in
  (status, if status_ok status then count (fun c => c <| ct_persistence_writes ::= bump |>) e else e, f).

(** A decoded ledger takes the place of the live one. *)
Definition install_recovered (decoded : Status * FindingLedger * LedgerRecoveryReport) (e : Observatory)
    : Status * LedgerRecoveryReport * Observatory :=
  let '(status, ledger, report) := decoded in
  if negb (status_ok status) then (status, report, e)
  else (Status_Ok, report, count (fun c => c <| ct_recoveries ::= bump |>) (e <| eng_ledger := ledger |>)).

Definition Observatory_Load (path : string) (report : LedgerRecoveryReport) (e : Observatory) (f : F)
    : Status * LedgerRecoveryReport * Observatory :=
  let config := eng_config e in
  install_recovered
    (LoadLedgerFile path (cfg_limits config) (cfg_epoch config) (empty_ledger (cfg_limits config))
       report f) e.
End Files.

Definition EncodeState (e : Observatory) : list Z :=
  let config := eng_config e in EncodeLedger (eng_ledger e) (cfg_epoch config) (cfg_incarnation config).

Definition DecodeState (bytes : option (list Z)) (e : Observatory)
    : Status * LedgerRecoveryReport * Observatory :=
  let config := eng_config e in
  install_recovered
    (DecodeLedger bytes (cfg_limits config) (cfg_epoch config) (empty_ledger (cfg_limits config))) e.
