(* ===== verification/PersistFacts.v ===== *)
(** * Facts about the durable ledger

    What a saved ledger comes back as ([recovered_from]), the restoring of every
    section of a payload, and the layout of the file that the checks on its
    header accept.  The properties are in PersistProps.v. *)

From Stdlib Require Import ZArith Lia List Bool Sorting.Sorted Ascii String.
From stdpp Require Import base tactics list strings sets.
From S2P Require Import Prelude Containers Text Status Time Hash Identity Double Value Drift Intent.
From S2P Require Import Observation Freshness Policy Comparison Finding Ledger LedgerApply LedgerFacts.
From S2P Require Import LedgerProps.
From S2P Require Import Json JsonGrammar JsonTokens JsonCodec JsonHelp Wire Interchange Query Engine.
From S2P Require Import Durable Persistence.
#[local] Open Scope string_scope.
#[local] Open Scope Z_scope.
#[local] Arguments String.append : simpl nomatch.

(** ** What comes back *)

Definition recovered_observation (r : RetainedObservation) : RetainedObservation :=
  mkRetained ((ro_snapshot r) <| snap_received_at := 0 |>) recovered_verdict true.

(** A live finding whose evidence was current gets one more entry. *)
Definition newly_recovered (f : Finding) : bool :=
  IsLiveState (fd_state f) && negb (eqb (fd_evidence_freshness f) FS_RecoveredNotFresh).

Definition recovery_event (f : Finding) (sequence : Z) : TimelineEntry :=
  (finding_event TE_EvidenceRecovered f (fd_last_evaluated f) RC_EvidenceRecoveredNotFresh
     "evidence recovered from durable state is not current") <| tl_sequence := sequence |>.

Definition recovered_finding (limits : RuntimeLimits) (f : Finding) (sequence : Z) : Finding :=
  let g := f <| fd_evidence_freshness := FS_RecoveredNotFresh |> in
  let g := if newly_recovered f then push_event (recovery_event f sequence) g else g in
  g <| fd_timeline ::= keep_last (max_timeline_entries_per_finding limits) |>.

(** The findings in their order, the timeline sequence advancing with every new entry. *)
Fixpoint recovered_findings (limits : RuntimeLimits) (findings : list Finding) (sequence : Z)
    : omap Digest Finding * Z :=
  match findings with
  | [] => ([], sequence)
  | f :: rest =>
      let sequence := if newly_recovered f then bump sequence else sequence in
      let '(m, last) := recovered_findings limits rest sequence in
      ((fd_id f, recovered_finding limits f sequence) :: m, last)
  end.

Definition observation_key (r : RetainedObservation) : SourceWindowKey :=
  (snap_target (ro_snapshot r), snap_source (ro_snapshot r)).

Definition window (l : FindingLedger) (key : SourceWindowKey) : list RetainedObservation :=
  mget [] key (lg_windows l).

(** A ledger whose records fit what is stored of them. *)
Record ledger_kept (l : FindingLedger) : Prop := {
  lk_ok : ledger_ok l;
  lk_revision : is_u64 (lg_revision l);
  lk_sequence : is_u64 (lg_timeline_sequence l);
  lk_baselines : Forall (fun b => baseline_kept (LedgerPayloadLimits (lg_limits l)) b) (mvals (lg_baselines l));
  lk_observations : Forall (fun r =>
    snapshot_shape (LedgerPayloadLimits (lg_limits l)) (ro_snapshot r) /\
    status_ok (Snapshot_Validate (LedgerPayloadLimits (lg_limits l)) (ro_snapshot r)) = true /\
    is_i64 (snap_ttl_nanos (ro_snapshot r)) /\
    Forall (fun e => Forall (fun f => field_writable (fst f) (snd f)) (ob_fields (snd e)))
      (snap_objects (ro_snapshot r))) (flat_map snd (lg_windows l));
  lk_findings : Forall (fun f => finding_kept (LedgerPayloadLimits (lg_limits l)) f /\ Digest_is_set (fd_id f) = true)
    (Findings l);
  lk_groups : Forall group_kept (Groups l);
  lk_timeline : Forall entry_kept (lg_global_timeline l);
  lk_timeline_size : vsize (lg_global_timeline l) <= max_global_timeline_entries (lg_limits l)
}.

(** ** Facts: sorted lists *)

Lemma minsert_at_end {K V} `{Ordered K} (m : omap K V) k v : Forall (fun k' => key_lt k' k) (mkeys m) ->
  minsert k v m = (m ++ [(k, v)])%list.
Proof.
  induction m as [|[k' v'] m IH]; [done|]. cbn [mkeys map fst]. intros [Hk Hm]%Forall_cons. cbn.
  unfold key_lt in Hk. rewrite (compare_antisym k' k), Hk. cbn [CompOpp]. by rewrite IH.
Qed.

(** Every key before an entry of a sorted map is smaller. *)
Lemma msorted_prefix {K V} `{Ordered K} (pre post : omap K V) (k : K) (v : V) : msorted (pre ++ (k, v) :: post)%list ->
  Forall (fun k' => key_lt k' k) (mkeys pre).
Proof.
  induction pre as [|[k' v'] pre IH]; [constructor|]. cbn [app]. intros [Hs Hf]%msorted_cons_inv.
  cbn [mkeys map fst]. constructor; [|by apply IH]. rewrite Forall_forall in Hf. apply Hf.
  unfold mkeys. rewrite map_app. apply elem_of_app. right. apply elem_of_cons. by left.
Qed.

Lemma dedup_elem {K} `{Ordered K} (l : list K) x : x ∈ dedup eqb l <-> x ∈ l.
Proof.
  split; [apply sublist_subseteq, dedup_sublist|]. revert x.
  induction l as [|y l IH]; [done|]. intros x Hx. cbn [dedup]. destruct l as [|z l]; [done|].
  destruct (eqb y z) eqn:E.
  - apply eqb_eq in E as ->. assert (Hz : x ∈ dedup eqb (z :: l)) by (apply IH; set_solver).
    assert (Hh : exists r, dedup eqb (z :: l) = z :: r).
    { cbn [dedup]. destruct l as [|w l]; [by eexists|]. destruct (eqb z w); [|by eexists].
      destruct (dedup eqb (w :: l)); by eexists. }
    destruct Hh as [r Hr]. by rewrite Hr in *.
  - apply elem_of_cons in Hx as [->|Hx]; [by left|]. right. by apply IH.
Qed.

Lemma dedup_sorted {K} `{Ordered K} (l : list K) :
  StronglySorted (fun a b => ltb b a = false) l -> StronglySorted key_lt (dedup eqb l).
Proof.
  induction 1 as [|x l Hs IH Hf]; [constructor|]. cbn [dedup]. destruct l as [|y l]; [by repeat constructor|].
  destruct (eqb x y) eqn:E.
  - apply eqb_eq in E as ->. destruct (dedup eqb (y :: l)) as [|z r] eqn:Ed; [by repeat constructor|].
    assert (z = y) as ->.
    { cbn [dedup] in Ed. destruct l as [|w l]; [by injection Ed|]. destruct (eqb y w); [|by injection Ed].
      destruct (dedup eqb (w :: l)); by injection Ed. }
    done.
  - constructor; [done|]. apply Forall_forall. intros z Hz%(proj1 (dedup_elem _ _)). rewrite Forall_forall in Hf.
    destruct (key_trichotomy x z) as [?|[->|Hgt]]; [done| |apply ltb_lt in Hgt; by rewrite Hf in Hgt].
    (* z = x: then y lies between x and x *)
    exfalso. destruct (key_trichotomy z y) as [H1|[->|H1]]; [|by rewrite eqb_refl in E|
      apply ltb_lt in H1; rewrite Hf in H1; [done|by left]].
    inversion Hs as [|? ? _ Hfy]; subst. apply elem_of_cons in Hz as [->|Hz]; [by rewrite eqb_refl in E|].
    rewrite Forall_forall in Hfy. specialize (Hfy z Hz). apply ltb_lt in H1. congruence.
Qed.

Lemma Targets_sorted l : StronglySorted key_lt (Targets l).
Proof.
  destruct (ltb_less (K := string)) as [Hn Ha]. by apply dedup_sorted, sort_by_sorted.
Qed.

Lemma Targets_baselines l target : target ∈ mkeys (lg_baselines l) -> target ∈ Targets l.
Proof.
  intros Ht. unfold Targets. apply dedup_elem. rewrite <- sort_by_perm. apply elem_of_app. by left.
Qed.

Lemma Targets_windows l key w : (key, w) ∈ lg_windows l -> fst key ∈ Targets l.
Proof.
  intros Hw. unfold Targets. apply dedup_elem. rewrite <- sort_by_perm. apply elem_of_app.
  destruct (mmem (fst key) (lg_baselines l)) eqn:E.
  - left. apply mfind_is_Some. by apply mmem_true.
  - right. apply list_elem_of_In, filter_In. split; [|by rewrite E].
    apply in_map_iff. exists (key, w). split; [done|by apply list_elem_of_In].
Qed.

(** Looking every key of a covering sorted list up yields the values in order. *)
Lemma lookup_all {V} (m : omap string V) keys : msorted m -> StronglySorted key_lt keys ->
  (forall k, k ∈ mkeys m -> k ∈ keys) ->
  flat_map (fun k => match mfind k m with Some v => [v] | None => [] end) keys = mvals m.
Proof.
  revert m. induction keys as [|t keys IH]; intros m Hm Hk Hin.
  - destruct m as [|[k v] m]; [done|]. exfalso. apply (not_elem_of_nil k), Hin. by left.
  - inversion Hk as [|? ? Hk' Hlt]; subst. cbn [flat_map]. destruct m as [|[k v] m].
    { cbn. clear. induction keys; done. }
    apply msorted_cons_inv in Hm as [Hs Hf]. cbn [mfind].
    assert (Hrest : forall m' : omap string V, (forall k', k' ∈ mkeys m' -> key_lt t k') -> msorted m' ->
      (forall k', k' ∈ mkeys m' -> k' ∈ t :: keys) ->
      flat_map (fun k => match mfind k m' with Some v => [v] | None => [] end) keys = mvals m').
    { intros m' Hgt Hs' Hin'. apply IH; [done|done|]. intros k' Hk''. specialize (Hgt k' Hk'').
      apply Hin' in Hk''. apply elem_of_cons in Hk'' as [->|?]; [by apply key_lt_irrefl in Hgt|done]. }
    destruct (eqb t k) eqn:E.
    + apply eqb_eq in E as ->. cbn [app mvals map snd]. f_equal.
      change (map snd m) with (mvals m). rewrite <- (Hrest m); [|by apply Forall_forall|done|intros; apply Hin; by right].
      clear - Hlt. induction keys as [|k' keys IH]; [done|]. apply Forall_cons in Hlt as [Hlt Hr].
      cbn [flat_map mfind]. rewrite IH by done. assert (eqb k' k = false) as ->; [|done].
      apply eqb_neq. intros ->. by apply key_lt_irrefl in Hlt.
    + assert (Hkt : key_lt t k).
      { specialize (Hin k ltac:(by left)). apply elem_of_cons in Hin as [->|Hin]; [by rewrite eqb_refl in E|].
        rewrite Forall_forall in Hlt. by apply Hlt. }
      rewrite mfind_Forall_lt; [|eapply Forall_impl; [exact Hf|intros; by eapply key_lt_trans]]. cbn [app].
      rewrite <- (Hrest ((k, v) :: m)); [done| |by constructor|done].
      intros k' Hin'. cbn [mkeys map fst] in Hin'. apply elem_of_cons in Hin' as [->|Hin']; [done|].
      rewrite Forall_forall in Hf. eapply key_lt_trans; [exact Hkt|by apply Hf].
Qed.

(** ** Facts: restoring *)

(** A section that is restored entry after entry, under an invariant on what has
    been restored so far. *)
Lemma restore_each_ok {A B} (P : list B -> FindingLedger -> Prop) (encode : B -> Value)
    (decode : Value -> Decoded A) (g : B -> A) restore counted l ledger report :
  Forall (fun x => decode (encode x) = inr (g x)) l -> P [] ledger ->
  (forall pre x post s, l = (pre ++ x :: post)%list -> P pre s ->
     exists s', restore (g x) s = (Status_Ok, s') /\ P (pre ++ [x])%list s') ->
  exists s', restore_each decode restore counted (map encode l) (ledger, report) =
    (Status_Ok, (s', Nat.iter (length l) counted report)) /\ P l s'.
Proof.
  intros Hd HP Hstep.
  assert (Hgen : forall post pre s r, l = (pre ++ post)%list -> P pre s ->
    exists s', restore_each decode restore counted (map encode post) (s, r) =
      (Status_Ok, (s', Nat.iter (length post) counted r)) /\ P l s').
  { induction post as [|x post IH]; intros pre s r Hl Hs.
    - exists s. rewrite app_nil_r in Hl. by subst.
    - cbn [map restore_each]. rewrite Forall_forall in Hd.
      rewrite Hd by (rewrite Hl; apply elem_of_app; right; by left).
      destruct (Hstep pre x post s Hl Hs) as (s' & E & Hs'). cbn [fst snd]. rewrite E. cbn [status_ok Status_Ok negb].
      destruct (IH (pre ++ [x])%list s' (counted r)) as (s'' & E' & Hs'');
        [by rewrite <- app_assoc|done|]. exists s''. split; [|done]. rewrite E'. f_equal. f_equal.
      cbn [length]. by rewrite Nat.iter_succ_r. }
  by apply (Hgen l []).
Qed.

(** Records keyed by themselves, inserted in key order. *)
Lemma restore_sorted {K V} `{Ordered K} (key : V -> K) (m : omap K V) pre x post : msorted m ->
  mall (fun k v => key v = k) m -> mvals m = (pre ++ x :: post)%list ->
  m = map (fun v => (key v, v)) (pre ++ x :: post) /\
  minsert (key x) x (map (fun v => (key v, v)) pre) = map (fun v => (key v, v)) (pre ++ [x]) /\
  mmem (key x) (map (fun v => (key v, v)) pre) = false.
Proof.
  intros Hs Hk Hv. assert (E : m = map (fun v => (key v, v)) (mvals m)).
  { clear Hv. assert (Hall : Forall (fun e => key (snd e) = fst e) m).
    { apply Forall_forall. intros [k v] Hin. apply (Hk k v), mfind_In_sorted; [done|by apply list_elem_of_In]. }
    clear Hk Hs. induction Hall as [|[k v] m E _ IH]; [done|]. cbn in E |- *. rewrite E. f_equal. exact IH. }
  rewrite Hv in E. split; [done|]. rewrite E, map_app in Hs. cbn [map] in Hs.
  apply msorted_prefix in Hs as Hlt. split.
  - rewrite minsert_at_end by done. by rewrite map_app.
  - unfold mmem. destruct (mfind (key x) _) as [v|] eqn:Ef; [|done]. exfalso.
    assert (Hin : key x ∈ mkeys (map (fun v => (key v, v)) pre)) by (apply mfind_is_Some; by rewrite Ef).
    rewrite Forall_forall in Hlt. by apply Hlt, key_lt_irrefl in Hin.
Qed.

Lemma prefix_shorter {A} (l pre post : list A) x : l = (pre ++ x :: post)%list -> vsize pre < vsize l.
Proof. intros ->. unfold vsize. rewrite length_app. cbn. lia. Qed.

Lemma vsize_map {A B} (f : A -> B) l : vsize (map f l) = vsize l.
Proof. unfold vsize. by rewrite length_map. Qed.

Lemma keyed_map {K V} `{Ordered K} (key : V -> K) (m : omap K V) : msorted m ->
  mall (fun k v => key v = k) m -> map (fun v => (key v, v)) (mvals m) = m.
Proof.
  intros Hs Hk. destruct (mvals m) as [|x post] eqn:Ev; [by destruct m|].
  by destruct (restore_sorted key m [] x post) as (-> & _).
Qed.

(** A map of such records, stored as the list of its values, is restored. *)
Lemma restore_keyed {K V} `{Ordered K} (key : V -> K) (m : omap K V) limit (place : omap K V -> FindingLedger)
    (encode : V -> Value) decode restore counted report :
  msorted m -> mall (fun k v => key v = k) m -> vsize m <= limit ->
  Forall (fun x => decode (encode x) = inr x) (mvals m) ->
  (forall m' x, (limit <=? vsize m') && negb (mmem (key x) m') = false ->
     restore x (place m') = (Status_Ok, place (minsert (key x) x m'))) ->
  restore_each decode restore counted (map encode (mvals m)) (place [], report) =
  (Status_Ok, (place m, Nat.iter (length m) counted report)).
Proof.
  intros Hs Hk Hn Hd Hr. set (keyed := map (fun v => (key v, v))).
  destruct (restore_each_ok (fun pre s => s = place (keyed pre)) encode decode id restore counted
    (mvals m) (place []) report) as (s' & E & ->); [done|done| |].
  - intros pre x post s Hv ->. destruct (restore_sorted key m pre x post) as (_ & Ei & Hm); [done..|].
    fold keyed in Ei, Hm. eexists. rewrite <- Ei. split; [|reflexivity]. apply Hr.
    rewrite Hm, andb_true_r. apply prefix_shorter in Hv. unfold mvals in Hv. rewrite vsize_map in Hv.
    apply Z.leb_gt. unfold keyed. rewrite vsize_map. lia.
  - rewrite E. unfold keyed. rewrite keyed_map by done. unfold mvals. by rewrite length_map.
Qed.

Lemma keep_last_fits {A} limit (l : list A) : vsize l <= limit -> keep_last limit l = l.
Proof. intros Hl. unfold keep_last. by rewrite (proj2 (Z.ltb_ge _ _)). Qed.

Lemma restore_baselines limits l s report : ledger_ok l -> lg_limits s = lg_limits l -> lg_baselines s = [] ->
  Forall (baseline_kept limits) (mvals (lg_baselines l)) ->
  restore_each (fun v => DecodeBaseline v limits) RestoreBaseline (fun r => r <| rr_baselines_restored ::= bump |>)
    (map EncodeBaseline (mvals (lg_baselines l))) (s, report) =
  (Status_Ok, (s <| lg_baselines := lg_baselines l |>,
     Nat.iter (length (lg_baselines l)) (fun r => r <| rr_baselines_restored ::= bump |>) report)).
Proof.
  intros Hok Hl Hb Hkept. destruct Hok.
  replace s with (s <| lg_baselines := [] |>) at 1 by (destruct s; cbn in *; by subst).
  apply (restore_keyed base_target (lg_baselines l) (max_targets (lg_limits l))
    (fun m => s <| lg_baselines := m |>)); [done..| |].
  - eapply Forall_impl; [exact Hkept|]. intros b. apply DecodeBaseline_Encode.
  - intros m' x Hm. unfold RestoreBaseline. cbn. by rewrite Hl, Hm.
Qed.

Lemma restore_groups l s report : ledger_ok l -> lg_limits s = lg_limits l -> lg_groups s = [] ->
  Forall group_kept (Groups l) ->
  restore_each DecodeGroup RestoreGroup (fun r => r <| rr_groups_restored ::= bump |>)
    (map EncodeGroup (Groups l)) (s, report) =
  (Status_Ok, (s <| lg_groups := lg_groups l |>,
     Nat.iter (length (lg_groups l)) (fun r => r <| rr_groups_restored ::= bump |>) report)).
Proof.
  intros Hok Hl Hb Hkept. destruct Hok.
  replace s with (s <| lg_groups := [] |>) at 1 by (destruct s; cbn in *; by subst).
  apply (restore_keyed gr_id (lg_groups l) (max_groups (lg_limits l)) (fun m => s <| lg_groups := m |>)); [done..| |].
  - eapply Forall_impl; [exact Hkept|]. apply DecodeGroup_Encode.
  - intros m' x Hm. unfold RestoreGroup. cbn. by rewrite Hl, Hm.
Qed.

Lemma restore_timeline s entries report : Forall entry_kept entries -> lg_global_timeline s = [] ->
  vsize entries <= max_global_timeline_entries (lg_limits s) ->
  restore_each DecodeTimelineEntry RestoreTimeline (fun r => r) (map EncodeTimelineEntry entries) (s, report) =
  (Status_Ok, (s <| lg_global_timeline := entries |>, report)).
Proof.
  intros Hkept Hs Hn.
  destruct (restore_each_ok (fun pre s' => s' = s <| lg_global_timeline := pre |>) EncodeTimelineEntry
    DecodeTimelineEntry id RestoreTimeline (fun r => r) entries s report) as (s' & E & ->).
  - eapply Forall_impl; [exact Hkept|]. apply DecodeTimelineEntry_Encode.
  - destruct s. cbn in *. by subst.
  - intros pre x post s' Hv ->. eexists. split; [reflexivity|].
    transitivity (s <| lg_global_timeline :=
      keep_last (max_global_timeline_entries (lg_limits s)) (pre ++ [x])%list |>); [reflexivity|].
    apply prefix_shorter in Hv. rewrite keep_last_fits; [done|]. unfold vsize in *. rewrite length_app. cbn. lia.
  - rewrite E. assert (Hn' : forall n, Nat.iter n (fun r : LedgerRecoveryReport => r) report = report)
      by (intros n; induction n; done).
    by rewrite Hn'.
Qed.

(** ** Facts: observations *)

Definition of_key (key : SourceWindowKey) (rs : list RetainedObservation) : list RetainedObservation :=
  List.filter (fun r => eqb (observation_key r) key) rs.

Lemma of_key_flat_map {A} key (f : A -> list RetainedObservation) l :
  of_key key (flat_map f l) = flat_map (fun x => of_key key (f x)) l.
Proof. unfold of_key. induction l as [|x l IH]; [done|]. cbn. by rewrite List.filter_app, IH. Qed.

Lemma of_key_window key key' w : window_ok key' w -> of_key key w = if eqb key' key then w else [].
Proof.
  unfold window_ok. intros Hw. unfold of_key. induction Hw as [|r w Hr _ IH]; [by destruct (eqb _ _)|].
  cbn [List.filter]. unfold observation_key at 1. rewrite Hr, IH. by destruct (eqb key' key).
Qed.

Lemma flat_map_found {K V} `{Ordered K} key (m : omap K (list V)) : msorted m ->
  flat_map (fun e => if eqb (fst e) key then snd e else []) m = mget [] key m.
Proof.
  unfold mget. induction m as [|[k w] m IH]; [done|]. intros [Hs Hf]%msorted_cons_inv. cbn [flat_map fst snd mfind].
  rewrite IH by done. rewrite (eqb_sym key k). destruct (eqb k key) eqn:E; [|done].
  apply eqb_eq in E as ->. rewrite mfind_Forall_lt by done. by rewrite app_nil_r.
Qed.

Lemma flat_map_only {K A} `{Ordered K} (k : K) (x : list A) keys : StronglySorted key_lt keys ->
  flat_map (fun t => if eqb t k then x else []) keys = if existsb (fun t => eqb t k) keys then x else [].
Proof.
  induction 1 as [|t keys _ IH Hlt]; [done|]. cbn [flat_map existsb]. rewrite IH. clear IH.
  destruct (eqb t k) eqn:E; [|done]. apply eqb_eq in E as ->.
  assert (existsb (fun t => eqb t k) keys = false) as ->; [|by rewrite app_nil_r].
  induction Hlt as [|t keys Hk _ IH]; [done|]. cbn [existsb]. rewrite IH, orb_false_r. apply eqb_neq.
  intros ->. by apply key_lt_irrefl in Hk.
Qed.

Lemma ObservationsFor_of_key l target key : ledger_ok l ->
  of_key key (ObservationsFor l target) = if eqb target (fst key) then window l key else [].
Proof.
  intros Hok. unfold ObservationsFor. rewrite of_key_flat_map.
  assert (E : forall e : SourceWindowKey * list RetainedObservation, e ∈ lg_windows l ->
    of_key key (if eqb (fst (fst e)) target then snd e else []) =
    if eqb target (fst key) then (if eqb (fst e) key then snd e else []) else []).
  { intros [k w] Hin. change (string * string)%type with SourceWindowKey in k. cbn [fst snd].
    assert (Hw : window_ok k w) by (apply (ok_windows l Hok), mfind_In_sorted;
      [apply (ok_windows_sorted l Hok)|by apply list_elem_of_In]).
    destruct (eqb (fst k) target) eqn:E1.
    - apply eqb_eq in E1 as <-. rewrite (of_key_window _ _ _ Hw). destruct (eqb k key) eqn:E2.
      + apply eqb_eq in E2 as ->. by rewrite eqb_refl.
      + by destruct (eqb (fst k) (fst key)).
    - destruct (eqb target (fst key)) eqn:E2; [|done]. destruct (eqb k key) eqn:E3; [|done].
      apply eqb_eq in E2, E3. subst. by rewrite eqb_refl in E1. }
  unfold window. rewrite <- (flat_map_found key) by apply (ok_windows_sorted l Hok).
  revert E. generalize (lg_windows l) as m. induction m as [|e m IH]; intros E; cbn [flat_map].
  - by destruct (eqb _ _).
  - rewrite E by (by left). rewrite IH by (intros; apply E; by right). by destruct (eqb target (fst key)).
Qed.

(** What is stored of a window is the window. *)
Lemma stored_of_key l key : ledger_ok l -> of_key key (stored_observations l) = window l key.
Proof.
  intros Hok. unfold stored_observations. rewrite of_key_flat_map.
  rewrite (flat_map_ext _ (fun t => if eqb t (fst key) then window l key else []))
    by (intros; by apply ObservationsFor_of_key).
  rewrite flat_map_only by apply Targets_sorted.
  destruct (existsb _ _) eqn:E; [done|]. unfold window, mget.
  destruct (mfind key (lg_windows l)) as [w|] eqn:Ef; [|done]. exfalso.
  apply mfind_In, list_elem_of_In, Targets_windows in Ef. apply not_true_iff_false in E. destruct E.
  apply existsb_exists. exists (fst key). split; [by apply list_elem_of_In|apply eqb_refl].
Qed.

Lemma of_key_app key l1 l2 : of_key key (l1 ++ l2) = (of_key key l1 ++ of_key key l2)%list.
Proof. apply List.filter_app. Qed.

Lemma of_key_bounded l r pre post : ledger_ok l -> stored_observations l = (pre ++ r :: post)%list ->
  vsize (of_key (observation_key r) pre) < max_retained_snapshots_per_source (lg_limits l).
Proof.
  intros Hok Hv. pose proof (stored_of_key l (observation_key r) Hok) as Hw. rewrite Hv, of_key_app in Hw.
  assert (Hr : of_key (observation_key r) (r :: post) = r :: of_key (observation_key r) post)
    by (unfold of_key; cbn; by rewrite eqb_refl).
  rewrite Hr in Hw. unfold window, mget in Hw.
  destruct (mfind (observation_key r) (lg_windows l)) as [w|] eqn:E; [|by destruct (of_key _ pre)].
  apply (ok_windows_size l Hok) in E. rewrite <- Hw in E. unfold vsize in *. rewrite length_app in E. cbn in E. lia.
Qed.

Lemma DecodeRetained_Encode limits r : snapshot_shape limits (ro_snapshot r) ->
  status_ok (Snapshot_Validate limits (ro_snapshot r)) = true ->
  DecodeRetained limits (EncodeRetained r) = inr (recovered_observation r).
Proof.
  intros Hs Hv. unfold DecodeRetained, EncodeRetained. cbn [as_map].
  rewrite CheckMembers_make_map by reflexivity. unfold checked. change (status_ok Status_Ok) with true. cbv iota.
  unfold required_member. rewrite FindMember_make_map.
  match goal with |- context [mfind "document" ?l] =>
    change (mfind "document" l) with (Some (EncodeObservationDocument (ro_snapshot r))) end.
  cbn [dbind]. by rewrite DecodeObservation_Encode.
Qed.

Lemma restore_observations limits l s report : ledger_ok l -> lg_limits s = lg_limits l -> lg_windows s = [] ->
  Forall (fun r => snapshot_shape limits (ro_snapshot r) /\
    status_ok (Snapshot_Validate limits (ro_snapshot r)) = true) (stored_observations l) ->
  exists windows,
    restore_each (DecodeRetained limits) RestoreObservation (fun r => r <| rr_observations_restored ::= bump |>)
      (map EncodeRetained (stored_observations l)) (s, report) =
    (Status_Ok, (s <| lg_windows := windows |>,
       Nat.iter (length (stored_observations l)) (fun r => r <| rr_observations_restored ::= bump |>) report)) /\
    forall key, mget [] key windows = map recovered_observation (window l key).
Proof.
  intros Hok Hl Hb Hkept.
  destruct (restore_each_ok (fun pre s' => exists windows, s' = s <| lg_windows := windows |> /\
      forall key, mget [] key windows = map recovered_observation (of_key key pre))
    EncodeRetained (DecodeRetained limits) recovered_observation RestoreObservation
    (fun r => r <| rr_observations_restored ::= bump |>) (stored_observations l) s report)
    as (s' & E & windows & -> & Hw).
  - eapply Forall_impl; [exact Hkept|]. intros r [? ?]. by apply DecodeRetained_Encode.
  - exists []. split; [destruct s; cbn in *; by subst|done].
  - intros pre r post s' Hv (windows & -> & Hw). eexists. split; [reflexivity|].
    pose proof (of_key_bounded l r pre post Hok Hv) as Hn. eexists. split; [reflexivity|].
    intros key. unfold mget at 1. cbn [ro_snapshot recovered_observation].
    change (snap_target _, snap_source _) with (observation_key r). rewrite mfind_insert.
    rewrite of_key_app. unfold of_key at 2. cbn [List.filter]. rewrite (eqb_sym key).
    destruct (eqb (observation_key r) key) eqn:Ek.
    + apply eqb_eq in Ek as <-. cbn. rewrite Hl, Hw. rewrite vsize_map, (proj2 (Z.leb_gt _ _)) by done.
      by rewrite map_app.
    + rewrite app_nil_r, <- Hw. done.
  - exists windows. split; [exact E|]. intros key. by rewrite Hw, stored_of_key.
Qed.

(** ** Facts: findings *)

Lemma recovered_findings_snoc limits pre f sequence :
  recovered_findings limits (pre ++ [f]) sequence =
  (let '(m, last) := recovered_findings limits pre sequence in
   let last := if newly_recovered f then bump last else last in
   ((m ++ [(fd_id f, recovered_finding limits f last)])%list, last)).
Proof.
  revert sequence. induction pre as [|g pre IH]; intros sequence; [done|]. cbn [app recovered_findings].
  rewrite IH. by destruct (recovered_findings limits pre _).
Qed.

Lemma recovered_findings_keys limits findings sequence :
  mkeys (fst (recovered_findings limits findings sequence)) = map fd_id findings.
Proof.
  revert sequence. induction findings as [|f findings IH]; intros sequence; [done|].
  cbn [recovered_findings map].
  specialize (IH (if newly_recovered f then bump sequence else sequence)).
  destruct (recovered_findings _ _ _). cbn in *. by rewrite IH.
Qed.

Definition suppressions_of (findings : list Finding) (n : Z) : Z :=
  foldl (fun n f => if has_suppression f then bump n else n) n findings.

(** The state once the findings of a list are back. *)
Definition with_recovered (s : FindingLedger) (findings : list Finding) : FindingLedger :=
  let '(m, last) := recovered_findings (lg_limits s) findings (lg_timeline_sequence s) in
  s <| lg_timeline_sequence := last |>
    <| lg_suppressions_active := suppressions_of findings (lg_suppressions_active s) |>
    <| lg_findings := m |>.

Lemma RestoreFinding_next s pre f : Digest_is_set (fd_id f) = true ->
  Forall (fun id => key_lt id (fd_id f)) (map fd_id pre) -> vsize pre < max_findings (lg_limits s) ->
  RestoreFinding f (with_recovered s pre) = (Status_Ok, with_recovered s (pre ++ [f])).
Proof.
  intros Hid Hlt Hn. unfold with_recovered. rewrite recovered_findings_snoc.
  pose proof (recovered_findings_keys (lg_limits s) pre (lg_timeline_sequence s)) as Hk.
  destruct (recovered_findings _ pre _) as [m last]. cbn [fst] in Hk.
  assert (Hm : vsize m = vsize pre).
  { apply (f_equal (@length Digest)) in Hk. unfold mkeys in Hk. rewrite !length_map in Hk.
    unfold vsize. by rewrite Hk. }
  unfold RestoreFinding. cbn. rewrite Hm, (proj2 (Z.leb_gt _ _)), Hid by done. cbn.
  unfold newly_recovered. cbn. rewrite <- Hk in Hlt.
  pose proof (minsert_at_end m (fd_id f)) as Hend.
  unfold suppressions_of. rewrite foldl_app. cbn [foldl].
  fold (suppressions_of pre (lg_suppressions_active s)).
  unfold recovered_finding, newly_recovered.
  destruct (IsLiveState (fd_state f) && negb (eqb (fd_evidence_freshness f) FS_RecoveredNotFresh)); cbn.
  all: rewrite <- Hend by done; unfold has_suppression; cbn; by destruct (fd_suppression f).
Qed.

Lemma findings_increasing l pre f post : ledger_ok l -> Findings l = (pre ++ f :: post)%list ->
  Forall (fun id => key_lt id (fd_id f)) (map fd_id pre).
Proof.
  intros Hok Hv. assert (Hk : mall (fun id f => fd_id f = id) (lg_findings l)).
  { intros id g Hg. by apply (ok_findings l Hok) in Hg as [<- _]. }
  destruct (restore_sorted fd_id (lg_findings l) pre f post) as (Em & _); [apply Hok|done|done|].
  pose proof (ok_findings_sorted l Hok) as Hs. rewrite Em, map_app in Hs. cbn [map] in Hs.
  apply msorted_prefix in Hs. unfold mkeys in Hs. by rewrite map_map in Hs.
Qed.

Lemma restore_findings limits l s report : ledger_ok l -> lg_limits s = lg_limits l -> lg_findings s = [] ->
  Forall (fun f => finding_kept limits f /\ Digest_is_set (fd_id f) = true) (Findings l) ->
  restore_each (fun v => DecodeFinding v limits) RestoreFinding (fun r => r <| rr_findings_restored ::= bump |>)
    (map EncodeFinding (Findings l)) (s, report) =
  (Status_Ok, (with_recovered s (Findings l),
     Nat.iter (length (Findings l)) (fun r => r <| rr_findings_restored ::= bump |>) report)).
Proof.
  intros Hok Hl Hb Hkept.
  destruct (restore_each_ok (fun pre s' => s' = with_recovered s pre) EncodeFinding
    (fun v => DecodeFinding v limits) id RestoreFinding (fun r => r <| rr_findings_restored ::= bump |>)
    (Findings l) s report) as (s' & E & ->); [| | |exact E].
  - eapply Forall_impl; [exact Hkept|]. intros f [Hf _]. by apply DecodeFinding_Encode.
  - unfold with_recovered. cbn. destruct s. cbn in *. by subst.
  - intros pre f post s' Hv ->. eexists. split; [|reflexivity]. unfold id.
    apply RestoreFinding_next.
    + rewrite Forall_forall in Hkept. apply Hkept. rewrite Hv. apply elem_of_app. right. by left.
    + by apply (findings_increasing l pre f post).
    + apply prefix_shorter in Hv. pose proof (ok_findings_size l Hok). unfold Findings, mvals in Hv.
      rewrite vsize_map in Hv. rewrite Hl. lia.
Qed.

(** ** Facts: the payload *)

Lemma restore_section_ok {A} name bound (decode : Value -> Decoded A) restore counted members entries s :
  mfind name members = Some (V_List entries) -> bound entries = Status_Ok ->
  restore_section name bound decode restore counted (make_map members) s =
  restore_each decode restore counted entries s.
Proof.
  intros Hm Hb. unfold restore_section. rewrite FindMember_make_map, Hm. cbn [as_list]. by rewrite Hb.
Qed.

Lemma recover_then_ok s k : recover_then (Status_Ok, s) k = k s.
Proof. done. Qed.

Lemma iter_bump n : Nat.iter n bump 0 = wrap64 (Z.of_nat n).
Proof.
  induction n as [|n IH]; [done|]. cbn [Nat.iter nat_rect]. fold (Nat.iter n bump 0). rewrite IH.
  unfold bump, wrap64. rewrite Z.add_mod_idemp_l by done. f_equal. lia.
Qed.

Ltac counted_by n r :=
  let IH := fresh in induction n as [|n IH]; [by destruct r|rewrite Nat.iter_succ, IH; by destruct r].

Lemma counted_baselines n r : Nat.iter n (fun r => r <| rr_baselines_restored ::= bump |>) r =
  r <| rr_baselines_restored ::= Nat.iter n bump |>.
Proof. counted_by n r. Qed.
Lemma counted_observations n r : Nat.iter n (fun r => r <| rr_observations_restored ::= bump |>) r =
  r <| rr_observations_restored ::= Nat.iter n bump |>.
Proof. counted_by n r. Qed.
Lemma counted_findings n r : Nat.iter n (fun r => r <| rr_findings_restored ::= bump |>) r =
  r <| rr_findings_restored ::= Nat.iter n bump |>.
Proof. counted_by n r. Qed.
Lemma counted_groups n r : Nat.iter n (fun r => r <| rr_groups_restored ::= bump |>) r =
  r <| rr_groups_restored ::= Nat.iter n bump |>.
Proof. counted_by n r. Qed.

(** The report of a complete recovery. *)
Definition recovery_report (l : FindingLedger) : LedgerRecoveryReport :=
  mkRecoveryReport (lg_revision l) (wrap64 (vsize (Findings l))) (wrap64 (vsize (lg_groups l)))
    (wrap64 (vsize (lg_baselines l))) (wrap64 (vsize (stored_observations l))) true
    RC_LedgerRecoveredConservatively.

(** What a ledger that was saved comes back as. *)
Record recovered_from (l l' : FindingLedger) : Prop := {
  rf_limits : lg_limits l' = lg_limits l;
  rf_revision : lg_revision l' = lg_revision l;
  rf_baselines : lg_baselines l' = lg_baselines l;
  rf_groups : lg_groups l' = lg_groups l;
  rf_timeline : lg_global_timeline l' = lg_global_timeline l;
  rf_windows : forall key, window l' key = map recovered_observation (window l key);
  rf_findings : (lg_findings l', lg_timeline_sequence l') =
    recovered_findings (lg_limits l) (Findings l) (lg_timeline_sequence l);
  rf_suppressions : lg_suppressions_active l' = suppressions_of (Findings l) 0
}.

Lemma stored_observations_in l r : r ∈ stored_observations l -> r ∈ flat_map snd (lg_windows l).
Proof.
  unfold stored_observations, ObservationsFor. rewrite !list_elem_of_In, !in_flat_map.
  intros (t & _ & (e & He & Hr)%in_flat_map). exists e. split; [done|]. by destruct (eqb _ _).
Qed.

Lemma DecodePayload_document l : ledger_kept l ->
  exists l', DecodePayload (lg_limits l) (ledger_document l) = (Status_Ok, (l', recovery_report l)) /\
    recovered_from l l'.
Proof.
  intros []. pose proof lk_ok0 as Hok. unfold DecodePayload, ledger_document. cbn [as_map].
  rewrite CheckMembers_make_map by reflexivity. unfold checked. change (status_ok Status_Ok) with true. cbv iota.
  rewrite (required_uint_ok _ "format_version" _ kLedgerFormatVersion) by (found || by split). cbn [dbind].
  change (negb (kLedgerFormatVersion =? kLedgerFormatVersion)) with false. cbv iota.
  rewrite (required_uint_ok _ "revision" _ (lg_revision l)) by (found || done).
  unfold OptionalUint, Optional. rewrite FindMember_make_map.
  match goal with |- context [mfind "timeline_sequence" ?m] =>
    change (mfind "timeline_sequence" m) with (Some (MakeUint (lg_timeline_sequence l))) end.
  cbv beta iota. rewrite as_unsigned_MakeUint by apply lk_sequence0. unfold restore_sections.
  assert (Hb : stored_baselines l = mvals (lg_baselines l)).
  { apply lookup_all; [apply Hok|apply Targets_sorted|apply Targets_baselines]. }
  rewrite Hb.
  erewrite (restore_section_ok "baselines"); [|reflexivity|reflexivity].
  rewrite restore_baselines by done. rewrite recover_then_ok.
  erewrite (restore_section_ok "observations"); [|reflexivity|reflexivity].
  match goal with |- context [restore_each (DecodeRetained ?p) _ _ _ (?s, ?r)] =>
    destruct (restore_observations p l s r) as (windows & E & Hw); [done|done|done| |rewrite E; clear E] end.
  { apply Forall_forall. intros r Hr%stored_observations_in. rewrite Forall_forall in lk_observations0.
    by destruct (lk_observations0 r Hr) as (? & ? & _). }
  rewrite recover_then_ok.
  erewrite (restore_section_ok "findings");
    [|reflexivity|apply at_most_ok; unfold Findings, mvals; rewrite vsize_map; apply Hok].
  rewrite restore_findings by done. rewrite recover_then_ok.
  erewrite (restore_section_ok "groups"); [|reflexivity|reflexivity].
  match goal with |- context [with_recovered ?s ?fs] =>
    destruct (recovered_findings (lg_limits s) fs (lg_timeline_sequence s)) as [m last] eqn:Er;
    assert (Ef : with_recovered s fs = s <| lg_timeline_sequence := last |>
      <| lg_suppressions_active := suppressions_of fs (lg_suppressions_active s) |> <| lg_findings := m |>)
      by (unfold with_recovered; by rewrite Er);
    rewrite Ef; clear Ef end.
  rewrite restore_groups by done. rewrite recover_then_ok.
  erewrite (restore_section_ok "timeline"); [|reflexivity|by apply at_most_ok].
  rewrite restore_timeline by done. rewrite recover_then_ok.
  rewrite counted_baselines, counted_observations, counted_findings, counted_groups.
  eexists. split.
  - unfold recovery_report, vsize. rewrite <- !iter_bump. reflexivity.
  - by constructor.
Qed.

(** ** Facts: the header *)

(** The bytes of a ledger file, the flags included. *)
Definition ledger_file (flags write_epoch write_incarnation : Z) (payload : list Z) : list Z :=
  ((kLedgerMagic ++ le_bytes 2 kLedgerFormatVersion ++ le_bytes 2 flags ++ le_bytes 8 (vsize payload)) ++
   LedgerPayloadDigest payload ++ le_bytes 8 write_epoch ++ le_bytes 8 write_incarnation ++ payload)%list.

Lemma EncodeLedger_file l write_epoch write_incarnation :
  EncodeLedger l write_epoch write_incarnation =
  ledger_file 0 write_epoch write_incarnation (string_bytes (WriteCanonicalJson (ledger_document l))).
Proof. unfold EncodeLedger, ledger_file, ledger_header. by rewrite <- !app_assoc. Qed.

Section File.
Context (flags write_epoch write_incarnation : Z) (payload : list Z).
Context (Hflags : is_u16 flags) (Hepoch : is_u64 write_epoch) (Hinc : is_u64 write_incarnation).
Context (Hpayload : Forall is_byte payload) (Hsize : vsize payload <= UINT64_MAX - 68).
Notation file := (ledger_file flags write_epoch write_incarnation payload).

Lemma file_length : vsize file = kLedgerHeaderBytes + vsize payload.
Proof.
  unfold ledger_file. rewrite !vsize_app. pose proof (HashBytes_digest payload) as [Hd _].
  unfold LedgerPayloadDigest, vsize in *. rewrite Hd, !le_bytes_length. unfold kLedgerHeaderBytes.
  change (length kLedgerMagic) with 8%nat. lia.
Qed.

Lemma file_tail : skipn 20 file =
  (LedgerPayloadDigest payload ++ le_bytes 8 write_epoch ++ le_bytes 8 write_incarnation ++ payload)%list.
Proof. reflexivity. Qed.

Lemma file_after_digest : skipn 52 file = (le_bytes 8 write_epoch ++ le_bytes 8 write_incarnation ++ payload)%list.
Proof.
  change 52%nat with (20 + 32)%nat. rewrite <- drop_drop, file_tail. apply drop_app_length'.
  symmetry. apply (HashBytes_digest payload).
Qed.

Lemma file_range : Forall is_byte file.
Proof.
  unfold ledger_file. repeat (apply Forall_app; split; try apply le_bytes_range); try done.
  - by repeat constructor.
  - apply (HashBytes_digest payload).
Qed.

Lemma u64_width v : is_u64 v -> 0 <= v < 2 ^ (8 * Z.of_nat 8).
Proof. unfold is_u64, UINT64_MAX. change (2 ^ (8 * Z.of_nat 8)) with 18446744073709551616. lia. Qed.

Lemma file_fields :
  firstn 8 file = kLedgerMagic /\ ReadU16 (skipn 8 file) = kLedgerFormatVersion /\
  ReadU64 (skipn 12 file) = vsize payload /\ firstn 32 (skipn 20 file) = LedgerPayloadDigest payload /\
  ReadU64 (skipn 52 file) = write_epoch /\ skipn 68 file = payload.
Proof.
  assert (Hr : forall k, Forall is_byte (skipn k file)) by (intros; apply Forall_drop, file_range).
  split; [done|]. split; [reflexivity|]. split.
  { apply (read_le_le_bytes 8 (vsize payload) (skipn 20 file)); [apply Hr|].
    apply u64_width. unfold is_u64, vsize in *. lia. }
  split. { rewrite file_tail. apply take_app_length'. symmetry. apply (HashBytes_digest payload). }
  split.
  { rewrite file_after_digest. apply (read_le_le_bytes 8 write_epoch); [|by apply u64_width].
    apply Forall_app. split; [apply le_bytes_range|done]. }
  change 68%nat with (52 + 16)%nat. rewrite <- drop_drop, file_after_digest. reflexivity.
Qed.

Lemma CheckLedgerHeader_file limits live_epoch :
  kLedgerHeaderBytes + vsize payload <= max_ledger_bytes limits ->
  vsize payload <= max_record_payload_bytes limits ->
  (live_epoch <> 0 -> write_epoch <= live_epoch) ->
  CheckLedgerHeader file limits live_epoch = inr payload.
Proof.
  intros Hb Hp Hl. unfold CheckLedgerHeader. rewrite file_length.
  destruct file_fields as (H1 & H2 & H3 & H4 & H5 & H6). rewrite H1, H2, H3, H4, H5, H6, !eqb_refl.
  assert (0 <= vsize payload) by (unfold vsize; lia).
  rewrite (proj2 (Z.ltb_ge _ _)) by done. rewrite (proj2 (Z.ltb_ge _ kLedgerHeaderBytes)) by (unfold kLedgerHeaderBytes; lia).
  cbn [negb]. change (kLedgerFormatVersion =? kLedgerFormatVersion) with true. cbn [negb].
  rewrite (proj2 (Z.ltb_ge (max_record_payload_bytes limits) _)) by done.
  assert (wrap64 (kLedgerHeaderBytes + vsize payload) = kLedgerHeaderBytes + vsize payload) as ->
    by (apply Z.mod_small; unfold kLedgerHeaderBytes, UINT64_MAX in *; lia).
  rewrite Z.ltb_irrefl.
  assert (firstn (Z.to_nat (vsize payload)) payload = payload) as -> by (apply take_ge; unfold vsize; lia).
  rewrite eqb_refl. cbn [negb]. unfold uint_is_set. destruct (Z.eqb_spec live_epoch 0) as [|Hne]; [done|].
  by rewrite (proj2 (Z.ltb_ge _ _)) by auto.
Qed.
End File.

(** An accepted file has the layout of its payload. *)
Lemma CheckLedgerHeader_ok bytes limits live_epoch payload : Forall is_byte bytes ->
  max_record_payload_bytes limits <= UINT64_MAX - 68 ->
  CheckLedgerHeader bytes limits live_epoch = inr payload ->
  exists flags write_epoch write_incarnation,
    is_u16 flags /\ is_u64 write_epoch /\ is_u64 write_incarnation /\
    bytes = ledger_file flags write_epoch write_incarnation payload /\
    vsize bytes <= max_ledger_bytes limits /\ vsize payload <= max_record_payload_bytes limits /\
    (live_epoch <> 0 -> write_epoch <= live_epoch).
Proof.
  intros Hb Hm E. unfold CheckLedgerHeader in E.
  destruct (Z.ltb_spec (max_ledger_bytes limits) (vsize bytes)) as [|Hmax]; [done|].
  destruct (Z.ltb_spec (vsize bytes) kLedgerHeaderBytes) as [|Hlen]; [done|].
  destruct (eqb (firstn 8 bytes) kLedgerMagic) eqn:Emagic; [|done]. apply eqb_eq in Emagic. cbn [negb] in E.
  destruct (Z.eqb_spec (ReadU16 (skipn 8 bytes)) kLedgerFormatVersion) as [Ev|]; [|done]. cbn [negb] in E.
  assert (Hr : forall k n, 0 <= read_le n (skipn k bytes) < 2 ^ (8 * Z.of_nat n))
    by (intros; by apply read_le_range, Forall_drop).
  assert (Hu64 : forall k, is_u64 (ReadU64 (skipn k bytes))).
  { intros k. pose proof (Hr k 8%nat) as H8. change (2 ^ (8 * Z.of_nat 8)) with 18446744073709551616 in H8.
    unfold is_u64, UINT64_MAX, ReadU64. lia. }
  set (n := ReadU64 (skipn 12 bytes)) in *.
  destruct (Z.ltb_spec (max_record_payload_bytes limits) n) as [|Hn]; [done|].
  assert (Hw : wrap64 (kLedgerHeaderBytes + n) = kLedgerHeaderBytes + n).
  { apply Z.mod_small. pose proof (Hu64 12%nat) as [H0 _]. fold n in H0. unfold kLedgerHeaderBytes, UINT64_MAX in *. lia. }
  rewrite Hw in E. destruct (Z.ltb_spec (vsize bytes) (kLedgerHeaderBytes + n)); [done|].
  destruct (Z.ltb_spec (kLedgerHeaderBytes + n) (vsize bytes)); [done|].
  assert (Hsize : vsize bytes = 68 + n) by (unfold kLedgerHeaderBytes in *; lia).
  assert (Hp : firstn (Z.to_nat n) (skipn 68 bytes) = skipn 68 bytes).
  { apply take_ge. rewrite length_drop. unfold vsize in Hsize. lia. }
  rewrite Hp in E. destruct (eqb (LedgerPayloadDigest (skipn 68 bytes)) (firstn 32 (skipn 20 bytes))) eqn:Ed; [|done].
  apply eqb_eq in Ed. cbn [negb] in E.
  destruct (uint_is_set live_epoch && (live_epoch <? ReadU64 (skipn 52 bytes))) eqn:Eep; [done|].
  injection E as <-.
  exists (ReadU16 (skipn 10 bytes)), (ReadU64 (skipn 52 bytes)), (ReadU64 (skipn 60 bytes)).
  split; [apply Hr|]. split; [apply Hu64|]. split; [apply Hu64|]. split.
  - assert (Hpn : vsize (skipn 68 bytes) = n) by (unfold vsize in *; rewrite length_drop; lia).
    unfold ledger_file. rewrite Ed, Hpn, <- Emagic, <- Ev. unfold n, ReadU16, ReadU64.
    unfold vsize, kLedgerHeaderBytes in Hlen.
    rewrite !le_bytes_read_le by ((by apply Forall_drop) || (rewrite length_drop; lia)).
    clear - Hlen. do 68 (destruct bytes as [|? bytes]; [cbn in Hlen; lia|]). reflexivity.
  - split; [done|]. split; [unfold vsize in *; rewrite length_drop; lia|].
    intros Hne. unfold uint_is_set in Eep. rewrite (proj2 (Z.eqb_neq _ _) Hne) in Eep. cbn [negb andb] in Eep. lia.
Qed.

(** ** Facts: writing the document *)

Lemma EncodeRetained_writable limits r : snapshot_shape limits (ro_snapshot r) ->
  status_ok (Snapshot_Validate limits (ro_snapshot r)) = true -> is_i64 (snap_ttl_nanos (ro_snapshot r)) ->
  Forall (fun e => Forall (fun f => field_writable (fst f) (snd f)) (ob_fields (snd e)))
    (snap_objects (ro_snapshot r)) -> writable (EncodeRetained r).
Proof.
  intros Hs Hv Ht Hw. unfold EncodeRetained. writable_members. by apply (EncodeObservation_writable limits).
Qed.

Lemma ledger_document_writable l : ledger_kept l -> writable (ledger_document l).
Proof.
  intros []. unfold ledger_document. writable_members; try (by split).
  - apply (writable_records _ (baseline_kept (LedgerPayloadLimits (lg_limits l)))); [apply EncodeBaseline_writable|].
    assert (stored_baselines l = mvals (lg_baselines l)) as ->; [|done].
    apply lookup_all; [apply lk_ok0|apply Targets_sorted|apply Targets_baselines].
  - apply writable_list_of, Forall_map, Forall_forall. intros r Hr%stored_observations_in.
    rewrite Forall_forall in lk_observations0. destruct (lk_observations0 r Hr) as (? & ? & ? & ?).
    by eapply EncodeRetained_writable.
  - eapply writable_records; [|exact lk_findings0]. intros f [Hf _]. by eapply EncodeFinding_writable.
  - eapply writable_records; [|exact lk_groups0]. apply EncodeGroup_writable.
  - eapply writable_records; [|exact lk_timeline0]. apply EncodeTimelineEntry_writable.
Qed.
