(* ===== verification/Recovery.v ===== *)
(** * What may be loaded

    Whatever bytes a ledger file holds, a decoding that is accepted leaves a
    [conservative_ledger]: it satisfies the invariant of the ledger, is within its
    limits and supports no conclusion.  The engine installs such a ledger in
    [Load] and [DecodeState]. *)

From Stdlib Require Import ZArith Lia List Bool Sorting.Sorted Ascii String.
From stdpp Require Import base tactics list strings sets.
From S2P Require Import Prelude Containers Text Status Time Hash Identity Double Value Drift Intent.
From S2P Require Import Observation Freshness Policy Comparison Finding Ledger LedgerApply LedgerFacts.
From S2P Require Import LedgerProps.
From S2P Require Import Json JsonGrammar JsonTokens JsonCodec JsonHelp Wire Interchange Query Engine EngineFacts.
From S2P Require Import Durable Persistence PersistFacts.
#[local] Open Scope string_scope.
#[local] Open Scope Z_scope.
#[local] Arguments String.append : simpl nomatch.

(** ** What may be loaded *)

Definition observation_recovered (r : RetainedObservation) : Prop :=
  ro_recovered r = true /\ ro_freshness r = recovered_verdict.

(** A snapshot under the identity its content computes to. *)
Definition snapshot_certified (s : ObservationSnapshot) : Prop := snap_id s = ComputeSnapshotId s.

(** A ledger as a decoding may leave it: within its limits; findings under the
    identity computed from their content, observations in the window of their
    target and source with the identity computed from their content, baselines and
    groups under the target and the identity they state; no observation and no
    finding on current evidence. *)
Record conservative_ledger (limits : RuntimeLimits) (l : FindingLedger) : Prop := {
  co_limits : lg_limits l = limits;
  co_baselines_sorted : msorted (lg_baselines l);
  co_baselines : mall (fun target b => base_target b = target) (lg_baselines l);
  co_baselines_size : vsize (lg_baselines l) <= max_targets limits;
  co_windows_sorted : msorted (lg_windows l);
  co_windows : mall (fun key w => vsize w <= max_retained_snapshots_per_source limits /\
    Forall (fun r => observation_key r = key /\ observation_recovered r /\ snapshot_certified (ro_snapshot r)) w)
    (lg_windows l);
  co_findings_sorted : msorted (lg_findings l);
  co_findings : mall (fun id f => finding_keyed id f /\ Digest_is_set id = true /\
    fd_evidence_freshness f = FS_RecoveredNotFresh /\
    vsize (fd_timeline f) <= max_timeline_entries_per_finding limits) (lg_findings l);
  co_findings_size : vsize (lg_findings l) <= max_findings limits;
  co_groups_sorted : msorted (lg_groups l);
  co_groups : mall (fun id g => gr_id g = id) (lg_groups l);
  co_groups_size : vsize (lg_groups l) <= max_groups limits;
  co_timeline_size : vsize (lg_global_timeline l) <= max_global_timeline_entries limits;
  co_streaks : lg_resolution_streak l = []
}.

(** ** Facts: what a restore keeps *)

Section Keeps.
Context (P : FindingLedger -> Prop).

Definition recovery_keeps (step : Recovery -> Status * Recovery) : Prop :=
  forall s, P (fst s) -> P (fst (snd (step s))).

Lemma restore_each_keeps {A} (Q : A -> Prop) (decode : Value -> Decoded A) restore counted entries :
  (forall v x, decode v = inr x -> Q x) -> (forall x l, Q x -> P l -> P (snd (restore x l))) ->
  recovery_keeps (restore_each decode restore counted entries).
Proof.
  intros Hd Hr. induction entries as [|v entries IH]; intros s Hs; [done|]. cbn [restore_each].
  destruct (decode v) as [|x] eqn:E; [done|]. apply Hd in E. specialize (Hr x (fst s) E Hs).
  destruct (restore x (fst s)) as [status l]. destruct (negb _); [done|]. by apply IH.
Qed.

Lemma restore_section_keeps {A} (Q : A -> Prop) name bound (decode : Value -> Decoded A) restore counted m :
  (forall v x, decode v = inr x -> Q x) -> (forall x l, Q x -> P l -> P (snd (restore x l))) ->
  recovery_keeps (restore_section name bound decode restore counted m).
Proof.
  intros Hd Hr s Hs. unfold restore_section. destruct (FindMember m name) as [v|]; [|done].
  destruct (as_list v); [|done]. destruct (negb _); [done|]. by apply (restore_each_keeps Q).
Qed.

Lemma recover_then_keeps r k : recovery_keeps k -> P (fst (snd r)) -> P (fst (snd (recover_then r k))).
Proof. intros Hk Hr. unfold recover_then. destruct (status_ok _); [by apply Hk|done]. Qed.
End Keeps.

Lemma DecodeFinding_keyed v limits f : DecodeFinding v limits = inr f -> ComputeId (fd_identity f) = fd_id f.
Proof.
  intros H. unfold DecodeFinding in H. decoded H. destruct x0 as [[[id target] object] path]. decoded H.
  injection H as <-. cbn. unfold identity_agrees in Hs0. destruct (eqb _ _) eqn:E; [|done]. by apply eqb_eq in E.
Qed.

Lemma DecodeRetained_certified limits v r : DecodeRetained limits v = inr r -> snapshot_certified (ro_snapshot r).
Proof.
  unfold DecodeRetained. destruct (as_map v) as [m|]; [|done]. intros H. decoded H. injection H as <-.
  cbn [ro_snapshot]. match goal with Hd : DecodeObservationDocument _ _ = inr _ |- _ => rename Hd into H end.
  unfold DecodeObservationDocument in H. cbv zeta in H. decoded H. by injection H as <-.
Qed.

Section Conservative.
Context (limits : RuntimeLimits).
Context (Hretained : 1 <= max_retained_snapshots_per_source limits)
        (Hentries : 0 <= max_timeline_entries_per_finding limits)
        (Htimeline : 0 <= max_global_timeline_entries limits).
Notation conservative := (conservative_ledger limits).

Lemma RestoreBaseline_keeps b l : conservative l -> conservative (snd (RestoreBaseline b l)).
Proof.
  intros []. unfold RestoreBaseline. destruct (_ && _) eqn:E; [by constructor|].
  rewrite co_limits0 in E. constructor; cbn; eauto using minsert_sorted, mall_insert, insert_within.
Qed.

Lemma RestoreGroup_keeps g l : conservative l -> conservative (snd (RestoreGroup g l)).
Proof.
  intros []. unfold RestoreGroup. destruct (_ && _) eqn:E; [by constructor|].
  rewrite co_limits0 in E. constructor; cbn; eauto using minsert_sorted, mall_insert, insert_within.
Qed.

Lemma RestoreTimeline_keeps e l : conservative l -> conservative (snd (RestoreTimeline e l)).
Proof. intros []. constructor; cbn; try done. rewrite co_limits0. by apply keep_last_length. Qed.

Lemma RestoreObservation_keeps r l : snapshot_certified (ro_snapshot r) -> conservative l ->
  conservative (snd (RestoreObservation r l)).
Proof.
  intros Hr []. constructor; cbn; eauto using minsert_sorted. apply mall_insert; [|done]. rewrite co_limits0.
  set (key := (snap_target (ro_snapshot r), snap_source (ro_snapshot r))).
  assert (Hw : vsize (mget [] key (lg_windows l)) <= max_retained_snapshots_per_source limits /\
    Forall (fun r => observation_key r = key /\ observation_recovered r /\ snapshot_certified (ro_snapshot r))
      (mget [] key (lg_windows l))).
  { unfold mget. destruct (mfind key (lg_windows l)) as [w|] eqn:E; [by apply co_windows0 in E|].
    split; [unfold vsize; cbn; lia|constructor]. }
  destruct Hw as [Hn Hf]. split; [by apply restored_window_size|].
  apply Forall_app. split; [|by repeat constructor]. destruct (_ <=? _); [by apply Forall_tl|done].
Qed.

Lemma RestoreFinding_keeps f l : ComputeId (fd_identity f) = fd_id f -> conservative l ->
  conservative (snd (RestoreFinding f l)).
Proof.
  intros Hf []. unfold RestoreFinding. destruct (_ && _) eqn:E; [by constructor|].
  rewrite co_limits0 in E. destruct (Digest_is_set (fd_id f)) eqn:Ed; [|by constructor]. cbn [negb].
  case_scrutinee; case_scrutinee; constructor; cbn; eauto using minsert_sorted, insert_within.
  all: apply mall_insert; [|done]; rewrite co_limits0; split_and!; try done; by apply keep_last_length.
Qed.

Lemma DecodePayload_conservative root : 0 <= max_targets limits -> 0 <= max_findings limits ->
  0 <= max_groups limits -> conservative (fst (snd (DecodePayload limits root))).
Proof.
  intros Ht Hf Hg. assert (He : conservative (empty_ledger limits)) by (constructor; by repeat constructor).
  unfold DecodePayload. destruct (as_map root) as [m|]; [|done].
  destruct (checked _ _) as [|revision]; [done|].
  match goal with |- context [restore_sections limits m (?l, _)] => assert (Hl : conservative l);
    [destruct (OptionalUint _ _); constructor; by destruct He|revert Hl; generalize l] end.
  intros l Hl. apply (recover_then_keeps conservative); [by intros s Hs|].
  unfold restore_sections.
  repeat apply (recover_then_keeps conservative).
  - apply (restore_section_keeps conservative (fun _ => True)); [done|]. intros. by apply RestoreTimeline_keeps.
  - apply (restore_section_keeps conservative (fun _ => True)); [done|]. intros. by apply RestoreGroup_keeps.
  - apply (restore_section_keeps conservative (fun f => ComputeId (fd_identity f) = fd_id f)).
    + intros v x. apply DecodeFinding_keyed.
    + intros. by apply RestoreFinding_keeps.
  - apply (restore_section_keeps conservative (fun r => snapshot_certified (ro_snapshot r))).
    + intros v x. apply DecodeRetained_certified.
    + intros. by apply RestoreObservation_keeps.
  - apply (restore_section_keeps conservative (fun _ => True)); [done| |done]. intros. by apply RestoreBaseline_keeps.
Qed.

(** The report of a decoding, whatever came of it, is a conservative one. *)
Definition report_conservative (r : LedgerRecoveryReport) : Prop :=
  rr_conservative r = true /\ rr_reason r = RC_LedgerRecoveredConservatively.
End Conservative.


(** ** Facts: what a decoding hands out *)

Lemma CheckLedgerHeader_refused bytes limits live_epoch status :
  CheckLedgerHeader bytes limits live_epoch = inl status -> status_ok status = false.
Proof. unfold CheckLedgerHeader. intros H. repeat case_scrutinee; by simplify_eq. Qed.

Lemma DecodePayload_report limits root : let '(status, (_, report)) := DecodePayload limits root in
  status_ok status = true ->
  rr_conservative report = true /\ rr_reason report = RC_LedgerRecoveredConservatively.
Proof.
  destruct (DecodePayload limits root) as [status [l report]] eqn:E. intros Hs. unfold DecodePayload in E.
  destruct (as_map root) as [m|]; [|by injection E as <- <- <-].
  destruct (checked _ _) as [refusal|revision] eqn:Eh.
  - injection E as <- <- <-. done.
  - unfold recover_then in E. destruct (restore_sections _ _ _) as [s [l' r]]. cbn [fst snd] in E.
    destruct (status_ok s) eqn:Es; [|congruence]. by injection E as <- <- <-.
Qed.


(** Limits under which a decoding can stay within them. *)
Definition recovery_limits (limits : RuntimeLimits) : Prop :=
  limits_ok limits /\ 1 <= max_retained_snapshots_per_source limits /\
  0 <= max_timeline_entries_per_finding limits /\ 0 <= max_global_timeline_entries limits.

Lemma DecodeLedger_conservative bytes limits live_epoch out : recovery_limits limits ->
  let '(status, l, _) := DecodeLedger bytes limits live_epoch out in
  if status_ok status then conservative_ledger limits l else l = out.
Proof.
  intros ((H1 & _ & H2 & H3) & Hr & He & Ht). unfold DecodeLedger. destruct bytes as [b|]; [|done].
  destruct (CheckLedgerHeader b limits live_epoch) as [status|payload] eqn:Eh.
  { by rewrite (CheckLedgerHeader_refused _ _ _ _ Eh). }
  destruct (ParseJson _ _ _) as [status root]. destruct (status_ok status) eqn:Es; [|done]. cbn [negb].
  pose proof (DecodePayload_conservative limits Hr He Ht root H1 H2 H3) as Hc.
  destruct (DecodePayload limits root) as [s [l report]]. cbn [fst snd] in Hc. by destruct (status_ok s).
Qed.

Lemma LoadLedgerFile_conservative {F} `{FileSystem F} empty_data path limits live_epoch out report f :
  recovery_limits limits ->
  let '(status, l, _) := LoadLedgerFile empty_data path limits live_epoch out report f in
  if status_ok status then conservative_ledger limits l else l = out.
Proof.
  intros Hl. unfold LoadLedgerFile. destruct (file_size path f) as [size|]; [|done].
  destruct (_ <? size); [done|]. destruct (read_file path size f) as [bytes|]; [|done].
  destruct (negb _); [done|]. by apply DecodeLedger_conservative.
Qed.

Lemma conservative_ok limits l : conservative_ledger limits l -> ledger_ok l.
Proof.
  intros []. constructor; rewrite ?co_limits0, ?co_streaks0; try done.
  - intros key w Hw. destruct (co_windows0 key w Hw) as [_ Hf]. eapply Forall_impl; [exact Hf|]. by intros r [? _].
  - intros key w Hw. by destruct (co_windows0 key w Hw).
  - intros id f Hf. by destruct (co_findings0 id f Hf).
  - constructor.
Qed.

Lemma conservative_recovered limits l : conservative_ledger limits l -> all_recovered l.
Proof.
  intros [] target. unfold ObservationsFor. apply Forall_flat_map, Forall_forall. intros [key w] Hin. cbn [fst snd].
  destruct (eqb _ _); [|constructor]. apply list_elem_of_In, (mfind_In_sorted _ _ _ co_windows_sorted0) in Hin.
  destruct (co_windows0 key w Hin) as [_ Hf]. eapply Forall_impl; [exact Hf|]. by intros r (_ & [? _] & _).
Qed.
