(* ===== verification/Concurrency.v ===== *)
(** * Evaluations among other calls

    engine.hpp promises one mutex, evaluations that compare without holding it,
    and outcomes that are fenced when what they were computed for has moved.  A
    [System] is the engine with the evaluations in flight; [step] is one critical
    section or one iteration of a worker thread, so that a [run] is an arbitrary
    interleaving of any number of callers and threads, saves and loads of stored
    ledgers among them.  Calls that run under the
    mutex from end to end are a [Call]; an evaluation is the sequence begin,
    policy, advance (once per target or once per thread that sees a flag up),
    publish. *)

From Stdlib Require Import ZArith Lia List Bool Sorting.Sorted String.
From stdpp Require Import base tactics list strings gmap.
From S2P Require Import Prelude Containers Text Hash Status Time Identity Double Value Drift Intent.
From S2P Require Import Observation Freshness Policy Comparison Finding Ledger LedgerApply.
From S2P Require Import LedgerFacts ApplyFacts LedgerProps Query Engine EngineFacts.
From S2P Require Import JsonHelp Interchange Persistence Recovery.
#[local] Open Scope string_scope.
#[local] Open Scope Z_scope.

(** ** Calls *)

(** Every public operation of the runtime that changes its state under the mutex.
    [Load] and [DecodeState] decode before they take it, for the live epoch they
    read by then: the epoch is an argument, so that a rotation may come between.
    The file system is the one [Load] and [Save] find when they are called. *)
Inductive Call :=
| Call_Start
| Call_Stop
| Call_RotateIncarnation (next_incarnation next_epoch : Z) (now : NdoTime)
| Call_RequestCancellation
| Call_ClearCancellation
| Call_RegisterSource (descriptor : SourceDescriptor)
| Call_PublishIntent (document : IntentGenerationDocument) (stamp : NdoTime)
| Call_IngestObservation (snapshot : ObservationSnapshot) (receive_time : NdoTime)
| Call_SuppressFinding (finding : Digest) (actor reason : string) (expires_at : option NdoTime) (now : NdoTime)
| Call_ClearSuppression (finding : Digest) (actor : string) (now : NdoTime)
| Call_AcknowledgeFinding (finding : Digest) (actor reason : string) (now : NdoTime)
| Call_ClearAcknowledgement (finding : Digest) (actor : string) (now : NdoTime)
| Call_SetPolicy (policy : ObservatoryPolicy) (now : NdoTime)
| Call_ExpireSuppressions (now : NdoTime)
| Call_IngestObservationJson (json : string) (receive_time : NdoTime)
| Call_Save (F : Type) (fs : FileSystem F) (path : string) (files : F)
| Call_Load (F : Type) (fs : FileSystem F) (empty_data : option (list Z)) (path : string)
    (report : LedgerRecoveryReport) (files : F) (live_epoch : Z)
| Call_DecodeState (bytes : option (list Z)) (live_epoch : Z).

(** What a load has decoded, under these limits, when it takes the mutex. *)
Definition decoded_by (limits : RuntimeLimits) (c : Call)
    : option (Status * FindingLedger * LedgerRecoveryReport) :=
  match c with
  | Call_Load F fs empty_data path report files live_epoch =>
      Some (LoadLedgerFile empty_data path limits live_epoch (empty_ledger limits) report files)
  | Call_DecodeState bytes live_epoch => Some (DecodeLedger bytes limits live_epoch (empty_ledger limits))
  | _ => None
  end.

Definition exec_call (c : Call) (e : Observatory) : Observatory :=
  match c with
  | Call_Start => snd (Start e)
  | Call_Stop => Stop_begin e
  | Call_RotateIncarnation incarnation epoch now => snd (RotateIncarnation incarnation epoch now e)
  | Call_RequestCancellation => RequestCancellation e
  | Call_ClearCancellation => ClearCancellation e
  | Call_RegisterSource descriptor => snd (RegisterSource descriptor e)
  | Call_PublishIntent document stamp => snd (PublishIntent document stamp empty_commit_report e)
  | Call_IngestObservation snapshot time => snd (IngestObservation snapshot time empty_admission e)
  | Call_SuppressFinding finding actor reason expires_at now =>
      snd (SuppressFinding finding actor reason expires_at now e)
  | Call_ClearSuppression finding actor now => snd (Observatory_ClearSuppression finding actor now e)
  | Call_AcknowledgeFinding finding actor reason now => snd (AcknowledgeFinding finding actor reason now e)
  | Call_ClearAcknowledgement finding actor now => snd (Observatory_ClearAcknowledgement finding actor now e)
  | Call_SetPolicy policy now => snd (SetPolicy policy now e)
  | Call_ExpireSuppressions now => snd (Observatory_ExpireSuppressions now e)
  | Call_IngestObservationJson json time => snd (IngestObservationJson json time empty_admission e)
  | Call_Save F fs path files => snd (fst (Observatory_Save path e files))
  | Call_Load _ _ _ _ _ _ _ | Call_DecodeState _ _ =>
      match decoded_by (cfg_limits (eng_config e)) c with
      | Some decoded => snd (install_recovered decoded e)
      | None => e
      end
  end.

(** The status a call returns; what returns nothing is never refused. *)
Definition call_status (c : Call) (e : Observatory) : Status :=
  match c with
  | Call_Start => fst (Start e)
  | Call_RotateIncarnation incarnation epoch now => fst (RotateIncarnation incarnation epoch now e)
  | Call_RegisterSource descriptor => fst (RegisterSource descriptor e)
  | Call_PublishIntent document stamp => fst (fst (PublishIntent document stamp empty_commit_report e))
  | Call_IngestObservation snapshot time => fst (fst (IngestObservation snapshot time empty_admission e))
  | Call_SuppressFinding finding actor reason expires_at now =>
      fst (SuppressFinding finding actor reason expires_at now e)
  | Call_ClearSuppression finding actor now => fst (Observatory_ClearSuppression finding actor now e)
  | Call_AcknowledgeFinding finding actor reason now => fst (AcknowledgeFinding finding actor reason now e)
  | Call_ClearAcknowledgement finding actor now => fst (Observatory_ClearAcknowledgement finding actor now e)
  | Call_SetPolicy policy now => fst (SetPolicy policy now e)
  | Call_IngestObservationJson json time => fst (fst (IngestObservationJson json time empty_admission e))
  | Call_Save F fs path files => fst (fst (Observatory_Save path e files))
  | Call_Load _ _ _ _ _ _ _ | Call_DecodeState _ _ =>
      match decoded_by (cfg_limits (eng_config e)) c with
      | Some decoded => fst (fst (install_recovered decoded e))
      | None => Status_Ok
      end
  | Call_Stop | Call_RequestCancellation | Call_ClearCancellation | Call_ExpireSuppressions _ => Status_Ok
  end.

(** A load that nothing comes between. *)
Lemma exec_call_loads (e : Observatory) :
  (forall F (fs : FileSystem F) empty_data path report files,
     exec_call (Call_Load F fs empty_data path report files (cfg_epoch (eng_config e))) e =
       snd (Observatory_Load empty_data path report e files)) /\
  (forall bytes, exec_call (Call_DecodeState bytes (cfg_epoch (eng_config e))) e = snd (DecodeState bytes e)).
Proof. done. Qed.

(** The calls that replace the ledger. *)
Definition is_load (c : Call) : bool :=
  match c with Call_Load _ _ _ _ _ _ _ | Call_DecodeState _ _ => true | _ => false end.

(** ** Evaluations in flight *)

(** After [begin_evaluation] the input exists; after the policy was read the
    threads work on their ranges, each from its next index to its end. *)
Inductive Stage :=
| Stage_Input
| Stage_Compare (policy : ObservatoryPolicy) (threads : list (nat * nat)) (out : list TargetEvaluation).

Record Evaluation := mkEvaluation {
  ev_input : EvaluationInput;
  ev_apply : bool;
  ev_stage : Stage
}.

Definition enter_comparison (e : Observatory) (ev : Evaluation) : option Evaluation :=
  match ev_stage ev with
  | Stage_Input =>
      let n := length (ei_targets (ev_input ev)) in
      Some (mkEvaluation (ev_input ev) (ev_apply ev)
        (Stage_Compare (cfg_policy (eng_config e))
           (worker_ranges (cfg_evaluation_workers (eng_config e)) n) (repeat empty_evaluation n)))
  | _ => None
  end.

(** One iteration of thread [k]: it leaves its loop when a flag is up, and
    compares its next target otherwise. *)
Definition advance (e : Observatory) (k : nat) (ev : Evaluation) : option Evaluation :=
  match ev_stage ev with
  | Stage_Compare policy threads out =>
      match threads !! k with
      | Some (index, end_) =>
          if (end_ <=? index)%nat then None
          else if halted e
          then Some (mkEvaluation (ev_input ev) (ev_apply ev)
                 (Stage_Compare policy (<[k := (end_, end_)]> threads) out))
          else Some (mkEvaluation (ev_input ev) (ev_apply ev)
                 (Stage_Compare policy (<[k := (S index, end_)]> threads)
                    (compare_slot (ei_targets (ev_input ev)) policy (cfg_limits (eng_config e)) index out)))
      | None => None
      end
  | _ => None
  end.

(** Every thread has left its loop. *)
Definition joined (threads : list (nat * nat)) : bool :=
  forallb (fun range => (snd range <=? fst range)%nat) threads.

Record System := mkSystem {
  sys_engine : Observatory;
  sys_running : gmap nat Evaluation
}.

Inductive Event :=
| Ev_Call (c : Call)
| Ev_Refuse (now : NdoTime)
| Ev_Begin (id : nat) (now : NdoTime) (apply : bool)
| Ev_Policy (id : nat)
| Ev_Advance (id thread : nat)
| Ev_Publish (id : nat) (result : Result EvaluationOutcome).

Inductive step : System -> Event -> System -> Prop :=
| step_call c e running :
    step (mkSystem e running) (Ev_Call c) (mkSystem (exec_call c e) running)
| step_refuse now status e e' running :
    begin_evaluation now e = (inl status, e') ->
    step (mkSystem e running) (Ev_Refuse now) (mkSystem e' running)
| step_begin id now apply input e e' running :
    running !! id = None -> begin_evaluation now e = (inr input, e') ->
    step (mkSystem e running) (Ev_Begin id now apply)
      (mkSystem e' (<[id := mkEvaluation input apply Stage_Input]> running))
| step_policy id ev ev' e running :
    running !! id = Some ev -> enter_comparison e ev = Some ev' ->
    step (mkSystem e running) (Ev_Policy id) (mkSystem e (<[id := ev']> running))
| step_advance id k ev ev' e running :
    running !! id = Some ev -> advance e k ev = Some ev' ->
    step (mkSystem e running) (Ev_Advance id k) (mkSystem e (<[id := ev']> running))
| step_publish id ev policy threads out result e e' running :
    running !! id = Some ev -> ev_stage ev = Stage_Compare policy threads out ->
    joined threads = true ->
    publish_evaluation (ev_input ev) policy out (ev_apply ev) e = (result, e') ->
    step (mkSystem e running) (Ev_Publish id result) (mkSystem e' (delete id running)).

(** A run all of whose states but the first satisfy [P]. *)
Inductive run (P : System -> Prop) : System -> list Event -> System -> Prop :=
| run_nil s : run P s [] s
| run_cons s e s' es s'' : step s e s' -> P s' -> run P s' es s'' -> run P s (e :: es) s''.

Definition anywhere (s : System) : Prop := True.

Definition initial_system (config : ObservatoryConfig) : System := mkSystem (new_observatory config) ∅.

(** ** Facts: invariants of the engine *)

Record source_ok (id : string) (d : SourceDescriptor) : Prop := {
  so_id : sd_id d = id;
  so_valid : invalid_id id = false;
  so_incarnation : uint_is_set (sd_incarnation d) = true;
  so_epoch : uint_is_set (sd_epoch d) = true
}.

Record engine_ok (e : Observatory) : Prop := {
  eo_limits_ok : limits_ok (cfg_limits (eng_config e));
  eo_ledger : ledger_ok (eng_ledger e);
  eo_limits : lg_limits (eng_ledger e) = cfg_limits (eng_config e);
  eo_sources_sorted : msorted (eng_sources e);
  eo_sources : mall source_ok (eng_sources e);
  eo_sources_size : vsize (eng_sources e) <= max_sources (cfg_limits (eng_config e));
  eo_workers : cfg_evaluation_workers (eng_config e) <= max_evaluation_workers (cfg_limits (eng_config e));
  eo_epoch : 0 <= cfg_epoch (eng_config e);
  eo_started : eng_started e = true ->
    status_ok (Policy_Validate (cfg_limits (eng_config e)) (cfg_policy (eng_config e))) = true /\
    uint_is_set (cfg_epoch (eng_config e)) = true /\ uint_is_set (cfg_incarnation (eng_config e)) = true
}.

(** What never goes back. *)
Record engine_forward (e e' : Observatory) : Prop := {
  ea_limits : cfg_limits (eng_config e') = cfg_limits (eng_config e);
  ea_epoch : cfg_epoch (eng_config e) <= cfg_epoch (eng_config e');
  ea_incarnation : cfg_incarnation (eng_config e) <= cfg_incarnation (eng_config e');
  ea_sources : mkept (fun d d' => sd_incarnation d <= sd_incarnation d') (eng_sources e) (eng_sources e')
}.

(** Nor does the ledger, unless a stored one is loaded in its place. *)
Definition engine_advances (e e' : Observatory) : Prop :=
  engine_forward e e' /\ evolves (eng_ledger e) (eng_ledger e').

#[export] Instance engine_forward_preorder : PreOrder engine_forward.
Proof.
  split.
  - intros e. constructor; try reflexivity. by apply mkept_refl; intros ?.
  - intros a b c [] []. constructor; [congruence|lia|lia|].
    eapply mkept_trans; [|done|done]. intros x y z; lia.
Qed.

#[export] Instance engine_advances_preorder : PreOrder engine_advances.
Proof. split; [by intros e|]. intros a b c [] []. split; by etransitivity. Qed.

(** Ledger and windows aside, two states with the same configuration and sources. *)
Lemma engine_forward_same e e' : eng_config e' = eng_config e -> eng_sources e' = eng_sources e ->
  engine_forward e e'.
Proof. intros Ec Es. constructor; rewrite ?Ec, ?Es; try done. by apply mkept_refl; intros ?. Qed.

(** A call that leaves configuration and sources alone. *)
Lemma engine_ok_by e e' : engine_ok e ->
  eng_config e' = eng_config e -> eng_sources e' = eng_sources e ->
  (eng_started e' = true -> eng_started e = true) ->
  evolves (eng_ledger e) (eng_ledger e') /\ ledger_ok (eng_ledger e') ->
  engine_ok e' /\ engine_advances e e'.
Proof.
  intros [] Ec Es Et [Hv Hl]. split.
  - constructor; rewrite ?Ec, ?Es; auto. destruct Hv as [-> _ _ _]. done.
  - split; [by apply engine_forward_same|done].
Qed.

Lemma engine_exec e m : engine_ok e ->
  evolves (eng_ledger e) (exec (eng_ledger e) m) /\ ledger_ok (exec (eng_ledger e) m).
Proof. intros []. apply exec_step; [done|]. by rewrite eo_limits0. Qed.

Lemma Start_ok e : engine_ok e -> engine_ok (Start e).2 /\ engine_advances e (Start e).2.
Proof.
  intros H. assert (Hsame : engine_ok e /\ engine_advances e e) by done. unfold Start.
  destruct (eng_started e); [done|].
  destruct (negb (uint_is_set (cfg_epoch _)) || _) eqn:Eu; [done|].
  destruct (negb (status_ok _)) eqn:Ep; [done|]. destruct (eqb _ EC_Unknown); [done|].
  breflect. assert (El : (eng_ledger e) <| lg_limits := cfg_limits (eng_config e) |> = eng_ledger e).
  { rewrite <- (eo_limits _ H). by destruct (eng_ledger e). }
  cbn [snd]. set (e' := e <| eng_ledger ::= _ |> <| eng_started := true |> <| eng_stopping := false |> <| eng_cancelled := false |>).
  assert (Eledger : eng_ledger e' = eng_ledger e) by exact El.
  split.
  - destruct H. constructor; rewrite ?Eledger; try done.
  - split; [by apply engine_forward_same|by rewrite Eledger].
Qed.

Lemma RotateIncarnation_ok incarnation epoch now e : engine_ok e ->
  let e' := (RotateIncarnation incarnation epoch now e).2 in engine_ok e' /\ engine_advances e e'.
Proof.
  intros H. cbv zeta. unfold RotateIncarnation. destruct (negb _) eqn:Ei; [done|].
  destruct (_ <=? _) eqn:El; [done|]. destruct (_ <? _) eqn:Ee; [done|]. breflect. cbn [snd].
  destruct (engine_exec e (Mut_InvalidateRetainedEvidence RC_EvidenceRecoveredNotFresh now) H) as [Hv Hl].
  cbn [exec] in Hv, Hl. destruct H. split.
  - constructor; try assumption.
    + exact (eq_trans (ev_limits _ _ Hv) eo_limits0).
    + exact (Z.le_trans _ _ _ eo_epoch0 Ee).
    + intros Hs. destruct (eo_started0 Hs) as (Hp & Hu & _). split; [exact Hp|]. split; [|exact Ei].
      change (uint_is_set epoch = true). unfold uint_is_set in *. breflect.
      apply negb_true_iff, Z.eqb_neq. lia.
  - split; [|exact Hv]. constructor; [done|exact Ee|exact (Z.lt_le_incl _ _ El)|]. by apply mkept_refl; intros ?.
Qed.

Lemma RegisterSource_ok d e : engine_ok e ->
  let e' := (RegisterSource d e).2 in engine_ok e' /\ engine_advances e e'.
Proof.
  intros H. cbv zeta. unfold RegisterSource. destruct (invalid_id (sd_id d)) eqn:Ei; [done|].
  destruct (_ || _) eqn:Eu; [done|]. breflect.
  destruct (mfind (sd_id d) (eng_sources e)) as [d0|] eqn:Ef;
    [destruct (_ <? _) eqn:El|destruct (_ <=? _) eqn:El]; try done; breflect; cbn [snd].
  - destruct H. split.
    + constructor; cbn; auto with ndo; [by apply mall_insert|].
      rewrite vsize_minsert by done. by rewrite (proj2 (mmem_true _ _)) by eauto.
    + split; [|done]. constructor; try done. apply mkept_insert; [intros ?; lia|]. intros d1 Hd1.
      rewrite Ef in Hd1. by injection Hd1 as <-.
  - destruct H. split.
    + constructor; cbn; auto with ndo; [by apply mall_insert|].
      rewrite vsize_minsert by done. destruct (mmem _ _); lia.
    + split; [|done]. constructor; try done. apply mkept_insert; [intros ?; lia|]. intros d1 Hd1. congruence.
Qed.

(** The ledger after a call that runs one mutation of it. *)
Lemma PublishIntent_ledger doc stamp report e :
  let e' := (PublishIntent doc stamp report e).2 in
  eng_config e' = eng_config e /\ eng_sources e' = eng_sources e /\ eng_started e' = eng_started e /\
  (eng_ledger e' = eng_ledger e \/ eng_ledger e' = exec (eng_ledger e) (Mut_CommitIntent doc stamp)).
Proof.
  cbv zeta. unfold PublishIntent. destruct (not_admitting e); [by auto|].
  destruct (negb (_ =? _)); [by auto|]. cbn [exec]. fold empty_commit_report.
  destruct (CommitIntent _ _ _ _) as [[status report'] l]. cbn [snd].
  destruct (negb _); cbn [snd]; by auto.
Qed.

Lemma IngestObservation_ledger snapshot time report e :
  let e' := (IngestObservation snapshot time report e).2 in
  eng_config e' = eng_config e /\ eng_sources e' = eng_sources e /\ eng_started e' = eng_started e /\
  (eng_ledger e' = eng_ledger e \/
   exists verdict, eng_ledger e' = exec (eng_ledger e)
     (Mut_RecordObservation (snapshot <| snap_received_at := time |>) verdict false)).
Proof.
  cbv zeta. unfold IngestObservation. destruct (not_admitting e); [by auto|].
  destruct (_ && _); [by auto|]. cbv zeta. set (verdict := EvaluateFreshness _ _ _ _ _).
  assert (Hv : exists v, exec (eng_ledger e)
      (Mut_RecordObservation (snapshot <| snap_received_at := time |>) verdict false) =
    exec (eng_ledger e) (Mut_RecordObservation (snapshot <| snap_received_at := time |>) v false)) by eauto.
  cbn [exec] in *. fold empty_admission in *.
  destruct (RecordObservation _ verdict _ _ _) as [[status report'] l]. cbn [snd] in *.
  destruct Hv as [v Hv]. destruct (negb _); cbn [snd]; [by eauto 8|].
  destruct (ad_duplicate_identical report'); cbn [snd]; by eauto 8.
Qed.

Lemma SetPolicy_ok policy now e : engine_ok e ->
  let e' := (SetPolicy policy now e).2 in engine_ok e' /\ engine_advances e e'.
Proof.
  intros H. cbv zeta. unfold SetPolicy. destruct (negb _) eqn:Ep; [done|]. breflect. cbv zeta. cbn [snd].
  match goal with |- context [RecordEvent ?entry] => set (event := entry) end.
  destruct (engine_exec e (Mut_RecordEvent event) H) as [Hv Hl]. cbn [exec] in Hv, Hl.
  destruct H. split.
  - constructor; try assumption. intros Hs. by destruct (eo_started0 Hs) as (_ & ? & ?).
  - split; [|done]. constructor; try done. by apply mkept_refl; intros ?.
Qed.

Lemma IngestObservationJson_cases json time report e :
  (exists counter, (IngestObservationJson json time report e).2 = count counter e) \/
  exists snapshot, ParseObservationJson json (cfg_limits (eng_config e)) = inr snapshot /\
    IngestObservationJson json time report e = IngestObservation snapshot time report e.
Proof.
  unfold IngestObservationJson. destruct (ParseObservationJson _ _) as [status|snapshot]; [left|right]; by eexists.
Qed.

(** A load is refused and changes nothing, or installs the ledger it decoded. *)
Lemma load_cases c e : is_load c = true -> recovery_limits (cfg_limits (eng_config e)) ->
  status_ok (call_status c e) = false /\ exec_call c e = e \/
  exists status ledger report, decoded_by (cfg_limits (eng_config e)) c = Some (status, ledger, report) /\
    status_ok status = true /\ conservative_ledger (cfg_limits (eng_config e)) ledger /\
    exec_call c e = count (fun c => c <| ct_recoveries ::= bump |>) (e <| eng_ledger := ledger |>).
Proof.
  intros Hc Hl. assert (Hd : exists status ledger report,
    decoded_by (cfg_limits (eng_config e)) c = Some (status, ledger, report) /\
    if status_ok status then conservative_ledger (cfg_limits (eng_config e)) ledger
    else ledger = empty_ledger (cfg_limits (eng_config e))).
  { destruct c; try done; cbn [decoded_by].
    - pose proof (LoadLedgerFile_conservative empty_data path _ live_epoch (empty_ledger (cfg_limits (eng_config e)))
        report files Hl) as H. destruct (LoadLedgerFile _ _ _ _ _ _ _) as [[status ledger] r]. by exists status, ledger, r.
    - pose proof (DecodeLedger_conservative bytes _ live_epoch (empty_ledger (cfg_limits (eng_config e))) Hl) as H.
      destruct (DecodeLedger _ _ _ _) as [[status ledger] r]. by exists status, ledger, r. }
  destruct Hd as (status & ledger & report & Hd & H).
  assert (Hx : exec_call c e = snd (install_recovered (status, ledger, report) e) /\
    call_status c e = fst (fst (install_recovered (status, ledger, report) e)))
    by (destruct c; try done; cbn [exec_call call_status]; by rewrite Hd).
  destruct Hx as [-> ->]. unfold install_recovered. destruct (status_ok status) eqn:Es; cbn [negb fst snd]; [right|by left].
  by exists status, ledger, report.
Qed.

(** Every call but a load is one mutation of the ledger, or none. *)
Lemma exec_call_mutates c e : lg_limits (eng_ledger e) = cfg_limits (eng_config e) -> is_load c = false ->
  eng_ledger (exec_call c e) = eng_ledger e \/ exists m, eng_ledger (exec_call c e) = exec (eng_ledger e) m.
Proof.
  intros Hl Hc. destruct c; cbn [exec_call]; try done; try (by left).
  - left. unfold Start. repeat case_scrutinee; try done. cbn [snd].
    change (SetLimits (cfg_limits (eng_config e)) (eng_ledger e) = eng_ledger e). rewrite <- Hl. by destruct (eng_ledger e).
  - unfold RotateIncarnation. repeat case_scrutinee; try (by left). right.
    by exists (Mut_InvalidateRetainedEvidence RC_EvidenceRecoveredNotFresh now).
  - unfold RegisterSource. by repeat case_scrutinee; left.
  - destruct (PublishIntent_ledger document stamp empty_commit_report e) as (_ & _ & _ & [E|E]); [by left|right; eauto].
  - destruct (IngestObservation_ledger snapshot receive_time empty_admission e) as (_ & _ & _ & [E|[v E]]); [by left|right; eauto].
  - right. exists (Mut_Suppress finding actor reason expires_at now). cbn [exec]. unfold SuppressFinding.
    destruct (Suppress _ _ _ _ _ _) as [status l]. by destruct (status_ok status).
  - right. exists (Mut_ClearSuppression finding actor now). cbn [exec]. unfold Observatory_ClearSuppression.
    by destruct (ClearSuppression _ _ _ _).
  - right. exists (Mut_Acknowledge finding actor reason now). cbn [exec]. unfold AcknowledgeFinding.
    destruct (Acknowledge _ _ _ _ _) as [status l]. by destruct (status_ok status).
  - right. exists (Mut_ClearAcknowledgement finding actor now). cbn [exec]. unfold Observatory_ClearAcknowledgement.
    by destruct (ClearAcknowledgement _ _ _ _).
  - unfold SetPolicy. destruct (negb _); [by left|]. right. by eexists (Mut_RecordEvent _).
  - right. exists (Mut_ExpireSuppressions now). cbn [exec]. unfold Observatory_ExpireSuppressions.
    by destruct (ExpireSuppressions _ _).
  - destruct (IngestObservationJson_cases json receive_time empty_admission e) as [[f ->]|(s & _ & ->)]; [by left|].
    destruct (IngestObservation_ledger s receive_time empty_admission e) as (_ & _ & _ & [E|[v E]]); [by left|right; eauto].
  - left. unfold Observatory_Save. destruct (SaveLedgerFile _ _ _ _ _ _) as [status f]. by destruct (status_ok status).
Qed.

(** Every call but a load moves the engine forward. *)
Lemma exec_call_advances c e : engine_ok e -> is_load c = false ->
  engine_ok (exec_call c e) /\ engine_advances e (exec_call c e).
Proof.
  intros H Hc. assert (Hsame : evolves (eng_ledger e) (eng_ledger e) /\ ledger_ok (eng_ledger e))
    by (split; [reflexivity|by destruct H]).
  assert (Hledger : evolves (eng_ledger e) (eng_ledger (exec_call c e)) /\ ledger_ok (eng_ledger (exec_call c e))).
  { destruct (exec_call_mutates c e (eo_limits _ H) Hc) as [->|[m ->]]; [done|by apply engine_exec]. }
  destruct c; cbn [exec_call] in *; try done.
  - by apply Start_ok.
  - by apply engine_ok_by.
  - by apply RotateIncarnation_ok.
  - by apply engine_ok_by.
  - by apply engine_ok_by.
  - by apply RegisterSource_ok.
  - destruct (PublishIntent_ledger document stamp empty_commit_report e) as (? & ? & Hs & _).
    apply engine_ok_by; rewrite ?Hs; auto.
  - destruct (IngestObservation_ledger snapshot receive_time empty_admission e) as (? & ? & Hs & _).
    apply engine_ok_by; rewrite ?Hs; auto.
  - revert Hledger. unfold SuppressFinding. destruct (Suppress _ _ _ _ _ _) as [status l].
    destruct (status_ok status) eqn:E; cbn [snd] in *; rewrite ?E; intros; by apply engine_ok_by.
  - revert Hledger. unfold Observatory_ClearSuppression. destruct (ClearSuppression _ _ _ _) as [status l].
    intros. by apply engine_ok_by.
  - revert Hledger. unfold AcknowledgeFinding. destruct (Acknowledge _ _ _ _ _) as [status l].
    destruct (status_ok status) eqn:E; cbn [snd] in *; rewrite ?E; intros; by apply engine_ok_by.
  - revert Hledger. unfold Observatory_ClearAcknowledgement. destruct (ClearAcknowledgement _ _ _ _) as [status l].
    intros. by apply engine_ok_by.
  - by apply SetPolicy_ok.
  - revert Hledger. unfold Observatory_ExpireSuppressions. destruct (ExpireSuppressions _ _) as [n l].
    intros. by apply engine_ok_by.
  - revert Hledger. destruct (IngestObservationJson_cases json receive_time empty_admission e) as [[f ->]|(s & _ & ->)].
    + intros. by apply engine_ok_by.
    + destruct (IngestObservation_ledger s receive_time empty_admission e) as (? & ? & Hs & _). intros.
      apply engine_ok_by; rewrite ?Hs; auto.
  - revert Hledger. unfold Observatory_Save. destruct (SaveLedgerFile _ _ _ _ _ _) as [status f].
    destruct (status_ok status); intros; by apply engine_ok_by.
Qed.

(** Every call keeps the engine well formed and only moves it forward, but for
    the ledger a load replaces. *)
Lemma exec_call_ok c e : engine_ok e -> recovery_limits (cfg_limits (eng_config e)) ->
  engine_ok (exec_call c e) /\ engine_forward e (exec_call c e) /\
  (is_load c = false -> engine_advances e (exec_call c e)).
Proof.
  intros H Hl. destruct (is_load c) eqn:Hc.
  2: { destruct (exec_call_advances c e H Hc) as [Ho Ha]. by destruct Ha. }
  destruct (load_cases c e Hc Hl) as [[_ ->]|(status & l & r & _ & _ & Hcons & ->)]; [done|].
  split; [|split; [by apply engine_forward_same|done]].
  pose proof (conservative_ok _ _ Hcons) as Hok. pose proof (co_limits _ _ Hcons) as El.
  destruct H. by constructor.
Qed.

(** ** Facts: publication *)

Ltac settle_publication :=
  split_and!; try done; try assumption; try (by left); try (right; split_and!; done);
  try (intros outcome Hout; exfalso; match goal with H : forall s o, _ <> _ |- _ => by apply H in Hout end).

(** What a publication leaves alone, and what it may do to the ledger. *)
Lemma publish_evaluation_ledger input policy out apply e :
  let r := publish_evaluation input policy out apply e in
  eng_config r.2 = eng_config e /\ eng_sources r.2 = eng_sources e /\ eng_started r.2 = eng_started e /\
  eng_cancelled r.2 = eng_cancelled e /\ eng_stopping r.2 = eng_stopping e /\
  eng_active_evaluations r.2 = wrap64 (eng_active_evaluations e - 1) /\
  (eng_ledger r.2 = eng_ledger e \/
   eng_ledger r.2 = exec (eng_ledger e) (Mut_ApplyEvaluation (outcome_of input out) policy (ei_now input)) /\
   halted e = false /\ ei_epoch input = cfg_epoch (eng_config e) /\
   ei_incarnation input = cfg_incarnation (eng_config e)) /\
  (forall outcome, r.1 = Result_value outcome ->
   outcome = outcome_of input out /\ halted e = false /\ not_admitting e = false /\
   ei_epoch input = cfg_epoch (eng_config e) /\ ei_incarnation input = cfg_incarnation (eng_config e) /\
   eng_ledger r.2 = if apply then exec (eng_ledger e) (Mut_ApplyEvaluation outcome policy (ei_now input))
                    else eng_ledger e).
Proof.
  assert (Hfail : forall s o, Result_of_status s <> Result_value (T:=EvaluationOutcome) o)
    by (intros s o; unfold Result_of_status; by destruct (status_ok s)).
  cbv zeta. unfold publish_evaluation. cbv zeta.
  set (e1 := e <| eng_active_evaluations ::= _ |>).
  change (eng_cancelled e1) with (eng_cancelled e). change (eng_stopping e1) with (eng_stopping e).
  change (not_admitting e1) with (not_admitting e). change (eng_config e1) with (eng_config e).
  destruct (eng_cancelled e) eqn:Ec; [by settle_publication|].
  destruct (eng_stopping e || not_admitting e) eqn:Es; [by settle_publication|].
  destruct (negb (ei_epoch input =? _) || _) eqn:Ef; [by settle_publication|].
  apply orb_false_iff in Es as [Es En]. breflect.
  assert (Hh : halted e = false) by (unfold halted; by rewrite Ec, Es). destruct apply.
  - cbn [exec]. change (eng_ledger e1) with (eng_ledger e).
    destruct (ApplyEvaluation _ _ _ _) as [[status report] l] eqn:Ea. destruct (negb (status_ok status)); cbn [fst snd].
    + settle_publication.
    + settle_publication. intros outcome [= <-]. split_and!; try done. by rewrite Ea.
  - cbn [fst snd]. settle_publication. intros outcome [= <-]. by split_and!.
Qed.

Lemma publish_evaluation_ok input policy out apply e : engine_ok e ->
  let e' := (publish_evaluation input policy out apply e).2 in engine_ok e' /\ engine_advances e e'.
Proof.
  intros H. cbv zeta.
  destruct (publish_evaluation_ledger input policy out apply e) as (? & ? & Hs & _ & _ & _ & [E|[E _]] & _);
    apply engine_ok_by; rewrite ?Hs, ?E; auto using engine_exec.
  split; [reflexivity|by destruct H].
Qed.

(** ** Facts: invariants of the system *)

(** A slot still holds what it was built with, or the evaluation of its target. *)
Definition slot_ok (targets : list TargetComparisonInput) (policy : ObservatoryPolicy)
    (limits : RuntimeLimits) (k : nat) (t : TargetEvaluation) : Prop :=
  t = empty_evaluation \/ exists i, targets !! k = Some i /\ t = CompareTarget i policy limits.

Definition slots_ok (targets : list TargetComparisonInput) (policy : ObservatoryPolicy)
    (limits : RuntimeLimits) (out : list TargetEvaluation) : Prop :=
  length out = length targets /\ forall k t, out !! k = Some t -> slot_ok targets policy limits k t.

Definition evaluation_ok (e : Observatory) (ev : Evaluation) : Prop :=
  ei_incarnation (ev_input ev) <= cfg_incarnation (eng_config e) /\
  match ev_stage ev with
  | Stage_Input => True
  | Stage_Compare policy threads out =>
      slots_ok (ei_targets (ev_input ev)) policy (cfg_limits (eng_config e)) out
  end.

Record system_ok (s : System) : Prop := {
  sy_limits : recovery_limits (cfg_limits (eng_config (sys_engine s)));
  sy_engine : engine_ok (sys_engine s);
  sy_active : eng_active_evaluations (sys_engine s) = wrap64 (Z.of_nat (size (sys_running s)));
  sy_running : forall id ev, sys_running s !! id = Some ev -> evaluation_ok (sys_engine s) ev
}.

Lemma slots_ok_repeat targets policy limits :
  slots_ok targets policy limits (repeat empty_evaluation (length targets)).
Proof.
  split; [apply repeat_length|]. intros k t Ht. left.
  by apply list_elem_of_lookup_2, list_elem_of_In, repeat_spec in Ht.
Qed.

Lemma slots_ok_compare targets policy limits index out :
  slots_ok targets policy limits out ->
  slots_ok targets policy limits (compare_slot targets policy limits index out).
Proof.
  intros [Hl Hs]. split; [by rewrite compare_slot_length|]. intros k t. unfold compare_slot.
  destruct (targets !! index) as [i|] eqn:E; [|apply Hs].
  rewrite list_lookup_insert_Some. intros [(-> & <- & _)|[_ ?]]; [right; by exists i|by apply Hs].
Qed.

(** An evaluation in flight stays well formed when the engine moves forward. *)
Lemma evaluation_ok_advances e e' ev : engine_forward e e' -> evaluation_ok e ev -> evaluation_ok e' ev.
Proof.
  intros Ha [Hi Hs]. split; [pose proof (ea_incarnation _ _ Ha); lia|].
  by rewrite (ea_limits _ _ Ha).
Qed.

(** The case of an evaluation that takes one step of its own. *)
Lemma enter_comparison_ok e ev ev' : enter_comparison e ev = Some ev' ->
  evaluation_ok e ev -> evaluation_ok e ev' /\ ev_input ev' = ev_input ev /\ ev_apply ev' = ev_apply ev.
Proof.
  unfold enter_comparison, evaluation_ok. destruct (ev_stage ev); [|done]. intros [= <-] [Hi _].
  cbn. split; [|done]. split; [done|]. apply slots_ok_repeat.
Qed.

Lemma advance_ok e k ev ev' : advance e k ev = Some ev' ->
  evaluation_ok e ev -> evaluation_ok e ev' /\ ev_input ev' = ev_input ev /\ ev_apply ev' = ev_apply ev.
Proof.
  unfold advance, evaluation_ok. destruct (ev_stage ev) as [|policy threads out]; [done|].
  destruct (threads !! k) as [[index end_]|]; [|done]. destruct (_ <=? _)%nat; [done|].
  destruct (halted e); intros [= <-] [Hi Hs]; cbn; split; try done. split; [done|].
  by apply slots_ok_compare.
Qed.

Lemma begin_evaluation_ok now e : engine_ok e ->
  let r := begin_evaluation now e in
  engine_ok r.2 /\ engine_advances e r.2 /\
  match r.1 with
  | inl _ => eng_active_evaluations r.2 = eng_active_evaluations e
  | inr input =>
      r.2 = e <| eng_active_evaluations ::= bump |> /\ not_admitting e = false /\ eng_cancelled e = false /\
      input = (BuildEvaluationInput now e)
        <| ei_resolution_confirmations := pol_resolution_confirmations (cfg_policy (eng_config e)) |>
  end.
Proof.
  intros H. assert (Hby : forall e', eng_config e' = eng_config e -> eng_sources e' = eng_sources e ->
    eng_started e' = eng_started e -> eng_ledger e' = eng_ledger e -> engine_ok e' /\ engine_advances e e').
  { intros e' ? ? E1 E2. apply engine_ok_by; rewrite ?E1, ?E2; auto. split; [reflexivity|by destruct H]. }
  cbv zeta. unfold begin_evaluation. destruct (not_admitting e) eqn:En; [cbn; by split_and!|].
  destruct (eng_cancelled e) eqn:Ec; cbn [fst snd].
  - destruct (Hby (count_cancelled e)); done.
  - destruct (Hby (e <| eng_active_evaluations ::= bump |>)); done.
Qed.

Lemma wrap64_bump n : bump (wrap64 n) = wrap64 (n + 1).
Proof. unfold bump, wrap64. by rewrite Zplus_mod_idemp_l. Qed.

Lemma wrap64_pred n : wrap64 (wrap64 n - 1) = wrap64 (n - 1).
Proof. unfold wrap64. by rewrite Zminus_mod_idemp_l. Qed.

(** Calls that move a flag. *)
Definition moves_flags (c : Call) : bool :=
  match c with
  | Call_Start | Call_Stop | Call_RequestCancellation | Call_ClearCancellation => true
  | _ => false
  end.

Definition installs_policy (c : Call) : bool := match c with Call_SetPolicy _ _ => true | _ => false end.

(** What calls do not touch. *)
Lemma exec_call_frame c e :
  let e' := exec_call c e in
  eng_active_evaluations e' = eng_active_evaluations e /\
  cfg_limits (eng_config e') = cfg_limits (eng_config e) /\
  cfg_require_started (eng_config e') = cfg_require_started (eng_config e) /\
  (installs_policy c = false -> cfg_policy (eng_config e') = cfg_policy (eng_config e)) /\
  (moves_flags c = false ->
   eng_started e' = eng_started e /\ eng_cancelled e' = eng_cancelled e /\ eng_stopping e' = eng_stopping e).
Proof.
  cbv zeta. destruct c; cbn [exec_call]; try done.
  - unfold Start. by repeat case_scrutinee.
  - unfold RotateIncarnation. by repeat case_scrutinee.
  - unfold RegisterSource. by repeat case_scrutinee.
  - unfold PublishIntent. destruct (CommitIntent _ _ _ _) as [[status r] l]. by repeat case_match.
  - unfold IngestObservation. cbv zeta. destruct (RecordObservation _ _ _ _ _) as [[status r] l]. by repeat case_match.
  - unfold SuppressFinding. destruct (Suppress _ _ _ _ _ _) as [status l]. by destruct (status_ok status).
  - unfold Observatory_ClearSuppression. by destruct (ClearSuppression _ _ _ _).
  - unfold AcknowledgeFinding. destruct (Acknowledge _ _ _ _ _) as [status l]. by destruct (status_ok status).
  - unfold Observatory_ClearAcknowledgement. by destruct (ClearAcknowledgement _ _ _ _).
  - unfold SetPolicy. by destruct (negb _).
  - unfold Observatory_ExpireSuppressions. by destruct (ExpireSuppressions _ _).
  - destruct (IngestObservationJson_cases json receive_time empty_admission e) as [[f ->]|(s & _ & ->)]; [done|].
    unfold IngestObservation. cbv zeta. destruct (RecordObservation _ _ _ _ _) as [[status r] l]. by repeat case_match.
  - unfold Observatory_Save. destruct (SaveLedgerFile _ _ _ _ _ _) as [status f]. by destruct (status_ok status).
  - cbn [decoded_by]. destruct (LoadLedgerFile _ _ _ _ _ _ _) as [[status l] r]. unfold install_recovered. by destruct (negb _).
  - cbn [decoded_by]. destruct (DecodeLedger _ _ _ _) as [[status l] r]. unfold install_recovered. by destruct (negb _).
Qed.

Definition loads (event : Event) : bool := match event with Ev_Call c => is_load c | _ => false end.

(** Every step keeps the system well formed and the engine moves forward. *)
Lemma step_ok s event s' : step s event s' -> system_ok s ->
  system_ok s' /\ engine_forward (sys_engine s) (sys_engine s') /\
  (loads event = false -> engine_advances (sys_engine s) (sys_engine s')).
Proof.
  intros Hstep [Hlim He Ha Hr]. destruct Hstep; cbn [sys_engine sys_running loads] in *.
  - destruct (exec_call_ok c e He Hlim) as (He' & Hf & Had). split; [|done].
    constructor; cbn [sys_engine sys_running]; [by rewrite (ea_limits _ _ Hf)|done|by destruct (exec_call_frame c e) as [-> _]|].
    intros id ev Hev. by eapply evaluation_ok_advances, Hr.
  - pose proof (begin_evaluation_ok now e He) as Hb. rewrite H in Hb. cbn [fst snd] in Hb. destruct Hb as (He' & Had & Eq).
    pose proof Had as [Hf _]. split; [|done].
    constructor; cbn [sys_engine sys_running]; [by rewrite (ea_limits _ _ Hf)|done|by rewrite <- Ha|].
    intros id ev Hev. by eapply evaluation_ok_advances, Hr.
  - pose proof (begin_evaluation_ok now e He) as Hb. rewrite H0 in Hb. cbn [fst snd] in Hb.
    destruct Hb as (He' & Had & -> & _ & _ & ->). pose proof Had as [Hf _]. split; [|done].
    constructor; cbn [sys_engine sys_running]; [done|done| |].
    + change (bump (eng_active_evaluations e) = wrap64 (Z.of_nat (size (<[id:=mkEvaluation ((BuildEvaluationInput now e)
        <| ei_resolution_confirmations := pol_resolution_confirmations (cfg_policy (eng_config e)) |>) apply Stage_Input]> running)))).
      rewrite map_size_insert_None, Ha, wrap64_bump by done. f_equal. lia.
    + intros id' ev. rewrite lookup_insert_Some. intros [[_ <-]|[_ Hev]]; [by split|].
      by eapply evaluation_ok_advances, Hr.
  - destruct (enter_comparison_ok e ev ev' H0 (Hr id ev H)) as [Hev' _]. split; [|split; reflexivity].
    constructor; cbn [sys_engine sys_running]; [done|done|by rewrite map_size_insert_Some|].
    intros id' ev0. rewrite lookup_insert_Some. intros [[_ <-]|[_ Hev]]; [done|by apply (Hr id')].
  - destruct (advance_ok e k ev ev' H0 (Hr id ev H)) as [Hev' _]. split; [|split; reflexivity].
    constructor; cbn [sys_engine sys_running]; [done|done|by rewrite map_size_insert_Some|].
    intros id' ev0. rewrite lookup_insert_Some. intros [[_ <-]|[_ Hev]]; [done|by apply (Hr id')].
  - destruct (publish_evaluation_ok (ev_input ev) policy out (ev_apply ev) e He) as [He' Had].
    destruct (publish_evaluation_ledger (ev_input ev) policy out (ev_apply ev) e)
      as (_ & _ & _ & _ & _ & Hact & _). rewrite H2 in He', Had, Hact. cbn [fst snd] in *.
    pose proof Had as [Hf _]. split; [|done].
    constructor; cbn [sys_engine sys_running]; [by rewrite (ea_limits _ _ Hf)|done| |].
    + rewrite Hact, Ha, wrap64_pred, (map_size_delete_Some id running) by done. f_equal.
      assert (size running <> 0)%nat by (apply map_size_ne_0_lookup; eauto). lia.
    + intros id' ev0. rewrite lookup_delete_Some. intros [_ Hev]. by eapply evaluation_ok_advances, Hr.
Qed.

(** A step that loads nothing is one mutation of the ledger, or none. *)
Lemma step_mutates s event s' : step s event s' -> engine_ok (sys_engine s) -> loads event = false ->
  eng_ledger (sys_engine s') = eng_ledger (sys_engine s) \/
  exists m, eng_ledger (sys_engine s') = exec (eng_ledger (sys_engine s)) m.
Proof.
  intros Hstep He Hl. destruct Hstep; cbn [sys_engine loads] in *; try (by left).
  - apply exec_call_mutates; [apply He|done].
  - left. unfold begin_evaluation in H. destruct (not_admitting e); [by injection H as <- <-|].
    destruct (eng_cancelled e); [|done]. by injection H as <- <-.
  - left. unfold begin_evaluation in H0. destruct (not_admitting e); [done|].
    destruct (eng_cancelled e); [done|]. by injection H0 as <- <-.
  - destruct (publish_evaluation_ledger (ev_input ev) policy out (ev_apply ev) e) as (_ & _ & _ & _ & _ & _ & Hled & _).
    rewrite H2 in Hled. cbn [snd] in Hled. destruct Hled as [->|[-> _]]; [by left|right; eauto].
Qed.

Definition loads_nothing (events : list Event) : Prop := Forall (fun event => loads event = false) events.

Lemma run_ok P s events s' : run P s events s' -> system_ok s ->
  system_ok s' /\ engine_forward (sys_engine s) (sys_engine s') /\
  (loads_nothing events -> engine_advances (sys_engine s) (sys_engine s') /\
     (windows_ordered (eng_ledger (sys_engine s)) -> windows_ordered (eng_ledger (sys_engine s')))).
Proof.
  induction 1 as [s|s e s' es s'' Hstep _ _ IH]; intros H; [by split|].
  destruct (step_ok _ _ _ Hstep H) as (H1 & F1 & A1). destruct (IH H1) as (H2 & F2 & A2).
  split; [done|]. split; [by etransitivity|]. intros [Hl Hls]%Forall_cons. destruct (A2 Hls) as [A2' W2].
  split; [etransitivity; [by apply A1|done]|]. intros Hw. apply W2.
  destruct (step_mutates _ _ _ Hstep (sy_engine _ H) Hl) as [->|[m ->]]; [done|by apply exec_ordered].
Qed.

(** What a configuration must give: limits that are sizes and retain an
    observation, an epoch that is not negative. *)
Definition config_ok (config : ObservatoryConfig) : Prop :=
  recovery_limits (cfg_limits config) /\ 0 <= max_sources (cfg_limits config) /\
  1 <= max_evaluation_workers (cfg_limits config) /\ 0 <= cfg_epoch config.

Lemma initial_system_ok config : config_ok config -> system_ok (initial_system config).
Proof.
  intros (Hl & Hs & Hw & He). pose proof Hl as (Hl' & _). constructor; cbn [sys_engine sys_running initial_system].
  - done.
  - constructor; try done; cbn.
    + by apply empty_ledger_ok.
    + apply msorted_nil.
    + unfold clamp_workers. destruct (_ <? _) eqn:E; breflect; lia.
  - by rewrite map_size_empty.
  - intros id ev. by rewrite lookup_empty.
Qed.
