(* ===== verification/EngineProps.v ===== *)
(** * Properties of the runtime

    What holds in every interleaving of Concurrency.v: the runtime stays well
    formed, an evaluation nobody interrupts is [EvaluateLedgerOnce], [Stop]
    returns, a restart (a rotation, or a load with nothing in flight) leaves no
    evidence that supports a conclusion, refusals change nothing.  The last
    section runs concrete schedules, those included that interleaving breaks. *)

From Stdlib Require Import ZArith Lia List Bool Sorting.Sorted String.
From stdpp Require Import base tactics list strings sets gmap.
From S2P Require Import Prelude Containers Text Hash Status Time Identity Double Value Drift Intent.
From S2P Require Import Observation Freshness Policy Comparison Finding Ledger LedgerApply.
From S2P Require Import LedgerFacts ApplyFacts LedgerProps JsonHelp Query Engine EngineFacts.
From S2P Require Import Persistence Recovery Concurrency.
#[local] Open Scope string_scope.
#[local] Open Scope Z_scope.

(** C14. Whatever callers and evaluation threads do and however they interleave,
    stored ledgers loaded in the middle included, a runtime whose configured limits
    leave room for an observation and a worker stays well formed:
    the ledger satisfies its invariant under the configured limits; every
    registered source has a valid identity, an epoch and an incarnation, and their
    number is bounded; a started runtime has a valid policy and a set epoch and
    incarnation; the counter of active evaluations is the number of evaluations in
    flight; and neither epoch nor incarnation nor that of any source ever goes
    back.  Nor does the ledger in a run that loads none: a load replaces it by the
    one it decodes, which may be older.  Windows are in order in every run from the
    start that loads nothing; a loaded window has the order of the file. *)
Theorem runtime_stays_well_formed config before s after s'
    (Hconfig : config_ok config)
    (Hreach : run anywhere (initial_system config) before s)
    (Hrun : run anywhere s after s') :
  system_ok s' /\ engine_forward (sys_engine s) (sys_engine s') /\
  (loads_nothing after -> evolves (eng_ledger (sys_engine s)) (eng_ledger (sys_engine s'))) /\
  (loads_nothing before -> loads_nothing after -> windows_ordered (eng_ledger (sys_engine s'))).
Proof.
  destruct (run_ok _ _ _ _ Hreach (initial_system_ok config Hconfig)) as (H & _ & A).
  destruct (run_ok _ _ _ _ Hrun H) as (H' & F' & A'). split; [done|]. split; [done|]. split.
  - intros Hl. by destruct (A' Hl) as [[_ He] _].
  - intros Hb Hl. destruct (A Hb) as [_ Hw]. destruct (A' Hl) as [_ Hw']. apply Hw', Hw, mall_nil.
Qed.

(** ** Facts: an evaluation nobody interrupts *)

Definition flags_down (s : System) : Prop := halted (sys_engine s) = false.

Definition keeps_policy (event : Event) : Prop :=
  match event with Ev_Call (Call_SetPolicy _ _) => False | _ => True end.

Definition not_published (id : nat) (event : Event) : Prop :=
  match event with Ev_Publish id' _ => id' <> id | _ => True end.

Lemma begin_evaluation_config now e : eng_config (begin_evaluation now e).2 = eng_config e.
Proof. unfold begin_evaluation. destruct (not_admitting e); [done|]. by destruct (eng_cancelled e). Qed.

(** A step of the system leaves limits and policy alone unless it installs a
    policy. *)
Lemma step_config s event s' : step s event s' ->
  cfg_limits (eng_config (sys_engine s')) = cfg_limits (eng_config (sys_engine s)) /\
  (keeps_policy event -> cfg_policy (eng_config (sys_engine s')) = cfg_policy (eng_config (sys_engine s))).
Proof.
  destruct 1; cbn [sys_engine]; try done.
  - destruct (exec_call_frame c e) as (_ & El & _ & Ep & _). split; [done|]. intros Hk. apply Ep. by destruct c.
  - pose proof (begin_evaluation_config now e) as Hc. rewrite H in Hc. cbn [snd] in Hc. by rewrite Hc.
  - pose proof (begin_evaluation_config now e) as Hc. rewrite H0 in Hc. cbn [snd] in Hc. by rewrite Hc.
  - destruct (publish_evaluation_ledger (ev_input ev) policy out (ev_apply ev) e) as (Hc & _).
    rewrite H2 in Hc. cbn [snd] in Hc. by rewrite Hc.
Qed.

(** Each target is compared already or still ahead of some thread. *)
Definition on_course (targets : list TargetComparisonInput) (policy : ObservatoryPolicy)
    (limits : RuntimeLimits) (stage : Stage) : Prop :=
  match stage with
  | Stage_Input => True
  | Stage_Compare p threads out =>
      p = policy /\ length out = length targets /\
      forall k i, targets !! k = Some i ->
        out !! k = Some (CompareTarget i policy limits) \/
        exists j index end_, threads !! j = Some (index, end_) /\ (index <= k < end_)%nat
  end.

Lemma enter_comparison_on_course e ev ev' policy :
  cfg_policy (eng_config e) = policy -> enter_comparison e ev = Some ev' ->
  on_course (ei_targets (ev_input ev)) policy (cfg_limits (eng_config e)) (ev_stage ev').
Proof.
  intros Hp. unfold enter_comparison. destruct (ev_stage ev); [|done]. intros [= <-]. cbn [ev_stage on_course].
  split; [done|]. split; [apply repeat_length|]. intros k i Hi. right.
  destruct (worker_ranges_cover_index (cfg_evaluation_workers (eng_config e))
    (length (ei_targets (ev_input ev))) k) as ([index end_] & Hin & Hb); [by eapply lookup_lt_Some|].
  apply list_elem_of_In, list_elem_of_lookup in Hin as [j Hj]. by exists j, index, end_.
Qed.

Lemma advance_on_course e k ev ev' policy :
  halted e = false -> advance e k ev = Some ev' ->
  on_course (ei_targets (ev_input ev)) policy (cfg_limits (eng_config e)) (ev_stage ev) ->
  on_course (ei_targets (ev_input ev)) policy (cfg_limits (eng_config e)) (ev_stage ev').
Proof.
  intros Hh. unfold advance. destruct (ev_stage ev) as [|p threads out]; [done|].
  destruct (threads !! k) as [[index end_]|] eqn:Hk; [|done].
  destruct (end_ <=? index)%nat eqn:Ee; [done|]. apply Nat.leb_gt in Ee. rewrite Hh.
  intros [= <-] (-> & Hl & Hall). cbn [ev_stage on_course]. split; [done|].
  split; [by rewrite compare_slot_length|]. intros m i Hi.
  destruct (decide (m = index)) as [->|Hne].
  - left. unfold compare_slot. rewrite Hi. apply list_lookup_insert_eq. rewrite Hl. by eapply lookup_lt_Some.
  - destruct (Hall m i Hi) as [Hm|(j & a & b & Hj & Hb)].
    + left. unfold compare_slot. destruct (ei_targets (ev_input ev) !! index); [|done].
      by rewrite list_lookup_insert_ne.
    + right. destruct (decide (j = k)) as [->|Hjk].
      * exists k, (S index), end_. rewrite Hk in Hj. injection Hj as <- <-.
        rewrite list_lookup_insert_eq by (by eapply lookup_lt_Some). split; [done|]. lia.
      * exists j, a, b. by rewrite list_lookup_insert_ne.
Qed.

Lemma joined_lookup threads j index end_ :
  joined threads = true -> threads !! j = Some (index, end_) -> (end_ <= index)%nat.
Proof.
  unfold joined. rewrite forallb_forall. intros H Hj.
  apply list_elem_of_lookup_2, list_elem_of_In, H in Hj. by apply Nat.leb_le in Hj.
Qed.

(** The comparisons are complete when all threads have been joined. *)
Lemma on_course_joined targets policy limits p threads out :
  on_course targets policy limits (Stage_Compare p threads out) -> joined threads = true ->
  p = policy /\ out = map (fun i => CompareTarget i policy limits) targets.
Proof.
  intros (-> & Hl & Hall) Hj. split; [done|]. apply list_eq. intros k. rewrite lookup_map.
  destruct (targets !! k) as [i|] eqn:Hi; cbn [option_map].
  - destruct (Hall k i Hi) as [?|(j & a & b & Hja & Hb)]; [done|].
    pose proof (joined_lookup _ _ _ _ Hj Hja). lia.
  - apply lookup_ge_None in Hi. apply lookup_ge_None. lia.
Qed.

(** The evaluation [id] with this input is in flight and on course. *)
Definition tracked (id : nat) (input : EvaluationInput) (apply : bool) (policy : ObservatoryPolicy)
    (limits : RuntimeLimits) (s : System) : Prop :=
  cfg_policy (eng_config (sys_engine s)) = policy /\ cfg_limits (eng_config (sys_engine s)) = limits /\
  exists stage, sys_running s !! id = Some (mkEvaluation input apply stage) /\
    on_course (ei_targets input) policy limits stage.

Lemma step_tracked id input apply policy limits s event s' :
  step s event s' -> flags_down s' -> keeps_policy event -> not_published id event ->
  tracked id input apply policy limits s -> tracked id input apply policy limits s'.
Proof.
  intros Hstep Hq Hk Hn (Hp & Hl & stage & Hid & Hc). destruct (step_config _ _ _ Hstep) as [El Ep].
  specialize (Ep Hk). split; [congruence|]. split; [congruence|]. clear El Ep.
  destruct Hstep; cbn [sys_engine sys_running not_published] in *; try (by exists stage).
  - exists stage. split; [|done]. rewrite lookup_insert_ne; [done|congruence].
  - destruct (decide (id0 = id)) as [->|Hne]; [|exists stage; by rewrite lookup_insert_ne].
    rewrite Hid in H. injection H as <-. pose proof (enter_comparison_on_course _ _ _ _ Hp H0) as Hon.
    unfold enter_comparison in H0. cbn [ev_stage] in H0. destruct stage; [|done]. injection H0 as <-.
    eexists. rewrite lookup_insert_eq. split; [done|]. by rewrite <- Hl.
  - destruct (decide (id0 = id)) as [->|Hne]; [|exists stage; by rewrite lookup_insert_ne].
    rewrite Hid in H. injection H as <-. subst limits.
    pose proof (advance_on_course _ _ _ _ policy Hq H0 Hc) as Hon.
    exists (ev_stage ev'). rewrite lookup_insert_eq. split; [|done].
    unfold advance in H0. cbn [ev_stage ev_input ev_apply] in H0. destruct stage as [|p threads out]; [done|].
    destruct (threads !! k) as [[index end_]|]; [|done]. destruct (_ <=? _)%nat; [done|].
    destruct (halted e); by injection H0 as <-.
  - exists stage. by rewrite lookup_delete_ne.
Qed.

Lemma run_tracked id input apply policy limits s events s' :
  run flags_down s events s' -> Forall keeps_policy events -> Forall (not_published id) events ->
  tracked id input apply policy limits s -> tracked id input apply policy limits s'.
Proof.
  induction 1 as [s|s e s' es s'' Hstep Hq _ IH]; [done|].
  intros [Hk Hks]%Forall_cons [Hn Hns]%Forall_cons Ht.
  apply IH; [done..|]. by eapply step_tracked.
Qed.

(** C3. Evaluating outside the mutex changes nothing: an evaluation that is not
    cancelled or stopped and during which no policy is installed publishes, for
    every number of worker threads and every interleaving with any other calls
    and evaluations, exactly the outcome that [EvaluateLedgerOnce] computes in
    one piece from the ledger as it was when the evaluation began, with the same
    digest; and it is this outcome that is applied, to the ledger as it is at
    publication. *)
Theorem evaluation_refines_EvaluateLedgerOnce id now apply s0 s1 events s2 outcome s3 once
    (Hbegin : step s0 (Ev_Begin id now apply) s1)
    (Hrun : run flags_down s1 events s2)
    (Hpolicy : Forall keeps_policy events) (Hone : Forall (not_published id) events)
    (Hpublish : step s2 (Ev_Publish id (Result_value outcome)) s3)
    (Honce : let config := eng_config (sys_engine s0) in
       EvaluateLedgerOnce (eng_ledger (sys_engine s0)) (cfg_policy config) (cfg_limits config)
         (cfg_epoch config) (cfg_incarnation config) now = Result_value once) :
  outcome = once <| out_sequence := wrap64 (eng_evaluation_sequence (sys_engine s0) + 1) |> /\
  Outcome_ComputeDigest outcome = Outcome_ComputeDigest once /\
  eng_ledger (sys_engine s3) =
    if apply
    then (ApplyEvaluation outcome (cfg_policy (eng_config (sys_engine s0))) now (eng_ledger (sys_engine s2))).2
    else eng_ledger (sys_engine s2).
Proof.
  inversion Hbegin as [| |? ? ? input e e' running Hfree Hb| | |]; subst. cbn [sys_engine] in *.
  unfold begin_evaluation in Hb. destruct (not_admitting e); [done|]. destruct (eng_cancelled e); [done|].
  injection Hb as <- <-. set (input := (BuildEvaluationInput now e) <| _ := _ |>) in *.
  apply BuildEvaluationInput_once in Honce. fold input in Honce.
  set (policy := cfg_policy (eng_config e)) in *. set (limits := cfg_limits (eng_config e)) in *.
  assert (Ht : tracked id input apply policy limits s2).
  { apply (run_tracked _ _ _ _ _ _ _ _ Hrun Hpolicy Hone). split; [done|]. split; [done|].
    exists Stage_Input. cbn [sys_running]. by rewrite lookup_insert_eq. }
  destruct Ht as (_ & _ & stage & Hid & Hc).
  inversion Hpublish as [| | | | |? ev p threads out ? e2 e3 running2 Hid2 Hs Hj Hp]; subst.
  cbn [sys_running sys_engine] in *. rewrite Hid in Hid2. injection Hid2 as <-.
  cbn [ev_stage ev_input ev_apply] in *. subst stage.
  destruct (on_course_joined _ _ _ _ _ _ Hc Hj) as [-> ->].
  destruct (publish_evaluation_ledger input policy
    (map (fun i => CompareTarget i policy limits) (ei_targets input)) apply e2)
    as (_ & _ & _ & _ & _ & _ & _ & Hout). rewrite Hp in Hout. cbn [fst snd] in Hout.
  destruct (Hout outcome eq_refl) as (-> & _ & _ & _ & _ & Hledger).
  change (map (fun i => CompareTarget i policy limits) (ei_targets input)) with
    (compare_all (BuildEvaluationInput now e) policy limits) in *.
  split; [exact Honce|]. split; [by rewrite Honce|]. rewrite Hledger. by destruct apply.
Qed.

(** ** Facts: stopping *)

(** A step of an evaluation in flight. *)
Definition of_evaluation (event : Event) : bool :=
  match event with Ev_Policy _ | Ev_Advance _ _ | Ev_Publish _ _ => true | _ => false end.

Definition keeps_stopped (event : Event) : Prop :=
  match event with Ev_Call Call_Start => False | _ => True end.

Definition begins (event : Event) : bool := match event with Ev_Begin _ _ _ => true | _ => false end.

(** [Stop] has raised its flags; [require] is whether the runtime then refuses
    evaluations. *)
Definition closing (require : bool) (s : System) : Prop :=
  eng_stopping (sys_engine s) = true /\ eng_started (sys_engine s) = false /\
  cfg_require_started (eng_config (sys_engine s)) = require.

(** The steps an evaluation has ahead of it at most. *)
Definition remaining (ev : Evaluation) : nat :=
  match ev_stage ev with
  | Stage_Input => 2 + length (ei_targets (ev_input ev))
  | Stage_Compare _ threads _ => 1 + sum_list_with (fun range => snd range - fst range)%nat threads
  end.

Definition backlog (s : System) : nat :=
  sum_list_with (fun entry => remaining (snd entry)) (map_to_list (sys_running s)).

Lemma sum_list_with_permutation {A} (f : A -> nat) (l m : list A) :
  Permutation l m -> sum_list_with f l = sum_list_with f m.
Proof. induction 1; cbn; lia. Qed.

Lemma backlog_delete e running id ev : running !! id = Some ev ->
  backlog (mkSystem e running) = (remaining ev + backlog (mkSystem e (delete id running)))%nat.
Proof.
  intros H. unfold backlog. cbn [sys_running].
  by rewrite <- (sum_list_with_permutation _ _ _ (map_to_list_delete running id ev H)).
Qed.

Lemma backlog_replace e running id ev ev' : running !! id = Some ev ->
  (backlog (mkSystem e (<[id := ev']> running)) + remaining ev = backlog (mkSystem e running) + remaining ev')%nat.
Proof.
  intros H. rewrite (backlog_delete e running id ev H).
  rewrite (backlog_delete e _ id ev') by apply lookup_insert_eq.
  rewrite delete_insert_eq. lia.
Qed.

Lemma worker_ranges_work workers n :
  sum_list_with (fun range => snd range - fst range)%nat (worker_ranges workers n) = n.
Proof.
  pose proof (f_equal length (worker_ranges_cover workers n)) as H. rewrite length_seq in H.
  rewrite <- H at 2. clear H. induction (worker_ranges workers n) as [|r l IH]; [done|].
  cbn. rewrite length_app, IH. unfold range_indices. by rewrite length_seq.
Qed.

Lemma sum_list_with_insert {A} (f : A -> nat) (l : list A) k x y : l !! k = Some x ->
  (sum_list_with f (<[k := y]> l) + f x = sum_list_with f l + f y)%nat.
Proof.
  revert k. induction l as [|z l IH]; intros [|k] H; [done..| |].
  - injection H as ->. change (<[0%nat := y]> (x :: l)) with (y :: l). cbn [sum_list_with]. lia.
  - change (<[S k := y]> (z :: l)) with (z :: <[k := y]> l). cbn [sum_list_with]. specialize (IH k H). lia.
Qed.

Lemma enter_comparison_remaining e ev ev' : enter_comparison e ev = Some ev' -> remaining ev = S (remaining ev').
Proof.
  unfold enter_comparison, remaining. destruct (ev_stage ev); [|done]. intros [= <-]. cbn.
  by rewrite worker_ranges_work.
Qed.

Lemma advance_remaining e k ev ev' : advance e k ev = Some ev' -> (remaining ev' < remaining ev)%nat.
Proof.
  unfold advance, remaining. destruct (ev_stage ev) as [|p threads out]; [done|].
  destruct (threads !! k) as [[index end_]|] eqn:Hk; [|done].
  destruct (end_ <=? index)%nat eqn:E; [done|]. apply Nat.leb_gt in E.
  pose proof (sum_list_with_insert (fun range => snd range - fst range)%nat threads k (index, end_)) as Hs.
  destruct (halted e); intros [= <-]; cbn [ev_stage].
  - specialize (Hs (end_, end_) Hk). cbn [fst snd] in Hs. lia.
  - specialize (Hs (S index, end_) Hk). cbn [fst snd] in Hs. lia.
Qed.

Lemma exec_call_closing require c e running :
  keeps_stopped (Ev_Call c) -> closing require (mkSystem e running) -> closing require (mkSystem (exec_call c e) running).
Proof.
  intros Hc (Hs & Ht & Hr). unfold closing in *. cbn [sys_engine] in *.
  destruct (exec_call_frame c e) as (_ & _ & -> & _ & Hf).
  destruct (moves_flags c) eqn:E; [by destruct c|]. destruct (Hf eq_refl) as (-> & _ & ->). done.
Qed.

(** While the runtime closes, every step of an evaluation shrinks the backlog
    and no other step adds to it. *)
Lemma closing_step require s event s' : step s event s' -> keeps_stopped event ->
  require = true \/ begins event = false -> closing require s ->
  closing require s' /\ (backlog s' + (if of_evaluation event then 1 else 0) <= backlog s)%nat.
Proof.
  intros Hstep Hk Hb Hc. destruct Hstep; cbn [of_evaluation begins] in *.
  - split; [by apply exec_call_closing|]. unfold backlog. cbn [sys_running]. lia.
  - assert (E : closing require (mkSystem e' running)); [|split; [done|unfold backlog; cbn [sys_running]; lia]].
    destruct Hc as (Hs & Ht & Hr). unfold closing. cbn [sys_engine] in *. unfold begin_evaluation in H.
    destruct (not_admitting e); [by injection H as <- <-|]. destruct (eng_cancelled e); [|done]. by injection H as <- <-.
  - destruct Hb as [->|?]; [|done]. destruct Hc as (Hs & Ht & Hr). cbn [sys_engine] in *.
    unfold begin_evaluation, not_admitting in H0. by rewrite Hr, Ht in H0.
  - split; [done|]. pose proof (backlog_replace e running id ev ev' H).
    pose proof (enter_comparison_remaining _ _ _ H0). lia.
  - split; [done|]. pose proof (backlog_replace e running id ev ev' H).
    pose proof (advance_remaining _ _ _ _ H0). lia.
  - destruct (publish_evaluation_ledger (ev_input ev) policy out (ev_apply ev) e)
      as (Ec & _ & Et & _ & Es & _). rewrite H2 in Ec, Et, Es. cbn [snd] in *.
    split; [unfold closing in *; cbn [sys_engine] in *; by rewrite Ec, Et, Es|].
    rewrite (backlog_delete e running id ev H).
    change (backlog (mkSystem e' (delete id running))) with (backlog (mkSystem e (delete id running))).
    assert (1 <= remaining ev)%nat by (unfold remaining; rewrite H0; lia). lia.
Qed.

Lemma closing_run require s events s' : run anywhere s events s' -> Forall keeps_stopped events ->
  require = true \/ Forall (fun event => begins event = false) events -> closing require s ->
  closing require s' /\ (length (List.filter of_evaluation events) + backlog s' <= backlog s)%nat.
Proof.
  induction 1 as [s|s e s' es s'' Hstep _ _ IH]; [by intros; split|].
  intros [Hk Hks]%Forall_cons Hq Hc.
  assert (Hqs : (require = true \/ begins e = false) /\ (require = true \/ Forall (fun event => begins event = false) es))
    by (destruct Hq as [?|[? ?]%Forall_cons]; auto).
  destruct Hqs as [He Hes]. destruct (closing_step _ _ _ _ Hstep Hk He Hc) as [Hc' Hb].
  destruct (IH Hks Hes Hc') as [Hc'' Hb']. split; [done|]. cbn [List.filter].
  destruct (of_evaluation e); cbn [length]; lia.
Qed.

(** Nothing in flight is ever stuck. *)
Lemma evaluation_progress e running id ev : running !! id = Some ev ->
  exists event s', of_evaluation event = true /\ step (mkSystem e running) event s'.
Proof.
  intros Hid. destruct (ev_stage ev) as [|policy threads out] eqn:Hs.
  - eexists (Ev_Policy id), _. split; [done|]. eapply step_policy; [done|].
    unfold enter_comparison. by rewrite Hs.
  - destruct (joined threads) eqn:Hj.
    + destruct (publish_evaluation (ev_input ev) policy out (ev_apply ev) e) as [result e'] eqn:Hp.
      exists (Ev_Publish id result), (mkSystem e' (delete id running)). split; [done|]. by eapply step_publish.
    + assert (Hk : exists k index end_, threads !! k = Some (index, end_) /\ (index < end_)%nat).
      { unfold joined in Hj. apply not_true_iff_false in Hj. rewrite forallb_forall in Hj.
        destruct (decide (Exists (fun r => (fst r < snd r)%nat) threads)) as [He|He].
        - apply Exists_exists in He as ([a b] & Hin & Hlt). apply list_elem_of_lookup in Hin as [k Hk]. eauto.
        - destruct Hj. intros [a b] Hin. apply Nat.leb_le, Nat.nlt_ge. intros Hlt. apply He, Exists_exists.
          exists (a, b). split; [by apply list_elem_of_In|done]. }
      destruct Hk as (k & index & end_ & Hk & Hlt).
      assert (Ha : is_Some (advance e k ev)).
      { unfold advance. rewrite Hs, Hk. destruct (Nat.leb_spec end_ index); [lia|]. destruct (halted e); eauto. }
      destruct Ha as [ev' Ha]. exists (Ev_Advance id k), (mkSystem e (<[id := ev']> running)).
      split; [done|]. by eapply step_advance.
Qed.

(** C13. Stopping finishes: after [Stop] has raised its flags, and as long as
    nobody starts the runtime again (nor begins an evaluation, where the
    configuration does not require a started runtime and so admits one), the
    evaluations in flight have at most [backlog] steps left between them whatever else is called; as long as the
    wait of [Stop] is not over some evaluation can take a step; and taking these
    steps, and only these, ends the wait. *)
Theorem Stop_returns config before s0 s after s'
    (Hconfig : config_ok config)
    (Hreach : run anywhere (initial_system config) before s0)
    (Hstop : step s0 (Ev_Call Call_Stop) s)
    (Hrun : run anywhere s after s') (Hkeeps : Forall keeps_stopped after)
    (Hadmits : cfg_require_started (eng_config (sys_engine s0)) = true \/
               Forall (fun event => begins event = false) after) :
  (length (List.filter of_evaluation after) <= backlog s)%nat /\
  (Stop_may_return (sys_engine s') = true \/
   exists event s'', of_evaluation event = true /\ step s' event s'') /\
  exists drain s'', run anywhere s' drain s'' /\
    Forall (fun event => of_evaluation event = true) drain /\ Stop_may_return (sys_engine s'') = true.
Proof.
  set (require := cfg_require_started (eng_config (sys_engine s0))) in *.
  assert (Hc : closing require s) by (inversion Hstop; subst; done).
  assert (Hok : system_ok s').
  { destruct (run_ok _ _ _ _ Hreach (initial_system_ok config Hconfig)) as [H0 _].
    destruct (step_ok _ _ _ Hstop H0) as [H1 _]. by apply (run_ok _ _ _ _ Hrun). }
  destruct (closing_run _ _ _ _ Hrun Hkeeps Hadmits Hc) as [Hc' Hb]. split; [lia|].
  assert (Hprogress : forall t, system_ok t -> Stop_may_return (sys_engine t) = true \/
    exists event t', of_evaluation event = true /\ step t event t').
  { intros [e running] [_ _ Ha _]. cbn [sys_engine sys_running] in *.
    destruct (decide (running = ∅)) as [->|Hne].
    - left. unfold Stop_may_return. by rewrite Ha, map_size_empty.
    - right. apply map_choose in Hne as (id & ev & Hid). by apply (evaluation_progress e running id ev). }
  split; [by apply Hprogress|].
  clearbody require. clear Hrun Hb Hkeeps Hadmits after Hstop Hreach. remember (backlog s') as n eqn:Hn.
  revert s' Hok Hc' Hn. induction (lt_wf n) as [n _ IH]. intros s' Hok Hc' ->.
  destruct (Hprogress s' Hok) as [Hr|(event & t & He & Hst)].
  - exists [], s'. split; [constructor|]. by split.
  - assert (Hks : keeps_stopped event) by (destruct event; done).
    assert (Hq : require = true \/ begins event = false) by (right; by destruct event).
    destruct (closing_step _ _ _ _ Hst Hks Hq Hc') as [Hct Hbt]. rewrite He in Hbt.
    destruct (step_ok _ _ _ Hst Hok) as [Hokt _].
    destruct (IH (backlog t) ltac:(lia) t Hokt Hct eq_refl) as (drain & u & Hdr & Hall & Hret).
    exists (event :: drain), u. split; [by eapply run_cons|]. split; [by constructor|done].
Qed.

(** ** Facts: after a restart *)

Definition no_ingestion (event : Event) : Prop :=
  match event with
  | Ev_Call (Call_IngestObservation _ _) | Ev_Call (Call_IngestObservationJson _ _) => False
  | _ => True
  end.

(** The event loads a stored ledger in which this finding is resolved. *)
Definition brings_resolved (limits : RuntimeLimits) (id : Digest) (event : Event) : Prop :=
  match event with
  | Ev_Call c => exists status l report f, decoded_by limits c = Some (status, l, report) /\
      status_ok status = true /\ mfind id (lg_findings l) = Some f /\ fd_state f = St_Resolved
  | _ => False
  end.

(** Every resolved finding was resolved before, or came resolved from a file. *)
Definition resolutions_accounted (limits : RuntimeLimits) (events : list Event) (l l' : FindingLedger) : Prop :=
  forall id f', mfind id (lg_findings l') = Some f' -> fd_state f' = St_Resolved ->
    (exists f, mfind id (lg_findings l) = Some f /\ fd_state f = St_Resolved) \/
    Exists (brings_resolved limits id) events.

Lemma resolves_nothing_accounted limits events l l' :
  resolves_nothing l l' -> resolutions_accounted limits events l l'.
Proof. intros H id f' Hf Hs. left. by eapply H. Qed.

Lemma resolutions_accounted_trans limits events1 events2 l1 l2 l3 :
  resolutions_accounted limits events1 l1 l2 -> resolutions_accounted limits events2 l2 l3 ->
  resolutions_accounted limits (events1 ++ events2) l1 l3.
Proof.
  intros H1 H2 id f' Hf Hs. destruct (H2 id f' Hf Hs) as [(f & Hf2 & Hs2)|He]; [|right; apply Exists_app; by right].
  destruct (H1 id f Hf2 Hs2) as [?|He]; [by left|right; apply Exists_app; by left].
Qed.

Definition unsupported (input : EvaluationInput) : Prop :=
  Forall (fun i => Forall (fun v => fv_may_support_compliance v = false) (in_freshness i)) (ei_targets input).

(** An evaluation that will be fenced, or that has no usable evidence. *)
Definition harmless (e : Observatory) (ev : Evaluation) : Prop :=
  ei_incarnation (ev_input ev) < cfg_incarnation (eng_config e) \/
  unsupported (ev_input ev) /\
  match ev_stage ev with Stage_Input => True | Stage_Compare _ _ out => Forall undecided out end.

Definition shielded (s : System) : Prop :=
  all_recovered (eng_ledger (sys_engine s)) /\
  forall id ev, sys_running s !! id = Some ev -> harmless (sys_engine s) ev.

(** What a call does to the evidence and to resolved findings. *)
Lemma exec_call_quiet c e : no_ingestion (Ev_Call c) -> is_load c = false ->
  (all_recovered (eng_ledger e) -> all_recovered (eng_ledger (exec_call c e))) /\
  resolves_nothing (eng_ledger e) (eng_ledger (exec_call c e)).
Proof.
  set (Q := fun l l' => (all_recovered l -> all_recovered l') /\ resolves_nothing l l').
  assert (Hsame : Q (eng_ledger e) (eng_ledger e)) by (split; [done|reflexivity]).
  assert (Hact : forall id (r : Status * FindingLedger),
    (let '(status, l') := r in if status_ok status then acts_on id (eng_ledger e) l' else l' = eng_ledger e) ->
    Q (eng_ledger e) r.2).
  { intros id r Hr. split; [by apply all_recovered_windows, (acting_windows id)|by apply (acts_on_resolves_nothing id)]. }
  intros Hc Hn. change (Q (eng_ledger e) (eng_ledger (exec_call c e))).
  destruct c; cbn [exec_call no_ingestion] in *; try done.
  - unfold Start. by repeat case_scrutinee.
  - unfold RotateIncarnation. repeat case_scrutinee; try done.
    assert (Hf : lg_findings (InvalidateRetainedEvidence RC_EvidenceRecoveredNotFresh now (eng_ledger e)).2 =
      lg_findings (eng_ledger e)) by (unfold InvalidateRetainedEvidence; cbn [snd]; by destruct (0 <? _)).
    split; [intros _; apply InvalidateRetainedEvidence_recovered|]. intros id f.
    change (mfind id (lg_findings (InvalidateRetainedEvidence RC_EvidenceRecoveredNotFresh now (eng_ledger e)).2) = Some f ->
      fd_state f = St_Resolved -> exists f0, mfind id (lg_findings (eng_ledger e)) = Some f0 /\ fd_state f0 = St_Resolved).
    rewrite Hf. by exists f.
  - unfold RegisterSource. by repeat case_scrutinee.
  - destruct (PublishIntent_ledger document stamp empty_commit_report e) as (_ & _ & _ & [->| ->]); [done|].
    split; [by apply all_recovered_windows, CommitIntent_windows|apply CommitIntent_resolves_nothing].
  - pose proof (Hact finding _ (Suppress_acts finding actor reason expires_at now (eng_ledger e))) as HQ.
    unfold SuppressFinding. destruct (Suppress _ _ _ _ _ _) as [status l]. by destruct (status_ok status).
  - pose proof (Hact finding _ (ClearSuppression_acts finding actor now (eng_ledger e))) as HQ.
    unfold Observatory_ClearSuppression. by destruct (ClearSuppression _ _ _ _).
  - pose proof (Hact finding _ (Acknowledge_acts finding actor reason now (eng_ledger e))) as HQ.
    unfold AcknowledgeFinding. destruct (Acknowledge _ _ _ _ _) as [status l]. by destruct (status_ok status).
  - pose proof (Hact finding _ (ClearAcknowledgement_acts finding actor now (eng_ledger e))) as HQ.
    unfold Observatory_ClearAcknowledgement. by destruct (ClearAcknowledgement _ _ _ _).
  - unfold SetPolicy. destruct (negb _); [done|]. split; [by apply all_recovered_windows|by intros id f; exists f].
  - assert (HQ : Q (eng_ledger e) (ExpireSuppressions now (eng_ledger e)).2).
    { split; [by apply all_recovered_windows, ExpireSuppressions_windows|].
      apply same_truth_resolves_nothing, ExpireSuppressions_step. }
    unfold Observatory_ExpireSuppressions. by destruct (ExpireSuppressions _ _).
  - unfold Observatory_Save. destruct (SaveLedgerFile _ _ _ _ _ _) as [status f]. by destruct (status_ok status).
Qed.

(** A load brings no usable evidence, and its resolutions are the file's. *)
Lemma exec_call_shielded c e : no_ingestion (Ev_Call c) -> recovery_limits (cfg_limits (eng_config e)) ->
  (all_recovered (eng_ledger e) -> all_recovered (eng_ledger (exec_call c e))) /\
  (is_load c = true -> status_ok (call_status c e) = true -> all_recovered (eng_ledger (exec_call c e))) /\
  resolutions_accounted (cfg_limits (eng_config e)) [Ev_Call c] (eng_ledger e) (eng_ledger (exec_call c e)).
Proof.
  intros Hc Hl. destruct (is_load c) eqn:Hn.
  2: { destruct (exec_call_quiet c e Hc Hn) as [H1 H2]. split; [done|]. split; [done|]. by apply resolves_nothing_accounted. }
  destruct (load_cases c e Hn Hl) as [[Es ->]|(status & l & r & Hd & Hs & Hcons & E)].
  { split; [done|]. split; [intros _ Ht; congruence|]. by apply resolves_nothing_accounted. }
  pose proof (conservative_recovered _ _ Hcons) as Hr. rewrite E. split; [done|]. split; [done|].
  intros id f Hf Hstate. right. apply Exists_cons_hd. by exists status, l, r, f.
Qed.

Lemma harmless_advances e e' ev : engine_forward e e' -> harmless e ev -> harmless e' ev.
Proof. intros Ha [H|H]; [left|by right]. pose proof (ea_incarnation _ _ Ha). lia. Qed.

Lemma compare_slot_undecided targets policy limits index out :
  Forall (fun i => Forall (fun v => fv_may_support_compliance v = false) (in_freshness i)) targets ->
  Forall undecided out -> Forall undecided (compare_slot targets policy limits index out).
Proof.
  intros Ht Ho. unfold compare_slot. destruct (targets !! index) as [i|] eqn:E; [|done].
  apply Forall_insert; [done|]. apply CompareTarget_undecided.
  rewrite Forall_forall in Ht. by eapply Ht, list_elem_of_lookup_2.
Qed.

(** What a publication may say about compliance. *)
Definition concludes_nothing (event : Event) : Prop :=
  match event with
  | Ev_Publish _ (Result_value outcome) => Forall undecided (out_targets outcome)
  | _ => True
  end.

Lemma shielded_publish ev policy out apply e : ledger_ok (eng_ledger e) ->
  all_recovered (eng_ledger e) ->
  ei_incarnation (ev_input ev) < cfg_incarnation (eng_config e) \/ Forall undecided out ->
  let r := publish_evaluation (ev_input ev) policy out apply e in
  all_recovered (eng_ledger r.2) /\ resolves_nothing (eng_ledger e) (eng_ledger r.2) /\
  forall id, concludes_nothing (Ev_Publish id r.1).
Proof.
  intros Hl Hr Hout. cbv zeta.
  destruct (publish_evaluation_ledger (ev_input ev) policy out apply e)
    as (_ & _ & _ & _ & _ & _ & Hled & Hval).
  destruct (publish_evaluation _ _ _ _ _) as [result e']. cbn [fst snd] in *.
  split; [|split].
  - destruct Hled as [->|[-> _]]; [done|].
    eapply all_recovered_windows, Hr. apply ApplyEvaluation_windows.
  - destruct Hled as [->|[-> (_ & _ & Hi)]]; [reflexivity|]. cbn [exec].
    destruct Hout as [?|Hout]; [lia|]. apply ApplyEvaluation_resolves_nothing; [done|].
    eapply Forall_impl; [exact Hout|]. by intros t [? _].
  - intros id. destruct result as [outcome|]; [|done]. cbn [concludes_nothing].
    destruct (Hval outcome eq_refl) as (-> & _ & _ & _ & Hi & _). destruct Hout as [?|Hout]; [lia|done].
Qed.

Lemma step_shielded s event s' : step s event s' -> no_ingestion event -> system_ok s -> shielded s ->
  shielded s' /\
  resolutions_accounted (cfg_limits (eng_config (sys_engine s))) [event]
    (eng_ledger (sys_engine s)) (eng_ledger (sys_engine s')) /\
  concludes_nothing event.
Proof.
  intros Hstep Hn Hok [Hr Hh]. destruct (step_ok _ _ _ Hstep Hok) as (_ & Had & _). destruct Hok as [Hlim He _ _].
  assert (Hsame : forall limits l, resolutions_accounted limits [event] l l)
    by (intros; apply resolves_nothing_accounted; reflexivity).
  assert (Hkeep : forall id ev, sys_running s !! id = Some ev -> harmless (sys_engine s') ev)
    by (intros id ev Hev; by eapply harmless_advances, Hh).
  destruct Hstep; cbn [sys_engine sys_running] in *.
  - destruct (exec_call_shielded c e Hn Hlim) as (Hr' & _ & Hq). split; [split; auto|done].
  - unfold begin_evaluation in H.
    destruct (not_admitting e); [|destruct (eng_cancelled e); [|done]]; injection H as <- <-;
      (split; [split; auto|split; [apply Hsame|done]]).
  - pose proof (begin_evaluation_ok now e He) as Hb. rewrite H0 in Hb. cbn [fst snd] in Hb.
    destruct Hb as (_ & _ & -> & _ & _ & ->). split; [|split; [apply Hsame|done]]. split; [done|].
    intros id' ev. cbn [sys_running]. rewrite lookup_insert_Some. intros [[_ <-]|[_ Hev]]; [|by apply (Hkeep id')].
    right. split; [|done]. exact (BuildEvaluationInput_recovered now e Hr).
  - split; [|split; [apply Hsame|done]]. split; [done|]. intros id' ev0. cbn [sys_running].
    rewrite lookup_insert_Some. intros [[_ <-]|[_ Hev]]; [|by apply (Hkeep id')].
    specialize (Hh id ev H). unfold enter_comparison in H0. destruct ev as [input apply [|]]; [|done].
    injection H0 as <-. destruct Hh as [?|[Hu _]]; [by left|right]. split; [done|]. cbn [ev_stage].
    apply Forall_forall. intros t Ht. apply list_elem_of_In, repeat_spec in Ht as ->. done.
  - split; [|split; [apply Hsame|done]]. split; [done|]. intros id' ev0. cbn [sys_running].
    rewrite lookup_insert_Some. intros [[_ <-]|[_ Hev]]; [|by apply (Hkeep id')].
    specialize (Hh id ev H). unfold advance in H0. destruct ev as [input apply [|policy threads out]]; [done|].
    cbn [ev_stage ev_input ev_apply] in H0. destruct (threads !! k) as [[index end_]|]; [|done].
    destruct (_ <=? _)%nat; [done|].
    destruct Hh as [Hi|[Hu Ho]]; destruct (halted e); injection H0 as <-; try (by left); right; (split; [done|]);
      [exact Ho|by apply compare_slot_undecided].
  - pose proof (shielded_publish ev policy out (ev_apply ev) e (eo_ledger _ He) Hr) as Hp.
    rewrite H2 in Hp. cbn [fst snd] in Hp. destruct Hp as (Hr' & Hq & Hc).
    { destruct (Hh id ev H) as [?|[_ Ho]]; [by left|right]. by rewrite H0 in Ho. }
    split; [|split; [by apply resolves_nothing_accounted|apply Hc]]. split; [done|]. intros id' ev0. cbn [sys_running].
    rewrite lookup_delete_Some. intros [_ Hev]. by apply (Hkeep id').
Qed.

Lemma run_shielded s events s' : run anywhere s events s' -> Forall no_ingestion events ->
  system_ok s -> shielded s ->
  resolutions_accounted (cfg_limits (eng_config (sys_engine s))) events
    (eng_ledger (sys_engine s)) (eng_ledger (sys_engine s')) /\
  Forall concludes_nothing events.
Proof.
  induction 1 as [s|s e s' es s'' Hstep _ _ IH];
    [by intros; split; [apply resolves_nothing_accounted; reflexivity|constructor]|].
  intros [Hn Hns]%Forall_cons Hok Hsh.
  destruct (step_shielded _ _ _ Hstep Hn Hok Hsh) as (Hsh' & Hq & Hc).
  destruct (step_ok _ _ _ Hstep Hok) as (Hok' & Hf & _). destruct (IH Hns Hok' Hsh') as [Hq' Hcs].
  rewrite (ea_limits _ _ Hf) in Hq'. split; [|by constructor].
  exact (resolutions_accounted_trans _ [e] es _ _ _ Hq Hq').
Qed.

(** The calls that restart the runtime: a rotation that is accepted, and a load
    that is accepted while no evaluation is in flight. *)
Definition restarts (c : Call) (s : System) : Prop :=
  status_ok (call_status c (sys_engine s)) = true /\
  match c with
  | Call_RotateIncarnation _ _ _ => True
  | _ => is_load c = true /\ sys_running s = ∅
  end.

Lemma restarted_shielded c s : system_ok s -> restarts c s ->
  no_ingestion (Ev_Call c) /\ shielded (mkSystem (exec_call c (sys_engine s)) (sys_running s)).
Proof.
  intros [Hlim He _ Hrunning] [Hs Hc]. destruct (is_load c) eqn:Hn.
  - assert (Hi : no_ingestion (Ev_Call c)) by by destruct c. split; [done|].
    assert (Hempty : sys_running s = ∅) by (destruct c; try done; by destruct Hc).
    split; cbn [sys_engine sys_running].
    + by apply (exec_call_shielded c (sys_engine s) Hi Hlim).
    + intros id ev. by rewrite Hempty, lookup_empty.
  - destruct c; try done; try (by destruct Hc). split; [done|]. cbn [exec_call call_status] in *.
    unfold shielded. cbn [sys_engine sys_running]. unfold RotateIncarnation in *. destruct (negb _); [done|].
    destruct (_ <=? _) eqn:E; [done|]. destruct (_ <? _); [done|]. breflect.
    split; [apply InvalidateRetainedEvidence_recovered|]. intros id ev Hev.
    destruct (Hrunning id ev Hev) as [Hi _]. left. exact (Z.le_lt_trans _ _ _ Hi E).
Qed.

(** C5. A restart never turns retained evidence into a conclusion.  From the moment
    [RotateIncarnation] is accepted, or [Load] or [DecodeState] is while no
    evaluation is in flight, until an observation is ingested, whatever is called,
    further loads included, and however evaluations interleave, those begun before a
    rotation included, every outcome that is published leaves every target
    undecided and not compliant; and a finding is resolved at the end only if it
    was resolved before the restart or in a stored ledger that was loaded. *)
Theorem nothing_concluded_after_restart config before s0 c s events s'
    (Hconfig : config_ok config)
    (Hreach : run anywhere (initial_system config) before s0)
    (Hstep : step s0 (Ev_Call c) s) (Hrestart : restarts c s0)
    (Hrun : run anywhere s events s') (Hno : Forall no_ingestion events) :
  Forall concludes_nothing events /\
  resolutions_accounted (cfg_limits config) (Ev_Call c :: events)
    (eng_ledger (sys_engine s0)) (eng_ledger (sys_engine s')).
Proof.
  destruct (run_ok _ _ _ _ Hreach (initial_system_ok config Hconfig)) as (Hok0 & Hf0 & _).
  destruct (step_ok _ _ _ Hstep Hok0) as (Hok & Hf & _).
  destruct (restarted_shielded c s0 Hok0 Hrestart) as [Hn Hsh].
  inversion Hstep as [? e running| | | | |]; subst. cbn [sys_engine sys_running] in *.
  destruct (exec_call_shielded c e Hn (sy_limits _ Hok0)) as (_ & _ & Hq).
  destruct (run_shielded _ _ _ Hrun Hno Hok Hsh) as [Hq' Hc]. split; [done|]. cbn [sys_engine] in Hq'.
  pose proof (ea_limits _ _ Hf) as E1. pose proof (ea_limits _ _ Hf0) as E2.
  cbn [sys_engine initial_system] in E1, E2. rewrite E1 in Hq'. rewrite E2 in Hq, Hq'.
  exact (resolutions_accounted_trans _ [Ev_Call c] events _ _ _ Hq Hq').
Qed.

(** ** Facts: refusals *)

(** Nothing but the counters. *)
Definition same_but_counters (e e' : Observatory) : Prop :=
  e' = e <| eng_counters := eng_counters e' |>.

Lemma CommitIntent_refused doc now report l :
  status_ok (CommitIntent doc now report l).1.1 = false -> (CommitIntent doc now report l).2 = l.
Proof.
  unfold CommitIntent. destruct (negb _); [done|].
  destruct (FindBaseline l (doc_target doc)) as [b|]; [|by destruct (_ <=? _)].
  destruct (_ <? _); [done|]. destruct (_ <? base_generation b); [done|].
  destruct (_ =? base_generation b); [by destruct (eqb _ _)|]. by destruct (RebaseFindingsForTarget _ _ _ _ _).
Qed.

Lemma RecordObservation_refused snapshot verdict recovered report l : ledger_ok l ->
  status_ok (RecordObservation snapshot verdict recovered report l).1.1 = false ->
  (RecordObservation snapshot verdict recovered report l).2 = l.
Proof.
  intros Hok. unfold RecordObservation. destruct (negb _); [done|]. cbv zeta.
  set (key := (snap_target snapshot, snap_source snapshot)).
  pose proof (touch_window l key Hok) as Ht.
  destruct (last (mget [] key (lg_windows l))) as [newest|] eqn:E; [|done].
  specialize (Ht (fun Hn => ltac:(discriminate (eq_trans (eq_sym E) Hn)))).
  match goal with |- context [l <| lg_windows ::= ?f |>] => change (l <| lg_windows ::= f |> = l) in Ht end.
  rewrite Ht.
  destruct (_ <? _); [done|]. destruct (_ <? snap_epoch (ro_snapshot newest)); [done|].
  destruct (_ && _); [|done]. by destruct (eqb _ _).
Qed.

Lemma acting_refused id l (r : Status * FindingLedger) :
  (let '(status, l') := r in if status_ok status then acts_on id l l' else l' = l) ->
  status_ok r.1 = false -> r.2 = l.
Proof. destruct r as [status l']. cbn. by destruct (status_ok status). Qed.

Lemma same_but_counters_refl e : same_but_counters e e.
Proof. by destruct e. Qed.

Lemma same_ledger_back e counter : same_but_counters e (count counter (e <| eng_ledger := eng_ledger e |>)).
Proof. by destruct e. Qed.

Lemma ledger_back e : e <| eng_ledger := eng_ledger e |> = e.
Proof. by destruct e. Qed.

(** The calls that refuse before or inside the ledger. *)
Lemma PublishIntent_refused document stamp e :
  status_ok (call_status (Call_PublishIntent document stamp) e) = false ->
  same_but_counters e (exec_call (Call_PublishIntent document stamp) e).
Proof.
  pose proof (same_but_counters_refl e) as Hsame. cbn [call_status exec_call].
  unfold PublishIntent. destruct (not_admitting e); [done|]. destruct (negb (_ =? _)); [done|].
  pose proof (CommitIntent_refused document stamp empty_commit_report (eng_ledger e)) as Hr.
  destruct (CommitIntent _ _ _ _) as [[status r] l]. cbn [fst snd] in Hr.
  destruct (status_ok status) eqn:E; cbn [negb fst snd]; [done|]. rewrite Hr by done.
  intros _. apply same_ledger_back.
Qed.

Lemma IngestObservation_refused snapshot clock e : engine_ok e ->
  status_ok (call_status (Call_IngestObservation snapshot clock) e) = false ->
  same_but_counters e (exec_call (Call_IngestObservation snapshot clock) e).
Proof.
  intros H. pose proof (same_but_counters_refl e) as Hsame. cbn [call_status exec_call].
  unfold IngestObservation. destruct (not_admitting e); [done|]. cbv zeta.
  destruct (_ && _); [intros _; by destruct e|]. set (s := snapshot <| _ := _ |>).
  match goal with |- context [RecordObservation s ?v false ?a ?l] =>
    pose proof (RecordObservation_refused s v false a l (eo_ledger _ H)) as Hr;
    destruct (RecordObservation s v false a l) as [[status r] l'] end. cbn [fst snd] in Hr.
  destruct (status_ok status) eqn:E; cbn [negb]; [by destruct (ad_duplicate_identical r)|].
  cbn [fst snd]. rewrite Hr by done. intros _. apply same_ledger_back.
Qed.

Lemma refused_install decoded e : status_ok (install_recovered decoded e).1.1 = false ->
  same_but_counters e (install_recovered decoded e).2.
Proof.
  destruct decoded as [[status l] r]. unfold install_recovered. destruct (status_ok status); [done|]. intros _.
  apply same_but_counters_refl.
Qed.

(** C28. A refused call changes nothing: whenever a call of the runtime returns a
    status that is not Ok, the state is what it was but for the counters; and an
    evaluation that is cancelled, stopped or fenced at its publication leaves
    ledger, sources and configuration untouched and reports no outcome. *)
Theorem refused_calls_change_nothing (e : Observatory) (H : engine_ok e) :
  (forall c, status_ok (call_status c e) = false -> same_but_counters e (exec_call c e)) /\
  (forall now status e', begin_evaluation now e = (inl status, e') ->
     status_ok status = false /\ same_but_counters e e') /\
  (forall input policy out apply,
     halted e = true \/ not_admitting e = true \/ ei_epoch input <> cfg_epoch (eng_config e) \/
       ei_incarnation input <> cfg_incarnation (eng_config e) ->
     let r := publish_evaluation input policy out apply e in
     (exists status, r.1 = Result_status status /\ st_code status ∈ [SC_Cancelled; SC_StaleAuthority]) /\
     same_but_counters (e <| eng_active_evaluations ::= fun n => wrap64 (n - 1) |>) r.2).
Proof.
  split; [|split].
  - intros c. pose proof (same_but_counters_refl e) as Hsame.
    destruct c; cbn [call_status exec_call]; try done.
    + unfold Start. by repeat case_scrutinee.
    + unfold RotateIncarnation. by repeat case_scrutinee.
    + unfold RegisterSource. by repeat case_scrutinee.
    + apply PublishIntent_refused.
    + by apply IngestObservation_refused.
    + pose proof (acting_refused finding _ _ (Suppress_acts finding actor reason expires_at now (eng_ledger e))) as Hr.
      unfold SuppressFinding. destruct (Suppress _ _ _ _ _ _) as [status l]. cbn [fst snd] in *.
      intros E. rewrite E, Hr, ledger_back by done. done.
    + pose proof (acting_refused finding _ _ (ClearSuppression_acts finding actor now (eng_ledger e))) as Hr.
      unfold Observatory_ClearSuppression. destruct (ClearSuppression _ _ _ _) as [status l]. cbn [fst snd] in *.
      intros E. by rewrite Hr, ledger_back.
    + pose proof (acting_refused finding _ _ (Acknowledge_acts finding actor reason now (eng_ledger e))) as Hr.
      unfold AcknowledgeFinding. destruct (Acknowledge _ _ _ _ _) as [status l]. cbn [fst snd] in *.
      intros E. rewrite E, Hr, ledger_back by done. done.
    + pose proof (acting_refused finding _ _ (ClearAcknowledgement_acts finding actor now (eng_ledger e))) as Hr.
      unfold Observatory_ClearAcknowledgement. destruct (ClearAcknowledgement _ _ _ _) as [status l]. cbn [fst snd] in *.
      intros E. by rewrite Hr, ledger_back.
    + unfold SetPolicy. by destruct (negb _).
    + destruct (IngestObservationJson_cases json receive_time empty_admission e) as [[f E]|(s & _ & E)].
      * rewrite E. intros _. by destruct e.
      * rewrite E. by apply (IngestObservation_refused s receive_time).
    + unfold Observatory_Save. destruct (SaveLedgerFile _ _ _ _ _ _) as [status f]. cbn [fst snd].
      by destruct (status_ok status).
    + cbn [decoded_by]. by apply refused_install.
    + cbn [decoded_by]. by apply refused_install.
  - intros now status e'. unfold begin_evaluation. destruct (not_admitting e).
    + intros [= <- <-]. split; [done|apply same_but_counters_refl].
    + destruct (eng_cancelled e); [|done]. intros [= <- <-]. split; [done|by destruct e].
  - intros input policy out apply Href. cbv zeta. unfold publish_evaluation. cbv zeta.
    set (e1 := e <| eng_active_evaluations ::= _ |>).
    assert (Hc : forall counter, same_but_counters e1 (count counter e1)) by (intros; by destruct e).
    change (eng_cancelled e1) with (eng_cancelled e). change (eng_stopping e1) with (eng_stopping e).
    change (not_admitting e1) with (not_admitting e). change (eng_config e1) with (eng_config e).
    destruct (eng_cancelled e) eqn:Ec; [split; [eexists; split; [done|set_solver]|apply Hc]|].
    destruct (eng_stopping e || not_admitting e) eqn:Es; [split; [eexists; split; [done|set_solver]|apply Hc]|].
    destruct (negb (ei_epoch input =? _) || _) eqn:Ef; [split; [eexists; split; [done|set_solver]|apply Hc]|].
    exfalso. apply orb_false_iff in Es as [Es En]. breflect. unfold halted in Href. rewrite Ec, Es, En in Href.
    naive_solver.
Qed.

(** ** Schedules that run

    [perform] does what an event says; a publication reports what it publishes. *)

Definition perform (s : System) (event : Event) : option (Event * System) :=
  let e := sys_engine s in
  let running := sys_running s in
  match event with
  | Ev_Call c => Some (event, mkSystem (exec_call c e) running)
  | Ev_Refuse now =>
      match begin_evaluation now e with (inl _, e') => Some (event, mkSystem e' running) | _ => None end
  | Ev_Begin id now apply =>
      match running !! id, begin_evaluation now e with
      | None, (inr input, e') =>
          Some (event, mkSystem e' (<[id := mkEvaluation input apply Stage_Input]> running))
      | _, _ => None
      end
  | Ev_Policy id =>
      ev ← running !! id; ev' ← enter_comparison e ev; Some (event, mkSystem e (<[id := ev']> running))
  | Ev_Advance id k =>
      ev ← running !! id; ev' ← advance e k ev; Some (event, mkSystem e (<[id := ev']> running))
  | Ev_Publish id _ =>
      ev ← running !! id;
      match ev_stage ev with
      | Stage_Compare policy threads out =>
          if joined threads then
            let '(result, e') := publish_evaluation (ev_input ev) policy out (ev_apply ev) e in
            Some (Ev_Publish id result, mkSystem e' (delete id running))
          else None
      | Stage_Input => None
      end
  end.

Fixpoint perform_all (s : System) (events : list Event) : option (list Event * System) :=
  match events with
  | [] => Some ([], s)
  | event :: rest =>
      '(event, s) ← perform s event; '(rest, s) ← perform_all s rest; Some (event :: rest, s)
  end.

Lemma perform_step s event event' s' : perform s event = Some (event', s') -> step s event' s'.
Proof.
  destruct s as [e running]. destruct event; cbn [perform sys_engine sys_running].
  - intros [= <- <-]. constructor.
  - destruct (begin_evaluation now e) as [[status|input] e'] eqn:E; [|done]. intros [= <- <-]. by econstructor.
  - destruct (running !! id) eqn:Hi; [done|].
    destruct (begin_evaluation now e) as [[status|input] e'] eqn:E; [done|]. intros [= <- <-]. by constructor.
  - destruct (running !! id) as [ev|] eqn:Hi; [|done]. cbn.
    destruct (enter_comparison e ev) as [ev'|] eqn:E; [|done]. intros [= <- <-]. by econstructor.
  - destruct (running !! id) as [ev|] eqn:Hi; [|done]. cbn.
    destruct (advance e thread ev) as [ev'|] eqn:E; [|done]. intros [= <- <-]. by econstructor.
  - destruct (running !! id) as [ev|] eqn:Hi; [|done]. cbn.
    destruct (ev_stage ev) as [|policy threads out] eqn:Hs; [done|]. destruct (joined threads) eqn:Hj; [|done].
    destruct (publish_evaluation _ _ _ _ _) as [r e'] eqn:E. intros [= <- <-]. by econstructor.
Qed.

Lemma perform_all_run s events events' s' : perform_all s events = Some (events', s') -> run anywhere s events' s'.
Proof.
  revert s events' s'. induction events as [|event rest IH]; intros s events' s'; cbn [perform_all].
  - intros [= <- <-]. constructor.
  - destruct (perform s event) as [[event1 s1]|] eqn:E; [|done]. cbn.
    destruct (perform_all s1 rest) as [[rest1 s2]|] eqn:E2; [|done]. intros [= <- <-].
    econstructor; [by eapply perform_step|done|by apply IH].
Qed.

(** A run that leaves the flags down where a test says so. *)
Lemma run_flags_down s events s' : run anywhere s events s' -> flags_down s ->
  Forall (fun event => match event with
    | Ev_Call Call_Stop | Ev_Call Call_RequestCancellation => False | _ => True end) events ->
  run flags_down s events s'.
Proof.
  induction 1 as [s|s e s' es s'' Hstep _ Hrun IH]; [constructor|].
  intros Hq [He Hes]%Forall_cons. assert (Hq' : flags_down s').
  { unfold flags_down, halted in *. destruct Hstep; cbn [sys_engine] in *; try done.
    - destruct (exec_call_frame c e) as (_ & _ & _ & _ & Hf).
      destruct (moves_flags c) eqn:E; [|by destruct (Hf eq_refl) as (_ & -> & ->)].
      destruct c; try done; [unfold exec_call, Start; by repeat case_scrutinee|].
      apply orb_false_iff in Hq as [_ Hq]. exact Hq.
    - unfold begin_evaluation in H. destruct (not_admitting e); [by injection H as <- <-|].
      destruct (eng_cancelled e) eqn:Ec; [|done]. injection H as <- <-. cbn. by rewrite Ec.
    - unfold begin_evaluation in H0. destruct (not_admitting e); [done|].
      destruct (eng_cancelled e) eqn:Ec; [done|]. injection H0 as <- <-. cbn. by rewrite Ec.
    - destruct (publish_evaluation_ledger (ev_input ev) policy out (ev_apply ev) e) as (_ & _ & _ & E1 & E2 & _).
      rewrite H2 in E1, E2. cbn [snd] in *. by rewrite E1, E2. }
  econstructor; [done|done|by apply IH].
Qed.

Definition after (s : System) (events : list Event) : System :=
  match perform_all s events with Some (_, s') => s' | None => s end.
Definition trace (s : System) (events : list Event) : list Event :=
  match perform_all s events with Some (events', _) => events' | None => [] end.

Lemma after_run s events : run anywhere s (trace s events) (after s events).
Proof.
  unfold trace, after. destruct (perform_all s events) as [[events' s']|] eqn:E; [by eapply perform_all_run|constructor].
Qed.

(** A publication whose result is still to be computed. *)
Definition publish (id : nat) : Event := Ev_Publish id (Result_status Status_Ok).

Definition published (s : System) (id : nat) : EvaluationOutcome :=
  match perform s (publish id) with
  | Some (Ev_Publish _ (Result_value outcome), _) => outcome
  | _ => mkOutcome 0 0 0 "" [] 0 0 []
  end.

Definition example_config : ObservatoryConfig :=
  mkConfig (Policy_Default <| pol_evidence := EC_Real |>) default_limits 1 1 2 true false.

Definition document_for (target : string) : IntentGenerationDocument :=
  let doc := example_document 5 ["vlan"] in
  mkIntentDocument target (doc_generation doc) (doc_epoch doc) (doc_authority doc) (doc_policy doc)
    (doc_authored_at doc) (doc_objects doc) (doc_evidence doc).

(** Intent for two targets and one observation of the first. *)
Definition prologue : list Event :=
  [Ev_Call Call_Start;
   Ev_Call (Call_PublishIntent (example_document 5 ["vlan"]) 1000);
   Ev_Call (Call_PublishIntent (document_for "u") 1000);
   Ev_Call (Call_IngestObservation (example_observation 1 [example_object "vlan" 5 1500]) 1005)].

Definition ready : System := Eval vm_compute in after (initial_system example_config) prologue.

Lemma ready_run : run anywhere (initial_system example_config) (trace (initial_system example_config) prologue) ready.
Proof.
  assert (ready = after (initial_system example_config) prologue) as -> by (vm_compute; reflexivity). apply after_run.
Qed.

(** What a system shows: flags, counters of evaluations, evaluations in flight. *)
Definition gauge (s : System) : bool * bool * Z * Z * Z :=
  let e := sys_engine s in
  (eng_started e, eng_stopping e, ct_evaluations (eng_counters e),
   ct_evaluations_cancelled (eng_counters e), eng_active_evaluations e).

Lemma example_config_ok : config_ok example_config.
Proof. vm_compute. repeat split; discriminate. Qed.

Definition evaluation_schedule : list Event :=
  [Ev_Begin 0 1010 true; Ev_Policy 0; Ev_Advance 0 1; Ev_Advance 0 0; publish 0].

(** A load that is refused comes in between. *)
Definition evaluation_schedule_with_load : list Event :=
  [Ev_Begin 0 1010 true; Ev_Policy 0; Ev_Advance 0 1; Ev_Call (Call_DecodeState None 1); Ev_Advance 0 0; publish 0].

Lemma runtime_stays_well_formed_witness :
  let s := after ready evaluation_schedule in
  gauge s = (true, false, 1, 0, 0) /\
  (system_ok s /\ evolves (eng_ledger (sys_engine ready)) (eng_ledger (sys_engine s)) /\
   windows_ordered (eng_ledger (sys_engine s))) /\
  system_ok (after ready evaluation_schedule_with_load).
Proof.
  cbv zeta. split; [vm_compute; reflexivity|].
  destruct (runtime_stays_well_formed example_config _ _ _ _ example_config_ok
    ready_run (after_run ready evaluation_schedule)) as (H & _ & He & Hw).
  assert (Hl : loads_nothing (trace ready evaluation_schedule)) by (vm_compute; repeat constructor).
  assert (Hb : loads_nothing (trace (initial_system example_config) prologue)) by (vm_compute; repeat constructor).
  split; [split; [exact H|split; [exact (He Hl)|exact (Hw Hb Hl)]]|].
  apply (runtime_stays_well_formed example_config _ _ _ _ example_config_ok
    ready_run (after_run ready evaluation_schedule_with_load)).
Defined.

(** Another observation arrives while the targets are compared. *)
Definition busy : System :=
  Eval vm_compute in after ready [Ev_Begin 0 1010 true; Ev_Policy 0; Ev_Advance 0 1;
    Ev_Call (Call_IngestObservation (example_observation 2 [example_object "vlan" 5 9000]) 1009); Ev_Advance 0 0].

Definition once_outcome (s : System) (now : NdoTime) : EvaluationOutcome :=
  let config := eng_config (sys_engine s) in
  match EvaluateLedgerOnce (eng_ledger (sys_engine s)) (cfg_policy config) (cfg_limits config)
          (cfg_epoch config) (cfg_incarnation config) now with
  | Result_value outcome => outcome
  | Result_status _ => mkOutcome 0 0 0 "" [] 0 0 []
  end.

Lemma evaluation_refines_EvaluateLedgerOnce_witness :
  let outcome := published busy 0 in
  map (fun t => (te_target t, te_compliant t)) (out_targets outcome) = [("t", true); ("u", false)] /\
  outcome = (once_outcome ready 1010) <| out_sequence := 1 |>.
Proof.
  cbv zeta. split; [vm_compute; reflexivity|].
  set (events := [Ev_Policy 0; Ev_Advance 0 1;
    Ev_Call (Call_IngestObservation (example_observation 2 [example_object "vlan" 5 9000]) 1009); Ev_Advance 0 0]).
  refine (proj1 (evaluation_refines_EvaluateLedgerOnce 0 1010 true ready (after ready [Ev_Begin 0 1010 true])
    events busy (published busy 0) (after busy [publish 0]) (once_outcome ready 1010) _ _ _ _ _ _)).
  - apply (perform_step _ (Ev_Begin 0 1010 true)). vm_compute. reflexivity.
  - apply run_flags_down; [|vm_compute; reflexivity|repeat constructor].
    apply (perform_all_run _ events). vm_compute. reflexivity.
  - repeat constructor.
  - repeat constructor.
  - apply (perform_step _ (publish 0)). vm_compute. reflexivity.
  - vm_compute. reflexivity.
Defined.

(** An evaluation is under way. *)
Definition half_way : System := Eval vm_compute in after ready [Ev_Begin 0 1010 true; Ev_Policy 0; Ev_Advance 0 1].

Lemma run_append s1 events1 s2 events2 s3 : run anywhere s1 events1 s2 -> run anywhere s2 events2 s3 ->
  run anywhere s1 (events1 ++ events2)%list s3.
Proof. induction 1; [done|]. intros H2. cbn. econstructor; eauto. Qed.

Lemma half_way_run : exists before, run anywhere (initial_system example_config) before half_way.
Proof.
  assert (half_way = after ready [Ev_Begin 0 1010 true; Ev_Policy 0; Ev_Advance 0 1]) as -> by (vm_compute; reflexivity).
  eexists. eapply run_append; [apply ready_run|apply after_run].
Qed.

Lemma call_step s c : step s (Ev_Call c) (mkSystem (exec_call c (sys_engine s)) (sys_running s)).
Proof. by apply (perform_step s (Ev_Call c)). Qed.

Lemma Stop_returns_witness :
  let s := mkSystem (exec_call Call_Stop (sys_engine half_way)) (sys_running half_way) in
  (gauge s = (false, true, 0, 0, 1) /\ backlog s = 2%nat) /\
  exists drain s', run anywhere s drain s' /\ Stop_may_return (sys_engine s') = true.
Proof.
  cbv zeta. split; [vm_compute; by split|].
  destruct half_way_run as [before Hrun].
  destruct (Stop_returns example_config before half_way _ [] _ example_config_ok Hrun
    (call_step half_way Call_Stop) (run_nil _ _) (Forall_nil_2 _) ltac:(left; vm_compute; reflexivity))
    as (_ & _ & drain & s' & Hdrain & _ & Hret).
  exists drain, s'. split; [exact Hdrain|exact Hret].
Defined.

(** An evaluation is in flight when the incarnation is rotated, and another one
    runs afterwards. *)
Definition rotated : System :=
  mkSystem (exec_call (Call_RotateIncarnation 2 1 1015) (sys_engine half_way)) (sys_running half_way).

Definition rotation_schedule : list Event :=
  [Ev_Advance 0 0; publish 0; Ev_Begin 1 1020 true; Ev_Policy 1; Ev_Advance 1 0; Ev_Advance 1 1; publish 1].

Lemma nothing_concluded_after_restart_witness :
  let counters := eng_counters (sys_engine (after rotated rotation_schedule)) in
  (ct_evaluations counters = 1 /\ ct_evaluations_fenced counters = 1) /\
  Forall concludes_nothing (trace rotated rotation_schedule).
Proof.
  cbv zeta. split; [vm_compute; by split|].
  destruct half_way_run as [before Hrun].
  refine (proj1 (nothing_concluded_after_restart example_config before half_way
    (Call_RotateIncarnation 2 1 1015) rotated
    (trace rotated rotation_schedule) (after rotated rotation_schedule) example_config_ok Hrun
    (call_step half_way _) _ (after_run rotated rotation_schedule) _)).
  - split; [vm_compute; reflexivity|exact I].
  - vm_compute. repeat constructor.
Defined.

Lemma refused_calls_change_nothing_witness :
  let e := sys_engine ready in
  let stale := Call_RotateIncarnation 1 1 1015 in
  engine_ok e /\ status_ok (call_status stale e) = false /\ same_but_counters e (exec_call stale e).
Proof.
  cbv zeta. assert (H : engine_ok (sys_engine ready)).
  { apply (sy_engine _ (proj1 (run_ok _ _ _ _ ready_run (initial_system_ok _ example_config_ok)))). }
  split; [exact H|]. split; [vm_compute; reflexivity|].
  apply (proj1 (refused_calls_change_nothing _ H)). vm_compute. reflexivity.
Defined.

(** ** What interleaving breaks *)

(** A load neither rotates the incarnation nor waits: an evaluation in flight of
    the live epoch is published and applied to the ledger that was loaded, with
    what it concluded from the evidence of the ledger that is gone. *)
Lemma load_does_not_fence c e input policy out ledger status report :
  is_load c = true ->
  decoded_by (cfg_limits (eng_config e)) c = Some (status, ledger, report) -> status_ok status = true ->
  halted e = false -> not_admitting e = false -> ei_epoch input = cfg_epoch (eng_config e) ->
  ei_incarnation input = cfg_incarnation (eng_config e) ->
  eng_ledger (publish_evaluation input policy out true (exec_call c e)).2 =
    exec ledger (Mut_ApplyEvaluation (outcome_of input out) policy (ei_now input)).
Proof.
  intros Hc Hd Hs Hh Hn He Hi.
  assert (Hx : exec_call c e = count (fun c => c <| ct_recoveries ::= bump |>) (e <| eng_ledger := ledger |>)).
  { destruct c; try done; cbn [exec_call]; rewrite Hd; unfold install_recovered; by rewrite Hs. }
  rewrite Hx. unfold publish_evaluation. cbv zeta. unfold halted in Hh. apply orb_false_iff in Hh as [Hc1 Hc2].
  set (e1 := _ <| eng_active_evaluations ::= _ |>).
  change (eng_cancelled e1) with (eng_cancelled e). change (eng_stopping e1) with (eng_stopping e).
  change (not_admitting e1) with (not_admitting e). change (eng_config e1) with (eng_config e).
  change (eng_ledger e1) with ledger. rewrite Hc1, Hc2, Hn, He, Hi, !Z.eqb_refl. cbn [negb orb exec].
  destruct (ApplyEvaluation _ _ _ _) as [[st r] l]. by destruct (negb (status_ok st)).
Qed.

(** A configuration that does not require a started runtime admits evaluations
    after [Stop], which then may wait for ever. *)
Example unstarted_runtime_admits_evaluations :
  let config := example_config <| cfg_require_started := false |> in
  let s := after (initial_system config) [Ev_Call Call_Start; Ev_Call Call_Stop; Ev_Begin 0 1010 true] in
  gauge s = (false, true, 0, 0, 1) /\ Stop_may_return (sys_engine s) = false.
Proof. vm_compute. split; reflexivity. Qed.

(** A cancellation that is requested and cleared while the targets are compared
    is lost: the threads saw it and left their targets uncompared, but the
    outcome is published as a success. *)
Example cleared_cancellation_publishes_a_torn_outcome :
  let s := after ready [Ev_Begin 0 1010 true; Ev_Policy 0; Ev_Call Call_RequestCancellation;
    Ev_Advance 0 0; Ev_Advance 0 1; Ev_Call Call_ClearCancellation] in
  map te_target (out_targets (published s 0)) = [""; ""] /\
  gauge (after s [publish 0]) = (true, false, 1, 0, 0).
Proof. vm_compute. split; reflexivity. Qed.

(** The same when the runtime is stopped and started again meanwhile. *)
Example restart_publishes_a_torn_outcome :
  let s := after ready [Ev_Begin 0 1010 true; Ev_Policy 0; Ev_Call Call_Stop;
    Ev_Advance 0 0; Ev_Advance 0 1; Ev_Call Call_Start] in
  map te_target (out_targets (published s 0)) = [""; ""] /\
  gauge (after s [publish 0]) = (true, false, 1, 0, 0).
Proof. vm_compute. split; reflexivity. Qed.

(** A policy installed after the input was built is the one that classifies, and
    the outcome carries the identity and the digest of the old one. *)
Definition strict_policy : ObservatoryPolicy :=
  Policy_Default <| pol_id := "policy/strict" |> <| pol_default_severity := Sev_Critical |>.

Example policy_replaced_under_an_evaluation :
  let s := after ready [Ev_Begin 0 1010 true; Ev_Call (Call_SetPolicy strict_policy 1010); Ev_Policy 0;
    Ev_Advance 0 0; Ev_Advance 0 1] in
  let outcome := published s 0 in
  out_policy outcome = "policy/default" /\
  out_policy_digest outcome = Policy_ComputeDigest (cfg_policy (eng_config (sys_engine ready))) /\
  map dr_severity (flat_map te_drafts (out_targets outcome)) = [Sev_Critical] /\
  SeverityFor (cfg_policy (eng_config (sys_engine ready))) "u" "@target" [] DC_StaleObservation = Sev_Medium.
Proof. vm_compute. split_and!; reflexivity. Qed.

(** [Start] refuses a policy that does not declare its evidence class;
    [SetPolicy] installs one in a started runtime. *)
Example undeclared_evidence_is_installed :
  pol_evidence strict_policy = EC_Unknown /\
  (SetPolicy strict_policy 1010 (sys_engine ready)).1 = Status_Ok /\
  (Start ((sys_engine (initial_system example_config))
     <| eng_config ::= fun c => c <| cfg_policy := strict_policy |> |>)).1 <> Status_Ok.
Proof. vm_compute. split_and!; [reflexivity..|discriminate]. Qed.
