(* ===== verification/Server.v ===== *)
(** * The observation server

    server.hpp/server.cpp: the fences of the transport authority, the session
    table, and a session: reading a frame, the handlers of the frame types, the
    loop.  A socket is a [Transport], the interface of net.hpp over the operating
    system's sockets.  A handler is a function on the server and the socket; the
    sections it runs under [fence_mutex_] are the functions [fence_hello] and
    [FenceSnapshot] on the fences alone, so that the facts about any sequence of
    them hold whatever the sessions do in between. *)

From Stdlib Require Import ZArith Lia List Bool Sorting.Sorted Ascii String.
From stdpp Require Import base tactics list strings relations.
From S2P Require Import Prelude Containers Text Status Time Hash Identity Double Value Intent Observation.
From S2P Require Import Freshness Policy Ledger LedgerApply LedgerFacts.
From S2P Require Import Json JsonGrammar JsonTokens JsonCodec JsonHelp Wire Interchange Query Engine.
#[local] Open Scope string_scope.
#[local] Open Scope Z_scope.
#[local] Arguments String.append : simpl nomatch.

(** ** Sockets *)

(** [Socket::SendAll] and [Socket::ReceiveSome]: a status, and the bytes that
    arrived, none of them when the peer closed. *)
Class Transport (T : Type) := {
  SendAll : list Z -> T -> Status * T;
  ReceiveSome : Z -> T -> Status * list Z * T
}.

(** What the kernel promises of a read: no more than was asked for. *)
Class TransportLaws (T : Type) `{Transport T} := {
  receive_bounded size socket status bytes socket' :
    0 <= size -> ReceiveSome size socket = (status, bytes, socket') ->
    Forall is_byte bytes /\ vsize bytes <= size
}.

(** ** Data *)

Record ServerConfig := mkServerConfig {
  sc_bind_address : string;
  sc_port : Z;
  sc_backlog : Z;
  sc_limits : RuntimeLimits;
  sc_session_idle_timeout_millis : Z
}.

Record ServerStats := mkServerStats {
  ss_sessions_accepted : Z;
  ss_sessions_refused : Z;
  ss_sessions_closed : Z;
  ss_frames_received : Z;
  ss_frames_sent : Z;
  ss_frames_refused : Z;
  ss_snapshots_admitted : Z;
  ss_snapshots_refused : Z;
  ss_intents_admitted : Z;
  ss_stale_fenced : Z;
  ss_idle_expired : Z;
  ss_active_sessions : Z;
  ss_high_water_sessions : Z
}.

#[export] Instance eta_ServerStats : Eta ServerStats := fun s =>
  mkServerStats (ss_sessions_accepted s) (ss_sessions_refused s) (ss_sessions_closed s)
    (ss_frames_received s) (ss_frames_sent s) (ss_frames_refused s) (ss_snapshots_admitted s)
    (ss_snapshots_refused s) (ss_intents_admitted s) (ss_stale_fenced s) (ss_idle_expired s)
    (ss_active_sessions s) (ss_high_water_sessions s).

Definition zero_stats : ServerStats := mkServerStats 0 0 0 0 0 0 0 0 0 0 0 0 0.

Record SourceFence := mkFence {
  fence_source : string;
  fence_epoch : Z;
  fence_incarnation : Z;
  fence_sequence : Z;
  fence_content_digest : Digest
}.

#[export] Instance eta_SourceFence : Eta SourceFence := fun f =>
  mkFence (fence_source f) (fence_epoch f) (fence_incarnation f) (fence_sequence f)
    (fence_content_digest f).

Definition empty_fence : SourceFence := mkFence "" 0 0 0 zero_digest.

Definition Fences : Type := omap string SourceFence.

Record SessionContext := mkSession {
  ctx_source : string;
  ctx_epoch : Z;
  ctx_incarnation : Z;
  ctx_sequence : Z;
  ctx_session_id : Z;
  ctx_handshaken : bool;
  ctx_in_flight : Z
}.

#[export] Instance eta_SessionContext : Eta SessionContext := fun c =>
  mkSession (ctx_source c) (ctx_epoch c) (ctx_incarnation c) (ctx_sequence c) (ctx_session_id c)
    (ctx_handshaken c) (ctx_in_flight c).

Definition new_session (id : Z) : SessionContext := mkSession "" 0 0 0 id false 0.

(** The table of sessions keeps of a slot whether its session is done; its
    socket and its thread are the [Connection] of Service.v. *)
Record ObservationServer := mkServer {
  srv_observatory : Observatory;
  srv_config : ServerConfig;
  srv_running : bool;
  srv_stop_requested : bool;
  srv_accepting : bool;
  srv_sessions : omap Z bool;
  srv_fences : Fences;
  srv_next_session_id : Z;
  srv_stats : ServerStats;
  srv_bound_port : Z
}.

#[export] Instance eta_ObservationServer : Eta ObservationServer := fun s =>
  mkServer (srv_observatory s) (srv_config s) (srv_running s) (srv_stop_requested s)
    (srv_accepting s) (srv_sessions s) (srv_fences s) (srv_next_session_id s) (srv_stats s)
    (srv_bound_port s).

Definition new_server (observatory : Observatory) (config : ServerConfig) : ObservationServer :=
  mkServer observatory config false false false [] [] 1 zero_stats 0.

Definition tally (f : ServerStats -> ServerStats) (s : ObservationServer) : ObservationServer :=
  s <| srv_stats ::= f |>.

Definition server_limits (s : ObservationServer) : RuntimeLimits := sc_limits (srv_config s).

(** ** Lifecycle and the session table *)

(** [networking] and [listener] are what the operating system answers: a status,
    and the port the listener is bound to. *)
Definition Server_Start (networking : Status) (listener : Status + Z) (s : ObservationServer)
    : Status * ObservationServer :=
  if srv_running s then (Status_Precondition RC_None "the server is already running", s)
  else if negb (status_ok networking) then (networking, s)
  else
    match listener with
    | inl status => (status, s)
    | inr port =>
        let s := s <| srv_bound_port := port |> in
        if port =? 0
        then (Status_Rejected RC_WireSessionClosed "the listener did not report a port", s)
        else (Status_Ok, s <| srv_stop_requested := false |> <| srv_running := true |>
                           <| srv_accepting := true |>)
    end.

(** [Stop], in the order of the code.  Nothing is left to stop; admission ends; with
    the accept thread joined the table gives up its threads and is cleared; and
    with those joined the live count is zero. *)
Definition nothing_to_stop (s : ObservationServer) : bool := negb (srv_running s) && negb (srv_accepting s).

Definition end_admission (s : ObservationServer) : ObservationServer :=
  s <| srv_stop_requested := true |> <| srv_running := false |>.

Definition take_sessions (s : ObservationServer) : list Z * ObservationServer :=
  (map fst (srv_sessions s), s <| srv_accepting := false |> <| srv_sessions := [] |>).

Definition sessions_joined (s : ObservationServer) : ObservationServer :=
  tally (fun t => t <| ss_active_sessions := 0 |>) s.

Definition ReapFinishedSessions (s : ObservationServer) : ObservationServer :=
  s <| srv_sessions ::= List.filter (fun entry => negb (snd entry)) |>.

Definition Server_Stats (s : ObservationServer) : ServerStats * ObservationServer :=
  let s := ReapFinishedSessions s in
  ((srv_stats s) <| ss_active_sessions := vsize (srv_sessions s) |>, s).

Definition FenceFor (source : string) (s : ObservationServer) : option SourceFence :=
  mfind source (srv_fences s).

(** What a refused peer is told. *)
Definition refusal_frame (s : ObservationServer) : Decoded (list Z) :=
  EncodeFrame FT_ErrorFrame 0 0
    (WriteCanonicalJson (EncodeError RC_WireSessionLimitExceeded "the server is at its session limit"))
    (server_limits s).

(** One iteration of [AcceptLoop] with a connection at hand: the id of the new
    session, or none when the peer is refused. *)
Definition AcceptConnection (s : ObservationServer) : option Z * ObservationServer :=
  let s := ReapFinishedSessions s in
  let session_id := srv_next_session_id s in
  let s := s <| srv_next_session_id ::= bump |> in
  if max_sessions (server_limits s) <=? vsize (srv_sessions s)
  then (None, tally (fun t => t <| ss_sessions_refused ::= bump |>) s)
  else
    (Some session_id,
     tally (fun t =>
         let t := t <| ss_sessions_accepted ::= bump |> in
         if ss_high_water_sessions t <? wrap64 (ss_active_sessions t + 1)
         then t <| ss_high_water_sessions := wrap64 (ss_active_sessions t + 1) |> else t)
       (s <| srv_sessions ::= memplace session_id false |>)).

(** The end of a session's thread. *)
Definition FinishSession (session_id : Z) (s : ObservationServer) : ObservationServer :=
  tally (fun t => t <| ss_sessions_closed ::= bump |>)
    (match mfind session_id (srv_sessions s) with
     | Some _ => s <| srv_sessions ::= minsert session_id true |>
     | None => s
     end).

(** ** Fences *)

(** The greeting under [fence_mutex_]: the refusal, whether it is counted as
    fenced, and the fences. *)
Definition fence_hello (hello : HelloPayload) (fences : Fences)
    : option (ReasonCode * string) * bool * Fences :=
  let source := hello_source hello in
  let stale :=
    match mfind source fences with
    | Some fence =>
        if hello_epoch hello <? fence_epoch fence
        then Some (RC_FencedStaleEpoch, "the source epoch precedes the fenced epoch")
        else if (hello_epoch hello =? fence_epoch fence) &&
                (hello_incarnation hello <? fence_incarnation fence)
        then Some (RC_FencedStaleIncarnation, "the source incarnation precedes the fenced incarnation")
        else None
    | None => None
    end in
  match stale with
  | Some refusal => (Some refusal, true, fences)
  | None =>
      let fences := memplace source empty_fence fences in
      let fence := mget empty_fence source fences in
      let known := negb (String.eqb (fence_source fence) "") in
      if known && (hello_incarnation hello <? fence_incarnation fence)
      then (Some (RC_FencedStaleIncarnation, "the source incarnation precedes the fenced incarnation"),
            false, fences)
      else
        let new_incarnation := known && (fence_incarnation fence <? hello_incarnation hello) in
        let fence := fence <| fence_source := source |> <| fence_epoch := hello_epoch hello |>
                           <| fence_incarnation := hello_incarnation hello |> in
        let fence := if new_incarnation
                     then fence <| fence_sequence := 0 |> <| fence_content_digest := zero_digest |>
                     else fence in
        (None, false, minsert source fence fences)
  end.

(** [FenceSnapshot]: the reason of a refusal, and the fences. *)
Definition FenceSnapshot (source : string) (epoch incarnation sequence : Z) (digest : Digest)
    (fences : Fences) : option ReasonCode * Fences :=
  let fences := memplace source empty_fence fences in
  let fence := mget empty_fence source fences in
  let marked := mkFence source epoch incarnation sequence digest in
  if String.eqb (fence_source fence) "" then (None, minsert source marked fences)
  else
    let set f := minsert source f fences in
    if negb (epoch =? fence_epoch fence) || negb (incarnation =? fence_incarnation fence)
    then
      if epoch <? fence_epoch fence then (Some RC_FencedStaleEpoch, fences)
      else if (epoch =? fence_epoch fence) && (incarnation <? fence_incarnation fence)
      then (Some RC_FencedStaleIncarnation, fences)
      else (None, set (fence <| fence_epoch := epoch |> <| fence_incarnation := incarnation |>
                             <| fence_sequence := sequence |> <| fence_content_digest := digest |>))
    else
      let advanced := set (fence <| fence_sequence := sequence |> <| fence_content_digest := digest |>) in
      if negb (uint_is_set (fence_sequence fence)) && negb (Digest_is_set (fence_content_digest fence))
      then (None, advanced)
      else if sequence <? fence_sequence fence then (Some RC_FencedStaleSequence, fences)
      else if (sequence =? fence_sequence fence) && negb (eqb digest (fence_content_digest fence))
      then (Some RC_ObservationDuplicateConflicting, fences)
      else if fence_sequence fence <? sequence then (None, advanced)
      else (None, fences).

(** ** Frames on a socket *)

Section Session.
Context {T : Type} `{Transport T}.

(** Reads until [want] bytes are there; [closed] is the refusal when the peer
    closes first.  Every read that does not end the loop brings a byte, so as
    many rounds as bytes are enough. *)
Fixpoint receive_until (fuel : nat) (want : Z) (closed : Status) (got : list Z) (socket : T)
    : Decoded (list Z) * T :=
  if want <=? vsize got then (inr got, socket)
  else
    match fuel with
    | O => (inl closed, socket)
    | S fuel' =>
        let '(status, bytes, socket) := ReceiveSome (want - vsize got) socket in
        if negb (status_ok status) then (inl status, socket)
        else if vsize bytes =? 0 then (inl closed, socket)
        else receive_until fuel' want closed (got ++ bytes)%list socket
    end.

Definition ReceiveExact (size : Z) (socket : T) : Decoded (list Z) * T :=
  receive_until (Z.to_nat size) size
    (Status_Rejected RC_WireFrameTruncated "the peer closed before the frame was complete") [] socket.

(** The 28 bytes of a header: a peer that closes before the first has closed the
    session, one that closes later has truncated a frame. *)
Definition ReadHeader (socket : T) : Decoded (list Z) * T :=
  let '(status, bytes, socket) := ReceiveSome kFrameHeaderBytes socket in
  if negb (status_ok status) then (inl status, socket)
  else if vsize bytes =? 0
  then (inl (Status_Rejected RC_WireSessionClosed "the peer closed the session"), socket)
  else
    receive_until (Z.to_nat kFrameHeaderBytes) kFrameHeaderBytes
      (Status_Rejected RC_WireFrameTruncated "the frame header is truncated") bytes socket.

Definition ReadFrame (limits : RuntimeLimits) (socket : T) : Decoded (FrameHeader * list Z) * T :=
  let '(raw, socket) := ReadHeader socket in
  match dbind raw (fun bytes => DecodeFrameHeader bytes limits) with
  | inl status => (inl status, socket)
  | inr header =>
      let '(payload, socket) := ReceiveExact (fh_payload_bytes header) socket in
      (let? payload := payload in
       check VerifyFramePayload header payload then inr (header, payload), socket)
  end.

(** The server and the socket a handler works on. *)
Definition Shared : Type := (ObservationServer * T)%type.

Definition SendFrame (type : FrameType) (flags sequence : Z) (payload : Value) (s : Shared)
    : Status * Shared :=
  let '(server, socket) := s in
  match EncodeFrame type flags sequence (WriteCanonicalJson payload) (server_limits server) with
  | inl status => (status, s)
  | inr frame =>
      let '(status, socket) := SendAll frame socket in
      if negb (status_ok status) then (status, (server, socket))
      else (Status_Ok, (tally (fun t => t <| ss_frames_sent ::= bump |>) server, socket))
  end.

Definition SendError (reason : ReasonCode) (detail : string) (s : Shared) : Status * Shared :=
  SendFrame FT_ErrorFrame 0 0 (EncodeError reason detail) s.

Definition on_server (f : ObservationServer -> ObservationServer) (s : Shared) : Shared :=
  (f (fst s), snd s).

(** [SendError(...); return status;] *)
Definition refuse (status : Status) (s : Shared) : Status * Shared :=
  (status, snd (SendError (st_reason status) (st_detail status) s)).

(** ** Handlers *)

(** The descriptor of a source that greets. *)
Definition greeting_descriptor (hello : HelloPayload) (now : NdoTime) : SourceDescriptor :=
  mkSourceDescriptor (hello_source hello) (hello_capabilities hello) now (hello_epoch hello)
    (hello_incarnation hello) (hello_provenance hello) (cap_evidence (hello_capabilities hello)).

(** The registration of an accepted greeting with the observatory: its refusal. *)
Definition register_greeting (hello : HelloPayload) (now : NdoTime) (server : ObservationServer)
    : option (ReasonCode * string) * ObservationServer :=
  let '(registration, observatory) :=
    RegisterSource (greeting_descriptor hello now) (srv_observatory server) in
  (if status_ok registration then None else Some (st_reason registration, st_detail registration),
   server <| srv_observatory := observatory |>).

(** The fence first, then the registry. *)
Definition admit_hello (hello : HelloPayload) (now : NdoTime) (server : ObservationServer)
    : option (ReasonCode * string) * ObservationServer :=
  let '(refusal, counted, fences) := fence_hello hello (srv_fences server) in
  let server := server <| srv_fences := fences |> in
  let server := if counted : bool then tally (fun t => t <| ss_stale_fenced ::= bump |>) server
                else server in
  match refusal with
  | Some why => (Some why, server)
  | None => register_greeting hello now server
  end.

Definition hello_answer (refusal : option (ReasonCode * string)) (context : SessionContext)
    (server : ObservationServer) : HelloAckPayload :=
  let config := eng_config (srv_observatory server) in
  mkHelloAck (match refusal with None => true | Some _ => false end)
    (match refusal with None => RC_None | Some why => fst why end) kWireProtocolVersion
    (cfg_epoch config) (cfg_incarnation config) (ctx_session_id context)
    (wrap32 (max_wire_payload_bytes (server_limits server)))
    (match refusal with None => "" | Some why => snd why end).

Definition HandleHello (payload : list Z) (now : NdoTime) (context : SessionContext) (s : Shared)
    : Status * SessionContext * Shared :=
  let limits := server_limits (fst s) in
  match parse_document DecodeHello (string_of_bytes payload) limits with
  | inl status => let '(status, s) := refuse status s in (status, context, s)
  | inr hello =>
      let '(refusal, server) := admit_hello hello now (fst s) in
      let ack := hello_answer refusal context server in
      let '(status, s) := SendFrame FT_HelloAck 0 0 (EncodeHelloAck ack) (server, snd s) in
      if negb (status_ok status) then (status, context, s)
      else if negb (ha_accepted ack)
      then (Status_Rejected RC_WireHandshakeRejected (ha_detail ack), context,
            on_server (tally (fun t => t <| ss_sessions_refused ::= bump |>)) s)
      else
        (Status_Ok,
         context <| ctx_source := hello_source hello |> <| ctx_epoch := hello_epoch hello |>
                 <| ctx_incarnation := hello_incarnation hello |>
                 <| ctx_sequence := hello_start_sequence hello |> <| ctx_handshaken := true |>, s)
  end.

(** [SendFrame(...); ++stats...; return Ok;]: a refused snapshot does not end
    the session. *)
Definition refuse_snapshot (ack : AckPayload) (stale : bool) (s : Shared) : Status * Shared :=
  let '(_, s) := SendFrame FT_SnapshotAck 0 0 (EncodeAck ack) s in
  (Status_Ok,
   on_server (tally (fun t =>
     let t := t <| ss_snapshots_refused ::= bump |> in
     if stale then t <| ss_stale_fenced ::= bump |> else t)) s).

(** What a snapshot has to pass before it reaches the observatory: the authority
    the session greeted with, then the fence. *)
Definition admit_snapshot (snapshot : ObservationSnapshot) (context : SessionContext)
    (server : ObservationServer) : option (ReasonCode * string * bool) * ObservationServer :=
  if negb (eqb (snap_source snapshot) (ctx_source context))
  then (Some (RC_AuthorityMismatch, "the snapshot source differs from the handshaken source", false), server)
  else if negb (snap_incarnation snapshot =? ctx_incarnation context) ||
          negb (snap_epoch snapshot =? ctx_epoch context)
  then (Some (RC_FencedStaleIncarnation,
          "the snapshot authority differs from the handshaken authority", true), server)
  else
    let '(refusal, fences) :=
      FenceSnapshot (snap_source snapshot) (snap_epoch snapshot) (snap_incarnation snapshot)
        (snap_sequence snapshot) (Snapshot_ComputeContentDigest snapshot) (srv_fences server) in
    (option_map (fun reason => (reason, "the snapshot was fenced by the transport authority", true)) refusal,
     server <| srv_fences := fences |>).

Definition HandleSnapshot (payload : list Z) (now : NdoTime) (context : SessionContext) (s : Shared)
    : Status * Shared :=
  match ParseObservationJson (string_of_bytes payload) (server_limits (fst s)) with
  | inl status =>
      refuse_snapshot (empty_ack <| ack_reason := st_reason status |> <| ack_detail := st_detail status |>)
        false s
  | inr snapshot =>
      let ack := empty_ack <| ack_sequence := snap_sequence snapshot |>
                           <| ack_snapshot := snap_id snapshot |> in
      let '(refusal, server) := admit_snapshot snapshot context (fst s) in
      let s := (server, snd s) in
      match refusal with
      | Some (reason, detail, stale) =>
          refuse_snapshot (ack <| ack_reason := reason |> <| ack_detail := detail |>) stale s
      | None =>
          let '(ingest, admission, observatory) :=
            IngestObservation snapshot now empty_admission (srv_observatory server) in
          let accepted := status_ok ingest in
          let ack := ack <| ack_accepted := accepted |>
            <| ack_reason := if accepted then RC_None else st_reason ingest |>
            <| ack_detail := st_detail ingest |> <| ack_snapshot := ad_snapshot admission |> in
          let server := server <| srv_observatory := observatory |> in
          let server := tally (fun t => if accepted then t <| ss_snapshots_admitted ::= bump |>
                                        else t <| ss_snapshots_refused ::= bump |>) server in
          SendFrame FT_SnapshotAck 0 0 (EncodeAck ack) (server, snd s)
      end
  end.

Definition HandleIntent (payload : list Z) (now : NdoTime) (s : Shared) : Status * Shared :=
  match ParseIntentJson (string_of_bytes payload) (server_limits (fst s)) with
  | inl status =>
      let ack := empty_ack <| ack_reason := st_reason status |> <| ack_detail := st_detail status |> in
      (Status_Ok, snd (SendFrame FT_IntentAck 0 0 (EncodeAck ack) s))
  | inr intent =>
      let '(committed, report, observatory) :=
        PublishIntent intent now empty_commit_report (srv_observatory (fst s)) in
      let accepted := status_ok committed in
      let ack := empty_ack <| ack_generation := doc_generation intent |> <| ack_accepted := accepted |>
        <| ack_reason := if accepted then RC_None else st_reason committed |>
        <| ack_detail := st_detail committed |> in
      let server := (fst s) <| srv_observatory := observatory |> in
      let server := if accepted then tally (fun t => t <| ss_intents_admitted ::= bump |>) server
                    else server in
      SendFrame FT_IntentAck 0 0 (EncodeAck ack) (server, snd s)
  end.

Definition EncodeHeartbeat (context : SessionContext) : Value :=
  V_Map (make_map [("schema", V_String "ndo/heartbeat/1"); ("session_id", MakeUint (ctx_session_id context))]).

Definition HandleFrame (header : FrameHeader) (payload : list Z) (now : NdoTime)
    (context : SessionContext) (s : Shared) : Status * SessionContext * Shared :=
  let keep (r : Status * Shared) := (fst r, context, snd r) in
  if negb (ctx_handshaken context) && negb (eqb (fh_type header) FT_Hello)
  then
    (Status_Rejected RC_WireHandshakeRequired "handshake required", context,
     snd (SendError RC_WireHandshakeRequired "the session has not completed a handshake" s))
  else
    match fh_type header with
    | FT_Hello => HandleHello payload now context s
    | FT_Snapshot => keep (HandleSnapshot payload now context s)
    | FT_Intent => keep (HandleIntent payload now s)
    | FT_Heartbeat => keep (SendFrame FT_Heartbeat 0 (fh_sequence header) (EncodeHeartbeat context) s)
    | FT_Bye => (Status_Rejected RC_WireSessionClosed "the peer closed the session", context, s)
    | _ =>
        (Status_Rejected RC_WireFrameTypeUnsupported "unsupported frame type", context,
         snd (SendError RC_WireFrameTypeUnsupported "the frame type is not accepted here" s))
    end.

(** ** The loop of a session *)

(** A frame that could not be read: the peer is told, unless it is gone. *)
Definition read_failed (status : Status) (s : Shared) : Shared :=
  if eqb (st_reason status) RC_WireSessionClosed then s
  else
    let expired := eqb (st_reason status) RC_WireSessionIdleExpired ||
                   eqb (st_reason status) RC_WireFrameTruncated in
    let s := on_server (tally (fun t =>
      let t := if expired then t <| ss_idle_expired ::= bump |> else t in
      t <| ss_frames_refused ::= bump |>)) s in
    snd (SendError (st_reason status) (st_detail status) s).

(** One round of [SessionLoop]: whether there is a next one. *)
Definition session_round (now : NdoTime) (context : SessionContext) (s : Shared)
    : bool * SessionContext * Shared :=
  let '(frame, socket) := ReadFrame (server_limits (fst s)) (snd s) in
  let s := (fst s, socket) in
  match frame with
  | inl status => (false, context, read_failed status s)
  | inr (header, payload) =>
      let s := on_server (tally (fun t => t <| ss_frames_received ::= bump |>)) s in
      let '(handled, context, s) := HandleFrame header payload now context s in
      (status_ok handled && (Z.land (fh_flags header) FF_Final =? 0), context, s)
  end.

(** The session: each round at its time, until it ends or the clock runs out;
    the stop flag is read before every round. *)
Fixpoint SessionLoop (times : list NdoTime) (context : SessionContext) (s : Shared)
    : SessionContext * Shared :=
  match times with
  | [] => (context, s)
  | now :: times' =>
      if srv_stop_requested (fst s) then (context, s)
      else
        let '(next, context, s) := session_round now context s in
        if next then SessionLoop times' context s else (context, s)
  end.

(** [ServeSingleSession] once a connection was accepted. *)
Definition ServeSingleSession (times : list NdoTime) (s : Shared) : Status * Shared :=
  let server := tally (fun t => t <| ss_sessions_accepted ::= bump |>) (fst s) in
  let id := srv_next_session_id server in
  let server := server <| srv_next_session_id ::= bump |> in
  let '(_, s) := SessionLoop times (new_session id) (server, snd s) in
  (Status_Ok, on_server (tally (fun t => t <| ss_sessions_closed ::= bump |>)) s).
End Session.

(** ** A scripted socket *)

(** The chunks that will arrive and the frames that were sent. *)
Record Script := mkScript { script_incoming : list (list Z); script_sent : list (list Z) }.

#[export] Instance scripted : Transport Script := {|
  SendAll bytes s := (Status_Ok, mkScript (script_incoming s) (script_sent s ++ [bytes])%list);
  ReceiveSome size s :=
    match script_incoming s with
    | [] => (Status_Ok, [], s)
    | chunk :: rest =>
        let bytes := List.filter (fun b => (0 <=? b) && (b <? 256)) chunk in
        let taken := firstn (Z.to_nat size) bytes in
        let left := skipn (Z.to_nat size) bytes in
        (Status_Ok, taken, mkScript (if vsize left =? 0 then rest else left :: rest) (script_sent s))
    end
|}.

(** Reads frames until one is refused: the frames, and the refusal. *)
Fixpoint read_frames {T} `{Transport T} (fuel : nat) (limits : RuntimeLimits) (socket : T)
    : list (FrameHeader * list Z) * option Status :=
  match fuel with
  | O => ([], None)
  | S fuel' =>
      match ReadFrame limits socket with
      | (inl status, _) => ([], Some status)
      | (inr frame, socket) =>
          let '(frames, status) := read_frames fuel' limits socket in (frame :: frames, status)
      end
  end.

(** A frame as a sender means it. *)
Record Framed := mkFramed {
  framed_type : FrameType; framed_flags : Z; framed_sequence : Z; framed_payload : list Z }.

Definition framed_bytes (f : Framed) : list Z :=
  frame_bytes (framed_type f) (framed_flags f) 0 (framed_sequence f) (framed_payload f).

Definition framed_read (f : Framed) : FrameHeader * list Z :=
  (frame_header (framed_type f) (framed_flags f) (framed_sequence f) (framed_payload f), framed_payload f).

Definition framed_ok (limits : RuntimeLimits) (f : Framed) : Prop :=
  is_u16 (framed_flags f) /\ is_u64 (framed_sequence f) /\ Forall is_byte (framed_payload f) /\
  vsize (framed_payload f) <= UINT32_MAX /\ vsize (framed_payload f) <= max_wire_payload_bytes limits.

(** What a peer sends arrives in chunks of its kernel's choosing. *)
Definition chunks_ok (chunks : list (list Z)) : Prop :=
  Forall (fun c => c <> [] /\ Forall is_byte c) chunks.

(** ** A session, from the bytes *)

Fixpoint chop (fuel n : nat) (bytes : list Z) : list (list Z) :=
  match fuel, bytes with
  | O, _ | _, [] => []
  | S fuel', _ => firstn n bytes :: chop fuel' n (skipn n bytes)
  end.

Definition demo_frame (type : FrameType) (v : Value) : Framed :=
  mkFramed type 0 1 (string_bytes (WriteCanonicalJson v)).

Definition demo_frames : list Framed :=
  [ demo_frame FT_Hello (EncodeHello example_hello);
    demo_frame FT_Intent (EncodeIntentDocument example_intent);
    demo_frame FT_Snapshot (EncodeObservationDocument example_snapshot) ].

Definition demo_chunks : list (list Z) := chop 100 100 (concat (map framed_bytes demo_frames)).

Definition demo_server : ObservationServer :=
  new_server (snd (Start (new_observatory
      (mkConfig (Policy_Default <| pol_evidence := EC_Real |>) default_limits 3 1 2 true false))))
    (mkServerConfig "" 0 0 default_limits 0).

Definition demo_times : list NdoTime :=
  [1700000000000000100; 1700000000000000101; 1700000000000000102; 1700000000000000103].

Definition demo : SessionContext * Shared :=
  SessionLoop demo_times (new_session 1) (demo_server, mkScript demo_chunks []).

(** What the session left: who greeted, what was counted, the mark of the
    source, the intent of the target, how many answers were sent. *)
Definition demo_outcome (r : SessionContext * Shared) :=
  let '(context, (server, socket)) := r in
  (ctx_handshaken context,
   (ss_frames_received (srv_stats server), ss_intents_admitted (srv_stats server),
    ss_snapshots_admitted (srv_stats server)),
   option_map fence_sequence (FenceFor "collector/eth" server),
   map fst (lg_baselines (eng_ledger (srv_observatory server))),
   length (script_sent socket)).

(** ** The fences under any sequence of greetings and snapshots *)

Inductive FenceOp :=
| Greet (hello : HelloPayload)
| Publish (source : string) (epoch incarnation sequence : Z) (digest : Digest).

Definition op_source (op : FenceOp) : string :=
  match op with Greet hello => hello_source hello | Publish source _ _ _ _ => source end.

(** Whether the operation is accepted, and the fences after it. *)
Definition fence_op (op : FenceOp) (fences : Fences) : bool * Fences :=
  match op with
  | Greet hello =>
      let '(refusal, _, fences) := fence_hello hello fences in
      (match refusal with None => true | Some _ => false end, fences)
  | Publish source epoch incarnation sequence digest =>
      let '(refusal, fences) := FenceSnapshot source epoch incarnation sequence digest fences in
      (match refusal with None => true | Some _ => false end, fences)
  end.

(** The accepted operations of a sequence, in order, and the fences at its end. *)
Fixpoint fence_run (ops : list FenceOp) (fences : Fences) : list FenceOp * Fences :=
  match ops with
  | [] => ([], fences)
  | op :: rest =>
      let '(accepted, fences) := fence_op op fences in
      let '(later, fences) := fence_run rest fences in
      (if accepted then op :: later else later, fences)
  end.

Definition op_epoch (op : FenceOp) : Z :=
  match op with Greet hello => hello_epoch hello | Publish _ epoch _ _ _ => epoch end.
Definition op_incarnation (op : FenceOp) : Z :=
  match op with Greet hello => hello_incarnation hello | Publish _ _ incarnation _ _ => incarnation end.

(** Authorities are ordered by epoch, then incarnation. *)
Definition authority_lt (e i e' i' : Z) : Prop := e < e' \/ (e = e' /\ i < i').

(** What an accepted operation leaves for the later ones of its source: an
    authority that is not older, and under one authority a later snapshot has a
    greater sequence or is the same observation. *)
Definition consistent (a b : FenceOp) : Prop :=
  op_source a = op_source b ->
  authority_lt (op_epoch a) (op_incarnation a) (op_epoch b) (op_incarnation b) \/
  (op_epoch a = op_epoch b /\ op_incarnation a = op_incarnation b /\
   match a, b with
   | Publish _ _ _ sequence digest, Publish _ _ _ sequence' digest' =>
       sequence < sequence' \/ (sequence = sequence' /\ digest = digest')
   | _, _ => True
   end).

(** Operations of validated documents: a source and a positive sequence. *)
Definition op_ok (op : FenceOp) : Prop :=
  op_source op <> "" /\ match op with Publish _ _ _ sequence _ => 0 < sequence | Greet _ => True end.

(** ** The abstract session *)

(** The authority a session greeted with: its source, epoch and incarnation. *)
Definition Authority : Type := (string * Z * Z)%type.

Definition greeted (context : SessionContext) : option Authority :=
  if ctx_handshaken context
  then Some (ctx_source context, ctx_epoch context, ctx_incarnation context) else None.

(** What a session is about: who it speaks for, the marks of the transport
    authority, and the observatory. *)
Record Link := mkLink { link_authority : option Authority; link_fences : Fences; link_observatory : Observatory }.

(** All a session may do: operations the fence turned down move no authority;
    documents reach the observatory only behind an accepted greeting, a snapshot
    only under the authority of that greeting and only once the fence accepted it. *)
Inductive session_step : Link -> Link -> Prop :=
| session_fenced authority op fences fences' observatory :
    fence_op op fences = (false, fences') ->
    session_step (mkLink authority fences observatory) (mkLink authority fences' observatory)
| session_unregistered authority hello now fences fences' observatory :
    fence_op (Greet hello) fences = (true, fences') ->
    status_ok (fst (RegisterSource (greeting_descriptor hello now) observatory)) = false ->
    session_step (mkLink authority fences observatory) (mkLink authority fences' observatory)
| session_greets authority hello now status fences fences' observatory observatory' :
    fence_op (Greet hello) fences = (true, fences') ->
    RegisterSource (greeting_descriptor hello now) observatory = (status, observatory') ->
    status_ok status = true ->
    session_step (mkLink authority fences observatory)
      (mkLink (Some (hello_source hello, hello_epoch hello, hello_incarnation hello)) fences' observatory')
| session_observes source epoch incarnation snapshot now status admission fences fences' observatory observatory' :
    snap_source snapshot = source -> snap_epoch snapshot = epoch -> snap_incarnation snapshot = incarnation ->
    fence_op (Publish source epoch incarnation (snap_sequence snapshot)
                (Snapshot_ComputeContentDigest snapshot)) fences = (true, fences') ->
    IngestObservation snapshot now empty_admission observatory = (status, admission, observatory') ->
    session_step (mkLink (Some (source, epoch, incarnation)) fences observatory)
      (mkLink (Some (source, epoch, incarnation)) fences' observatory')
| session_intends authority intent now status report fences observatory observatory' :
    PublishIntent intent now empty_commit_report observatory = (status, report, observatory') ->
    session_step (mkLink (Some authority) fences observatory) (mkLink (Some authority) fences observatory').

Definition link_of (authority : option Authority) (server : ObservationServer) : Link :=
  mkLink authority (srv_fences server) (srv_observatory server).

(** ** Facts: fences *)

Definition fences_ok (fences : Fences) : Prop :=
  mall (fun source fence => fence_source fence = source /\ source <> "" /\ 0 <= fence_sequence fence) fences.

Definition authority_of (f : SourceFence) (op : FenceOp) : Prop :=
  fence_epoch f = op_epoch op /\ fence_incarnation f = op_incarnation op.

(** A mark moves forward. *)
Definition mark_le (f f' : SourceFence) : Prop :=
  authority_lt (fence_epoch f) (fence_incarnation f) (fence_epoch f') (fence_incarnation f') \/
  (fence_epoch f = fence_epoch f' /\ fence_incarnation f = fence_incarnation f' /\
   (fence_sequence f < fence_sequence f' \/
    (fence_sequence f = fence_sequence f' /\ fence_content_digest f = fence_content_digest f'))).

Lemma mark_le_trans f g h : mark_le f g -> mark_le g h -> mark_le f h.
Proof.
  unfold mark_le, authority_lt. intros [?|(? & ? & [?|[? E]])] [?|(? & ? & [?|[? E']])]; try (left; lia).
  all: right; split; [lia|]; split; [lia|]; try (left; lia).
  right. split; [lia|congruence].
Qed.

Lemma mark_le_refl f : mark_le f f.
Proof. right. repeat split; by right. Qed.

Lemma fences_insert (source : string) fence (fences : Fences) : fences_ok fences ->
  fence_source fence = source -> source <> "" -> 0 <= fence_sequence fence ->
  fences_ok (minsert source fence fences).
Proof. intros Hok He Hs Hq. by apply mall_insert. Qed.

Lemma fence_found (source : string) (fences : Fences) : is_Some (mfind source fences) ->
  memplace source empty_fence fences = fences /\
  mfind source fences = Some (mget empty_fence source fences).
Proof. intros [f Hf]. unfold memplace, mget. by rewrite Hf. Qed.

Lemma fence_absent (source : string) (fences : Fences) : mfind source fences = None ->
  mget empty_fence source (memplace source empty_fence fences) = empty_fence /\
  forall f, minsert source f (memplace source empty_fence fences) = minsert source f (minsert source empty_fence fences).
Proof.
  intros Hf. unfold mget. rewrite memplace_absent by done. by rewrite mfind_insert_eq.
Qed.

(** What one operation does: a refused one leaves the marks, an accepted one
    moves the mark of its source forward to its own authority. *)
Definition op_effect (op : FenceOp) (accepted : bool) (fences fences' : Fences) : Prop :=
  fences_ok fences' /\
  (forall source, source <> op_source op -> mfind source fences' = mfind source fences) /\
  if accepted then
    exists f', mfind (op_source op) fences' = Some f' /\ authority_of f' op /\
      (forall f, mfind (op_source op) fences = Some f -> mark_le f f') /\
      match op with
      | Publish _ _ _ sequence digest => fence_sequence f' = sequence /\ fence_content_digest f' = digest
      | Greet _ => True
      end
  else fences' = fences.

Lemma minsert_frame {V} source source' (f : V) (fences : omap string V) :
  source' <> source -> mfind source' (minsert source f fences) = mfind source' fences.
Proof. intros Hne. by rewrite mfind_insert_ne. Qed.

(** The new mark of an accepted operation, put where it belongs. *)
Lemma accepted_effect op fences f' : fences_ok fences -> op_source op <> "" ->
  fence_source f' = op_source op -> 0 <= fence_sequence f' -> authority_of f' op ->
  (forall f, mfind (op_source op) fences = Some f -> mark_le f f') ->
  match op with
  | Publish _ _ _ sequence digest => fence_sequence f' = sequence /\ fence_content_digest f' = digest
  | Greet _ => True
  end ->
  op_effect op true fences (minsert (op_source op) f' (memplace (op_source op) empty_fence fences)).
Proof.
  intros Hok Hne Hs Hq Ha Hle Hp. destruct (mfind (op_source op) fences) as [f|] eqn:E.
  - destruct (fence_found (op_source op) fences ltac:(by rewrite E)) as [-> _].
    split; [by apply fences_insert|]. split; [intros; by apply minsert_frame|].
    exists f'. rewrite mfind_insert_eq. split_and!; try done; intros g Hg; apply Hle; congruence.
  - rewrite memplace_absent by done. split; [|split].
    + intros source g. rewrite !mfind_insert. destruct (eqb source (op_source op)) eqn:Es; [|apply Hok].
      apply eqb_eq in Es as ->. by intros [= <-].
    + intros source Hs'. by rewrite !minsert_frame.
    + exists f'. rewrite mfind_insert_eq. split_and!; try done; intros g Hg; congruence.
Qed.

Lemma refused_effect op fences : fences_ok fences -> op_effect op false fences fences.
Proof. done. Qed.

(** The fence of an operation: the known one of its source, or a blank one. *)
Lemma fence_cases (source : string) (fences : Fences) : fences_ok fences ->
  (exists f, mfind source fences = Some f /\ memplace source empty_fence fences = fences /\
     mget empty_fence source fences = f /\ fence_source f = source /\ source <> "" /\ 0 <= fence_sequence f) \/
  (mfind source fences = None /\ mget empty_fence source (memplace source empty_fence fences) = empty_fence).
Proof.
  intros Hok. destruct (mfind source fences) as [f|] eqn:E; [left|right].
  - exists f. destruct (fence_found source fences ltac:(by rewrite E)) as [H1 H2].
    destruct (Hok source f E) as (? & ? & ?). rewrite E in H2. injection H2 as <-. done.
  - split; [done|]. by apply fence_absent.
Qed.

Lemma greet_effect hello fences accepted fences' : fences_ok fences -> hello_source hello <> "" ->
  fence_op (Greet hello) fences = (accepted, fences') -> op_effect (Greet hello) accepted fences fences'.
Proof.
  intros Hok Hne. unfold fence_op, fence_hello.
  destruct (fence_cases (hello_source hello) fences Hok) as
    [(f & Hf & Hm & Hg & Hs & _ & Hq)|(Hf & Hg)].
  - rewrite Hf, Hm, Hg. rewrite Hs, (proj2 (String.eqb_neq _ _) Hne). cbn [negb andb].
    destruct (Z.ltb_spec (hello_epoch hello) (fence_epoch f)) as [|He];
      [intros [= <- <-]; by apply refused_effect|].
    destruct (Z.ltb_spec (hello_incarnation hello) (fence_incarnation f)) as [|Hi].
    { rewrite andb_true_r. destruct (_ =? _); intros [= <- <-]; by apply refused_effect. }
    rewrite andb_false_r. intros [= <- <-].
    pose proof (accepted_effect (Greet hello) fences) as Hacc. cbn [op_source] in Hacc. rewrite Hm in Hacc.
    apply Hacc; try done; [| | |].
    + by destruct (Z.ltb_spec (fence_incarnation f) (hello_incarnation hello)).
    + by destruct (Z.ltb_spec (fence_incarnation f) (hello_incarnation hello)).
    + by destruct (Z.ltb_spec (fence_incarnation f) (hello_incarnation hello)).
    + intros g Hg'. assert (g = f) as -> by (cbn in Hg'; congruence). unfold mark_le, authority_lt.
      destruct (Z.ltb_spec (fence_incarnation f) (hello_incarnation hello)); cbn; [left; lia|].
      destruct (Z.eq_dec (hello_epoch hello) (fence_epoch f)); [|left; lia].
      right. split; [done|]. split; [lia|]. by right.
  - rewrite Hf, Hg. cbn [fence_source empty_fence String.eqb negb andb].
    intros [= <- <-]. apply (accepted_effect (Greet hello) fences); try done. cbn. intros; congruence.
Qed.

Lemma publish_effect source epoch incarnation sequence digest fences accepted fences' :
  fences_ok fences -> source <> "" -> 0 < sequence ->
  fence_op (Publish source epoch incarnation sequence digest) fences = (accepted, fences') ->
  op_effect (Publish source epoch incarnation sequence digest) accepted fences fences'.
Proof.
  intros Hok Hne Hseq. unfold fence_op, FenceSnapshot.
  pose proof (fun f' => accepted_effect (Publish source epoch incarnation sequence digest) fences f' Hok Hne) as Hacc.
  cbn [op_source] in Hacc.
  destruct (fence_cases source fences Hok) as [(f & Hf & Hm & Hg & Hs & _ & Hq)|(Hf & Hg)].
  - rewrite Hm, Hg, Hs, (proj2 (String.eqb_neq _ _) Hne). rewrite Hm in Hacc.
    destruct (negb (epoch =? fence_epoch f) || negb (incarnation =? fence_incarnation f)) eqn:Eauth.
    + destruct (Z.ltb_spec epoch (fence_epoch f)); [intros [= <- <-]; by apply refused_effect|].
      destruct ((epoch =? fence_epoch f) && (incarnation <? fence_incarnation f)) eqn:Ei;
        [intros [= <- <-]; by apply refused_effect|].
      intros [= <- <-]. apply Hacc; try done; [cbn; lia|]. intros g Hg'. assert (g = f) as -> by (cbn in Hg'; congruence).
      left. unfold authority_lt. cbn. breflect. lia.
    + apply orb_false_iff in Eauth as [E1%negb_false_iff%Z.eqb_eq E2%negb_false_iff%Z.eqb_eq].
      assert (Hadvance : fence_sequence f < sequence -> op_effect (Publish source epoch incarnation sequence digest)
        true fences (minsert source (f <| fence_sequence := sequence |> <| fence_content_digest := digest |>) fences)).
      { intros Hlt. apply Hacc; try done; [cbn; lia|]. intros g Hg'. assert (g = f) as -> by (cbn in Hg'; congruence).
        right. split; [done|]. split; [done|]. by left. }
      unfold uint_is_set. destruct (Z.eqb_spec (fence_sequence f) 0) as [Hz|Hz]; cbn [negb andb].
      * destruct (Digest_is_set (fence_content_digest f)); cbn [negb]; [|intros [= <- <-]; apply Hadvance; lia].
        destruct (Z.ltb_spec sequence (fence_sequence f)); [lia|].
        destruct (Z.eqb_spec sequence (fence_sequence f)); [lia|]. cbn [andb].
        destruct (Z.ltb_spec (fence_sequence f) sequence); [|lia]. intros [= <- <-]. by apply Hadvance.
      * destruct (Z.ltb_spec sequence (fence_sequence f)); [intros [= <- <-]; by apply refused_effect|].
        destruct (Z.eqb_spec sequence (fence_sequence f)) as [Heq|]; cbn [andb].
        -- destruct (eqb digest (fence_content_digest f)) eqn:Ed; cbn [negb];
             [|intros [= <- <-]; by apply refused_effect].
           apply eqb_eq in Ed. rewrite (proj2 (Z.ltb_ge _ _)) by lia. intros [= <- <-].
           split; [done|]. split; [done|]. exists f. split; [done|]. split; [done|].
           split; [intros g Hg'; assert (g = f) as -> by (cbn in Hg'; congruence); apply mark_le_refl|done].
        -- destruct (Z.ltb_spec (fence_sequence f) sequence); [|lia]. intros [= <- <-]. by apply Hadvance.
  - rewrite Hg. cbn [fence_source empty_fence String.eqb]. intros [= <- <-].
    apply Hacc; try done; [cbn; lia|cbn; intros; congruence].
Qed.

Lemma fence_op_effect op fences accepted fences' : fences_ok fences -> op_ok op ->
  fence_op op fences = (accepted, fences') -> op_effect op accepted fences fences'.
Proof.
  intros Hok [Hne Hseq]. destruct op; [by apply greet_effect|by apply publish_effect].
Qed.

(** The mark of an accepted operation. *)
Definition marks (op : FenceOp) (f : SourceFence) : Prop :=
  authority_of f op /\
  match op with
  | Publish _ _ _ sequence digest => fence_sequence f = sequence /\ fence_content_digest f = digest
  | Greet _ => True
  end.

(** Whatever is accepted later is marked no earlier than what is known now. *)
Lemma run_after ops (fences : Fences) : fences_ok fences -> Forall op_ok ops ->
  Forall (fun b => forall f, mfind (op_source b) fences = Some f ->
    exists f', mark_le f f' /\ marks b f') (fst (fence_run ops fences)).
Proof.
  revert fences. induction ops as [|op ops IH]; intros fences Hok Hops; cbn; [constructor|].
  inversion Hops as [|? ? Hop Hrest]; subst.
  destruct (fence_op op fences) as [accepted fences'] eqn:E.
  destruct (fence_op_effect _ _ _ _ Hok Hop E) as (Hok' & Hframe & Heff).
  destruct (fence_run ops fences') as [later fences''] eqn:Er.
  pose proof (IH fences' Hok' Hrest) as IHr. rewrite Er in IHr. cbn in IHr.
  assert (Hlater : Forall (fun b => forall f, mfind (op_source b) fences = Some f ->
    exists f', mark_le f f' /\ marks b f') later).
  { eapply Forall_impl; [exact IHr|]. intros b Hb f Hf. destruct accepted; [|subst; by apply Hb].
    destruct Heff as (g & Hg & _ & Hle & _).
    destruct (String.eqb_spec (op_source b) (op_source op)) as [Eq|Ne].
    - rewrite Eq in Hf. destruct (Hb g) as (f' & Hgf & Hm); [congruence|].
      exists f'. split; [|done]. eapply mark_le_trans; [by apply Hle|done].
    - apply Hb. by rewrite Hframe. }
  destruct accepted; [|done]. constructor; [|done].
  intros f Hf. destruct Heff as (g & Hg & Ha & Hle & Hp). exists g. split; [by apply Hle|]. by split.
Qed.

Lemma marks_consistent a b f f' : marks a f -> marks b f' -> mark_le f f' -> consistent a b.
Proof.
  intros [[Ha1 Ha2] Hpa] [[Hb1 Hb2] Hpb] Hle _. unfold mark_le, authority_lt in *.
  rewrite <- Ha1, <- Ha2, <- Hb1, <- Hb2.
  destruct Hle as [?|(? & ? & Hs)]; [by left|]. right. split; [done|]. split; [done|].
  destruct a, b; try done. destruct Hpa as [<- <-], Hpb as [<- <-]. done.
Qed.

Lemma run_consistent ops (fences : Fences) : fences_ok fences -> Forall op_ok ops ->
  StronglySorted consistent (fst (fence_run ops fences)).
Proof.
  revert fences. induction ops as [|op ops IH]; intros fences Hok Hops; cbn; [constructor|].
  inversion Hops as [|? ? Hop Hrest]; subst.
  destruct (fence_op op fences) as [accepted fences'] eqn:E.
  destruct (fence_op_effect _ _ _ _ Hok Hop E) as (Hok' & Hframe & Heff).
  destruct (fence_run ops fences') as [later fences''] eqn:Er.
  pose proof (IH fences' Hok' Hrest) as Hs. pose proof (run_after ops fences' Hok' Hrest) as Ha.
  rewrite Er in Hs, Ha. cbn in Hs, Ha. destruct accepted; [|done]. constructor; [done|].
  destruct Heff as (g & Hg & Hau & _ & Hp).
  eapply Forall_impl; [exact Ha|]. intros b Hb Hsrc. cbn in Hb.
  destruct (Hb g) as (f' & Hle & Hm); [congruence|].
  by apply (marks_consistent op b g f' (conj Hau Hp)).
Qed.

(** ** Facts: sessions *)

(** Two servers a peer cannot tell apart by authority or content. *)
Definition same_core (s s' : ObservationServer) : Prop :=
  srv_fences s' = srv_fences s /\ srv_observatory s' = srv_observatory s.

#[export] Instance same_core_po : PreOrder same_core.
Proof. split; [by split|]. intros a b c [H1 H2] [H3 H4]. split; congruence. Qed.

Lemma same_core_link authority s s' : same_core s s' -> link_of authority s' = link_of authority s.
Proof. intros [H1 H2]. unfold link_of. by rewrite H1, H2. Qed.

Lemma tally_core f s : same_core s (tally f s).
Proof. done. Qed.

Section SessionFacts.
Context {T : Type} `{Transport T}.

Lemma SendFrame_core type flags sequence payload (s : Shared (T := T)) :
  same_core (fst s) (fst (snd (SendFrame type flags sequence payload s))).
Proof. destruct s. unfold SendFrame. by repeat case_scrutinee. Qed.

Lemma sent_core type flags sequence payload (s s' : Shared (T := T)) status :
  SendFrame type flags sequence payload s = (status, s') -> same_core (fst s) (fst s').
Proof. intros E. pose proof (SendFrame_core type flags sequence payload s) as Hc. by rewrite E in Hc. Qed.

Lemma read_failed_core status (s : Shared (T := T)) : same_core (fst s) (fst (read_failed status s)).
Proof.
  unfold read_failed. case_scrutinee; [done|]. unfold SendError.
  etransitivity; [|apply SendFrame_core]. done.
Qed.

Lemma RegisterSource_refused descriptor e :
  status_ok (fst (RegisterSource descriptor e)) = false -> snd (RegisterSource descriptor e) = e.
Proof. unfold RegisterSource. by repeat case_scrutinee. Qed.

(** The greeting: the fence, then the registry. *)
Lemma admit_hello_steps hello now authority server refusal server' :
  admit_hello hello now server = (refusal, server') ->
  session_step (link_of authority server)
    (link_of (match refusal with
              | None => Some (hello_source hello, hello_epoch hello, hello_incarnation hello)
              | Some _ => authority end) server').
Proof.
  unfold admit_hello, register_greeting.
  destruct (fence_hello hello (srv_fences server)) as [[fenced counted] fences] eqn:Ef.
  destruct fenced as [why|].
  - intros [= <- <-]. destruct counted; apply (session_fenced authority (Greet hello)); cbn; by rewrite Ef.
  - set (server1 := if counted then _ else _).
    assert (Hc : srv_fences server1 = fences /\ srv_observatory server1 = srv_observatory server)
      by (subst server1; by destruct counted).
    destruct Hc as [Hf Ho].
    destruct (RegisterSource _ (srv_observatory server1)) as [registration observatory] eqn:Er.
    rewrite Ho in Er. destruct (status_ok registration) eqn:Ek; intros [= <- <-]; unfold link_of; cbn; rewrite Hf.
    + eapply session_greets; [cbn; by rewrite Ef|exact Er|done].
    + assert (observatory = srv_observatory server) as ->.
      { pose proof (RegisterSource_refused (greeting_descriptor hello now) (srv_observatory server)) as Hr.
        rewrite Er in Hr. by apply Hr. }
      apply (session_unregistered authority hello now); cbn; [by rewrite Ef|by rewrite Er].
Qed.

(** What a handled frame did to the session: steps, and when it was handled
    well the context carries the authority they lead to. *)
Definition handled (context : SessionContext) (s : Shared (T := T)) (r : Status * SessionContext * Shared (T := T)) : Prop :=
  let '(status, context', s') := r in
  exists authority,
    rtc session_step (link_of (greeted context) (fst s)) (link_of authority (fst s')) /\
    (status_ok status = true -> authority = greeted context').

Lemma handled_core status context (s s' : Shared (T := T)) : same_core (fst s) (fst s') ->
  handled context s (status, context, s').
Proof.
  intros Hc. exists (greeted context). split; [|done]. rewrite (same_core_link _ _ _ Hc). constructor.
Qed.

Lemma handled_step status context (s s' : Shared (T := T)) server :
  session_step (link_of (greeted context) (fst s)) (link_of (greeted context) server) ->
  same_core server (fst s') -> handled context s (status, context, s').
Proof.
  intros Hs Hc. exists (greeted context). split; [|done]. rewrite (same_core_link _ _ _ Hc).
  by apply rtc_once.
Qed.

Lemma HandleHello_handled payload now context (s : Shared (T := T)) :
  handled context s (HandleHello payload now context s).
Proof.
  unfold HandleHello. destruct (parse_document _ _ _) as [status|hello].
  - unfold refuse, SendError. cbn. apply handled_core, SendFrame_core.
  - destruct (admit_hello hello now (fst s)) as [refusal server] eqn:Ea.
    pose proof (admit_hello_steps _ _ (greeted context) _ _ _ Ea) as Hstep.
    destruct (SendFrame _ _ _ _ _) as [sent s'] eqn:Es. apply sent_core in Es. cbn [fst] in Es.
    assert (Hr : rtc session_step (link_of (greeted context) (fst s))
      (link_of (match refusal with
                | None => Some (hello_source hello, hello_epoch hello, hello_incarnation hello)
                | Some _ => greeted context end) (fst s'))).
    { rewrite (same_core_link _ _ _ Es). by apply rtc_once. }
    destruct (status_ok sent) eqn:Ek; cbn [negb]; [|by eexists; split; [exact Hr|rewrite Ek]].
    destruct refusal; by eexists; split; [exact Hr|].
Qed.

Lemma refuse_snapshot_core ack stale (s : Shared (T := T)) :
  same_core (fst s) (fst (snd (refuse_snapshot ack stale s))).
Proof.
  unfold refuse_snapshot. destruct (SendFrame _ _ _ _ _) as [sent s'] eqn:Es. apply sent_core in Es.
  by etransitivity; [apply Es|].
Qed.

(** A snapshot reaches the observatory under the authority of the session. *)
Lemma admit_snapshot_cases snapshot context server refusal server' :
  admit_snapshot snapshot context server = (refusal, server') ->
  match refusal with
  | Some _ => same_core server server' \/
      exists op, fence_op op (srv_fences server) = (false, srv_fences server') /\
        srv_observatory server' = srv_observatory server
  | None =>
      snap_source snapshot = ctx_source context /\ snap_epoch snapshot = ctx_epoch context /\
      snap_incarnation snapshot = ctx_incarnation context /\
      srv_observatory server' = srv_observatory server /\
      fence_op (Publish (ctx_source context) (ctx_epoch context) (ctx_incarnation context)
                  (snap_sequence snapshot) (Snapshot_ComputeContentDigest snapshot)) (srv_fences server) =
        (true, srv_fences server')
  end.
Proof.
  unfold admit_snapshot.
  destruct (eqb (snap_source snapshot) (ctx_source context)) eqn:Es; cbn [negb]; [|intros [= <- <-]; by left].
  destruct (Z.eqb_spec (snap_incarnation snapshot) (ctx_incarnation context)) as [Ei|]; cbn [negb orb];
    [|intros [= <- <-]; by left].
  destruct (Z.eqb_spec (snap_epoch snapshot) (ctx_epoch context)) as [Ee|]; cbn [negb];
    [|intros [= <- <-]; by left].
  apply eqb_eq in Es. rewrite Es, Ei, Ee.
  destruct (FenceSnapshot _ _ _ _ _ _) as [fenced fences] eqn:Ef. destruct fenced; intros [= <- <-]; cbn [option_map].
  - right. exists (Publish (ctx_source context) (ctx_epoch context) (ctx_incarnation context)
      (snap_sequence snapshot) (Snapshot_ComputeContentDigest snapshot)). cbn [fence_op]. by rewrite Ef.
  - cbn [fence_op]. by rewrite Ef.
Qed.

Lemma HandleSnapshot_handled payload now context (s : Shared (T := T)) : ctx_handshaken context = true ->
  let r := HandleSnapshot payload now context s in handled context s (fst r, context, snd r).
Proof.
  intros Hh. cbv zeta. unfold HandleSnapshot. destruct (ParseObservationJson _ _) as [status|snapshot].
  - apply handled_core, refuse_snapshot_core.
  - destruct (admit_snapshot snapshot context (fst s)) as [refusal server] eqn:Ea.
    apply admit_snapshot_cases in Ea. destruct refusal as [[[reason detail] stale]|].
    + set (r := refuse_snapshot _ _ _).
      assert (Hc : same_core server (fst (snd r))) by apply refuse_snapshot_core.
      destruct Ea as [Hs|(op & Hop & Ho)].
      * apply handled_core. by etransitivity.
      * eapply handled_step; [|exact Hc]. unfold link_of. rewrite Ho. by eapply session_fenced.
    + destruct Ea as (E1 & E2 & E3 & Ho & Hop).
      destruct (IngestObservation _ _ _ _) as [[ingest admission] observatory] eqn:Ei.
      set (server' := tally _ (server <| srv_observatory := observatory |>)).
      assert (Hc : srv_fences server' = srv_fences server /\ srv_observatory server' = observatory) by done.
      destruct Hc as [Hf Hob].
      eapply handled_step; [|exact (SendFrame_core _ _ _ _ (server', snd s))]. cbn [fst]. unfold link_of, greeted. rewrite Hh, Hf, Hob.
      rewrite Ho in Ei. eapply session_observes; eauto.
Qed.

Lemma HandleIntent_handled payload now context (s : Shared (T := T)) : ctx_handshaken context = true ->
  let r := HandleIntent payload now s in handled context s (fst r, context, snd r).
Proof.
  intros Hh. cbv zeta. unfold HandleIntent. destruct (ParseIntentJson _ _) as [status|intent].
  - apply handled_core, SendFrame_core.
  - destruct (PublishIntent _ _ _ _) as [[committed report] observatory] eqn:Ep.
    set (server' := if status_ok committed then tally _ _ else _).
    assert (Hc : srv_fences server' = srv_fences (fst s) /\ srv_observatory server' = observatory)
      by (subst server'; by destruct (status_ok committed)).
    destruct Hc as [Hf Hob].
    eapply handled_step; [|exact (SendFrame_core _ _ _ _ (server', snd s))]. cbn [fst]. unfold link_of, greeted. rewrite Hh, Hf, Hob.
    eapply session_intends; eauto.
Qed.

Lemma HandleFrame_handled header payload now context (s : Shared (T := T)) :
  handled context s (HandleFrame header payload now context s).
Proof.
  unfold HandleFrame. destruct (ctx_handshaken context) eqn:Hh; cbn [negb andb].
  - destruct (fh_type header); try (apply handled_core, SendFrame_core).
    + apply HandleHello_handled.
    + by apply HandleSnapshot_handled.
    + by apply HandleIntent_handled.
    + by apply handled_core.
  - destruct (fh_type header); cbn [negb eqb]; try (apply handled_core, SendFrame_core).
    apply HandleHello_handled.
Qed.
End SessionFacts.

(** ** Facts: reading *)

Section ReadingFacts.
Context {T : Type} `{TransportLaws T}.

(** A read that ends well yields as many bytes as were asked for. *)
Lemma receive_until_size fuel want closed got (socket socket' : T) bytes :
  vsize got <= want -> receive_until fuel want closed got socket = (inr bytes, socket') ->
  vsize bytes = want.
Proof.
  revert got socket. induction fuel as [|fuel IH]; intros got socket Hle; cbn.
  all: destruct (Z.leb_spec want (vsize got)); [intros [= <- _]; lia|]; try done.
  destruct (ReceiveSome _ _) as [[status arrived] next] eqn:E.
  apply receive_bounded in E as [_ Hb]; [|lia].
  destruct (status_ok status); cbn [negb]; [|done]. destruct (vsize arrived =? 0); [done|].
  apply IH. rewrite vsize_app. lia.
Qed.

(** As many rounds as bytes are missing are enough: more change nothing. *)
Lemma receive_until_fuel fuel fuel' want closed got (socket : T) :
  (Z.to_nat (want - vsize got) <= fuel)%nat -> (Z.to_nat (want - vsize got) <= fuel')%nat ->
  receive_until fuel want closed got socket = receive_until fuel' want closed got socket.
Proof.
  revert fuel' got socket. induction fuel as [|fuel IH]; intros fuel' got socket Hf Hf'.
  - destruct fuel'; [done|]. cbn. by destruct (Z.leb_spec want (vsize got)); [|lia].
  - destruct fuel' as [|fuel']; cbn; destruct (Z.leb_spec want (vsize got)); try done; [lia|].
    destruct (ReceiveSome _ _) as [[status arrived] next]. destruct (status_ok status); cbn [negb]; [|done].
    destruct (Z.eqb_spec (vsize arrived) 0); [done|].
    assert (0 <= vsize arrived) by (unfold vsize; lia).
    apply IH; rewrite vsize_app; lia.
Qed.
End ReadingFacts.

#[export] Instance scripted_laws : TransportLaws Script.
Proof.
  split. intros size [incoming sent] status bytes socket' Hs. cbn.
  destruct incoming as [|chunk rest]; intros [= <- <- <-]; [by split|]. split.
  - apply Forall_take, List.Forall_forall. intros b [_ Hb]%filter_In. unfold is_byte. lia.
  - unfold vsize. rewrite length_firstn. lia.
Qed.

Lemma bytes_filter bytes : Forall is_byte bytes -> List.filter (fun b => (0 <=? b) && (b <? 256)) bytes = bytes.
Proof. induction 1 as [|b bytes Hb _ IH]; cbn; [done|]. unfold is_byte in Hb. rewrite IH.
  by rewrite (proj2 (Z.leb_le _ _)), (proj2 (Z.ltb_lt _ _)) by lia.
Qed.

(** One read of a script takes the front of what is to come. *)
Lemma scripted_read size chunks sent : 0 < size -> chunks_ok chunks -> chunks <> [] ->
  exists bytes chunks', ReceiveSome size (mkScript chunks sent) = (Status_Ok, bytes, mkScript chunks' sent) /\
    bytes <> [] /\ vsize bytes <= size /\ chunks_ok chunks' /\ concat chunks = (bytes ++ concat chunks')%list.
Proof.
  intros Hs Hc Hn. destruct chunks as [|chunk rest]; [done|]. inversion Hc as [|? ? [Hne Hb] Hrest]; subst.
  cbn [ReceiveSome scripted script_incoming script_sent]. rewrite bytes_filter by done.
  eexists _, _. split; [reflexivity|]. split; [|split; [|split]].
  - destruct chunk; [done|]. destruct (Z.to_nat size) eqn:E; [lia|done].
  - unfold vsize. rewrite length_firstn. lia.
  - destruct (Z.eqb_spec (vsize (skipn (Z.to_nat size) chunk)) 0) as [E|E]; [done|].
    constructor; [|done]. split; [intros El; apply E; by rewrite El|by apply Forall_drop].
  - destruct (Z.eqb_spec (vsize (skipn (Z.to_nat size) chunk)) 0) as [E|E]; cbn [concat].
    + apply vsize_nil_inv in E. f_equal. pose proof (firstn_skipn (Z.to_nat size) chunk) as Hsplit.
      by rewrite E, app_nil_r in Hsplit.
    + by rewrite app_assoc, firstn_skipn.
Qed.

Lemma concat_nonempty chunks (b : Z) bytes : concat chunks = b :: bytes -> chunks <> [].
Proof. by intros E ->. Qed.

(** Reading what is missing of [got ++ more] off a script yields exactly that. *)
Lemma receive_until_script fuel want closed got more chunks sent rest :
  chunks_ok chunks -> concat chunks = (more ++ rest)%list -> vsize got + vsize more = want ->
  (length more <= fuel)%nat ->
  exists chunks', receive_until fuel want closed got (mkScript chunks sent) =
    (inr (got ++ more)%list, mkScript chunks' sent) /\ chunks_ok chunks' /\ concat chunks' = rest.
Proof.
  revert got more chunks. induction fuel as [|fuel IH]; intros got more chunks Hc Hcat Hw Hf.
  - destruct more; [|cbn in Hf; lia]. exists chunks. cbn. rewrite (proj2 (Z.leb_le _ _)), app_nil_r by (unfold vsize in *; cbn in *; lia).
    done.
  - cbn [receive_until]. destruct (Z.leb_spec want (vsize got)) as [Hle|Hlt].
    { destruct more; [|unfold vsize in *; cbn in *; lia]. exists chunks. by rewrite app_nil_r. }
    destruct (scripted_read (want - vsize got) chunks sent) as (bytes & chunks' & -> & Hne & Hsz & Hc' & Hcat').
    { lia. } { done. }
    { destruct more; [unfold vsize in *; cbn in *; lia|]. by eapply concat_nonempty. }
    cbn [negb status_ok Status_Ok]. rewrite Hcat in Hcat'.
    destruct (Z.eqb_spec (vsize bytes) 0) as [E|_]; [by apply vsize_nil_inv in E|].
    assert (Hb : exists left, more = (bytes ++ left)%list /\ concat chunks' = (left ++ rest)%list).
    { apply app_eq_app in Hcat' as (l & [[-> E]|[-> E]]); [by exists l|].
      assert (length l = 0%nat) as E'.
      { unfold vsize in *. rewrite length_app in Hsz. lia. }
      destruct l; [|done]. exists []. rewrite app_nil_r. by rewrite E, app_nil_r. }
    destruct Hb as (left & -> & Hleft).
    destruct (IH (got ++ bytes)%list left chunks' Hc' Hleft) as (chunks'' & -> & ? & ?).
    + rewrite vsize_app in *. lia.
    + rewrite length_app in Hf. destruct bytes; [done|]. cbn in Hf. lia.
    + exists chunks''. by rewrite app_assoc.
Qed.

(** One frame off a script. *)
Lemma ReadFrame_script limits f chunks sent rest : framed_ok limits f -> chunks_ok chunks ->
  concat chunks = (framed_bytes f ++ rest)%list ->
  exists chunks', ReadFrame limits (mkScript chunks sent) = (inr (framed_read f), mkScript chunks' sent) /\
    chunks_ok chunks' /\ concat chunks' = rest.
Proof.
  intros (Hf & Hs & Hb & H32 & Hm) Hc Hcat. unfold framed_bytes, frame_bytes in Hcat.
  pose proof (DecodeFrameHeader_layout (framed_type f) (framed_flags f) 0 (framed_sequence f)
    (framed_payload f) limits Hf Hs H32 Hb Hm) as Hdecode.
  set (header := header_bytes (framed_type f) (framed_flags f) 0 (framed_sequence f) (framed_payload f)) in *.
  assert (Hlen : vsize header = 28) by reflexivity. clearbody header.
  assert (Hh : exists chunks1, ReadHeader (mkScript chunks sent) = (inr header, mkScript chunks1 sent) /\
    chunks_ok chunks1 /\ concat chunks1 = (framed_payload f ++ rest)%list).
  { unfold ReadHeader. destruct (scripted_read kFrameHeaderBytes chunks sent)
      as (bytes & chunks' & -> & Hne & Hsz & Hc' & Hcat'); [done|done| |].
    { destruct header; [done|]. exact (concat_nonempty _ _ _ Hcat). }
    cbn [negb status_ok Status_Ok]. destruct (Z.eqb_spec (vsize bytes) 0) as [E|_]; [by apply vsize_nil_inv in E|].
    rewrite Hcat, <- app_assoc in Hcat'.
    assert (Hb' : exists left, header = (bytes ++ left)%list /\
      concat chunks' = (left ++ framed_payload f ++ rest)%list).
    { apply app_eq_app in Hcat' as (l & [[-> E]|[-> E]]); [by exists l|].
      assert (length l = 0%nat) as E' by (unfold vsize, kFrameHeaderBytes in *; rewrite length_app in Hsz; lia).
      destruct l; [|done]. exists []. by rewrite !app_nil_r, E. }
    destruct Hb' as (left & -> & Hleft). rewrite vsize_app in Hlen.
    apply receive_until_script; [done|done|done|].
    unfold vsize, kFrameHeaderBytes in *. lia. }
  destruct Hh as (chunks1 & E1 & Hc1 & Hcat1). unfold ReadFrame. rewrite E1. cbn [dbind]. rewrite Hdecode.
  destruct (receive_until_script (Z.to_nat (vsize (framed_payload f))) (vsize (framed_payload f))
    (Status_Rejected RC_WireFrameTruncated "the peer closed before the frame was complete")
    [] (framed_payload f) chunks1 sent rest) as (chunks2 & E2 & Hc2 & Hcat2);
    [done|done|done|unfold vsize; lia|].
  exists chunks2. split; [|done]. unfold ReceiveExact. cbn [frame_header fh_payload_bytes]. rewrite E2. cbn [dbind app].
  assert (Hv : VerifyFramePayload (fst (framed_read f)) (framed_payload f) = Status_Ok)
    by (by apply VerifyFramePayload_ok).
  unfold framed_read in *. cbn [fst] in Hv. by rewrite Hv.
Qed.

Lemma read_frames_script limits frames chunks sent : Forall (framed_ok limits) frames -> chunks_ok chunks ->
  concat chunks = concat (map framed_bytes frames) ->
  read_frames (S (length frames)) limits (mkScript chunks sent) =
  (map framed_read frames, Some (Status_Rejected RC_WireSessionClosed "the peer closed the session")).
Proof.
  revert chunks. induction frames as [|f frames IH]; intros chunks Hok Hc Hcat.
  - destruct chunks as [|chunk rest]; [done|]. inversion Hc as [|? ? [Hne _] _]; subst.
    destruct chunk; [done|discriminate].
  - inversion Hok as [|? ? Hf Hrest]; subst.
    destruct (ReadFrame_script limits f chunks sent _ Hf Hc Hcat) as (chunks' & E & Hc' & Hcat').
    pose proof (IH chunks' Hrest Hc' Hcat') as IHr. cbn [length map]. remember (S (length frames)) as n.
    cbn [read_frames]. by rewrite E, IHr.
Qed.

(** ** Facts: the session table *)

(** What the accepting thread, the sessions, [Stats] and [Stop] do to the table. *)
Inductive table_step : ObservationServer -> ObservationServer -> Prop :=
| table_accept s : table_step s (snd (AcceptConnection s))
| table_finish id s : table_step s (FinishSession id s)
| table_stats s : table_step s (snd (Server_Stats s))
| table_stop s : table_step s (snd (take_sessions s))
| table_joined s : table_step s (sessions_joined s).

Definition table_ok (limits : RuntimeLimits) (s : ObservationServer) : Prop :=
  server_limits s = limits /\ msorted (srv_sessions s) /\ vsize (srv_sessions s) <= max_sessions limits.

Lemma reap_ok limits s : table_ok limits s -> table_ok limits (ReapFinishedSessions s).
Proof.
  intros (Hl & Hm & Hb). split; [done|]. cbn. split; [by apply filter_msorted|].
  pose proof (List.filter_length_le (fun entry : Z * bool => negb (snd entry)) (srv_sessions s)).
  unfold vsize in *. lia.
Qed.

Lemma table_step_ok limits s s' : 0 <= max_sessions limits -> table_step s s' ->
  table_ok limits s -> table_ok limits s'.
Proof.
  intros Hpos Hstep Hok. destruct Hstep as [s|id s|s|s|s].
  - unfold AcceptConnection. apply reap_ok in Hok as (Hl & Hm & Hb).
    set (t := ReapFinishedSessions s) in *. clearbody t. cbn.
    change (server_limits (t <| srv_next_session_id ::= bump |>)) with (server_limits t). rewrite Hl.
    destruct (Z.leb_spec (max_sessions limits) (vsize (srv_sessions t))); [done|].
    split; [done|]. cbn. split; [by apply memplace_sorted|].
    unfold memplace. destruct (mfind _ _); [done|]. rewrite vsize_minsert by done. destruct (mmem _ _); lia.
  - unfold FinishSession. destruct (mfind id (srv_sessions s)) eqn:E; [|exact Hok].
    destruct Hok as (Hl & Hm & Hb). split; [done|]. cbn. split; [by apply minsert_sorted|].
    by rewrite vsize_minsert, (proj2 (mmem_true _ _)) by (done || by eauto).
  - by apply reap_ok in Hok.
  - destruct Hok as (Hl & _). split; [done|]. split; [apply msorted_nil|]. by cbn.
  - exact Hok.
Qed.

(** The live session count is never written but to zero, so the high-water mark
    the accepting thread keeps from it is at most one. *)
Lemma high_water_at_most_one observatory config s : reachable table_step (new_server observatory config) s ->
  ss_active_sessions (srv_stats s) = 0 /\ 0 <= ss_high_water_sessions (srv_stats s) <= 1.
Proof.
  induction 1 as [|s s' _ [Ha Hw] Hstep]; [by cbn|].
  destruct Hstep as [s|id s|s|s|s]; cbn in *.
  - unfold AcceptConnection. cbn. case_scrutinee; [done|]. cbn. rewrite Ha. change (wrap64 (0 + 1)) with 1.
    case_scrutinee; cbn; [|done]. split; [done|lia].
  - unfold FinishSession. by case_scrutinee.
  - done.
  - done.
  - done.
Qed.

(** ** Properties *)

(** C7. The transport fence is consistent.  Under any sequence of greetings and
    snapshots, from any sessions in any order, what is accepted of one source
    never goes back: a later greeting or snapshot has no older authority (epoch,
    then incarnation), and of two snapshots accepted under one authority the
    later has a greater sequence or is the same observation, content and all. *)
Theorem fence_consistent (ops : list FenceOp) :
  Forall op_ok ops -> StronglySorted consistent (fst (fence_run ops [])).
Proof. intros Hok. by apply run_consistent; [apply mall_nil|]. Qed.

Definition example_ops : list FenceOp :=
  [ Publish "s" 1 1 5 zero_digest; Publish "s" 1 1 4 zero_digest; Publish "t" 1 9 1 zero_digest;
    Publish "s" 1 1 5 zero_digest; Publish "s" 1 1 5 (repeat 1 32); Publish "s" 1 2 1 zero_digest;
    Publish "s" 1 1 9 zero_digest; Publish "s" 2 1 1 zero_digest; Publish "s" 1 7 7 zero_digest ].

Lemma fence_consistent_witness :
  map op_epoch (fst (fence_run example_ops [])) = [1; 1; 1; 1; 2] /\
  StronglySorted consistent (fst (fence_run example_ops [])).
Proof. split; [reflexivity|]. apply (fence_consistent example_ops). by repeat constructor. Defined.

(** C6. A session refines its abstract contract.  Whatever a peer sends, and
    however its frames are cut, malformed or out of order, a session is a run of
    the abstract session: an operation the fence turns down moves nothing but
    never a mark back, a greeting takes effect when the fence and the registry
    accept it, and a snapshot or an intent reaches the observatory only behind
    an accepted greeting, a snapshot only under the authority of that greeting
    and only once the fence has accepted it.  Nothing else of the observatory
    or of the fences changes. *)
Theorem session_refines {T} `{Transport T} (times : list NdoTime) (context context' : SessionContext)
    (s s' : Shared (T := T)) :
  SessionLoop times context s = (context', s') ->
  exists authority, rtc session_step (link_of (greeted context) (fst s)) (link_of authority (fst s')).
Proof.
  revert context s. induction times as [|now times IH]; intros context s; cbn [SessionLoop].
  - intros [= <- <-]. by eexists.
  - destruct (srv_stop_requested (fst s)); [intros [= <- <-]; by eexists|].
    unfold session_round. destruct (ReadFrame _ _) as [frame socket]. destruct frame as [status|[header payload]].
    + intros [= <- <-]. exists (greeted context).
      by rewrite (same_core_link _ _ _ (read_failed_core status (fst s, socket))).
    + set (s1 := on_server _ _). pose proof (HandleFrame_handled header payload now context s1) as Hh.
      destruct (HandleFrame header payload now context s1) as [[status context1] s2]. cbn.
      destruct Hh as (authority & Hr & Hk). destruct (status_ok status) eqn:Ek; cbn [andb].
      * destruct (Z.land _ _ =? 0); [|intros [= <- <-]; by exists authority].
        intros Hloop. apply IH in Hloop as [final Hf]. exists final. rewrite <- Hk in Hf by done.
        etransitivity; [exact Hr|exact Hf].
      * intros [= <- <-]. by exists authority.
Qed.

Lemma session_refines_witness :
  exists context' s' authority,
    SessionLoop demo_times (new_session 1) (demo_server, mkScript demo_chunks []) = (context', s') /\
    demo_outcome (context', s') = (true, (3, 1, 1), Some 12, ["switch-7"], 3%nat) /\
    rtc session_step (link_of None demo_server) (link_of authority (fst s')).
Proof.
  destruct (SessionLoop demo_times (new_session 1) (demo_server, mkScript demo_chunks [])) as [context' s'] eqn:E.
  destruct (session_refines demo_times (new_session 1) context' _ s' E) as [authority Hr].
  exists context', s', authority. split; [reflexivity|]. split; [|exact Hr].
  rewrite <- E. vm_compute. reflexivity.
Defined.

(** Frames survive the socket.  However the kernel cuts what a peer sent
    into reads, the session reads back precisely the frames that were sent, in
    their order, with their types, flags, sequences and payloads, and then finds
    the session closed. *)
Theorem frames_survive_chunking (limits : RuntimeLimits) (frames : list Framed) (chunks sent : list (list Z)) :
  Forall (framed_ok limits) frames -> chunks_ok chunks ->
  concat chunks = concat (map framed_bytes frames) ->
  read_frames (S (length frames)) limits (mkScript chunks sent) =
  (map framed_read frames, Some (Status_Rejected RC_WireSessionClosed "the peer closed the session")).
Proof. apply read_frames_script. Qed.

Lemma frames_survive_chunking_witness :
  length demo_chunks = 12%nat /\
  read_frames 4 default_limits (mkScript demo_chunks []) =
  (map framed_read demo_frames, Some (Status_Rejected RC_WireSessionClosed "the peer closed the session")).
Proof.
  split; [vm_compute; reflexivity|].
  apply (frames_survive_chunking default_limits demo_frames demo_chunks []).
  - repeat (apply Forall_cons; split; [|]); [..|apply Forall_nil_2].
    all: split_and!; [by split|by split|apply string_bytes_range|vm_compute; discriminate|vm_compute; discriminate].
  - unfold chunks_ok. apply Forall_forall.
    assert (Hc : forallb (fun c => negb (vsize c =? 0) && forallb (fun b => (0 <=? b) && (b <? 256)) c) demo_chunks = true)
      by (vm_compute; reflexivity).
    intros c Hin%list_elem_of_In. rewrite forallb_forall in Hc. apply Hc, andb_true_iff in Hin as [Hne Hb].
    split; [by intros ->|]. apply Forall_forall. rewrite forallb_forall in Hb.
    intros b Hin%list_elem_of_In. apply Hb in Hin. unfold is_byte. lia.
  - vm_compute. reflexivity.
Defined.

(** The session table never outgrows the envelope. *)
Theorem session_table_bounded (limits : RuntimeLimits) (s s' : ObservationServer) :
  0 <= max_sessions limits -> table_ok limits s -> reachable table_step s s' -> table_ok limits s'.
Proof. intros Hpos Hok Hr. induction Hr; [done|]. by eapply table_step_ok. Qed.

(** A session that has not greeted is told so, whatever it sends. *)
Theorem handshake_required {T} `{Transport T} header payload now context (s : Shared (T := T)) :
  ctx_handshaken context = false -> fh_type header <> FT_Hello ->
  let '(status, context', s') := HandleFrame header payload now context s in
  st_reason status = RC_WireHandshakeRequired /\ context' = context /\ same_core (fst s) (fst s').
Proof.
  intros Hh Hne. unfold HandleFrame. rewrite Hh. cbn [negb andb].
  destruct (eqb (fh_type header) FT_Hello) eqn:E; [by apply eqb_eq in E|]. cbn [negb].
  split; [done|]. split; [done|]. apply SendFrame_core.
Qed.
