(* ===== verification/Net.v ===== *)
(** * Sockets

    net.hpp/net.cpp over the socket calls of the operating system.  The calls are
    a parameter, [SocketApi]; what the code relies on is stated as [SocketApiLaws]
    from their documentation.  A socket with the world it lives in is a [Transport],
    so the sessions of the server and the publisher run on it. *)

From Stdlib Require Import ZArith Lia List Bool String.
From stdpp Require Import base tactics list gmap strings.
From S2P Require Import Prelude Containers Text Status JsonHelp Wire Server.
#[local] Open Scope string_scope.
#[local] Open Scope Z_scope.
#[local] Arguments String.append : simpl nomatch.

(** ** The operating system *)

Inductive SocketOption : Set := SO_ReceiveTimeout | SO_SendTimeout | SO_NoDelay | SO_ReuseAddress.
Inductive AddressFamily : Set := AF_Inet | AF_Inet6 | AF_Other.

(** The calls net.cpp makes.  [W] is the world they act on, [Addr] a candidate
    address; a handle of [None] is [INVALID_SOCKET], a flag tells whether a call
    returned zero, [send] and [recv] return their count, negative for an error. *)
Class SocketApi (W Addr : Type) := {
  api_windows : bool;
  WSAStartup : W -> Z * W;
  WSACleanup : W -> W;
  WSAGetLastError : W -> Z;
  getaddrinfo : option string -> string -> W -> option (list Addr) * W;
  freeaddrinfo : list Addr -> W -> W;
  os_socket : Addr -> W -> option Z * W;
  os_connect : Z -> Addr -> W -> bool * W;
  os_bind : Z -> Addr -> W -> bool * W;
  os_listen : Z -> Z -> W -> bool * W;
  os_accept : Z -> W -> option Z * W;
  closesocket : Z -> W -> W;
  shutdown_send : Z -> W -> W;
  shutdown_both : Z -> W -> W;
  os_send : Z -> list Z -> W -> Z * W;
  os_recv : Z -> Z -> W -> Z * list Z * W;
  setsockopt : Z -> SocketOption -> Z -> W -> bool * W;
  getsockname : Z -> W -> option (AddressFamily * Z)
}.

(** The handles that are open, and the bytes that were accepted on a handle. *)
Class SocketApiLaws (W Addr : Type) `{SocketApi W Addr} := {
  open_handles : W -> gset Z;
  accepted_bytes : Z -> W -> list Z;
  socket_opens a w h w' : os_socket a w = (Some h, w') ->
    0 <= h /\ h ∉ open_handles w /\ open_handles w' = {[ h ]} ∪ open_handles w;
  socket_fails a w w' : os_socket a w = (None, w') -> open_handles w' = open_handles w;
  accept_opens l w h w' : os_accept l w = (Some h, w') ->
    0 <= h /\ h ∉ open_handles w /\ open_handles w' = {[ h ]} ∪ open_handles w;
  accept_fails l w w' : os_accept l w = (None, w') -> open_handles w' = open_handles w;
  close_closes h w : open_handles (closesocket h w) = open_handles w ∖ {[ h ]};
  startup_opens w : open_handles (snd (WSAStartup w)) = open_handles w;
  resolve_opens host service w : open_handles (snd (getaddrinfo host service w)) = open_handles w;
  free_opens l w : open_handles (freeaddrinfo l w) = open_handles w;
  connect_opens h a w : open_handles (snd (os_connect h a w)) = open_handles w;
  bind_opens h a w : open_handles (snd (os_bind h a w)) = open_handles w;
  listen_opens h n w : open_handles (snd (os_listen h n w)) = open_handles w;
  option_opens h o v w : open_handles (snd (setsockopt h o v w)) = open_handles w;
  send_takes h data w n w' : os_send h data w = (n, w') ->
    n <= vsize data /\ open_handles w' = open_handles w /\
    accepted_bytes h w' = (accepted_bytes h w ++ firstn (Z.to_nat n) data)%list;
  shutdown_send_opens h w : open_handles (shutdown_send h w) = open_handles w;
  shutdown_both_opens h w : open_handles (shutdown_both h w) = open_handles w;
  recv_opens h size w : open_handles (snd (os_recv h size w)) = open_handles w;
  recv_gives h size w n data w' : os_recv h size w = (n, data, w') -> 0 <= size -> 0 < n ->
    vsize data = n /\ n <= size /\ Forall is_byte data
}.

(** ** The networking subsystem *)

(** [std::atomic<int>]: an addition wraps. *)
Definition wrap_int (z : Z) : Z := (z + 2147483648) mod 4294967296 - 2147483648.

Definition Status_Unsupported (r : ReasonCode) (d : string) : Status := mkStatus SC_Unsupported r d.

Section Net.
Context {W Addr : Type} {api : SocketApi W Addr}.

(** The world, and [g_initialize_count]. *)
Record Net := mkNet { net_world : W; net_initialized : Z }.

Definition InitializeNetworking (n : Net) : Status * Net :=
  let count := net_initialized n in
  if api_windows then
    let '(result, w) := if count =? 0 then WSAStartup (net_world n) else (0, net_world n) in
    if negb (result =? 0)
    then (Status_Rejected RC_WireSessionClosed "the platform networking subsystem could not be initialized",
          mkNet w count)
    else (Status_Ok, mkNet w (wrap_int (count + 1)))
  else (Status_Unsupported RC_WireSessionClosed "the socket transport is implemented for Windows in this release",
        mkNet (net_world n) (wrap_int (count + 1))).

Definition ShutdownNetworking (n : Net) : Net :=
  let count := net_initialized n in
  if 0 <? count then
    mkNet (if api_windows && (count - 1 =? 0) then WSACleanup (net_world n) else net_world n) (count - 1)
  else n.

Definition kSocketErrors : list (Z * string) :=
  [(10054, "connection reset by peer"); (10053, "connection aborted"); (10060, "connection timed out");
   (10035, "operation would block"); (10057, "socket is not connected"); (10058, "socket has been shut down");
   (10048, "address already in use"); (10013, "address access denied"); (11001, "host not found")].

Definition WSAETIMEDOUT : Z := 10060.

Definition LastSocketError (w : W) : string :=
  if api_windows then
    let code := WSAGetLastError w in
    match find (fun e => fst e =? code) kSocketErrors with
    | Some e => snd e
    | None => "socket error " +:+ to_string_signed code
    end
  else "the socket transport is unavailable on this platform".

(** ** Handles *)

(** A [Socket] and a [Listener] are a handle; below zero they are closed. *)
Definition closed_handle : Z := -1.
Definition handle_valid (handle : Z) : bool := 0 <=? handle.

Definition Socket_Close (handle : Z) (w : W) : Z * W :=
  (closed_handle, if api_windows && (0 <=? handle) then closesocket handle w else w).

(** [operator=]: what the target held is closed, the source gives its handle up. *)
Definition Socket_assign (target source : Z) (w : W) : Z * Z * W :=
  let '(_, w) := Socket_Close target w in (source, closed_handle, w).

Definition ShutdownSend (handle : Z) (w : W) : W :=
  if api_windows && (0 <=? handle) then shutdown_send handle w else w.
Definition ShutdownBoth (handle : Z) (w : W) : W :=
  if api_windows && (0 <=? handle) then shutdown_both handle w else w.

Definition not_open : Status := Status_Rejected RC_WireSessionClosed "the socket is not open".
Definition unavailable : Status := Status_Unsupported RC_WireSessionClosed "the socket transport is unavailable".
Definition unimplemented : Status :=
  Status_Unsupported RC_WireSessionClosed "the socket transport is implemented for Windows in this release".

(** [SetReceiveTimeoutMillis], [SetSendTimeoutMillis] and [SetNoDelay]. *)
Definition set_option (option : SocketOption) (value : Z) (handle : Z) (w : W) : Status * W :=
  if negb api_windows then (unavailable, w)
  else if handle <? 0 then (not_open, w)
  else
    let '(done, w) := setsockopt handle option value w in
    (if done then Status_Ok else Status_Rejected RC_WireSessionClosed (LastSocketError w), w).

Definition SetReceiveTimeoutMillis (millis : Z) := set_option SO_ReceiveTimeout millis.
Definition SetSendTimeoutMillis (millis : Z) := set_option SO_SendTimeout millis.
Definition SetNoDelay (enabled : bool) := set_option SO_NoDelay (if enabled then 1 else 0).

Definition local_port (handle : Z) (w : W) : Z :=
  if negb api_windows || (handle <? 0) then 0
  else match getsockname handle w with
       | Some (AF_Inet, port) | Some (AF_Inet6, port) => port
       | _ => 0
       end.

(** ** Connections *)

(** The candidates in their order: the first that connects, every other one closed. *)
Fixpoint connect_first (candidates : list Addr) (w : W) : option Z * W :=
  match candidates with
  | [] => (None, w)
  | candidate :: rest =>
      let '(handle, w) := os_socket candidate w in
      match handle with
      | None => connect_first rest w
      | Some handle =>
          let '(connected, w) := os_connect handle candidate w in
          if connected then (Some handle, w) else connect_first rest (closesocket handle w)
      end
  end.

Definition Socket_Connect (host : string) (port : Z) (n : Net) : Decoded Z * Net :=
  if negb api_windows then (inl unimplemented, n)
  else
    let '(status, n) := InitializeNetworking n in
    if negb (status_ok status) then (inl status, n)
    else
      let node := if String.eqb host "" then "127.0.0.1" else host in
      let '(results, w) := getaddrinfo (Some node) (to_string_unsigned port) (net_world n) in
      match results with
      | None => (inl (Status_Rejected RC_WireSessionClosed ("the endpoint could not be resolved: " +:+ node)),
                 mkNet w (net_initialized n))
      | Some candidates =>
          let '(handle, w) := connect_first candidates w in
          let w := freeaddrinfo candidates w in
          (match handle with
           | Some handle => inr handle
           | None => inl (Status_Rejected RC_WireSessionClosed
                            ("the connection could not be established: " +:+ LastSocketError w))
           end, mkNet w (net_initialized n))
      end.

Fixpoint bind_first (backlog : Z) (candidates : list Addr) (w : W) : option Z * W :=
  match candidates with
  | [] => (None, w)
  | candidate :: rest =>
      let '(handle, w) := os_socket candidate w in
      match handle with
      | None => bind_first backlog rest w
      | Some handle =>
          let '(_, w) := setsockopt handle SO_ReuseAddress 1 w in
          let '(bound, w) := os_bind handle candidate w in
          if negb bound then bind_first backlog rest (closesocket handle w)
          else
            let '(listening, w) := os_listen handle backlog w in
            if negb listening then bind_first backlog rest (closesocket handle w)
            else (Some handle, w)
      end
  end.

Definition Listener_Bind (address : string) (port backlog : Z) (n : Net) : Decoded Z * Net :=
  if negb api_windows then (inl unimplemented, n)
  else
    let '(status, n) := InitializeNetworking n in
    if negb (status_ok status) then (inl status, n)
    else
      let host := if String.eqb address "" then None else Some address in
      let '(results, w) := getaddrinfo host (to_string_unsigned port) (net_world n) in
      match results with
      | None => (inl (Status_Rejected RC_WireSessionClosed
                        ("the bind address could not be resolved: " +:+ address)),
                 mkNet w (net_initialized n))
      | Some candidates =>
          let '(handle, w) := bind_first backlog candidates w in
          let w := freeaddrinfo candidates w in
          (match handle with
           | Some handle => inr handle
           | None => inl (Status_Rejected RC_WireSessionClosed
                            ("the listener could not be bound: " +:+ LastSocketError w))
           end, mkNet w (net_initialized n))
      end.

(** The socket passed in is closed when a connection takes its place. *)
Definition Listener_Accept (listener out : Z) (w : W) : Status * Z * W :=
  if negb api_windows then (unavailable, out, w)
  else if listener <? 0 then (Status_Rejected RC_WireSessionClosed "the listener is closed", out, w)
  else
    let '(accepted, w) := os_accept listener w in
    match accepted with
    | None => (Status_Rejected RC_WireSessionClosed ("accept failed: " +:+ LastSocketError w), out, w)
    | Some handle =>
        let '(out, _, w) := Socket_assign out handle w in (Status_Ok, out, w)
    end.

(** ** Bytes *)

(** The largest count one call is asked for. *)
Definition kMaxTransfer : Z := 2147483647.

(** The loop of [SendAll] over what is left to send; a call that succeeds takes at
    least a byte, so as many rounds as bytes are enough. *)
Fixpoint send_rest (fuel : nat) (handle : Z) (left : list Z) (w : W) : Status * W :=
  if vsize left =? 0 then (Status_Ok, w)
  else
    let chunk := firstn (Z.to_nat (Z.min kMaxTransfer (vsize left))) left in
    let '(result, w) := os_send handle chunk w in
    if result <=? 0
    then (Status_Rejected RC_WireSessionClosed ("send failed: " +:+ LastSocketError w), w)
    else
      match fuel with
      | O => (Status_Rejected RC_WireSessionClosed "", w)
      | S fuel' => send_rest fuel' handle (skipn (Z.to_nat result) left) w
      end.

Definition Socket_SendAll (handle : Z) (data : list Z) (w : W) : Status * W :=
  if negb api_windows then (unavailable, w)
  else if handle <? 0 then (not_open, w)
  else send_rest (length data) handle data w.

Definition Socket_ReceiveSome (handle size : Z) (w : W) : Status * list Z * W :=
  if negb api_windows then (unavailable, [], w)
  else if handle <? 0 then (not_open, [], w)
  else
    let '(result, data, w) := os_recv handle (Z.min kMaxTransfer size) w in
    if result =? 0 then (mkStatus SC_Ok RC_WireSessionClosed "", [], w)
    else if result <? 0 then
      ((if WSAGetLastError w =? WSAETIMEDOUT
        then Status_Rejected RC_WireSessionIdleExpired "the session idle deadline expired"
        else Status_Rejected RC_WireSessionClosed ("receive failed: " +:+ LastSocketError w)), [], w)
    else (Status_Ok, data, w).
End Net.

Arguments mkNet {W}.
Arguments net_world {W}.
Arguments net_initialized {W}.
Arguments Net : clear implicits.

(** ** The transport *)

(** A socket in its world. *)
Record Wired (W : Type) := mkWired { wired_handle : Z; wired_world : W }.
Arguments mkWired {W}.
Arguments wired_handle {W}.
Arguments wired_world {W}.

#[export] Instance wired_transport {W Addr} `{SocketApi W Addr} : Transport (Wired W) := {|
  SendAll data s :=
    let '(status, w) := Socket_SendAll (Addr := Addr) (wired_handle s) data (wired_world s) in
    (status, mkWired (wired_handle s) w);
  ReceiveSome size s :=
    let '(status, data, w) := Socket_ReceiveSome (Addr := Addr) (wired_handle s) size (wired_world s) in
    (status, data, mkWired (wired_handle s) w)
|}.

(** ** Facts: bytes *)

Section Facts.
Context {W Addr : Type} {api : SocketApi W Addr} {laws : SocketApiLaws W Addr}.
Implicit Types w : W.

Lemma skipn_shorter {A} n (l : list A) : (0 < n)%nat -> l <> [] -> (length (skipn n l) < length l)%nat.
Proof. intros Hn Hl. rewrite length_skipn. destruct l; [done|]. cbn. lia. Qed.

Lemma send_rest_spec fuel handle left w status w' : (length left <= fuel)%nat ->
  send_rest fuel handle left w = (status, w') ->
  exists sent rest, left = (sent ++ rest)%list /\ open_handles w' = open_handles w /\
    accepted_bytes handle w' = (accepted_bytes handle w ++ sent)%list /\
    (status = Status_Ok /\ rest = [] \/ status_ok status = false /\ rest <> []).
Proof.
  revert left w. induction fuel as [|fuel IH]; intros left w Hf; cbn [send_rest];
    (destruct (Z.eqb_spec (vsize left) 0) as [E|E];
     [intros [= <- <-]; exists [], []; rewrite !app_nil_r; destruct left; [by auto 6|unfold vsize in E; cbn in E; lia]|]).
  { destruct left; [done|cbn in Hf; lia]. }
  destruct (os_send _ _ w) as [result w1] eqn:Es. destruct (send_takes _ _ _ _ _ Es) as (Hn & Ho & Ha).
  destruct (Z.leb_spec result 0) as [Hr|Hr].
  { intros [= <- <-]. exists [], left. rewrite Ho, Ha. replace (Z.to_nat result) with O by lia. cbn [firstn].
    repeat split; [done..|]. right. split; [done|]. by intros ->. }
  intros Hs. apply IH in Hs as (sent & rest & El & Ho' & Ha' & Hst).
  - exists (firstn (Z.to_nat result) left ++ sent)%list, rest. rewrite <- !app_assoc, <- El, firstn_skipn.
    split; [done|]. split; [by rewrite Ho'|]. split; [|done]. rewrite Ha', Ha, <- app_assoc. do 2 f_equal.
    rewrite firstn_firstn. f_equal. unfold vsize, kMaxTransfer in *. rewrite length_firstn in Hn. lia.
  - assert (left <> []) by (by intros ->). pose proof (skipn_shorter (Z.to_nat result) left ltac:(lia) H). lia.
Qed.

(** ** Facts: handles *)

Ltac keeps_open :=
  repeat match goal with
  | H : os_socket _ ?w = (None, _) |- _ => apply socket_fails in H
  | H : os_connect ?h ?a ?w = (_, ?w') |- _ =>
      let E := fresh in pose proof (connect_opens h a w) as E; rewrite H in E; cbn [snd] in E; clear H
  | H : os_bind ?h ?a ?w = (_, ?w') |- _ =>
      let E := fresh in pose proof (bind_opens h a w) as E; rewrite H in E; cbn [snd] in E; clear H
  | H : os_listen ?h ?a ?w = (_, ?w') |- _ =>
      let E := fresh in pose proof (listen_opens h a w) as E; rewrite H in E; cbn [snd] in E; clear H
  | H : setsockopt ?h ?o ?v ?w = (_, ?w') |- _ =>
      let E := fresh in pose proof (option_opens h o v w) as E; rewrite H in E; cbn [snd] in E; clear H
  | H : getaddrinfo ?h ?s ?w = (_, ?w') |- _ =>
      let E := fresh in pose proof (resolve_opens h s w) as E; rewrite H in E; cbn [snd] in E; clear H
  | H : WSAStartup ?w = (_, ?w') |- _ =>
      let E := fresh in pose proof (startup_opens w) as E; rewrite H in E; cbn [snd] in E; clear H
  end.

(** A handle was opened and nothing else, or nothing. *)
Definition opens_at_most (before after : gset Z) (handle : option Z) : Prop :=
  match handle with
  | Some h => 0 <= h /\ h ∉ before /\ after = {[ h ]} ∪ before
  | None => after = before
  end.

Lemma close_opened h w w' : h ∉ open_handles w -> open_handles w' = {[ h ]} ∪ open_handles w ->
  open_handles (closesocket h w') = open_handles w.
Proof. intros Hn E. rewrite close_closes, E. set_solver. Qed.

Lemma connect_first_opens candidates w handle w' : connect_first candidates w = (handle, w') ->
  opens_at_most (open_handles w) (open_handles w') handle.
Proof.
  revert w. induction candidates as [|a rest IH]; intros w; cbn [connect_first]; [by intros [= <- <-]|].
  destruct (os_socket a w) as [[h|] w1] eqn:Es.
  - apply socket_opens in Es as (Hh & Hn & Ho). destruct (os_connect h a w1) as [[] w2] eqn:Ec; keeps_open.
    + intros [= <- <-]. cbn. repeat split; [done|done|congruence].
    + intros Hc%IH. by rewrite (close_opened h _ _ Hn) in Hc by congruence.
  - keeps_open. intros Hc%IH. by rewrite Es in Hc.
Qed.

Lemma bind_first_opens backlog candidates w handle w' : bind_first backlog candidates w = (handle, w') ->
  opens_at_most (open_handles w) (open_handles w') handle.
Proof.
  revert w. induction candidates as [|a rest IH]; intros w; cbn [bind_first]; [by intros [= <- <-]|].
  destruct (os_socket a w) as [[h|] w1] eqn:Es; [|keeps_open; intros Hc%IH; by rewrite Es in Hc].
  apply socket_opens in Es as (Hh & Hn & Ho). destruct (setsockopt h _ _ w1) as [? w2] eqn:Eo.
  destruct (os_bind h a w2) as [[] w3] eqn:Eb; cbn [negb].
  - destruct (os_listen h backlog w3) as [[] w4] eqn:El; cbn [negb]; keeps_open.
    + intros [= <- <-]. cbn. repeat split; [done|done|congruence].
    + intros Hc%IH. by rewrite (close_opened h _ _ Hn) in Hc by congruence.
  - keeps_open. intros Hc%IH. by rewrite (close_opened h _ _ Hn) in Hc by congruence.
Qed.

Lemma InitializeNetworking_opens (n : Net W) : let n' := snd (InitializeNetworking (Addr := Addr) n) in
  open_handles (net_world n') = open_handles (net_world n).
Proof.
  cbn zeta. unfold InitializeNetworking. destruct api_windows; [|done]. destruct (_ =? 0); cbn [net_world].
  - pose proof (startup_opens (net_world n)) as H. destruct (WSAStartup _) as [r w]. by destruct (negb _).
  - by destruct (negb _).
Qed.
(** What connecting and binding do to the open handles. *)
Lemma Socket_Connect_opens host port (n : Net W) :
  match Socket_Connect (Addr := Addr) host port n with
  | (inr handle, n') => api_windows (W := W) (Addr := Addr) = true /\
      opens_at_most (open_handles (net_world n)) (open_handles (net_world n')) (Some handle)
  | (inl status, n') => status_ok status = false /\ open_handles (net_world n') = open_handles (net_world n)
  end.
Proof.
  unfold Socket_Connect. pose proof (InitializeNetworking_opens n) as Hi. destruct api_windows; cbn [negb]; [|done].
  destruct (InitializeNetworking n) as [status n1]. cbn [snd] in Hi. rewrite <- Hi.
  destruct (status_ok status) eqn:Es; [|done]. cbn [negb].
  match goal with |- context [getaddrinfo ?h ?s ?w] =>
    pose proof (resolve_opens h s w) as Hr; destruct (getaddrinfo h s w) as [[candidates|] w1] end; [|done].
  destruct (connect_first candidates w1) as [handle w2] eqn:Ec. apply connect_first_opens in Ec.
  cbn [snd] in Hr. rewrite Hr in Ec. destruct handle; (split; [done|]); cbn; by rewrite free_opens.
Qed.

Lemma Listener_Bind_opens address port backlog (n : Net W) :
  match Listener_Bind (Addr := Addr) address port backlog n with
  | (inr handle, n') => api_windows (W := W) (Addr := Addr) = true /\
      opens_at_most (open_handles (net_world n)) (open_handles (net_world n')) (Some handle)
  | (inl status, n') => status_ok status = false /\ open_handles (net_world n') = open_handles (net_world n)
  end.
Proof.
  unfold Listener_Bind. pose proof (InitializeNetworking_opens n) as Hi. destruct api_windows; cbn [negb]; [|done].
  destruct (InitializeNetworking n) as [status n1]. cbn [snd] in Hi. rewrite <- Hi.
  destruct (status_ok status) eqn:Es; [|done]. cbn [negb].
  match goal with |- context [getaddrinfo ?h ?s ?w] =>
    pose proof (resolve_opens h s w) as Hr; destruct (getaddrinfo h s w) as [[candidates|] w1] end; [|done].
  destruct (bind_first backlog candidates w1) as [handle w2] eqn:Ec. apply bind_first_opens in Ec.
  cbn [snd] in Hr. rewrite Hr in Ec. destruct handle; (split; [done|]); cbn; by rewrite free_opens.
Qed.

Lemma Listener_Accept_opens listener out w :
  let '(status, out', w') := Listener_Accept (Addr := Addr) listener out w in
  if status_ok status
  then api_windows (W := W) (Addr := Addr) = true /\ 0 <= out' /\ out' ∉ open_handles w /\
       open_handles w' = ({[ out' ]} ∪ open_handles w) ∖ (if 0 <=? out then {[ out ]} else ∅)
  else out' = out /\ open_handles w' = open_handles w.
Proof.
  unfold Listener_Accept. destruct api_windows eqn:Ew; cbn [negb]; [|done].
  destruct (listener <? 0); [done|]. destruct (os_accept listener w) as [[h|] w1] eqn:Ea.
  - apply accept_opens in Ea as (Hh & Hn & Ho). unfold Socket_assign, Socket_Close. rewrite Ew. cbn [andb].
    change (status_ok Status_Ok) with true. cbv iota. split; [done|]. split; [done|]. split; [done|].
    destruct (0 <=? out); [by rewrite close_closes, Ho|]. rewrite Ho. set_solver.
  - apply accept_fails in Ea. by cbn.
Qed.
End Facts.

(** The laws of a transport follow from those of the calls. *)
#[export] Instance wired_laws {W Addr} `{SocketApiLaws W Addr} : TransportLaws (Wired W).
Proof.
  split. intros size [h w] status bytes s' Hs. cbn. unfold Socket_ReceiveSome. cbn [wired_handle wired_world].
  assert (Hnil : Forall is_byte (@nil Z) /\ vsize (@nil Z) <= size) by (split; [constructor|done]).
  destruct (negb api_windows); [by intros [= <- <- <-]|]. destruct (h <? 0); [by intros [= <- <- <-]|].
  destruct (os_recv _ _ w) as [[n data] w'] eqn:E. destruct (Z.eqb_spec n 0); [by intros [= <- <- <-]|].
  destruct (Z.ltb_spec n 0); [by intros [= <- <- <-]|]. intros [= <- <- <-].
  apply recv_gives in E as (Hn & Hmin & Hb); unfold kMaxTransfer in *; [split; [done|lia]|lia|lia].
Qed.

(** ** Properties *)

(** C22. A send is whole or it failed.  However little the system takes at a time,
    [SendAll] reports success exactly when every byte of the buffer was accepted,
    in order and none twice; when it reports a failure, what was accepted is a
    front of the buffer that leaves something out, or the socket was not open or
    the platform has no transport and nothing was sent.  It opens and closes no
    socket, and it always returns. *)
Theorem send_is_whole_or_failed {W Addr} `{SocketApiLaws W Addr} (handle : Z) (data : list Z) (w : W) :
  let '(status, w') := Socket_SendAll handle data w in
  open_handles w' = open_handles w /\
  exists sent rest, data = (sent ++ rest)%list /\
    accepted_bytes handle w' = (accepted_bytes handle w ++ sent)%list /\
    (status = Status_Ok /\ rest = [] /\ api_windows = true /\ 0 <= handle \/
     status_ok status = false /\ rest <> [] /\ api_windows = true /\ 0 <= handle \/
     status_ok status = false /\ sent = [] /\ w' = w /\ (api_windows = false \/ handle < 0)).
Proof.
  unfold Socket_SendAll. destruct api_windows; cbn [negb].
  - destruct (Z.ltb_spec handle 0) as [Hh|Hh].
    + split; [done|]. exists [], data. rewrite app_nil_r. auto 10.
    + destruct (send_rest _ _ _ w) as [status w'] eqn:E. apply send_rest_spec in E as (sent & rest & -> & Ho & Ha & Hs); [|done].
      split; [done|]. exists sent, rest. split; [done|]. split; [done|]. destruct Hs as [[-> ->]|[Hs Hr]]; auto 10.
  - split; [done|]. exists [], data. rewrite app_nil_r. auto 10.
Qed.

(** C20. Connections leak no sockets.  Connecting tries the candidates of the
    resolver in turn, binding does the same: when it succeeds, the socket it
    returns is new and it is the only one more that is open; when it fails, for
    whatever reason, exactly the sockets that were open before are open.  An
    accepted connection takes the place of the socket passed in, which is closed;
    a failed one leaves it alone. *)
Theorem connections_leak_nothing {W Addr} `{SocketApiLaws W Addr} (n : Net W) (host : string) (port backlog : Z) :
  let opened (result : Decoded Z * Net W) :=
    match fst result with
    | inr handle => opens_at_most (open_handles (net_world n)) (open_handles (net_world (snd result))) (Some handle)
    | inl status => status_ok status = false /\ open_handles (net_world (snd result)) = open_handles (net_world n)
    end in
  opened (Socket_Connect host port n) /\ opened (Listener_Bind host port backlog n) /\
  forall listener out w, let '(status, out', w') := Listener_Accept listener out w in
    if status_ok status
    then 0 <= out' /\ out' ∉ open_handles w /\
         open_handles w' = ({[ out' ]} ∪ open_handles w) ∖ (if 0 <=? out then {[ out ]} else ∅)
    else out' = out /\ open_handles w' = open_handles w.
Proof.
  intros opened. unfold opened. split; [|split].
  - pose proof (Socket_Connect_opens (Addr := Addr) host port n) as Hc. by destruct (Socket_Connect host port n) as [[?|?] ?]; [|apply Hc].
  - pose proof (Listener_Bind_opens (Addr := Addr) host port backlog n) as Hb.
    by destruct (Listener_Bind host port backlog n) as [[?|?] ?]; [|apply Hb].
  - intros listener out w. pose proof (Listener_Accept_opens (Addr := Addr) listener out w) as Ha.
    destruct (Listener_Accept listener out w) as [[status out'] w']. by destruct (status_ok status); [apply Ha|].
Qed.

(** ** Examples and witnesses *)

(** A system in memory: it takes at most three bytes per call and fails when its
    room is used up; the candidate 1 refuses connections, and the host "nowhere"
    has no address. *)
Record Loopback := mkLoopback {
  lb_open : list Z;
  lb_accepted : list (Z * Z);
  lb_room : Z;
  lb_incoming : list Z
}.

Definition fresh_handle (w : Loopback) : Z := 1 + foldr Z.max 0 (lb_open w).
Definition open_one (w : Loopback) : option Z * Loopback :=
  (Some (fresh_handle w), mkLoopback (fresh_handle w :: lb_open w) (lb_accepted w) (lb_room w) (lb_incoming w)).

#[export] Instance loopback : SocketApi Loopback Z := {|
  api_windows := true;
  WSAStartup w := (0, w);
  WSACleanup w := w;
  WSAGetLastError w := if lb_room w <=? 0 then 10054 else 10060;
  getaddrinfo host _ w := (match host with Some "nowhere" => None | _ => Some [1; 2] end, w);
  freeaddrinfo _ w := w;
  os_socket _ w := open_one w;
  os_connect _ a w := (negb (a =? 1), w);
  os_bind _ a w := (negb (a =? 1), w);
  os_listen _ _ w := (true, w);
  os_accept _ w := open_one w;
  closesocket h w := mkLoopback (List.filter (fun x => negb (x =? h)) (lb_open w)) (lb_accepted w) (lb_room w) (lb_incoming w);
  shutdown_send _ w := w;
  shutdown_both _ w := w;
  os_send h data w :=
    let n := Z.min 3 (Z.min (lb_room w) (vsize data)) in
    if n <=? 0 then (-1, w)
    else (n, mkLoopback (lb_open w) (lb_accepted w ++ map (pair h) (firstn (Z.to_nat n) data))%list (lb_room w - n) (lb_incoming w));
  os_recv _ size w :=
    let bytes := List.filter (fun b => (0 <=? b) && (b <? 256)) (lb_incoming w) in
    let data := firstn (Z.to_nat (Z.min 2 size)) bytes in
    (vsize data, data, mkLoopback (lb_open w) (lb_accepted w) (lb_room w) (skipn (length data) bytes));
  setsockopt _ _ _ w := (true, w);
  getsockname _ _ := Some (AF_Inet, 4711)
|}.

Lemma fresh_handle_fresh w : 0 <= fresh_handle w /\ fresh_handle w ∉ (list_to_set (lb_open w) : gset Z).
Proof.
  unfold fresh_handle. rewrite elem_of_list_to_set. assert (H : 0 <= foldr Z.max 0 (lb_open w) /\
    forall h, h ∈ lb_open w -> h <= foldr Z.max 0 (lb_open w)).
  { induction (lb_open w) as [|x l [IH0 IH]]; cbn; [by split; [|intros ? ?%elem_of_nil]|]. split; [lia|].
    intros h [->|Hh]%elem_of_cons; [lia|]. specialize (IH h Hh). lia. }
  split; [lia|]. intros Hin%H. lia.
Qed.

Lemma open_one_opens w h w' : open_one w = (Some h, w') ->
  0 <= h /\ h ∉ (list_to_set (lb_open w) : gset Z) /\
  (list_to_set (lb_open w') : gset Z) = {[ h ]} ∪ list_to_set (lb_open w).
Proof. intros [= <- <-]. destruct (fresh_handle_fresh w). by cbn. Qed.

#[export, refine] Instance loopback_laws : SocketApiLaws Loopback Z := {|
  open_handles w := list_to_set (lb_open w);
  accepted_bytes h w := map snd (List.filter (fun e => fst e =? h) (lb_accepted w))
|}.
Proof.
  all: try done.
  - intros a w h w'. apply open_one_opens.
  - intros l w h w'. apply open_one_opens.
  - intros h w. apply set_eq. intros x. cbn. rewrite elem_of_difference, !elem_of_list_to_set, elem_of_singleton,
      !list_elem_of_In, filter_In, negb_true_iff, Z.eqb_neq. done.
  - intros h data w n w'. cbn. destruct (Z.leb_spec (Z.min 3 (Z.min (lb_room w) (vsize data))) 0); intros [= <- <-].
    + cbn. unfold vsize. rewrite app_nil_r. split; [lia|done].
    + split; [lia|]. split; [done|]. cbn [lb_accepted]. rewrite List.filter_app, map_app. f_equal.
      induction (firstn _ data) as [|x l IH]; [done|]. cbn. rewrite Z.eqb_refl. cbn. by rewrite IH.
  - intros h size w n data w' [= <- <- <-] Hs Hn. split; [done|]. unfold vsize. rewrite length_firstn. split; [lia|].
    apply Forall_take, List.Forall_forall. intros b [_ Hb]%filter_In. unfold is_byte. lia.
Defined.

Definition loopback_world : Loopback := mkLoopback [] [] 8 [].

Lemma send_is_whole_or_failed_witness :
  fst (Socket_SendAll 7 [1; 2; 3; 4; 5; 6; 7; 8] loopback_world) = Status_Ok /\
  (exists sent rest, [1; 2; 3; 4; 5; 6; 7; 8; 9; 10] = (sent ++ rest)%list /\
     accepted_bytes 7 (snd (Socket_SendAll 7 [1; 2; 3; 4; 5; 6; 7; 8; 9; 10] loopback_world)) = sent /\ length sent = 8%nat).
Proof.
  split; [reflexivity|].
  pose proof (send_is_whole_or_failed 7 [1; 2; 3; 4; 5; 6; 7; 8; 9; 10] loopback_world) as H.
  destruct (Socket_SendAll _ _ _) as [status w'] eqn:E. destruct H as (_ & sent & rest & Hd & Ha & _).
  exists sent, rest. split; [exact Hd|]. split; [exact Ha|]. vm_compute in E. injection E as _ <-. vm_compute in Ha. by rewrite <- Ha.
Defined.

Lemma connections_leak_nothing_witness :
  let result := Socket_Connect "" 9000 (mkNet loopback_world 0) in
  fst result = inr 1 /\ open_handles (net_world (snd result)) = {[ 1 ]}.
Proof.
  destruct (connections_leak_nothing (mkNet loopback_world 0) "" 9000 5) as (H & _ & _). cbn zeta.
  assert (E : fst (Socket_Connect "" 9000 (mkNet loopback_world 0)) = inr 1) by reflexivity.
  cbv beta zeta in H. rewrite E in H. split; [exact E|]. destruct H as (_ & _ & H). rewrite H. reflexivity.
Defined.

(** The counter goes up with every connection and is never given back, so the
    subsystem is released only by as many shutdowns. *)
Example initialization_is_counted :
  let n1 := snd (Socket_Connect "" 9000 (mkNet loopback_world 0)) in
  let n2 := snd (Socket_Connect "" 9000 n1) in
  net_initialized n2 = 2 /\ net_initialized (ShutdownNetworking n2) = 1.
Proof. split; reflexivity. Qed.

(** What one side sends through a system that splits it is a frame to a session
    that reads it two bytes at a time. *)
Definition sent_bytes_of (data : list Z) : list Z :=
  map snd (lb_accepted (snd (Socket_SendAll 7 data (mkLoopback [7] [] 4096 [])))).
Definition hello_frame : list Z :=
  match EncodeFrame FT_Bye 0 1 "{}" default_limits with inr frame => frame | inl _ => [] end.
Example a_frame_through_the_system :
  fst (ReadFrame default_limits (mkWired 9 (mkLoopback [9] [] 0 (sent_bytes_of hello_frame)))) =
  match DecodeFrameHeader hello_frame default_limits with inr header => inr (header, string_bytes "{}") | inl s => inl s end.
Proof. vm_compute. reflexivity. Qed.
