(* ===== verification/Service.v ===== *)
(** * Serving connections

    server.cpp over the sockets of net.cpp: starting and stopping, the accepting
    thread with the refusal of a connection too many, the threads of the sessions
    and [ServeSingleSession].  A [Service] is the server with its listener, the
    networking of the process and the sessions whose threads have not closed their
    socket; a [service_step] is one iteration of one thread, so that a run
    interleaves any number of sessions with the accepting thread and with [Stop],
    whose three stages are steps of their own: it ends admission, it takes the
    threads of the table, which it clears while they may still run, and it returns
    when they have ended.
    What a session does in a round is [session_round] of Server.v on a socket of
    Net.v. *)

From Stdlib Require Import ZArith Lia List Bool Ascii String.
From stdpp Require Import base tactics list gmap strings.
From S2P Require Import Prelude Containers Text Status Time Identity Value Intent Observation Ledger Engine.
From S2P Require Import Json JsonHelp Wire Interchange Server Net.
#[local] Open Scope string_scope.
#[local] Open Scope Z_scope.
#[local] Arguments String.append : simpl nomatch.

Section Service.
Context {W Addr : Type} {api : SocketApi W Addr}.

(** A session's thread: its socket, its context, and whether its loop has ended.
    [sv_accepting] says that the accept thread has not left its loop, where
    [srv_accepting] of the server says that it has not been joined; [sv_stops] has
    the calls of [Stop] that have cleared the table and wait for session threads,
    each with the sessions it took. *)
Record Connection := mkConnection {
  cn_handle : Z;
  cn_context : SessionContext;
  cn_over : bool
}.

Record Service := mkService {
  sv_server : ObservationServer;
  sv_net : Net W;
  sv_listener : Z;
  sv_accepting : bool;
  sv_connections : list Connection;
  sv_stops : list (list Z)
}.

#[export] Instance eta_Service : Eta Service := fun s =>
  mkService (sv_server s) (sv_net s) (sv_listener s) (sv_accepting s) (sv_connections s) (sv_stops s).

Definition sv_world (s : Service) : W := net_world (sv_net s).
Definition on_world (w : W) (s : Service) : Service := s <| sv_net ::= fun n => mkNet w (net_initialized n) |>.

Definition new_service (server : ObservationServer) (net : Net W) : Service := mkService server net closed_handle false [] [].

(** ** Start and stop *)

(** The listener of the configuration in the place of the one there was. *)
Definition bind_listener (s : Service) : Decoded Z * Service :=
  let config := srv_config (sv_server s) in
  let '(status, net) := InitializeNetworking (sv_net s) in
  if negb (status_ok status) then (inl status, s <| sv_net := net |>)
  else
    let '(bound, net) := Listener_Bind (sc_bind_address config) (sc_port config) (sc_backlog config) net in
    match bound with
    | inl status => (inl status, s <| sv_net := net |>)
    | inr handle =>
        let '(listener, _, w) := Socket_assign (sv_listener s) handle (net_world net) in
        (inr (local_port listener w), s <| sv_net := mkNet w (net_initialized net) |> <| sv_listener := listener |>)
    end.

Definition close_listener (s : Service) : Service :=
  let '(listener, w) := Socket_Close (sv_listener s) (sv_world s) in on_world w s <| sv_listener := listener |>.

Definition Service_Start (s : Service) : Status * Service :=
  if srv_running (sv_server s) then (fst (Server_Start Status_Ok (inr 0) (sv_server s)), s)
  else
    let '(port, s) := bind_listener s in
    let '(status, server) := Server_Start Status_Ok port (sv_server s) in
    let s := s <| sv_server := server |> in
    match port with
    | inl _ => (status, s)
    | inr _ => (status, if status_ok status then s <| sv_accepting := true |> else close_listener s)
    end.

(** [CloseAllSessions]: the sockets of the sessions in the table are shut down;
    one that its thread has closed is not touched. *)
Definition CloseAllSessions (s : Service) : Service :=
  on_world (foldl (fun w c => if mmem (ctx_session_id (cn_context c)) (srv_sessions (sv_server s))
                              then ShutdownBoth (cn_handle c) w else w) (sv_world s) (sv_connections s)) s.

(** [Stop] up to the [join] of the accept thread. *)
Definition Stop_requested (s : Service) : Service :=
  if nothing_to_stop (sv_server s) then s
  else CloseAllSessions (close_listener (s <| sv_server ::= end_admission |>)).

(** From there to the [join] of the session threads: the threads of the table are
    taken and the table is cleared while they may still run. *)
Definition Stop_cleared (s : Service) : Service :=
  let '(threads, server) := take_sessions (sv_server s) in
  s <| sv_server := server |> <| sv_stops ::= cons threads |>.

(** The threads [Stop] took have ended when no session of theirs is left. *)
Definition threads_ended (threads : list Z) (s : Service) : bool :=
  forallb (fun c => negb (existsb (Z.eqb (ctx_session_id (cn_context c))) threads)) (sv_connections s).

(** The return of the call of [Stop] between [before] and [after]. *)
Definition Stop_joined (before after : list (list Z)) (s : Service) : Status * Service :=
  (Status_Ok, s <| sv_server ::= sessions_joined |> <| sv_stops := (before ++ after)%list |>).

(** ** The accepting thread *)

(** What a refused peer has sent is read away before the socket is closed. *)
Fixpoint drain (attempts : nat) (handle : Z) (w : W) : W :=
  match attempts with
  | O => w
  | S attempts =>
      let '(status, received, w) := Socket_ReceiveSome handle 512 w in
      if negb (status_ok status) || (vsize received =? 0) then w else drain attempts handle w
  end.

Definition refuse_connection (handle : Z) (server : ObservationServer) (w : W) : W :=
  let w := match refusal_frame server with inr frame => snd (Socket_SendAll handle frame w) | inl _ => w end in
  let w := ShutdownSend handle w in
  let w := snd (SetReceiveTimeoutMillis 250 handle w) in
  let w := drain 8 handle w in
  snd (Socket_Close handle w).

(** The first lines of [SessionLoop], which set options of the socket only. *)
Definition prepare_socket (server : ObservationServer) (handle : Z) (w : W) : W :=
  let timeout := sc_session_idle_timeout_millis (srv_config server) in
  let w := snd (SetNoDelay true handle w) in
  let w := snd (SetReceiveTimeoutMillis timeout handle w) in
  snd (SetSendTimeoutMillis timeout handle w).

(** One iteration of [AcceptLoop]. *)
Definition AcceptLoop_round (s : Service) : Service :=
  let '(status, socket, w) := Listener_Accept (sv_listener s) closed_handle (sv_world s) in
  if negb (status_ok status) then on_world w s
  else
    let '(id, server) := AcceptConnection (sv_server s) in
    let s := s <| sv_server := server |> in
    match id with
    | None => on_world (refuse_connection socket server w) s
    | Some id =>
        on_world (prepare_socket server socket w) s
          <| sv_connections ::= fun l => (l ++ [mkConnection socket (new_session id) false])%list |>
    end.

(** ** The threads of the sessions *)

(** A round of the session between [before] and [after]. *)
Definition session_advance (now : NdoTime) (before after : list Connection) (c : Connection) (s : Service) : Service :=
  if srv_stop_requested (sv_server s)
  then s <| sv_connections := (before ++ mkConnection (cn_handle c) (cn_context c) true :: after)%list |>
  else
    let '(next, context, (server, wired)) :=
      session_round now (cn_context c) (sv_server s, mkWired (cn_handle c) (sv_world s)) in
    on_world (wired_world wired) s <| sv_server := server |>
      <| sv_connections := (before ++ mkConnection (cn_handle c) context (negb next) :: after)%list |>.

(** The end of a session's thread. *)
Definition session_close (before after : list Connection) (c : Connection) (s : Service) : Service :=
  on_world (snd (Socket_Close (cn_handle c) (sv_world s))) s
    <| sv_server ::= FinishSession (ctx_session_id (cn_context c)) |>
    <| sv_connections := (before ++ after)%list |>.

(** ** [ServeSingleSession] *)

Definition Service_ServeSingleSession (times : list NdoTime) (s : Service) : Status * Service :=
  let '(ready, s) :=
    if handle_valid (sv_listener s) then (Status_Ok, s)
    else
      let '(port, s) := bind_listener s in
      match port with
      | inl status => (status, s)
      | inr port => (Status_Ok, s <| sv_server ::= fun server => server <| srv_bound_port := port |> |>)
      end in
  if negb (status_ok ready) then (ready, s)
  else
    let '(status, socket, w) := Listener_Accept (sv_listener s) closed_handle (sv_world s) in
    if negb (status_ok status) then (status, on_world w s)
    else
      let '(status, (server, wired)) :=
        ServeSingleSession times (sv_server s, mkWired socket (prepare_socket (sv_server s) socket w)) in
      (status, on_world (snd (Socket_Close socket (wired_world wired))) s <| sv_server := server |>).

(** ** Runs *)

(** What the threads and the callers of the server do.  [Start] is called when the
    server runs, and is refused, or when the accept thread has been joined (a
    second thread in its place would end the process); that is so already while a
    [Stop] waits for the sessions. *)
Inductive service_step (s : Service) : Service -> Prop :=
| step_start : srv_running (sv_server s) = true \/ srv_accepting (sv_server s) = false ->
    service_step s (snd (Service_Start s))
| step_accept : sv_accepting s = true -> srv_next_session_id (sv_server s) < UINT64_MAX ->
    service_step s (AcceptLoop_round s)
| step_accept_ends : sv_accepting s = true -> srv_stop_requested (sv_server s) = true ->
    service_step s (s <| sv_accepting := false |>)
| step_session now before c after : sv_connections s = (before ++ c :: after)%list -> cn_over c = false ->
    service_step s (session_advance now before after c s)
| step_close before c after : sv_connections s = (before ++ c :: after)%list -> cn_over c = true ->
    service_step s (session_close before after c s)
| step_stats : service_step s (s <| sv_server ::= fun server => snd (Server_Stats server) |>)
| step_single times : srv_next_session_id (sv_server s) < UINT64_MAX ->
    service_step s (snd (Service_ServeSingleSession times s))
| step_stop : service_step s (Stop_requested s)
| step_cleared : srv_stop_requested (sv_server s) = true -> srv_accepting (sv_server s) = true ->
    sv_accepting s = false -> service_step s (Stop_cleared s)
| step_stopped before threads after : sv_stops s = (before ++ threads :: after)%list ->
    threads_ended threads s = true -> service_step s (snd (Stop_joined before after s)).
End Service.

(** ** Facts: what a session does to its socket *)

(** The table of sessions and what bounds it are as they were. *)
Definition same_table (s s' : ObservationServer) : Prop :=
  srv_sessions s' = srv_sessions s /\ srv_next_session_id s' = srv_next_session_id s /\ srv_config s' = srv_config s /\
  srv_accepting s' = srv_accepting s.

#[export] Instance same_table_po : PreOrder same_table.
Proof. split; [done|]. intros a b c (H1 & H2 & H3 & H4) (H5 & H6 & H7 & H8). split_and!; congruence. Qed.

Section Round.
Context {T : Type} `{Transport T}.
Context (R : T -> T -> Prop) `{!PreOrder R}.
Context (Hsend : forall data t, R t (snd (SendAll data t))).
Context (Hreceive : forall size t, R t (snd (ReceiveSome size t))).

Definition related (s s' : Shared (T := T)) : Prop := same_table (fst s) (fst s') /\ R (snd s) (snd s').

Lemma related_refl s : related s s.
Proof. by split. Qed.
Lemma related_trans s1 s2 s3 : related s1 s2 -> related s2 s3 -> related s1 s3.
Proof. intros [H1 H2] [H3 H4]. split; by etransitivity. Qed.
Lemma related_server server server' socket : same_table server server' -> related (server, socket) (server', socket).
Proof. by split. Qed.

Lemma receive_until_related fuel want closed got socket :
  R socket (snd (receive_until fuel want closed got socket)).
Proof.
  revert got socket. induction fuel as [|fuel IH]; intros got socket; cbn [receive_until]; (case_match; [done|]); [done|].
  pose proof (Hreceive (want - vsize got) socket) as Hr. destruct (ReceiveSome _ socket) as [[status bytes] socket1].
  cbn [snd] in Hr. destruct (negb _); [done|]. destruct (_ =? 0); [done|]. by etransitivity; [|apply IH].
Qed.

Lemma ReadFrame_related limits socket : R socket (snd (ReadFrame limits socket)).
Proof.
  unfold ReadFrame. assert (Hh : R socket (snd (ReadHeader socket))).
  { unfold ReadHeader. pose proof (Hreceive kFrameHeaderBytes socket) as Hr.
    destruct (ReceiveSome _ socket) as [[status bytes] socket1]. cbn [snd] in Hr.
    destruct (negb _); [done|]. destruct (_ =? 0); [done|]. etransitivity; [exact Hr|]. apply receive_until_related. }
  destruct (ReadHeader socket) as [raw socket1]. cbn [snd] in Hh. destruct (dbind raw _) as [|header]; [done|].
  pose proof (receive_until_related (Z.to_nat (fh_payload_bytes header)) (fh_payload_bytes header)
    (Status_Rejected RC_WireFrameTruncated "the peer closed before the frame was complete") [] socket1) as Hp.
  unfold ReceiveExact. destruct (receive_until _ _ _ _ socket1) as [payload socket2]. cbn [snd] in *. by etransitivity.
Qed.

Lemma SendFrame_related type flags sequence payload s : related s (snd (SendFrame type flags sequence payload s)).
Proof.
  destruct s as [server socket]. unfold SendFrame. destruct (EncodeFrame _ _ _ _ _) as [|frame]; [apply related_refl|].
  pose proof (Hsend frame socket) as Hs. destruct (SendAll frame socket) as [status socket1]. cbn [snd] in Hs.
  destruct (negb _); by split.
Qed.

Lemma sent_related type flags sequence payload s status s' :
  SendFrame type flags sequence payload s = (status, s') -> related s s'.
Proof. intros E. pose proof (SendFrame_related type flags sequence payload s) as Hr. by rewrite E in Hr. Qed.

Lemma tallied f s s' : related s s' -> related s (on_server (tally f) s').
Proof. intros [H1 H2]. split; [|done]. by etransitivity; [exact H1|]. Qed.

Lemma from_server server s s' : same_table (fst s) server -> related (server, snd s) s' -> related s s'.
Proof. intros Ht. apply related_trans. by split. Qed.

Lemma HandleHello_related payload now context s : related s (snd (HandleHello payload now context s)).
Proof.
  unfold HandleHello. destruct (parse_document _ _ _) as [status|hello]; [apply SendFrame_related|].
  destruct (admit_hello hello now (fst s)) as [refusal server] eqn:Ea.
  assert (Ht : same_table (fst s) server).
  { unfold admit_hello, register_greeting in Ea. destruct (fence_hello _ _) as [[why counted] fences].
    destruct counted, why; try (by injection Ea as <- <-).
    all: destruct (RegisterSource _ _) as [registration observatory]; by injection Ea as <- <-. }
  destruct (SendFrame _ _ _ _ _) as [sent s'] eqn:Es. apply sent_related in Es. apply from_server in Es; [|done].
  destruct (negb _); [done|]. destruct (negb _); [|done]. by apply tallied.
Qed.

Lemma refuse_snapshot_related ack stale s : related s (snd (refuse_snapshot ack stale s)).
Proof.
  unfold refuse_snapshot. destruct (SendFrame _ _ _ _ _) as [sent s'] eqn:Es. apply sent_related in Es. by apply tallied.
Qed.

Lemma HandleSnapshot_related payload now context s : related s (snd (HandleSnapshot payload now context s)).
Proof.
  unfold HandleSnapshot. destruct (ParseObservationJson _ _) as [status|snapshot]; [apply refuse_snapshot_related|].
  destruct (admit_snapshot snapshot context (fst s)) as [refusal server] eqn:Ea.
  assert (Ht : same_table (fst s) server).
  { unfold admit_snapshot in Ea. destruct (negb _); [by injection Ea as <- <-|]. destruct (_ || _); [by injection Ea as <- <-|].
    destruct (FenceSnapshot _ _ _ _ _ _). by injection Ea as <- <-. }
  destruct refusal as [[[reason detail] stale]|].
  - eapply from_server; [exact Ht|]. apply refuse_snapshot_related.
  - destruct (IngestObservation _ _ _ _) as [[ingest admission] observatory].
    eapply from_server; [|apply SendFrame_related]. exact Ht.
Qed.

Lemma HandleIntent_related payload now s : related s (snd (HandleIntent payload now s)).
Proof.
  unfold HandleIntent. destruct (ParseIntentJson _ _) as [status|intent]; [apply SendFrame_related|].
  destruct (PublishIntent _ _ _ _) as [[committed report] observatory].
  eapply from_server; [|apply SendFrame_related]. by destruct (status_ok committed).
Qed.

Lemma HandleFrame_related header payload now context s : related s (snd (HandleFrame header payload now context s)).
Proof.
  unfold HandleFrame. destruct (_ && _); [apply SendFrame_related|].
  destruct (fh_type header); try apply SendFrame_related.
  - apply HandleHello_related.
  - apply HandleSnapshot_related.
  - apply HandleIntent_related.
  - apply related_refl.
Qed.

Lemma session_round_related now context s : related s (snd (session_round now context s)).
Proof.
  unfold session_round. pose proof (ReadFrame_related (server_limits (fst s)) (snd s)) as Hr.
  destruct (ReadFrame _ _) as [frame socket]. cbn [snd] in Hr.
  assert (Hs : related s (fst s, socket)) by by split.
  destruct frame as [status|[header payload]].
  - unfold read_failed. destruct (eqb _ _); [exact Hs|]. eapply related_trans; [exact Hs|].
    eapply related_trans; [|apply SendFrame_related]. by apply tallied, related_refl.
  - destruct (HandleFrame _ _ _ _ _) as [[handled context'] s'] eqn:Eh. cbn [snd].
    pose proof (HandleFrame_related header payload now context (on_server (tally (fun t => t <| ss_frames_received ::= bump |>)) (fst s, socket))) as Hh.
    rewrite Eh in Hh. cbn [snd] in Hh. eapply related_trans; [exact Hs|]. eapply related_trans; [|exact Hh].
    by apply tallied, related_refl.
Qed.

Lemma SessionLoop_related times context s : related s (snd (SessionLoop times context s)).
Proof.
  revert context s. induction times as [|now times IH]; intros context s; [apply related_refl|]. cbn [SessionLoop].
  destruct (srv_stop_requested (fst s)); [apply related_refl|].
  pose proof (session_round_related now context s) as Hr. destruct (session_round now context s) as [[next context'] s'].
  cbn [snd] in Hr. destruct next; [|exact Hr]. eapply related_trans; [exact Hr|]. apply IH.
Qed.
End Round.

(** ** Facts: sockets *)

Section Sockets.
Context {W Addr : Type} {api : SocketApi W Addr} {laws : SocketApiLaws W Addr}.
Implicit Types (w : W) (s : Service (W := W)).

Lemma Socket_SendAll_opens handle data w : open_handles (snd (Socket_SendAll handle data w)) = open_handles w.
Proof.
  unfold Socket_SendAll. destruct (negb _); [done|]. destruct (handle <? 0); [done|].
  destruct (send_rest _ _ _ w) as [status w'] eqn:E. by apply send_rest_spec in E as (? & ? & _ & ? & _).
Qed.

Lemma Socket_ReceiveSome_opens handle size w : open_handles (snd (Socket_ReceiveSome handle size w)) = open_handles w.
Proof.
  unfold Socket_ReceiveSome. destruct (negb _); [done|]. destruct (handle <? 0); [done|].
  pose proof (recv_opens handle (Z.min kMaxTransfer size) w) as Hr.
  destruct (os_recv _ _ w) as [[result data] w']. cbn [snd] in Hr. destruct (result =? 0); [done|]. by destruct (result <? 0).
Qed.

Lemma set_option_opens option value handle w : open_handles (snd (set_option option value handle w)) = open_handles w.
Proof.
  unfold set_option. destruct (negb _); [done|]. destruct (handle <? 0); [done|].
  pose proof (option_opens handle option value w) as Ho. by destruct (setsockopt _ _ _ w).
Qed.

Lemma ShutdownSend_opens handle w : open_handles (ShutdownSend handle w) = open_handles w.
Proof. unfold ShutdownSend. destruct (_ && _); [apply shutdown_send_opens|done]. Qed.
Lemma ShutdownBoth_opens handle w : open_handles (ShutdownBoth handle w) = open_handles w.
Proof. unfold ShutdownBoth. destruct (_ && _); [apply shutdown_both_opens|done]. Qed.

Lemma drain_opens attempts handle w : open_handles (drain attempts handle w) = open_handles w.
Proof.
  revert w. induction attempts as [|attempts IH]; intros w; [done|]. cbn [drain].
  pose proof (Socket_ReceiveSome_opens handle 512 w) as Hr. destruct (Socket_ReceiveSome _ _ w) as [[status data] w'].
  cbn [snd] in Hr. destruct (_ || _); [done|]. by rewrite IH.
Qed.

Lemma prepare_socket_opens server handle w : open_handles (prepare_socket server handle w) = open_handles w.
Proof. unfold prepare_socket, SetNoDelay, SetReceiveTimeoutMillis, SetSendTimeoutMillis. by rewrite !set_option_opens. Qed.

(** A session leaves its socket the one it was, and opens and closes none. *)
Definition same_socket (t t' : Wired W) : Prop :=
  wired_handle t' = wired_handle t /\ open_handles (wired_world t') = open_handles (wired_world t).

#[export] Instance same_socket_po : PreOrder same_socket.
Proof. split; [done|]. intros a b c [H1 H2] [H3 H4]. split; congruence. Qed.

Lemma wired_sends data (t : Wired W) : same_socket t (snd (SendAll data t)).
Proof.
  destruct t as [h w]. cbn. pose proof (Socket_SendAll_opens h data w) as Hs.
  by destruct (Socket_SendAll h data w) as [status w'].
Qed.
Lemma wired_receives size (t : Wired W) : same_socket t (snd (ReceiveSome size t)).
Proof.
  destruct t as [h w]. cbn. pose proof (Socket_ReceiveSome_opens h size w) as Hs.
  by destruct (Socket_ReceiveSome h size w) as [[status data] w'].
Qed.

(** ** Facts: what is held *)

(** Besides what was open before, exactly these handles are, each of them once. *)
Record holds (base : gset Z) (w : W) (handles : list Z) : Prop := {
  held_once : NoDup handles;
  held_new : Forall (fun h => 0 <= h /\ h ∉ base) handles;
  held_open : open_handles w = base ∪ list_to_set handles;
  held_windows : handles <> [] -> api_windows (W := W) (Addr := Addr) = true
}.

Lemma holds_same base w w' handles : open_handles w' = open_handles w -> holds base w handles -> holds base w' handles.
Proof. intros E []. constructor; [done|done|by rewrite E|done]. Qed.

Lemma holds_perm base w l k : l ≡ₚ k -> holds base w l -> holds base w k.
Proof.
  intros Hp []. constructor; [by rewrite <- Hp|by rewrite <- Hp|by rewrite held_open0, (list_to_set_perm_L l k Hp)|].
  intros Hk. apply held_windows0. intros ->. by apply Permutation_nil_l in Hp.
Qed.

Lemma holds_opened base w w' h handles : api_windows (W := W) (Addr := Addr) = true -> 0 <= h -> h ∉ open_handles w -> open_handles w' = {[ h ]} ∪ open_handles w ->
  holds base w handles -> holds base w' (h :: handles).
Proof.
  intros Ew Hh Hn Ho []. rewrite held_open0 in *. constructor; [..|done].
  - constructor; [set_solver|done].
  - constructor; [split; [done|set_solver]|done].
  - rewrite Ho. set_solver.
Qed.

Lemma holds_closed base w h handles : holds base w (h :: handles) ->
  holds base (snd (Socket_Close h w)) handles.
Proof.
  intros []. assert (Ew : api_windows (W := W) (Addr := Addr) = true) by by apply held_windows0.
  apply NoDup_cons in held_once0 as [Hh Hn]. apply Forall_cons in held_new0 as [[Hpos Hb] Hf].
  constructor; [done|done| |done]. unfold Socket_Close. rewrite Ew, (proj2 (Z.leb_le _ _) Hpos). cbn [andb snd].
  rewrite close_closes, held_open0. apply set_eq. intros x. set_solver.
Qed.

Definition listener_handles (listener : Z) : list Z := if 0 <=? listener then [listener] else [].

Lemma Socket_Close_listener base w listener handles :
  holds base w (listener_handles listener ++ handles) -> holds base (snd (Socket_Close listener w)) handles.
Proof.
  intros Hh. unfold listener_handles in Hh. destruct (0 <=? listener) eqn:El; [by apply holds_closed|].
  unfold Socket_Close. rewrite El, andb_false_r. done.
Qed.

(** ** Facts: steps *)

Definition cn_id (c : Connection) : Z := ctx_session_id (cn_context c).

(** The threads are the ones they were, and so is what they hold; the accept
    thread may have ended. *)
Definition same_threads (s s' : Service (W := W)) : Prop :=
  map cn_handle (sv_connections s') = map cn_handle (sv_connections s) /\
  map cn_id (sv_connections s') = map cn_id (sv_connections s) /\
  sv_stops s' = sv_stops s /\ (sv_accepting s' = true -> sv_accepting s = true).

Lemma bind_listener_holds base s handles :
  holds base (sv_world s) (listener_handles (sv_listener s) ++ handles) ->
  let '(port, s') := bind_listener s in
  (sv_server s' = sv_server s) /\ same_threads s s' /\
  holds base (sv_world s') (listener_handles (sv_listener s') ++ handles).
Proof.
  intros Hh. unfold bind_listener, sv_world in *. pose proof (InitializeNetworking_opens (Addr := Addr) (sv_net s)) as Hi. cbn zeta in Hi.
  destruct (InitializeNetworking (sv_net s)) as [status net]. cbn [snd] in Hi.
  destruct (negb (status_ok status)); [split_and!; try done; by eapply holds_same|].
  pose proof (Listener_Bind_opens (Addr := Addr) (sc_bind_address (srv_config (sv_server s)))
    (sc_port (srv_config (sv_server s))) (sc_backlog (srv_config (sv_server s))) net) as Hb.
  destruct (Listener_Bind _ _ _ net) as [[status'|handle] net'].
  { destruct Hb as [_ Hb]. split_and!; try done. eapply holds_same; [|exact Hh]. cbn. congruence. }
  destruct Hb as (Ew & Hpos & Hnew & Ho). rewrite Hi in Hnew, Ho.
  pose proof (holds_opened base _ _ handle _ Ew Hpos Hnew Ho Hh) as Hh1. unfold Socket_assign.
  destruct (Socket_Close (sv_listener s) (net_world net')) as [closed w] eqn:Ec. split_and!; try done.
  apply (holds_perm _ _ _ (listener_handles (sv_listener s) ++ handle :: handles)) in Hh1; [|by apply Permutation_middle].
  apply Socket_Close_listener in Hh1. rewrite Ec in Hh1.
  cbn. unfold listener_handles. rewrite (proj2 (Z.leb_le _ _)) by done. exact Hh1.
Qed.

Lemma close_listener_holds base s handles :
  holds base (sv_world s) (listener_handles (sv_listener s) ++ handles) ->
  let s' := close_listener s in
  (sv_server s' = sv_server s) /\ same_threads s s' /\ (sv_listener s' = closed_handle) /\
  holds base (sv_world s') handles.
Proof. intros Hh. apply Socket_Close_listener in Hh. done. Qed.

Lemma refuse_connection_holds base handle server w handles : holds base w (handle :: handles) ->
  holds base (refuse_connection handle server w) handles.
Proof.
  intros Hh. unfold refuse_connection. apply holds_closed. eapply holds_same; [|exact Hh].
  rewrite drain_opens. unfold SetReceiveTimeoutMillis. rewrite set_option_opens, ShutdownSend_opens.
  destruct (refusal_frame server); [done|]. apply Socket_SendAll_opens.
Qed.

(** A round keeps the identity of the session. *)
Lemma session_round_id {T} `{Transport T} now context (s : Shared (T := T)) :
  ctx_session_id (snd (fst (session_round now context s))) = ctx_session_id context.
Proof.
  unfold session_round. destruct (ReadFrame _ _) as [[status|[header payload]] socket]; [done|].
  destruct (HandleFrame _ _ _ _ _) as [[handled context'] s'] eqn:E. cbn [fst snd].
  unfold HandleFrame in E. destruct (_ && _); [by injection E as <- <- <-|].
  destruct (fh_type header); try by injection E as <- <- <-.
  unfold HandleHello in E. destruct (parse_document _ _ _); [by injection E as <- <- <-|].
  destruct (admit_hello _ _ _) as [refusal server]. destruct (SendFrame _ _ _ _ _) as [sent s2].
  destruct (negb _); [by injection E as <- <- <-|]. destruct (negb _); by injection E as <- <- <-.
Qed.

(** What holds of a service in every run. *)
Record service_ok (base : gset Z) (limits : RuntimeLimits) (s : Service) : Prop := {
  so_holds : holds base (sv_world s) (listener_handles (sv_listener s) ++ map cn_handle (sv_connections s));
  so_ids : NoDup (map cn_id (sv_connections s));
  so_listed : Forall (fun id => mfind id (srv_sessions (sv_server s)) = Some false \/ id ∈ concat (sv_stops s))
    (map cn_id (sv_connections s));
  so_table : table_ok limits (sv_server s);
  so_next : 0 <= srv_next_session_id (sv_server s) <= UINT64_MAX;
  so_fresh : forall id b, mfind id (srv_sessions (sv_server s)) = Some b -> id < srv_next_session_id (sv_server s);
  so_taken : Forall (fun id => id < srv_next_session_id (sv_server s)) (concat (sv_stops s));
  so_joinable : sv_accepting s = true -> srv_accepting (sv_server s) = true;
  so_stopped : srv_accepting (sv_server s) = false -> srv_sessions (sv_server s) = []
}.

(** The table of another server, and the world, may be the same. *)
Lemma service_ok_same base limits s s' : service_ok base limits s -> same_table (sv_server s) (sv_server s') ->
  same_threads s s' ->
  holds base (sv_world s') (listener_handles (sv_listener s') ++ map cn_handle (sv_connections s)) ->
  service_ok base limits s'.
Proof.
  intros [] (Ht & Hn & Hc & Ha) (Eh & Ei & Es & Et) Hh.
  constructor; rewrite ?Ht, ?Hn, ?Ha, ?Es, ?Ei, ?Eh; auto.
  destruct so_table0 as (H1 & H2 & H3). unfold table_ok, server_limits in *. by rewrite Ht, Hc.
Qed.
End Sockets.

Section Steps.
Context {W Addr : Type} {api : SocketApi W Addr} {laws : SocketApiLaws W Addr}.
Context (base : gset Z) (limits : RuntimeLimits) (Hlimit : 0 <= max_sessions limits).
Implicit Types (w : W) (s : Service (W := W)).
Notation ok := (service_ok (Addr := Addr) base limits).

(** *** The table of sessions *)

Definition numbered (server : ObservationServer) : Prop :=
  0 <= srv_next_session_id server <= UINT64_MAX /\
  forall id b, mfind id (srv_sessions server) = Some b -> id < srv_next_session_id server.

Lemma mfind_filter_true {K V} `{Ordered K} (test : K * V -> bool) (m : omap K V) k v : msorted m ->
  mfind k (List.filter test m) = Some v <-> mfind k m = Some v /\ test (k, v) = true.
Proof.
  intros Hs. split.
  - intros Hf%mfind_In. apply filter_In in Hf as [Hin Ht]. split; [by apply mfind_In_sorted|done].
  - intros [Hf Ht]. apply mfind_In_sorted; [by apply filter_msorted|]. apply filter_In. split; [by apply mfind_In|done].
Qed.

Lemma reaped server : table_ok limits server -> numbered server ->
  table_ok limits (ReapFinishedSessions server) /\ numbered (ReapFinishedSessions server) /\
  forall id, mfind id (srv_sessions server) = Some false ->
    mfind id (srv_sessions (ReapFinishedSessions server)) = Some false.
Proof.
  intros Ht [Hn Hf]. split; [by apply reap_ok|]. destruct Ht as (_ & Hs & _). cbn. split.
  - split; [done|]. intros id b [Hid _]%mfind_filter_true; [|done]. by apply (Hf id b).
  - intros id Hid. by apply mfind_filter_true.
Qed.

Lemma accepted_connection server : table_ok limits server -> numbered server ->
  srv_next_session_id server < UINT64_MAX ->
  let '(id, server') := AcceptConnection server in
  table_ok limits server' /\ numbered server' /\
  (forall id, mfind id (srv_sessions server) = Some false -> mfind id (srv_sessions server') = Some false) /\
  srv_next_session_id server' = srv_next_session_id server + 1 /\ srv_accepting server' = srv_accepting server /\
  match id with
  | Some id => mfind id (srv_sessions server') = Some false /\ id = srv_next_session_id server
  | None => True
  end.
Proof.
  intros Ht Hn Hmax. assert (Hstep : table_ok limits (snd (AcceptConnection server)))
    by (eapply (table_step_ok limits server); [done|constructor|done]).
  destruct (reaped server Ht Hn) as (Ht1 & [Hn1 Hf1] & Hr).
  destruct Hn as [Hn Hf]. unfold AcceptConnection in *.
  set (t := ReapFinishedSessions server) in *.
  assert (Hnext : srv_next_session_id t = srv_next_session_id server) by done.
  assert (Ha : srv_accepting t = srv_accepting server) by done.
  clearbody t. cbn [srv_next_session_id] in *.
  assert (Hb : bump (srv_next_session_id t) = srv_next_session_id t + 1)
    by (unfold bump, wrap64; apply Z.mod_small; unfold UINT64_MAX in *; lia).
  destruct (max_sessions _ <=? _); cbn [snd] in Hstep; (split; [exact Hstep|]).
  - split; [|split_and!; [done|cbn; lia|done..]]. split; cbn; rewrite Hb; [lia|]. intros id b Hid%Hf1. lia.
  - assert (Hnone : mfind (srv_next_session_id t) (srv_sessions t) = None).
    { destruct (mfind _ _) as [b|] eqn:E; [|done]. apply Hf1 in E. lia. }
    destruct Ht1 as (_ & Hs & _).
    assert (Hfind : forall id, mfind id (memplace (srv_next_session_id t) false (srv_sessions t)) =
      if eqb id (srv_next_session_id t) then Some false else mfind id (srv_sessions t)).
    { intros id. unfold memplace. rewrite Hnone. rewrite mfind_insert. by destruct (eqb _ _). }
    split; [split; cbn; rewrite Hb; [lia|]|split; [|split; [cbn; lia|split; [exact Ha|]]]].
    + intros id b. rewrite Hfind. destruct (eqb id _) eqn:E; [apply eqb_eq in E; lia|]. intros Hid%Hf1. lia.
    + intros id Hid. cbn. rewrite Hfind. destruct (eqb id _); [done|auto].
    + cbn. rewrite Hfind, eqb_refl. done.
Qed.

Lemma finished_session id server : table_ok limits server -> numbered server ->
  table_ok limits (FinishSession id server) /\ numbered (FinishSession id server) /\
  (forall other, other <> id -> mfind other (srv_sessions server) = Some false ->
    mfind other (srv_sessions (FinishSession id server)) = Some false) /\
  srv_accepting (FinishSession id server) = srv_accepting server /\
  srv_next_session_id (FinishSession id server) = srv_next_session_id server /\
  (srv_sessions server = [] -> srv_sessions (FinishSession id server) = []).
Proof.
  intros Ht [Hn Hf]. split; [eapply (table_step_ok limits server); [done|constructor|done]|].
  unfold FinishSession. destruct (mfind id (srv_sessions server)) as [b|] eqn:E; [|by split_and!].
  cbn. split; [split; [done|]|split_and!; [|done..|by intros Es; rewrite Es in E]].
  - intros other b'. cbn. rewrite mfind_insert. destruct (eqb _ _) eqn:Eo; [|apply Hf].
    apply eqb_eq in Eo as ->. intros _. by eapply Hf.
  - intros other Ho Hm. by rewrite mfind_insert_ne by congruence.
Qed.

Lemma so_numbered s : ok s -> numbered (sv_server s).
Proof. by intros []. Qed.

(** A server of another table for the same connections. *)
Lemma service_ok_server s w server : ok s -> table_ok limits server -> numbered server ->
  srv_next_session_id (sv_server s) <= srv_next_session_id server ->
  (forall id, mfind id (srv_sessions (sv_server s)) = Some false -> mfind id (srv_sessions server) = Some false) ->
  srv_accepting server = srv_accepting (sv_server s) ->
  (srv_accepting server = false -> srv_sessions server = []) ->
  holds (Addr := Addr) base w (listener_handles (sv_listener s) ++ map cn_handle (sv_connections s)) ->
  ok (on_world w (s <| sv_server := server |>)).
Proof.
  intros [] Ht [Hn Hf] Hle Hr Ha Hs Hh. constructor; cbn; rewrite ?Ha in *; auto.
  - eapply Forall_impl; [exact so_listed0|]. intros id []; auto.
  - eapply Forall_impl; [exact so_taken0|]. cbn. lia.
Qed.

(** *** The steps *)

Lemma Server_Start_effect port server :
  let '(status, server') := Server_Start Status_Ok port server in
  srv_sessions server' = srv_sessions server /\ srv_next_session_id server' = srv_next_session_id server /\
  srv_config server' = srv_config server /\
  (srv_running server = false -> srv_accepting server' =
    if status_ok status then match port with inl _ => srv_accepting server | inr _ => true end
    else srv_accepting server).
Proof.
  unfold Server_Start. destruct (srv_running server); [done|]. cbn [negb status_ok].
  change (negb (status_ok Status_Ok)) with false. cbv iota.
  destruct port as [status|port]; [by destruct (status_ok status)|]. by destruct (port =? 0).
Qed.

Lemma started_ok s : ok s -> ok (snd (Service_Start s)).
Proof.
  intros Hok. unfold Service_Start. destruct (srv_running (sv_server s)) eqn:Er; [done|].
  pose proof (bind_listener_holds base s _ (so_holds _ _ _ Hok)) as Hb.
  destruct (bind_listener s) as [port s1]. destruct Hb as (Hs & Hc & Hh).
  assert (Hok1 : ok s1) by (eapply service_ok_same; [exact Hok|by rewrite Hs|exact Hc|exact Hh]).
  pose proof (Server_Start_effect port (sv_server s1)) as He.
  destruct (Server_Start Status_Ok port (sv_server s1)) as [status server].
  destruct He as (Ht & Hn & Hconf & Ha). rewrite Hs in Ha at 1. specialize (Ha Er).
  assert (Hsame : srv_accepting server = srv_accepting (sv_server s1) -> ok (s1 <| sv_server := server |>)).
  { intros Ea. eapply service_ok_same; [exact Hok1|done|done|apply (so_holds _ _ _ Hok1)]. }
  destruct port as [why|port]; cbn [snd]; [apply Hsame; by destruct (status_ok status)|].
  destruct (status_ok status); cbn [snd].
  - destruct Hok1. constructor; cbn; rewrite ?Ht, ?Hn, ?Ha; auto; [|done].
    destruct so_table0 as (H1 & H2 & H3). unfold table_ok, server_limits in *. by rewrite Ht, Hconf.
  - specialize (Hsame Ha). destruct (close_listener_holds base _ _ (so_holds _ _ _ Hsame)) as (H1 & H2 & H3 & H4).
    eapply service_ok_same; [exact Hsame|by rewrite H1|exact H2|]. rewrite H3. exact H4.
Qed.

Lemma accepting_ok s : ok s -> sv_accepting s = true -> srv_next_session_id (sv_server s) < UINT64_MAX -> ok (AcceptLoop_round s).
Proof.
  intros Hok Hacc Hmax. unfold AcceptLoop_round.
  pose proof (Listener_Accept_opens (Addr := Addr) (sv_listener s) closed_handle (sv_world s)) as Ha.
  destruct (Listener_Accept _ _ (sv_world s)) as [[status socket] w]. destruct (status_ok status); cbn [negb].
  2: { destruct Ha as [_ Ha]. eapply service_ok_same; [exact Hok|done|done|]. cbn.
       eapply holds_same; [exact Ha|apply (so_holds _ _ _ Hok)]. }
  destruct Ha as (Ew & Hpos & Hnew & Ho). change (0 <=? closed_handle) with false in Ho. cbv iota in Ho.
  rewrite difference_empty_L in Ho.
  pose proof (holds_opened base _ _ socket _ Ew Hpos Hnew Ho (so_holds _ _ _ Hok)) as Hh.
  pose proof (accepted_connection (sv_server s) (so_table _ _ _ Hok) (so_numbered s Hok) Hmax) as Hc.
  assert (Hopen : srv_accepting (sv_server s) = true) by by apply (so_joinable _ _ _ Hok).
  destruct (AcceptConnection (sv_server s)) as [[id|] server]; destruct Hc as (Ht & Hn & Hr & Hnext & Ha & Hid).
  - destruct Hok, Hid as [Hid Hfresh]. constructor; cbn; rewrite ?Ha, ?Hopen, ?map_app; cbn [map cn_handle cn_id]; try done.
    + eapply holds_same; [apply prepare_socket_opens|].
      eapply holds_perm; [|exact Hh]. rewrite app_assoc. apply Permutation_cons_append.
    + apply NoDup_app. split; [done|]. split; [|apply NoDup_singleton].
      intros other Ho' Hin. apply list_elem_of_singleton in Hin as ->.
      rewrite Forall_forall in so_listed0, so_taken0.
      subst id. apply so_listed0 in Ho' as [Hl%so_fresh0|Ht'%so_taken0]; cbn in *; lia.
    + apply Forall_app. split; [|apply Forall_singleton; by left]. eapply Forall_impl; [exact so_listed0|]. intros other []; auto.
    + apply Hn.
    + apply Hn.
    + eapply Forall_impl; [exact so_taken0|]. cbn. lia.
  - apply service_ok_server; [done..|lia|done|done|congruence|]. by apply refuse_connection_holds.
Qed.

Lemma connection_advanced_ok s now before c after : ok s -> sv_connections s = (before ++ c :: after)%list ->
  ok (session_advance now before after c s).
Proof.
  intros Hok Hc. unfold session_advance. destruct (srv_stop_requested (sv_server s)).
  { eapply service_ok_same; [exact Hok|done|split_and!; cbn; rewrite ?Hc, ?map_app; done|apply (so_holds _ _ _ Hok)]. }
  pose proof (session_round_related same_socket wired_sends wired_receives now (cn_context c)
    (sv_server s, mkWired (cn_handle c) (sv_world s))) as [Ht Hs].
  pose proof (session_round_id now (cn_context c) (sv_server s, mkWired (cn_handle c) (sv_world s))) as Hi.
  destruct (session_round _ _ _) as [[next context] [server wired]]. cbn [fst snd] in *.
  eapply service_ok_same; [exact Hok|exact Ht| |cbn; eapply holds_same; [apply Hs|apply (so_holds _ _ _ Hok)]].
  split_and!; cbn; rewrite ?Hc, ?map_app; [done| |done..]. cbn [map]. do 2 f_equal. exact Hi.
Qed.

Lemma closed_ok s before c after : ok s -> sv_connections s = (before ++ c :: after)%list ->
  ok (session_close before after c s).
Proof.
  intros Hok Hc. unfold session_close.
  destruct (finished_session (cn_id c) (sv_server s) (so_table _ _ _ Hok) (so_numbered s Hok)) as (Ht & Hn & Hr & Ha & Hnext & Hs).
  destruct Hok. rewrite Hc, map_app in *. cbn [map] in *. rewrite <- Permutation_middle in so_ids0, so_listed0.
  apply NoDup_cons in so_ids0 as [Hno Hids]. apply Forall_cons in so_listed0 as [_ Hl].
  constructor; cbn -[FinishSession]; rewrite ?map_app.
  - apply holds_closed. eapply holds_perm; [|exact so_holds0].
    rewrite (app_assoc _ _ (cn_handle c :: _)), <- Permutation_middle. by rewrite app_assoc.
  - done.
  - rewrite Forall_forall in Hl |- *. intros id Hin. destruct (Hl id Hin) as [Hf|]; [left|by right].
    apply Hr; [|done]. by intros ->.
  - done.
  - apply Hn.
  - apply Hn.
  - fold (cn_id c). by rewrite Hnext.
  - fold (cn_id c). by rewrite Ha.
  - fold (cn_id c). rewrite Ha. auto.
Qed.

Lemma stats_ok s : ok s -> ok (s <| sv_server ::= fun server => snd (Server_Stats server) |>).
Proof.
  intros Hok. destruct (reaped (sv_server s) (so_table _ _ _ Hok) (so_numbered s Hok)) as (Ht & Hn & Hr).
  assert (Hs : srv_accepting (sv_server s) = false -> srv_sessions (ReapFinishedSessions (sv_server s)) = []).
  { intros Ha%(so_stopped _ _ _ Hok). cbn. by rewrite Ha. }
  pose proof (service_ok_server s (sv_world s) (ReapFinishedSessions (sv_server s)) Hok Ht Hn (Z.le_refl _) Hr eq_refl Hs
    (so_holds _ _ _ Hok)) as H.
  destruct H. by constructor.
Qed.

Lemma single_ok s times : ok s -> srv_next_session_id (sv_server s) < UINT64_MAX -> ok (snd (Service_ServeSingleSession times s)).
Proof.
  intros Hok Hmax. unfold Service_ServeSingleSession.
  set (prepared := if handle_valid (sv_listener s) then _ else _).
  assert (Hp : ok (snd prepared) /\ srv_next_session_id (sv_server (snd prepared)) = srv_next_session_id (sv_server s)).
  { subst prepared. destruct (handle_valid _); [done|].
    pose proof (bind_listener_holds base s _ (so_holds _ _ _ Hok)) as Hb.
    destruct (bind_listener s) as [port s1]. destruct Hb as (Hs & Hc & Hh).
    assert (Hok1 : ok s1) by (eapply service_ok_same; [exact Hok|by rewrite Hs|exact Hc|exact Hh]).
    destruct port as [|port]; cbn [snd]; [by rewrite Hs|]. cbn. rewrite Hs. split; [|done].
    eapply service_ok_same; [exact Hok1|done|done|apply (so_holds _ _ _ Hok1)]. }
  destruct prepared as [ready s1]. cbn [snd] in Hp. destruct Hp as [Hok1 Hmax1]. rewrite <- Hmax1 in Hmax. clear Hmax1.
  destruct (negb (status_ok ready)); [done|].
  pose proof (Listener_Accept_opens (Addr := Addr) (sv_listener s1) closed_handle (sv_world s1)) as Ha.
  destruct (Listener_Accept _ _ (sv_world s1)) as [[status socket] w]. destruct (status_ok status); cbn [negb].
  2: { destruct Ha as [_ Ha]. eapply service_ok_same; [exact Hok1|done|done|]. cbn.
       eapply holds_same; [exact Ha|apply (so_holds _ _ _ Hok1)]. }
  destruct Ha as (Ew & Hpos & Hnew & Ho). change (0 <=? closed_handle) with false in Ho. cbv iota in Ho.
  rewrite difference_empty_L in Ho.
  pose proof (holds_opened base _ _ socket _ Ew Hpos Hnew Ho (so_holds _ _ _ Hok1)) as Hh.
  unfold ServeSingleSession. cbn [fst snd].
  set (server := _ <| srv_next_session_id ::= bump |>).
  set (wired := mkWired socket _).
  pose proof (SessionLoop_related same_socket wired_sends wired_receives times
    (new_session (srv_next_session_id (sv_server s1))) (server, wired)) as [Hl Hw].
  change (srv_next_session_id (tally _ (sv_server s1))) with (srv_next_session_id (sv_server s1)).
  destruct (SessionLoop _ _ _) as [context [server' wired']]. cbn [fst snd] in *.
  destruct Hl as (Hl1 & Hl2 & Hl3 & Hl4), Hw as [_ Hw].
  assert (Hb : bump (srv_next_session_id (sv_server s1)) = srv_next_session_id (sv_server s1) + 1).
  { unfold bump, wrap64. apply Z.mod_small. destruct (so_next _ _ _ Hok1). unfold UINT64_MAX in *. lia. }
  apply service_ok_server; [done| | |cbn; rewrite Hl2; cbn; lia|by cbn; rewrite Hl1|by cbn; rewrite Hl4| |].
  - destruct (so_table _ _ _ Hok1) as (H1 & H2 & H3). unfold table_ok, server_limits in *. cbn. by rewrite Hl1, Hl3.
  - destruct (so_numbered _ Hok1) as [Hn1 Hn2]. split; cbn; rewrite Hl2; cbn; rewrite Hb; [lia|].
    rewrite Hl1. intros id b Hid%Hn2. lia.
  - cbn. rewrite Hl1, Hl4. apply (so_stopped _ _ _ Hok1).
  - apply holds_closed. eapply holds_same; [|exact Hh]. etransitivity; [exact Hw|apply prepare_socket_opens].
Qed.

Lemma shut_down_opens (table : omap Z bool) (connections : list Connection) w :
  open_handles (foldl (fun w c => if mmem (ctx_session_id (cn_context c)) table then ShutdownBoth (cn_handle c) w else w)
    w connections) = open_handles w.
Proof.
  revert w. induction connections as [|c l IH]; intros w; [done|]. cbn [foldl]. rewrite IH.
  destruct (mmem _ _); [apply ShutdownBoth_opens|done].
Qed.

Lemma stop_requested_ok s : ok s -> ok (Stop_requested s).
Proof.
  intros Hok. unfold Stop_requested. destruct (nothing_to_stop _); [done|].
  set (s1 := s <| sv_server ::= _ |>).
  destruct (close_listener_holds base s1 _ (so_holds _ _ _ Hok)) as (H1 & H2 & H3 & H4).
  set (s2 := close_listener s1) in *. clearbody s2.
  eapply service_ok_same; [exact Hok|by cbn; rewrite H1|exact H2|].
  cbn. rewrite H3. change (listener_handles closed_handle) with (@nil Z). cbn [app].
  eapply holds_same; [apply shut_down_opens|exact H4].
Qed.

(** Taking the threads: what was in the table is now waited for. *)
Lemma stop_cleared_ok s : ok s -> sv_accepting s = false -> ok (Stop_cleared s).
Proof.
  intros Hok Hacc. unfold Stop_cleared.
  pose proof (table_step_ok limits (sv_server s) _ Hlimit (table_stop _) (so_table _ _ _ Hok)) as Ht.
  destruct Hok. constructor; cbn; try done; [| |congruence].
  - eapply Forall_impl; [exact so_listed0|]. intros id [Hf|Hin]; right; apply elem_of_app; [left|by right].
    apply mfind_is_Some. by eexists.
  - apply Forall_app. split; [|done]. apply Forall_forall. intros id [b Hf]%mfind_is_Some. by eapply so_fresh0.
Qed.

Lemma threads_ended_spec threads s : threads_ended threads s = true <->
  forall id, id ∈ map cn_id (sv_connections s) -> id ∉ threads.
Proof.
  unfold threads_ended. rewrite forallb_forall. split.
  - intros Hf id (c & -> & Hin%list_elem_of_In)%list_elem_of_fmap Ht. apply Hf in Hin. apply negb_true_iff in Hin.
    apply not_true_iff_false in Hin. apply Hin, existsb_exists. exists (cn_id c). split; [by apply list_elem_of_In|apply Z.eqb_refl].
  - intros Hf c Hin%list_elem_of_In. apply negb_true_iff, not_true_iff_false.
    intros (id & Ht%list_elem_of_In & He%Z.eqb_eq)%existsb_exists. subst id.
    apply (Hf (cn_id c)); [by apply list_elem_of_fmap_2|done].
Qed.

Lemma stop_joined_ok s before threads after : ok s -> sv_stops s = (before ++ threads :: after)%list ->
  threads_ended threads s = true -> ok (snd (Stop_joined before after s)).
Proof.
  intros [] Hs He. rewrite threads_ended_spec in He. rewrite Hs, concat_app, concat_cons in *.
  constructor; cbn; rewrite ?concat_app; try done.
  - rewrite Forall_forall in so_listed0 |- *. intros id Hin. pose proof (He id Hin).
    destruct (so_listed0 id Hin) as [|Ht]; [by left|right]. rewrite !elem_of_app in *. naive_solver.
  - rewrite !Forall_app in *. naive_solver.
Qed.

Lemma service_step_ok s s' : service_step (Addr := Addr) s s' -> ok s -> ok s'.
Proof.
  intros [] Hok; [by apply started_ok|by apply accepting_ok| |by eapply connection_advanced_ok|by eapply closed_ok|by apply stats_ok|
    by apply single_ok|by apply stop_requested_ok|by apply stop_cleared_ok|by eapply stop_joined_ok].
  eapply service_ok_same; [exact Hok|done|done|apply (so_holds _ _ _ Hok)].
Qed.

Lemma new_service_ok observatory config (net : Net W) : 0 <= max_sessions (sc_limits config) ->
  service_ok (Addr := Addr) (open_handles (net_world net)) (sc_limits config)
    (new_service (new_server observatory config) net).
Proof.
  intros Hmax. constructor; cbn; try done.
  - constructor; [constructor|done| |done]. cbn. set_solver.
  - constructor.
  - split; [done|]. split; [apply msorted_nil|done].
Qed.

(** The running sessions that no [Stop] waits for are entries of the table. *)
Lemma connections_bounded server (ids taken : list Z) : table_ok limits server -> NoDup ids ->
  Forall (fun id => mfind id (srv_sessions server) = Some false \/ id ∈ taken) ids ->
  vsize (base.filter (.∉ taken) ids) <= max_sessions limits.
Proof.
  intros (_ & _ & Hb) Hn Hl. etransitivity; [|exact Hb]. unfold vsize. apply inj_le.
  rewrite <- (length_map fst (srv_sessions server)).
  apply submseteq_length, NoDup_submseteq; [by apply NoDup_filter|]. intros id [Ht Hin]%list_elem_of_filter.
  rewrite Forall_forall in Hl. destruct (Hl id Hin) as [Hf|]; [|done]. apply mfind_is_Some. by eexists.
Qed.

(** With the accept thread joined and no [Stop] waiting, no session is left. *)
Lemma stopped_no_session s : ok s -> srv_accepting (sv_server s) = false -> sv_stops s = [] -> sv_connections s = [].
Proof.
  intros [] Ha Hs. rewrite so_stopped0, Hs in so_listed0 by done.
  destruct (sv_connections s) as [|c l]; [done|]. apply Forall_cons in so_listed0 as [[Hf|Hin] _]; [done|].
  by apply not_elem_of_nil in Hin.
Qed.
End Steps.

(** ** Properties *)


(** ** Examples and witnesses *)

(** A server for one session at a time, and a second peer. *)
Definition small_config : ServerConfig :=
  mkServerConfig "127.0.0.1" 0 16 (default_limits <| max_sessions := 1 |>) 60000.
Definition idle_service : Service := new_service (new_server (srv_observatory demo_server) small_config) (mkNet loopback_world 0).
Definition serving : Service (W := Loopback) :=
  AcceptLoop_round (AcceptLoop_round (snd (Service_Start (Addr := Z) idle_service))).

(** The listener and the first connection are open; the second was refused. *)
Example serving_sockets :
  (sv_listener serving, map cn_handle (sv_connections serving), lb_open (sv_world serving)) = (1, [2], [2; 1]) /\
  ss_sessions_refused (srv_stats (sv_server serving)) = 1.
Proof. vm_compute. split; reflexivity. Qed.

Lemma serving_reached : reachable (service_step (Addr := Z)) idle_service serving.
Proof.
  unfold serving. eapply reach_step; [|apply step_accept; vm_compute; reflexivity].
  eapply reach_step; [|apply step_accept; vm_compute; reflexivity].
  eapply reach_step; [apply reach_init|apply step_start; right; reflexivity].
Qed.

(** A stop that has cleared the table while the session still runs. *)
Definition clearing : Service (W := Loopback) :=
  Stop_cleared ((Stop_requested (Addr := Z) serving) <| sv_accepting := false |>).

Example cleared_while_running :
  srv_sessions (sv_server clearing) = [] /\ sv_stops clearing = [[1]] /\ map cn_id (sv_connections clearing) = [1] /\
  ss_active_sessions (fst (Server_Stats (sv_server clearing))) = 0 /\ lb_open (sv_world clearing) = [2].
Proof. vm_compute. split_and!; reflexivity. Qed.

(** It returns when the thread has ended, and nothing stays open. *)
Definition stopped : Service (W := Loopback) :=
  match sv_connections clearing with
  | [c] =>
      let ended := session_advance (Addr := Z) 0 [] [] c clearing in
      match sv_connections ended with
      | [c] => snd (Stop_joined [] [] (session_close (Addr := Z) [] [] c ended))
      | _ => clearing
      end
  | _ => clearing
  end.

Lemma stopped_reached : reachable (service_step (Addr := Z)) idle_service stopped.
Proof.
  unfold stopped. eapply reach_step; [|eapply (step_stopped _ [] [1] []); vm_compute; reflexivity].
  eapply reach_step; [|eapply (step_close _ []); vm_compute; reflexivity].
  eapply reach_step; [|eapply (step_session _ _ []); vm_compute; reflexivity].
  eapply reach_step; [|apply step_cleared; vm_compute; reflexivity].
  eapply reach_step; [|apply step_accept_ends; vm_compute; reflexivity].
  eapply reach_step; [exact serving_reached|apply step_stop].
Qed.


(** [serve --once] starts the accepting thread and then waits for a connection of
    its own: with one peer, the thread may have taken it. *)
Example once_takes_the_next_peer :
  let started := snd (Service_Start (Addr := Z) idle_service) in
  let taken := AcceptLoop_round started in
  map cn_handle (sv_connections taken) = [2] /\
  srv_next_session_id (sv_server (snd (Service_ServeSingleSession (Addr := Z) [] taken))) = 3.
Proof. vm_compute. split; reflexivity. Qed.
