(* ===== verification/PersistProps.v ===== *)
(** * What the durable ledger promises

    A ledger that is saved and loaded comes back with its records, as recovered
    evidence; whatever is loaded passed the checks on its bytes, has its findings
    and observations under identities computed from their content and is never
    taken for fresh (Recovery.v); and a save replaces the file as a whole
    or not at all, however far it gets. *)

From Stdlib Require Import ZArith Lia List Bool Sorting.Sorted Ascii String.
From stdpp Require Import base tactics list strings sets.
From S2P Require Import Prelude Containers Text Status Time Hash Identity Double Value Drift Intent.
From S2P Require Import Observation Freshness Policy Comparison Finding Ledger LedgerApply LedgerFacts.
From S2P Require Import LedgerProps.
From S2P Require Import Json JsonGrammar JsonTokens JsonCodec JsonHelp Wire Interchange Query Engine EngineProps.
From S2P Require Import Durable Persistence PersistFacts Recovery.
#[local] Open Scope string_scope.
#[local] Open Scope Z_scope.
#[local] Arguments String.append : simpl nomatch.

(** ** Facts: reading back *)


Definition fits_record (l : FindingLedger) (bytes : list Z) : Prop :=
  vsize bytes <= kLedgerHeaderBytes + max_record_payload_bytes (lg_limits l).

Lemma ledger_reads_back l write_epoch write_incarnation live_epoch out :
  let bytes := EncodeLedger l write_epoch write_incarnation in
  ledger_kept l -> is_u64 write_epoch -> is_u64 write_incarnation ->
  (live_epoch <> 0 -> write_epoch <= live_epoch) ->
  document_fits (LedgerPayloadLimits (lg_limits l)) (ledger_document l) ->
  max_ledger_bytes (lg_limits l) <= UINT64_MAX ->
  vsize bytes <= max_ledger_bytes (lg_limits l) -> fits_record l bytes ->
  exists l', DecodeLedger (Some bytes) (lg_limits l) live_epoch out = (Status_Ok, l', recovery_report l) /\
    recovered_from l l'.
Proof.
  intros bytes Hk He Hi Hlive Hfit Hmax Hn Hp. unfold fits_record, bytes in *. clear bytes.
  rewrite EncodeLedger_file in *. set (payload := string_bytes (WriteCanonicalJson (ledger_document l))) in *.
  assert (Hr : Forall is_byte payload) by apply string_bytes_range.
  rewrite file_length in Hn, Hp by done. unfold kLedgerHeaderBytes in Hn, Hp.
  unfold DecodeLedger. rewrite CheckLedgerHeader_file; try done; try (unfold kLedgerHeaderBytes; lia).
  unfold payload at 1. rewrite string_of_string_bytes, ParseJson_canonical; [|by apply ledger_document_writable|done|].
  - change (status_ok Status_Ok) with true. cbn [negb].
    destruct (DecodePayload_document l Hk) as (l' & E & Hl'). rewrite E. by exists l'.
  - assert (vsize payload = ssize (WriteCanonicalJson (ledger_document l)))
      by (unfold payload, vsize, ssize; by rewrite string_bytes_length).
    change (max_document_bytes _) with (max_ledger_bytes (lg_limits l)). lia.
Qed.

Lemma EncodeLedger_nonempty l write_epoch write_incarnation :
  exists b bytes, EncodeLedger l write_epoch write_incarnation = b :: bytes.
Proof. unfold EncodeLedger, ledger_header. eexists _, _. reflexivity. Qed.

(** ** Facts: saving *)

Lemma append_not_self s t : t <> "" -> s +:+ t <> s.
Proof.
  intros Ht E. apply (f_equal String.length) in E. rewrite length_append in E.
  destruct t; [done|cbn in E; lia].
Qed.

Section Saving.
Context {F : Type} `{FileSystemLaws F}.
Context (path : string) (bytes : list Z).
Notation temporary := (temporary_path path).

Lemma temporary_other : temporary <> path.
Proof. by apply append_not_self. Qed.

(** One step that does not complete the save leaves the file; the rename puts
    the temporary file in its place. *)
Lemma step_frame step q f : q <> path -> q <> temporary -> step ∈ save_steps path bytes ->
  stored q (snd (save_step step f)) = stored q f.
Proof.
  intros Hp Ht Hs. unfold save_steps in Hs. repeat (apply elem_of_cons in Hs as [->|Hs]).
  - by apply open_frame.
  - by apply write_frame.
  - by apply flush_frame.
  - cbn. pose proof (rename_frame temporary path q f Ht Hp) as Hr.
    destruct (rename_file temporary path f) as [[] f'] eqn:E; [done|]. cbn [snd] in *. by rewrite remove_frame.
  - by apply elem_of_nil in Hs.
Qed.

Lemma run_save_frame q steps f : q <> path -> q <> temporary -> steps ⊆ save_steps path bytes ->
  stored q (snd (run_save steps f)) = stored q f.
Proof.
  intros Hp Ht. revert f. induction steps as [|step steps IH]; intros f Hs; [done|].
  cbn [run_save]. pose proof (step_frame step q f Hp Ht ltac:(set_solver)) as E.
  destruct (save_step step f) as [ok f']. cbn [snd] in E. destruct ok; [|done].
  rewrite IH by set_solver. done.
Qed.

(** After any number of steps the file is the old one, or all of them went well
    and it holds the bytes. *)
Lemma save_prefix n f :
  let '(status, f') := run_save (firstn n (save_steps path bytes)) f in
  if status_ok status && (4 <=? n)%nat then stored path f' = Some bytes
  else stored path f' = stored path f.
Proof.
  unfold save_steps. pose proof temporary_other as Ht. assert (Hne : path <> temporary) by congruence.
  destruct n as [|n]; [done|]. cbn [firstn run_save save_step].
  pose proof (open_frame temporary path f Hne) as Ho. pose proof (open_ok temporary f) as Hok.
  destruct (open_truncated temporary f) as [[] f1]; [|done]. cbn [snd] in Ho. specialize (Hok f1 eq_refl).
  destruct n as [|n]; [done|]. cbn [firstn run_save save_step].
  pose proof (write_frame temporary bytes path f1 Hne) as Hw.
  destruct (write_stream temporary bytes f1) as [[] f2] eqn:Ew; cbn [snd] in Hw; [|cbn; congruence].
  destruct n as [|n]; [cbn; congruence|]. cbn [firstn run_save save_step].
  pose proof (flush_frame temporary path f2 Hne) as Hf.
  destruct (flush_stream temporary f2) as [[] f3] eqn:Ef; cbn [snd] in Hf; [|cbn; congruence].
  pose proof (written temporary bytes f1 f2 f3 Hok Ew Ef) as Hbytes.
  destruct n as [|n]; [cbn; congruence|]. cbn [firstn run_save save_step].
  destruct (rename_file temporary path f3) as [[] f4] eqn:Er.
  - apply rename_ok in Er. rewrite firstn_nil. cbn. congruence.
  - apply rename_failed with (r := path) in Er. cbn. rewrite remove_frame by done. congruence.
Qed.

Lemma save_complete f :
  let '(status, f') := run_save (save_steps path bytes) f in
  stored path f' = if status_ok status then Some bytes else stored path f.
Proof.
  pose proof (save_prefix 4 f) as Hs. change (firstn 4 (save_steps path bytes)) with (save_steps path bytes) in Hs.
  destruct (run_save _ f) as [status f']. rewrite andb_true_r in Hs. by destruct (status_ok status).
Qed.

(** A file that holds an encoding is loaded by decoding it. *)
Lemma LoadLedgerFile_stored empty_data limits live_epoch out report f b rest : bytes = b :: rest ->
  stored path f = Some bytes -> vsize bytes <= max_ledger_bytes limits ->
  LoadLedgerFile empty_data path limits live_epoch out report f = DecodeLedger (Some bytes) limits live_epoch out.
Proof.
  intros Hb Hs Hn. unfold LoadLedgerFile. rewrite (size_stored _ _ _ Hs), (read_stored_file _ _ _ Hs).
  rewrite (proj2 (Z.ltb_ge _ _)) by done. rewrite Z.eqb_refl. cbn [negb]. by rewrite Hb.
Qed.
End Saving.

(** The disk keeps the laws. *)
#[export] Instance disk_laws : FileSystemLaws Disk.
Proof.
  assert (Hnext : forall d, dk_files (snd (dk_next d)) = dk_files d) by (intros [? []]; done).
  assert (Hset : forall p q bytes d, q <> p -> dk_files (dk_set p bytes d) q = dk_files d q)
    by (intros; cbn; by rewrite (proj2 (eqb_neq _ _))).
  assert (Hget : forall p bytes d, dk_files (dk_set p bytes d) p = bytes) by (intros; cbn; by rewrite eqb_refl).
  constructor; cbn [open_truncated write_stream flush_stream rename_file remove_file stored file_size
    read_file disk_file_system].
  - intros p q d Hq. specialize (Hnext d). destruct (dk_next d) as [[] d']; cbn [snd] in *; [rewrite Hset|]; congruence.
  - intros p d d'. destruct (dk_next d) as [[] d1]; [|done]. intros [= <-]. apply Hget.
  - intros p bytes q d Hq. specialize (Hnext d). destruct (dk_next d) as [ok d']. cbn [snd] in *.
    unfold dk_append. rewrite Hset by done. congruence.
  - intros p q d Hq. by rewrite Hnext.
  - intros p bytes d d' d'' Hs Hw Hf. pose proof (Hnext d) as H1. pose proof (Hnext d') as H2. rewrite Hf in H2.
    destruct (dk_next d) as [[] d1]; [|done]. injection Hw as <-. cbn [snd] in *. rewrite H2.
    unfold dk_append. rewrite Hget, H1, Hs. done.
  - intros p q d d'. specialize (Hnext d). destruct (dk_next d) as [[] d1]; [|done]. intros [= <-].
    rewrite Hget. cbn [snd] in Hnext. congruence.
  - intros p q r d Hp Hq. specialize (Hnext d). destruct (dk_next d) as [[] d1]; cbn [snd] in *; [|congruence].
    rewrite !Hset by done. congruence.
  - intros p q d d' r. specialize (Hnext d). destruct (dk_next d) as [[] d1]; [done|]. intros [= <-].
    cbn [snd] in Hnext. congruence.
  - intros p q d Hq. by apply Hset.
  - intros p d bytes ->. done.
  - intros p d bytes ->. cbn. f_equal. apply take_ge. unfold vsize. lia.
Qed.

Lemma run_save_status {F} `{FileSystem F} steps f :
  status_ok (fst (run_save steps f)) = true -> fst (run_save steps f) = Status_Ok.
Proof.
  revert f. induction steps as [|step steps IH]; intros f; [done|]. cbn [run_save].
  destruct (save_step step f) as [[] f']; [apply IH|]. by destruct step.
Qed.

(** ** Properties *)

(** C8. A restart keeps the ledger.  Saving replaces the file by the encoding of
    the ledger or leaves it; and a ledger within the envelope that was saved is
    loaded, by an observatory of the same limits that is not of an older epoch,
    with its revision, baselines, groups and timeline as they were, every
    window in its order, and every finding under its identity.  Nothing comes back
    as fresh: observations and findings are marked as recovered, a live finding
    with one more timeline entry to say so. *)
Theorem observatory_survives_restart {F} `{FileSystemLaws F} (empty_data : option (list Z)) (path : string)
    (e e2 : Observatory) (f : F) (report : LedgerRecoveryReport)
    (Hk : ledger_kept (eng_ledger e)) (Hl : lg_limits (eng_ledger e) = cfg_limits (eng_config e))
    (He : is_u64 (cfg_epoch (eng_config e))) (Hi : is_u64 (cfg_incarnation (eng_config e)))
    (Hl2 : cfg_limits (eng_config e2) = cfg_limits (eng_config e))
    (He2 : cfg_epoch (eng_config e2) <> 0 -> cfg_epoch (eng_config e) <= cfg_epoch (eng_config e2))
    (Hfit : document_fits (LedgerPayloadLimits (lg_limits (eng_ledger e))) (ledger_document (eng_ledger e)))
    (Hmax : max_ledger_bytes (lg_limits (eng_ledger e)) <= UINT64_MAX)
    (Hrec : fits_record (eng_ledger e) (EncodeState e)) :
  let '(status, e', f') := Observatory_Save path e f in
  if status_ok status then
    stored path f' = Some (EncodeState e) /\ eng_ledger e' = eng_ledger e /\
    let '(status2, report', e2') := Observatory_Load empty_data path report e2 f' in
    status2 = Status_Ok /\ report' = recovery_report (eng_ledger e) /\
    recovered_from (eng_ledger e) (eng_ledger e2')
  else e' = e /\ stored path f' = stored path f.
Proof.
  unfold Observatory_Save, SaveLedgerFile, EncodeState in *. rewrite <- Hl.
  set (bytes := EncodeLedger _ _ _) in *. destruct (Z.ltb_spec (max_ledger_bytes (lg_limits (eng_ledger e))) (vsize bytes)) as [|Hn]; [done|].
  pose proof (save_complete path bytes f) as Hs. destruct (run_save _ f) as [status f'].
  destruct (status_ok status); [|done]. split; [done|]. split; [done|].
  destruct (EncodeLedger_nonempty (eng_ledger e) (cfg_epoch (eng_config e)) (cfg_incarnation (eng_config e)))
    as (b & rest & Eb). fold bytes in Eb.
  unfold Observatory_Load. rewrite Hl2, <- Hl.
  rewrite (LoadLedgerFile_stored path bytes empty_data _ _ _ _ _ b rest Eb Hs Hn).
  destruct (ledger_reads_back (eng_ledger e) _ _ _ (empty_ledger (lg_limits (eng_ledger e))) Hk He Hi He2 Hfit Hmax Hn Hrec)
    as (l' & El & Hr). fold bytes in El. rewrite El. done.
Qed.

(** C9. Loading is conservative.  Whatever the bytes, a decoding that is refused
    leaves the ledger; one that is accepted was given a complete file whose header
    carries the SHA-256 digest of its payload, written by no newer epoch than the
    live one, and the ledger that comes out stays within the limits, keeps every
    finding under the identity computed from what identifies it and every
    observation, with the identity computed from its content, in the window of its
    target and source, keeps baselines and groups under the target and the identity
    they state (which the digest of the file covers, but nothing recomputes), and
    holds no observation and no finding that counts as current evidence. *)
Theorem loaded_ledger_is_conservative (bytes : option (list Z)) (limits : RuntimeLimits) (live_epoch : Z)
    (out : FindingLedger) (Hb : forall b, bytes = Some b -> Forall is_byte b)
    (Hl : limits_ok limits) (Hr : 1 <= max_retained_snapshots_per_source limits)
    (He : 0 <= max_timeline_entries_per_finding limits) (Ht : 0 <= max_global_timeline_entries limits)
    (Hm : max_record_payload_bytes limits <= UINT64_MAX - kLedgerHeaderBytes) :
  let '(status, l', report) := DecodeLedger bytes limits live_epoch out in
  if status_ok status then
    (exists flags write_epoch write_incarnation payload root,
      bytes = Some (ledger_file flags write_epoch write_incarnation payload) /\
      vsize payload <= max_record_payload_bytes limits /\ (live_epoch <> 0 -> write_epoch <= live_epoch) /\
      (exists parsed, ParseJson (string_of_bytes payload) (LedgerPayloadLimits limits) V_Null = (parsed, root) /\
         status_ok parsed = true) /\
      DecodePayload limits root = (status, (l', report))) /\
    conservative_ledger limits l' /\ rr_conservative report = true /\
    rr_reason report = RC_LedgerRecoveredConservatively
  else l' = out.
Proof.
  unfold DecodeLedger. destruct bytes as [b|]; [|done]. specialize (Hb b eq_refl).
  destruct (CheckLedgerHeader b limits live_epoch) as [status|payload] eqn:Eh.
  { by rewrite (CheckLedgerHeader_refused _ _ _ _ Eh). }
  destruct (ParseJson _ _ _) as [status root] eqn:Ep. destruct (status_ok status) eqn:Es; [|done]. cbn [negb].
  destruct Hl as (H1 & _ & H2 & H3).
  pose proof (DecodePayload_conservative limits Hr He Ht root H1 H2 H3) as Hc.
  pose proof (DecodePayload_report limits root) as Hrep.
  destruct (DecodePayload limits root) as [s [l report]] eqn:Ed. cbn [fst snd] in *.
  destruct (status_ok s) eqn:Es'; [|done].
  apply CheckLedgerHeader_ok in Eh as (flags & we & wi & _ & _ & _ & -> & _ & Hp & Hlive); [|done|done].
  split; [|split; [done|by apply Hrep]]. exists flags, we, wi, payload, root.
  split_and!; try done. by exists status.
Qed.

(** The identity of a group and the content digest of a baseline are what the file
    says they are. *)
Lemma stated_digests_are_taken (limits : RuntimeLimits) (g : RootCauseGroup) (b : IntentBaseline) (d : Digest) :
  group_kept g -> baseline_kept limits b -> is_digest d ->
  DecodeGroup (EncodeGroup (g <| gr_id := d |>)) = inr (g <| gr_id := d |>) /\
  DecodeBaseline (EncodeBaseline (b <| base_content_digest := d |>)) limits = inr (b <| base_content_digest := d |>).
Proof.
  intros [] [] Hd. split; [apply DecodeGroup_Encode; by constructor|apply DecodeBaseline_Encode; by constructor].
Qed.

(** C11. Saving is atomic.  After any number of the steps of a save, whether they
    went well or not, the ledger file is what it was before, or, once every step
    has gone well, all of the new bytes; no other file than the temporary one is
    touched.  A save that reports success stored the encoding of the ledger, which
    loading decodes; a save that is refused left the file. *)
Theorem save_is_atomic {F} `{FileSystemLaws F} (empty_data : option (list Z)) (l : FindingLedger) (path : string)
    (write_epoch write_incarnation max_bytes live_epoch : Z) (limits : RuntimeLimits)
    (out : FindingLedger) (report : LedgerRecoveryReport) (f : F)
    (Hmax : max_bytes <= max_ledger_bytes limits) :
  let bytes := EncodeLedger l write_epoch write_incarnation in
  (forall n, let '(status, f') := run_save (firstn n (save_steps path bytes)) f in
     (stored path f' = stored path f \/ status = Status_Ok /\ stored path f' = Some bytes) /\
     forall other, other <> path -> other <> temporary_path path -> stored other f' = stored other f) /\
  let '(status, f') := SaveLedgerFile l path write_epoch write_incarnation max_bytes f in
  if status_ok status then
    stored path f' = Some bytes /\
    LoadLedgerFile empty_data path limits live_epoch out report f' = DecodeLedger (Some bytes) limits live_epoch out
  else stored path f' = stored path f.
Proof.
  intros bytes. split.
  - intros n. pose proof (save_prefix path bytes n f) as Hs.
    pose proof (fun q Hp Ht => run_save_frame path bytes q (firstn n (save_steps path bytes)) f Hp Ht) as Hq.
    pose proof (run_save_status (firstn n (save_steps path bytes)) f) as Hst.
    destruct (run_save _ f) as [status f'] eqn:E. cbn [fst snd] in *. split.
    + destruct (status_ok status) eqn:Es; [|by left]. destruct (4 <=? n)%nat; [right|by left]. auto.
    + intros other Hp Ht. apply Hq; [done|done|]. apply sublist_subseteq, sublist_take.
  - unfold SaveLedgerFile. fold bytes. destruct (Z.ltb_spec max_bytes (vsize bytes)) as [|Hn]; [done|].
    pose proof (save_complete path bytes f) as Hs. destruct (run_save _ f) as [status f'].
    destruct (status_ok status); [|done]. split; [done|].
    destruct (EncodeLedger_nonempty l write_epoch write_incarnation) as (b & rest & Eb).
    apply (LoadLedgerFile_stored path bytes _ _ _ _ _ _ b rest Eb Hs). lia.
Qed.

(** ** Examples and witnesses *)

(** The ledger with a live finding, and the evidence it came from. *)
Definition kept_mutation : Mutation :=
  Mut_RecordObservation (example_observation 1 [example_object "vlan" 5 9000])
    (mkFreshnessVerdict FS_Fresh RC_None 0 0 true true) false.
Definition kept_ledger : FindingLedger := Eval vm_compute in exec drifted kept_mutation.

Lemma kept_ledger_ok : ledger_ok kept_ledger.
Proof.
  assert (E : kept_ledger = exec drifted kept_mutation) by (vm_compute; reflexivity).
  rewrite E. destruct drifted_ok as [H Hl]. by apply exec_step.
Qed.

Lemma kept_ledger_limits : lg_limits kept_ledger = default_limits.
Proof. vm_compute. reflexivity. Qed.

(** Its records, evaluated. *)
Definition kept_baselines : list IntentBaseline := Eval vm_compute in mvals (lg_baselines kept_ledger).
Definition kept_observations : list RetainedObservation := Eval vm_compute in flat_map snd (lg_windows kept_ledger).
Definition kept_findings : list Finding := Eval vm_compute in Findings kept_ledger.
Definition kept_groups : list RootCauseGroup := Eval vm_compute in Groups kept_ledger.
Definition kept_timeline : list TimelineEntry := Eval vm_compute in lg_global_timeline kept_ledger.

Lemma kept_baselines_eq : mvals (lg_baselines kept_ledger) = kept_baselines.
Proof. vm_compute. reflexivity. Qed.
Lemma kept_observations_eq : flat_map snd (lg_windows kept_ledger) = kept_observations.
Proof. vm_compute. reflexivity. Qed.
Lemma kept_findings_eq : Findings kept_ledger = kept_findings.
Proof. vm_compute. reflexivity. Qed.
Lemma kept_groups_eq : Groups kept_ledger = kept_groups.
Proof. vm_compute. reflexivity. Qed.
Lemma kept_timeline_eq : lg_global_timeline kept_ledger = kept_timeline.
Proof. vm_compute. reflexivity. Qed.
#[local] Opaque kept_ledger.

Lemma is_digest_computed d :
  Nat.eqb (length d) 32 && forallb (fun x => (0 <=? x) && (x <? 256)) d = true -> is_digest d.
Proof.
  intros [Hn Hb]%andb_prop. split; [by apply Nat.eqb_eq|]. apply List.Forall_forall. intros x Hx.
  apply (proj1 (forallb_forall _ _) Hb) in Hx. apply andb_prop in Hx as [? ?]. unfold is_byte. lia.
Qed.

(** Decides the conditions on a concrete record. *)
Ltac kept :=
  lazymatch goal with
  | |- Forall ?P ?l =>
      let v := eval vm_compute in l in change (Forall P v);
      lazymatch v with
      | [] => apply Forall_nil_2
      | _ => repeat (apply Forall_cons; split; [kept|]); apply Forall_nil_2
      end
  | |- _ /\ _ => split; kept
  | |- forall _, _ = Some _ -> _ => let E := fresh in intros ? E; vm_compute in E; simplify_eq; try kept
  | |- blank_or_identity _ => first [left; vm_compute; reflexivity | right; vm_compute; reflexivity]
  | |- is_digest _ => apply is_digest_computed; vm_compute; reflexivity
  | |- path_spelled ?limits ?p => let v := eval vm_compute in p in change (path_spelled limits v); spelled_path
  | |- writable _ => vm_compute; first [reflexivity | split; discriminate]
  | |- msorted ?m => let v := eval vm_compute in m in change (msorted v); repeat constructor
  | |- _ = _ => vm_compute; reflexivity
  | |- _ <= _ => vm_compute; discriminate
  | |- is_u64 _ => split; vm_compute; discriminate
  | |- is_u32 _ => split; vm_compute; first [discriminate|reflexivity]
  | |- is_i64 _ => split; vm_compute; discriminate
  | |- time_from_epoch _ => split; vm_compute; discriminate
  | |- _ => first
      [ progress unfold identity_text, plain_text, field_writable, object_kept; kept
      | constructor; kept ]
  end.

Lemma kept_ledger_kept : ledger_kept kept_ledger.
Proof.
  constructor;
    rewrite ?kept_ledger_limits, ?kept_baselines_eq, ?kept_observations_eq, ?kept_findings_eq, ?kept_groups_eq,
      ?kept_timeline_eq.
  - apply kept_ledger_ok.
  - split; vm_compute; discriminate.
  - split; vm_compute; discriminate.
  - unfold kept_baselines. kept.
  - unfold kept_observations. kept.
  - unfold kept_findings. kept.
  - unfold kept_groups. kept.
  - unfold kept_timeline. kept.
  - vm_compute. discriminate.
Qed.

Definition kept_observatory : Observatory := (new_observatory example_config) <| eng_ledger := kept_ledger |>.
Definition blank_disk : Disk := mkDisk (fun _ => None) [].

Lemma kept_fits : document_fits (LedgerPayloadLimits default_limits) (ledger_document kept_ledger).
Proof. vm_compute. repeat split; discriminate. Qed.

Lemma EncodeLedger_size l write_epoch write_incarnation : is_u64 write_epoch -> is_u64 write_incarnation ->
  ssize (WriteCanonicalJson (ledger_document l)) <= UINT64_MAX - 68 ->
  vsize (EncodeLedger l write_epoch write_incarnation) =
    kLedgerHeaderBytes + ssize (WriteCanonicalJson (ledger_document l)).
Proof.
  intros He Hi Hn. rewrite EncodeLedger_file.
  assert (E : vsize (string_bytes (WriteCanonicalJson (ledger_document l))) = ssize (WriteCanonicalJson (ledger_document l)))
    by (unfold vsize, ssize; by rewrite string_bytes_length).
  rewrite file_length, E; done.
Qed.

Lemma blank_disk_saves l path write_epoch write_incarnation max_bytes :
  vsize (EncodeLedger l write_epoch write_incarnation) <= max_bytes ->
  status_ok (fst (SaveLedgerFile l path write_epoch write_incarnation max_bytes blank_disk)) = true.
Proof.
  intros Hn. unfold SaveLedgerFile. rewrite (proj2 (Z.ltb_ge _ _) Hn).
  generalize (EncodeLedger l write_epoch write_incarnation) as bytes. reflexivity.
Qed.

Lemma kept_size : vsize (EncodeLedger kept_ledger 1 1) <= 65536.
Proof. vm_compute. discriminate. Qed.

Lemma kept_reads_back live_epoch out : live_epoch <> 0 -> 1 <= live_epoch ->
  exists l', DecodeLedger (Some (EncodeLedger kept_ledger 1 1)) default_limits live_epoch out =
    (Status_Ok, l', recovery_report kept_ledger).
Proof.
  intros H0 H1.
  pose proof (ledger_reads_back kept_ledger 1 1 live_epoch out kept_ledger_kept ltac:(split; discriminate)
    ltac:(split; discriminate) (fun _ => H1)) as H. unfold fits_record in H. rewrite kept_ledger_limits in H.
  specialize (H kept_fits ltac:(vm_compute; discriminate)).
  destruct H as (l' & E & _); [etransitivity; [exact kept_size|vm_compute; discriminate]..|].
  exists l'. exact E.
Qed.

Lemma observatory_survives_restart_witness :
  let '(status, _, disk) := Observatory_Save "ledger" kept_observatory blank_disk in
  status_ok status = true /\
  let '(status2, report, e2) := Observatory_Load None "ledger" blank_recovery_report kept_observatory disk in
  status2 = Status_Ok /\ report = recovery_report kept_ledger /\ recovered_from kept_ledger (eng_ledger e2).
Proof.
  pose proof kept_size as Hn.
  assert (Hs : status_ok (fst (fst (Observatory_Save "ledger" kept_observatory blank_disk))) = true)
    by (vm_compute; reflexivity).
  pose proof (observatory_survives_restart None "ledger" kept_observatory kept_observatory blank_disk
    blank_recovery_report kept_ledger_kept kept_ledger_limits ltac:(split; vm_compute; discriminate)
    ltac:(split; vm_compute; discriminate) eq_refl ltac:(intros; apply Z.le_refl)) as H.
  change (eng_ledger kept_observatory) with kept_ledger in H. rewrite kept_ledger_limits in H.
  specialize (H kept_fits ltac:(vm_compute; discriminate)).
  assert (Hr : fits_record kept_ledger (EncodeState kept_observatory)).
  { unfold fits_record. rewrite kept_ledger_limits. etransitivity; [exact Hn|vm_compute; discriminate]. }
  specialize (H Hr). destruct (Observatory_Save _ _ _) as [[status e'] disk]. cbn [fst] in Hs. rewrite Hs in H.
  split; [exact Hs|]. exact (proj2 (proj2 H)).
Defined.

Lemma loaded_ledger_is_conservative_witness :
  let '(status, l', _) := DecodeLedger (Some (EncodeLedger kept_ledger 1 1)) default_limits 2
    (empty_ledger default_limits) in
  status = Status_Ok /\ conservative_ledger default_limits l'.
Proof.
  pose proof (kept_reads_back 2 (empty_ledger default_limits) ltac:(discriminate) ltac:(lia)) as E.
  assert (Hb : Forall is_byte (EncodeLedger kept_ledger 1 1)).
  { rewrite EncodeLedger_file. apply file_range. apply string_bytes_range. }
  revert E Hb. generalize (EncodeLedger kept_ledger 1 1) as bytes. intros bytes [l' E] Hb.
  assert (Hn : 1 <= max_retained_snapshots_per_source default_limits /\
    0 <= max_timeline_entries_per_finding default_limits /\ 0 <= max_global_timeline_entries default_limits /\
    max_record_payload_bytes default_limits <= UINT64_MAX - kLedgerHeaderBytes)
    by (vm_compute; repeat split; discriminate).
  destruct Hn as (H1 & H2 & H3 & H4).
  pose proof (loaded_ledger_is_conservative (Some bytes) default_limits 2 (empty_ledger default_limits)
    ltac:(intros b [= <-]; exact Hb) default_limits_ok H1 H2 H3 H4) as H.
  rewrite E in H |- *. split; [reflexivity|]. exact (proj1 (proj2 H)).
Defined.

(** The flush fails: the old file stays. *)
Definition failing_disk : Disk :=
  mkDisk (fun p => if eqb p "ledger" then Some [1; 2; 3] else None) [true; true; false].

Lemma failing_stored : stored "ledger" failing_disk = Some [1; 2; 3].
Proof. reflexivity. Qed.

Lemma save_is_atomic_witness :
  let '(status, disk) := SaveLedgerFile (empty_ledger default_limits) "ledger" 1 1 4096 failing_disk in
  status_ok status = false /\ stored "ledger" disk = Some [1; 2; 3].
Proof.
  assert (Hs : status_ok (fst (SaveLedgerFile (empty_ledger default_limits) "ledger" 1 1 4096 failing_disk)) = false)
    by (vm_compute; reflexivity).
  assert (Hm : 4096 <= max_ledger_bytes default_limits) by (vm_compute; discriminate).
  revert Hs. generalize (empty_ledger default_limits) as l, failing_stored as Hold. intros l Hold Hs.
  destruct (save_is_atomic None l "ledger" 1 1 4096 1 default_limits l blank_recovery_report failing_disk Hm) as [_ H].
  destruct (SaveLedgerFile _ _ _ _ _ _) as [status disk]. cbn [fst] in Hs. rewrite Hs in H.
  split; [exact Hs|]. rewrite H. exact Hold.
Defined.

(** *** Behaviours worth knowing *)

(** What loading the encoding of a ledger under its own limits says. *)
Definition reload (l : FindingLedger) : StatusCode * ReasonCode :=
  let '(status, _, _) := DecodeLedger (Some (EncodeLedger l 1 1)) (lg_limits l) 1 (empty_ledger (lg_limits l)) in
  (st_code status, st_reason status).

Section Reload.
Context (l : FindingLedger).
Notation text := (WriteCanonicalJson (ledger_document l)).
Context (Hfile : kLedgerHeaderBytes + ssize text <= max_ledger_bytes (lg_limits l)).
Context (Hwidth : ssize text <= UINT64_MAX - 68).

Lemma payload_size : vsize (string_bytes text) = ssize text.
Proof. unfold vsize, ssize. by rewrite string_bytes_length. Qed.

(** What a load makes of a file it has no reason to doubt. *)
Lemma reload_text : ssize text <= max_record_payload_bytes (lg_limits l) ->
  reload l =
    let '(status, root) := ParseJson text (LedgerPayloadLimits (lg_limits l)) V_Null in
    if negb (status_ok status) then (SC_IntegrityFailure, RC_LedgerDecodeFailed)
    else let status := fst (DecodePayload (lg_limits l) root) in (st_code status, st_reason status).
Proof.
  intros Hp. unfold reload, DecodeLedger. rewrite EncodeLedger_file.
  rewrite CheckLedgerHeader_file; rewrite ?payload_size; try done; try (split; done); try apply string_bytes_range.
  rewrite string_of_string_bytes. destruct (ParseJson _ _ _) as [status root]. destruct (negb _); [done|].
  by destruct (DecodePayload _ _) as [status' [l' r]].
Qed.

Lemma reload_over_record : max_record_payload_bytes (lg_limits l) < ssize text ->
  reload l = (SC_LimitExceeded, RC_LedgerPayloadTooLarge).
Proof.
  intros Hp. unfold reload, DecodeLedger, CheckLedgerHeader. rewrite EncodeLedger_file.
  rewrite file_length by (rewrite ?payload_size; done || apply string_bytes_range).
  destruct (file_fields 0 1 1 (string_bytes text)) as (H1 & H2 & H3 & _);
    rewrite ?payload_size; try done; try apply string_bytes_range.
  rewrite H1, H2, H3, payload_size, !eqb_refl.
  rewrite (proj2 (Z.ltb_ge _ _)) by done. rewrite (proj2 (Z.ltb_ge _ kLedgerHeaderBytes)) by (unfold kLedgerHeaderBytes, ssize; lia).
  change (kLedgerFormatVersion =? kLedgerFormatVersion) with true. cbn [negb].
  by rewrite (proj2 (Z.ltb_lt (max_record_payload_bytes (lg_limits l)) _)) by done.
Qed.
End Reload.

(** Commits append to the global timeline without trimming it, so a ledger may
    hold more entries than a load accepts. *)
Example long_timeline_is_unloadable :
  let limits := default_limits <| max_global_timeline_entries := 1 |> in
  let l := foldl exec (empty_ledger limits)
    [Mut_CommitIntent (example_document 5 ["vlan"]) 1000; Mut_CommitIntent (example_document 6 ["vlan"]) 1001] in
  reload l = (SC_LimitExceeded, RC_LimitTimelineExceeded).
Proof. cbv zeta. rewrite reload_text; vm_compute; (reflexivity || discriminate). Qed.

Lemma committed_once_size :
  let l := exec (empty_ledger (default_limits <| max_record_payload_bytes := 200 |>))
    (Mut_CommitIntent (example_document 5 ["vlan"]) 1000) in
  ssize (WriteCanonicalJson (ledger_document l)) = 886 /\
  max_ledger_bytes (lg_limits l) = max_ledger_bytes default_limits /\
  max_record_payload_bytes (lg_limits l) = 200.
Proof. vm_compute. repeat split. Qed.

(** A save is bounded by the size of a ledger file, a load also by the size of a
    record: between the two, the old file is replaced by one that is refused. *)
Example large_payload_is_unloadable :
  let limits := default_limits <| max_record_payload_bytes := 200 |> in
  let l := exec (empty_ledger limits) (Mut_CommitIntent (example_document 5 ["vlan"]) 1000) in
  status_ok (fst (SaveLedgerFile l "ledger" 1 1 (max_ledger_bytes limits) blank_disk)) = true /\
  reload l = (SC_LimitExceeded, RC_LedgerPayloadTooLarge).
Proof.
  cbv zeta. generalize committed_once_size.
  generalize (exec (empty_ledger (default_limits <| max_record_payload_bytes := 200 |>))
    (Mut_CommitIntent (example_document 5 ["vlan"]) 1000)) as l.
  intros l (Hn & Hm & Hp). split.
  - apply blank_disk_saves. rewrite EncodeLedger_size; rewrite ?Hn; vm_compute; repeat split; discriminate.
  - apply reload_over_record; rewrite Hn, ?Hm, ?Hp; vm_compute; (reflexivity || discriminate).
Qed.

(** The reason of an operator may hold any bytes; the file that carries it is
    not well-formed text, and is refused. *)
Example stray_byte_is_unloadable :
  reload (exec drifted (Mut_Suppress drifted_id "alice" (String "255" EmptyString) None 1100)) =
  (SC_IntegrityFailure, RC_LedgerDecodeFailed).
Proof. rewrite reload_text; vm_compute; (reflexivity || discriminate). Qed.

(** A write that fails leaves the temporary file behind. *)
Example temporary_file_stays :
  is_Some (stored "ledger.tmp" (snd (SaveLedgerFile (empty_ledger default_limits) "ledger" 1 1 4096
    (mkDisk (fun _ => None) [true; false])))).
Proof. vm_compute. eauto. Qed.
