(* ===== verification/Client.v ===== *)
(** * The observation publisher

    client.hpp/client.cpp: the peer of the server of Server.v.  It connects,
    greets, publishes snapshots and intent and reads an answer per frame, over
    the same [Transport]; what [Socket::Connect] gives is an argument of
    [Connect].  A socket that is not open is [None].  The deadlines set on the
    socket are the operating system's. *)

From Stdlib Require Import ZArith Lia List Bool Ascii String.
From stdpp Require Import base tactics list strings.
From S2P Require Import Prelude Containers Text Status Time Hash Identity Double Value Drift Intent Observation Ledger.
From S2P Require Import Json JsonGrammar JsonTokens JsonCodec JsonHelp Wire Interchange Server.
#[local] Open Scope string_scope.
#[local] Open Scope Z_scope.
#[local] Arguments String.append : simpl nomatch.

(** ** Data *)

Record ClientConfig := mkClientConfig {
  cl_host : string;
  cl_port : Z;
  cl_source : string;
  cl_epoch : Z;
  cl_incarnation : Z;
  cl_start_sequence : Z;
  cl_capabilities : SourceCapabilities;
  cl_provenance : string;
  cl_limits : RuntimeLimits;
  cl_io_timeout_millis : Z
}.

Definition kVersionString : string := "1.0.0".

Definition blank_header : FrameHeader := mkFrameHeader 0 FT_ErrorFrame 0 0 0 0.
Definition blank_hello_ack : HelloAckPayload := mkHelloAck false RC_None 0 0 0 0 0 "".

Section Publisher.
Context {T : Type} `{Transport T}.

Record ObservationPublisher := mkPublisher {
  pub_config : ClientConfig;
  pub_socket : option T;
  pub_handshaken : bool;
  pub_next_sequence : Z;
  pub_frame_sequence : Z;
  pub_handshake : HelloAckPayload
}.

#[export] Instance eta_ObservationPublisher : Eta ObservationPublisher := fun p =>
  mkPublisher (pub_config p) (pub_socket p) (pub_handshaken p) (pub_next_sequence p)
    (pub_frame_sequence p) (pub_handshake p).

Definition new_publisher (config : ClientConfig) : ObservationPublisher :=
  mkPublisher config None false 0 0 blank_hello_ack.

Definition connected (p : ObservationPublisher) : bool :=
  match pub_socket p with Some _ => pub_handshaken p | None => false end.

Definition close_socket (p : ObservationPublisher) : ObservationPublisher := p <| pub_socket := None |>.

(** ** Frames *)

(** [Socket::SendAll] of a socket that may be closed. *)
Definition send_all (bytes : list Z) (p : ObservationPublisher) : Status * ObservationPublisher :=
  match pub_socket p with
  | None => (Status_Rejected RC_WireSessionClosed "the socket is not open", p)
  | Some socket =>
      let '(status, socket) := SendAll bytes socket in (status, p <| pub_socket := Some socket |>)
  end.

Definition Publisher_SendFrame (type : FrameType) (flags : Z) (payload : Value) (p : ObservationPublisher)
    : Status * ObservationPublisher :=
  let p := p <| pub_frame_sequence ::= bump |> in
  match EncodeFrame type flags (pub_frame_sequence p) (WriteCanonicalJson payload) (cl_limits (pub_config p)) with
  | inl status => (status, p)
  | inr frame => send_all frame p
  end.

(** [Socket::ReceiveExact] into a buffer of zeros: the bytes that arrived stay
    in the buffer also when it fails. *)
Fixpoint receive_into (fuel : nat) (want : Z) (got : list Z) (socket : T) : Status * list Z * T :=
  if want <=? vsize got then (Status_Ok, got, socket)
  else
    let truncated :=
      Status_Rejected RC_WireFrameTruncated "the peer closed before the frame was complete" in
    match fuel with
    | O => (truncated, got, socket)
    | S fuel' =>
        let '(status, bytes, socket) := ReceiveSome (want - vsize got) socket in
        if negb (status_ok status) then (status, got, socket)
        else if vsize bytes =? 0 then (truncated, got, socket)
        else receive_into fuel' want (got ++ bytes)%list socket
    end.

Definition ReceiveBuffer (size : Z) (socket : T) : Status * list Z * T :=
  let '(status, got, socket) := receive_into (Z.to_nat size) size [] socket in
  (status, (got ++ repeat 0 (Z.to_nat size - length got))%list, socket).

(** A frame, with what the two output arguments hold when it fails. *)
Definition frame_of_socket (limits : RuntimeLimits) (socket : T)
    : Status * (FrameHeader * list Z) * T :=
  let '(status, raw, socket) := ReceiveBuffer kFrameHeaderBytes socket in
  if negb (status_ok status) then (status, (blank_header, []), socket)
  else
    match DecodeFrameHeader raw limits with
    | inl status => (status, (blank_header, []), socket)
    | inr header =>
        let '(status, payload, socket) := ReceiveBuffer (fh_payload_bytes header) socket in
        if negb (status_ok status) then (status, (header, payload), socket)
        else (VerifyFramePayload header payload, (header, payload), socket)
    end.

Definition Publisher_ReadFrame (p : ObservationPublisher)
    : Status * (FrameHeader * list Z) * ObservationPublisher :=
  match pub_socket p with
  | None => (Status_Rejected RC_WireSessionClosed "the socket is not open", (blank_header, []), p)
  | Some socket =>
      let '(status, frame, socket) := frame_of_socket (cl_limits (pub_config p)) socket in
      (status, frame, p <| pub_socket := Some socket |>)
  end.

(** ** Connecting *)

Definition hello_of (config : ClientConfig) : HelloPayload :=
  mkHello (cl_source config) (cl_epoch config) (cl_incarnation config) (cl_start_sequence config)
    (cl_capabilities config) (cl_provenance config) kVersionString.

(** What can be refused before a socket is asked for. *)
Definition config_refusal (config : ClientConfig) : option Status :=
  if String.eqb (cl_source config) "" || negb (IsValidIdentityText (cl_source config))
  then Some (Status_Rejected RC_EncodingMalformed "the source identity is invalid")
  else if negb (uint_is_set (cl_epoch config)) || negb (uint_is_set (cl_incarnation config))
  then Some (Status_Rejected RC_FencedStaleIncarnation
               "the publisher requires an explicit epoch and incarnation")
  else if cl_port config =? 0
  then Some (Status_Rejected RC_EncodingMalformed "the publisher requires a port")
  else None.

(** The refusal an error frame carries. *)
Definition refusal_of_document (document : Value) : Status :=
  let member name := match as_map document with Some m => OptionalString m name | None => None end in
  Status_Rejected
    (default RC_WireHandshakeRejected
       (match member "reason" with Some text => TryParseReasonCode (c_str text) | None => None end))
    (default "the server refused the greeting" (member "detail")).

(** The acknowledgement of the greeting: the refusal, or what to keep. *)
Definition greeting_answered (limits : RuntimeLimits) (frame : FrameHeader * list Z)
    : Status * option HelloAckPayload :=
  let '(status, document) := ParseJson (string_of_bytes (snd frame)) limits V_Null in
  if negb (status_ok status) then (status, None)
  else if eqb (fh_type (fst frame)) FT_ErrorFrame then (refusal_of_document document, None)
  else if negb (eqb (fh_type (fst frame)) FT_HelloAck)
  then (Status_Rejected RC_WireHandshakeRejected "the server did not answer the greeting", None)
  else
    match DecodeHelloAck document with
    | inl status => (status, None)
    | inr ack =>
        (if ha_accepted ack then Status_Ok
         else Status_Rejected
                (if eqb (ha_reason ack) RC_None then RC_WireHandshakeRejected else ha_reason ack)
                (if String.eqb (ha_detail ack) "" then "the handshake was refused" else ha_detail ack),
         Some ack)
    end.

(** The greeting over an open socket. *)
Definition greet (p : ObservationPublisher) : Status * ObservationPublisher :=
  let config := pub_config p in
  let '(sent, p) := Publisher_SendFrame FT_Hello 0 (EncodeHello (hello_of config)) p in
  let '(read, frame, p) := Publisher_ReadFrame p in
  let status := if status_ok sent then read else sent in
  if (negb (status_ok sent) && negb (status_ok read)) ||
     (negb (status_ok status) && (vsize (snd frame) =? 0))
  then (status, close_socket p)
  else
    let '(status, ack) := greeting_answered (cl_limits config) frame in
    let p := match ack with Some ack => p <| pub_handshake := ack |> | None => p end in
    if negb (status_ok status) then (status, close_socket p)
    else (Status_Ok, p <| pub_next_sequence := cl_start_sequence config |> <| pub_handshaken := true |>).

(** [Connect]; [dialed] is what [Socket::Connect] gives. *)
Definition Publisher_Connect (dialed : Decoded T) (p : ObservationPublisher) : Status * ObservationPublisher :=
  match config_refusal (pub_config p) with
  | Some status => (status, p)
  | None =>
      match dialed with
      | inl status => (status, p)
      | inr socket => greet (p <| pub_socket := Some socket |>)
      end
  end.

Definition bye : Value :=
  V_Map (make_map [("schema", V_String "ndo/bye/1"); ("session_closed", V_Bool true)]).

Definition Publisher_Close (p : ObservationPublisher) : Status * ObservationPublisher :=
  match pub_socket p with
  | None => (Status_Ok, p)
  | Some _ =>
      let p := if pub_handshaken p then snd (Publisher_SendFrame FT_Bye FF_Final bye p) else p in
      (Status_Ok, close_socket p <| pub_handshaken := false |>)
  end.

(** ** Publishing *)

(** A frame is sent and its answer read and parsed. *)
Definition exchange (type : FrameType) (payload : Value) (p : ObservationPublisher)
    : Decoded (FrameHeader * Value) * ObservationPublisher :=
  let '(status, p) := Publisher_SendFrame type FF_ExpectResponse payload p in
  if negb (status_ok status) then (inl status, p)
  else
    let '(status, frame, p) := Publisher_ReadFrame p in
    if negb (status_ok status) then (inl status, p)
    else
      let '(status, document) :=
        ParseJson (string_of_bytes (snd frame)) (cl_limits (pub_config p)) V_Null in
      (if negb (status_ok status) then inl status else inr (fst frame, document), p).

Definition not_connected : Status :=
  Status_Rejected RC_WireHandshakeRequired "the publisher is not connected".

(** [Publish]: the snapshot gets the identity of its content first. *)
Definition Publisher_Publish (snapshot : ObservationSnapshot) (ack : AckPayload) (p : ObservationPublisher)
    : Status * ObservationSnapshot * AckPayload * ObservationPublisher :=
  if negb (connected p) then (not_connected, snapshot, ack, p)
  else
    let snapshot := snapshot <| snap_id := Digest_ToHex (Snapshot_ComputeContentDigest snapshot) |> in
    let status := Snapshot_Validate (cl_limits (pub_config p)) snapshot in
    if negb (status_ok status) then (status, snapshot, ack, p)
    else
      let '(answer, p) := exchange FT_Snapshot (EncodeObservationDocument snapshot) p in
      match answer with
      | inl status => (status, snapshot, ack, p)
      | inr (header, document) =>
          if negb (eqb (fh_type header) FT_SnapshotAck)
          then (Status_Rejected RC_WireFrameTypeUnsupported "the server did not acknowledge the snapshot",
                snapshot, ack, p)
          else
            match DecodeAck document with
            | inl status => (status, snapshot, ack, p)
            | inr ack =>
                (Status_Ok, snapshot, ack,
                 if ack_accepted ack then p <| pub_next_sequence := bump (snap_sequence snapshot) |> else p)
            end
      end.

Definition Publisher_PublishIntent (document : IntentGenerationDocument) (ack : AckPayload)
    (p : ObservationPublisher) : Status * AckPayload * ObservationPublisher :=
  if negb (connected p) then (not_connected, ack, p)
  else
    let status := Intent_Validate (cl_limits (pub_config p)) document in
    if negb (status_ok status) then (status, ack, p)
    else
      let '(answer, p) := exchange FT_Intent (EncodeIntentDocument document) p in
      match answer with
      | inl status => (status, ack, p)
      | inr (header, value) =>
          if negb (eqb (fh_type header) FT_IntentAck)
          then (Status_Rejected RC_WireFrameTypeUnsupported
                  "the server did not acknowledge the intent document", ack, p)
          else match DecodeAck value with inl status => (status, ack, p) | inr ack => (Status_Ok, ack, p) end
      end.

(** [PublishRaw]: the text becomes a JSON string. *)
Definition Publisher_PublishRaw (payload : string) (type : FrameType) (ack : AckPayload)
    (p : ObservationPublisher) : Status * AckPayload * ObservationPublisher :=
  if negb (connected p) then (not_connected, ack, p)
  else
    let '(answer, p) := exchange type (V_String payload) p in
    match answer with
    | inl status => (status, ack, p)
    | inr (header, value) =>
        if negb (eqb (fh_type header) FT_ErrorFrame)
        then match DecodeAck value with inl status => (status, ack, p) | inr ack => (Status_Ok, ack, p) end
        else
          let text := match as_map value with Some m => OptionalString m "reason" | None => None end in
          let named := match text with Some text => TryParseReasonCode (c_str text) | None => None end in
          (Status_Ok,
           ack <| ack_reason := default (ack_reason ack) named |> <| ack_accepted := false |>, p)
    end.
End Publisher.
Arguments ObservationPublisher : clear implicits.

(** ** What is handed to the socket *)

(** A socket that remembers what [SendAll] was given. *)
Record Tapped (T : Type) := mkTapped { tap_socket : T; tap_sent : list (list Z) }.
Arguments mkTapped {T}.
Arguments tap_socket {T}.
Arguments tap_sent {T}.

#[export] Instance tapped {T} `{Transport T} : Transport (Tapped T) := {
  SendAll bytes s :=
    let '(status, socket) := SendAll bytes (tap_socket s) in
    (status, mkTapped socket (tap_sent s ++ [bytes])%list);
  ReceiveSome size s :=
    let '(status, bytes, socket) := ReceiveSome size (tap_socket s) in
    (status, bytes, mkTapped socket (tap_sent s))
}.

Inductive ClientCall :=
| Client_Publish (snapshot : ObservationSnapshot)
| Client_PublishIntent (document : IntentGenerationDocument).

Definition client_call {T} `{Transport T} (call : ClientCall) (p : ObservationPublisher T)
    : ObservationPublisher T :=
  match call with
  | Client_Publish snapshot => snd (Publisher_Publish snapshot empty_ack p)
  | Client_PublishIntent document => snd (Publisher_PublishIntent document empty_ack p)
  end.

Definition client_calls {T} `{Transport T} (calls : list ClientCall) (p : ObservationPublisher T)
    : ObservationPublisher T :=
  foldl (fun p call => client_call call p) p calls.

Definition identified (s : ObservationSnapshot) : ObservationSnapshot :=
  s <| snap_id := Digest_ToHex (Snapshot_ComputeContentDigest s) |>.

(** Whether the publisher's own validation lets a call through. *)
Definition call_valid (limits : RuntimeLimits) (call : ClientCall) : bool :=
  match call with
  | Client_Publish s => status_ok (Snapshot_Validate limits (identified s))
  | Client_PublishIntent d => status_ok (Intent_Validate limits d)
  end.

Definition call_document (call : ClientCall) : FrameType * Value :=
  match call with
  | Client_Publish s => (FT_Snapshot, EncodeObservationDocument (identified s))
  | Client_PublishIntent d => (FT_Intent, EncodeIntentDocument d)
  end.

(** A document that goes into one frame. *)
Definition frameable (limits : RuntimeLimits) (v : Value) : Prop :=
  ssize (WriteCanonicalJson v) <= max_wire_payload_bytes limits /\ ssize (WriteCanonicalJson v) <= UINT32_MAX.

(** A call whose document has numbers of their width and values that can be
    written, and goes into one frame. *)
Definition call_ok (limits : RuntimeLimits) (call : ClientCall) : Prop :=
  frameable limits (snd (call_document call)) /\
  match call with
  | Client_Publish s =>
      snapshot_shape limits s /\ is_i64 (snap_ttl_nanos s) /\
      Forall (fun e => Forall (fun f => field_writable (fst f) (snd f)) (ob_fields (snd e))) (snap_objects s)
  | Client_PublishIntent d =>
      intent_shape limits d /\
      Forall (fun e => Forall (fun f => field_writable (fst f) (if_intended (snd f))) (io_fields (snd e)))
        (doc_objects d)
  end.

(** What a frame tells the server. *)
Definition carries (limits : RuntimeLimits) (f : Framed) (call : ClientCall) : Prop :=
  match call with
  | Client_Publish s =>
      framed_type f = FT_Snapshot /\
      read_within limits (EncodeObservationDocument (identified s))
        (ParseObservationJson (string_of_bytes (framed_payload f)) limits) (identified s <| snap_received_at := 0 |>)
  | Client_PublishIntent d =>
      framed_type f = FT_Intent /\
      read_within limits (EncodeIntentDocument d) (ParseIntentJson (string_of_bytes (framed_payload f)) limits) d
  end.

Definition document_frame (type : FrameType) (flags sequence : Z) (v : Value) : Framed :=
  mkFramed type flags sequence (string_bytes (WriteCanonicalJson v)).

(** The frames of the calls that are let through, numbered on from [sequence]. *)
Fixpoint call_frames (limits : RuntimeLimits) (sequence : Z) (calls : list ClientCall) : list Framed :=
  match calls with
  | [] => []
  | call :: rest =>
      if call_valid limits call then
        document_frame (fst (call_document call)) FF_ExpectResponse (bump sequence) (snd (call_document call)) ::
        call_frames limits (bump sequence) rest
      else call_frames limits sequence rest
  end.

(** ** Facts: what is sent *)

Lemma bump_u64 z : is_u64 (bump z).
Proof. unfold is_u64, bump, wrap64, UINT64_MAX. pose proof (Z.mod_pos_bound (z + 1) 18446744073709551616 eq_refl). lia. Qed.

Lemma document_frame_ok limits type flags sequence v : is_u16 flags -> is_u64 sequence -> frameable limits v ->
  framed_ok limits (document_frame type flags sequence v).
Proof.
  intros Hf Hs (Hm & H32). unfold framed_ok, document_frame. cbn.
  assert (vsize (string_bytes (WriteCanonicalJson v)) = ssize (WriteCanonicalJson v)) as ->
    by (unfold vsize, ssize; by rewrite string_bytes_length).
  split_and!; try done. apply string_bytes_range.
Qed.

Section Sent.
Context {T : Type} `{Transport T}.
Implicit Types p : ObservationPublisher (Tapped T).

Lemma receive_into_tap fuel want got (s s' : Tapped T) status bytes :
  receive_into fuel want got s = (status, bytes, s') -> tap_sent s' = tap_sent s.
Proof.
  revert got s. induction fuel as [|fuel IH]; intros got s; cbn [receive_into].
  - destruct (_ <=? _); by intros [= _ _ <-].
  - destruct (_ <=? _); [by intros [= _ _ <-]|]. cbn [ReceiveSome tapped].
    destruct (ReceiveSome _ (tap_socket s)) as [[st b] t]. destruct (negb _); [by intros [= _ _ <-]|].
    destruct (_ =? 0); [by intros [= _ _ <-]|]. intros E. by apply IH in E.
Qed.

Lemma ReceiveBuffer_tap size (s s' : Tapped T) status bytes :
  ReceiveBuffer size s = (status, bytes, s') -> tap_sent s' = tap_sent s.
Proof.
  unfold ReceiveBuffer. destruct (receive_into _ _ _ s) as [[st b] t] eqn:E. intros [= _ _ <-].
  by apply receive_into_tap in E.
Qed.

Lemma frame_of_socket_tap limits (s s' : Tapped T) status frame :
  frame_of_socket limits s = (status, frame, s') -> tap_sent s' = tap_sent s.
Proof.
  unfold frame_of_socket. destruct (ReceiveBuffer _ s) as [[st raw] t] eqn:E. apply ReceiveBuffer_tap in E.
  destruct (negb _); [by intros [= _ _ <-]|]. destruct (DecodeFrameHeader _ _) as [|header]; [by intros [= _ _ <-]|].
  destruct (ReceiveBuffer _ t) as [[st' payload] t'] eqn:E'. apply ReceiveBuffer_tap in E'.
  destruct (negb _); intros [= _ _ <-]; congruence.
Qed.

(** An open publisher: its log, and the number of its last frame. *)
Definition open_with (sent : list (list Z)) (sequence : Z) p : Prop :=
  pub_frame_sequence p = sequence /\ exists s, pub_socket p = Some s /\ tap_sent s = sent.

Lemma Publisher_SendFrame_open type flags v sent sequence p : frameable (cl_limits (pub_config p)) v ->
  open_with sent sequence p ->
  let p' := snd (Publisher_SendFrame type flags v p) in
  open_with (sent ++ [framed_bytes (document_frame type flags (bump sequence) v)]) (bump sequence) p' /\
  pub_config p' = pub_config p /\ pub_handshaken p' = pub_handshaken p.
Proof.
  intros (Hm & H32) (<- & s & Hs & <-). unfold Publisher_SendFrame. cbv zeta.
  change (pub_config (p <| pub_frame_sequence ::= bump |>)) with (pub_config p).
  change (pub_frame_sequence (p <| pub_frame_sequence ::= bump |>)) with (bump (pub_frame_sequence p)).
  rewrite EncodeFrame_layout by done. unfold send_all.
  change (pub_socket (p <| pub_frame_sequence ::= bump |>)) with (pub_socket p). rewrite Hs.
  cbn [SendAll tapped]. destruct (SendAll _ (tap_socket s)) as [st t]. split; [|done].
  split; [done|]. eexists. by split.
Qed.

Lemma Publisher_ReadFrame_open sent sequence p : open_with sent sequence p ->
  let p' := snd (Publisher_ReadFrame p) in
  open_with sent sequence p' /\ pub_config p' = pub_config p /\ pub_handshaken p' = pub_handshaken p.
Proof.
  intros (Hq & s & Hs & Hl). unfold Publisher_ReadFrame. rewrite Hs.
  destruct (frame_of_socket _ s) as [[st frame] t] eqn:E. apply frame_of_socket_tap in E.
  split; [|done]. split; [done|]. exists t. split; [done|]. congruence.
Qed.

Lemma exchange_open type v sent sequence p : frameable (cl_limits (pub_config p)) v ->
  open_with sent sequence p ->
  let p' := snd (exchange type v p) in
  open_with (sent ++ [framed_bytes (document_frame type FF_ExpectResponse (bump sequence) v)]) (bump sequence) p' /\
  pub_config p' = pub_config p /\ pub_handshaken p' = pub_handshaken p.
Proof.
  intros Hv Ho. unfold exchange. pose proof (Publisher_SendFrame_open type FF_ExpectResponse v sent sequence p Hv Ho) as H1.
  destruct (Publisher_SendFrame _ _ _ _) as [st p1]. cbn [snd] in H1. destruct H1 as (H1 & Hc & Hh).
  cbv zeta. destruct (negb _); [done|]. pose proof (Publisher_ReadFrame_open _ _ p1 H1) as H2.
  destruct (Publisher_ReadFrame p1) as [[st' frame] p2]. cbn [snd] in H2. destruct H2 as (H2 & Hc2 & Hh2).
  rewrite Hc in Hc2. rewrite Hh in Hh2.
  destruct (negb _); [done|]. by destruct (ParseJson _ _ _).
Qed.

Lemma client_call_open call sent sequence p : call_ok (cl_limits (pub_config p)) call ->
  pub_handshaken p = true -> open_with sent sequence p ->
  let p' := client_call call p in
  let frames := call_frames (cl_limits (pub_config p)) sequence [call] in
  open_with (sent ++ map framed_bytes frames) (if call_valid (cl_limits (pub_config p)) call then bump sequence else sequence) p' /\
  pub_config p' = pub_config p /\ pub_handshaken p' = true.
Proof.
  intros [Hv _] Hh Ho. assert (Hc : connected p = true) by (unfold connected; by destruct Ho as (_ & s & -> & _)).
  destruct call as [s|d]; cbn [client_call call_frames call_valid call_document fst snd] in *.
  - unfold Publisher_Publish. rewrite Hc. cbn [negb]. fold (identified s).
    destruct (status_ok (Snapshot_Validate _ (identified s))) eqn:E; cbn [negb].
    + pose proof (exchange_open FT_Snapshot (EncodeObservationDocument (identified s)) sent sequence p Hv Ho) as H1.
      destruct (exchange _ _ p) as [answer p1]. cbn [snd map] in *. rewrite Hh in H1. destruct H1 as (H1 & H2 & H3).
      cbv zeta. repeat case_scrutinee; done.
    + cbn. by rewrite app_nil_r.
  - unfold Publisher_PublishIntent. rewrite Hc. cbn [negb].
    destruct (status_ok (Intent_Validate _ d)) eqn:E; cbn [negb].
    + pose proof (exchange_open FT_Intent (EncodeIntentDocument d) sent sequence p Hv Ho) as H1.
      destruct (exchange _ _ p) as [answer p1]. cbn [snd map] in *. rewrite Hh in H1. destruct H1 as (H1 & H2 & H3).
      cbv zeta. repeat case_scrutinee; done.
    + cbn. by rewrite app_nil_r.
Qed.

Lemma client_calls_open calls sent sequence p : Forall (call_ok (cl_limits (pub_config p))) calls ->
  pub_handshaken p = true -> open_with sent sequence p ->
  exists last, open_with (sent ++ map framed_bytes (call_frames (cl_limits (pub_config p)) sequence calls)) last
    (client_calls calls p).
Proof.
  revert sent sequence p. induction calls as [|call calls IH]; intros sent sequence p Hok Hh Ho.
  { exists sequence. cbn. by rewrite app_nil_r. }
  apply Forall_cons in Hok as [Hc Hok].
  destruct (client_call_open call sent sequence p Hc Hh Ho) as (Ho' & Hp & Hh').
  rewrite <- Hp in Hok. destruct (IH _ _ _ Hok Hh' Ho') as [last Hl]. exists last. cbn [client_calls foldl].
  rewrite Hp, <- app_assoc, <- map_app in Hl. unfold client_calls in Hl |- *. cbn [call_frames] in Hl |- *.
  by destruct (call_valid _ call).
Qed.

Lemma close_not_connected p : connected (close_socket p) = false.
Proof. done. Qed.

(** A greeting that succeeds sent one frame. *)
Lemma greet_open p p' s : frameable (cl_limits (pub_config p)) (EncodeHello (hello_of (pub_config p))) ->
  pub_socket p = Some s -> greet p = (Status_Ok, p') ->
  open_with (tap_sent s ++ [framed_bytes (document_frame FT_Hello 0 (bump (pub_frame_sequence p))
    (EncodeHello (hello_of (pub_config p))))]) (bump (pub_frame_sequence p)) p' /\
  pub_config p' = pub_config p /\ pub_handshaken p' = true.
Proof.
  intros Hv Hs E. unfold greet in E.
  assert (Ho : open_with (tap_sent s) (pub_frame_sequence p) p) by (split; [done|by exists s]).
  pose proof (Publisher_SendFrame_open FT_Hello 0 _ _ _ p Hv Ho) as H1.
  destruct (Publisher_SendFrame _ _ _ p) as [sent p1]. cbn [snd] in H1. destruct H1 as (H1 & Hc & _).
  pose proof (Publisher_ReadFrame_open _ _ p1 H1) as H2.
  destruct (Publisher_ReadFrame p1) as [[read frame] p2]. cbn [snd] in H2. destruct H2 as ((Hq & s2 & Hs2 & Hl) & Hc2 & _).
  destruct (_ || _) eqn:Eo.
  { injection E as E <-. exfalso. rewrite E in Eo. destruct (status_ok sent) eqn:Es; [by subst|]. by rewrite E in Es. }
  destruct (greeting_answered _ _) as [status ack]. destruct (status_ok status) eqn:Ek; cbn [negb] in E.
  - injection E as <-. split; [|split; [|done]]; destruct ack; cbn; try congruence; split; try done; by exists s2.
  - injection E as -> _. done.
Qed.
End Sent.

Lemma call_frames_carry limits calls sequence : Forall (call_ok limits) calls ->
  Forall (framed_ok limits) (call_frames limits sequence calls) /\
  Forall2 (carries limits) (call_frames limits sequence calls) (List.filter (call_valid limits) calls).
Proof.
  intros Hok. revert sequence. induction Hok as [|call calls [Hv Hc] _ IH]; intros sequence; [by split|].
  cbn [call_frames List.filter]. destruct (call_valid limits call) eqn:E; [|apply IH].
  destruct (IH (bump sequence)) as [H1 H2]. split; constructor; try done.
  - by apply document_frame_ok; [split|apply bump_u64|].
  - destruct call as [s|d]; cbn [carries call_document fst snd call_valid] in *.
    + destruct Hc as (Hs & Ht & Hw). split; [done|]. cbn [document_frame framed_payload].
      assert (Hs' : snapshot_shape limits (identified s)) by (by destruct Hs).
      rewrite string_of_string_bytes. apply parse_document_within; [by apply (EncodeObservation_writable limits)|].
      by apply DecodeObservation_Encode.
    + destruct Hc as (Hs & Hw). split; [done|]. cbn [document_frame framed_payload].
      rewrite string_of_string_bytes. apply parse_document_within; [by apply (EncodeIntent_writable limits)|].
      by apply DecodeIntent_Encode.
Qed.

(** The numbers of the frames. *)
Lemma call_frames_sequences limits calls sequence :
  map framed_sequence (call_frames limits sequence calls) =
  map (fun i => Nat.iter i bump sequence) (seq 1 (length (call_frames limits sequence calls))).
Proof.
  revert sequence. induction calls as [|call calls IH]; intros sequence; [done|]. cbn [call_frames].
  destruct (call_valid limits call); [|apply IH]. cbn [map length seq document_frame framed_sequence].
  f_equal. rewrite <- seq_shift, map_map, IH. apply map_ext. intros i. by rewrite Nat.iter_succ_r.
Qed.

(** ** Properties *)

(** C10. A publisher is understood.  Whatever the network answers, a publisher
    that connected has handed the socket its greeting and then one frame for each
    publication its own validation let through, in order and numbered in sequence;
    and however these bytes are cut on their way, a session of a server with its
    limits reads back precisely those frames.  The first is the greeting of the
    configured authority, every other the snapshot, under the identity of its
    content, or the intent document that was published, each read as such exactly
    when the document as a whole is within the limits of values: what is larger the
    server refuses, although the validation of the publisher let it through.  The
    configuration has counters of their width and a provenance that is text within
    the leaf limit; publications are as in the interchange (times from the epoch
    on, values that can be written, paths within the bound on path texts), each in
    one frame. *)
Theorem publisher_is_understood {T} `{Transport T} (socket : T) (calls : list ClientCall)
    (p p1 : ObservationPublisher (Tapped T))
    (Hhello : hello_ok (cl_limits (pub_config p)) (hello_of (pub_config p)))
    (Hprovenance : IsValidUtf8 (cl_provenance (pub_config p)) = true)
    (Hfit : frameable (cl_limits (pub_config p)) (EncodeHello (hello_of (pub_config p))))
    (Hcalls : Forall (call_ok (cl_limits (pub_config p))) calls)
    (Hconnect : Publisher_Connect (inr (mkTapped socket [])) p = (Status_Ok, p1)) :
  exists tap greeting frames,
    let limits := cl_limits (pub_config p) in
    pub_socket (client_calls calls p1) = Some tap /\ tap_sent tap = map framed_bytes (greeting :: frames) /\
    framed_type greeting = FT_Hello /\
    read_within limits (EncodeHello (hello_of (pub_config p)))
      (parse_document DecodeHello (string_of_bytes (framed_payload greeting)) limits) (hello_of (pub_config p)) /\
    Forall2 (carries limits) frames (List.filter (call_valid limits) calls) /\
    map framed_sequence (greeting :: frames) =
      map (fun i => Nat.iter i bump (pub_frame_sequence p)) (seq 1 (S (length frames))) /\
    forall chunks, chunks_ok chunks -> concat chunks = concat (tap_sent tap) ->
      read_frames (S (S (length frames))) limits (mkScript chunks []) =
      (map framed_read (greeting :: frames), Some (Status_Rejected RC_WireSessionClosed "the peer closed the session")).
Proof.
  unfold Publisher_Connect in Hconnect. destruct (config_refusal _) as [status|] eqn:Er.
  { injection Hconnect as -> _. unfold config_refusal in Er. repeat case_scrutinee; discriminate. }
  set (p0 := p <| pub_socket := Some (mkTapped socket []) |>) in *.
  destruct (greet_open p0 p1 (mkTapped socket []) Hfit eq_refl Hconnect) as (Ho & Hc & Hh).
  change (pub_config p0) with (pub_config p) in *. rewrite <- Hc in Hcalls.
  destruct (client_calls_open calls _ _ p1 Hcalls Hh Ho) as (last & _ & tap & Ht & Hs). rewrite Hc in Hs, Hcalls.
  set (greeting := document_frame _ _ _ _) in Hs. set (frames := call_frames _ _ _) in Hs.
  destruct (call_frames_carry _ calls (bump (pub_frame_sequence p)) Hcalls) as [Hf Hcarry].
  assert (Hg : framed_ok (cl_limits (pub_config p)) greeting)
    by (apply document_frame_ok; [by split|apply bump_u64|done]).
  exists tap, greeting, frames. cbv zeta. split_and!; [done|by rewrite Hs|done| |done| |].
  - unfold greeting. cbn [document_frame framed_payload]. rewrite string_of_string_bytes.
    apply parse_document_within; [|by apply DecodeHello_EncodeHello].
    by apply (EncodeHello_writable (cl_limits (pub_config p))).
  - cbn [map seq]. f_equal. unfold frames. rewrite call_frames_sequences, <- (seq_shift _ 1), map_map.
    apply map_ext. intros i. by rewrite Nat.iter_succ_r.
  - intros chunks Hok Hcat. apply (read_frames_script _ (greeting :: frames)); [by constructor|done|].
    rewrite Hcat, Hs. done.
Qed.

(** ** Facts: refusals *)

Lemma reason_of_refused m what status : reason_of m what = inl status -> status_ok status = false.
Proof.
  unfold reason_of, optional_enum. destruct (OptionalString m "reason"); [|done]. destruct (TryParseReasonCode _); [done|].
  by intros [= <-].
Qed.

Lemma DecodeAck_refused v status : DecodeAck v = inl status -> status_ok status = false.
Proof.
  unfold DecodeAck. destruct (as_map v) as [m|]; [|by intros [= <-]].
  destruct (reason_of m "ack") as [st|reason] eqn:E; cbn [dbind]; [intros [= <-]; by apply reason_of_refused in E|].
  unfold ack_snapshot_of, identity_of. destruct (OptionalString m "snapshot"); [|done].
  destruct (String.eqb _ _); [done|]. destruct (IsValidIdentityText _); [done|]. by intros [= <-].
Qed.

Lemma DecodeHelloAck_refused v status : DecodeHelloAck v = inl status -> status_ok status = false.
Proof.
  unfold DecodeHelloAck. destruct (as_map v) as [m|]; [|by intros [= <-]].
  destruct (reason_of m "hello-ack") as [st|reason] eqn:E; cbn [dbind]; [intros [= <-]; by apply reason_of_refused in E|done].
Qed.

Section Refusals.
Context {T : Type} `{Transport T}.
Implicit Types p : ObservationPublisher T.

Lemma Publisher_SendFrame_keeps type flags v p : let p' := snd (Publisher_SendFrame type flags v p) in
  pub_next_sequence p' = pub_next_sequence p /\ pub_handshake p' = pub_handshake p /\ pub_config p' = pub_config p /\
  (is_Some (pub_socket p') <-> is_Some (pub_socket p)).
Proof.
  cbv zeta. unfold Publisher_SendFrame. destruct (EncodeFrame _ _ _ _ _); [done|]. unfold send_all. cbn.
  destruct (pub_socket p) as [s|] eqn:E; [destruct (SendAll _ s)|]; cbn; by rewrite ?E.
Qed.

Lemma Publisher_ReadFrame_keeps p : let p' := snd (Publisher_ReadFrame p) in
  pub_next_sequence p' = pub_next_sequence p /\ pub_handshake p' = pub_handshake p /\ pub_config p' = pub_config p /\
  (is_Some (pub_socket p') <-> is_Some (pub_socket p)).
Proof.
  cbv zeta. unfold Publisher_ReadFrame. destruct (pub_socket p) as [s|] eqn:E; [|cbn; by rewrite ?E].
  destruct (frame_of_socket _ s) as [[st f] t]. cbn. by rewrite ?E.
Qed.

Lemma exchange_keeps type v p :
  let '(answer, p') := exchange type v p in
  pub_next_sequence p' = pub_next_sequence p /\
  match answer with inl status => status_ok status = false | inr _ => True end.
Proof.
  unfold exchange. pose proof (Publisher_SendFrame_keeps type FF_ExpectResponse v p) as (Hn & _).
  destruct (Publisher_SendFrame _ _ _ p) as [st p1]. cbn [snd] in Hn. destruct (status_ok st) eqn:E; [|done]. cbn [negb].
  pose proof (Publisher_ReadFrame_keeps p1) as (Hn' & _). destruct (Publisher_ReadFrame p1) as [[st' f] p2].
  cbn [snd] in Hn'. rewrite <- Hn', Hn in *. destruct (status_ok st') eqn:E'; [|done]. cbn [negb].
  destruct (ParseJson _ _ _) as [st'' d]. by destruct (status_ok st'') eqn:E''.
Qed.

Lemma greeting_answered_ok limits frame status ack : greeting_answered limits frame = (status, ack) ->
  status_ok status = true -> exists a, ack = Some a /\ ha_accepted a = true.
Proof.
  unfold greeting_answered, refusal_of_document. intros E Hs. destruct (ParseJson _ _ _) as [st d].
  destruct (status_ok st) eqn:Es; cbn [negb] in E; [|congruence]. destruct (eqb _ FT_ErrorFrame); [by injection E as <- <-|].
  destruct (negb _); [by injection E as <- <-|]. destruct (DecodeHelloAck d) as [st'|a] eqn:Ed; injection E as <- <-.
  - apply DecodeHelloAck_refused in Ed. congruence.
  - exists a. split; [done|]. by destruct (ha_accepted a).
Qed.

Lemma greet_decides p s : pub_socket p = Some s ->
  let '(status, p') := greet p in
  if status_ok status then
    connected p' = true /\ ha_accepted (pub_handshake p') = true /\
    pub_next_sequence p' = cl_start_sequence (pub_config p)
  else pub_socket p' = None.
Proof.
  intros Hs. unfold greet.
  pose proof (Publisher_SendFrame_keeps FT_Hello 0 (EncodeHello (hello_of (pub_config p))) p) as (_ & _ & Hc & Ho).
  destruct (Publisher_SendFrame _ _ _ p) as [sent p1]. cbn [snd] in Hc, Ho.
  pose proof (Publisher_ReadFrame_keeps p1) as (_ & _ & Hc' & Ho').
  destruct (Publisher_ReadFrame p1) as [[read frame] p2]. cbn [snd] in Hc', Ho'.
  assert (Hopen : is_Some (pub_socket p2)) by (apply Ho', Ho; by rewrite Hs).
  destruct (_ || _) eqn:Eo.
  { destruct (status_ok (if status_ok sent then read else sent)) eqn:E; [|done].
    destruct (status_ok sent) eqn:Es; [|congruence]. by rewrite E in Eo. }
  destruct (greeting_answered _ _) as [status ack] eqn:Eg. destruct (status_ok status) eqn:Ek; cbn [negb].
  - apply greeting_answered_ok in Eg as (a & -> & Ha); [|done]. change (status_ok Status_Ok) with true. cbv iota.
    destruct Hopen as [t Ht]. unfold connected. cbn. rewrite Ht. done.
  - by rewrite Ek.
Qed.
End Refusals.

(** A publisher is connected or closed.  [Connect] succeeds only over the socket
    it was given, with an acknowledgement that accepts the greeting, and then
    expects the configured sequence; a refusal leaves a publisher that was not
    connected so.  Without a connection nothing is published, and only an
    acknowledgement that accepts a snapshot moves the next sequence. *)
Theorem publisher_connects_or_closes {T} `{Transport T} (dialed : Decoded T) (p : ObservationPublisher T)
    (Hdialed : forall status, dialed = inl status -> status_ok status = false) :
  (let '(status, p') := Publisher_Connect dialed p in
   if status_ok status then
     connected p' = true /\ ha_accepted (pub_handshake p') = true /\
     pub_next_sequence p' = cl_start_sequence (pub_config p) /\ config_refusal (pub_config p) = None /\
     exists socket, dialed = inr socket
   else connected p' = false \/ p' = p) /\
  (connected p = false -> forall snapshot document payload type ack,
     Publisher_Publish snapshot ack p = (not_connected, snapshot, ack, p) /\
     Publisher_PublishIntent document ack p = (not_connected, ack, p) /\
     Publisher_PublishRaw payload type ack p = (not_connected, ack, p)) /\
  (forall snapshot ack, let '(status, snapshot', ack', p') := Publisher_Publish snapshot ack p in
     pub_next_sequence p' =
       if status_ok status && ack_accepted ack' then bump (snap_sequence snapshot) else pub_next_sequence p) /\
  connected (snd (Publisher_Close p)) = false /\
  Publisher_Close (snd (Publisher_Close p)) = (Status_Ok, snd (Publisher_Close p)).
Proof.
  split; [|split; [|split]].
  - unfold Publisher_Connect. destruct (config_refusal (pub_config p)) as [status|] eqn:Er.
    { destruct (status_ok status) eqn:Es; [|by right]. exfalso. unfold config_refusal in Er.
      destruct (_ || _); [by injection Er as <-|]. destruct (_ || _); [by injection Er as <-|].
      destruct (_ =? 0); [by injection Er as <-|done]. }
    destruct dialed as [status|socket]; [rewrite (Hdialed status eq_refl); by right|].
    pose proof (greet_decides (p <| pub_socket := Some socket |>) socket eq_refl) as Hg.
    destruct (greet _) as [status p']. destruct (status_ok status).
    + destruct Hg as (? & ? & ?). split_and!; try done. by exists socket.
    + left. unfold connected. by rewrite Hg.
  - intros Hc. unfold Publisher_Publish, Publisher_PublishIntent, Publisher_PublishRaw. by rewrite Hc.
  - intros snapshot ack. unfold Publisher_Publish. destruct (connected p); [|done]. cbn [negb].
    destruct (status_ok (Snapshot_Validate _ _)) eqn:E; cbn [negb]; [|by rewrite E].
    match goal with |- context [exchange ?t ?v p] => pose proof (exchange_keeps t v p) as Hk;
      destruct (exchange t v p) as [answer p1] end. destruct Hk as [Hn Ha].
    destruct answer as [status|[header document]]; [by rewrite Ha|]. destruct (negb _); [done|].
    destruct (DecodeAck document) as [status|ack'] eqn:Ed; [apply DecodeAck_refused in Ed; by rewrite Ed|].
    by destruct (ack_accepted ack').
  - unfold Publisher_Close. destruct (pub_socket p) eqn:E; cbn; [done|]. rewrite E. unfold connected. by rewrite E.
Qed.

(** ** Examples and witnesses *)

Definition demo_client : ClientConfig :=
  mkClientConfig "127.0.0.1" 7411 (hello_source example_hello) (hello_epoch example_hello)
    (hello_incarnation example_hello) (hello_start_sequence example_hello) (hello_capabilities example_hello)
    (hello_provenance example_hello) default_limits 30000.

Definition demo_calls : list ClientCall :=
  [Client_PublishIntent example_intent; Client_Publish example_snapshot_draft].

(** What the server of [demo] answered. *)
Definition demo_answers : list (list Z) := script_sent (snd (snd demo)).

Definition demo_publisher : ObservationPublisher (Tapped Script) := new_publisher demo_client.

Definition demo_connect (answers : list (list Z)) : Status * ObservationPublisher (Tapped Script) :=
  Publisher_Connect (inr (mkTapped (mkScript answers []) [])) demo_publisher.

(** The publisher and the server understand each other: the answers of the server
    are acknowledgements that accept the intent and the snapshot. *)
Example demo_conversation :
  let p := client_calls demo_calls (snd (demo_connect demo_answers)) in
  status_ok (fst (demo_connect demo_answers)) = true /\ pub_next_sequence p = 13 /\
  option_map (fun tap => length (tap_sent tap)) (pub_socket p) = Some 3%nat.
Proof. vm_compute. repeat split. Qed.

Lemma demo_hello_ok : hello_ok default_limits (hello_of demo_client).
Proof. constructor; vm_compute; repeat split; discriminate. Qed.

Lemma demo_calls_ok : Forall (call_ok default_limits) demo_calls.
Proof.
  repeat (apply Forall_cons; split); [..|apply Forall_nil_2]; (split; [vm_compute; repeat split; discriminate|]).
  - split; [apply example_intent_shape|]. apply Forall_singleton, Forall_singleton.
    split; [vm_compute; reflexivity|split; vm_compute; discriminate].
  - split; [by destruct example_snapshot_shape|]. split; [split; vm_compute; discriminate|].
    apply Forall_singleton. repeat (apply Forall_cons; split; [split; [vm_compute; reflexivity|]|]);
      [split; vm_compute; discriminate|vm_compute; reflexivity|apply Forall_nil_2].
Qed.

Lemma publisher_is_understood_witness :
  exists tap greeting intent snapshot,
    pub_socket (client_calls demo_calls (snd (demo_connect demo_answers))) = Some tap /\
    tap_sent tap = map framed_bytes [greeting; intent; snapshot] /\
    ParseIntentJson (string_of_bytes (framed_payload intent)) default_limits = inr example_intent /\
    map framed_sequence [greeting; intent; snapshot] = [1; 2; 3].
Proof.
  assert (Hc : fst (demo_connect demo_answers) = Status_Ok) by (vm_compute; reflexivity).
  destruct (demo_connect demo_answers) as [status p1] eqn:E. cbn [fst snd] in *. subst status.
  assert (Hfit : frameable default_limits (EncodeHello (hello_of demo_client)))
    by (vm_compute; repeat split; discriminate).
  destruct (publisher_is_understood (mkScript demo_answers []) demo_calls demo_publisher p1 demo_hello_ok
    eq_refl Hfit demo_calls_ok E) as (tap & greeting & frames & Ht & Hs & _ & _ & Hf & Hq & _).
  assert (Hv : List.filter (call_valid default_limits) demo_calls = demo_calls) by (vm_compute; reflexivity).
  change (cl_limits (pub_config demo_publisher)) with default_limits in Hf. rewrite Hv in Hf.
  apply Forall2_cons_inv_r in Hf as (intent & rest & [_ Hi] & Hf & ->).
  apply Forall2_cons_inv_r in Hf as (snapshot & rest' & _ & Hf & ->). apply Forall2_nil_inv_r in Hf as ->.
  exists tap, greeting, intent, snapshot. split; [exact Ht|]. split; [exact Hs|].
  split; [|exact Hq]. apply Hi. split; [vm_compute; repeat split; discriminate|vm_compute; discriminate].
Defined.

(** *** Behaviours worth knowing *)

(** The first answer, the one to the greeting, with a byte of its checksum changed. *)
Definition damaged (answers : list (list Z)) : list (list Z) :=
  match answers with
  | ack :: rest => (firstn 16 ack ++ Z.lxor (nth 16 ack 0) 1 :: skipn 17 ack)%list :: rest
  | [] => []
  end.

(** A greeting whose answer fails its checksum is taken for accepted: the refusal
    of the frame is only heeded when the payload is empty. *)
Example damaged_answer_is_accepted :
  status_ok (fst (fst (frame_of_socket default_limits (mkScript (damaged demo_answers) [])))) = false /\
  status_ok (fst (demo_connect (damaged demo_answers))) = true.
Proof. vm_compute. split; reflexivity. Qed.

(** A raw payload goes out as a JSON string, so no document sent this way can be
    an object. *)
Example raw_payload_is_quoted :
  let p := snd (Publisher_PublishRaw "{}" FT_Intent empty_ack (snd (demo_connect demo_answers))) in
  option_map (fun tap => string_of_bytes (skipn 28 (default [] (last (tap_sent tap))))) (pub_socket p) =
  Some (String "034" (String "{" (String "}" (String "034" EmptyString)))).
Proof. vm_compute. reflexivity. Qed.
