(* ===== verification/Report.v ===== *)
(** * The report

    report.hpp/report.cpp: the reconciliation action a drift class calls for, and
    the report on an observatory as a value tree and as JSON text. *)

From Stdlib Require Import ZArith Lia List Bool String.
From stdpp Require Import base tactics list strings.
From S2P Require Import Prelude Containers Text Status Time Hash Identity Double Value Drift Intent.
From S2P Require Import Observation Freshness Policy Comparison Finding Ledger.
From S2P Require Import Json JsonGrammar JsonTokens JsonCodec JsonHelp Wire Interchange Query Engine Durable PolicyCodec Persistence PersistFacts PersistProps Client.
#[local] Open Scope string_scope.
#[local] Open Scope Z_scope.
#[local] Arguments String.append : simpl nomatch.

(** ** Actions *)

Inductive ReconciliationAction : Set :=
| RA_None | RA_ApplyIntent | RA_RemoveUnexpected | RA_CollectObservation | RA_ResolveSourceConflict
| RA_EscalateToOwner.

#[export, refine] Instance enum_ReconciliationAction : Enum ReconciliationAction :=
  {| code v := match v with
               | RA_None => 0 | RA_ApplyIntent => 1 | RA_RemoveUnexpected => 2 | RA_CollectObservation => 3
               | RA_ResolveSourceConflict => 4 | RA_EscalateToOwner => 5 end;
     values := [RA_None; RA_ApplyIntent; RA_RemoveUnexpected; RA_CollectObservation;
                RA_ResolveSourceConflict; RA_EscalateToOwner] |}.
Proof. enum_complete. Defined.

Definition kActionNames : list (Z * string) :=
  [(0, "none"); (1, "apply-intent"); (2, "remove-unexpected"); (3, "collect-observation");
   (4, "resolve-source-conflict"); (5, "escalate-to-owner")].

Definition ToText_ReconciliationAction (value : ReconciliationAction) : string :=
  Lookup kActionNames "none" (code value).
Definition TryParseReconciliationAction (text : string) : option ReconciliationAction :=
  TryParseEnum kActionNames text.

Definition ActionFor (klass : DriftClass) : ReconciliationAction :=
  match klass with
  | DC_Missing | DC_ValueMismatch | DC_FieldMissing | DC_GenerationMismatch | DC_PartialApplication =>
      RA_ApplyIntent
  | DC_Unexpected | DC_FieldUnexpected => RA_RemoveUnexpected
  | DC_StaleObservation | DC_Unknown => RA_CollectObservation
  | DC_SourceConflict => RA_ResolveSourceConflict
  | DC_Unsupported | DC_IntentMissing | DC_EvidenceInvalid => RA_EscalateToOwner
  | DC_None => RA_None
  end.

Definition RequestIdentity (id : Digest) (action : ReconciliationAction) : string :=
  "request/" +:+ Digest_ToShortHex id +:+ "/" +:+ ToText_ReconciliationAction action.

(** ** The parts of a report *)

Definition EncodeFindingSummary (f : Finding) : Value :=
  V_Map (make_map [("id", V_String (Digest_ToHex (fd_id f)));
                   ("target", V_String (fi_target (fd_identity f)));
                   ("object", V_String (fi_object (fd_identity f)));
                   ("path", V_String (FieldPath_ToText (fi_path (fd_identity f))));
                   ("drift_class", V_String (ToText_DriftClass (fd_klass f)));
                   ("raw_class", V_String (ToText_DriftClass (fd_raw_class f)));
                   ("severity", V_String (ToText_Severity (fd_severity f)));
                   ("state", V_String (ToText_FindingState (fd_state f)));
                   ("reason", V_String (ToText_ReasonCode (fd_reason f)));
                   ("baseline_generation", MakeUint (fd_baseline_generation f));
                   ("baseline_epoch", MakeUint (fd_baseline_epoch f));
                   ("baseline_authority", V_String (ToText_IntentAuthority (fd_baseline_authority f)));
                   ("evidence_freshness", V_String (ToText_FreshnessState (fd_evidence_freshness f)));
                   ("suppressed", V_Bool (has_suppression f));
                   ("compliance_relevant", V_Bool (fd_compliance_relevant f));
                   ("observation_count", MakeUint (fd_observation_count f));
                   ("reopen_count", MakeUint (fd_reopen_count f));
                   ("first_seen", V_String (FormatTime (fd_first_seen f)));
                   ("last_seen", V_String (FormatTime (fd_last_seen f)));
                   ("summary", V_String (fd_summary f))]).

(** [if (condition) map.emplace(name, value);] *)
Definition member_if (condition : bool) (name : string) (v : Value) : list (string * Value) :=
  if condition then [(name, v)] else [].

Definition EncodeReconciliationRequest (f : Finding) : Value :=
  let action := ActionFor (fd_klass f) in
  V_Map (make_map ([("id", V_String (RequestIdentity (fd_id f) action));
                    ("finding", V_String (Digest_ToHex (fd_id f)));
                    ("action", V_String (ToText_ReconciliationAction action));
                    ("target", V_String (fi_target (fd_identity f)));
                    ("object", V_String (fi_object (fd_identity f)));
                    ("path", V_String (FieldPath_ToText (fi_path (fd_identity f))));
                    ("drift_class", V_String (ToText_DriftClass (fd_klass f)));
                    ("severity", V_String (ToText_Severity (fd_severity f)));
                    ("baseline_generation", MakeUint (fd_baseline_generation f));
                    ("baseline_epoch", MakeUint (fd_baseline_epoch f));
                    ("policy", V_String (fd_policy f));
                    ("policy_digest", V_String (Digest_ToHex (fd_policy_digest f)));
                    ("suppressed", V_Bool (has_suppression f));
                    ("acknowledged", V_Bool (negb (String.eqb (fd_acknowledged_by f) "")));
                    ("observed_freshness", V_String (ToText_FreshnessState (fd_evidence_freshness f)));
                    ("reason", V_String (ToText_ReasonCode (fd_reason f)))] ++
                   member_if (fd_has_intended f) "intended" (fd_intended f) ++
                   member_if (fd_has_observed f) "observed" (fd_observed f) ++
                   [("evidence", V_List (map EncodeEvidenceRef (fd_evidence f)))])).

(** One step of [CountByDriftClass], [CountBySeverity] and [CountByState];
    [as_uint] is only for values that are stored unsigned. *)
Definition count_step (key : string) (counts : VMap) : VMap :=
  match mfind key counts with
  | None => memplace key (MakeUint 1) counts
  | Some current =>
      minsert key (MakeUint (match as_uint current with None => 1 | Some n => bump n end)) counts
  end.

Definition count_by (name : Finding -> string) (findings : list Finding) : VMap :=
  foldl (fun counts f => count_step (name f) counts) [] findings.

Definition CountByDriftClass : list Finding -> VMap := count_by (fun f => ToText_DriftClass (fd_klass f)).
Definition CountBySeverity : list Finding -> VMap := count_by (fun f => ToText_Severity (fd_severity f)).
Definition CountByState : list Finding -> VMap := count_by (fun f => ToText_FindingState (fd_state f)).

Definition counter_members (c : ObservatoryCounters) : list (string * Z) :=
  [("intents_accepted", ct_intents_accepted c); ("intents_rejected", ct_intents_rejected c);
   ("intents_duplicate_identical", ct_intents_duplicate_identical c);
   ("observations_accepted", ct_observations_accepted c); ("observations_rejected", ct_observations_rejected c);
   ("observations_duplicate_identical", ct_observations_duplicate_identical c);
   ("observations_superseded", ct_observations_superseded c); ("evaluations", ct_evaluations c);
   ("evaluations_cancelled", ct_evaluations_cancelled c); ("evaluations_fenced", ct_evaluations_fenced c);
   ("findings_created", ct_findings_created c); ("findings_resolved", ct_findings_resolved c);
   ("findings_reopened", ct_findings_reopened c); ("findings_suppressed", ct_findings_suppressed c);
   ("acknowledgements", ct_acknowledgements c); ("recoveries", ct_recoveries c);
   ("persistence_writes", ct_persistence_writes c); ("policy_changes", ct_policy_changes c)].

Definition numbers (members : list (string * Z)) : list (string * Value) :=
  map (fun e => (fst e, MakeUint (snd e))) members.

Definition EncodeCounters (c : ObservatoryCounters) : Value := V_Map (make_map (numbers (counter_members c))).

Definition stats_members (inputs : ReportInputs) : list (string * Z) :=
  let s := ri_stats inputs in
  [("targets", ls_targets s); ("baselines", ls_baselines s); ("observations", ls_observations s);
   ("sources", ls_sources s); ("findings", ls_findings s); ("live_findings", ls_live_findings s);
   ("resolved_findings", ls_resolved_findings s); ("superseded_findings", ls_superseded_findings s);
   ("suppressed_findings", ls_suppressed_findings s); ("acknowledged_findings", ls_acknowledged_findings s);
   ("groups", ls_groups s); ("timeline_entries", ls_timeline_entries s);
   ("reported_findings", vsize (ri_findings inputs)); ("matching_findings", ri_matching_findings inputs)].

Definition EncodeStats (inputs : ReportInputs) : Value :=
  V_Map (make_map (numbers (stats_members inputs) ++ [("truncated", V_Bool (ri_truncated inputs))])).

(** ** The report *)

Definition kProductName : string := "Network Drift Observatory".
Definition kProductVendor : string := "Summon Software Labs".
Definition kReportFormatVersion : Z := 1.

Definition EncodeProduct (evidence : EvidenceClass) : Value :=
  V_Map (make_map [("name", V_String kProductName); ("vendor", V_String kProductVendor);
                   ("version", V_String kVersionString); ("evidence", V_String (ToText_EvidenceClass evidence))]).

Definition EncodeObservatoryState (inputs : ReportInputs) : Value :=
  V_Map (make_map [("policy", V_String (ri_policy inputs));
                   ("policy_digest", V_String (Digest_ToHex (ri_policy_digest inputs)));
                   ("epoch", MakeUint (ri_epoch inputs));
                   ("incarnation", MakeUint (ri_incarnation inputs));
                   ("ledger_revision", MakeUint (ri_revision inputs));
                   ("state_digest", V_String (Digest_ToHex (ri_state_digest inputs)));
                   ("started", V_Bool (ri_started inputs))]).

(** The findings another runtime could act on. *)
Definition requested (findings : list Finding) : list Finding :=
  List.filter (fun f => IsLiveState (fd_state f) && negb (eqb (ActionFor (fd_klass f)) RA_None)) findings.

Definition system_boundary : list string :=
  ["observational only: this runtime never mutates a device and never applies a request";
   "reconciliation requests are typed suggestions for another runtime";
   "evidence class is declared per observation; synthetic fixtures are not hardware";
   "a suppressed finding remains true; suppression affects reporting only";
   "absence of fresh evidence is reported as unknown, never as compliance"].

(** The members of the root in the order they are put in; [evidence] is the
    class of the policy that [observatory.policy()] returns. *)
Definition report_members (spec : ReportSpec) (inputs : ReportInputs) (evidence : EvidenceClass)
    : list (string * Value) :=
  ([("schema", V_String "ndo/report/1");
    ("report_format_version", MakeUint kReportFormatVersion);
    ("report_id", V_String (if String.eqb (rs_id spec) "" then "report/unidentified" else rs_id spec));
    ("generated_at", V_String (FormatTime (ri_generated_at inputs)));
    ("note", V_String (rs_note spec));
    ("product", EncodeProduct evidence);
    ("observatory", EncodeObservatoryState inputs);
    ("counters", EncodeCounters (ri_counters inputs));
    ("stats", EncodeStats inputs);
    ("findings_by_class", V_Map (CountByDriftClass (ri_findings inputs)));
    ("findings_by_severity", V_Map (CountBySeverity (ri_findings inputs)));
    ("findings_by_state", V_Map (CountByState (ri_findings inputs)));
    ("findings", V_List (map EncodeFindingSummary (ri_findings inputs)))] ++
   member_if (rs_include_evidence spec) "finding_records" (V_List (map EncodeFinding (ri_findings inputs))) ++
   member_if (rs_include_groups spec) "root_cause_groups" (V_List (map EncodeGroup (ri_groups inputs))) ++
   member_if (rs_include_timeline spec) "timeline" (V_List (map EncodeTimelineEntry (ri_timeline inputs))) ++
   member_if (rs_include_reconciliation_requests spec) "reconciliation_requests"
     (V_List (map EncodeReconciliationRequest (requested (ri_findings inputs)))) ++
   [("system_boundary", V_List (map V_String system_boundary))])%list.

(** [BuildReportValue].  The inputs and the policy are read under two locks: [e] is
    the observatory under the first, [later] under the second. *)
Definition BuildReportValue (spec : ReportSpec) (stamp : NdoTime) (e later : Observatory) : Value :=
  V_Map (make_map (report_members spec (CollectReportInputs spec stamp e)
                     (pol_evidence (cfg_policy (eng_config later))))).

Definition BuildReportJson (spec : ReportSpec) (stamp : NdoTime) (e later : Observatory) : string :=
  WritePrettyJson (BuildReportValue spec stamp e later) 2.

(** ** Facts: counting *)

(** A number below the signed range is not [as_uint], so a count that has started
    is started again by the next finding of the same name. *)
Lemma mfind_count_by name findings key :
  mfind key (count_by name findings) =
  if existsb (fun f => eqb (name f) key) findings then Some (MakeUint 1) else None.
Proof.
  unfold count_by. assert (H : forall counts, (forall k, mfind k counts = None \/ mfind k counts = Some (MakeUint 1)) ->
    mfind key (foldl (fun counts f => count_step (name f) counts) counts findings) =
    if existsb (fun f => eqb (name f) key) findings then Some (MakeUint 1) else mfind key counts).
  { induction findings as [|f findings IH]; intros counts Hc; [done|]. cbn [foldl existsb].
    assert (Hs : forall k, mfind k (count_step (name f) counts) =
      if eqb (name f) k then Some (MakeUint 1) else mfind k counts).
    { intros k. unfold count_step, memplace. destruct (Hc (name f)) as [E|E]; rewrite E; cbv iota;
        destruct (eqb (name f) k) eqn:Ek; (apply eqb_eq in Ek as <- || apply eqb_neq in Ek);
        (apply mfind_insert_eq || by apply mfind_insert_ne). }
    rewrite IH.
    - rewrite Hs. destruct (eqb (name f) key), (existsb _ findings); done.
    - intros k. rewrite Hs. destruct (eqb _ _); auto. }
  rewrite H by auto. done.
Qed.

(** ** Facts: what is reported *)

Lemma collect_findings_spec spec budget findings taken l truncated : 0 <= taken ->
  collect_findings spec budget findings taken = (l, truncated) ->
  exists rest, List.filter (reported spec) findings = (l ++ rest)%list /\
    (truncated = false <-> rest = []) /\ (l = [] \/ taken + vsize l <= budget).
Proof.
  revert taken l truncated. induction findings as [|f findings IH]; intros taken l truncated Ht; cbn.
  { intros [= <- <-]. exists []. by repeat split; auto. }
  destruct (reported spec f); cbn [negb]; [|by apply IH].
  destruct (Z.leb_spec budget taken) as [Hb|Hb].
  { intros [= <- <-]. exists (f :: List.filter (reported spec) findings). repeat split; auto; done. }
  destruct (collect_findings spec budget findings (taken + 1)) as [l' t'] eqn:E. intros [= <- <-].
  destruct (IH (taken + 1) l' t' ltac:(lia) E) as (rest & -> & Hr & Hn). exists rest. repeat split; try apply Hr.
  right. unfold vsize in *. cbn [length]. destruct Hn as [->|Hn]; cbn [length] in *; lia.
Qed.

Lemma reported_findings spec stamp e : exists rest,
  let inputs := CollectReportInputs spec stamp e in
  List.filter (reported spec) (Findings (eng_ledger e)) = (ri_findings inputs ++ rest)%list /\
  (ri_truncated inputs = false <-> rest = []) /\
  vsize (ri_findings inputs) <= Z.max 0 (Z.min (rs_max_findings spec) (max_report_findings (cfg_limits (eng_config e)))).
Proof.
  unfold CollectReportInputs.
  destruct (collect_findings spec _ (Findings (eng_ledger e)) 0) as [l truncated] eqn:E.
  destruct (collect_findings_spec _ _ _ 0 l truncated ltac:(lia) E) as (rest & H & Ht & Hn). exists rest.
  repeat split; try done; try apply Ht. cbn [ri_findings]. destruct Hn as [->|Hn]; [unfold vsize; cbn|]; lia.
Qed.

Lemma reported_in spec stamp e f : f ∈ ri_findings (CollectReportInputs spec stamp e) ->
  f ∈ Findings (eng_ledger e) /\ reported spec f = true.
Proof.
  destruct (reported_findings spec stamp e) as (rest & H & _). intros Hf.
  assert (Hin : In f (List.filter (reported spec) (Findings (eng_ledger e)))).
  { rewrite H. apply in_or_app. left. by apply list_elem_of_In. }
  apply filter_In in Hin as [Hin Hr]. split; [by apply list_elem_of_In|done].
Qed.

Lemma reported_groups spec stamp e : let groups := ri_groups (CollectReportInputs spec stamp e) in
  groups ⊆ Groups (eng_ledger e).
Proof.
  cbn zeta. unfold CollectReportInputs. destruct (collect_findings _ _ _ _). cbn [ri_groups]. intros g.
  destruct (rs_include_groups spec); [|by intros ?%elem_of_nil].
  rewrite !list_elem_of_In, filter_In. by intros [? _].
Qed.

Lemma reported_timeline spec stamp e : let timeline := ri_timeline (CollectReportInputs spec stamp e) in
  timeline ⊆ GlobalTimeline (eng_ledger e).
Proof.
  cbn zeta. unfold CollectReportInputs. destruct (collect_findings _ _ _ _). cbn [ri_timeline]. intros g.
  destruct (rs_include_timeline spec); [|by intros ?%elem_of_nil].
  rewrite !list_elem_of_In, filter_In. by intros [? _].
Qed.

(** ** Facts: members *)

Lemma member_if_false name v : member_if false name v = [].
Proof. done. Qed.

Lemma report_member spec stamp e later name :
  let inputs := CollectReportInputs spec stamp e in
  exists root, BuildReportValue spec stamp e later = V_Map root /\
  FindMember root name = mfind name (report_members spec inputs (pol_evidence (cfg_policy (eng_config later)))).
Proof. cbn zeta. eexists. split; [reflexivity|]. apply FindMember_make_map. Qed.

Section Members.
Context (spec : ReportSpec) (inputs : ReportInputs) (evidence : EvidenceClass).
Notation members := (report_members spec inputs evidence).

Ltac find_member :=
  unfold report_members, member_if; destruct (rs_include_evidence spec), (rs_include_groups spec),
    (rs_include_timeline spec), (rs_include_reconciliation_requests spec); try discriminate; reflexivity.

Lemma member_requests : mfind "reconciliation_requests" members =
  if rs_include_reconciliation_requests spec
  then Some (V_List (map EncodeReconciliationRequest (requested (ri_findings inputs)))) else None.
Proof. find_member. Qed.

Lemma member_records : rs_include_evidence spec = true ->
  mfind "finding_records" members = Some (V_List (map EncodeFinding (ri_findings inputs))).
Proof. intros H. find_member. Qed.

Lemma member_groups : rs_include_groups spec = true ->
  mfind "root_cause_groups" members = Some (V_List (map EncodeGroup (ri_groups inputs))).
Proof. intros H. find_member. Qed.

Lemma member_timeline : rs_include_timeline spec = true ->
  mfind "timeline" members = Some (V_List (map EncodeTimelineEntry (ri_timeline inputs))).
Proof. intros H. find_member. Qed.

Lemma member_observatory : mfind "observatory" members = Some (EncodeObservatoryState inputs).
Proof. find_member. Qed.

Lemma member_counts :
  mfind "findings_by_class" members = Some (V_Map (CountByDriftClass (ri_findings inputs))) /\
  mfind "findings_by_severity" members = Some (V_Map (CountBySeverity (ri_findings inputs))) /\
  mfind "findings_by_state" members = Some (V_Map (CountByState (ri_findings inputs))).
Proof. repeat split; find_member. Qed.
End Members.

(** ** Facts: a report can be written *)

Lemma Final_digest s : is_digest (Final s).
Proof. unfold Final. destruct (finalized_ s); [apply zero_digest_ok|apply state_bytes_digest]. Qed.

Lemma ascii_substring t : forall n m, ascii_text t -> ascii_text (String.substring n m t).
Proof.
  unfold ascii_text. induction t as [|c t IH]; intros [|n] [|m] Ht; cbn in *; try done; apply Forall_cons in Ht as [Hc Ht];
    [constructor; [done|]|..]; by apply IH.
Qed.

Lemma hex_digit_ascii n : 0 <= n < 16 -> byte_of (hex_digit n) < 0x80.
Proof.
  intros Hn. assert (Hin : n ∈ seqZ 0 16) by (apply elem_of_seqZ; lia). clear Hn. revert n Hin.
  apply Forall_forall. by repeat constructor.
Qed.

Lemma short_hex_ascii d : is_digest d -> ascii_text (Digest_ToShortHex d).
Proof.
  intros [_ Hd]. apply ascii_substring. unfold Digest_ToHex, ascii_text. induction Hd as [|x d Hx _ IH]; [constructor|].
  cbn. repeat (constructor; [apply hex_digit_ascii; by apply nibbles|]). done.
Qed.

Lemma action_plain a : ascii_text (ToText_ReconciliationAction a).
Proof. destruct a; cbn; repeat constructor. Qed.

Lemma request_plain d a : is_digest d -> plain_text (RequestIdentity d a).
Proof.
  intros Hd. apply ascii_utf8. unfold RequestIdentity.
  repeat apply ascii_append; [by repeat constructor|by apply short_hex_ascii|by repeat constructor|apply action_plain].
Qed.

Lemma member_if_plain condition name v : IsValidUtf8 name = true -> (condition = true -> writable v) ->
  Forall plain_member (member_if condition name v).
Proof. intros Hn Hv. destruct condition; [|constructor]. apply Forall_singleton. split; [done|by apply Hv]. Qed.

Lemma EncodeFindingSummary_writable limits f : finding_kept limits f -> writable (EncodeFindingSummary f).
Proof. intros []. unfold EncodeFindingSummary. plain_members. Qed.

Ltac plain_list :=
  repeat match goal with
  | |- Forall plain_member (_ ++ _) => apply Forall_app; split
  | |- Forall plain_member [] => apply Forall_nil_2
  | |- Forall plain_member (_ :: _) => apply Forall_cons; split; [split; [reflexivity|]|]
  | |- Forall plain_member (member_if _ _ _) => apply member_if_plain; [reflexivity|]
  end; cbn [fst snd].

Ltac plain_one :=
  lazymatch goal with
  | |- writable (V_Bool _) => exact I
  | |- writable (V_String (String _ _)) => vm_compute; reflexivity
  | |- writable (V_String _) => cbn [writable]; try assumption
  | |- writable (MakeUint _) => apply writable_MakeUint; try assumption
  | |- _ => idtac
  end;
  try lazymatch goal with
  | |- IsValidUtf8 ?t = true => change (plain_text t); solve [eauto with plain nocore]
  end.

Lemma plain_map l : Forall plain_member l -> mfind kBytesMember l = None -> writable (V_Map (make_map l)).
Proof. apply writable_make_map. Qed.

Lemma EncodeReconciliationRequest_writable limits f : finding_kept limits f -> writable (EncodeReconciliationRequest f).
Proof.
  intros []. unfold EncodeReconciliationRequest. apply plain_map.
  - plain_list; plain_one.
    + by apply request_plain.
    + apply ascii_utf8, action_plain.
    + done.
    + done.
    + eapply writable_records; [apply EncodeEvidenceRef_writable|eassumption].
  - unfold member_if. destruct (fd_has_intended f), (fd_has_observed f); reflexivity.
Qed.

Lemma numbers_plain members : Forall (fun e => IsValidUtf8 (fst e) = true /\ is_u64 (snd e)) members ->
  Forall plain_member (numbers members).
Proof.
  intros H. apply Forall_map. eapply Forall_impl; [exact H|]. intros [name v] [Hn Hv].
  split; [done|]. by apply writable_MakeUint.
Qed.

Lemma counts_writable name findings : (forall f, plain_text (name f)) -> (forall f, name f <> kBytesMember) ->
  writable (V_Map (count_by name findings)).
Proof.
  intros Hp Hb. cbn [writable].
  assert (Hs : forall counts, msorted counts -> msorted (foldl (fun counts f => count_step (name f) counts) counts findings)).
  { induction findings as [|f fs IH]; intros counts Hs; [done|]. cbn [foldl]. apply IH. unfold count_step.
    destruct (mfind _ _); [by apply minsert_sorted|by apply memplace_sorted]. }
  assert (Hf : forall k v, mfind k (count_by name findings) = Some v -> v = MakeUint 1 /\ exists f, name f = k).
  { intros k v. rewrite mfind_count_by. destruct (existsb _ _) eqn:E; [|done]. intros [= <-]. split; [done|].
    apply existsb_exists in E as (f & _ & E%eqb_eq). by exists f. }
  split; [apply Hs, msorted_nil|split].
  - unfold object_value. destruct (mfind kBytesMember _) eqn:E; [|by destruct (_ =? 1)].
    apply Hf in E as (_ & f & E). by apply Hb in E.
  - apply (foldr_and (fun e : string * Value => IsValidUtf8 (fst e) = true /\ writable (snd e))).
    apply Forall_forall. intros [k v] Hin. apply list_elem_of_In, mfind_In_sorted in Hin; [|apply Hs, msorted_nil].
    apply Hf in Hin as (-> & f & <-). split; [apply Hp|]. by vm_compute.
Qed.

(** What the report shows beside the ledger can be written. *)
Record reportable (spec : ReportSpec) (e : Observatory) (inputs : ReportInputs) : Prop := {
  rp_ledger : ledger_kept (eng_ledger e);
  rp_id : plain_text (rs_id spec);
  rp_note : plain_text (rs_note spec);
  rp_policy : plain_text (pol_id (cfg_policy (eng_config e)));
  rp_epoch : is_u64 (cfg_epoch (eng_config e));
  rp_incarnation : is_u64 (cfg_incarnation (eng_config e));
  rp_counters : Forall (fun c => is_u64 (snd c)) (counter_members (eng_counters e));
  rp_stats : Forall (fun c => is_u64 (snd c)) (stats_members inputs)
}.

Section Writable.
Context (spec : ReportSpec) (stamp : NdoTime) (e later : Observatory).
Notation inputs := (CollectReportInputs spec stamp e).
Context (H : reportable spec e inputs).

Lemma reported_kept : Forall (finding_kept (LedgerPayloadLimits (lg_limits (eng_ledger e)))) (ri_findings inputs).
Proof.
  apply Forall_forall. intros f [Hf _]%reported_in. destruct H as [[] _ _ _ _ _ _ _].
  rewrite Forall_forall in lk_findings. by apply lk_findings.
Qed.

Lemma reported_groups_kept : Forall group_kept (ri_groups inputs).
Proof.
  apply Forall_forall. intros g Hg%reported_groups. destruct H as [[] _ _ _ _ _ _ _].
  rewrite Forall_forall in lk_groups. by apply lk_groups.
Qed.

Lemma reported_timeline_kept : Forall entry_kept (ri_timeline inputs).
Proof.
  apply Forall_forall. intros g Hg%reported_timeline. destruct H as [[] _ _ _ _ _ _ _].
  rewrite Forall_forall in lk_timeline. by apply lk_timeline.
Qed.

Lemma EncodeObservatoryState_writable : writable (EncodeObservatoryState inputs).
Proof.
  destruct H as [[] _ _ Hp He Hi _ _]. unfold EncodeObservatoryState, CollectReportInputs.
  destruct (collect_findings _ _ _ _). cbn [ri_policy ri_policy_digest ri_epoch ri_incarnation ri_revision ri_state_digest ri_started].
  apply plain_map; [plain_list; plain_one|reflexivity]; try done; apply hex_plain, Final_digest.
Qed.

Lemma numbers_writable members rest : Forall (fun c => is_u64 (snd c)) members ->
  forallb (fun c : string * Z => IsValidUtf8 (fst c)) members = true -> Forall plain_member rest ->
  mfind kBytesMember (numbers members ++ rest)%list = None -> writable (V_Map (make_map (numbers members ++ rest)%list)).
Proof.
  intros Hm Hn Hr Hb. apply plain_map; [|done]. apply Forall_app. split; [|done]. apply numbers_plain.
  rewrite Forall_forall in *. intros c Hc. split; [|by apply Hm].
  rewrite forallb_forall in Hn. by apply Hn, list_elem_of_In.
Qed.

Lemma BuildReportValue_writable : writable (BuildReportValue spec stamp e later).
Proof.
  pose proof reported_kept as Hf. pose proof reported_groups_kept as Hg. pose proof reported_timeline_kept as Ht.
  pose proof EncodeObservatoryState_writable as Ho. destruct H as [_ Hid Hnote _ _ _ Hc Hs].
  unfold BuildReportValue, report_members. apply plain_map.
  2: { unfold member_if. destruct (rs_include_evidence spec), (rs_include_groups spec), (rs_include_timeline spec),
         (rs_include_reconciliation_requests spec); reflexivity. }
  assert (Ecounters : ri_counters inputs = eng_counters e)
    by (unfold CollectReportInputs; by destruct (collect_findings _ _ _ _)).
  plain_list; plain_one.
  - by split.
  - destruct (String.eqb _ _); [reflexivity|exact Hid].
  - unfold EncodeProduct. plain_members; reflexivity.
  - exact Ho.
  - unfold EncodeCounters. rewrite Ecounters, <- (app_nil_r (numbers _)). by apply numbers_writable.
  - unfold EncodeStats. apply numbers_writable; [done|reflexivity| |reflexivity]. plain_list. exact I.
  - apply counts_writable; [intros f; apply klass_plain|intros f; by destruct (fd_klass f)].
  - apply counts_writable; [intros f; apply severity_plain|intros f; by destruct (fd_severity f)].
  - apply counts_writable; [intros f; apply state_plain|intros f; by destruct (fd_state f)].
  - eapply writable_records; [|exact Hf]. apply EncodeFindingSummary_writable.
  - intros _. eapply writable_records; [|exact Hf]. apply EncodeFinding_writable.
  - intros _. eapply writable_records; [|exact Hg]. apply EncodeGroup_writable.
  - intros _. eapply writable_records; [|exact Ht]. apply EncodeTimelineEntry_writable.
  - intros _. eapply writable_records; [apply EncodeReconciliationRequest_writable|].
    rewrite Forall_forall in *. intros f Hin%list_elem_of_In. apply filter_In in Hin as [Hin _].
    by apply Hf, list_elem_of_In.
  - apply writable_list_of. cbn [system_boundary map]. repeat constructor.
Qed.
End Writable.

Lemma ParseJson_pretty limits v out width : writable v -> document_fits limits v ->
  ssize (WritePrettyJson v width) <= max_document_bytes limits ->
  ParseJson (WritePrettyJson v width) limits out = (Status_Ok, v).
Proof. intros Hw. by apply ParseJson_spelled, WritePretty_spells. Qed.

Lemma filter_sublist {A} (p : A -> bool) l : List.filter p l `sublist_of` l.
Proof. induction l as [|x l IH]; cbn; [constructor|]. destruct (p x); by constructor. Qed.

(** ** Properties *)

(** C17. A report says what the ledger holds: for an observatory whose records are
    in their ranges, the text of the report parses exactly when the report as a
    whole is within the limits of values the reader parses it with (which bound
    the nodes and the bytes of one document: a large report is refused under the
    limits it was made with), and from the parsed report
    the findings it covers (with the evidence), the root cause groups and the
    timeline are read back exactly, by the decoders of the ledger file, with the
    revision of the ledger they come from.  The findings covered are the first
    ones of the ledger that the request selects, never more than it or the limits
    allow, and the report says when some are left out. *)
Theorem report_reads_back (spec : ReportSpec) (stamp : NdoTime) (e later : Observatory)
    (limits : RuntimeLimits) (out : Value) :
  let inputs := CollectReportInputs spec stamp e in
  let text := BuildReportJson spec stamp e later in
  let ledger_limits := LedgerPayloadLimits (lg_limits (eng_ledger e)) in
  let readable := document_fits limits (BuildReportValue spec stamp e later) /\ ssize text <= max_document_bytes limits in
  reportable spec e inputs ->
  (~ readable -> exists status, ParseJson text limits out = (status, out) /\ status_ok status = false) /\
  exists root, (readable -> ParseJson text limits out = (Status_Ok, V_Map root)) /\
  (rs_include_evidence spec = true -> exists records, FindMember root "finding_records" = Some (V_List records) /\
     dmap (fun v => DecodeFinding v ledger_limits) records = inr (ri_findings inputs)) /\
  (rs_include_groups spec = true -> exists groups, FindMember root "root_cause_groups" = Some (V_List groups) /\
     dmap DecodeGroup groups = inr (ri_groups inputs)) /\
  (rs_include_timeline spec = true -> exists entries, FindMember root "timeline" = Some (V_List entries) /\
     dmap DecodeTimelineEntry entries = inr (ri_timeline inputs)) /\
  (exists state, FindMember root "observatory" = Some (V_Map state) /\
     RequireUint state "ledger_revision" "report" = inr (lg_revision (eng_ledger e)) /\
     FindMember state "state_digest" = Some (V_String (Digest_ToHex (ContentDigest (eng_ledger e))))) /\
  (exists rest, List.filter (reported spec) (Findings (eng_ledger e)) = (ri_findings inputs ++ rest)%list /\
     (ri_truncated inputs = false <-> rest = []) /\
     vsize (ri_findings inputs) <=
       Z.max 0 (Z.min (rs_max_findings spec) (max_report_findings (cfg_limits (eng_config e))))).
Proof.
  intros inputs text ledger_limits readable H.
  pose proof (reported_kept spec stamp e H) as Hf. pose proof (reported_groups_kept spec stamp e H) as Hg.
  pose proof (reported_timeline_kept spec stamp e H) as Ht.
  pose proof (BuildReportValue_writable spec stamp e later H) as Hw.
  split; [apply ParseJson_too_large, (WritePretty_spells 2 _ 0 Hw)|].
  exists (make_map (report_members spec inputs (pol_evidence (cfg_policy (eng_config later))))).
  split; [intros [Hfit Hsize]; apply (ParseJson_pretty _ _ out 2 Hw Hfit Hsize)|].
  rewrite !FindMember_make_map. split; [|split; [|split; [|split]]].
  - intros Hi. eexists. split; [by apply member_records|]. rewrite (dmap_map _ _ id); [by rewrite map_id|].
    eapply Forall_impl; [exact Hf|]. intros f. apply DecodeFinding_Encode.
  - intros Hi. eexists. split; [by apply member_groups|]. rewrite (dmap_map _ _ id); [by rewrite map_id|].
    eapply Forall_impl; [exact Hg|]. intros g. apply DecodeGroup_Encode.
  - intros Hi. eexists. split; [by apply member_timeline|]. rewrite (dmap_map _ _ id); [by rewrite map_id|].
    eapply Forall_impl; [exact Ht|]. intros t. apply DecodeTimelineEntry_Encode.
  - rewrite member_observatory. eexists. split; [reflexivity|].
    assert (Hi : ri_revision inputs = lg_revision (eng_ledger e) /\ ri_state_digest inputs = ContentDigest (eng_ledger e))
      by (unfold inputs, CollectReportInputs; by destruct (collect_findings _ _ _ _)).
    destruct Hi as [<- <-]. split; [|found]. apply required_uint_ok; [found|].
    replace (ri_revision inputs) with (lg_revision (eng_ledger e))
      by (unfold inputs, CollectReportInputs; by destruct (collect_findings _ _ _ _)). apply H.
  - apply reported_findings.
Qed.

(** C19. What a report asks another runtime to do is justified by the drift found:
    there is one request per finding of the report that is live and calls for an
    action, and nothing else; each carries that finding's identity and action, and
    how fresh the evidence of the finding is, which the receiver has to look at:
    the action does not depend on it.  Every such finding is one of the ledger, in a
    live state; configuration is to be applied or removed only for a class of drift
    that says a divergence was seen, and a class that says the evidence was stale,
    missing or invalid asks to look again or to ask the owner; and without the
    option no request is made at all. *)
Theorem report_requests_are_justified (spec : ReportSpec) (stamp : NdoTime) (e later : Observatory) :
  let inputs := CollectReportInputs spec stamp e in
  exists root, BuildReportValue spec stamp e later = V_Map root /\
  (rs_include_reconciliation_requests spec = false -> FindMember root "reconciliation_requests" = None) /\
  (rs_include_reconciliation_requests spec = true -> exists findings,
    FindMember root "reconciliation_requests" = Some (V_List (map EncodeReconciliationRequest findings)) /\
    findings `sublist_of` ri_findings inputs /\
    (forall f, f ∈ findings <-> f ∈ ri_findings inputs /\ IsLiveState (fd_state f) = true /\ ActionFor (fd_klass f) <> RA_None) /\
    forall f, f ∈ findings ->
      f ∈ Findings (eng_ledger e) /\ IsLiveState (fd_state f) = true /\
      (exists m, EncodeReconciliationRequest f = V_Map m /\
         FindMember m "finding" = Some (V_String (Digest_ToHex (fd_id f))) /\
         FindMember m "action" = Some (V_String (ToText_ReconciliationAction (ActionFor (fd_klass f)))) /\
         FindMember m "observed_freshness" = Some (V_String (ToText_FreshnessState (fd_evidence_freshness f))) /\
         TryParseReconciliationAction (ToText_ReconciliationAction (ActionFor (fd_klass f))) = Some (ActionFor (fd_klass f))) /\
      (ActionFor (fd_klass f) = RA_ApplyIntent \/ ActionFor (fd_klass f) = RA_RemoveUnexpected ->
         IsActionableDrift (fd_klass f) = true /\ IsIndeterminateDrift (fd_klass f) = false) /\
      (IsIndeterminateDrift (fd_klass f) = true ->
         ActionFor (fd_klass f) = RA_CollectObservation \/ ActionFor (fd_klass f) = RA_EscalateToOwner)).
Proof.
  intros inputs. eexists. split; [reflexivity|]. rewrite FindMember_make_map, member_requests. fold inputs.
  split; intros ->; [done|]. exists (requested (ri_findings inputs)).
  assert (Hin : forall f, f ∈ requested (ri_findings inputs) <->
    f ∈ ri_findings inputs /\ IsLiveState (fd_state f) = true /\ ActionFor (fd_klass f) <> RA_None).
  { intros f. unfold requested. rewrite !list_elem_of_In, filter_In, andb_true_iff, negb_true_iff, eqb_neq. done. }
  split; [done|]. split; [apply filter_sublist|]. split; [done|]. intros f [Hf [Hl Ha]]%Hin.
  split; [by apply (reported_in spec stamp)|]. split; [done|]. split; [|by destruct (fd_klass f); cbn; intuition discriminate].
  eexists. split; [reflexivity|]. split; [found|]. split; [found|]. split; [found|]. by destruct (ActionFor _).
Qed.

(** ** Examples and witnesses *)

(** A finding that was recovered from a file, whose evidence says so, still asks for
    its intent to be applied. *)
Example recovered_finding_asks_to_apply (f : Finding) :
  fd_klass f = DC_ValueMismatch -> fd_state f = St_Open -> fd_evidence_freshness f = FS_RecoveredNotFresh ->
  requested [f] = [f] /\ ActionFor (fd_klass f) = RA_ApplyIntent.
Proof. intros Ek Es Ef. unfold requested. cbn [List.filter]. by rewrite Ek, Es. Qed.

(** Two findings of one class are counted once. *)
Example counts_stop_at_one (f : Finding) : fd_klass f = DC_Missing ->
  CountByDriftClass [f; f; f] = [("missing", V_Int 1)].
Proof. intros E. unfold CountByDriftClass, count_by. cbn [foldl]. rewrite E. reflexivity. Qed.

Definition full_spec : ReportSpec := mkReportSpec "report/1" None true true true true true true true 100 "".

Definition kept_numbers : list (string * Z) :=
  Eval vm_compute in stats_members (CollectReportInputs full_spec 0 kept_observatory).
Lemma kept_numbers_eq : stats_members (CollectReportInputs full_spec 0 kept_observatory) = kept_numbers.
Proof. vm_compute. reflexivity. Qed.

Lemma kept_reportable : reportable full_spec kept_observatory (CollectReportInputs full_spec 0 kept_observatory).
Proof.
  constructor; [exact kept_ledger_kept|reflexivity|reflexivity|reflexivity|split; discriminate|split; discriminate|..].
  - cbn. repeat (apply Forall_cons; split; [split; discriminate|]). apply Forall_nil_2.
  - rewrite kept_numbers_eq. unfold kept_numbers. kept.
Qed.

Lemma report_reads_back_witness :
  let text := BuildReportJson full_spec 0 kept_observatory kept_observatory in
  exists root findings, ParseJson text default_limits V_Null = (Status_Ok, V_Map root) /\
  ri_findings (CollectReportInputs full_spec 0 kept_observatory) = findings /\ length findings = 1%nat /\
  exists records, FindMember root "finding_records" = Some (V_List records) /\
    dmap (fun v => DecodeFinding v (LedgerPayloadLimits (lg_limits (eng_ledger kept_observatory)))) records = inr findings.
Proof.
  intros text.
  destruct (report_reads_back full_spec 0 kept_observatory kept_observatory default_limits V_Null kept_reportable)
    as (_ & root & E & Hf & _).
  exists root, (ri_findings (CollectReportInputs full_spec 0 kept_observatory)). split; [apply E; split|].
  - vm_compute. repeat split; discriminate.
  - vm_compute. discriminate.
  - split; [reflexivity|]. split; [vm_compute; reflexivity|]. apply Hf. reflexivity.
Defined.
