(* ===== verification/Cli.v ===== *)
(** * The command line

    ndo_cli.cpp: the options, the query they describe, and every command but the
    threads behind [serve], which is a parameter.  A command is a function on the
    runtime and the host: the files, the clock and what was printed.  Where a
    signed product or a cast leaves its range the behaviour is undefined and the
    result says so. *)

From Stdlib Require Import ZArith Lia List Bool Ascii String Floats.SpecFloat.
From stdpp Require Import base tactics list strings.
From S2P Require Import Prelude Containers Text Status Time Hash Identity Double Value Drift Intent.
From S2P Require Import Observation Freshness Policy Comparison Finding Ledger LedgerApply LedgerProps.
From S2P Require Import Json JsonCodec JsonHelp Wire Interchange Query Engine EngineFacts Concurrency EngineProps Durable.
From S2P Require Import PolicyCodec Persistence PersistFacts PersistProps Client Report StdText.
#[local] Open Scope string_scope.
#[local] Open Scope Z_scope.
#[local] Arguments String.append : simpl nomatch.

Definition kExitOk : Z := 0.
Definition kExitUsage : Z := 1.
Definition kExitActionableDrift : Z := 2.
Definition kExitUndecidable : Z := 3.

(** ** Options *)

Record Options := mkOptions {
  opt_command : string;
  opt_state_path : string;
  opt_file_path : string;
  opt_out_path : string;
  opt_policy_path : string;
  opt_target : string;
  opt_object : string;
  opt_drift_class : string;
  opt_severity : string;
  opt_min_severity : string;
  opt_state_filter : string;
  opt_order : string;
  opt_group : string;
  opt_source : string;
  opt_min_freshness : string;
  opt_root_cause : string;
  opt_finding : string;
  opt_actor : string;
  opt_reason : string;
  opt_task : string;
  opt_bind_address : string;
  opt_generation : option Z;
  opt_min_age_seconds : option Z;
  opt_max_age_seconds : option Z;
  opt_now_seconds : option Z;
  opt_hours : option Double;
  opt_epoch : Z;
  opt_incarnation : Z;
  opt_port : Z;
  opt_limit : Z;
  opt_offset : Z;
  opt_compact : bool;
  opt_include_resolved : bool;
  opt_include_superseded : bool;
  opt_include_retired : bool;
  opt_include_suppressed : bool;
  opt_once : bool;
  opt_evaluate_after : bool;
  opt_help : bool
}.

#[export] Instance eta_Options : Eta Options := fun o =>
  mkOptions (opt_command o) (opt_state_path o) (opt_file_path o) (opt_out_path o) (opt_policy_path
    o) (opt_target o) (opt_object o) (opt_drift_class o) (opt_severity o) (opt_min_severity o)
    (opt_state_filter o) (opt_order o) (opt_group o) (opt_source o) (opt_min_freshness o)
    (opt_root_cause o) (opt_finding o) (opt_actor o) (opt_reason o) (opt_task o) (opt_bind_address
    o) (opt_generation o) (opt_min_age_seconds o) (opt_max_age_seconds o) (opt_now_seconds o)
    (opt_hours o) (opt_epoch o) (opt_incarnation o) (opt_port o) (opt_limit o) (opt_offset o)
    (opt_compact o) (opt_include_resolved o) (opt_include_superseded o) (opt_include_retired o)
    (opt_include_suppressed o) (opt_once o) (opt_evaluate_after o) (opt_help o).

Definition default_options : Options :=
  mkOptions "" "" "" "" "" "" "" "" "" "" "" "" "" "" "" "" "" "" "" "" "127.0.0.1" None None None
    None None 1 1 0 1000 0 false false false false true false false false.

Definition NeedsValue (name : string) : bool := existsb (eqb name)
  ["--state"; "--file"; "--out"; "--policy"; "--target"; "--object"; "--class"; "--severity";
   "--min-severity"; "--state-filter"; "--order"; "--generation"; "--min-age"; "--max-age"; "--limit";
   "--offset"; "--group"; "--source"; "--min-freshness"; "--root-cause"; "--finding"; "--actor";
   "--reason"; "--hours"; "--now"; "--epoch"; "--incarnation"; "--port"; "--bind"; "--task"].

Definition flag_option (name : string) (o : Options) : option Options :=
  (if (name =? "--help") || (name =? "-h") then Some (o <| opt_help := true |>)
  else if name =? "--json" then Some (o <| opt_compact := true |>)
  else if name =? "--include-resolved" then Some (o <| opt_include_resolved := true |>)
  else if name =? "--include-superseded" then Some (o <| opt_include_superseded := true |>)
  else if name =? "--include-retired" then Some (o <| opt_include_retired := true |>)
  else if name =? "--exclude-suppressed" then Some (o <| opt_include_suppressed := false |>)
  else if name =? "--once" then Some (o <| opt_once := true |>)
  else if name =? "--evaluate" then Some (o <| opt_evaluate_after := true |>)
  else None)%string.

Section Numbers.
(** [ULONG_MAX], and [std::stod], which reads by the rules of the locale. *)
Variable ulong_max : Z.
Variable stod : string -> option Double.

(** The body of the [try]: [None] is an exception. *)
Definition value_option (name value : string) (o : Options) : option Options :=
  (if name =? "--state" then Some (o <| opt_state_path := value |>)
  else if name =? "--file" then Some (o <| opt_file_path := value |>)
  else if name =? "--out" then Some (o <| opt_out_path := value |>)
  else if name =? "--policy" then Some (o <| opt_policy_path := value |>)
  else if name =? "--target" then Some (o <| opt_target := value |>)
  else if name =? "--object" then Some (o <| opt_object := value |>)
  else if name =? "--class" then Some (o <| opt_drift_class := value |>)
  else if name =? "--severity" then Some (o <| opt_severity := value |>)
  else if name =? "--min-severity" then Some (o <| opt_min_severity := value |>)
  else if name =? "--state-filter" then Some (o <| opt_state_filter := value |>)
  else if name =? "--order" then Some (o <| opt_order := value |>)
  else if name =? "--group" then Some (o <| opt_group := value |>)
  else if name =? "--source" then Some (o <| opt_source := value |>)
  else if name =? "--min-freshness" then Some (o <| opt_min_freshness := value |>)
  else if name =? "--root-cause" then Some (o <| opt_root_cause := value |>)
  else if name =? "--finding" then Some (o <| opt_finding := value |>)
  else if name =? "--actor" then Some (o <| opt_actor := value |>)
  else if name =? "--reason" then Some (o <| opt_reason := value |>)
  else if name =? "--task" then Some (o <| opt_task := value |>)
  else if name =? "--generation" then option_map (fun v => o <| opt_generation := Some v |>) (stoull value)
  else if name =? "--min-age" then option_map (fun v => o <| opt_min_age_seconds := Some v |>) (stoll value)
  else if name =? "--max-age" then option_map (fun v => o <| opt_max_age_seconds := Some v |>) (stoll value)
  else if name =? "--now" then option_map (fun v => o <| opt_now_seconds := Some v |>) (stoll value)
  else if name =? "--hours" then option_map (fun v => o <| opt_hours := Some v |>) (stod value)
  else if name =? "--epoch" then option_map (fun v => o <| opt_epoch := v |>) (stoull value)
  else if name =? "--incarnation" then option_map (fun v => o <| opt_incarnation := v |>) (stoull value)
  else if name =? "--port" then option_map (fun v => o <| opt_port := v mod 65536 |>) (stoul ulong_max value)
  else if name =? "--bind" then Some (o <| opt_bind_address := value |>)
  else if name =? "--limit" then option_map (fun v => o <| opt_limit := v |>) (stoull value)
  else if name =? "--offset" then option_map (fun v => o <| opt_offset := v |>) (stoull value)
  else Some o)%string.

(** The loop over the arguments: the complaint, or the options. *)
Fixpoint parse_args (args : list string) (o : Options) : string + Options :=
  match args with
  | [] => inr o
  | name :: rest =>
      match flag_option name o with
      | Some o => parse_args rest o
      | None =>
          if negb (NeedsValue name) then inl ("unknown option: " +:+ name)
          else
            match rest with
            | [] => inl ("option requires a value: " +:+ name)
            | value :: rest =>
                match value_option name value o with
                | None => inl ("option value is not a number: " +:+ name +:+ " " +:+ value)
                | Some o => parse_args rest o
                end
            end
      end
  end.

(** [argv] without the name of the program. *)
Definition ParseOptions (args : list string) : string + Options :=
  match args with
  | [] => inl ""
  | command :: rest => parse_args rest (default_options <| opt_command := command |>)
  end.
End Numbers.

(** ** The query *)

(** [seconds * 1000000000LL]; [None] when the product leaves [std::int64_t]. *)
Definition seconds_nanos (seconds : Z) : option Z :=
  let nanos := seconds * 1000000000 in
  if (INT64_MIN <=? nanos) && (nanos <=? INT64_MAX) then Some nanos else None.

Definition age_nanos (seconds : option Z) : option (option Z) :=
  match seconds with None => Some None | Some s => option_map Some (seconds_nanos s) end.

(** A filter that is set has to be read by [parse]. *)
Definition filter_option {A} (parse : string -> option A) (complaint text : string) : Decoded (option A) :=
  if String.eqb text "" then inr None
  else match parse text with
       | Some x => inr (Some x)
       | None => inl (Status_Rejected RC_EncodingMalformed complaint)
       end.

Definition query_filters (o : Options) : Decoded QuerySpec :=
  let? target := filter_option TryParseIdentity "target is not a valid identity" (opt_target o) in
  let? object := filter_option TryParseIdentity "object is not a valid identity" (opt_object o) in
  let? klass := filter_option TryParseDriftClass "drift class is not recognized" (opt_drift_class o) in
  let? exact := filter_option TryParseSeverity "severity is not recognized" (opt_severity o) in
  let? minimum := filter_option TryParseSeverity "severity is not recognized" (opt_min_severity o) in
  let? state := filter_option TryParseFindingState "finding state is not recognized" (opt_state_filter o) in
  let? order := filter_option TryParseQueryOrder "order is not recognized" (opt_order o) in
  let? group := filter_option Digest_TryFromHex "group is not a group identity" (opt_group o) in
  let? source := filter_option TryParseIdentity "source is not a valid identity" (opt_source o) in
  let? freshness := filter_option TryParseFreshnessState "freshness state is not recognized" (opt_min_freshness o) in
  let? cause := filter_option cause_named "root cause is not recognized" (opt_root_cause o) in
  inr (mkQuerySpec target object None (opt_generation o) None klass minimum exact state group source cause
         freshness None None (opt_include_resolved o) (opt_include_superseded o) (opt_include_retired o)
         (opt_include_suppressed o) (default QO_SeverityDescending order) (opt_limit o) (opt_offset o)).

(** [BuildQuerySpec]: the ages are computed after the filters; [None] is the
    undefined behaviour of an age that overflows. *)
Definition BuildQuerySpec (o : Options) : option (Decoded QuerySpec) :=
  match query_filters o with
  | inl status => Some (inl status)
  | inr spec =>
      match age_nanos (opt_min_age_seconds o), age_nanos (opt_max_age_seconds o) with
      | Some minimum, Some maximum =>
          Some (inr (spec <| qs_min_age_nanos := minimum |> <| qs_max_age_nanos := maximum |>))
      | _, _ => None
      end
  end.

Definition BuildConfig (o : Options) (policy : ObservatoryPolicy) : ObservatoryConfig :=
  mkConfig policy default_limits (opt_epoch o) (opt_incarnation o) 1 true false.

(** ** The host *)

(** What [PrintUsage] writes, line by line. *)
Definition usage_text : string := String.concat newline
  ["Network Drift Observatory " +:+ kVersionString;
   "usage: ndo_cli <command> [options]";
   "";
   "commands:";
   "  version                            print the runtime version";
   "  policy-default [--out FILE]        print the default policy";
   "  intent-commit  --file FILE         commit an intent generation document";
   "  observe        --file FILE         admit an observation document";
   "  evaluate                           evaluate and apply the outcome";
   "  query          [filters]           list findings (JSON)";
   "  explain        --finding HEX       explain one finding";
   "  timeline       [filters]           list timeline entries";
   "  report         [--out FILE]        export a machine-readable report";
   "  suppress       --finding HEX --actor A --reason R [--hours N]";
   "  acknowledge    --finding HEX --actor A --reason R";
   "  stats                              print ledger statistics";
   "  serve          --port N [--once]   serve observation sessions";
   "";
   "common options:";
   "  --state FILE       load the ledger at start and save it before exit";
   "  --epoch N          fabric epoch (default 1)";
   "  --incarnation N    process incarnation (default 1)";
   "  --now UNIXSECONDS  evaluate at an explicit clock reading";
   "  --policy FILE      load an observatory policy document (JSON)";
   "  --evaluate         evaluate in the same process after the command";
   "  --json             emit compact JSON instead of indented JSON";
   "";
   "query filters:";
   "  --target T --object O --class C --severity S --min-severity S --state S";
   "  --generation N --group HEX --source S --min-freshness F --root-cause C";
   "  --min-age SECONDS --max-age SECONDS --limit N --offset N --order O";
   "  --include-resolved --include-superseded --include-retired";
   "  --exclude-suppressed"; ""].

Section Host.
Context {F : Type} `{FileSystem F}.

(** The files, the readings of the clock with how many were taken, and what was
    written to the two standard streams. *)
Record Host := mkHost {
  host_files : F;
  host_clock : nat -> NdoTime;
  host_readings : nat;
  host_out : string;
  host_err : string
}.

Definition on_files (g : F -> F) (h : Host) : Host :=
  mkHost (g (host_files h)) (host_clock h) (host_readings h) (host_out h) (host_err h).
Definition say (text : string) (h : Host) : Host :=
  mkHost (host_files h) (host_clock h) (host_readings h) (host_out h +:+ text) (host_err h).
Definition complain (text : string) (h : Host) : Host :=
  mkHost (host_files h) (host_clock h) (host_readings h) (host_out h) (host_err h +:+ text).

Definition SystemNow (h : Host) : NdoTime * Host :=
  (host_clock h (host_readings h),
   mkHost (host_files h) (host_clock h) (S (host_readings h)) (host_out h) (host_err h)).

(** [ResolveNow]: the seconds given, or the clock. *)
Definition ResolveNow (o : Options) (h : Host) : option NdoTime * Host :=
  match opt_now_seconds o with
  | Some seconds => (seconds_nanos seconds, h)
  | None => let '(now, h) := SystemNow h in (Some now, h)
  end.

Definition ReadFile (path : string) (h : Host) : option string :=
  option_map string_of_bytes (stored path (host_files h)).

Definition WriteFile (path text : string) (h : Host) : bool * Host :=
  let '(opened, f) := open_truncated path (host_files h) in
  if negb opened then (false, on_files (fun _ => f) h)
  else let '(written, f) := write_stream path (string_bytes text) f in (written, on_files (fun _ => f) h).

Definition PrintUsage : Host -> Host := say usage_text.

(** [Report]. *)
Definition ReportStatus (status : Status) (h : Host) : Z * Host :=
  (kExitUsage,
   complain ("refused: " +:+ ToText_StatusCode (st_code status) +:+ " / " +:+ ToText_ReasonCode (st_reason status) +:+
     (if String.eqb (st_detail status) "" then "" else " (" +:+ st_detail status +:+ ")") +:+ newline) h).

Definition Print (value : Value) (compact : bool) : Host -> Host :=
  say ((if compact then WriteCanonicalJson value else WritePrettyJson value 2) +:+ newline).

(** The policy of the run; the default one when the file names none. *)
Definition LoadPolicy (o : Options) (h : Host) : Decoded ObservatoryPolicy :=
  if String.eqb (opt_policy_path o) "" then inr (Policy_Default <| pol_evidence := EC_Synthetic |>)
  else
    match ReadFile (opt_policy_path o) h with
    | None => inl (Status_NotFound RC_EncodingMalformed "the policy file could not be read")
    | Some text =>
        let '(status, value) := ParseJson text default_limits V_Null in
        check status then DecodePolicy value default_limits
    end.

(** ** The commands *)

(** How a command ended: it returned from [main], or [main] goes on with a result,
    or its behaviour is undefined. *)
Inductive Command :=
| Returned (exit : Z) (e : Observatory) (h : Host)
| Continued (result : Z) (e : Observatory) (h : Host)
| Undefined.

Definition returned (exit : Z * Host) (e : Observatory) : Command := Returned (fst exit) e (snd exit).

Definition refuse_with (e : Observatory) (complaint : string) (h : Host) : Command :=
  Returned kExitUsage e (complain (complaint +:+ newline) h).

(** [save]: the result stays, unless the state file could not be written. *)
Definition save_state (o : Options) (result : Z) (e : Observatory) (h : Host) : Z * Observatory * Host :=
  if String.eqb (opt_state_path o) "" then (result, e, h)
  else
    let '(saved, e, f) := Observatory_Save (opt_state_path o) e (host_files h) in
    let h := on_files (fun _ => f) h in
    if status_ok saved then (result, e, h)
    else (kExitUsage, e, complain ("the state file could not be written: " +:+ st_detail saved +:+ newline) h).

(** *** [evaluate] *)

Definition EncodeTargetEvaluation (t : TargetEvaluation) : Value :=
  V_Map (make_map [("target", V_String (te_target t)); ("has_baseline", V_Bool (te_has_baseline t));
    ("baseline_generation", MakeUint (te_baseline_generation t));
    ("best_freshness", V_String (ToText_FreshnessState (te_best_freshness t)));
    ("sources_considered", MakeUint (te_sources_considered t)); ("fresh_sources", MakeUint (te_fresh_sources t));
    ("compliance_decidable", V_Bool (te_compliance_decidable t)); ("compliant", V_Bool (te_compliant t));
    ("decision_reason", V_String (ToText_ReasonCode (te_decision_reason t)));
    ("drafts", MakeUint (vsize (te_drafts t))); ("trace", V_List (map V_String (te_trace t)))]).

Definition EncodeOutcome (outcome : EvaluationOutcome) : Value :=
  V_Map (make_map [("evaluated_at", V_String (FormatTime (out_now outcome)));
    ("epoch", MakeUint (out_epoch outcome)); ("incarnation", MakeUint (out_incarnation outcome));
    ("policy_digest", V_String (Digest_ToHex (out_policy_digest outcome)));
    ("outcome_digest", V_String (Digest_ToHex (Outcome_ComputeDigest outcome)));
    ("targets", V_List (map EncodeTargetEvaluation (out_targets outcome)))]).

Definition any_actionable (outcome : EvaluationOutcome) : bool :=
  existsb (fun t => existsb (fun draft => IsActionableDrift (dr_klass draft)) (te_drafts t)) (out_targets outcome).
Definition any_undecidable (outcome : EvaluationOutcome) : bool :=
  existsb (fun t => negb (te_compliance_decidable t)) (out_targets outcome).

Definition exit_of (outcome : EvaluationOutcome) : Z :=
  if any_actionable outcome then kExitActionableDrift
  else if any_undecidable outcome then kExitUndecidable
  else kExitOk.

(** [None]: the time given overflows. *)
Definition CommandEvaluate (o : Options) (e : Observatory) (h : Host) : option (Z * Observatory * Host) :=
  let '(now, h) := ResolveNow o h in
  match now with
  | None => None
  | Some now =>
      let '(outcome, e) := EvaluateAt now true e in
      Some (match outcome with
            | Result_status status => let '(exit, h) := ReportStatus status h in (exit, e, h)
            | Result_value outcome => (exit_of outcome, e, Print (EncodeOutcome outcome) (opt_compact o) h)
            end)
  end.

Definition continue_with (r : option (Z * Observatory * Host)) : Command :=
  match r with None => Undefined | Some (exit, e, h) => Continued exit e h end.

(** *** [intent-commit] and [observe] *)

Definition EncodeCommitReport (report : IntentCommitReport) : Value :=
  V_Map (make_map [("target", V_String (cr_target report));
    ("committed_generation", MakeUint (cr_committed_generation report));
    ("previous_generation", MakeUint (cr_previous_generation report));
    ("duplicate_identical", V_Bool (cr_duplicate_identical report));
    ("findings_rebased", MakeUint (cr_findings_rebased report))]).

Definition EncodeAdmission (admission : ObservationAdmission) : Value :=
  V_Map (make_map [("snapshot", V_String (ad_snapshot admission)); ("source", V_String (ad_source admission));
    ("freshness", V_String (ToText_FreshnessState (ad_freshness admission)));
    ("duplicate_identical", V_Bool (ad_duplicate_identical admission));
    ("superseded_older", V_Bool (ad_superseded_older admission))]).

Definition CommandIntentCommit (o : Options) (text : string) (e : Observatory) (h : Host) : Command :=
  match ParseIntentJson text (cfg_limits (eng_config e)) with
  | inl status => returned (ReportStatus status h) e
  | inr document =>
      let '(now, h) := SystemNow h in
      let '(status, report, e) := PublishIntent document now empty_commit_report e in
      if negb (status_ok status) then returned (ReportStatus status h) e
      else Continued kExitOk e (Print (EncodeCommitReport report) (opt_compact o) h)
  end.

Definition CommandObserve (o : Options) (text : string) (e : Observatory) (h : Host) : Command :=
  let '(now, h) := SystemNow h in
  let '(status, admission, e) := IngestObservationJson text now empty_admission e in
  if negb (status_ok status) then returned (ReportStatus status h) e
  else Continued kExitOk e (Print (EncodeAdmission admission) (opt_compact o) h).

(** *** [query], [explain] and [timeline] *)

Definition EncodeQueryFinding (f : Finding) : Value :=
  V_Map (make_map [("id", V_String (Digest_ToHex (fd_id f))); ("target", V_String (fi_target (fd_identity f)));
    ("object", V_String (fi_object (fd_identity f)));
    ("path", V_String (FieldPath_ToText (fi_path (fd_identity f))));
    ("class", V_String (ToText_DriftClass (fd_klass f))); ("raw_class", V_String (ToText_DriftClass (fd_raw_class f)));
    ("severity", V_String (ToText_Severity (fd_severity f))); ("state", V_String (ToText_FindingState (fd_state f)));
    ("reason", V_String (ToText_ReasonCode (fd_reason f)));
    ("baseline_generation", MakeUint (fd_baseline_generation f)); ("baseline_epoch", MakeUint (fd_baseline_epoch f));
    ("freshness", V_String (ToText_FreshnessState (fd_evidence_freshness f)));
    ("group", V_String (hex_or_blank (fd_group f))); ("observation_count", MakeUint (fd_observation_count f));
    ("reopen_count", MakeUint (fd_reopen_count f)); ("first_seen", V_String (FormatTime (fd_first_seen f)));
    ("last_seen", V_String (FormatTime (fd_last_seen f))); ("suppressed", V_Bool (has_suppression f));
    ("summary", V_String (fd_summary f))]).

Definition EncodePage (page : QueryResult) : Value :=
  V_Map (make_map [("total_matched", MakeUint (qr_total_matched page));
    ("returned", MakeUint (vsize (qr_findings page))); ("truncated", V_Bool (qr_truncated page));
    ("page_digest", V_String (Digest_ToHex (qr_page_digest page)));
    ("findings", V_List (map EncodeQueryFinding (qr_findings page)))]).

Definition CommandQuery (o : Options) (e : Observatory) (h : Host) : Command :=
  match BuildQuerySpec o with
  | None => Undefined
  | Some (inl status) => returned (ReportStatus status h) e
  | Some (inr spec) =>
      let '(now, h) := SystemNow h in
      match Observatory_Query spec now e with
      | Result_status status => returned (ReportStatus status h) e
      | Result_value page => Continued kExitOk e (Print (EncodePage page) (opt_compact o) h)
      end
  end.

Definition explain_spec : QuerySpec :=
  default_query <| qs_limit := 1000000 |> <| qs_include_resolved := true |>
    <| qs_include_superseded := true |> <| qs_include_retired := true |>.

Definition EncodeHistory (entry : TimelineEntry) : Value :=
  V_Map (make_map [("kind", V_String (ToText_TimelineEventKind (tl_kind entry)));
    ("sequence", MakeUint (tl_sequence entry)); ("at", V_String (FormatTime (tl_at entry)));
    ("state", V_String (ToText_FindingState (tl_state_after entry)));
    ("reason", V_String (ToText_ReasonCode (tl_reason entry))); ("detail", V_String (tl_detail entry))]).

Definition EncodeExplanation (f : Finding) : Value :=
  V_Map (make_map [("summary", V_String (ExplainFinding f)); ("history", V_List (map EncodeHistory (fd_timeline f)))]).

(** The state is saved on the way out; the result of [save] is not returned. *)
Definition CommandExplain (o : Options) (e : Observatory) (h : Host) : Command :=
  if String.eqb (opt_finding o) "" then Returned kExitUsage e (PrintUsage h)
  else
    match Digest_TryFromHex (opt_finding o) with
    | None => refuse_with e "--finding must be a finding identity" h
    | Some id =>
        let '(now, h) := SystemNow h in
        match Observatory_Query explain_spec now e with
        | Result_status status => returned (ReportStatus status h) e
        | Result_value page =>
            match List.find (fun f => eqb (fd_id f) id) (qr_findings page) with
            | None => refuse_with e "no finding exists with that identity" h
            | Some f =>
                let '(_, e, h) := save_state o kExitOk e (Print (EncodeExplanation f) (opt_compact o) h) in
                Returned kExitOk e h
            end
        end
    end.

Definition EncodeTimelineItem (entry : TimelineEntry) : Value :=
  V_Map (make_map [("kind", V_String (ToText_TimelineEventKind (tl_kind entry)));
    ("sequence", MakeUint (tl_sequence entry)); ("at", V_String (FormatTime (tl_at entry)));
    ("target", V_String (tl_target entry)); ("object", V_String (tl_object entry));
    ("finding", V_String (hex_or_blank (tl_finding entry)));
    ("state", V_String (ToText_FindingState (tl_state_after entry)));
    ("class", V_String (ToText_DriftClass (tl_klass entry)));
    ("reason", V_String (ToText_ReasonCode (tl_reason entry))); ("detail", V_String (tl_detail entry))]).

Definition EncodeTimelinePage (page : TimelinePage) : Value :=
  V_Map (make_map [("total_matched", MakeUint (tp_total_matched page));
    ("returned", MakeUint (vsize (tp_entries page))); ("entries", V_List (map EncodeTimelineItem (tp_entries page)))]).

Definition CommandTimeline (o : Options) (e : Observatory) (h : Host) : Command :=
  match (if String.eqb (opt_finding o) "" then Some None else option_map Some (Digest_TryFromHex (opt_finding o))) with
  | None => refuse_with e "--finding must be a finding identity" h
  | Some finding =>
      match (if String.eqb (opt_target o) "" then Some None else option_map Some (TryParseIdentity (opt_target o))) with
      | None => refuse_with e "--target must be a valid identity" h
      | Some target =>
          match QueryTimeline (mkTimelineSpec finding target None None None (opt_limit o) (opt_offset o)) e with
          | Result_status status => returned (ReportStatus status h) e
          | Result_value page => Continued kExitOk e (Print (EncodeTimelinePage page) (opt_compact o) h)
          end
      end
  end.

(** *** [report] *)

Definition report_spec (o : Options) (target : option string) : ReportSpec :=
  let id := default "report/cli" (TryParseIdentity (if String.eqb (opt_task o) "" then "report/cli" else opt_task o)) in
  mkReportSpec id target (opt_include_resolved o) (opt_include_superseded o) (opt_include_suppressed o)
    true true true true (opt_limit o) "".

Definition CommandReport (o : Options) (e : Observatory) (h : Host) : Command :=
  match (if String.eqb (opt_target o) "" then Some None else option_map Some (TryParseIdentity (opt_target o))) with
  | None => refuse_with e "--target must be a valid identity" h
  | Some target =>
      let '(now, h) := SystemNow h in
      let text := BuildReportJson (report_spec o target) now e e in
      if String.eqb (opt_out_path o) "" then Continued kExitOk e (say (text +:+ newline) h)
      else
        let '(written, h) := WriteFile (opt_out_path o) (text +:+ newline) h in
        if written then Continued kExitOk e h else refuse_with e "the report file could not be written" h
  end.

(** *** [suppress] and [acknowledge] *)

Definition double_product (x y : Double) : Double := SFmul 53 1024 x y.
Definition double_3600 : Double := S754_finite false 7916483719987200 (-41).
Definition double_1e9 : Double := S754_finite false 8388608000000000 (-23).

(** [static_cast<std::int64_t>(hours * 3600.0 * 1000000000.0)], undefined when the
    value does not fit. *)
Definition hours_nanos (hours : Double) : option Z :=
  let nanos := double_product (double_product hours double_3600) double_1e9 in
  let whole := truncate nanos in
  if is_finite nanos && (INT64_MIN <=? whole) && (whole <=? INT64_MAX) then Some whole else None.

(** The time a suppression ends; [None] is undefined behaviour. *)
Definition suppression_end (o : Options) (h : Host) : option (option NdoTime) * Host :=
  match opt_hours o with
  | None => (Some None, h)
  | Some hours =>
      let '(now, h) := ResolveNow o h in
      (match now, hours_nanos hours with
       | Some now, Some nanos =>
           if (INT64_MIN <=? now + nanos) && (now + nanos <=? INT64_MAX) then Some (Some (now + nanos)) else None
       | _, _ => None
       end, h)
  end.

Definition recorded (id : Digest) (answer : Status * Observatory) (h : Host) : Command :=
  let '(status, e) := answer in
  if negb (status_ok status) then returned (ReportStatus status h) e
  else Continued kExitOk e
         (say (quoted "{'status':'recorded','finding':'" +:+ Digest_ToHex id +:+ quoted "'}" +:+ newline) h).

Definition CommandAct (o : Options) (e : Observatory) (h : Host) : Command :=
  if String.eqb (opt_finding o) "" || String.eqb (opt_actor o) "" then Returned kExitUsage e (PrintUsage h)
  else
    match Digest_TryFromHex (opt_finding o) with
    | None => refuse_with e "--finding must be a finding identity" h
    | Some id =>
        match TryParseIdentity (opt_actor o) with
        | None => refuse_with e "--actor must be a valid identity" h
        | Some actor =>
            if String.eqb (opt_command o) "suppress" then
              let '(expires, h) := suppression_end o h in
              let '(now, h) := ResolveNow o h in
              match expires, now with
              | Some expires, Some now => recorded id (SuppressFinding id actor (opt_reason o) expires now e) h
              | _, _ => Undefined
              end
            else
              let '(now, h) := ResolveNow o h in
              match now with
              | Some now => recorded id (AcknowledgeFinding id actor (opt_reason o) now e) h
              | None => Undefined
              end
        end
    end.

(** *** [stats] *)

Definition EncodeLedgerNumbers (e : Observatory) : Value :=
  let s := Stats (eng_ledger e) in
  let c := eng_counters e in
  V_Map (make_map (numbers
    [("targets", ls_targets s); ("baselines", ls_baselines s); ("observations", ls_observations s);
     ("sources", ls_sources s); ("findings", ls_findings s); ("live_findings", ls_live_findings s);
     ("resolved_findings", ls_resolved_findings s); ("superseded_findings", ls_superseded_findings s);
     ("suppressed_findings", ls_suppressed_findings s); ("groups", ls_groups s);
     ("timeline_entries", ls_timeline_entries s); ("evaluations", ct_evaluations c);
     ("evaluations_cancelled", ct_evaluations_cancelled c); ("evaluations_fenced", ct_evaluations_fenced c);
     ("observations_rejected", ct_observations_rejected c); ("recoveries", ct_recoveries c)])).

(** ** [main] *)

Section Main.
(** The command [serve] once its port was checked: the threads of the server over
    the sockets of the system. *)
Variable serve : Options -> Observatory -> Host -> Command.
(** [data()] of an empty vector, as the loader sees it. *)
Variable empty_data : option (list Z).

Definition with_file (o : Options) (e : Observatory) (h : Host)
    (run : Options -> string -> Observatory -> Host -> Command) : Command :=
  if String.eqb (opt_file_path o) "" then Returned kExitUsage e (PrintUsage h)
  else match ReadFile (opt_file_path o) h with
       | None => refuse_with e "the input file could not be read" h
       | Some text => run o text e h
       end.

Definition run_command (o : Options) (e : Observatory) (h : Host) : Command :=
  let command := opt_command o in
  (if command =? "intent-commit" then with_file o e h CommandIntentCommit
  else if command =? "observe" then with_file o e h CommandObserve
  else if command =? "evaluate" then continue_with (CommandEvaluate o e h)
  else if command =? "query" then CommandQuery o e h
  else if command =? "explain" then CommandExplain o e h
  else if command =? "timeline" then CommandTimeline o e h
  else if command =? "report" then CommandReport o e h
  else if (command =? "suppress") || (command =? "acknowledge") then CommandAct o e h
  else if command =? "stats" then Continued kExitOk e (Print (EncodeLedgerNumbers e) (opt_compact o) h)
  else if command =? "serve" then
    if (opt_port o =? 0)%Z then refuse_with e "--port is required" h else serve o e h
  else Returned kExitUsage e (PrintUsage h))%string.

(** What follows the command: the evaluation [--evaluate] asks for, the state file,
    [Stop]. *)
Definition finish_command (o : Options) (c : Command) : Command :=
  match c with
  | Continued result e h =>
      let after := if opt_evaluate_after o then CommandEvaluate o e h else Some (kExitOk, e, h) in
      match after with
      | None => Undefined
      | Some (evaluated, e, h) =>
          let result := if evaluated =? kExitOk then result else evaluated in
          let '(result, e, h) := save_state o result e h in
          Returned result (Stop_begin e) h
      end
  | _ => c
  end.

(** The runtime of the run: started, with the state file when there is one. *)
Definition open_observatory (o : Options) (policy : ObservatoryPolicy) (h : Host) : Status * Observatory :=
  let '(status, e) := Start (new_observatory (BuildConfig o policy)) in
  if negb (status_ok status) then (status, e)
  else
    match (if String.eqb (opt_state_path o) "" then None else stored (opt_state_path o) (host_files h)) with
    | None => (Status_Ok, e)
    | Some _ =>
        let '(status, _, e) := Observatory_Load empty_data (opt_state_path o) blank_recovery_report e (host_files h) in
        (status, e)
    end.

Definition version_text : string :=
  kProductName +:+ " " +:+ kVersionString +:+ " (" +:+ kProductVendor +:+ ")" +:+ newline +:+
  "ledger format " +:+ to_string_unsigned kLedgerFormatVersion +:+ ", wire protocol " +:+
  to_string_unsigned kWireProtocolVersion +:+ newline.

(** [policy-default]. *)
Definition print_policy (o : Options) (h : Host) : Z * Host :=
  let encoded := EncodePolicy Policy_Default in
  let text := if opt_compact o then WriteCanonicalJson encoded else WritePrettyJson encoded 2 in
  if String.eqb (opt_out_path o) "" then (kExitOk, say (text +:+ newline) h)
  else
    let '(written, h) := WriteFile (opt_out_path o) (text +:+ newline) h in
    if written then (kExitOk, h)
    else (kExitUsage, complain ("the output file could not be written" +:+ newline) h).

(** [main] after the options were read: the exit code with the runtime, when there
    is one; [None] is undefined behaviour. *)
Definition run_options (o : Options) (h : Host) : option (Z * option Observatory * Host) :=
  if opt_help o then Some (kExitOk, None, PrintUsage h)
  else if String.eqb (opt_command o) "version" then Some (kExitOk, None, say version_text h)
  else
    match LoadPolicy o h with
    | inl status => let '(exit, h) := ReportStatus status h in Some (exit, None, h)
    | inr policy =>
        let policy := if String.eqb (pol_id policy) "" then policy <| pol_id := "policy/default" |> else policy in
        if String.eqb (opt_command o) "policy-default" then
          let '(exit, h) := print_policy o h in Some (exit, None, h)
        else
          let '(status, e) := open_observatory o policy h in
          if negb (status_ok status) then let '(exit, h) := ReportStatus status h in Some (exit, Some e, h)
          else
            match finish_command o (run_command o e h) with
            | Returned exit e h | Continued exit e h => Some (exit, Some e, h)
            | Undefined => None
            end
    end.

Definition Cli_main (ulong_max : Z) (stod : string -> option Double) (args : list string) (h : Host)
    : option (Z * option Observatory * Host) :=
  match ParseOptions ulong_max stod args with
  | inl complaint =>
      let h := if String.eqb complaint "" then h else complain (complaint +:+ newline) h in
      Some (kExitUsage, None, PrintUsage h)
  | inr o => run_options o h
  end.
End Main.
End Host.

Arguments Host : clear implicits.
Arguments Command : clear implicits.
Arguments mkHost {F}.

(** ** Facts: evaluating *)

Lemma publish_evaluation_targets input policy targets apply e outcome e' :
  publish_evaluation input policy targets apply e = (Result_value outcome, e') ->
  out_targets outcome = targets /\ halted e = false.
Proof.
  unfold publish_evaluation, halted. cbn [eng_cancelled eng_stopping update].
  destruct (eng_cancelled e); [done|]. destruct (eng_stopping e); [done|]. destruct (false || _); [done|].
  destruct (_ || _); [done|]. destruct apply.
  - destruct (ApplyEvaluation _ _ _ _) as [[status report] ledger].
    destruct (negb _); [unfold Result_of_status; by destruct (status_ok _)|].
    by intros [= <- _].
  - by intros [= <- _].
Qed.

(** What [EvaluateAt] publishes: the comparison of every input, under the policy
    of the runtime. *)
Lemma EvaluateAt_targets now apply e outcome e' : EvaluateAt now apply e = (Result_value outcome, e') ->
  exists inputs, out_targets outcome =
    map (fun t => CompareTarget t (cfg_policy (eng_config e)) (cfg_limits (eng_config e))) inputs.
Proof.
  unfold EvaluateAt, begin_evaluation. destruct (not_admitting e); [done|].
  destruct (eng_cancelled e); [done|]. set (input := _ <| ei_resolution_confirmations := _ |>).
  unfold EvaluateInternal. intros E. exists (ei_targets input).
  apply publish_evaluation_targets in E as [-> ->]. apply ranges_compared.
Qed.

(** What the exit code says of an outcome. *)
Lemma exit_of_outcome policy limits inputs outcome :
  out_targets outcome = map (fun t => CompareTarget t policy limits) inputs ->
  (exit_of outcome = kExitOk <-> Forall (fun t => te_compliant t = true) (out_targets outcome)) /\
  (exit_of outcome = kExitActionableDrift <->
     Exists (fun t => Exists (fun d => IsActionableDrift (dr_klass d) = true) (te_drafts t)) (out_targets outcome)) /\
  (exit_of outcome = kExitUndecidable <->
     ~ Exists (fun t => Exists (fun d => IsActionableDrift (dr_klass d) = true) (te_drafts t)) (out_targets outcome) /\
     Exists (fun t => te_compliance_decidable t = false) (out_targets outcome)).
Proof.
  intros Ht. unfold exit_of.
  assert (Ha : any_actionable outcome = true <->
    Exists (fun t => Exists (fun d => IsActionableDrift (dr_klass d) = true) (te_drafts t)) (out_targets outcome)).
  { unfold any_actionable. rewrite existsb_exists, Exists_exists. setoid_rewrite list_elem_of_In.
    setoid_rewrite existsb_exists. setoid_rewrite Exists_exists. by setoid_rewrite list_elem_of_In. }
  assert (Hna : any_actionable outcome = false <->
    Forall (fun t => Forall (fun d => IsActionableDrift (dr_klass d) = false) (te_drafts t)) (out_targets outcome)).
  { rewrite <- not_true_iff_false, Ha, Exists_exists, Forall_forall. split.
    - intros Hn t Ht'. apply Forall_forall. intros d Hd. apply not_true_iff_false. intros E.
      apply Hn. exists t. rewrite Exists_exists. eauto.
    - intros Hf (t & Ht' & (d & Hd & E)%Exists_exists). apply Hf in Ht'. rewrite Forall_forall in Ht'.
      apply Ht' in Hd. congruence. }
  assert (Hu : any_undecidable outcome = true <-> Exists (fun t => te_compliance_decidable t = false) (out_targets outcome)).
  { unfold any_undecidable. rewrite existsb_exists, Exists_exists. setoid_rewrite list_elem_of_In.
    by setoid_rewrite negb_true_iff. }
  assert (Hc : Forall (fun t => te_compliant t = true) (out_targets outcome) <->
    any_actionable outcome = false /\ any_undecidable outcome = false).
  { rewrite Hna, <- (not_true_iff_false (any_undecidable outcome)), Hu, Ht, !Forall_map.
    split.
    - intros H. split; [|intros (t & Hin & E)%Exists_exists].
      + eapply Forall_impl; [exact H|]. intros t [_ ->]%CompareTarget_compliant_sound. constructor.
      + apply list_elem_of_fmap in Hin as (x & -> & Hx). rewrite Forall_forall in H.
        apply H, CompareTarget_compliant_sound in Hx as [Hx _]. congruence.
    - intros [Hn Hd]. rewrite Forall_forall in Hn |- *. intros x Hx.
      destruct (te_compliance_decidable (CompareTarget x policy limits)) eqn:E.
      + apply CompareTarget_decidable in E as [E|(d & Hin & E)%existsb_exists]; [done|].
        apply Hn in Hx. rewrite Forall_forall in Hx. apply list_elem_of_In, Hx in Hin. congruence.
      + destruct Hd. apply Exists_exists. eexists. split; [by apply list_elem_of_fmap_2|done]. }
  rewrite Hc, <- Ha, <- Hu. unfold kExitOk, kExitActionableDrift, kExitUndecidable.
  destruct (any_actionable outcome), (any_undecidable outcome); intuition discriminate.
Qed.

(** ** Facts: files *)

Section Files.
Context {F : Type} `{FileSystemLaws F}.
Context (path : string).

(** The file at [path] is as it was. *)
Definition same_file (h h' : Host F) : Prop := stored path (host_files h') = stored path (host_files h).

Lemma same_refl h : same_file h h.
Proof. done. Qed.
Lemma same_trans h1 h2 h3 : same_file h1 h2 -> same_file h2 h3 -> same_file h1 h3.
Proof. unfold same_file. congruence. Qed.

Lemma SystemNow_files (h : Host F) : host_files (snd (SystemNow h)) = host_files h.
Proof. done. Qed.
Lemma ResolveNow_files o (h : Host F) : host_files (snd (ResolveNow o h)) = host_files h.
Proof. unfold ResolveNow. by destruct (opt_now_seconds o). Qed.
Lemma suppression_end_files o (h : Host F) : host_files (snd (suppression_end o h)) = host_files h.
Proof.
  unfold suppression_end. destruct (opt_hours o); [|done]. pose proof (ResolveNow_files o h) as E.
  by destruct (ResolveNow o h).
Qed.
Lemma ReportStatus_files status (h : Host F) : host_files (snd (ReportStatus status h)) = host_files h.
Proof. done. Qed.
Lemma Print_files v compact (h : Host F) : host_files (Print v compact h) = host_files h.
Proof. done. Qed.

Lemma WriteFile_same other text h : other <> path -> same_file h (snd (WriteFile other text h)).
Proof.
  intros Hp. unfold WriteFile, same_file. pose proof (open_frame other path (host_files h) ltac:(congruence)) as Ho.
  destruct (open_truncated other (host_files h)) as [[] f]; [|done]. cbn [negb snd] in *.
  pose proof (write_frame other (string_bytes text) path f ltac:(congruence)) as Hw.
  destruct (write_stream other (string_bytes text) f) as [ok f']. cbn in *. congruence.
Qed.

Lemma CommandEvaluate_files o e (h : Host F) exit e' h' : CommandEvaluate o e h = Some (exit, e', h') ->
  host_files h' = host_files h.
Proof.
  unfold CommandEvaluate. pose proof (ResolveNow_files o h) as Hf.
  destruct (ResolveNow o h) as [[now|] h1]; [|done]. cbn [snd] in Hf.
  destruct (EvaluateAt now true e) as [[outcome|status] e1]; intros E; injection E as _ _ <-; exact Hf.
Qed.
End Files.

Section State.
Context {F : Type} `{FileSystemLaws F}.
Context (o : Options).
Notation path := (opt_state_path o).

(** The state file holds the state of the runtime. *)
Definition holds_state (e : Observatory) (h : Host F) : Prop := stored path (host_files h) = Some (EncodeState e).

Lemma save_state_stored result e (h : Host F) :
  let '(result', e', h') := save_state o result e h in
  if String.eqb path "" then result' = result /\ e' = e /\ h' = h
  else result' = kExitUsage /\ e' = e /\ same_file path h h' \/ result' = result /\ holds_state e' h'.
Proof.
  unfold save_state. destruct (String.eqb path ""); [done|]. unfold Observatory_Save, SaveLedgerFile.
  set (bytes := EncodeLedger _ _ _).
  destruct (Z.ltb_spec (max_ledger_bytes (cfg_limits (eng_config e))) (vsize bytes)) as [Hn|Hn]; [by left|].
  pose proof (save_complete path bytes (host_files h)) as Hs.
  destruct (run_save _ _) as [status f]. destruct (status_ok status); [by right|by left].
Qed.

(** What a command leaves: a run that goes on has not touched the state file; one
    that ends was refused, or is [explain], which has already saved. *)
Definition settled (h : Host F) (c : Command F) : Prop :=
  match c with
  | Returned exit e h' =>
      same_file path h h' /\ (exit = kExitUsage \/ opt_command o = "explain") \/ holds_state e h'
  | Continued _ _ h' => same_file path h h'
  | Undefined => True
  end.

Lemma settled_from h h1 c : host_files h1 = host_files h -> settled h1 c -> settled h c.
Proof. unfold settled, same_file. intros ->. done. Qed.

Lemma settled_refused e complaint h : settled h (refuse_with e complaint h).
Proof. by left; split; [|left]. Qed.
Lemma settled_reported e status h : settled h (returned (ReportStatus status h) e).
Proof. by left; split; [|left]. Qed.
Lemma settled_printed exit e v compact h : settled h (Continued exit e (Print v compact h)).
Proof. done. Qed.
Lemma settled_said exit e text h : settled h (Continued exit e (say text h)).
Proof. done. Qed.
Lemma settled_usage e h : settled h (Returned kExitUsage e (PrintUsage h)).
Proof. by left; split; [|left]. Qed.
#[local] Hint Resolve settled_refused settled_reported settled_printed settled_said settled_usage : ndo.

Lemma settled_recorded id answer h : settled h (recorded id answer h).
Proof. unfold recorded. destruct answer as [status e]. destruct (negb _); auto with ndo. Qed.
#[local] Hint Resolve settled_recorded : ndo.

Lemma CommandIntentCommit_settled text e h : settled h (CommandIntentCommit o text e h).
Proof.
  unfold CommandIntentCommit. destruct (ParseIntentJson _ _) as [status|document]; [auto with ndo|].
  apply (settled_from _ (snd (SystemNow h))); [done|]. destruct (SystemNow h) as [now h1]. cbn [snd].
  destruct (PublishIntent _ _ _ _) as [[status report] e']. destruct (negb _); auto with ndo.
Qed.

Lemma CommandObserve_settled text e h : settled h (CommandObserve o text e h).
Proof.
  unfold CommandObserve. apply (settled_from _ (snd (SystemNow h))); [done|]. destruct (SystemNow h) as [now h1].
  destruct (IngestObservationJson _ _ _ _) as [[status admission] e']. destruct (negb _); auto with ndo.
Qed.

Lemma CommandQuery_settled e h : settled h (CommandQuery o e h).
Proof.
  unfold CommandQuery. destruct (BuildQuerySpec o) as [[status|spec]|]; auto with ndo; [|done].
  apply (settled_from _ (snd (SystemNow h))); [done|]. destruct (SystemNow h) as [now h1].
  destruct (Observatory_Query _ _ _); auto with ndo.
Qed.

Lemma CommandTimeline_settled e h : settled h (CommandTimeline o e h).
Proof.
  unfold CommandTimeline. destruct (if String.eqb (opt_finding o) "" then _ else _) as [finding|]; auto with ndo.
  destruct (if String.eqb (opt_target o) "" then _ else _) as [target|]; auto with ndo.
  destruct (QueryTimeline _ _); auto with ndo.
Qed.

Lemma CommandReport_settled e h : (opt_out_path o <> "" -> opt_out_path o <> path) -> settled h (CommandReport o e h).
Proof.
  intros Hp. unfold CommandReport. destruct (if String.eqb (opt_target o) "" then _ else _) as [target|]; auto with ndo.
  apply (settled_from _ (snd (SystemNow h))); [done|]. destruct (SystemNow h) as [now h1].
  generalize (BuildReportJson (report_spec o target) now e e) as text. intros text.
  destruct (String.eqb_spec (opt_out_path o) ""); auto with ndo.
  pose proof (WriteFile_same path (opt_out_path o) (text +:+ newline) h1 (Hp ltac:(done))) as Hw.
  destruct (WriteFile _ _ _) as [[] h2]; cbn [snd] in *; [exact Hw|]. left. split; [exact Hw|by left].
Qed.

Lemma CommandAct_settled e h : settled h (CommandAct o e h).
Proof.
  unfold CommandAct. destruct (_ || _); auto with ndo. destruct (Digest_TryFromHex _) as [id|]; auto with ndo.
  destruct (TryParseIdentity _) as [actor|]; auto with ndo. destruct (String.eqb _ _).
  - pose proof (suppression_end_files o h) as H1. destruct (suppression_end o h) as [expires h1].
    pose proof (ResolveNow_files o h1) as H2. destruct (ResolveNow o h1) as [now h2]. cbn [snd] in *.
    apply (settled_from _ h2); [congruence|]. destruct expires, now; auto with ndo; done.
  - pose proof (ResolveNow_files o h) as H2. destruct (ResolveNow o h) as [now h2]. cbn [snd] in *.
    apply (settled_from _ h2); [done|]. destruct now; auto with ndo; done.
Qed.

Lemma CommandExplain_settled e h : opt_command o = "explain" -> settled h (CommandExplain o e h).
Proof.
  intros Hx. unfold CommandExplain. destruct (String.eqb _ _); auto with ndo.
  destruct (Digest_TryFromHex _) as [id|]; auto with ndo.
  apply (settled_from _ (snd (SystemNow h))); [done|]. destruct (SystemNow h) as [now h1]. cbn [snd].
  destruct (Observatory_Query _ _ _) as [page|status]; auto with ndo.
  destruct (List.find _ _) as [f|]; auto with ndo.
  pose proof (save_state_stored kExitOk e (Print (EncodeExplanation f) (opt_compact o) h1)) as Hs.
  destruct (save_state _ _ _ _) as [[result e'] h2]. unfold settled.
  destruct (String.eqb path ""); [destruct Hs as (-> & -> & ->); by left; split; [|right]|].
  destruct Hs as [(_ & _ & Hs)|[_ Hs]]; [left|right]; auto.
Qed.
End State.

Section Runs.
Context {F : Type} `{FileSystemLaws F}.
Context (serve : Options -> Observatory -> Host F -> Command F) (empty_data : option (list Z)).
Context (o : Options).
Notation path := (opt_state_path o).

Lemma run_command_settled e h : opt_command o <> "serve" ->
  (opt_command o = "report" -> opt_out_path o <> "" -> opt_out_path o <> path) ->
  settled o h (run_command serve o e h).
Proof.
  intros Hserve Hout. unfold run_command, with_file.
  assert (Hu : forall e h, settled o h (Returned kExitUsage e (PrintUsage h))) by (intros; apply settled_usage).
  assert (Hr : forall e c h, settled o h (refuse_with e c h)) by (intros; apply settled_refused).
  destruct (String.eqb (opt_command o) "intent-commit").
  { destruct (String.eqb (opt_file_path o) ""), (ReadFile (opt_file_path o) h); auto using CommandIntentCommit_settled. }
  destruct (String.eqb (opt_command o) "observe").
  { destruct (String.eqb (opt_file_path o) ""), (ReadFile (opt_file_path o) h); auto using CommandObserve_settled. }
  destruct (String.eqb (opt_command o) "evaluate").
  { unfold continue_with. destruct (CommandEvaluate o e h) as [[[exit e'] h']|] eqn:E; [|done].
    apply CommandEvaluate_files in E. unfold settled, same_file. by rewrite E. }
  destruct (String.eqb (opt_command o) "query"); [apply CommandQuery_settled|].
  destruct (String.eqb_spec (opt_command o) "explain"); [by apply CommandExplain_settled|].
  destruct (String.eqb (opt_command o) "timeline"); [apply CommandTimeline_settled|].
  destruct (String.eqb_spec (opt_command o) "report"); [by apply CommandReport_settled; auto|].
  destruct (_ || _); [apply CommandAct_settled|].
  destruct (String.eqb (opt_command o) "stats"); [apply settled_printed|].
  destruct (String.eqb_spec (opt_command o) "serve"); [done|apply Hu].
Qed.

Lemma print_policy_same h : (opt_out_path o <> "" -> opt_out_path o <> path) -> same_file path h (snd (print_policy o h)).
Proof.
  intros Hp. unfold print_policy.
  generalize (if opt_compact o then WriteCanonicalJson (EncodePolicy Policy_Default)
    else WritePrettyJson (EncodePolicy Policy_Default) 2) as text. intros text.
  destruct (String.eqb_spec (opt_out_path o) ""); [done|].
  pose proof (WriteFile_same path (opt_out_path o) (text +:+ newline) h (Hp ltac:(done))) as Hw.
  by destruct (WriteFile _ _ _) as [[] h1].
Qed.

Lemma longer_text (a b : string) : b <> "" -> (a +:+ b) <> a.
Proof.
  intros Hb. induction a as [|c a IH]; [by cbn|]. intros [= E]. by apply IH.
Qed.

(** Closing the run does not change what the state file should hold. *)
Lemma Stop_begin_state e : EncodeState (Stop_begin e) = EncodeState e.
Proof. done. Qed.

Definition run_end (h : Host F) (exit : Z) (e : Observatory) (h' : Host F) : Prop :=
  same_file path h h' /\ (exit = kExitUsage \/ opt_command o = "explain" \/ path = "") \/ holds_state o e h'.

Lemma finish_command_end h c : settled o h c ->
  match finish_command o c with
  | Returned exit e h' | Continued exit e h' => run_end h exit e h'
  | Undefined => True
  end.
Proof.
  destruct c as [exit e h1|result e h1|]; [| |done]; unfold run_end, settled; cbn [finish_command].
  { intros [[Hs [Hx|Hx]]|Hs]; auto. }
  intros Hs.
  set (after := if opt_evaluate_after o then CommandEvaluate o e h1 else Some (kExitOk, e, h1)).
  assert (Ha : forall exit e' h', after = Some (exit, e', h') -> host_files h' = host_files h1).
  { subst after. destruct (opt_evaluate_after o); [apply CommandEvaluate_files|]. by intros ??? [= _ _ ->]. }
  destruct after as [[[exit e2] h2]|]; [|done]. specialize (Ha _ _ _ eq_refl).
  pose proof (save_state_stored o (if exit =? kExitOk then result else exit) e2 h2) as Hw.
  destruct (save_state o _ e2 h2) as [[result' e3] h3]. unfold same_file in *.
  destruct (String.eqb_spec path "") as [Hp|Hp].
  - destruct Hw as (_ & _ & ->). left. rewrite Ha. auto.
  - destruct Hw as [(-> & _ & Hw)|[_ Hw]]; [left|right; exact Hw]. rewrite Hw, Ha. auto.
Qed.
End Runs.

(** ** Properties *)

(** C15. The exit code of an evaluation is its verdict.  A refused evaluation exits
    with 1, prints nothing and complains; a published one prints the outcome, as
    compact or pretty JSON on a line of its own, without a complaint, and exits with 0
    exactly when every target complies with its committed intent, with 2 exactly
    when some draft is about a divergence that can be acted on, and with 3 exactly
    when there is none but some target could not be decided.  No file is touched;
    the only time that is not evaluated is one beyond the range of the clock. *)
Theorem evaluate_exit_codes {F} `{FileSystem F} (o : Options) (e : Observatory) (h : Host F) :
  match fst (ResolveNow o h) with
  | None =>
      CommandEvaluate o e h = None /\
      exists seconds, opt_now_seconds o = Some seconds /\ ~ INT64_MIN <= seconds * 1000000000 <= INT64_MAX
  | Some now =>
      let '(answer, e') := EvaluateAt now true e in
      exists exit h', CommandEvaluate o e h = Some (exit, e', h') /\ host_files h' = host_files h /\
      match answer with
      | Result_status _ => exit = 1 /\ host_out h' = host_out h /\ host_err h' <> host_err h
      | Result_value outcome =>
          let text := if opt_compact o then WriteCanonicalJson (EncodeOutcome outcome)
                      else WritePrettyJson (EncodeOutcome outcome) 2 in
          host_out h' = (host_out h +:+ text +:+ newline) /\ host_err h' = host_err h /\
          let targets := out_targets outcome in
          let actionable t := Exists (fun d => IsActionableDrift (dr_klass d) = true) (te_drafts t) in
          (exit = 0 <-> Forall (fun t => te_compliant t = true) targets) /\
          (exit = 2 <-> Exists actionable targets) /\
          (exit = 3 <-> ~ Exists actionable targets /\ Exists (fun t => te_compliance_decidable t = false) targets)
      end
  end.
Proof.
  unfold CommandEvaluate. pose proof (ResolveNow_files o h) as Hf.
  assert (Ho : host_out (snd (ResolveNow o h)) = host_out h /\ host_err (snd (ResolveNow o h)) = host_err h)
    by (unfold ResolveNow; by destruct (opt_now_seconds o)).
  assert (Hn : fst (ResolveNow o h) = None ->
    exists seconds, opt_now_seconds o = Some seconds /\ ~ INT64_MIN <= seconds * 1000000000 <= INT64_MAX).
  { unfold ResolveNow. destruct (opt_now_seconds o) as [s|]; [|done]. unfold seconds_nanos. intros E. exists s.
    split; [done|]. cbn [fst] in E. destruct (_ && _) eqn:Eb; [done|]. apply andb_false_iff in Eb. lia. }
  destruct (ResolveNow o h) as [[now|] h1]; cbn [fst snd] in *; [|by auto].
  destruct (EvaluateAt now true e) as [answer e'] eqn:E. destruct answer as [outcome|status].
  - exists (exit_of outcome), (Print (EncodeOutcome outcome) (opt_compact o) h1). split; [done|].
    split; [done|]. destruct (EvaluateAt_targets now true e outcome e' E) as [inputs Hi], Ho as [Ho He].
    cbv zeta. split; [by unfold Print, say; cbn [host_out]; rewrite Ho|]. split; [exact He|].
    exact (exit_of_outcome _ _ _ _ Hi).
  - exists kExitUsage, (snd (ReportStatus status h1)). destruct Ho as [Ho He]. split_and!; try done.
    unfold ReportStatus, complain. cbn [snd host_err]. rewrite He. apply longer_text. discriminate.
Qed.

(** C18. The state file is the state of a finished run, or untouched.  Whatever
    command but [serve] runs, and however it ends, the state file holds afterwards
    what it held before, or the encoding of the final state of the runtime; and when
    the run reports success it holds that state, [explain] apart, which does not
    report whether it could save.  The two commands that write a file of their own,
    [report] and [policy-default], are asked not to write it over the state file. *)
Theorem state_file_follows_the_run {F} `{FileSystemLaws F} (serve : Options -> Observatory -> Host F -> Command F) (empty_data : option (list Z)) (o : Options) (h : Host F)
    (Hserve : opt_command o <> "serve")
    (Hout : opt_command o = "report" \/ opt_command o = "policy-default" ->
            opt_out_path o <> "" -> opt_out_path o <> opt_state_path o) :
  match run_options serve empty_data o h with
  | None => True
  | Some (exit, e, h') =>
      let file := stored (opt_state_path o) (host_files h') in
      (file = stored (opt_state_path o) (host_files h) \/ exists final, e = Some final /\ file = Some (EncodeState final)) /\
      forall final, e = Some final -> opt_state_path o <> "" -> exit <> 1 -> opt_command o <> "explain" ->
        file = Some (EncodeState final)
  end.
Proof.
  unfold run_options. destruct (opt_help o); [by split; [left|]|].
  destruct (String.eqb _ _); [by split; [left|]|]. destruct (LoadPolicy o h) as [status|policy].
  { by split; [left|]. }
  generalize (if String.eqb (pol_id policy) "" then policy <| pol_id := "policy/default" |> else policy) as pol. intros pol.
  destruct (String.eqb_spec (opt_command o) "policy-default").
  { pose proof (print_policy_same o h (Hout ltac:(auto))) as Hp. destruct (print_policy o h) as [exit h1]. by split; [left|]. }
  destruct (open_observatory empty_data o pol h) as [status e]. destruct (negb (status_ok status)).
  { split; [by left|]. by intros final _ _ []. }
  pose proof (finish_command_end o h _ (run_command_settled serve o e h Hserve ltac:(auto))) as He.
  assert (Hend : forall exit e h', run_end o h exit e h' ->
    (stored (opt_state_path o) (host_files h') = stored (opt_state_path o) (host_files h) \/
     exists final, Some e = Some final /\ stored (opt_state_path o) (host_files h') = Some (EncodeState final)) /\
    forall final, Some e = Some final -> opt_state_path o <> "" -> exit <> 1 -> opt_command o <> "explain" ->
      stored (opt_state_path o) (host_files h') = Some (EncodeState final)).
  { intros exit e1 h1 [[Hs Hx]|Hs]; (split; [by eauto|]); intros final [= <-] Hp H1 Hc; [|done].
    destruct Hx as [?|[?|?]]; done. }
  destruct (finish_command _ _); auto; done.
Qed.

(** ** Examples and witnesses *)

Definition host_at (now : NdoTime) (disk : Disk) : Host Disk := mkHost disk (fun _ => now) 0 "" "".

Definition no_serve (o : Options) (e : Observatory) (h : Host Disk) : Command Disk := Undefined.

(** A command line of a machine with a 64-bit [unsigned long]. *)
Definition run_line (args : list string) (h : Host Disk) : option (Z * option Observatory * Host Disk) :=
  Cli_main no_serve None UINT64_MAX (fun _ => None) args h.

(** The exit code, what was printed, and the complaints. *)
Definition streams (r : option (Z * option Observatory * Host Disk)) : option (Z * string * string) :=
  option_map (fun r => (fst (fst r), host_out (snd r), host_err (snd r))) r.

(** Of two targets one agrees and the other was never observed; then the first
    drifts. *)
Example exit_codes_of_runs :
  let exit e := option_map (fun r => fst (fst r)) (CommandEvaluate default_options e (host_at 1010 blank_disk)) in
  exit (sys_engine ready) = Some 3 /\
  exit (snd (IngestObservation (example_observation 2 [example_object "vlan" 5 9000]) 1009 empty_admission (sys_engine ready))) = Some 2 /\
  exit (new_observatory example_config) = Some 1.
Proof. vm_compute. repeat split. Qed.

Example refused_lines :
  map (fun args => streams (run_line args (host_at 1010 blank_disk)))
    [["stats"; "--port"]; ["stats"; "--epoch"; "x"]; ["query"; "--state-filter"; "live"]] =
  [Some (1, usage_text, "option requires a value: --port" +:+ newline);
   Some (1, usage_text, "option value is not a number: --epoch x" +:+ newline);
   Some (1, "", "refused: Rejected / EncodingMalformed (finding state is not recognized)" +:+ newline)].
Proof. vm_compute. reflexivity. Qed.

(** The first argument is the command, also when it is [--help]. *)
Example help_is_a_command :
  map (fun args => streams (run_line args (host_at 1010 blank_disk))) [["--help"]; ["version"; "--help"]] =
  [Some (1, usage_text, ""); Some (0, usage_text, "")].
Proof. vm_compute. reflexivity. Qed.

(** [--state] names the state file, whatever the usage text says about filters. *)
Example state_is_the_state_file :
  match ParseOptions UINT64_MAX (fun _ => None) ["query"; "--state"; "open"] with
  | inr o => (opt_state_path o, opt_state_filter o) = ("open", "")
  | inl _ => False
  end.
Proof. reflexivity. Qed.

(** A number may be followed by anything and carry a sign; a port is cut to its
    low sixteen bits. *)
Example numbers_are_lenient :
  match ParseOptions UINT64_MAX (fun _ => None) ["serve"; "--epoch"; "-1"; "--limit"; "10x"; "--port"; "65537"] with
  | inr o => (opt_epoch o, opt_limit o, opt_port o) = (UINT64_MAX, 10, 1)
  | inl _ => False
  end.
Proof. reflexivity. Qed.

(** The time given in seconds has to fit the clock in nanoseconds. *)
Example late_now_overflows e h :
  CommandEvaluate (F := Disk) (default_options <| opt_now_seconds := Some 9223372037 |>) e h = None.
Proof. reflexivity. Qed.

Definition stats_options : Options :=
  default_options <| opt_command := "stats" |> <| opt_state_path := "ledger" |> <| opt_compact := true |>.

Lemma state_file_follows_the_run_witness :
  match run_options no_serve None stats_options (host_at 1010 blank_disk) with
  | Some (exit, Some e, h) => exit = 0 /\ stored "ledger" (host_files h) = Some (EncodeState e)
  | _ => False
  end.
Proof.
  assert (Hx : match run_options no_serve None stats_options (host_at 1010 blank_disk) with
    | Some (exit, Some _, _) => exit = 0 | _ => False end) by (vm_compute; reflexivity).
  pose proof (state_file_follows_the_run no_serve None stats_options (host_at 1010 blank_disk)
    ltac:(discriminate) ltac:(intros [|]; discriminate)) as H.
  destruct (run_options _ _ _ _) as [[[exit [e|]] h]|]; [|destruct Hx..]. subst exit. split; [reflexivity|].
  apply (proj2 H e); [reflexivity|discriminate..].
Defined.

(** A report written over the state file, by a write that fails after the file was
    opened: the beginning of the report is left, and the state is lost. *)
Example report_over_the_state_file :
  match CommandReport (stats_options <| opt_command := "report" |> <| opt_out_path := "ledger" |>)
    (new_observatory example_config)
    (host_at 1010 (mkDisk (fun p => if eqb p "ledger" then Some [1; 2; 3] else None) [true; false])) with
  | Returned exit _ h => exit = 1 /\ option_map (firstn 1) (stored "ledger" (host_files h)) = Some (string_bytes "{")
  | _ => False
  end.
Proof. vm_compute. split; reflexivity. Qed.

(** A failed save is reported, except by [explain]. *)
Definition failing : Host Disk := host_at 1010 (mkDisk (fun _ => None) [false]).
Definition kept_engine : Observatory := (sys_engine ready) <| eng_ledger := kept_ledger |>.

Example failed_save_is_reported : streams (run_line ["policy-default"; "--out"; "p"] failing) =
  Some (1, "", "the output file could not be written" +:+ newline) /\
  option_map (fun r => fst (fst r)) (run_line ["stats"; "--state"; "ledger"] failing) = Some 1.
Proof. vm_compute. repeat split. Qed.

Example explain_hides_a_failed_save :
  match CommandExplain (stats_options <| opt_finding := Digest_ToHex drifted_id |>) kept_engine failing with
  | Returned exit _ h => exit = 0 /\ host_err h <> ""
  | _ => False
  end.
Proof. vm_compute. split; [reflexivity|discriminate]. Qed.
