(* ===== verification/Collector.v ===== *)
(** * The collector

    ndo_collector.cpp: an observation source in a process of its own, which
    publishes snapshots made from its arguments.  The dialed connection and the
    readings of the clock are arguments; a [value()] of an empty optional is an
    exception nothing catches, and a product or a difference of signed integers
    that leaves its range is undefined behaviour: the run says which of them
    happened. *)

From Stdlib Require Import ZArith Lia List Bool Ascii String.
From stdpp Require Import base tactics list strings.
From S2P Require Import Prelude Containers Text Status Time Hash Identity Value Intent Observation.
From S2P Require Import Decimal StdText Json JsonHelp Wire Interchange Ledger Server Durable Client.
#[local] Open Scope string_scope.
#[local] Open Scope Z_scope.
#[local] Arguments String.append : simpl nomatch.

(** ** Options *)

Record CollectorOptions := mkCollectorOptions {
  co_host : string;
  co_source : string;
  co_target : string;
  co_value : string;
  co_coverage : string;
  co_unobserved : string;
  co_evidence : string;
  co_provenance : string;
  co_epoch : Z;
  co_incarnation : Z;
  co_sequence_start : Z;
  co_sequence_step : Z;
  co_objects : Z;
  co_fields : Z;
  co_count : Z;
  co_interval_ms : Z;
  co_age_seconds : Z;
  co_flood : Z;
  co_applied_generation : option Z;
  co_ttl_nanos : Z;
  co_port : Z;
  co_asserts_absence : bool;
  co_complete_coverage : bool;
  co_nested : bool;
  co_quiet : bool
}.

#[export] Instance eta_CollectorOptions : Eta CollectorOptions := fun o =>
  mkCollectorOptions (co_host o) (co_source o) (co_target o) (co_value o) (co_coverage o) (co_unobserved o)
    (co_evidence o) (co_provenance o) (co_epoch o) (co_incarnation o) (co_sequence_start o) (co_sequence_step o)
    (co_objects o) (co_fields o) (co_count o) (co_interval_ms o) (co_age_seconds o) (co_flood o)
    (co_applied_generation o) (co_ttl_nanos o) (co_port o) (co_asserts_absence o) (co_complete_coverage o)
    (co_nested o) (co_quiet o).

Definition collector_defaults : CollectorOptions :=
  mkCollectorOptions "127.0.0.1" "collector/a" "switch/1" "1500" "complete" "" "synthetic" "ndo_collector"
    1 1 1 1 2 2 1 0 0 0 None 0 0 false false false false.

Definition collector_flag (name : string) (o : CollectorOptions) : option CollectorOptions :=
  (if name =? "--asserts-absence" then Some (o <| co_asserts_absence := true |>)
  else if name =? "--complete-coverage" then Some (o <| co_complete_coverage := true |>)
  else if name =? "--nested" then Some (o <| co_nested := true |>)
  else if name =? "--quiet" then Some (o <| co_quiet := true |>)
  else None)%string.

(** How the arguments were read: [--help], a complaint, or the options. *)
Inductive CollectorArgs :=
| Args_help
| Args_refused (complaint : string)
| Args_options (o : CollectorOptions).

Section Numbers.
Variable ulong_max : Z.

(** The body of the [try]: a complaint of its own, or the exception of a number. *)
Definition collector_value (name value : string) (o : CollectorOptions) : string + option CollectorOptions :=
  (if name =? "--host" then inr (Some (o <| co_host := value |>))
  else if name =? "--source" then inr (Some (o <| co_source := value |>))
  else if name =? "--target" then inr (Some (o <| co_target := value |>))
  else if name =? "--value" then inr (Some (o <| co_value := value |>))
  else if name =? "--coverage" then inr (Some (o <| co_coverage := value |>))
  else if name =? "--unobserved" then inr (Some (o <| co_unobserved := value |>))
  else if name =? "--evidence" then inr (Some (o <| co_evidence := value |>))
  else if name =? "--provenance" then inr (Some (o <| co_provenance := value |>))
  else if name =? "--epoch" then inr (option_map (fun v => o <| co_epoch := v |>) (stoull value))
  else if name =? "--incarnation" then inr (option_map (fun v => o <| co_incarnation := v |>) (stoull value))
  else if name =? "--sequence-start" then inr (option_map (fun v => o <| co_sequence_start := v |>) (stoull value))
  else if name =? "--sequence-step" then inr (option_map (fun v => o <| co_sequence_step := v |>) (stoull value))
  else if name =? "--objects" then inr (option_map (fun v => o <| co_objects := v |>) (stoull value))
  else if name =? "--fields" then inr (option_map (fun v => o <| co_fields := v |>) (stoull value))
  else if name =? "--count" then inr (option_map (fun v => o <| co_count := v |>) (stoull value))
  else if name =? "--interval-ms" then inr (option_map (fun v => o <| co_interval_ms := v |>) (stoull value))
  else if name =? "--age-seconds" then inr (option_map (fun v => o <| co_age_seconds := v |>) (stoull value))
  else if name =? "--applied-generation"
  then inr (option_map (fun v => o <| co_applied_generation := Some v |>) (stoull value))
  else if name =? "--ttl-nanos" then inr (option_map (fun v => o <| co_ttl_nanos := v |>) (stoll value))
  else if name =? "--port"
  then inr (option_map (fun v => o <| co_port := v mod 65536 |>) (stoul ulong_max value))
  else if name =? "--flood" then inr (option_map (fun v => o <| co_flood := v |>) (stoull value))
  else inl ("unknown option: " +:+ name))%string.

Fixpoint collector_args (args : list string) (o : CollectorOptions) : CollectorArgs :=
  match args with
  | [] =>
      if (co_port o =? 0) || String.eqb (co_source o) ""
      then Args_refused "--port and --source are required"
      else Args_options o
  | name :: rest =>
      if String.eqb name "--help" || String.eqb name "-h" then Args_help
      else
        match collector_flag name o with
        | Some o => collector_args rest o
        | None =>
            match rest with
            | [] => Args_refused ("option requires a value: " +:+ name)
            | value :: rest =>
                match collector_value name value o with
                | inl complaint => Args_refused complaint
                | inr None => Args_refused ("option value is not a number: " +:+ name)
                | inr (Some o) => collector_args rest o
                end
            end
        end
  end.

Definition Collector_ParseOptions (args : list string) : CollectorArgs := collector_args args collector_defaults.
End Numbers.

(** ** Snapshots *)

Definition split_step (state : list string * string) (c : ascii) : list string * string :=
  let '(parts, current) := state in
  if Ascii.eqb c "," then ((if String.eqb current "" then parts else parts ++ [current])%list, "")
  else (parts, current +:+ String c "").

Definition SplitCommas (text : string) : list string :=
  let '(parts, current) := foldl split_step ([], "") (list_ascii_of_string text) in
  if String.eqb current "" then parts else (parts ++ [current])%list.

(** [text.front() == '-' || '0' <= text.front() <= '9'], of a text that is not empty. *)
Definition starts_number (text : string) : bool :=
  match text with String c _ => Ascii.eqb c "-" || is_digit c | "" => false end.

Definition ParseScalar (text : string) : Value :=
  let integer :=
    if starts_number text
    then match stoll_at text with
         | Some (parsed, consumed) => if consumed =? ssize text then Some parsed else None
         | None => None
         end
    else None in
  match integer with
  | Some parsed => V_Int parsed
  | None =>
      if String.eqb text "true" then V_Bool true
      else if String.eqb text "false" then V_Bool false
      else V_String text
  end.

(** [static_cast<std::int64_t>] of a [std::uint64_t]. *)
Definition cast_i64 (v : Z) : Z := if v <=? INT64_MAX then v else v - 18446744073709551616.

Definition in_i64 (v : Z) : bool := (INT64_MIN <=? v) && (v <=? INT64_MAX).

(** A field is emplaced when its path is one. *)
Definition emplace_field (path : string) (value : Value) (fields : omap FieldPath Value) : omap FieldPath Value :=
  match FieldPath_TryParse 8 64 path with Some path => memplace path value fields | None => fields end.

Definition collected_fields (o : CollectorOptions) : omap FieldPath Value :=
  let fields := emplace_field "mtu" (ParseScalar (co_value o)) [] in
  let fields := emplace_field "admin-up" (V_Bool true) fields in
  let fields := foldl (fun fields k =>
      emplace_field ("extra/" +:+ to_string_unsigned (Z.of_nat k)) (V_String (co_value o)) fields)
    fields (seq 0 (Z.to_nat (co_fields o))) in
  match co_applied_generation o with
  | Some generation => emplace_field "@applied-generation" (V_Int (cast_i64 generation)) fields
  | None => fields
  end.

Definition collect_object (o : CollectorOptions) (objects : omap string ObservedObject) (k : nat)
    : omap string ObservedObject :=
  match TryParseIdentity ("obj/" +:+ to_string_unsigned (Z.of_nat k)) with
  | None => objects
  | Some id => memplace id (mkObservedObject id OP_Present (collected_fields o)) objects
  end.

Definition collector_evidence (o : CollectorOptions) : EvidenceClass :=
  if String.eqb (co_evidence o) "real" then EC_Real else EC_Synthetic.

Definition collector_capabilities (o : CollectorOptions) : SourceCapabilities :=
  mkCapabilities (co_asserts_absence o) (co_complete_coverage o) (co_nested o) (collector_evidence o).

Definition collector_coverage (o : CollectorOptions) : ObservationCoverage :=
  if String.eqb (co_coverage o) "complete" then OC_Complete
  else if String.eqb (co_coverage o) "partial" then OC_Partial
  else OC_Unknown.

Definition option_list {A} (x : option A) : list A := match x with Some x => [x] | None => [] end.

(** Why no snapshot came of it. *)
Inductive Fault := Fault_bad_optional | Fault_overflow.

(** [now - int64(age_seconds) * 1000000000]; [None] is undefined behaviour. *)
Definition backdated (o : CollectorOptions) (now : NdoTime) : option NdoTime :=
  let age := cast_i64 (co_age_seconds o) * 1000000000 in
  if in_i64 age && in_i64 (now - age) then Some (now - age) else None.

Definition BuildSnapshot (o : CollectorOptions) (sequence : Z) (now : NdoTime) : Fault + ObservationSnapshot :=
  match TryParseIdentity (co_source o), TryParseIdentity (co_target o) with
  | Some source, Some target =>
      match backdated o now with
      | None => inl Fault_overflow
      | Some collected_at =>
          let unobserved := flat_map (fun id => option_list (TryParseIdentity id)) (SplitCommas (co_unobserved o)) in
          let objects := foldl (collect_object o) [] (seq 0 (Z.to_nat (co_objects o))) in
          let snapshot := mkSnapshot "" source (co_epoch o) (co_incarnation o) sequence target collected_at 0
            (co_ttl_nanos o) (collector_coverage o) unobserved objects (collector_capabilities o)
            (collector_evidence o) in
          inr (snapshot <| snap_id := ComputeSnapshotId snapshot |>)
      end
  | _, _ => inl Fault_bad_optional
  end.

(** ** Publishing *)

Definition kExitFailure : Z := 1.

Definition kExitOk : Z := 0.

(** What [PrintUsage] writes, line by line. *)
Definition collector_usage : string := String.concat newline
  ["ndo_collector -- publish synthetic observations over the framed transport";
   "usage: ndo_collector --port N --source S [options]";
   "";
   "  --host H              server address (default 127.0.0.1)";
   "  --port N              server port (required)";
   "  --source S            source identity (required)";
   "  --epoch N             fabric epoch (default 1)";
   "  --incarnation N       source incarnation (default 1)";
   "  --sequence-start N    first sequence number (default 1)";
   "  --sequence-step N     increment per snapshot (default 1, 0 repeats a number)";
   "  --target T            target identity (default switch/1)";
   "  --objects N           objects per snapshot (default 2)";
   "  --fields N            managed fields per object (default 2)";
   "  --value V             value written to mtu (default 1500)";
   "  --count N             snapshots to publish (default 1)";
   "  --interval-ms M       delay between snapshots (default 0)";
   "  --age-seconds S       backdate the collection time (default 0)";
   "  --applied-generation G  report the generation applied at the target";
   "  --coverage C          unknown|partial|complete (default complete)";
   "  --unobserved U        comma-separated object identities to declare unobserved";
   "  --asserts-absence     declare the absence capability";
   "  --complete-coverage   declare the complete-coverage capability";
   "  --nested              declare the nested-path capability";
   "  --ttl-nanos N         request a stricter time to live";
   "  --evidence E          real|synthetic (default synthetic)";
   "  --provenance TEXT     free-form provenance note";
   "  --quiet               publish silently, print only the summary";
   "  --flood N             send N identical snapshots without reading replies"; ""].

Section Run.
Context {T : Type} `{Transport T}.
Variable dialed : Decoded T.

(** How a run ended: its exit code with what was printed and what was complained
    of, an exception, or undefined behaviour. *)
Inductive CollectorEnd :=
| Exited (code : Z) (out err : string) (p : option (ObservationPublisher T))
| Terminated
| UndefinedBehaviour.

Definition faulted (fault : Fault) : CollectorEnd :=
  match fault with Fault_bad_optional => Terminated | Fault_overflow => UndefinedBehaviour end.

Definition client_config (o : CollectorOptions) (source : string) : ClientConfig :=
  mkClientConfig (co_host o) (co_port o) source (co_epoch o) (co_incarnation o) (co_sequence_start o)
    (collector_capabilities o) (co_provenance o) default_limits 30000.

Definition connection_line (status : Status) : string :=
  quoted "{'connected':false,'reason':'" +:+ ToText_ReasonCode (st_reason status) +:+ quoted "','detail':'" +:+
  st_detail status +:+ quoted "'}" +:+ newline.

Definition connected_line (ack : HelloAckPayload) : string :=
  quoted "{'connected':true,'session':" +:+ to_string_unsigned (ha_session_id ack) +:+
  quoted ",'server_epoch':" +:+ to_string_unsigned (ha_server_epoch ack) +:+
  quoted ",'server_incarnation':" +:+ to_string_unsigned (ha_server_incarnation ack) +:+ "}" +:+ newline.

Definition refused_line (sequence : Z) (reason : ReasonCode) (detail : string) : string :=
  quoted "{'published':false,'sequence':" +:+ to_string_unsigned sequence +:+ quoted ",'reason':'" +:+
  ToText_ReasonCode reason +:+ quoted "','detail':'" +:+ detail +:+ quoted "'}" +:+ newline.

Definition published_line (sequence : Z) (snapshot : string) : string :=
  quoted "{'published':true,'sequence':" +:+ to_string_unsigned sequence +:+ quoted ",'snapshot':'" +:+
  snapshot +:+ quoted "'}" +:+ newline.

Definition summary_line (o : CollectorOptions) (accepted refused : Z) : string :=
  quoted "{'summary':true,'accepted':" +:+ to_string_unsigned accepted +:+ quoted ",'refused':" +:+
  to_string_unsigned refused +:+ quoted ",'source':'" +:+ co_source o +:+ quoted "','incarnation':" +:+
  to_string_unsigned (co_incarnation o) +:+ "}" +:+ newline.

(** The state of the loop. *)
Record Progress := mkProgress {
  pg_accepted : Z;
  pg_refused : Z;
  pg_sequence : Z;
  pg_out : string;
  pg_publisher : ObservationPublisher T
}.

(** One round: the snapshot, its acknowledgement, what is said of it. *)
Definition publish_round (o : CollectorOptions) (now : NdoTime) (s : Progress) : Fault + Progress :=
  match BuildSnapshot o (pg_sequence s) now with
  | inl fault => inl fault
  | inr snapshot =>
      let '(status, _, ack, p) := Publisher_Publish snapshot empty_ack (pg_publisher s) in
      let next := wrap64 (pg_sequence s + co_sequence_step o) in
      inr (if negb (status_ok status)
           then mkProgress (pg_accepted s) (bump (pg_refused s)) next
                  (pg_out s +:+ refused_line (pg_sequence s) (st_reason status) (st_detail status)) p
           else if ack_accepted ack
           then mkProgress (bump (pg_accepted s)) (pg_refused s) next
                  (pg_out s +:+ if co_quiet o then "" else published_line (pg_sequence s) (ack_snapshot ack)) p
           else mkProgress (pg_accepted s) (bump (pg_refused s)) next
                  (pg_out s +:+ refused_line (pg_sequence s) (ack_reason ack) (ack_detail ack)) p)
  end.

(** The loop, over the readings of the clock; the pause between two rounds only
    lets time pass. *)
Fixpoint publish_loop (o : CollectorOptions) (times : list NdoTime) (s : Progress) : Fault + Progress :=
  match times with
  | [] => inr s
  | now :: times =>
      match publish_round o now s with
      | inl fault => inl fault
      | inr s => publish_loop o times s
      end
  end.

(** [main] after the options were read: the clock is read once a round. *)
Definition collect (o : CollectorOptions) (clock : nat -> NdoTime) : CollectorEnd :=
  match TryParseIdentity (co_source o) with
  | None => Terminated
  | Some source =>
      let '(status, p) := Publisher_Connect dialed (new_publisher (client_config o source)) in
      if negb (status_ok status) then Exited kExitFailure (connection_line status) "" (Some p)
      else
        let out := if co_quiet o then "" else connected_line (pub_handshake p) in
        match publish_loop o (map clock (seq 0 (Z.to_nat (co_count o))))
                (mkProgress 0 0 (co_sequence_start o) out p) with
        | inl fault => faulted fault
        | inr s =>
            let out := pg_out s +:+ summary_line o (pg_accepted s) (pg_refused s) in
            let p := snd (Publisher_Close (pg_publisher s)) in
            Exited (if pg_refused s =? 0 then kExitOk else kExitFailure) out "" (Some p)
        end
  end.

Definition Collector_main (ulong_max : Z) (args : list string) (clock : nat -> NdoTime) : CollectorEnd :=
  match Collector_ParseOptions ulong_max args with
  | Args_help => Exited kExitOk collector_usage "" None
  | Args_refused complaint => Exited kExitFailure collector_usage (complaint +:+ newline) None
  | Args_options o => collect o clock
  end.
End Run.
Arguments CollectorEnd : clear implicits.
Arguments Progress : clear implicits.

(** ** The specification of a run *)

(** The first fault of a list, or what it holds. *)
Fixpoint faultless {A} (l : list (Fault + A)) : Fault + list A :=
  match l with
  | [] => inr []
  | inl fault :: _ => inl fault
  | inr x :: l => match faultless l with inl fault => inl fault | inr l => inr (x :: l) end
  end.

(** The [k]-th snapshot of a run. *)
Definition planned (o : CollectorOptions) (clock : nat -> NdoTime) (k : nat) : Fault + ObservationSnapshot :=
  BuildSnapshot o (wrap64 (co_sequence_start o + Z.of_nat k * co_sequence_step o)) (clock k).

Section Answers.
Context {T : Type} `{Transport T}.

(** What is answered to one snapshot after the other. *)
Fixpoint publish_answers (snapshots : list ObservationSnapshot) (p : ObservationPublisher T)
    : list (Status * AckPayload) * ObservationPublisher T :=
  match snapshots with
  | [] => ([], p)
  | snapshot :: snapshots =>
      let '(status, _, ack, p) := Publisher_Publish snapshot empty_ack p in
      let '(answers, p) := publish_answers snapshots p in
      ((status, ack) :: answers, p)
  end.

Definition answer_accepted (answer : Status * AckPayload) : bool := status_ok (fst answer) && ack_accepted (snd answer).
Definition accepted_count (answers : list (Status * AckPayload)) : Z := vsize (List.filter answer_accepted answers).

(** ** Facts *)

Lemma accepted_count_cons a answers :
  accepted_count (a :: answers) = (if answer_accepted a then 1 else 0) + accepted_count answers.
Proof. unfold accepted_count, vsize. cbn [List.filter]. destruct (answer_accepted a); cbn [length]; lia. Qed.

Lemma accepted_count_bound answers : 0 <= accepted_count answers <= vsize answers.
Proof. unfold accepted_count, vsize. pose proof (List.filter_length_le answer_accepted answers). lia. Qed.

Lemma accepted_count_all answers : vsize answers - accepted_count answers = 0 <-> forallb answer_accepted answers = true.
Proof.
  induction answers as [|a answers IH]; [done|]. rewrite accepted_count_cons. cbn [forallb].
  pose proof (accepted_count_bound answers). unfold vsize in *. cbn [length].
  destruct (answer_accepted a); cbn [andb]; [rewrite <- IH; lia|]. split; [lia|discriminate].
Qed.

Lemma publish_answers_length snapshots p : vsize (fst (publish_answers snapshots p)) = vsize snapshots.
Proof.
  revert p. induction snapshots as [|x snapshots IH]; intros p; [done|]. cbn [publish_answers].
  destruct (Publisher_Publish x empty_ack p) as [[[status y] ack] p1]. specialize (IH p1).
  destruct (publish_answers snapshots p1) as [answers p2]. unfold vsize in *. cbn [fst length] in *. lia.
Qed.

Lemma bump_small v : 0 <= v < UINT64_MAX -> bump v = v + 1.
Proof. unfold bump, wrap64, UINT64_MAX. intros. apply Z.mod_small. lia. Qed.

(** The loop answers to the specification: it stops at the first fault, and
    otherwise counts the answers. *)
Lemma publish_loop_spec o clock n k (s : Progress T) :
  pg_sequence s = wrap64 (co_sequence_start o + Z.of_nat k * co_sequence_step o) ->
  0 <= pg_accepted s -> 0 <= pg_refused s -> pg_accepted s + pg_refused s + Z.of_nat n <= UINT64_MAX ->
  match faultless (map (planned o clock) (seq k n)) with
  | inl fault => publish_loop o (map clock (seq k n)) s = inl fault
  | inr snapshots =>
      exists s', publish_loop o (map clock (seq k n)) s = inr s' /\
      let '(answers, p) := publish_answers snapshots (pg_publisher s) in
      pg_accepted s' = pg_accepted s + accepted_count answers /\
      pg_refused s' = pg_refused s + (vsize answers - accepted_count answers) /\ pg_publisher s' = p
  end.
Proof.
  revert k s. induction n as [|n IH]; intros k s Hq Ha Hr Hn.
  { cbn. exists s. split; [done|]. unfold accepted_count, vsize. cbn. split_and!; [lia|lia|done]. }
  cbn [seq map faultless publish_loop]. unfold publish_round. rewrite Hq. fold (planned o clock k).
  destruct (planned o clock k) as [fault|snapshot]; [done|].
  destruct (Publisher_Publish snapshot empty_ack (pg_publisher s)) as [[[status x] ack] p] eqn:Ep.
  set (s1 := if negb (status_ok status) then _ else _).
  assert (H1 : pg_sequence s1 = wrap64 (co_sequence_start o + Z.of_nat (S k) * co_sequence_step o) /\
    pg_publisher s1 = p /\
    pg_accepted s1 = pg_accepted s + (if answer_accepted (status, ack) then 1 else 0) /\
    pg_refused s1 = pg_refused s + (if answer_accepted (status, ack) then 0 else 1)).
  { assert (Hw : wrap64 (wrap64 (co_sequence_start o + Z.of_nat k * co_sequence_step o) + co_sequence_step o) =
      wrap64 (co_sequence_start o + Z.of_nat (S k) * co_sequence_step o))
      by (unfold wrap64; rewrite Zplus_mod_idemp_l; f_equal; lia).
    unfold s1, answer_accepted. cbn [fst snd].
    destruct (status_ok status); cbn [negb andb]; [destruct (ack_accepted ack)|]; cbn;
      rewrite ?bump_small, ?Hw by lia; split_and!; done || lia. }
  destruct H1 as (H1 & Hp & H2 & H3). clearbody s1.
  assert (Hb : 0 <= pg_accepted s1 /\ 0 <= pg_refused s1 /\ pg_accepted s1 + pg_refused s1 + Z.of_nat n <= UINT64_MAX)
    by (rewrite H2, H3; destruct (answer_accepted _); lia).
  destruct Hb as (Hb1 & Hb2 & Hb3). specialize (IH (S k) s1 H1 Hb1 Hb2 Hb3).
  destruct (faultless (map (planned o clock) (seq (S k) n))) as [fault|snapshots]; [done|].
  destruct IH as (s' & E & Hs). exists s'. split; [exact E|]. cbn [publish_answers]. rewrite Ep, <- Hp.
  destruct (publish_answers snapshots (pg_publisher s1)) as [answers q].
  rewrite accepted_count_cons. destruct Hs as (Hs1 & Hs2 & Hs3). unfold vsize in *. cbn [length].
  destruct (answer_accepted _); split_and!; done || lia.
Qed.
End Answers.

Lemma faultless_length {A} (l : list (Fault + A)) x : faultless l = inr x -> vsize x = vsize l.
Proof.
  revert x. induction l as [|[fault|a] l IH]; intros x; cbn; [by intros [= <-]|done|].
  destruct (faultless l) as [fault|y]; [done|]. intros [= <-]. specialize (IH _ eq_refl). unfold vsize in *. cbn [length]. lia.
Qed.

(** ** Properties *)

(** C26. The exit code of the collector counts its acknowledgements.  A run whose
    connection is refused exits with 1; one that is connected publishes, one after
    the other, the snapshots its arguments describe, numbered from the first
    sequence by the step modulo 2^64, closes, and exits with 0 exactly when every
    one of them was accepted; the summary counts both kinds exactly.  An identity
    that is none, or a time that cannot be represented, ends the run at the first
    snapshot it concerns, and nothing else does. *)
Theorem collector_publishes_its_plan {T} `{Transport T} (dialed : Decoded T) (o : CollectorOptions)
    (clock : nat -> NdoTime) (Hc : is_u64 (co_count o)) (Hs : is_u64 (co_sequence_start o)) :
  match TryParseIdentity (co_source o) with
  | None => collect dialed o clock = Terminated
  | Some source =>
      let '(status, p) := Publisher_Connect dialed (new_publisher (client_config o source)) in
      if negb (status_ok status)
      then collect dialed o clock = Exited 1 (connection_line status) "" (Some p)
      else
        match faultless (map (planned o clock) (seq 0 (Z.to_nat (co_count o)))) with
        | inl fault => collect dialed o clock = faulted fault
        | inr snapshots =>
            let '(answers, p') := publish_answers snapshots p in
            vsize answers = co_count o /\
            exists out, collect dialed o clock =
              Exited (if forallb answer_accepted answers then 0 else 1)
                (out +:+ summary_line o (accepted_count answers) (co_count o - accepted_count answers)) ""
                (Some (snd (Publisher_Close p')))
        end
  end.
Proof.
  unfold collect. destruct (TryParseIdentity (co_source o)) as [source|]; [|done].
  destruct (Publisher_Connect dialed (new_publisher (client_config o source))) as [status p].
  destruct (negb (status_ok status)); [done|].
  set (s := mkProgress 0 0 (co_sequence_start o) (if co_quiet o then "" else connected_line (pub_handshake p)) p).
  unfold is_u64 in *.
  assert (Hq : pg_sequence s = wrap64 (co_sequence_start o + Z.of_nat 0 * co_sequence_step o)).
  { cbn [pg_sequence s]. unfold wrap64. rewrite Z.mul_0_l, Z.add_0_r. symmetry. apply Z.mod_small. unfold UINT64_MAX in *. lia. }
  pose proof (publish_loop_spec o clock (Z.to_nat (co_count o)) 0 s Hq ltac:(done) ltac:(done) ltac:(cbn; lia)) as Hl.
  destruct (faultless _) as [fault|snapshots] eqn:Ef; [by rewrite Hl|].
  apply faultless_length in Ef. destruct Hl as (s' & El & Hs'). change (pg_publisher s) with p in Hs'.
  pose proof (publish_answers_length snapshots p) as Hn.
  destruct (publish_answers snapshots p) as [answers p']. cbn [fst] in Hn. destruct Hs' as (Ha & Hr & Hp).
  assert (Hv : vsize answers = co_count o)
    by (rewrite Hn, Ef; unfold vsize; rewrite length_map, length_seq; lia).
  split; [exact Hv|]. rewrite El. exists (pg_out s'). rewrite Ha, Hr, Hp. cbn [pg_accepted pg_refused s].
  rewrite !Z.add_0_l, Hv. pose proof (accepted_count_all answers) as Hall. rewrite Hv in Hall.
  destruct (forallb answer_accepted answers).
  - by rewrite (proj2 Hall eq_refl).
  - destruct (Z.eqb_spec (co_count o - accepted_count answers) 0) as [E|E]; [by apply Hall in E|done].
Qed.

(** *** Scalars *)

Lemma starts_number_written v : is_i64 v -> starts_number (to_string_signed v) = true.
Proof.
  intros Hv. unfold to_string_signed. destruct (v <? 0); [done|].
  destruct (to_string_unsigned_digits v) as [Hd Hn]. destruct (to_string_unsigned v) as [|c s]; [done|].
  apply Forall_cons in Hd as [(d & Hd & ->) _]. destruct (digit_char_digit d Hd) as (H1 & _).
  cbn. by rewrite H1, orb_true_r.
Qed.

(** What is no integer is a word or itself. *)
Lemma scalar_word text :
  (forall v, is_i64 v -> text = to_string_signed v ->
     (if String.eqb text "true" then V_Bool true else if String.eqb text "false" then V_Bool false else V_String text) = V_Int v) ->
  match (if String.eqb text "true" then V_Bool true else if String.eqb text "false" then V_Bool false else V_String text) with
  | V_Int v => is_i64 v /\ starts_number text = true /\ stoll_at text = Some (v, ssize text)
  | V_Bool b => text = (if b then "true" else "false")
  | V_String s => s = text /\ forall v, is_i64 v -> text <> to_string_signed v
  | _ => False
  end.
Proof.
  destruct (String.eqb_spec text "true") as [->|]; [done|]. destruct (String.eqb_spec text "false") as [->|]; [done|].
  intros H. split; [done|]. intros v Hv E. by specialize (H v Hv E).
Qed.

(** The value on the command line is read as what it spells.  The decimal text
    of a signed 64-bit integer is read as that integer and the two Boolean words as
    Booleans; and what is read as an integer is one of 64 bits, spelled by a text
    that starts with a digit or a minus sign, while every text that is neither
    stays the text it was. *)
Theorem scalars_read_back :
  (forall v, is_i64 v -> ParseScalar (to_string_signed v) = V_Int v) /\
  ParseScalar "true" = V_Bool true /\ ParseScalar "false" = V_Bool false /\
  (forall text,
     match ParseScalar text with
     | V_Int v => is_i64 v /\ starts_number text = true /\ stoll_at text = Some (v, ssize text)
     | V_Bool b => text = (if b then "true" else "false")
     | V_String s => s = text /\ forall v, is_i64 v -> text <> to_string_signed v
     | _ => False
     end).
Proof.
  assert (Hi : forall v, is_i64 v -> ParseScalar (to_string_signed v) = V_Int v).
  { intros v Hv. unfold ParseScalar. rewrite starts_number_written, stoll_at_written by done. by rewrite Z.eqb_refl. }
  split; [exact Hi|]. split; [done|]. split; [done|]. intros text.
  assert (Hn : forall v, is_i64 v -> text = to_string_signed v -> ParseScalar text = V_Int v) by (intros v Hv ->; auto).
  unfold ParseScalar in *.
  destruct (if starts_number text then _ else _) as [v|] eqn:E; [|by apply scalar_word].
  destruct (starts_number text); [|done]. destruct (stoll_at text) as [[x consumed]|] eqn:Et; [|done].
  destruct (Z.eqb_spec consumed (ssize text)) as [->|]; [|done]. injection E as <-. split_and!; [|done|done].
  apply (stoll_width text). unfold stoll. by rewrite Et.
Qed.

(** ** Examples and witnesses *)

Example pieces : SplitCommas ",obj/0,,obj/1," = ["obj/0"; "obj/1"] /\
  map ParseScalar ["-12"; "007"; "+5"; "1500 "; "9223372036854775808"; "true"] =
  [V_Int (-12); V_Int 7; V_String "+5"; V_String "1500 "; V_String "9223372036854775808"; V_Bool true].
Proof. split; reflexivity. Qed.

(** What a server answered to a greeting, and to a snapshot it accepted, then an
    answer to something else. *)
Definition collector_script : Script :=
  Eval vm_compute in mkScript [nth 0 demo_answers []; nth 2 demo_answers []; nth 1 demo_answers []] [].

Definition two_snapshots : CollectorOptions := collector_defaults <| co_port := 7411 |> <| co_count := 2 |>.

Definition exit_of_end (e : CollectorEnd Script) : option Z :=
  match e with Exited code _ _ _ => Some code | _ => None end.

Example exits_of_the_collector :
  let exit o := exit_of_end (collect (inr collector_script) o (fun _ => 5000000000)) in
  map exit [two_snapshots <| co_count := 1 |>; two_snapshots; two_snapshots <| co_port := 0 |>;
            two_snapshots <| co_source := "no source" |>; two_snapshots <| co_age_seconds := 9223372037 |>] =
  [Some 0; Some 1; Some 1; None; None].
Proof. vm_compute. reflexivity. Qed.

(** [--flood] is read, and the run is the same. *)
Example flood_changes_nothing o n sequence now clock (s : Progress Script) :
  publish_round (o <| co_flood := n |>) now s = publish_round o now s /\
  planned (o <| co_flood := n |>) clock = planned o clock /\
  summary_line (o <| co_flood := n |>) sequence sequence = summary_line o sequence sequence.
Proof. by destruct o. Qed.

Lemma collector_publishes_its_plan_witness :
  exists out p, collect (inr collector_script) two_snapshots (fun _ => 5000000000) =
    Exited 1 (out +:+ summary_line two_snapshots 1 1) "" p.
Proof.
  assert (Hx : match TryParseIdentity (co_source two_snapshots) with
    | None => False
    | Some source =>
        let '(status, p) := Publisher_Connect (inr collector_script) (new_publisher (client_config two_snapshots source)) in
        match faultless (map (planned two_snapshots (fun _ => 5000000000)) (seq 0 (Z.to_nat (co_count two_snapshots)))) with
        | inr snapshots =>
            let answers := fst (publish_answers snapshots p) in
            (status_ok status, accepted_count answers, forallb answer_accepted answers) = (true, 1, false)
        | inl _ => False
        end
    end) by (vm_compute; reflexivity).
  assert (Hc : co_count two_snapshots = 2 /\ is_u64 (co_count two_snapshots) /\ is_u64 (co_sequence_start two_snapshots))
    by (vm_compute; repeat split; discriminate).
  revert Hx Hc. generalize (inr collector_script : Decoded Script) as dialed. generalize two_snapshots as o.
  intros o dialed Hx (Hc & Hcount & Hstart).
  pose proof (collector_publishes_its_plan dialed o (fun _ => 5000000000) Hcount Hstart) as H.
  destruct (TryParseIdentity (co_source o)) as [source|]; [|destruct Hx].
  destruct (Publisher_Connect _ _) as [status p]. destruct (faultless _) as [|snapshots]; [destruct Hx|].
  destruct (publish_answers snapshots p) as [answers p']. cbn [fst] in Hx. injection Hx as Hs Ha Hf.
  rewrite Hs, Ha, Hf, Hc in H. destruct H as (_ & out & E). exists out. eexists. exact E.
Defined.
